(* ===== verification/_CoqProject ===== *)
-Q . S2P
Prelude.v
CLib.v
OpenPGP.v
Streams.v
Packets.v
Armor.v
Keys.v
KeyId.v
Decode.v
Merge.v
SksHash.v
Marshal.v
KeyBuffer.v
KeyArray.v
Digest.v
Sha1.v
Sha1Facts.v
Sha1x.v
Sighash.v
SigCheck.v
DbCtx.v
Clean.v
CleanFacts.v
CleanKeys.v
KeyUpdate.v
Stats.v
StatsFacts.v
StatsPaths.v
Words.v
Db4.v
Db4Facts.v
Db4Lookup.v
Db4Example.v
Db4Laws.v
Process.v
Keyd.v
KeydFacts.v
KeydLoop.v
Cgi.v
Photo.v
Conf.v
ConfFacts.v
Stacked.v
FileSystem.v
FsDb.v
FsDbFacts.v
FileDb.v
FsDbExample.v
Template.v
TemplateFacts.v
TemplateSem.v
TemplateExample.v
Aged.v
AgedFacts.v
KeyIndex.v
KeyIndexFacts.v
KeyIndexSafe.v
KeyIndexExample.v
Md5.v
Md5Facts.v
DigestHashes.v
Keyring.v
KeyringFacts.v
Lookup.v
CgiPrograms.v
CgiFacts.v
CgiExample.v
Hkp.v
HkpFacts.v
HkpUrl.v
Onak.v
OnakFacts.v
GpgWww.v
Mail.v
Degrees.v
DegreesFacts.v
Split.v
