(* ===== verification/Prelude.v ===== *)
(** * A verification development for the onak OpenPGP keyserver

    onak receives OpenPGP keys, brings them into a canonical form, merges them
    with what it has, stores them and hands them out.  A key takes this way
    through the program:

    - octets come in through a callback (charfuncs.c), possibly as ASCII armor
      (armor.c), and are split into packets (parsekey.c, read_openpgp_stream);
    - the packets are grouped into keys: primary key, user ids, subkeys, and
      the signatures on each (parsekey.c, parse_keys; mem.c);
    - the keys are cleaned according to a set of policies (cleankey.c), for
      which signatures are decoded (decodekey.c), the digest of what they sign
      is computed (sigcheck.c, hash-helper.c) and the signature over it is
      checked with the key of the signer (sigcheck.c, rsa.c);
    - the keys are merged with the stored ones (keydb/keydb.c,
      generic_update_keys; merge.c) under their fingerprints and key ids
      (keyid.c), unless they are on the blacklist (keyarray.c);
    - they are kept in a backend, by default Berkeley DB tables with indices
      from words, key ids, subkeys and SKS hashes (keydb/keydb_db4.c,
      wordlist.c), or files with hard links as indices (keydb/keydb_fs.c); a
      stack of backends copies what a lower one has to the first
      (keydb/keydb_stacked.c); programs may reach a backend through a daemon
      that owns it (keydb/keyd.c) with one that talks to the daemon's socket
      (keydb/keydb_keyd.c);
    - keys go out as packets and armor again, and to other servers by their SKS
      hash (keyid.c, marshal.c); chains of signatures between keys are searched
      in a graph that is filled from the database on the way (stats.c, hash.c,
      ll.c, keydb/keydb.c);
    - which backends there are, the policies and the limits come from a
      configuration file (onak-conf.c); web requests come as CGI parameters
      (cgi/getcgi.c) and are answered by the programs for lookups, submissions,
      reconciliation and paths (cgi/lookup.c, add.c, hashquery.c, gpgwww.c),
      with keys, with the photos in keys (photoid.c), or with listings
      (keyindex.c) that are put together from templates (template.c);
    - a server may stand in front of another one (keydb/keydb_hkp.c) or of a
      keyring (keydb/keydb_keyring.c); the administrator uses onak.c, also to
      find and remove keys that are too old (aged.c).

    ** How C is modelled

    A function is a Rocq function into [outcome]: [Done] with what it returns
    and what it wrote, or [Fault] where C gives it no meaning: a read outside
    an allocated object, a read of an uninitialised variable, a NULL
    dereference, a failed assertion.  Reads through a pointer are [d.[i]], which
    checks the bounds.  Integers are [Z]; every operation that can leave the
    range of its C type is wrapped with [u8], [u32], [u64], [i32] or [i64]; what
    stays in range is not wrapped.  A size that is stored into an int, or counted
    with one, goes through [i32]: the theorems name the sizes up to which that
    is harmless.  Octets are [Z] with the predicate [byte].  A
    C list is the Rocq list of the payloads of its nodes; a buffer with a
    length keeps both, so that the two can disagree.  Variables that may be
    uninitialised are [option] cells ([None] until written).  Callbacks and
    external code are type classes: [Source] and [Sink] (getchar and putchar
    functions), [Hashes] (the digest functions), [Nettle] (GMP and Nettle),
    [KeyDb] and [KeyDbMore] (a database backend), [Bdb] (the calls of Berkeley
    DB), [BuildConfig] (the #ifdefs), with their contracts as classes of laws
    ([Delivers], [Accepts], [KeyDbLaws], [KeyDbDeletes], [BdbLaws], [CurlEscapes])
    that clients are proved against and an implementation discharges, for
    [KeyDbLaws] the Berkeley DB backend of the repository.  Shared nodes (the
    signature graph) are positions in a heap.  Processes that talk over a
    socket are trees of reads and writes, run against each other by a step
    relation on two queues of octets; a small write arrives at once, a larger one
    in pieces between which the other side runs, and a read takes what is there.  Numbers go over the socket and into
    the tables little endian.  Files are names for inodes in a map, so that links
    share what is written; the order of a directory listing is left open
    ([Listing]).

    ** Files

    - Prelude.v (this file): [outcome], C integers and buffer reads, tactics,
      the hint database [onak], lemmas on lists and integers.
    - CLib.v: functions of the C library on strings.
    - OpenPGP.v: constants and structures of openpgp.h, onak.h, keystructs.h;
      [wf_packet].
    - Streams.v: the callbacks, their contracts, and the memory buffer of
      charfuncs.c, which satisfies them.
    - Packets.v: read_openpgp_stream and write_openpgp_stream of parsekey.c.
    - Armor.v: armor.c, the encoder as a [Sink] over a [Sink] and the decoder as
      a [Source] over a [Source].
    - Keys.v: parse_keys and flatten_publickey of parsekey.c, packet_dup and
      packet_list_add of mem.c.
    - KeyId.v: fingerprints and key ids of keyid.c; [Hashes], [BuildConfig].
    - Decode.v: decodekey.c.
    - Merge.v: merge.c.
    - SksHash.v: sortpackets and get_skshash of keyid.c.
    - Marshal.v: marshal.c.
    - KeyArray.v: keyarray.c.
    - Digest.v: the words and blocks that the digests share; Sha1.v, Sha1Facts.v:
      sha1.c against the standard; Sha1x.v: sha1x.c and the octets it loses.
    - Sighash.v: hash-helper.c, over sha1x.c chunk by chunk, and
      calculate_packet_sighash of sigcheck.c.
    - SigCheck.v: the rest of sigcheck.c, and rsa.c; [Nettle].
    - DbCtx.v: [KeyDb], the operations of struct onak_dbctx (keydb.h).
    - Clean.v, CleanFacts.v, CleanKeys.v: cleankey.c, the correctness of its
      steps, and of the pass as a whole.
    - KeyUpdate.v: the generic operations of keydb/keydb.c; [KeyDbLaws].
    - KeyBuffer.v: keys as octets in a buffer, as the daemon and the Berkeley DB
      backend write and read them.
    - Stats.v, StatsFacts.v, StatsPaths.v: ll.c, hash.c, stats.c and the
      getkeysigs functions of keydb/keydb.c; the invariant of the node table and
      of the search; paths.
    - Words.v: wordlist.c.
    - Db4.v, Db4Facts.v, Db4Lookup.v, Db4Example.v: keydb_db4.c over [Bdb]; the
      tables as a map from fingerprints to keys ([consistent]), storing and
      deleting; lookups; an instance of [Bdb] and its laws.
    - Db4Laws.v: the Berkeley DB backend as an instance of [KeyDb], and that it
      keeps [KeyDbLaws].
    - Process.v: two processes and a socket between them.
    - Keyd.v, KeydFacts.v, KeydLoop.v: the commands of keyd.c and the calls of
      keydb_keyd.c; sessions; the daemon's main loop.
    - Cgi.v: the parsing of cgi/getcgi.c.
    - Photo.v: photoid.c.
    - Conf.v, ConfFacts.v: onak-conf.c; writing and reading a file.
    - Stacked.v: keydb_stacked.c over [KeyDb].
    - FileSystem.v: names, files and directories; [Listing].
    - FsDb.v, FsDbFacts.v: keydb_fs.c, key-store.c and the file callbacks of
      charfuncs.c; what storing does, and that what is stored is found.
    - FileDb.v: keydb_file.c.  FsDbExample.v: both file backends with a key.
    - Template.v, TemplateFacts.v, TemplateSem.v, TemplateExample.v: template.c
      and tmpl-render.c; that rendering stays in the text and ends; templates as
      trees and what they mean; an example.
    - Aged.v, AgedFacts.v: aged.c.
    - KeyIndex.v, KeyIndexFacts.v, KeyIndexSafe.v, KeyIndexExample.v: keyindex.c;
      escaping and photo numbers; that listings are made to their end; the
      machine readable index and the page of a template.
    - Md5.v, Md5Facts.v: md5.c against the standard; DigestHashes.v: the digests
      of the repository as an instance of [Hashes].
    - Keyring.v, KeyringFacts.v: keydb_keyring.c.
    - Lookup.v: cgi/lookup.c.  CgiPrograms.v: add.c and hashquery.c of cgi/ and
      the reading of a request; CgiFacts.v, CgiExample.v: keys, photos and
      queries through these programs.
    - Hkp.v, HkpFacts.v, HkpUrl.v: keydb_hkp.c; the backend in front of the CGI
      programs of another server; addresses.
    - Onak.v, OnakFacts.v: onak.c.
    - GpgWww.v: cgi/gpgwww.c.
    - Mail.v: sendsync.c, and the mail at the other end.
    - Degrees.v, DegreesFacts.v: sixdegrees.c and maxpath.c; what is counted.
    - Split.v: splitkeys.c.

    Definitions have the names of the C functions; a loop inside a function is
    a [Fixpoint] of its own, named after what it does.

    ** What the theorems show

    - Codecs: packets survive writing and reading, in every header format and
      length encoding; armor survives encoding and decoding; keys survive
      flattening and parsing; marshalled strings, hashes, arrays and keys read
      back.  The readers terminate on every input and read in bounds, up to the
      exceptions the theorems name.
    - Decoding: the subpacket parser reads in bounds and stores what the last
      issuer and creation subpackets say; signer and time of a signature.
    - Identity: key ids of version 4 and 5 keys are part of the fingerprint,
      those of version 3 keys the low bits of the modulus; the SKS hash does
      not depend on the order of the packets.
    - Signatures: the digest is taken over exactly the octets OpenPGP
      prescribes ([signed_octets] is written from the standard's formats), for
      SHA1X as long as no chunk is a lone octet at an odd position, and
      the crypto library is asked about exactly the encoded numbers; both
      without faults on arbitrary packets, one truncated format apart.
    - Merging: the two results of a merge are the declarative union
      ([merged_list]) and difference ([diff_list]); nothing is lost; merging a
      key with itself changes nothing.
    - Cleaning: every policy leaves exactly what it should, and the whole pass
      terminates without faults on readable keys and establishes [cleaned].
    - Storage: an update is the pointwise merge on every lawful backend, and the
      Berkeley DB backend is one, as long as no incoming key is a subkey of
      another one; the blacklist's binary search and insertion implement a set.
    - Tables: storing and deleting in the Berkeley DB backend are insertion and
      removal in a map of keys, with the word and key id indices exactly those
      of the stored keys, and the records that a deletion takes from other keys
      named; lookups by fingerprint, key id, text and SKS hash
      answer from that map.
    - Other backends: a stack answers with the keys of the first backend that has
      any, cleaned, and copies them to its first backend; in the file backend a stored key is found
      by every name it has, and nothing else changes; in the flat file backend
      short key ids collide.
    - Configuration and requests: a written configuration is read back up to
      what the file does not hold, and every file with every list of blocked
      keys that it names is read without a fault, one short file name apart; form
      parameters survive their encoding; photo ids are the images of the user
      attributes.
    - Digests: the contexts of sha1.c and md5.c, fed in any pieces on a host of
      either byte order, give the digests the standards define ([sha1], [md5]),
      and so does the fingerprint of a key that is computed with them.
    - Templates and listings: rendering puts out what the tree of a template
      means; escaped values hold no markup; every listing of readable keys, as
      text, for machines or as a page, is made to its end as long as the escaped
      user ids fit their buffers; user ids can be read back from the machine readable
      index; the numbers of photos in a page are those the program answers to.
    - Programs: a key that one server serves arrives at another one through a
      visitor's form, through the forwarding backend, through a mail or through a
      dump, and a stream of keys is split without a loss, or, with one key per
      file or a bare key at the end, uses a freed object; a
      reconciliation query is answered with the keys of its hashes; the path
      finder sends the keys on the paths it prints; clean-aged removes exactly
      the keys that are older than allowed or expired ([too_old]).
    - Keyrings: a variable that is not initialised is used for every file of two
      keys or more; if it happens to be NULL, all keys but the last are found.
    - The daemon: every interleaving of a client's session with it, with keys
      arriving in any pieces, is finite, does not block, and ends as if the
      client had called the database; the
      main loop keeps its poll set in step with its clients.
    - The signature graph: the search finds a shortest chain and terminates; the
      keys within so many signatures are counted; the
      paths that are shown are chains, each a shortest one that avoids the inner
      keys of those before.
    - A group of theorems states where the code falls short of its
      documentation or of the C standard (reads behind a packet, a freed result,
      counts that are not reset, a checksum that is not checked, ...).

    ** Fuel

    Loops whose recursion is not structural take a [nat].  The callers pass a
    bound derived from the data: the length of the buffer or list plus one (each
    turn consumes at least one octet or node), 64 for the doubling of a 64-bit
    size, the number of elements for the binary search.  The stream readers take
    it as an argument, since the octets that will come are not known to them;
    their theorems ask for more fuel than there are octets.  The searches of the
    signature graph need one turn per key that the database can reach, the
    daemon's loops one per message and the loops that fill a buffer from the
    socket one per octet.  No theorem about a successful run has an
    [OutOfFuel] escape: fuel is shown to suffice.  The one loop that never ends
    (a store command whose client is gone) is shown to exceed every bound.

    ** Not modelled

    Logging; allocation failure, except for the buffer of a packet; release of
    memory, except where a released object is used (generic_fetch_key, a lookup
    in a stack, the form data of the forwarding backend); the tail pointers
    last_sig, last_uid, last_subkey, which are the ends of their lists; the
    callbacks for the standard streams; partial writes to files and paths that
    do not fit into their buffers.  Of the Berkeley DB backend the opening,
    upgrading and closing of the environment are left out, of the daemon the
    creation of its socket and failing writes to it, of the file backend its
    initialisation, of the path finder the HTML page around the paths.  Left out are the
    PostgreSQL backend, which is SQL text for a server that is not part of the
    repository, the dummy and the loaded backends, some short tools around
    modelled functions (stripkey.c, wotsap.c, main.c), keydctl.c,
    log.c and cleanup.c,
    and the separate program gpgstats.

    ** Order of work

    The codecs, decoding, merging, signature checks, cleaning and updates came
    first, then the signature graph, the Berkeley DB, stacked and file backends,
    the key daemon and the configuration, and last the templates, the listings,
    the digests, the keyring and HKP backends and the programs.  What would come
    next are sessions of the daemon over the Berkeley DB backend and the
    initialisation of the backends. *)

From Stdlib Require Import String Ascii.
From Stdlib Require Export ZArith Lia.
From stdpp Require Export base tactics numbers option sets list_numbers list.

#[global] Open Scope Z_scope.

(** * Outcomes of C code

    A function of the program either runs to its [return] ([Done]) or reaches
    a point where the C standard gives it no meaning any more, or where the
    program kills itself ([Fault]).  [OutOfFuel] is the only constructor that
    does not describe the program: it is the answer of a bounded loop whose
    bound was too small, and the theorems show it is never reached with the
    bounds the model uses. *)
Inductive fault : Type :=
  | OutOfBounds      (* a read outside an allocated object *)
  | Uninitialised    (* a read of an object that was never written *)
  | NullDeref        (* a dereference of NULL *)
  | UseAfterFree     (* a dereference of a freed node *)
  | AssertFailed     (* assert() / log_assert() *)
  | OutOfFuel.

Inductive outcome (A : Type) : Type :=
  | Done (a : A)
  | Fault (f : fault).

Arguments Done {A} a.
Arguments Fault {A} f.

#[global] Instance fault_eq_dec : EqDecision fault.
Proof. solve_decision. Defined.

#[global] Instance outcome_eq_dec {A} `{EqDecision A} : EqDecision (outcome A).
Proof. solve_decision. Defined.

#[global] Instance outcome_ret : MRet outcome := @Done.

#[global] Instance outcome_bind : MBind outcome := fun A B k m =>
  match m with
  | Done a => k a
  | Fault f => Fault f
  end.

(** [assert(b)]. *)
Definition c_assert (b : bool) : outcome unit :=
  if b then Done tt else Fault AssertFailed.

(** Reading an automatic variable: [None] is a variable nobody wrote. *)
Definition read_var (v : option Z) : outcome Z :=
  match v with
  | Some z => Done z
  | None => Fault Uninitialised
  end.

(** * Bytes and machine integers *)

Definition u8 (x : Z) : Z := x mod 2 ^ 8.
Definition u32 (x : Z) : Z := x mod 2 ^ 32.
Definition u64 (x : Z) : Z := x mod 2 ^ 64.

(** Two's complement wrap to [int]. *)
Definition i32 (x : Z) : Z := (x + 2 ^ 31) mod 2 ^ 32 - 2 ^ 31.

(** And to [long], [ssize_t] and [time_t]. *)
Definition i64 (x : Z) : Z := (x + 2 ^ 63) mod 2 ^ 64 - 2 ^ 63.

Definition byte (b : Z) : Prop := 0 <= b < 256.

#[global] Instance byte_dec b : Decision (byte b).
Proof. unfold byte. apply _. Defined.

(** Length of a buffer as a C size. *)
Definition zlen {A} (l : list A) : Z := Z.of_nat (length l).

Declare Scope onak_scope.
Delimit Scope onak_scope with onak.
#[global] Open Scope onak_scope.

(** [d.[i]]: the C expression [d[i]] on an allocated buffer [d]. *)
Definition rd (d : list Z) (i : Z) : outcome Z :=
  if i <? 0 then Fault OutOfBounds
  else match d !! Z.to_nat i with
       | Some b => Done b
       | None => Fault OutOfBounds
       end.

Arguments rd : simpl never.

Notation "d .[ i ]" := (rd d i) (at level 1, i at level 200, left associativity,
  format "d .[ i ]") : onak_scope.

(** The recurring C idiom [x = d[o]; x <<= 8; x += d[o+1]; ...] on a 64-bit
    accumulator: [n] bytes from offset [o], most significant first. *)
Fixpoint rd_be (d : list Z) (o : Z) (n : nat) (acc : Z) : outcome Z :=
  match n with
  | O => Done acc
  | S n' => b ← d.[o]; rd_be d (o + 1) n' (u64 (Z.shiftl acc 8 + b))
  end.

(** The number a list of bytes stands for, most significant byte first. *)
Definition be_value (bs : list Z) : Z := foldl (fun acc b => acc * 256 + b) 0 bs.

(** [htonl] followed by a 4-byte store: a 32-bit value in network order. *)
Definition htonl_bytes (x : Z) : list Z :=
  [u8 (Z.shiftr x 24); u8 (Z.shiftr x 16); u8 (Z.shiftr x 8); u8 x].

(** [n] octets of a number as they are in memory, the lowest first. *)
Fixpoint le_bytes (n : nat) (x : Z) : list Z :=
  match n with O => [] | S n => x mod 256 :: le_bytes n (x / 256) end.

Fixpoint le_value (bs : list Z) : Z :=
  match bs with [] => 0 | b :: bs => b + 256 * le_value bs end.

(** [memcmp] of the first [n] bytes; only its sign is used by the program. *)
Fixpoint memcmp (a b : list Z) (n : nat) : Z :=
  match n, a, b with
  | S n', x :: a', y :: b' =>
      if x <? y then -1 else if y <? x then 1 else memcmp a' b' n'
  | _, _, _ => 0
  end.

(** The bytes in front of the first NUL. *)
Fixpoint c_string (bs : list Z) : list Z :=
  match bs with
  | [] => []
  | b :: bs => if b =? 0 then [] else b :: c_string bs
  end.

(** * Automation *)

Create HintDb onak.
Create Rewrite HintDb onak.

(** Splits a [Done] result of a sequence of binds into the results of its
    parts. *)
Lemma bind_Done {A B} (m : outcome A) (k : A -> outcome B) b :
  m ≫= k = Done b <-> exists a, m = Done a /\ k a = Done b.
Proof. destruct m; cbn; naive_solver. Qed.

(** The code runs to its end. *)
Definition runs {A} (m : outcome A) : Prop := exists a, m = Done a.

Lemma runs_done {A} (a : A) : runs (Done a).
Proof. by exists a. Qed.

Lemma runs_bind {A B} (m : outcome A) (k : A -> outcome B) :
  runs m -> (forall a, m = Done a -> runs (k a)) -> runs (m ≫= k).
Proof. intros [a ->] Hk. by apply Hk. Qed.

#[export] Hint Resolve runs_done : onak.

(** Runs the first statement of a sequence, which [auto] can run. *)
Ltac runs_step x := apply runs_bind; [auto with onak | intros x ?; cbv beta].

Ltac inv_done :=
  repeat match goal with
  | H : (_ ≫= _) = Done _ |- _ => apply bind_Done in H; destruct H as (? & ? & ?)
  | H : Done _ = Done _ |- _ => injection H; clear H; intros; subst
  | H : Fault _ = Done _ |- _ => discriminate H
  | H : Done _ = Fault _ |- _ => discriminate H
  | H : mret _ = Done _ |- _ => unfold mret, outcome_ret in H
  end.

(** Case analysis on every boolean test of the goal or the hypotheses, turning
    comparisons of integers into propositions. *)
Ltac zbool :=
  repeat match goal with
  | H : (_ <? _) = true |- _ => apply Z.ltb_lt in H
  | H : (_ <? _) = false |- _ => apply Z.ltb_ge in H
  | H : (_ <=? _) = true |- _ => apply Z.leb_le in H
  | H : (_ <=? _) = false |- _ => apply Z.leb_gt in H
  | H : (_ =? _) = true |- _ => apply Z.eqb_eq in H
  | H : (_ =? _) = false |- _ => apply Z.eqb_neq in H
  | H : (_ && _)%bool = true |- _ => apply andb_prop in H; destruct H
  | H : (_ || _)%bool = false |- _ => apply orb_false_elim in H; destruct H
  | H : negb _ = true |- _ => apply negb_true_iff in H
  | H : negb _ = false |- _ => apply negb_false_iff in H
  end.

Ltac case_if :=
  match goal with
  | |- context [if ?b then _ else _] => destruct b eqn:?
  end.

Ltac case_if_in H :=
  match type of H with
  | context [if ?b then _ else _] => destruct b eqn:?
  end.

(** * Shared lemmas *)

Lemma zlen_nonneg {A} (l : list A) : 0 <= zlen l.
Proof. unfold zlen. lia. Qed.

Lemma zlen_app {A} (l k : list A) : zlen (l ++ k) = zlen l + zlen k.
Proof. unfold zlen. rewrite length_app. lia. Qed.

Lemma zlen_cons {A} (x : A) l : zlen (x :: l) = 1 + zlen l.
Proof. unfold zlen. cbn [length]. lia. Qed.

Lemma zlen_nil {A} : zlen (@nil A) = 0.
Proof. reflexivity. Qed.

Lemma zlen_pos {A} (l : list A) : l <> [] -> 0 < zlen l.
Proof. destruct l as [|x l]; [done|]. rewrite zlen_cons. pose proof (zlen_nonneg l). lia. Qed.

#[export] Hint Rewrite @zlen_app @zlen_cons @zlen_nil : onak.
#[export] Hint Resolve zlen_nonneg : onak.

Lemma u8_byte x : byte (u8 x).
Proof. unfold byte, u8. apply Z.mod_pos_bound. lia. Qed.

Lemma u8_small x : byte x -> u8 x = x.
Proof. unfold byte, u8. intros. apply Z.mod_small. lia. Qed.

Lemma u64_small x : 0 <= x < 2 ^ 64 -> u64 x = x.
Proof. apply Z.mod_small. Qed.

Lemma u32_small x : 0 <= x < 2 ^ 32 -> u32 x = x.
Proof. apply Z.mod_small. Qed.

Lemma i32_small x : - 2 ^ 31 <= x < 2 ^ 31 -> i32 x = x.
Proof. intros. unfold i32. rewrite Z.mod_small by lia. lia. Qed.

Lemma i64_small x : - 2 ^ 63 <= x < 2 ^ 63 -> i64 x = x.
Proof. intros. unfold i64. rewrite Z.mod_small by lia. lia. Qed.

Lemma i32_range x : - 2 ^ 31 <= i32 x < 2 ^ 31.
Proof. unfold i32. pose proof (Z.mod_pos_bound (x + 2 ^ 31) (2 ^ 32)). lia. Qed.

#[export] Hint Resolve u8_byte : onak.

Lemma rd_Done d i b : d.[i] = Done b <-> 0 <= i /\ d !! Z.to_nat i = Some b.
Proof.
  unfold rd. destruct (Z.ltb_spec i 0).
  - split; [discriminate | lia].
  - destruct (d !! Z.to_nat i) eqn:E; split; naive_solver.
Qed.

Lemma rd_ok d i : 0 <= i < zlen d -> exists b, d.[i] = Done b.
Proof.
  unfold zlen. intros. destruct (lookup_lt_is_Some_2 d (Z.to_nat i)) as [b Hb]; [lia|].
  exists b. apply rd_Done. auto with lia.
Qed.

Lemma rd_ok_byte d i :
  Forall byte d -> 0 <= i < zlen d -> exists b, d.[i] = Done b /\ byte b.
Proof.
  intros Hd Hi. destruct (rd_ok d i Hi) as [b Hb]. exists b. split; [done|].
  apply rd_Done in Hb as [_ Hb]. by eapply Forall_lookup_1.
Qed.

Lemma rd_Done_inv d i b : d.[i] = Done b -> 0 <= i < zlen d.
Proof.
  intros [? H]%rd_Done. apply lookup_lt_Some in H. unfold zlen. lia.
Qed.

Lemma rd_byte d i b : Forall byte d -> d.[i] = Done b -> byte b.
Proof. intros Hd [_ H]%rd_Done. by eapply Forall_lookup_1. Qed.

Lemma rd_oob d i : ~ (0 <= i < zlen d) -> d.[i] = Fault OutOfBounds.
Proof.
  intros H. unfold rd. destruct (Z.ltb_spec i 0); [done|].
  rewrite lookup_ge_None_2; [done|]. unfold zlen in H. lia.
Qed.

Lemma rd_app_l d e i : 0 <= i < zlen d -> (d ++ e).[i] = d.[i].
Proof.
  unfold zlen. intros. unfold rd. destruct (Z.ltb_spec i 0); [done|].
  rewrite lookup_app_l by lia. done.
Qed.

Lemma rd_app_r d e i : zlen d <= i -> (d ++ e).[i] = e.[i - zlen d].
Proof.
  unfold zlen. intros. unfold rd.
  destruct (Z.ltb_spec i 0), (Z.ltb_spec (i - Z.of_nat (length d)) 0); try lia.
  rewrite lookup_app_r by lia. by replace (Z.to_nat (i - Z.of_nat (length d)))
    with (Z.to_nat i - length d)%nat by lia.
Qed.

Lemma rd_drop d k i : 0 <= i -> (drop k d).[i] = d.[Z.of_nat k + i].
Proof.
  intros Hi. unfold rd. destruct (Z.ltb_spec i 0), (Z.ltb_spec (Z.of_nat k + i) 0); try lia.
  rewrite lookup_drop. by replace (Z.to_nat (Z.of_nat k + i)) with (k + Z.to_nat i)%nat by lia.
Qed.

Lemma rd_cons_0 b d : (b :: d).[0] = Done b.
Proof. reflexivity. Qed.

Lemma rd_cons_1 a b d : (a :: b :: d).[1] = Done b.
Proof. reflexivity. Qed.

Lemma shiftl_8 x : Z.shiftl x 8 = x * 256.
Proof. rewrite Z.shiftl_mul_pow2 by lia. done. Qed.

Lemma shiftr_div x n : 0 <= n -> Z.shiftr x n = x / 2 ^ n.
Proof. apply Z.shiftr_div_pow2. Qed.

(** The 64-bit accumulation loop computes the big-endian value as long as at
    most eight bytes are accumulated. *)
Lemma rd_be_value d o n acc k :
  Forall byte d -> 0 <= o -> o + Z.of_nat n <= zlen d ->
  0 <= acc < 256 ^ Z.of_nat k -> (n + k <= 8)%nat ->
  rd_be d o n acc =
    Done (foldl (fun a b => a * 256 + b) acc (take n (drop (Z.to_nat o) d))).
Proof.
  intros Hd. revert o acc k. induction n as [|n IH]; intros o acc k Ho Hlen Hacc Hk; [done|].
  cbn [rd_be]. destruct (rd_ok_byte d o) as (b & Hb & Hbyte); [done | lia |].
  rewrite Hb. cbn [mbind outcome_bind]. rewrite shiftl_8.
  assert (Hpow : 256 ^ Z.of_nat (S k) <= 2 ^ 64).
  { change (2 ^ 64) with (256 ^ 8). apply Z.pow_le_mono_r; lia. }
  assert (HS : 256 ^ Z.of_nat (S k) = 256 ^ Z.of_nat k * 256)
    by (rewrite Nat2Z.inj_succ, Z.pow_succ_r by lia; lia).
  unfold byte in Hbyte. rewrite u64_small by nia.
  rewrite (IH (o + 1) (acc * 256 + b) (S k)) by (try lia; nia).
  apply rd_Done in Hb as [_ Hb]. f_equal.
  replace (Z.to_nat (o + 1)) with (S (Z.to_nat o)) by lia.
  by rewrite (drop_S d b (Z.to_nat o) Hb).
Qed.

Lemma foldl_be bs acc :
  foldl (fun a b => a * 256 + b) acc bs = acc * 256 ^ zlen bs + be_value bs.
Proof.
  unfold be_value. revert acc. induction bs as [|b bs IH]; intros acc.
  { rewrite zlen_nil, Z.pow_0_r. cbn [foldl]. lia. }
  cbn [foldl]. rewrite (IH (acc * 256 + b)), (IH (0 * 256 + b)), zlen_cons.
  rewrite Z.pow_add_r by auto with onak lia. change (256 ^ 1) with 256. ring.
Qed.

Lemma be_value_app xs ys : be_value (xs ++ ys) = be_value xs * 256 ^ zlen ys + be_value ys.
Proof. unfold be_value at 1. by rewrite foldl_app, foldl_be. Qed.

Lemma be_value_bound bs : Forall byte bs -> 0 <= be_value bs < 256 ^ zlen bs.
Proof.
  induction bs as [|b bs IH] using rev_ind; [done|].
  intros [Hbs Hb%Forall_inv]%Forall_app. rewrite be_value_app, zlen_app.
  specialize (IH Hbs). change (zlen [b]) with 1. change (be_value [b]) with b.
  rewrite Z.pow_add_r by auto with onak lia. change (256 ^ 1) with 256. unfold byte in Hb. lia.
Qed.

(** Eight bytes read in a row. *)
Lemma rd_be_8 d o :
  Forall byte d -> 0 <= o -> o + 8 <= zlen d ->
  rd_be d o 8 0 = Done (be_value (take 8 (drop (Z.to_nat o) d))).
Proof. intros. by rewrite (rd_be_value d o 8 0 0). Qed.

Lemma memcmp_refl a n : memcmp a a n = 0.
Proof. revert n; induction a; intros [|n]; cbn; rewrite ?Z.ltb_irrefl; auto. Qed.

Lemma memcmp_opp a b n : memcmp b a n = - memcmp a b n.
Proof.
  revert a b. induction n as [|n IH]; intros [|x a] [|y b]; try done. cbn [memcmp].
  destruct (Z.ltb_spec y x), (Z.ltb_spec x y); try lia. apply IH.
Qed.

Lemma memcmp_trans a b c n :
  length a = length b -> length b = length c ->
  memcmp a b n < 0 -> memcmp b c n < 0 -> memcmp a c n < 0.
Proof.
  revert a b c. induction n as [|n IH]; intros [|x a] [|y b] [|z c]; try done. cbn [memcmp length].
  intros Hab Hbc. destruct (Z.ltb_spec x y), (Z.ltb_spec y x); try lia;
    destruct (Z.ltb_spec y z), (Z.ltb_spec z y); try lia;
    destruct (Z.ltb_spec x z), (Z.ltb_spec z x); try lia. apply IH; lia.
Qed.

Lemma memcmp_eq a b : length a = length b -> memcmp a b (length a) = 0 -> a = b.
Proof.
  revert b. induction a as [|x a IH]; intros [|y b] Hl; try done. cbn [length memcmp].
  destruct (Z.ltb_spec x y), (Z.ltb_spec y x); try done. intros Hm.
  f_equal; [lia|]. apply IH; [cbn in Hl; lia | done].
Qed.

(** Checking a decidable property of every small number by computation. *)
Lemma range_check (n : Z) (P : Z -> Prop) `{forall x, Decision (P x)} :
  bool_decide (Forall P (seqZ 0 n)) = true -> forall x, 0 <= x < n -> P x.
Proof.
  intros Hall%bool_decide_eq_true x Hx. rewrite Forall_forall in Hall.
  apply Hall, elem_of_seqZ. lia.
Qed.

(** Proves [forall x, 0 <= x < n -> P x] by running [P]. *)
Ltac by_range := refine (range_check _ _ _); vm_compute; reflexivity.

Lemma htonl_bytes_value x :
  0 <= x < 2 ^ 32 ->
  foldl (fun acc b => Z.shiftl acc 8 + b) 0 (htonl_bytes x) = x.
Proof.
  intros Hx. unfold htonl_bytes, u8. cbn [foldl].
  rewrite !shiftl_8, !shiftr_div by lia.
  change (2 ^ 8) with 256. change (2 ^ 16) with (256 * 256).
  change (2 ^ 24) with (256 * 256 * 256).
  rewrite <- !Z.div_div by lia.
  assert (x / 256 / 256 / 256 < 256).
  { repeat apply Z.div_lt_upper_bound; lia. }
  rewrite (Z.mod_small (x / 256 / 256 / 256)) by (split; [repeat apply Z.div_pos|]; lia).
  pose proof (Z_div_mod_eq_full x 256). pose proof (Z_div_mod_eq_full (x / 256) 256).
  pose proof (Z_div_mod_eq_full (x / 256 / 256) 256). lia.
Qed.

Lemma htonl_bytes_byte x : Forall byte (htonl_bytes x).
Proof. unfold htonl_bytes. repeat constructor; apply u8_byte. Qed.

Lemma land_ff x : 0 <= x -> Z.land x 0xFF = x mod 256.
Proof. intros. change 0xFF with (Z.ones 8). apply Z.land_ones. lia. Qed.

Lemma u8_land_ff x : 0 <= x -> u8 (Z.land x 0xFF) = u8 x.
Proof. intros. rewrite land_ff by done. unfold u8. by rewrite Z.mod_mod. Qed.

Lemma foldl_app_end {A B} (f : A -> B -> A) a l x : foldl f a (l ++ [x]) = f (foldl f a l) x.
Proof. by rewrite foldl_app. Qed.

Lemma filter_keep {A} (P : A -> Prop) `{forall x, Decision (P x)} l : Forall P l -> filter P l = l.
Proof. induction 1 as [|x l Hx _ IH]; [done|]. by rewrite filter_cons_True, IH. Qed.

(** Elements with different images are found by their image. *)
Lemma NoDup_map_inj {A B} (f : A -> B) l x y : NoDup (map f l) -> x ∈ l -> y ∈ l -> f x = f y -> x = y.
Proof.
  intros Hnd [i Hi]%list_elem_of_lookup [j Hj]%list_elem_of_lookup E.
  assert (i = j) as <-; [|congruence]. eapply NoDup_lookup; [exact Hnd | |].
  - rewrite list_lookup_fmap, Hi. done.
  - rewrite list_lookup_fmap, Hj. cbn. by rewrite E.
Qed.

(** The bytes of a string literal. *)
Definition str (s : string) : list Z :=
  map (fun a => Z.of_N (Ascii.N_of_ascii a)) (String.list_ascii_of_string s).

(** * Numbers in memory *)

Lemma le_value_bytes n x : 0 <= x < 256 ^ Z.of_nat n -> le_value (le_bytes n x) = x.
Proof.
  revert x. induction n as [|n IH]; intros x Hx; cbn [le_bytes le_value].
  - change (256 ^ Z.of_nat 0) with 1 in Hx. lia.
  - rewrite Nat2Z.inj_succ, Z.pow_succ_r in Hx by lia.
    rewrite IH; [|split; [apply Z.div_pos | apply Z.div_lt_upper_bound]; lia].
    pose proof (Z.div_mod x 256). lia.
Qed.

Lemma length_le_bytes n x : length (le_bytes n x) = n.
Proof. revert x. induction n; intros; cbn; auto. Qed.

Lemma zlen_le_bytes n x : zlen (le_bytes n x) = Z.of_nat n.
Proof. unfold zlen. by rewrite length_le_bytes. Qed.
