(* ===== verification/CLib.v ===== *)
(** Functions of the C library on strings, for the C locale: characters, lines
    of a file, tokens, and numbers as text.  Strings are octets without their
    terminating NUL. *)

From S2P Require Import Prelude.

(** * Characters *)

Definition isspace (c : Z) : bool := (c =? 32) || ((9 <=? c) && (c <=? 13)).

Definition isdigit (c : Z) : bool := (48 <=? c) && (c <=? 57).

Definition tolower (c : Z) : Z := if (65 <=? c) && (c <=? 90) then c + 32 else c.

(** [!strcasecmp(a, b)] *)
Definition caseeq (a b : list Z) : bool := bool_decide (map tolower a = map tolower b).

(** [!strcmp(a, b)] *)
Definition streq (a b : list Z) : bool := bool_decide (a = b).

(** [!strncmp(prefix, s, strlen(prefix))] *)
Fixpoint starts (prefix s : list Z) : bool :=
  match prefix, s with
  | [], _ => true
  | p :: prefix, c :: s => (p =? c) && starts prefix s
  | _, [] => false
  end.

(** * Lines *)

(** [fgets(curline, n + 1, f)] on the rest of a file: the line with its newline,
    what is left, and whether the end of the file was met while reading. *)
Fixpoint fgets (n : nat) (s : list Z) : list Z * list Z * bool :=
  match n with
  | O => ([], s, false)
  | S n =>
      match s with
      | [] => ([], [], true)
      | c :: s =>
          if c =? 10 then ([c], s, false)
          else let '(line, rest, eof) := fgets n s in (c :: line, rest, eof)
      end
  end.

(** * Tokens *)

(** [strchr]: what is in front of and behind the first separator. *)
Fixpoint split_at (sep : Z) (s : list Z) : list Z * list Z :=
  match s with
  | [] => ([], [])
  | c :: s => if c =? sep then ([], s) else let '(t, rest) := split_at sep s in (c :: t, rest)
  end.

Fixpoint skip_char (sep : Z) (s : list Z) : list Z :=
  match s with
  | c :: rest => if c =? sep then skip_char sep rest else s
  | [] => []
  end.

(** [strtok]: separators are skipped, then the token ends at the next one. *)
Fixpoint strtok_all (fuel : nat) (sep : Z) (s : list Z) : outcome (list (list Z)) :=
  match skip_char sep s with
  | [] => Done []
  | s =>
      match fuel with
      | O => Fault OutOfFuel
      | S fuel =>
          let '(token, rest) := split_at sep s in
          tokens ← strtok_all fuel sep rest;
          Done (token :: tokens)
      end
  end.

(** * Numbers *)

Fixpoint digits_value (s : list Z) (acc : Z) : Z :=
  match s with
  | c :: s => if isdigit c then digits_value s (acc * 10 + (c - 48)) else acc
  | [] => acc
  end.

Fixpoint skip_space (s : list Z) : list Z :=
  match s with
  | c :: rest => if isspace c then skip_space rest else s
  | [] => []
  end.

(** [atoi(s)]: [strtol], which stops at the limits of [long], cut to [int]. *)
Definition atoi (s : list Z) : Z :=
  i32 (match skip_space s with
       | 45 :: s => Z.max (- 2 ^ 63) (- digits_value s 0)
       | 43 :: s => Z.min (2 ^ 63 - 1) (digits_value s 0)
       | s => Z.min (2 ^ 63 - 1) (digits_value s 0)
       end).

Fixpoint skip_digits (s : list Z) : list Z :=
  match s with
  | c :: rest => if isdigit c then skip_digits rest else s
  | [] => []
  end.

(** [strtol(s, &end, 10)]: the number and [end]; without a number [end] is [s]. *)
Definition strtol (s : list Z) : Z * list Z :=
  let '(neg, t) := match skip_space s with
                   | 45 :: t => (true, t)
                   | 43 :: t => (false, t)
                   | t => (false, t)
                   end in
  match t with
  | c :: _ =>
      if isdigit c then
        (if (neg : bool) then Z.max (- 2 ^ 63) (- digits_value t 0) else Z.min (2 ^ 63 - 1) (digits_value t 0), skip_digits t)
      else (0, s)
  | [] => (0, s)
  end.

Fixpoint dec_digits (n : nat) (x : Z) (acc : list Z) : list Z :=
  match n with
  | O => acc
  | S n => if x <? 10 then (48 + x) :: acc else dec_digits n (x / 10) ((48 + x mod 10) :: acc)
  end.

(** ["%d"] of an [int]. *)
Definition decimal (x : Z) : list Z := if x <? 0 then 45 :: dec_digits 10 (- x) [] else dec_digits 10 x [].

(** ["%lld"] of a [long long]. *)
Definition decimal64 (x : Z) : list Z := if x <? 0 then 45 :: dec_digits 19 (- x) [] else dec_digits 19 x [].

(** ["%nd"] and ["%0nd"]: at least [n] characters. *)
Definition padded (n : nat) (fill : Z) (s : list Z) : list Z := replicate (n - length s) fill ++ s.

(** * Dates *)

(** [gmtime_r]: year, month and day of a time, in the Gregorian calendar with
    years that begin in March. *)
Definition gmtime (t : Z) : Z * Z * Z :=
  let z := t / 86400 + 719468 in
  let era := z / 146097 in
  let doe := z mod 146097 in
  let yoe := (doe - doe / 1460 + doe / 36524 - doe / 146096) / 365 in
  let doy := doe - (365 * yoe + yoe / 4 - yoe / 100) in
  let mp := (5 * doy + 2) / 153 in
  let d := doy - (153 * mp + 2) / 5 + 1 in
  let m := if mp <? 10 then mp + 3 else mp - 9 in
  (yoe + era * 400 + (if m <=? 2 then 1 else 0), m, d).

(** ["%04d/%02d/%02d"], with any separator. *)
Definition date (sep : Z) (t : Z) : list Z :=
  let '(y, m, d) := gmtime t in
  padded 4 48 (decimal y) ++ [sep] ++ padded 2 48 (decimal m) ++ [sep] ++ padded 2 48 (decimal d).

(** * Lemmas *)

Lemma streq_spec a b : streq a b = true <-> a = b.
Proof. apply bool_decide_eq_true. Qed.

Lemma split_at_spec sep s rest : Forall (fun c => c <> sep) s -> split_at sep (s ++ sep :: rest) = (s, rest).
Proof. induction 1 as [|c s Hc _ IH]; cbn; [by rewrite Z.eqb_refl|]. destruct (Z.eqb_spec c sep); [done | by rewrite IH]. Qed.

Lemma split_at_none sep s : Forall (fun c => c <> sep) s -> split_at sep s = (s, []).
Proof. induction 1 as [|c s Hc _ IH]; cbn; [done|]. destruct (Z.eqb_spec c sep); [done | by rewrite IH]. Qed.

Lemma skip_char_ne sep s : Forall (fun c => c <> sep) s -> forall rest, s <> [] -> skip_char sep (s ++ rest) = s ++ rest.
Proof. intros [|c s' Hc _]; [done|]. intros rest _. cbn. by destruct (Z.eqb_spec c sep). Qed.

(** A line that fits into the buffer. *)
Lemma fgets_line s : forall n rest, Forall (fun c => c <> 10) s -> (length s < n)%nat ->
  fgets n (s ++ 10 :: rest) = (s ++ [10], rest, false).
Proof.
  induction s as [|c s IH]; intros n rest Hs Hn; destruct n as [|n]; cbn [length] in Hn; try lia; [done|].
  inversion Hs; subst. cbn [app fgets]. destruct (Z.eqb_spec c 10); [done|]. by rewrite IH by (done || lia).
Qed.

(** The last line, without a newline. *)
Lemma fgets_last s : forall n, Forall (fun c => c <> 10) s -> (length s < n)%nat -> fgets n s = (s, [], true).
Proof.
  induction s as [|c s IH]; intros n Hs Hn; destruct n as [|n]; cbn [length] in Hn; try lia; [done|].
  inversion Hs; subst. cbn [fgets]. destruct (Z.eqb_spec c 10); [done|]. by rewrite IH by (done || lia).
Qed.

(** Reading takes from the file. *)
Lemma fgets_rest n : forall s, (length (fgets (S n) s).1.2 <= length s - 1)%nat.
Proof.
  induction n as [|n IH]; intros [|c s]; try (cbn; lia); cbn [fgets length].
  - destruct (c =? 10); cbn; lia.
  - specialize (IH s). cbn [fgets] in IH. destruct (c =? 10); [cbn; lia|].
    destruct s as [|c' s]; [cbn; lia|]. destruct (c' =? 10); cbn [fst snd] in *; [cbn in *; lia|].
    destruct (fgets n s) as [[l r] e]. cbn in *. lia.
Qed.

Lemma digits_value_app s : forall acc rest,
  Forall (fun c => isdigit c = true) s -> digits_value (s ++ rest) acc = digits_value rest (digits_value s acc).
Proof.
  induction s as [|c s IH]; intros acc rest Hs; [done|]. inversion Hs as [|? ? Hc Hs']; subst. cbn. rewrite Hc. by apply IH.
Qed.

Lemma dec_digits_value n : forall x acc,
  0 <= x < 10 ^ Z.of_nat n -> (0 < n)%nat -> Forall (fun c => isdigit c = true) acc ->
  digits_value (dec_digits n x acc) 0 = digits_value acc x /\
  Forall (fun c => isdigit c = true) (dec_digits n x acc) /\ dec_digits n x acc <> [].
Proof.
  induction n as [|n IH]; intros x acc Hx Hn Ha; [lia|]. cbn [dec_digits].
  assert (Hd : forall y, 0 <= y < 10 -> isdigit (48 + y) = true).
  { intros y Hy. unfold isdigit. by destruct (Z.leb_spec 48 (48 + y)), (Z.leb_spec (48 + y) 57); [|lia..]. }
  destruct (Z.ltb_spec x 10).
  - split; [|by split; [constructor; [apply Hd; lia|]|]]. cbn. rewrite Hd by lia. f_equal. lia.
  - rewrite Nat2Z.inj_succ, Z.pow_succ_r in Hx by lia.
    assert (Hm : 0 <= x mod 10 < 10) by (apply Z.mod_pos_bound; lia).
    destruct n as [|n]; [change (10 ^ Z.of_nat 0) with 1 in Hx; lia|].
    destruct (IH (x / 10) ((48 + x mod 10) :: acc)) as (E & Hf & Hne); [|lia | constructor; auto |].
    { split; [apply Z.div_pos; lia | apply Z.div_lt_upper_bound; lia]. }
    split; [|done]. rewrite E. cbn. rewrite Hd by done. f_equal. pose proof (Z.div_mod x 10). lia.
Qed.

(** What is printed is read back. *)
Lemma atoi_dec x : - 2 ^ 31 <= x < 2 ^ 31 -> atoi (decimal x) = x.
Proof.
  intros Hx. unfold decimal. destruct (Z.ltb_spec x 0).
  - unfold atoi. change (skip_space (45 :: ?s)) with (45 :: s).
    destruct (dec_digits_value 10 (- x) []) as (E & _); [lia | lia | done |]. rewrite E. cbn [digits_value].
    rewrite Z.max_r by lia. unfold i32. rewrite Z.mod_small; lia.
  - destruct (dec_digits_value 10 x []) as (E & Hf & Hne); [lia | lia | done |]. cbn [digits_value] in E.
    unfold atoi. destruct (dec_digits 10 x []) as [|c s]; [done|]. apply Forall_cons in Hf as [Hc _].
    assert (Hs : isspace c = false).
    { unfold isdigit in Hc. zbool. unfold isspace.
      by destruct (Z.eqb_spec c 32), (Z.leb_spec 9 c), (Z.leb_spec c 13); cbn; try lia. }
    cbn [skip_space]. rewrite Hs. unfold isdigit in Hc. zbool.
    assert (E2 : match c :: s with
       | 45 :: s => Z.max (- 2 ^ 63) (- digits_value s 0)
       | 43 :: s => Z.min (2 ^ 63 - 1) (digits_value s 0)
       | s => Z.min (2 ^ 63 - 1) (digits_value s 0) end = Z.min (2 ^ 63 - 1) (digits_value (c :: s) 0)).
    { assert (c = 48 \/ c = 49 \/ c = 50 \/ c = 51 \/ c = 52 \/ c = 53 \/ c = 54 \/ c = 55 \/ c = 56 \/ c = 57) as Hc by lia.
      by repeat destruct Hc as [-> | Hc]; try subst c. }
    rewrite E2, E, Z.min_r by lia. unfold i32. rewrite Z.mod_small; lia.
Qed.

(** Tokens with one separator between them. *)
Definition joined (sep : Z) (tokens : list (list Z)) : list Z :=
  match tokens with
  | [] => []
  | t :: tokens => t ++ concat (map (cons sep) tokens)
  end.

Lemma strtok_joined sep tokens : forall fuel,
  Forall (fun t => t <> [] /\ Forall (fun c => c <> sep) t) tokens -> (length tokens < fuel)%nat ->
  strtok_all fuel sep (joined sep tokens) = Done tokens.
Proof.
  induction tokens as [|t tokens IH]; intros fuel Ht Hf; destruct fuel as [|fuel]; try (cbn in Hf; lia); [done|].
  apply Forall_cons in Ht as [[Hne Hc] Ht]. cbn [joined strtok_all]. rewrite skip_char_ne by done.
  destruct (t ++ _) as [|x l] eqn:E; [by destruct t|]. rewrite <- E. clear E.
  specialize (IH fuel Ht ltac:(cbn in Hf; lia)). destruct tokens as [|t2 tokens]; cbn [map concat].
  - rewrite app_nil_r, split_at_none by done. by destruct fuel.
  - cbn [joined app] in *. rewrite split_at_spec by done. by rewrite IH.
Qed.
