(* ===== verification/OpenPGP.v ===== *)
(** Data model shared by the whole program: the status codes of onak.h, the
    OpenPGP constants of openpgp.h and the packet and key structures of
    keystructs.h, with their well-formedness invariant.

    A C list [struct x_list *] with its tail pointer is the Rocq list of the
    payloads of its nodes; a [(buffer, length)] pair keeps both components, so
    that a length that disagrees with the buffer can be expressed. *)

From S2P Require Import Prelude.

(** * onak.h *)

Inductive onak_status_t : Type :=
  | ONAK_E_OK
  | ONAK_E_NOMEM
  | ONAK_E_NOT_FOUND
  | ONAK_E_INVALID_PARAM
  | ONAK_E_INVALID_PKT
  | ONAK_E_UNKNOWN_VER
  | ONAK_E_UNSUPPORTED_FEATURE
  | ONAK_E_BAD_SIGNATURE
  | ONAK_E_WEAK_SIGNATURE
  | ONAK_E_IO_ERROR.

#[global] Instance onak_status_eq_dec : EqDecision onak_status_t.
Proof. solve_decision. Defined.

(** The integer value of the enumeration, used where C mixes it with ints. *)
Definition status_code (s : onak_status_t) : Z :=
  match s with
  | ONAK_E_OK => 0
  | ONAK_E_NOMEM => 1
  | ONAK_E_NOT_FOUND => 2
  | ONAK_E_INVALID_PARAM => 3
  | ONAK_E_INVALID_PKT => 4
  | ONAK_E_UNKNOWN_VER => 5
  | ONAK_E_UNSUPPORTED_FEATURE => 6
  | ONAK_E_BAD_SIGNATURE => 7
  | ONAK_E_WEAK_SIGNATURE => 8
  | ONAK_E_IO_ERROR => 9
  end.

Definition status_ok (s : onak_status_t) : bool :=
  match s with ONAK_E_OK => true | _ => false end.

(** * openpgp.h *)

Definition OPENPGP_PKALGO_RSA : Z := 1.
Definition OPENPGP_PKALGO_RSA_ENC : Z := 2.
Definition OPENPGP_PKALGO_RSA_SIGN : Z := 3.
Definition OPENPGP_PKALGO_ELGAMAL_ENC : Z := 16.
Definition OPENPGP_PKALGO_DSA : Z := 17.
Definition OPENPGP_PKALGO_EC : Z := 18.
Definition OPENPGP_PKALGO_ECDSA : Z := 19.
Definition OPENPGP_PKALGO_ELGAMAL_SIGN : Z := 20.
Definition OPENPGP_PKALGO_EDDSA : Z := 22.

Definition OPENPGP_HASH_MD5 : Z := 1.
Definition OPENPGP_HASH_SHA1 : Z := 2.
Definition OPENPGP_HASH_RIPEMD160 : Z := 3.
Definition OPENPGP_HASH_SHA1X : Z := 4.
Definition OPENPGP_HASH_SHA256 : Z := 8.
Definition OPENPGP_HASH_SHA384 : Z := 9.
Definition OPENPGP_HASH_SHA512 : Z := 10.
Definition OPENPGP_HASH_SHA224 : Z := 11.

Definition OPENPGP_PACKET_PKSESSIONKEY : Z := 1.
Definition OPENPGP_PACKET_SIGNATURE : Z := 2.
Definition OPENPGP_PACKET_SYMSESSIONKEY : Z := 3.
Definition OPENPGP_PACKET_ONEPASSSIG : Z := 4.
Definition OPENPGP_PACKET_SECRETKEY : Z := 5.
Definition OPENPGP_PACKET_PUBLICKEY : Z := 6.
Definition OPENPGP_PACKET_TRUST : Z := 12.
Definition OPENPGP_PACKET_UID : Z := 13.
Definition OPENPGP_PACKET_PUBLICSUBKEY : Z := 14.
Definition OPENPGP_PACKET_UAT : Z := 17.
Definition OPENPGP_PACKET_ENCRYPTED_MDC : Z := 18.
Definition OPENPGP_PACKET_COMMENT : Z := 61.

Definition OPENPGP_SIGTYPE_KEY_REV : Z := 0x20.
Definition OPENPGP_SIGTYPE_SUBKEY_REV : Z := 0x28.
Definition OPENPGP_SIGTYPE_CERT_REV : Z := 0x30.

Definition OPENPGP_SIGSUB_CREATION : Z := 2.
Definition OPENPGP_SIGSUB_EXPIRY : Z := 3.
Definition OPENPGP_SIGSUB_KEYEXPIRY : Z := 9.
Definition OPENPGP_SIGSUB_REVOCATION_KEY : Z := 12.
Definition OPENPGP_SIGSUB_ISSUER : Z := 16.
Definition OPENPGP_SIGSUB_ISSUER_UID : Z := 17.
Definition OPENPGP_SIGSUB_PRIMARYUID : Z := 25.
Definition OPENPGP_SIGSUB_EMBEDDED_SIG : Z := 32.
Definition OPENPGP_SIGSUB_ISSUER_FINGER : Z := 33.

(** * keystructs.h *)

Definition FINGERPRINT_V3_LEN : Z := 16.
Definition FINGERPRINT_V4_LEN : Z := 20.
Definition FINGERPRINT_V5_LEN : Z := 32.
Definition MAX_FINGERPRINT_LEN : Z := 32.

(** [fp_bytes] is the array [fp] of the structure; only its first [fp_length]
    bytes are meaningful. *)
Record openpgp_fingerprint : Type := mkFingerprint {
  fp_length : Z;
  fp_bytes : list Z
}.

Record openpgp_packet : Type := mkPacket {
  pkt_tag : Z;
  pkt_newformat : bool;
  pkt_length : Z;
  pkt_data : list Z
}.

Record openpgp_signedpacket : Type := mkSigned {
  sp_packet : openpgp_packet;
  sp_sigs : list openpgp_packet
}.

Record openpgp_publickey : Type := mkKey {
  pk_publickey : openpgp_packet;
  pk_revoked : bool;
  pk_sigs : list openpgp_packet;
  pk_uids : list openpgp_signedpacket;
  pk_subkeys : list openpgp_signedpacket
}.

#[global] Instance openpgp_fingerprint_eq_dec : EqDecision openpgp_fingerprint.
Proof. solve_decision. Defined.
#[global] Instance openpgp_packet_eq_dec : EqDecision openpgp_packet.
Proof. solve_decision. Defined.
#[global] Instance openpgp_signedpacket_eq_dec : EqDecision openpgp_signedpacket.
Proof. solve_decision. Defined.
#[global] Instance openpgp_publickey_eq_dec : EqDecision openpgp_publickey.
Proof. solve_decision. Defined.

(** Record updates, one per field the program assigns. *)
Definition set_sp_sigs (sp : openpgp_signedpacket) (l : list openpgp_packet) :=
  mkSigned (sp_packet sp) l.
Definition set_pk_revoked (k : openpgp_publickey) (b : bool) :=
  mkKey (pk_publickey k) b (pk_sigs k) (pk_uids k) (pk_subkeys k).
Definition set_pk_sigs (k : openpgp_publickey) (l : list openpgp_packet) :=
  mkKey (pk_publickey k) (pk_revoked k) l (pk_uids k) (pk_subkeys k).
Definition set_pk_uids (k : openpgp_publickey) (l : list openpgp_signedpacket) :=
  mkKey (pk_publickey k) (pk_revoked k) (pk_sigs k) l (pk_subkeys k).
Definition set_pk_subkeys (k : openpgp_publickey) (l : list openpgp_signedpacket) :=
  mkKey (pk_publickey k) (pk_revoked k) (pk_sigs k) (pk_uids k) l.

(** * Well-formedness *)

(** A packet whose buffer has exactly the advertised length and holds bytes:
    what the packet reader allocates. *)
Definition wf_packet (p : openpgp_packet) : Prop :=
  pkt_length p = zlen (pkt_data p) /\ Forall byte (pkt_data p).

Definition wf_signed (sp : openpgp_signedpacket) : Prop :=
  wf_packet (sp_packet sp) /\ Forall wf_packet (sp_sigs sp).

Definition wf_key (k : openpgp_publickey) : Prop :=
  wf_packet (pk_publickey k) /\ Forall wf_packet (pk_sigs k) /\
  Forall wf_signed (pk_uids k) /\ Forall wf_signed (pk_subkeys k).

#[global] Instance wf_packet_dec p : Decision (wf_packet p).
Proof. unfold wf_packet. apply _. Defined.
#[global] Instance wf_signed_dec sp : Decision (wf_signed sp).
Proof. unfold wf_signed. apply _. Defined.
#[global] Instance wf_key_dec k : Decision (wf_key k).
Proof. unfold wf_key. apply _. Defined.

Lemma wf_packet_len p : wf_packet p -> pkt_length p = zlen (pkt_data p).
Proof. by intros []. Qed.

Lemma wf_packet_bytes p : wf_packet p -> Forall byte (pkt_data p).
Proof. by intros []. Qed.

(** Indexing a well-formed packet below its length is defined. *)
Lemma wf_packet_rd p i :
  wf_packet p -> 0 <= i < pkt_length p ->
  exists b, (pkt_data p).[i] = Done b /\ byte b.
Proof. intros [-> ?] ?. by apply rd_ok_byte. Qed.

#[export] Hint Resolve wf_packet_len wf_packet_bytes : onak.
