(* ===== verification/Streams.v ===== *)
(** Character streams: the [getchar_func]/[putchar_func] callbacks that the
    packet and armor code is written against, the contracts they promise, and
    the memory buffer implementation of charfuncs.c that discharges them. *)

From S2P Require Import Prelude.

(** * The callbacks

    [getchar s n] is [getchar_func(ctx, n, c)]: the new context, the bytes
    stored from the start of [c], and the returned count.  [putchar s bs] is
    [putchar_func(ctx, |bs|, bs)], whose result no caller looks at. *)
Class Source (S : Type) := getchar : S -> Z -> outcome (S * list Z * Z).
Class Sink (S : Type) := putchar : S -> list Z -> outcome S.

(** [Delivers R]: a context related to [bs] hands out exactly [bs]; asking for
    more than what is left reports a short read. *)
Class Delivers {S} `{Source S} (R : S -> list Z -> Prop) : Prop := {
  delivers_bytes : forall s xs ys, R s (xs ++ ys) ->
    exists s', getchar s (zlen xs) = Done (s', xs, zlen xs) /\ R s' ys;
  delivers_short : forall s bs n, R s bs -> zlen bs < n -> n <= 2 ^ 32 ->
    exists s' w r, getchar s n = Done (s', w, r) /\ 0 <= r < n
}.

(** [Accepts W lim]: a context related to the bytes written so far takes any
    further bytes, up to [lim] bytes in all. *)
Class Accepts {S} `{Sink S} (W : S -> list Z -> Prop) (lim : Z) : Prop :=
  accepts_bytes : forall s xs ys, W s xs -> Forall byte ys ->
    zlen xs + zlen ys <= lim ->
    exists s', putchar s ys = Done s' /\ W s' (xs ++ ys).

(** * charfuncs.c *)

Record buffer_ctx : Type := mkBuffer {
  buf_buffer : list Z;   (* the allocated bytes *)
  buf_offset : Z;
  buf_size : Z
}.

(** [memcpy(c, &buffer[offset], count)] reads [count] bytes of the object. *)
Definition memcpy_from (d : list Z) (o n : Z) : outcome (list Z) :=
  if (0 <=? o) && (0 <=? n) && (o + n <=? zlen d)
  then Done (take (Z.to_nat n) (drop (Z.to_nat o) d))
  else Fault OutOfBounds.

(** [memcpy(&buffer[offset], c, |c|)] overwrites bytes inside the object. *)
Definition memcpy_to (d : list Z) (o : Z) (c : list Z) : outcome (list Z) :=
  if (0 <=? o) && (o + zlen c <=? zlen d)
  then Done (take (Z.to_nat o) d ++ c ++ drop (Z.to_nat o + length c) d)
  else Fault OutOfBounds.

#[global] Instance buffer_fetchchar : Source buffer_ctx := fun buf count =>
  let count :=
    if buf_size buf <? u64 (buf_offset buf + count)
    then u64 (buf_size buf - buf_offset buf) else count in
  c ← memcpy_from (buf_buffer buf) (buf_offset buf) count;
  Done (mkBuffer (buf_buffer buf) (u64 (buf_offset buf + count)) (buf_size buf),
        c, count).

(** [for (newsize = buf->size; newsize < (buf->offset + count); newsize *= 2)],
    a size_t that wraps to 0 once it has been doubled past 2^63. *)
Fixpoint double_until (fuel : nat) (newsize need : Z) : outcome Z :=
  if newsize <? need then
    match fuel with
    | O => Fault OutOfFuel
    | S f => double_until f (u64 (newsize * 2)) need
    end
  else Done newsize.

(** [realloc] keeps the old bytes; the new ones are unspecified (here 0). *)
Definition realloc_buf (d : list Z) (n : Z) : list Z :=
  take (Z.to_nat n) d ++ replicate (Z.to_nat n - length d) 0.

#[global] Instance buffer_putchar : Sink buffer_ctx := fun buf c =>
  newsize ← double_until 64 (buf_size buf) (u64 (buf_offset buf + zlen c));
  let buffer := if newsize =? buf_size buf then buf_buffer buf
                else realloc_buf (buf_buffer buf) newsize in
  b ← memcpy_to buffer (buf_offset buf) c;
  Done (mkBuffer b (u64 (buf_offset buf + zlen c)) newsize).

(** * The buffer keeps its promises *)

(** A buffer being read: the context points into an object of [buf_size]
    bytes, and [bs] is what is left of it. *)
Definition reading (buf : buffer_ctx) (bs : list Z) : Prop :=
  zlen (buf_buffer buf) = buf_size buf /\ buf_size buf < 2 ^ 62 /\
  0 <= buf_offset buf <= buf_size buf /\
  bs = drop (Z.to_nat (buf_offset buf)) (buf_buffer buf).

(** A buffer being written: a non-empty object whose first [buf_offset] bytes
    are the bytes written so far. *)
Definition writing (buf : buffer_ctx) (bs : list Z) : Prop :=
  zlen (buf_buffer buf) = buf_size buf /\ 0 < buf_size buf < 2 ^ 64 /\
  0 <= buf_offset buf <= buf_size buf /\
  bs = take (Z.to_nat (buf_offset buf)) (buf_buffer buf).

Lemma memcpy_from_ok d o n :
  0 <= o -> 0 <= n -> o + n <= zlen d ->
  memcpy_from d o n = Done (take (Z.to_nat n) (drop (Z.to_nat o) d)).
Proof. intros. unfold memcpy_from. rewrite !(proj2 (Z.leb_le _ _)) by lia. done. Qed.

Lemma memcpy_to_ok d o c :
  0 <= o -> o + zlen c <= zlen d ->
  memcpy_to d o c = Done (take (Z.to_nat o) d ++ c ++ drop (Z.to_nat o + length c) d).
Proof. intros. unfold memcpy_to. rewrite !(proj2 (Z.leb_le _ _)) by lia. done. Qed.

(** Fetching returns the next [count] bytes, or all that is left. *)
Lemma buffer_fetchchar_spec buf bs count :
  reading buf bs -> 0 <= count < 2 ^ 62 ->
  exists buf', buffer_fetchchar buf count
     = Done (buf', take (Z.to_nat count) bs, Z.min count (zlen bs))
    /\ reading buf' (drop (Z.to_nat count) bs).
Proof.
  intros (Hb & Hs & Ho & ->) Hc. unfold buffer_fetchchar.
  set (o := buf_offset buf) in *. set (d := buf_buffer buf) in *.
  assert (Hz : zlen (drop (Z.to_nat o) d) = buf_size buf - o).
  { unfold zlen in *. rewrite length_drop. lia. }
  rewrite (u64_small (o + count)) by lia. rewrite (u64_small (buf_size buf - o)) by lia.
  destruct (Z.ltb_spec (buf_size buf) (o + count)).
  - rewrite memcpy_from_ok by lia. cbn [mbind outcome_bind]. rewrite (u64_small _) by lia.
    eexists. rewrite Hz, Z.min_r by lia. split.
    + do 3 f_equal. unfold zlen in *. rewrite !take_ge by lia. done.
    + repeat split; cbn; try lia. rewrite drop_drop. unfold zlen in *.
      rewrite !drop_ge by lia. done.
  - rewrite memcpy_from_ok by lia. cbn [mbind outcome_bind]. rewrite (u64_small _) by lia.
    eexists. rewrite Hz, Z.min_l by lia. split; [done|].
    repeat split; cbn; try lia. rewrite drop_drop. f_equal. lia.
Qed.

#[global] Instance buffer_delivers : Delivers reading.
Proof.
  split.
  - intros s xs ys H. destruct (buffer_fetchchar_spec s (xs ++ ys) (zlen xs)) as (s' & E & R);
      [done | destruct H as (?&?&?&H); apply (f_equal zlen) in H;
              rewrite zlen_app in H; unfold zlen in *; rewrite length_drop in H; lia |].
    exists s'. unfold getchar. rewrite E.
    rewrite zlen_app, Z.min_l by (pose proof (zlen_nonneg ys); lia).
    unfold zlen in *. rewrite Nat2Z.id in *.
    rewrite take_app_length. rewrite drop_app_length in R. done.
  - intros s bs n H Hn Hmax. pose proof (zlen_nonneg bs).
    destruct (buffer_fetchchar_spec s bs n H) as (s' & E & R); [lia|].
    exists s', (take (Z.to_nat n) bs), (zlen bs).
    rewrite Z.min_r in E by lia. auto with lia.
Qed.

(** Doubling reaches the size needed within 64 rounds, and never overshoots a
    power-of-two multiple of the old size. *)
Lemma double_until_spec fuel n need :
  0 < n < 2 ^ 64 -> need <= 2 ^ 63 -> need <= n * 2 ^ Z.of_nat fuel ->
  exists m, double_until fuel n need = Done m /\ need <= m /\ n <= m < 2 ^ 64 /\
    (m = n \/ m < 2 * need).
Proof.
  revert n. induction fuel as [|f IH]; intros n Hn Hneed Hfuel.
  - cbn in *. destruct (Z.ltb_spec n need); [lia|]. exists n. auto with lia.
  - cbn [double_until]. destruct (Z.ltb_spec n need); [|exists n; auto with lia].
    rewrite Nat2Z.inj_succ, Z.pow_succ_r in Hfuel by lia.
    rewrite u64_small by lia. destruct (IH (n * 2)) as (m & E & ? & ? & ?); [lia | done | lia |].
    exists m. repeat split; auto; lia.
Qed.

Lemma zlen_realloc d n : 0 <= n -> zlen (realloc_buf d n) = n.
Proof.
  intros. unfold realloc_buf, zlen. rewrite length_app, length_take, length_replicate. lia.
Qed.

Lemma take_realloc d n k :
  (k <= length d)%nat -> Z.of_nat k <= n -> take k (realloc_buf d n) = take k d.
Proof.
  intros. unfold realloc_buf. rewrite take_app_le by (rewrite length_take; lia).
  rewrite take_take. f_equal. lia.
Qed.

Lemma buffer_putchar_spec buf bs c :
  writing buf bs -> zlen bs + zlen c <= 2 ^ 63 ->
  exists buf', buffer_putchar buf c = Done buf' /\ writing buf' (bs ++ c)
    /\ (buf_size buf' = buf_size buf \/ buf_size buf' < 2 * buf_offset buf').
Proof.
  intros (Hb & Hs & Ho & ->) Hlen. unfold buffer_putchar.
  set (o := buf_offset buf) in *. set (d := buf_buffer buf) in *.
  assert (Hz : zlen (take (Z.to_nat o) d) = o)
    by (unfold zlen in *; rewrite length_take; lia).
  rewrite Hz in Hlen. pose proof (zlen_nonneg c). rewrite (u64_small (o + zlen c)) by lia.
  destruct (double_until_spec 64 (buf_size buf) (o + zlen c)) as (m & Em & Hm & Hm' & Hm2);
    [done | done | |].
  { change (2 ^ Z.of_nat 64) with (2 * 2 ^ 63). nia. }
  rewrite Em. cbn [mbind outcome_bind].
  set (d' := if m =? buf_size buf then d else realloc_buf d m).
  assert (Hd' : zlen d' = m).
  { unfold d'. destruct (Z.eqb_spec m (buf_size buf)); [lia | apply zlen_realloc; lia]. }
  assert (Htk : take (Z.to_nat o) d' = take (Z.to_nat o) d).
  { unfold d'. destruct (Z.eqb_spec m (buf_size buf)); [done|].
    apply take_realloc; unfold zlen in *; lia. }
  rewrite memcpy_to_ok by lia. cbn [mbind outcome_bind].
  eexists. split; [done|]. split; [|cbn; lia].
  rewrite Htk. unfold writing. cbn. repeat split; try lia.
  - rewrite !zlen_app, Hz. unfold zlen in *. rewrite length_drop. lia.
  - rewrite app_assoc, take_app_length'; [done|].
    rewrite length_app. unfold zlen in *. lia.
Qed.

#[global] Instance buffer_accepts : Accepts writing (2 ^ 63).
Proof.
  intros s xs ys Hs _ Hlen. destruct (buffer_putchar_spec s xs ys Hs Hlen) as (s' & E & W & _).
  by exists s'.
Qed.
