(* ===== verification/Packets.v ===== *)
(** The packet codec of parsekey.c: [read_openpgp_stream] and
    [write_openpgp_stream], against the stream contracts of Streams.v. *)

From S2P Require Import Prelude OpenPGP Streams.

(** * Reading *)

(** A packet under construction: the reader allocates the structure before it
    knows the length and before it has data ([None] is the NULL the
    [memset] left there). *)
Record raw_packet : Type := mkRaw {
  raw_tag : Z;
  raw_newformat : bool;
  raw_length : Z;
  raw_data : option (list Z)
}.

(** "Make sure the packet version is sane": the first octet of the body of the
    versioned packet types. *)
Definition version_check (tag : Z) (data : list Z) : outcome onak_status_t :=
  let require (ok : Z -> bool) :=
    v ← data.[0]; Done (if ok v then ONAK_E_OK else ONAK_E_INVALID_PKT) in
  if tag =? OPENPGP_PACKET_ENCRYPTED_MDC then require (fun v => v =? 1)
  else if (tag =? OPENPGP_PACKET_PKSESSIONKEY) || (tag =? OPENPGP_PACKET_ONEPASSSIG)
  then require (fun v => v =? 3)
  else if tag =? OPENPGP_PACKET_SYMSESSIONKEY then require (fun v => v =? 4)
  else if (tag =? OPENPGP_PACKET_SIGNATURE) || (tag =? OPENPGP_PACKET_SECRETKEY)
          || (tag =? OPENPGP_PACKET_PUBLICKEY)
  then require (fun v => negb (v <? 2))
  else Done ONAK_E_OK.

(** "If we got an invalid final packet, discard it", then trim the last node
    if it has no packet: the cleanup behind the loop. *)
Definition trim_last (rc : onak_status_t) (nodes : list (option raw_packet))
    : list (option raw_packet) :=
  match last nodes with
  | None => nodes
  | Some node =>
      let node :=
        match node with
        | Some r =>
            match (if status_ok rc then raw_data r else None) with
            | Some _ => Some r
            | None => None
            end
        | None => None
        end in
      match node with
      | Some _ => nodes
      | None => removelast nodes
      end
  end.

(** The packet a consumer of the list sees in a node. *)
Definition packet_of_node (node : option raw_packet) : outcome openpgp_packet :=
  match node with
  | Some (mkRaw t nf l (Some d)) => Done (mkPacket t nf l d)
  | _ => Fault NullDeref
  end.

Fixpoint packets_of_nodes (nodes : list (option raw_packet))
    : outcome (list openpgp_packet) :=
  match nodes with
  | [] => Done []
  | n :: ns => p ← packet_of_node n; ps ← packets_of_nodes ns; Done (p :: ps)
  end.

Section Read.
Context {S : Type} `{Source S}.

(** Whether [malloc] succeeds on a request of that many bytes. *)
Variable malloc_ok : Z -> bool.

(** [getchar_func(ctx, 1, &curchar)]: a short read leaves [curchar] alone
    unless the callback stored to it. *)
Definition getc (s : S) (curchar : Z) : outcome (S * Z * Z) :=
  '(s', w, r) ← getchar s 1;
  Done (s', match w with b :: _ => b | [] => curchar end, r).

(** Big-endian length octets, each of which must be there. *)
Fixpoint read_octets (n : nat) (s : S) (curchar acc : Z)
    : outcome (S * Z * onak_status_t * Z) :=
  match n with
  | O => Done (s, curchar, ONAK_E_OK, acc)
  | Datatypes.S n' =>
      '(s, curchar, r) ← getc s curchar;
      if r =? 1 then read_octets n' s curchar (Z.shiftl acc 8 + curchar)
      else Done (s, curchar, ONAK_E_INVALID_PKT, acc)
  end.

(** The length of a new format packet; [None] when the packet structure was
    freed (partial body lengths are not supported). *)
Definition read_new_length (s : S) (curchar : Z)
    : outcome (S * Z * onak_status_t * option Z) :=
  '(s, curchar, r) ← getc s curchar;
  if r =? 0 then Done (s, curchar, ONAK_E_INVALID_PKT, Some 0)
  else
    let length := curchar in
    if (191 <? length) && (length <? 224) then
      '(s, curchar, r) ← getc s curchar;
      let rc := if r =? 0 then ONAK_E_IO_ERROR else ONAK_E_OK in
      Done (s, curchar, rc, Some (Z.shiftl (length - 192) 8 + curchar + 192))
    else if (223 <? length) && (length <? 255) then
      Done (s, curchar, ONAK_E_UNSUPPORTED_FEATURE, None)
    else if length =? 255 then
      '(s, curchar, rc, length) ← read_octets 4 s curchar 0;
      Done (s, curchar, rc, Some length)
    else Done (s, curchar, ONAK_E_OK, Some length).

(** The length of an old format packet, chosen by the low bits of the tag
    octet; an indeterminate length is not supported. *)
Definition read_old_length (s : S) (curchar : Z)
    : outcome (S * Z * onak_status_t * option Z) :=
  let octets n :=
    '(s, curchar, rc, length) ← read_octets n s curchar 0;
    Done (s, curchar, rc, Some length) in
  if Z.land curchar 3 =? 0 then octets 1%nat
  else if Z.land curchar 3 =? 1 then octets 2%nat
  else if Z.land curchar 3 =? 2 then octets 4%nat
  else Done (s, curchar, ONAK_E_UNSUPPORTED_FEATURE, None).

(** The body: [length] bytes into a fresh buffer. *)
Definition read_body (s : S) (length : Z)
    : outcome (S * onak_status_t * option (list Z)) :=
  if malloc_ok length then
    '(s, data, res) ← getchar s length;
    Done (s, if res =? length then ONAK_E_OK else ONAK_E_IO_ERROR, Some data)
  else Done (s, ONAK_E_NOMEM, None).

(** One round of the loop, for the tag octet [curchar]. *)
Definition read_packet (s : S) (curchar keys : Z) (nodes : list (option raw_packet))
    : outcome (S * Z * onak_status_t * Z * list (option raw_packet)) :=
  if Z.testbit curchar 7 then
    let newformat := Z.testbit curchar 6 in
    let tag := if newformat then Z.land curchar 0x3F
               else Z.shiftr (Z.land curchar 0x3C) 2 in
    '(s, curchar, rc, length) ←
      (if newformat then read_new_length s curchar else read_old_length s curchar);
    match length with
    | None => Done (s, curchar, rc, keys, nodes ++ [None])
    | Some length =>
        if status_ok rc then
          let keys := if tag =? OPENPGP_PACKET_PUBLICKEY then i32 (keys + 1) else keys in
          '(s, rc, data) ← read_body s length;
          let nodes := nodes ++ [Some (mkRaw tag newformat length data)] in
          match (if status_ok rc then data else None) with
          | Some d =>
              rc ← version_check tag d;
              Done (s, curchar, rc, keys, nodes)
          | None => Done (s, curchar, rc, keys, nodes)
          end
        else Done (s, curchar, rc, keys, nodes ++ [Some (mkRaw tag newformat length None)])
    end
  else Done (s, curchar, ONAK_E_INVALID_PKT, keys, nodes).

Fixpoint read_loop (fuel : nat) (maxnum : Z) (s : S) (curchar : Z)
    (rc : onak_status_t) (keys : Z) (nodes : list (option raw_packet))
    : outcome (S * onak_status_t * list (option raw_packet)) :=
  if status_ok rc && ((maxnum =? 0) || (keys <? maxnum)) then
    match fuel with
    | O => Fault OutOfFuel
    | Datatypes.S fuel =>
        '(s, curchar, r) ← getc s curchar;
        if r =? 1 then
          '(s, curchar, rc, keys, nodes) ← read_packet s curchar keys nodes;
          read_loop fuel maxnum s curchar rc keys nodes
        else Done (s, rc, nodes)
    end
  else Done (s, rc, nodes).

(** [packets] is the list the caller appends to, [None] a NULL argument. *)
Definition read_openpgp_stream (fuel : nat) (s : S)
    (packets : option (list openpgp_packet)) (maxnum : Z)
    : outcome (S * onak_status_t * option (list openpgp_packet)) :=
  match packets with
  | None => Done (s, ONAK_E_INVALID_PARAM, None)
  | Some packets =>
      '(s, rc, nodes) ← read_loop fuel maxnum s 0 ONAK_E_OK 0 [];
      new ← packets_of_nodes (trim_last rc nodes);
      Done (s, rc, Some (packets ++ new))
  end.
End Read.

(** * Writing *)

Section Write.
Context {S : Type} `{Sink S}.

(** [curchar = x; putchar_func(ctx, 1, &curchar)] *)
Definition putc (s : S) (x : Z) : outcome S := putchar s [u8 x].

Definition write_new_header (s : S) (p : openpgp_packet)
    : outcome (S * onak_status_t) :=
  let length := pkt_length p in
  s ← putc s (Z.lor (Z.lor 0x80 0x40) (pkt_tag p));
  if length <? 192 then
    s ← putc s length;
    Done (s, ONAK_E_OK)
  else if (191 <? length) && (length <? 8383) then
    s ← putc s (Z.shiftr (Z.land (length - 192) 0xFF00) 8 + 192);
    s ← putc s (Z.land (length - 192) 0xFF);
    Done (s, ONAK_E_OK)
  else if (8382 <? length) && (length <? 0xFFFFFFFF) then
    s ← putc s 255;
    s ← putc s (Z.shiftr length 24);
    s ← putc s (Z.shiftr length 16);
    s ← putc s (Z.shiftr length 8);
    s ← putc s length;
    Done (s, ONAK_E_OK)
  else Done (s, ONAK_E_UNSUPPORTED_FEATURE).

Definition write_old_header (s : S) (p : openpgp_packet)
    : outcome (S * onak_status_t) :=
  let length := pkt_length p in
  let curchar := Z.lor 0x80 (Z.shiftl (pkt_tag p) 2) in
  if length <? 256 then
    s ← putc s curchar;
    s ← putc s length;
    Done (s, ONAK_E_OK)
  else if length <? 0x10000 then
    s ← putc s (Z.lor curchar 1);
    s ← putc s (Z.shiftr length 8);
    s ← putc s (Z.land length 0xFF);
    Done (s, ONAK_E_OK)
  else
    s ← putc s (Z.lor curchar 2);
    s ← putc s (Z.shiftr length 24);
    s ← putc s (Z.land (Z.shiftr length 16) 0xFF);
    s ← putc s (Z.land (Z.shiftr length 8) 0xFF);
    s ← putc s (Z.land length 0xFF);
    Done (s, ONAK_E_OK).

(** An unsupported length stops the whole stream, after the tag octet of
    that packet has gone out. *)
Fixpoint write_openpgp_stream (s : S) (packets : list openpgp_packet)
    : outcome (S * onak_status_t) :=
  match packets with
  | [] => Done (s, ONAK_E_OK)
  | p :: rest =>
      '(s, rc) ← (if pkt_newformat p then write_new_header s p
                  else write_old_header s p);
      if status_ok rc then
        body ← memcpy_from (pkt_data p) 0 (pkt_length p);
        s ← putchar s body;
        write_openpgp_stream s rest
      else Done (s, rc)
  end.
End Write.

(** * The encoding of a packet *)

(** RFC 4880 section 4.2.2 lengths, in the variants the writer chooses. *)
Definition new_length_octets (len : Z) : list Z :=
  if len <? 192 then [len]
  else if len <? 8383 then [(len - 192) / 256 + 192; (len - 192) mod 256]
  else 255 :: htonl_bytes len.

Definition old_length_type (len : Z) : Z :=
  if len <? 256 then 0 else if len <? 0x10000 then 1 else 2.

Definition old_length_octets (len : Z) : list Z :=
  if len <? 256 then [len]
  else if len <? 0x10000 then [len / 256; len mod 256]
  else htonl_bytes len.

Definition tag_octet (p : openpgp_packet) : Z :=
  if pkt_newformat p then 192 + pkt_tag p
  else 128 + 4 * pkt_tag p + old_length_type (pkt_length p).

Definition length_octets (p : openpgp_packet) : list Z :=
  if pkt_newformat p then new_length_octets (pkt_length p)
  else old_length_octets (pkt_length p).

Definition encode_packet (p : openpgp_packet) : list Z :=
  tag_octet p :: length_octets p ++ pkt_data p.

Definition encode_packets (ps : list openpgp_packet) : list Z :=
  concat (map encode_packet ps).

(** The packets the format can express. *)
Definition encodable (p : openpgp_packet) : Prop :=
  wf_packet p /\
  if pkt_newformat p then 0 <= pkt_tag p < 64 /\ pkt_length p < 0xFFFFFFFF
  else 0 <= pkt_tag p < 16 /\ pkt_length p < 2 ^ 32.

#[global] Instance encodable_dec p : Decision (encodable p).
Proof. unfold encodable. destruct (pkt_newformat p); apply _. Defined.

(** The reader's version check lets the packet through. *)
Definition version_sane (p : openpgp_packet) : Prop :=
  version_check (pkt_tag p) (pkt_data p) = Done ONAK_E_OK.

#[global] Instance version_sane_dec p : Decision (version_sane p).
Proof. unfold version_sane. apply _. Defined.

(** The node of a completely read packet. *)
Definition node_of (p : openpgp_packet) : option raw_packet :=
  Some (mkRaw (pkt_tag p) (pkt_newformat p) (pkt_length p) (Some (pkt_data p))).

Lemma packet_of_node_of p : packet_of_node (node_of p) = Done p.
Proof. by destruct p. Qed.

Lemma packets_of_nodes_of ps : packets_of_nodes (map node_of ps) = Done ps.
Proof.
  induction ps as [|p ps IH]; [done|]. cbn [map packets_of_nodes].
  rewrite packet_of_node_of. cbn [mbind outcome_bind]. by rewrite IH.
Qed.

Lemma encode_packets_cons p ps : encode_packets (p :: ps) = encode_packet p ++ encode_packets ps.
Proof. done. Qed.

Lemma encode_packets_app ps qs :
  encode_packets (ps ++ qs) = encode_packets ps ++ encode_packets qs.
Proof. unfold encode_packets. by rewrite map_app, concat_app. Qed.

Lemma encodable_length p : encodable p -> 0 <= pkt_length p < 2 ^ 32.
Proof.
  intros [[Hl _] H]. pose proof (zlen_nonneg (pkt_data p)).
  destruct (pkt_newformat p); lia.
Qed.

Lemma new_length_octets_byte len : 0 <= len < 2 ^ 32 -> Forall byte (new_length_octets len).
Proof.
  intros. unfold new_length_octets, byte.
  destruct (Z.ltb_spec len 192); [repeat constructor; lia|].
  destruct (Z.ltb_spec len 8383).
  - pose proof (Z.mod_pos_bound (len - 192) 256).
    assert (0 <= (len - 192) / 256 < 32)
      by (split; [apply Z.div_pos | apply Z.div_lt_upper_bound]; lia).
    repeat constructor; lia.
  - constructor; [lia|]. apply htonl_bytes_byte.
Qed.

Lemma old_length_octets_byte len : 0 <= len < 2 ^ 32 -> Forall byte (old_length_octets len).
Proof.
  intros. unfold old_length_octets, byte.
  destruct (Z.ltb_spec len 256); [repeat constructor; lia|].
  destruct (Z.ltb_spec len 0x10000).
  - pose proof (Z.mod_pos_bound len 256).
    assert (0 <= len / 256 < 256)
      by (split; [apply Z.div_pos | apply Z.div_lt_upper_bound]; lia).
    repeat constructor; lia.
  - apply htonl_bytes_byte.
Qed.

Lemma length_octets_byte p : encodable p -> Forall byte (length_octets p).
Proof.
  intros H%encodable_length. unfold length_octets.
  destruct (pkt_newformat p); auto using new_length_octets_byte, old_length_octets_byte.
Qed.

Lemma tag_octet_byte p : encodable p -> byte (tag_octet p).
Proof.
  intros [_ H]. unfold tag_octet, byte, old_length_type.
  destruct (pkt_newformat p); repeat case_if; lia.
Qed.

Lemma encode_packet_byte p : encodable p -> Forall byte (encode_packet p).
Proof.
  intros H. unfold encode_packet. constructor; [by apply tag_octet_byte|].
  apply Forall_app. split; [by apply length_octets_byte|]. destruct H as [[_ ?] _]. done.
Qed.

(** * The writer emits the encoding *)

Section WriteSpec.
Context {S : Type} `{Sink S} {W : S -> list Z -> Prop} {lim : Z} `{!Accepts W lim}.

Lemma putc_spec s out x y :
  W s out -> u8 x = y -> zlen out + 1 <= lim ->
  exists s', putc s x = Done s' /\ W s' (out ++ [y]).
Proof.
  intros Hw <- Hlim. apply accepts_bytes; [done | | done].
  repeat constructor; apply u8_byte.
Qed.

(** Runs the next [putc] of the goal, given the octet it emits. *)
Ltac put y :=
  match goal with
  | Hw : W ?s ?out |- context [putc ?s ?x] =>
      let s' := fresh "s" in let E := fresh "E" in let W' := fresh "Hw" in
      destruct (putc_spec s out x y Hw) as (s' & E & W');
      [ | autorewrite with onak in *; lia
        | rewrite E; cbn [mbind outcome_bind]; clear Hw E]
  end.

Lemma write_new_header_spec s out p :
  W s out -> encodable p -> pkt_newformat p = true -> zlen out + 6 <= lim ->
  exists s', write_new_header s p = Done (s', ONAK_E_OK) /\
    W s' (out ++ tag_octet p :: length_octets p).
Proof.
  intros Hw Hp Hnf Hlim. pose proof (encodable_length p Hp) as Hlen.
  destruct Hp as [_ Hp]. rewrite Hnf in Hp. destruct Hp as [Htag Hmax].
  unfold write_new_header, tag_octet, length_octets, new_length_octets. rewrite Hnf.
  set (len := pkt_length p) in *.
  put (192 + pkt_tag p).
  { revert Htag. generalize (pkt_tag p). by_range. }
  destruct (Z.ltb_spec len 192).
  { put len; [apply u8_small; unfold byte; lia|].
    eexists; split; [done|]. by rewrite <- app_assoc in *. }
  destruct (Z.ltb_spec 191 len); [cbn [andb] | lia].
  destruct (Z.ltb_spec len 8383).
  { assert (Hq : 0 <= (len - 192) / 256 < 32)
      by (split; [apply Z.div_pos | apply Z.div_lt_upper_bound]; lia).
    put ((len - 192) / 256 + 192).
    { change 0xFF00 with (Z.shiftl (Z.ones 8) 8).
      rewrite Z.shiftr_land, Z.shiftr_shiftl_l, Z.sub_diag, Z.shiftl_0_r by lia.
      rewrite Z.land_ones, shiftr_div by lia. change (2 ^ 8) with 256.
      rewrite (Z.mod_small ((len - 192) / 256)) by lia.
      apply u8_small. unfold byte. lia. }
    put ((len - 192) mod 256).
    { rewrite land_ff by lia. apply u8_small. unfold byte. apply Z.mod_pos_bound. lia. }
    eexists; split; [done|]. by rewrite <- !app_assoc in *. }
  destruct (Z.ltb_spec 8382 len); [|lia].
  destruct (Z.ltb_spec len 0xFFFFFFFF); [cbn [andb] | lia].
  put 255; [done|].
  put (u8 (Z.shiftr len 24)); [done|]. put (u8 (Z.shiftr len 16)); [done|].
  put (u8 (Z.shiftr len 8)); [done|]. put (u8 len); [done|].
  eexists; split; [done|]. by rewrite <- !app_assoc in *.
Qed.

Lemma write_old_header_spec s out p :
  W s out -> encodable p -> pkt_newformat p = false -> zlen out + 6 <= lim ->
  exists s', write_old_header s p = Done (s', ONAK_E_OK) /\
    W s' (out ++ tag_octet p :: length_octets p).
Proof.
  intros Hw Hp Hnf Hlim. pose proof (encodable_length p Hp) as Hlen.
  destruct Hp as [_ Hp]. rewrite Hnf in Hp. destruct Hp as [Htag Hmax].
  unfold write_old_header, tag_octet, length_octets, old_length_octets, old_length_type.
  rewrite Hnf. set (len := pkt_length p) in *.
  destruct (Z.ltb_spec len 256).
  { put (128 + 4 * pkt_tag p + 0).
    { revert Htag. generalize (pkt_tag p). by_range. }
    put len; [apply u8_small; unfold byte; lia|].
    eexists; split; [done|]. by rewrite <- app_assoc in *. }
  destruct (Z.ltb_spec len 0x10000).
  { put (128 + 4 * pkt_tag p + 1).
    { revert Htag. generalize (pkt_tag p). by_range. }
    put (len / 256).
    { rewrite shiftr_div by lia. apply u8_small. unfold byte.
      split; [apply Z.div_pos | apply Z.div_lt_upper_bound]; lia. }
    put (len mod 256).
    { rewrite land_ff by lia. apply u8_small. unfold byte. apply Z.mod_pos_bound. lia. }
    eexists; split; [done|]. by rewrite <- !app_assoc in *. }
  assert (Hu8 : forall x, 0 <= x -> u8 (Z.land x 0xFF) = u8 x).
  { intros x Hx. rewrite land_ff by lia. unfold u8. apply Z.mod_mod. lia. }
  put (128 + 4 * pkt_tag p + 2).
  { revert Htag. generalize (pkt_tag p). by_range. }
  put (u8 (Z.shiftr len 24)); [done|].
  put (u8 (Z.shiftr len 16)); [apply Hu8; apply Z.shiftr_nonneg; lia|].
  put (u8 (Z.shiftr len 8)); [apply Hu8; apply Z.shiftr_nonneg; lia|].
  put (u8 len); [apply Hu8; lia|].
  eexists; split; [done|]. by rewrite <- !app_assoc in *.
Qed.

Lemma write_spec ps s out :
  W s out -> Forall encodable ps ->
  zlen out + zlen (encode_packets ps) + 6 <= lim ->
  exists s', write_openpgp_stream s ps = Done (s', ONAK_E_OK) /\
    W s' (out ++ encode_packets ps).
Proof.
  intros Hw Hps. revert s out Hw. induction Hps as [|p ps Hp Hps IH]; intros s out Hw Hlim.
  - exists s. unfold encode_packets. cbn. by rewrite app_nil_r.
  - rewrite encode_packets_cons in *. unfold encode_packet in *.
    autorewrite with onak in Hlim.
    pose proof (zlen_nonneg (length_octets p)). pose proof (zlen_nonneg (pkt_data p)).
    pose proof (zlen_nonneg (encode_packets ps)).
    assert (exists s', (if pkt_newformat p then write_new_header s p
              else write_old_header s p) = Done (s', ONAK_E_OK) /\
            W s' (out ++ tag_octet p :: length_octets p)) as (s1 & E1 & Hw1).
    { destruct (pkt_newformat p) eqn:?;
        [apply write_new_header_spec | apply write_old_header_spec]; auto; lia. }
    cbn [write_openpgp_stream]. rewrite E1. cbn [mbind outcome_bind status_ok].
    pose proof (encodable_length p Hp) as Hlen. destruct Hp as [[Hl Hb] _].
    rewrite memcpy_from_ok by lia. cbn [mbind outcome_bind].
    rewrite drop_0, take_ge by (unfold zlen in *; lia).
    destruct (accepts_bytes s1 (out ++ tag_octet p :: length_octets p) (pkt_data p))
      as (s2 & E2 & Hw2); [done | done | autorewrite with onak; lia |].
    rewrite E2. cbn [mbind outcome_bind].
    destruct (IH s2 _ Hw2) as (s3 & E3 & Hw3); [autorewrite with onak; lia|].
    exists s3. split; [done|]. revert Hw3.
    rewrite <- !app_assoc. cbn [app]. by rewrite <- !app_assoc.
Qed.
End WriteSpec.

(** * The reader inverts the encoding *)

Section ReadSpec.
Context {S : Type} `{Source S} {R : S -> list Z -> Prop} `{!Delivers R}.
Variable malloc_ok : Z -> bool.

Lemma getc_spec s b bs c : R s (b :: bs) -> exists s', getc s c = Done (s', b, 1) /\ R s' bs.
Proof.
  intros Hr. destruct (delivers_bytes s [b] bs Hr) as (s' & E & Hr').
  exists s'. split; [|done]. unfold getc. change 1 with (zlen [b]). by rewrite E.
Qed.

Lemma getc_end s c : R s [] -> exists s' c', getc s c = Done (s', c', 0).
Proof.
  intros Hr. destruct (delivers_short s [] 1 Hr) as (s' & w & r & E & Hlt); [done | lia |].
  exists s'. eexists. unfold getc. rewrite E. cbn [mbind outcome_bind].
  by replace r with 0 by lia.
Qed.

Lemma read_octets_spec xs bs s c acc :
  R s (xs ++ bs) ->
  exists s' c', read_octets (length xs) s c acc
      = Done (s', c', ONAK_E_OK, foldl (fun a b => Z.shiftl a 8 + b) acc xs)
    /\ R s' bs.
Proof.
  revert s c acc. induction xs as [|x xs IH]; intros s c acc Hr; [by exists s, c|].
  cbn [length read_octets app] in *.
  destruct (getc_spec s x (xs ++ bs) c Hr) as (s1 & E & Hr1). rewrite E.
  cbn [mbind outcome_bind]. rewrite Z.eqb_refl. apply IH. done.
Qed.

Lemma read_new_length_spec len bs s c :
  0 <= len < 2 ^ 32 -> R s (new_length_octets len ++ bs) ->
  exists s' c', read_new_length s c = Done (s', c', ONAK_E_OK, Some len) /\ R s' bs.
Proof.
  intros Hlen Hr. unfold read_new_length, new_length_octets in *.
  destruct (Z.ltb_spec len 192).
  { destruct (getc_spec s len bs c Hr) as (s1 & E & Hr1). rewrite E. cbn [mbind outcome_bind].
    destruct (Z.ltb_spec 191 len); [lia|]. destruct (Z.ltb_spec 223 len); [lia|].
    destruct (Z.eqb_spec len 255); [lia|]. by exists s1, len. }
  destruct (Z.ltb_spec len 8383).
  { assert (Hq : 0 <= (len - 192) / 256 < 32)
      by (split; [apply Z.div_pos | apply Z.div_lt_upper_bound]; lia).
    destruct (getc_spec s _ _ c Hr) as (s1 & E & Hr1). rewrite E. cbn [mbind outcome_bind].
    set (q := (len - 192) / 256) in *.
    destruct (Z.ltb_spec 191 (q + 192)); [|lia]. destruct (Z.ltb_spec (q + 192) 224); [|lia].
    cbn [Z.eqb andb]. destruct (getc_spec s1 _ _ (q + 192) Hr1) as (s2 & E2 & Hr2).
    rewrite E2. cbn [mbind outcome_bind Z.eqb]. exists s2. eexists. split; [|exact Hr2].
    do 3 f_equal. rewrite shiftl_8. pose proof (Z_div_mod_eq_full (len - 192) 256).
    unfold q. lia. }
  destruct (getc_spec s _ _ c Hr) as (s1 & E & Hr1). rewrite E. cbn [mbind outcome_bind].
  change ((191 <? 255) && (255 <? 224)) with false. change ((223 <? 255) && (255 <? 255)) with false.
  cbn [Z.eqb Pos.eqb].
  destruct (read_octets_spec (htonl_bytes len) bs s1 255 0 Hr1) as (s2 & c2 & E2 & Hr2).
  change (length (htonl_bytes len)) with 4%nat in E2. rewrite E2. cbn [mbind outcome_bind].
  exists s2, c2. split; [|done]. by rewrite htonl_bytes_value.
Qed.

Lemma read_old_length_spec len bs s c :
  0 <= len < 2 ^ 32 -> Z.land c 3 = old_length_type len -> R s (old_length_octets len ++ bs) ->
  exists s' c', read_old_length s c = Done (s', c', ONAK_E_OK, Some len) /\ R s' bs.
Proof.
  intros Hlen Hc Hr. unfold read_old_length. rewrite Hc.
  destruct (read_octets_spec _ bs s c 0 Hr) as (s2 & c2 & E2 & Hr2).
  unfold old_length_type, old_length_octets in *.
  destruct (Z.ltb_spec len 256); [|destruct (Z.ltb_spec len 0x10000)]; cbn [Z.eqb Pos.eqb].
  - cbn [length] in E2. rewrite E2. exists s2, c2.
    cbn [foldl]. by rewrite Z.shiftl_0_l.
  - cbn [length] in E2. rewrite E2. exists s2, c2. split; [|done].
    cbn [foldl mbind outcome_bind]. do 3 f_equal. rewrite Z.shiftl_0_l, shiftl_8.
    pose proof (Z_div_mod_eq_full len 256). lia.
  - change (length (htonl_bytes len)) with 4%nat in E2. rewrite E2.
    exists s2, c2. split; [|done]. cbn [mbind outcome_bind]. by rewrite htonl_bytes_value.
Qed.

(** The tag octet says the format, the tag and, in the old format, the kind
    of the length. *)
Lemma tag_octet_decode p :
  encodable p ->
  Z.testbit (tag_octet p) 7 = true /\ Z.testbit (tag_octet p) 6 = pkt_newformat p /\
  (if pkt_newformat p then Z.land (tag_octet p) 0x3F
   else Z.shiftr (Z.land (tag_octet p) 0x3C) 2) = pkt_tag p /\
  (pkt_newformat p = false -> Z.land (tag_octet p) 3 = old_length_type (pkt_length p)).
Proof.
  intros [_ Hp]. unfold tag_octet. destruct (pkt_newformat p).
  - destruct Hp as [Htag _]. revert Htag. generalize (pkt_tag p). intros t Ht.
    assert (Hall : Z.testbit (192 + t) 7 = true /\ Z.testbit (192 + t) 6 = true /\
      Z.land (192 + t) 0x3F = t) by (revert t Ht; by_range). naive_solver.
  - destruct Hp as [Htag _].
    assert (Hk : old_length_type (pkt_length p) ∈ [0; 1; 2])
      by (unfold old_length_type; repeat case_if; set_solver).
    revert Htag Hk. generalize (pkt_tag p) (old_length_type (pkt_length p)). intros t k Ht Hk.
    assert (Hall : forall k, k ∈ [0; 1; 2] ->
      Z.testbit (128 + 4 * t + k) 7 = true /\ Z.testbit (128 + 4 * t + k) 6 = false /\
      Z.shiftr (Z.land (128 + 4 * t + k) 0x3C) 2 = t /\ Z.land (128 + 4 * t + k) 3 = k).
    { intros k' Hk'. rewrite !elem_of_cons, elem_of_nil in Hk'.
      destruct Hk' as [->|[->|[->|[]]]]; revert t Ht; by_range. }
    naive_solver.
Qed.

Lemma read_body_spec len data bs s :
  malloc_ok len = true -> zlen data = len -> R s (data ++ bs) ->
  exists s', read_body malloc_ok s len = Done (s', ONAK_E_OK, Some data) /\ R s' bs.
Proof.
  intros Hm <- Hr. unfold read_body. rewrite Hm.
  destruct (delivers_bytes s data bs Hr) as (s' & E & Hr'). rewrite E. cbn [mbind outcome_bind].
  rewrite Z.eqb_refl. by exists s'.
Qed.

Lemma read_packet_spec p bs s keys nodes :
  encodable p -> version_sane p -> malloc_ok (pkt_length p) = true ->
  R s (length_octets p ++ pkt_data p ++ bs) ->
  exists s' c', read_packet malloc_ok s (tag_octet p) keys nodes
      = Done (s', c', ONAK_E_OK, if pkt_tag p =? OPENPGP_PACKET_PUBLICKEY then i32 (keys + 1) else keys, nodes ++ [node_of p])
    /\ R s' bs.
Proof.
  intros Hp Hv Hm Hr. unfold read_packet.
  destruct (tag_octet_decode p Hp) as (-> & -> & -> & Hk).
  pose proof (encodable_length p Hp) as Hlen.
  assert (exists s1 c1, (if pkt_newformat p then read_new_length s (tag_octet p)
      else read_old_length s (tag_octet p)) = Done (s1, c1, ONAK_E_OK, Some (pkt_length p))
      /\ R s1 (pkt_data p ++ bs)) as (s1 & c1 & E1 & Hr1).
  { unfold length_octets in Hr. destruct (pkt_newformat p).
    - by apply read_new_length_spec.
    - apply read_old_length_spec; auto. }
  rewrite E1. cbn [mbind outcome_bind status_ok].
  destruct (read_body_spec (pkt_length p) (pkt_data p) bs s1) as (s2 & E2 & Hr2);
    [done | symmetry; by destruct Hp as [[] _] | done |].
  rewrite E2. cbn [mbind outcome_bind status_ok]. rewrite Hv. cbn [mbind outcome_bind].
  by eexists _, _.
Qed.

(** The loop consumes the encoding of a list of packets one round per
    packet. *)
Lemma read_loop_spec ps bs fuel s c keys nodes :
  Forall encodable ps -> Forall version_sane ps ->
  Forall (fun p => malloc_ok (pkt_length p) = true) ps ->
  R s (encode_packets ps ++ bs) ->
  exists s' c' keys',
    read_loop malloc_ok (length ps + fuel) 0 s c ONAK_E_OK keys nodes
      = read_loop malloc_ok fuel 0 s' c' ONAK_E_OK keys' (nodes ++ map node_of ps)
    /\ R s' bs.
Proof.
  intros Hp Hv Hm. revert s c keys nodes. induction ps as [|p ps IH]; intros s c keys nodes Hr.
  { exists s, c, keys. by rewrite app_nil_r. }
  inversion Hp; inversion Hv; inversion Hm; subst.
  rewrite encode_packets_cons in Hr. unfold encode_packet in Hr. cbn [app] in Hr.
  rewrite <- !app_assoc in Hr.
  destruct (getc_spec s _ _ c Hr) as (s1 & E1 & Hr1).
  destruct (read_packet_spec p (encode_packets ps ++ bs) s1 keys nodes)
    as (s2 & c2 & E2 & Hr2); auto. revert E2. generalize (if pkt_tag p =? OPENPGP_PACKET_PUBLICKEY then i32 (keys + 1) else keys). intros k2 E2.
  cbn [length Nat.add read_loop status_ok andb Z.eqb orb]. rewrite E1.
  cbn [mbind outcome_bind Z.eqb Pos.eqb]. rewrite E2. cbn [mbind outcome_bind].
  destruct (IH ltac:(done) ltac:(done) ltac:(done) s2 c2 k2 (nodes ++ [node_of p]) Hr2)
    as (s3 & c3 & k3 & E3 & Hr3).
  exists s3, c3, k3. rewrite E3. by rewrite <- app_assoc.
Qed.

Lemma trim_last_ok ps : trim_last ONAK_E_OK (map node_of ps) = map node_of ps.
Proof.
  unfold trim_last. destruct (last (map node_of ps)) as [n|] eqn:E; [|done].
  apply last_Some in E as [l' E].
  assert (Hn : n ∈ map node_of ps) by (rewrite E; set_solver).
  apply list_elem_of_fmap in Hn as (p & -> & _). done.
Qed.

Lemma read_stream_spec ps s fuel pre :
  Forall encodable ps -> Forall version_sane ps ->
  Forall (fun p => malloc_ok (pkt_length p) = true) ps ->
  R s (encode_packets ps) -> (length ps < fuel)%nat ->
  exists s', read_openpgp_stream malloc_ok fuel s (Some pre) 0
    = Done (s', ONAK_E_OK, Some (pre ++ ps)).
Proof.
  intros Hp Hv Hm Hr Hf. rewrite <- (app_nil_r (encode_packets ps)) in Hr.
  replace fuel with (length ps + Datatypes.S (fuel - length ps - 1))%nat by lia.
  destruct (read_loop_spec ps [] (Datatypes.S (fuel - length ps - 1)) s 0 0 [] Hp Hv Hm Hr)
    as (s1 & c1 & k1 & E1 & Hr1).
  unfold read_openpgp_stream. rewrite E1. cbn [read_loop status_ok andb Z.eqb orb].
  destruct (getc_end s1 c1 Hr1) as (s2 & c2 & E2). rewrite E2. cbn [mbind outcome_bind Z.eqb].
  cbn [app]. rewrite trim_last_ok, packets_of_nodes_of. cbn [mbind outcome_bind]. by exists s2.
Qed.
End ReadSpec.

(** * The reader on arbitrary input *)

(** What every packet of a result list satisfies. *)
Definition readable (p : openpgp_packet) : Prop :=
  wf_packet p /\ version_sane p /\ pkt_length p < 2 ^ 32 /\
  0 <= pkt_tag p < (if pkt_newformat p then 64 else 16).

(** A header that announces an empty body for a packet whose version octet is
    checked: the tag octet, and the length octets. *)
Definition header_tag (c : Z) : Z :=
  if Z.testbit c 6 then Z.land c 0x3F else Z.shiftr (Z.land c 0x3C) 2.

Definition versioned (tag : Z) : Prop :=
  tag ∈ [OPENPGP_PACKET_ENCRYPTED_MDC; OPENPGP_PACKET_PKSESSIONKEY; OPENPGP_PACKET_ONEPASSSIG;
         OPENPGP_PACKET_SYMSESSIONKEY; OPENPGP_PACKET_SIGNATURE; OPENPGP_PACKET_SECRETKEY;
         OPENPGP_PACKET_PUBLICKEY].

Definition new_zero_length (lens : list Z) : Prop := lens = [0] \/ lens = 255 :: replicate 4 0.

Definition old_zero_length (c : Z) (lens : list Z) : Prop :=
  lens = replicate (if Z.land c 3 =? 0 then 1 else if Z.land c 3 =? 1 then 2 else 4) 0.

Definition empty_header (c : Z) (lens : list Z) : Prop :=
  Z.testbit c 7 = true /\ versioned (header_tag c) /\
  if Z.testbit c 6 then new_zero_length lens else old_zero_length c lens.

Definition has_empty_header (bs : list Z) : Prop :=
  exists before c lens after, bs = before ++ c :: lens ++ after /\ empty_header c lens.

Section ReadTotal.
Context {S : Type} `{Source S} {R : S -> list Z -> Prop} `{!Delivers R}.
Variable malloc_ok : Z -> bool.

(** [used] has been taken off the stream [bs]. *)
Definition consumed (s : S) (bs used : list Z) : Prop :=
  exists bs', bs = used ++ bs' /\ R s bs'.

Lemma getc_total s bs c :
  R s bs -> Forall byte bs ->
  exists s' c' r, getc s c = Done (s', c', r) /\
    ((r = 0 /\ bs = []) \/ (r = 1 /\ exists bs', bs = c' :: bs' /\ R s' bs')).
Proof.
  intros Hr Hb. destruct bs as [|b bs].
  - destruct (getc_end (R := R) s c Hr) as (s' & c' & E). eauto 10.
  - destruct (getc_spec s b bs c Hr) as (s' & E & Hr'). eauto 12.
Qed.

Lemma read_octets_total n s bs c acc :
  R s bs -> Forall byte bs -> 0 <= acc ->
  exists s' c' rc v, read_octets n s c acc = Done (s', c', rc, v) /\
    (rc = ONAK_E_OK -> exists used, consumed s' bs used /\ 0 <= v < (acc + 1) * 256 ^ Z.of_nat n /\
       (v = 0 -> acc = 0 /\ used = replicate n 0)).
Proof.
  revert s bs c acc. induction n as [|n IH]; intros s bs c acc Hr Hb Hacc.
  { exists s, c, ONAK_E_OK, acc. split; [done|]. intros _. exists [].
    split; [by exists bs|]. split; [cbn; lia | auto]. }
  cbn [read_octets].
  destruct (getc_total s bs c Hr Hb) as (s1 & c1 & r1 & E & Hcase). rewrite E.
  cbn [mbind outcome_bind]. destruct Hcase as [[-> ->] | (-> & bs1 & -> & Hr1)].
  - by eexists _, _, _, _.
  - cbn [Z.eqb Pos.eqb]. inversion Hb as [|? ? Hc1 Hb1]; subst. unfold byte in Hc1.
    destruct (IH s1 bs1 c1 (Z.shiftl acc 8 + c1) Hr1 Hb1) as (s2 & c2 & rc & v & E2 & Hok).
    { rewrite shiftl_8. lia. }
    exists s2, c2, rc, v. split; [done|]. intros Hrc. destruct (Hok Hrc) as (used & (bs2 & -> & Hr2) & Hv & H0).
    exists (c1 :: used). split; [by exists bs2|]. rewrite shiftl_8 in *. split.
    + rewrite Nat2Z.inj_succ, Z.pow_succ_r by lia.
      assert (0 < 256 ^ Z.of_nat n) by (apply Z.pow_pos_nonneg; lia). nia.
    + intros Hv0. destruct (H0 Hv0) as [Ha ->]. split; [lia|]. cbn [replicate]. f_equal. lia.
Qed.

Lemma read_new_length_total s bs c :
  R s bs -> Forall byte bs ->
  exists s' c' rc lo, read_new_length s c = Done (s', c', rc, lo) /\
    (rc = ONAK_E_OK -> exists len used, lo = Some len /\ 0 <= len < 2 ^ 32 /\ consumed s' bs used /\
       (len = 0 -> new_zero_length used)).
Proof.
  intros Hr Hb. unfold read_new_length.
  destruct (getc_total s bs c Hr Hb) as (s1 & c1 & r1 & E & Hcase). rewrite E.
  cbn [mbind outcome_bind]. destruct Hcase as [[-> ->] | (-> & bs1 & -> & Hr1)].
  { by eexists _, _, _, _. }
  cbn [Z.eqb]. inversion Hb as [|? ? Hc1 Hb1]; subst. unfold byte in Hc1.
  destruct (_ && (c1 <? 224)) eqn:E1; zbool.
  { destruct (getc_total s1 bs1 c1 Hr1 Hb1) as (s2 & c2 & r2 & E2 & Hcase). rewrite E2.
    cbn [mbind outcome_bind]. destruct Hcase as [[-> ->] | (-> & bs2 & -> & Hr2)].
    { by eexists _, _, _, _. }
    inversion Hb1 as [|? ? Hc2 Hb2]; subst. unfold byte in Hc2.
    eexists _, _, _, _. split; [done|]. intros _. eexists _, [c1; c2]. split; [done|].
    rewrite shiftl_8. split; [lia|]. split; [by exists bs2 | lia]. }
  destruct (_ && (c1 <? 255)) eqn:E3; [by eexists _, _, _, _|].
  destruct (Z.eqb_spec c1 255) as [->|E4].
  { destruct (read_octets_total 4 s1 bs1 255 0 Hr1 Hb1) as (s2 & c2 & rc & v & E5 & Hok); [lia|].
    rewrite E5. cbn [mbind outcome_bind]. eexists _, _, _, _. split; [done|]. intros Hrc.
    destruct (Hok Hrc) as (used & (bs2 & -> & Hr2) & Hv & H0). exists v, (255 :: used). split; [done|]. split; [lia|].
    split; [by exists bs2|]. intros Hv0. destruct (H0 Hv0) as [_ ->]. by right. }
  eexists _, _, _, _. split; [done|]. intros _. exists c1, [c1]. split; [done|]. split; [lia|].
  split; [by exists bs1 | intros ->; by left].
Qed.

Lemma read_old_length_total s bs c :
  R s bs -> Forall byte bs ->
  exists s' c' rc lo, read_old_length s c = Done (s', c', rc, lo) /\
    (rc = ONAK_E_OK -> exists len used, lo = Some len /\ 0 <= len < 2 ^ 32 /\ consumed s' bs used /\
       (len = 0 -> old_zero_length c used)).
Proof.
  intros Hr Hb. unfold read_old_length, old_zero_length.
  assert (Hoct : forall n, (n <= 4)%nat -> exists s' c' rc lo,
    ('(s, curchar, rc, length) ← read_octets n s c 0; Done (s, curchar, rc, Some length))
      = Done (s', c', rc, lo) /\
    (rc = ONAK_E_OK -> exists len used, lo = Some len /\ 0 <= len < 2 ^ 32 /\ consumed s' bs used /\
       (len = 0 -> used = replicate n 0))).
  { intros n Hn. destruct (read_octets_total n s bs c 0 Hr Hb) as (s2 & c2 & rc & v & E & Hok); [lia|].
    rewrite E. cbn [mbind outcome_bind]. eexists _, _, _, _. split; [done|]. intros Hrc.
    destruct (Hok Hrc) as (used & Hu & Hv & H0). exists v, used. split; [done|]. split; [|split; [done | apply H0]].
    assert (256 ^ Z.of_nat n <= 256 ^ 4) by (apply Z.pow_le_mono_r; lia). lia. }
  repeat case_if; try (apply Hoct; lia). by eexists _, _, _, _.
Qed.

Lemma read_body_total s bs len :
  R s bs -> Forall byte bs -> 0 <= len < 2 ^ 32 ->
  exists s' rc d, read_body malloc_ok s len = Done (s', rc, d) /\
    (rc = ONAK_E_OK -> exists data, d = Some data /\ zlen data = len /\ consumed s' bs data).
Proof.
  intros Hr Hb Hlen. unfold read_body. destruct (malloc_ok len); [|by eexists _, _, _].
  destruct (Z.ltb_spec (zlen bs) len).
  - destruct (delivers_short s bs len Hr) as (s' & w & r & E & Hlt); [done | lia |].
    rewrite E. cbn [mbind outcome_bind]. destruct (Z.eqb_spec r len); [lia|].
    by eexists _, _, _.
  - assert (Hz : zlen (take (Z.to_nat len) bs) = len)
      by (unfold zlen in *; rewrite length_take; lia).
    rewrite <- (take_drop (Z.to_nat len) bs) in Hr, Hb.
    destruct (delivers_bytes s _ _ Hr) as (s' & E & Hr'). rewrite Hz in E. rewrite E.
    cbn [mbind outcome_bind]. rewrite Z.eqb_refl. eexists _, _, _. split; [done|]. intros _.
    eexists. split; [done|]. split; [done|]. eexists. split; [by rewrite take_drop | exact Hr'].
Qed.

(** Reading past the end of an empty body is the only way the version check
    can go wrong. *)
Lemma version_check_cases tag data :
  (exists rc, version_check tag data = Done rc) \/
  (version_check tag data = Fault OutOfBounds /\ data = [] /\ versioned tag).
Proof.
  unfold version_check, versioned. destruct data as [|b data]; cbn; repeat case_if; eauto;
    right; (split; [done|]; split; [done|]); rewrite !elem_of_cons;
    rewrite ?orb_true_iff, ?Z.eqb_eq in *; tauto.
Qed.

Lemma read_packet_total s bs c keys ps :
  R s bs -> Forall byte bs -> byte c -> Forall readable ps ->
  (read_packet malloc_ok s c keys (map node_of ps) = Fault OutOfBounds /\
   exists lens rest, bs = lens ++ rest /\ empty_header c lens) \/
  exists s' c' rc keys' nodes', read_packet malloc_ok s c keys (map node_of ps)
      = Done (s', c', rc, keys', nodes') /\
    ((rc = ONAK_E_OK /\ (exists used, consumed s' bs used) /\
      exists p, readable p /\ nodes' = map node_of (ps ++ [p])) \/
     (rc <> ONAK_E_OK /\ (nodes' = map node_of ps \/ exists n, nodes' = map node_of ps ++ [n]))).
Proof.
  intros Hr Hb Hc Hps. unfold read_packet.
  destruct (Z.testbit c 7) eqn:E7; [|right; eexists _, _, _, _, _; split; [done|]; right; auto].
  fold (header_tag c). set (nf := Z.testbit c 6).
  assert (Htag : 0 <= header_tag c < if nf then 64 else 16).
  { unfold header_tag, nf, byte in *. clear -Hc. revert c Hc. by_range. }
  assert (exists s' c' rc lo, (if nf then read_new_length s c else read_old_length s c)
      = Done (s', c', rc, lo) /\
    (rc = ONAK_E_OK -> exists len used, lo = Some len /\ 0 <= len < 2 ^ 32 /\ consumed s' bs used /\
       (len = 0 -> if nf then new_zero_length used else old_zero_length c used)))
    as (s1 & c1 & rc & lo & E1 & Hok1)
    by (destruct nf; auto using read_new_length_total, read_old_length_total).
  rewrite E1. cbn [mbind outcome_bind].
  destruct (decide (rc = ONAK_E_OK)) as [->|Hrc].
  2: { right. destruct lo as [len|]; [|eexists _, _, _, _, _; split; [done|]; right; eauto].
       destruct rc; try done; cbn [status_ok];
         (eexists _, _, _, _, _; split; [done|]; right; eauto). }
  destruct (Hok1 eq_refl) as (len & used & -> & Hlen & (bs1 & -> & Hr1) & H0).
  apply Forall_app in Hb as [_ Hb1]. cbn [status_ok].
  destruct (read_body_total s1 bs1 len Hr1 Hb1 Hlen) as (s2 & rc2 & d & E2 & Hok2).
  rewrite E2. cbn [mbind outcome_bind].
  destruct (decide (rc2 = ONAK_E_OK)) as [->|Hrc2].
  2: { right. destruct rc2; try done; cbn [status_ok];
         (eexists _, _, _, _, _; split; [done|]; right; eauto). }
  destruct (Hok2 eq_refl) as (data & -> & Hz & (bs2 & -> & Hr2)).
  apply Forall_app in Hb1 as [Hdata Hb2]. cbn [status_ok].
  destruct (version_check_cases (header_tag c) data) as [[rc3 Ev] | (Ev & -> & Hv)]; rewrite Ev;
    cbn [mbind outcome_bind]; [right | left].
  2: { split; [done|]. exists used, ([] ++ bs2). split; [done|]. split; [done|]. split; [done|].
       apply H0. rewrite <- Hz. done. }
  eexists _, _, _, _, _. split; [done|]. destruct (decide (rc3 = ONAK_E_OK)) as [->|Hrc3]; [left|right].
  - split; [done|]. split; [exists (used ++ data), bs2; by rewrite app_assoc|].
    exists (mkPacket (header_tag c) nf len data). split; [|by rewrite map_app].
    split; [by split|]. split; [exact Ev|]. split; [cbn; lia | exact Htag].
  - split; [done|]. right. eauto.
Qed.

Lemma trim_last_snoc rc l n :
  rc <> ONAK_E_OK -> trim_last rc (l ++ [n]) = l.
Proof.
  intros Hrc. unfold trim_last. rewrite last_snoc.
  assert (Hf : status_ok rc = false) by (by destruct rc). rewrite Hf.
  replace (match n with Some _ | _ => None end) with (@None raw_packet) by (by destruct n).
  apply removelast_last.
Qed.

(** On failure the last node goes, whether it is the failed packet or, when
    the failing octet was no tag octet, the packet before it. *)
Lemma trim_last_err rc ps :
  rc <> ONAK_E_OK -> trim_last rc (map node_of ps) = map node_of (removelast ps).
Proof.
  intros Hrc. destruct ps as [|p ps _] using rev_ind; [done|].
  rewrite map_app, removelast_last. by apply trim_last_snoc.
Qed.

Lemma Forall_removelast {A} (P : A -> Prop) l : Forall P l -> Forall P (removelast l).
Proof.
  intros Hl. destruct l as [|x l _] using rev_ind; [done|].
  rewrite removelast_last. by apply Forall_app in Hl as [? _].
Qed.

Lemma read_loop_total fuel maxnum s bs c keys ps :
  R s bs -> Forall byte bs -> (length bs < fuel)%nat -> Forall readable ps ->
  (read_loop malloc_ok fuel maxnum s c ONAK_E_OK keys (map node_of ps) = Fault OutOfBounds /\
   has_empty_header bs) \/
  exists s' rc nodes ps', read_loop malloc_ok fuel maxnum s c ONAK_E_OK keys (map node_of ps)
      = Done (s', rc, nodes) /\ trim_last rc nodes = map node_of ps' /\ Forall readable ps'.
Proof.
  revert s bs c keys ps. induction fuel as [|fuel IH]; intros s bs c keys ps Hr Hb Hf Hps; [lia|].
  cbn [read_loop status_ok]. destruct (_ && _).
  2: { right. eexists _, _, _, ps. split; [done|]. by rewrite trim_last_ok. }
  destruct (getc_total s bs c Hr Hb) as (s1 & c1 & r1 & E & Hcase). rewrite E.
  cbn [mbind outcome_bind]. destruct Hcase as [[-> ->] | (-> & bs1 & -> & Hr1)].
  { right. eexists _, _, _, ps. split; [done|]. by rewrite trim_last_ok. }
  cbn [Z.eqb Pos.eqb]. inversion Hb as [|? ? Hc1 Hb1]; subst. cbn [length] in Hf.
  destruct (read_packet_total s1 bs1 c1 keys ps Hr1 Hb1 Hc1 Hps)
    as [(E2 & lens & rest & -> & Hh) | (s2 & c2 & rc & k2 & nodes & E2 & Hres)]; rewrite E2; cbn [mbind outcome_bind].
  { left. split; [done|]. by exists [], c1, lens, rest. }
  destruct Hres as [(-> & (used & bs2 & -> & Hr2) & p & Hp & ->) | (Hrc & Hnodes)].
  - apply Forall_app in Hb1 as [_ Hb2]. rewrite length_app in Hf.
    destruct (IH s2 bs2 c2 k2 (ps ++ [p])) as [[El (before & c' & lens & after & -> & Hh)]|Hd];
      [done | done | lia | apply Forall_app; auto | left | by right].
    split; [done|]. exists (c1 :: used ++ before), c', lens, after. split; [|done]. cbn. by rewrite <- app_assoc.
  - right. assert (El : read_loop malloc_ok fuel maxnum s2 c2 rc k2 nodes = Done (s2, rc, nodes))
      by (destruct fuel, rc; done).
    rewrite El. destruct Hnodes as [-> | [n ->]].
    + eexists _, _, _, (removelast ps). split; [done|]. rewrite trim_last_err by done.
      split; [done|]. by apply Forall_removelast.
    + eexists _, _, _, ps. split; [done|]. by rewrite trim_last_snoc.
Qed.
End ReadTotal.

(** * Properties *)

(** The buffer a reader is given: the bytes written so far, from the start. *)
Definition rewind (buf : buffer_ctx) : buffer_ctx :=
  mkBuffer (take (Z.to_nat (buf_offset buf)) (buf_buffer buf)) 0 (buf_offset buf).

Lemma rewind_reading buf bs :
  writing buf bs -> zlen bs < 2 ^ 62 -> reading (rewind buf) bs.
Proof.
  intros (Hb & Hs & Ho & ->) Hlen. unfold reading, rewind. cbn.
  assert (zlen (take (Z.to_nat (buf_offset buf)) (buf_buffer buf)) = buf_offset buf)
    by (unfold zlen in *; rewrite length_take; lia).
  rewrite drop_0. repeat split; lia.
Qed.

(** C1: writing a list of packets to a memory buffer and reading that buffer
    back gives the same packets, appended to the list the reader was given:
    for every list of packets the format can express and whose version octets
    the reader accepts, in both header formats and all length encodings.  One
    round of the reader's loop per packet, plus one, is enough. *)
Theorem stream_roundtrip malloc_ok ps buf pre fuel :
  writing buf [] ->
  Forall encodable ps -> Forall version_sane ps ->
  Forall (fun p => malloc_ok (pkt_length p) = true) ps ->
  zlen (encode_packets ps) + 6 < 2 ^ 62 ->
  (length ps < fuel)%nat ->
  exists buf' buf'',
    write_openpgp_stream buf ps = Done (buf', ONAK_E_OK) /\
    read_openpgp_stream malloc_ok fuel (rewind buf') (Some pre) 0
      = Done (buf'', ONAK_E_OK, Some (pre ++ ps)).
Proof.
  intros Hw He Hv Hm Hlen Hf.
  destruct (write_spec ps buf [] Hw He) as (buf' & Ew & Hw');
    [rewrite zlen_nil; lia|].
  destruct (read_stream_spec (R := reading) malloc_ok ps (rewind buf') fuel pre)
    as (buf'' & Er); auto.
  { apply rewind_reading; [done | cbn [app]; lia]. }
  eauto.
Qed.

(** A public key, a user id and a signature packet, in both formats. *)
Definition sample_packets : list openpgp_packet :=
  [ mkPacket OPENPGP_PACKET_PUBLICKEY true 6 [4; 0; 0; 0; 1; 1];
    mkPacket OPENPGP_PACKET_UID false 3 [65; 66; 67];
    mkPacket OPENPGP_PACKET_SIGNATURE true 200 (4 :: replicate 199 7) ].

Lemma stream_roundtrip_witness :
  exists buf' buf'',
    write_openpgp_stream (mkBuffer (replicate 16 0) 0 16) sample_packets
      = Done (buf', ONAK_E_OK) /\
    read_openpgp_stream (fun _ => true) 4 (rewind buf') (Some []) 0
      = Done (buf'', ONAK_E_OK, Some ([] ++ sample_packets)).
Proof.
  apply (stream_roundtrip (fun _ => true) sample_packets (mkBuffer (replicate 16 0) 0 16) [] 4).
  - repeat split; vm_compute; congruence.
  - apply (bool_decide_unpack _). vm_compute. exact I.
  - apply (bool_decide_unpack _). vm_compute. exact I.
  - apply (bool_decide_unpack _). vm_compute. exact I.
  - vm_compute. reflexivity.
  - cbn. lia.
Defined.

(** C12: on any byte stream, of any length, the reader terminates within one
    round per octet and returns a status and a list all of whose packets are
    well formed (buffer of the advertised length, tag in range, accepted version
    octet), unless the stream holds the header of an empty packet whose version
    octet would be checked; reading that octet, behind the end of the empty
    buffer, is the only fault. *)
Theorem read_stream_safe malloc_ok maxnum buf bs pre fuel :
  reading buf bs -> Forall byte bs -> (length bs < fuel)%nat ->
  (read_openpgp_stream malloc_ok fuel buf (Some pre) maxnum = Fault OutOfBounds /\ has_empty_header bs) \/
  exists buf' rc ps,
    read_openpgp_stream malloc_ok fuel buf (Some pre) maxnum
      = Done (buf', rc, Some (pre ++ ps)) /\ Forall readable ps.
Proof.
  intros Hr Hb Hf.
  destruct (read_loop_total (R := reading) malloc_ok fuel maxnum buf bs 0 0 [] Hr Hb Hf)
    as [[E Hh] | (s' & rc & nodes & ps & E & Et & Hps)]; [done | |];
    unfold read_openpgp_stream; cbn [map] in E; rewrite E; cbn [mbind outcome_bind]; [by left|].
  right. rewrite Et, packets_of_nodes_of. cbn [mbind outcome_bind]. eauto 10.
Qed.

Lemma read_stream_safe_witness :
  let bs := [0xB4; 3; 65; 66; 67; 10] in
  let buf := mkBuffer bs 0 6 in
  (read_openpgp_stream (fun _ => true) 7 buf (Some []) 0 = Fault OutOfBounds /\ has_empty_header bs) \/
  exists buf' rc ps,
    read_openpgp_stream (fun _ => true) 7 buf (Some []) 0
      = Done (buf', rc, Some ([] ++ ps)) /\ Forall readable ps.
Proof.
  intros bs buf. apply (read_stream_safe (fun _ => true) 0 buf bs [] 7).
  - repeat split; vm_compute; congruence.
  - apply (bool_decide_unpack _). vm_compute. exact I.
  - cbn. lia.
Defined.

(** An octet that is no tag octet behind a complete packet makes the
    reader discard that packet as well: the trimming behind the loop does not
    know that the last node was complete.  A binary keyring followed by a
    newline loses its last packet. *)
Theorem read_trailing_octet_drops_packet malloc_ok ps p b rest buf pre fuel :
  reading buf (encode_packets (ps ++ [p]) ++ b :: rest) ->
  Forall encodable (ps ++ [p]) -> Forall version_sane (ps ++ [p]) ->
  Forall (fun p => malloc_ok (pkt_length p) = true) (ps ++ [p]) ->
  byte b -> b < 128 ->
  (length ps + 1 < fuel)%nat ->
  exists buf', read_openpgp_stream malloc_ok fuel buf (Some pre) 0
    = Done (buf', ONAK_E_INVALID_PKT, Some (pre ++ ps)).
Proof.
  intros Hr He Hv Hm Hb Hb128 Hf.
  set (k := (fuel - length (ps ++ [p]) - 1)%nat).
  assert (Hk : fuel = (length (ps ++ [p]) + Datatypes.S k)%nat)
    by (unfold k; rewrite length_app; cbn; lia).
  destruct (read_loop_spec (R := reading) malloc_ok (ps ++ [p]) (b :: rest) (Datatypes.S k) buf 0 0 []
    He Hv Hm Hr) as (s1 & c1 & k1 & E1 & Hr1).
  destruct (getc_spec (R := reading) s1 b rest c1 Hr1) as (s2 & E2 & _).
  assert (Hbit : Z.testbit b 7 = false).
  { assert (0 <= b < 128) as Hb' by (unfold byte in Hb; lia). clear -Hb'. revert b Hb'. by_range. }
  unfold read_openpgp_stream. rewrite Hk, E1. cbn [read_loop status_ok andb Z.eqb orb].
  rewrite E2. cbn [mbind outcome_bind Z.eqb Pos.eqb]. unfold read_packet. rewrite Hbit.
  cbn [mbind outcome_bind].
  assert (El : forall c keys nodes, read_loop malloc_ok k 0 s2 c ONAK_E_INVALID_PKT keys nodes
    = Done (s2, ONAK_E_INVALID_PKT, nodes)) by (by destruct k).
  rewrite El. cbn [mbind outcome_bind app]. rewrite trim_last_err, removelast_last by done.
  rewrite packets_of_nodes_of. cbn [mbind outcome_bind]. eauto.
Qed.

Lemma read_trailing_octet_witness :
  exists buf', read_openpgp_stream (fun _ => true) 9
      (mkBuffer (encode_packets sample_packets ++ [10]) 0 (zlen (encode_packets sample_packets) + 1))
      (Some []) 0
    = Done (buf', ONAK_E_INVALID_PKT, Some ([] ++ take 2 sample_packets)).
Proof.
  apply (read_trailing_octet_drops_packet (fun _ => true) (take 2 sample_packets)
    (mkPacket OPENPGP_PACKET_SIGNATURE true 200 (4 :: replicate 199 7)) 10 []).
  - repeat split; vm_compute; congruence.
  - apply (bool_decide_unpack _). vm_compute. exact I.
  - apply (bool_decide_unpack _). vm_compute. exact I.
  - apply (bool_decide_unpack _). vm_compute. exact I.
  - unfold byte. lia.
  - lia.
  - cbn. lia.
Defined.
