(* ===== verification/Armor.v ===== *)
(** ASCII armor (armor.c): the base64 encoder that is a [putchar_func] in front
    of another one, the decoder that is a [getchar_func] in front of another
    one, and the two stream functions built on them. *)

From Stdlib Require Import String.
From S2P Require Import Prelude OpenPGP Streams Packets.

(** * Base 64 digits and the CRC *)

Definition ARMOR_WIDTH : Z := 64.
Definition CRC24_INIT : Z := 0xb704ce.
Definition CRC24_POLY : Z := 0x1864cfb.

Definition chr_A : Z := 65.
Definition chr_a : Z := 97.
Definition chr_0 : Z := 48.
Definition chr_plus : Z := 43.
Definition chr_slash : Z := 47.
Definition chr_eq : Z := 61.
Definition chr_dash : Z := 45.
Definition chr_nl : Z := 10.
Definition chr_cr : Z := 13.

Definition encode64 (c : Z) : Z :=
  if c <=? 25 then u8 (c + chr_A)
  else if (26 <=? c) && (c <=? 51) then u8 (c + (chr_a - 26))
  else if (52 <=? c) && (c <=? 61) then u8 (c + (chr_0 - 52))
  else if c =? 62 then chr_plus
  else if c =? 63 then chr_slash
  else 63.

Definition decode64 (c : Z) : Z :=
  if (chr_A <=? c) && (c <=? 90) then u8 (c - chr_A)
  else if (chr_a <=? c) && (c <=? 122) then u8 (c - (chr_a - 26))
  else if (chr_0 <=? c) && (c <=? 57) then u8 (c - (chr_0 - 52))
  else if c =? chr_plus then 62
  else if c =? chr_slash then 63
  else if (c =? chr_eq) || (c =? chr_dash) then 64
  else 65.

(** One bit of the CRC loop, and the whole loop for an octet. *)
Definition crc24_step (crc : Z) : Z :=
  let crc := Z.shiftl crc 1 in
  if Z.land crc 0x1000000 =? 0 then crc else Z.lxor crc CRC24_POLY.

Definition crc24_update (crc c : Z) : Z :=
  Nat.iter 8 crc24_step (Z.lxor crc (Z.shiftl c 16)).

(** * The encoder *)

Record armor_context (S : Type) : Type := mkArmor {
  ac_lastoctet : Z;
  ac_curoctet : Z;
  ac_count : Z;
  ac_crc24 : Z;
  ac_ctx : S
}.
Arguments mkArmor {S}. Arguments ac_lastoctet {S}. Arguments ac_curoctet {S}.
Arguments ac_count {S}. Arguments ac_crc24 {S}. Arguments ac_ctx {S}.

Section Armor.
Context {S : Type} `{Sink S}.

Definition armor_init (ctx : S) : armor_context S := mkArmor 0 0 0 CRC24_INIT ctx.

Definition armor_putchar_int (st : armor_context S) (c : Z) : outcome (armor_context S) :=
  let last := ac_lastoctet st in
  let cur := ac_curoctet st in
  '(ctx, count) ←
    (if cur =? 0 then
       ctx ← putchar (ac_ctx st) [encode64 (u8 (Z.shiftr c 2))];
       Done (ctx, i32 (ac_count st + 1))
     else if cur =? 1 then
       ctx ← putchar (ac_ctx st)
               [encode64 (u8 (Z.shiftl (Z.land last 3) 4 + Z.shiftr c 4))];
       Done (ctx, i32 (ac_count st + 1))
     else if cur =? 2 then
       ctx ← putchar (ac_ctx st)
               [encode64 (u8 (Z.shiftl (Z.land last 0xF) 2 + Z.shiftr c 6))];
       ctx ← putchar ctx [encode64 (Z.land c 0x3F)];
       Done (ctx, i32 (ac_count st + 2))
     else Done (ac_ctx st, ac_count st));
  let crc := crc24_update (ac_crc24 st) c in
  ctx ← (if Z.rem count ARMOR_WIDTH =? 0 then putchar ctx [chr_nl] else Done ctx);
  Done (mkArmor c (Z.rem (cur + 1) 3) count crc ctx).

(** [for (i = 0; i < count; i++)] with an [int i] and a [size_t count]: [bs] is
    what [c] holds from [i] on.  A counter that has wrapped is converted to a
    huge [size_t] and ends the loop. *)
Fixpoint armor_loop (i count : Z) (bs : list Z) (st : armor_context S) : outcome (armor_context S) :=
  match bs with
  | [] => Done st
  | c :: bs =>
      if u64 i <? count then
        st ← armor_putchar_int st c;
        armor_loop (i32 (i + 1)) count bs st
      else Done st
  end.

#[global] Instance armor_putchar : Sink (armor_context S) :=
  fun st bs => armor_loop 0 (zlen bs) bs st.

Definition put_all (ctx : S) (cs : list (list Z)) : outcome S :=
  foldl (fun m c => ctx ← m; putchar ctx c) (Done ctx) cs.

Definition armor_finish (st : armor_context S) : outcome S :=
  let last := ac_lastoctet st in
  let cur := ac_curoctet st in
  '(ctx, count) ←
    (if cur =? 1 then
       ctx ← put_all (ac_ctx st)
               [[encode64 (u8 (Z.shiftl (Z.land last 3) 4))]; [chr_eq]; [chr_eq]];
       let count := i32 (ac_count st + 3) in
       ctx ← (if Z.rem count ARMOR_WIDTH =? 0 then putchar ctx [chr_nl] else Done ctx);
       Done (ctx, count)
     else if cur =? 2 then
       ctx ← put_all (ac_ctx st)
               [[encode64 (u8 (Z.shiftl (Z.land last 0xF) 2))]; [chr_eq]];
       let count := i32 (ac_count st + 2) in
       ctx ← (if Z.rem count ARMOR_WIDTH =? 0 then putchar ctx [chr_nl] else Done ctx);
       Done (ctx, count)
     else Done (ac_ctx st, ac_count st));
  let crc := Z.land (ac_crc24 st) 0xffffff in
  ctx ← (if Z.rem count ARMOR_WIDTH =? 0 then Done ctx else putchar ctx [chr_nl]);
  put_all ctx
    [[chr_eq];
     [encode64 (u8 (Z.shiftr crc 18))];
     [encode64 (u8 (Z.land (Z.shiftr crc 12) 0x3F))];
     [encode64 (u8 (Z.land (Z.shiftr crc 6) 0x3F))];
     [encode64 (u8 (Z.land crc 0x3F))];
     [chr_nl]].

Definition armor_header : list Z :=
  str "-----BEGIN PGP PUBLIC KEY BLOCK-----" ++ [chr_nl; chr_nl].
Definition armor_footer : list Z :=
  str "-----END PGP PUBLIC KEY BLOCK-----" ++ [chr_nl].

(** The status of [write_openpgp_stream] is not looked at. *)
Definition armor_openpgp_stream (ctx : S) (packets : list openpgp_packet) : outcome S :=
  ctx ← putchar ctx armor_header;
  '(st, _) ← write_openpgp_stream (armor_init ctx) packets;
  ctx ← armor_finish st;
  putchar ctx armor_footer.
End Armor.

(** * The decoder *)

Record dearmor_context (S : Type) : Type := mkDearmor {
  dc_lastoctet : Z;
  dc_curoctet : Z;
  dc_count : Z;
  dc_crc24 : Z;
  dc_ctx : S
}.
Arguments mkDearmor {S}. Arguments dc_lastoctet {S}. Arguments dc_curoctet {S}.
Arguments dc_count {S}. Arguments dc_crc24 {S}. Arguments dc_ctx {S}.

Section Dearmor.
Context {S : Type} `{Source S}.

(** Bound on the characters skipped in one go. *)
Variable fuel : nat.

Definition dearmor_init (ctx : S) : dearmor_context S := mkDearmor 0 0 0 CRC24_INIT ctx.

Definition dearmor_finish (st : dearmor_context S) : dearmor_context S :=
  mkDearmor (dc_lastoctet st) (dc_curoctet st) (dc_count st)
    (Z.land (dc_crc24 st) 0xffffff) (dc_ctx st).

(** [while (tmpc == 65) { getchar_func(ctx, 1, &tmpc); tmpc = decode64(tmpc); }].
    At the end of the input the callback leaves [tmpc] alone, and 65 is the
    code of the digit 'A'. *)
Fixpoint next_sextet (f : nat) (s : S) (tmpc : Z) : outcome (S * Z) :=
  if tmpc =? 65 then
    match f with
    | O => Fault OutOfFuel
    | Datatypes.S f =>
        '(s, tmpc, _) ← getc s tmpc;
        next_sextet f s (decode64 tmpc)
    end
  else Done (s, tmpc).

(** The new context, the octet stored in [*c], and whether the terminator
    was met. *)
Definition dearmor_getchar (st : dearmor_context S)
    : outcome (dearmor_context S * Z * bool) :=
  '(s, tmpc) ← next_sextet fuel (dc_ctx st) 65;
  if tmpc =? 64 then
    Done (mkDearmor (dc_lastoctet st) (dc_curoctet st) (dc_count st) (dc_crc24 st) s, 0, true)
  else
    let cur := dc_curoctet st in
    '(s, tmpc, c) ←
      (if cur =? 0 then
         let last := tmpc in
         '(s, tmpc) ← next_sextet fuel s 65;
         Done (s, tmpc, u8 (Z.shiftl last 2 + Z.shiftr tmpc 4))
       else if cur =? 1 then
         Done (s, tmpc, u8 (Z.shiftl (Z.land (dc_lastoctet st) 0xF) 4 + Z.shiftr tmpc 2))
       else if cur =? 2 then
         Done (s, tmpc, u8 (Z.shiftl (Z.land (dc_lastoctet st) 3) 6 + tmpc))
       else Done (s, tmpc, 0));
    Done (mkDearmor tmpc (Z.rem (cur + 1) 3) (i32 (dc_count st + 1))
            (crc24_update (dc_crc24 st) c) s,
          c, tmpc =? 64).

(** [for (i = 0; i < count && rc == 0; i++)] with an [int i]: the octets
    stored, the counter, and whether the terminator stopped the loop.  There
    are at most [count] rounds. *)
Fixpoint dearmor_loop (n : nat) (i count : Z) (st : dearmor_context S)
    : outcome (dearmor_context S * list Z * Z * bool) :=
  match n with
  | O => Done (st, [], i, false)
  | Datatypes.S n =>
      if u64 i <? count then
        '(st, c, rc) ← dearmor_getchar st;
        if (rc : bool) then Done (st, [c], i32 (i + 1), true)
        else
          '(st, cs, i, rc) ← dearmor_loop n (i32 (i + 1)) count st;
          Done (st, c :: cs, i, rc)
      else Done (st, [], i, false)
  end.

Definition dearmor_getchar_c : Source (dearmor_context S) := fun st count =>
  '(st, cs, i, rc) ← dearmor_loop (Z.to_nat count) 0 count st;
  Done (st, cs, if (rc : bool) then 0 else u64 i).

(** One character of the search for the armor header: the new state and the
    new count. *)
Definition header_step (state count curchar : Z) : Z * Z :=
  if state =? 0 then
    if curchar =? chr_nl then (1, 0) else (0, count)
  else if state =? 1 then
    if curchar =? chr_dash then
      if count + 1 =? 5 then (2, count + 1) else (1, count + 1)
    else if negb (curchar =? chr_nl) then (0, count) else (1, count)
  else if state =? 2 then
    if curchar =? 66 then (3, 0) else (0, count)
  else if state =? 3 then
    if curchar =? chr_nl then
      if count + 1 =? 2 then (4, count + 1) else (3, count + 1)
    else if negb (curchar =? chr_cr) then (3, 0) else (3, count)
  else (state, count).

Fixpoint find_header (f : nat) (s : S) (curchar state count : Z) : outcome (S * Z) :=
  if state =? 4 then Done (s, state)
  else
    match f with
    | O => Fault OutOfFuel
    | Datatypes.S f =>
        '(s, curchar, r) ← getc s curchar;
        if r =? 1 then
          let '(state, count) := header_step state count curchar in
          find_header f s curchar state count
        else Done (s, state)
    end.

(** The CRC is computed but [dearmor_finish] compares it with nothing, and
    the status of the packet reader is dropped: the function returns 0. *)
Definition dearmor_openpgp_stream (malloc_ok : Z -> bool) (s : S)
    (packets : list openpgp_packet) : outcome (S * list openpgp_packet) :=
  '(s, state) ← find_header fuel s 0 1 0;
  if state =? 4 then
    '(st, _, packets) ←
      read_openpgp_stream (H := dearmor_getchar_c) malloc_ok fuel (dearmor_init s)
        (Some packets) 0;
    Done (dc_ctx (dearmor_finish st), default [] packets)
  else Done (s, packets).
End Dearmor.

(** * Lengths *)

Lemma encode_packets_count ps : (length ps <= length (encode_packets ps))%nat.
Proof.
  induction ps as [|p ps IH]; [done|]. rewrite encode_packets_cons, length_app.
  cbn [length encode_packet]. lia.
Qed.

(** * The CRC register *)

Lemma below_pow2_bits x n :
  0 <= n -> 0 <= x -> (forall i, n <= i -> Z.testbit x i = false) -> x < 2 ^ n.
Proof.
  intros Hn Hx Hbits. destruct (Z.eq_dec x 0) as [->|Hne]; [by apply Z.pow_pos_nonneg|].
  apply Z.log2_lt_pow2; [lia|]. destruct (Z.lt_ge_cases (Z.log2 x) n) as [|Hge]; [done|].
  specialize (Hbits (Z.log2 x) Hge). rewrite Z.bit_log2 in Hbits by lia. done.
Qed.

Lemma testbit_above x n i : 0 <= x < 2 ^ n -> n <= i -> Z.testbit x i = false.
Proof.
  intros Hx Hi. destruct (Z.eq_dec x 0) as [->|Hne]; [apply Z.testbit_0_l|].
  apply Z.bits_above_log2; [lia|]. apply Z.lt_le_trans with n; [|done].
  apply Z.log2_lt_pow2; lia.
Qed.

Lemma lxor_below x y n : 0 <= n -> 0 <= x < 2 ^ n -> 0 <= y < 2 ^ n -> 0 <= Z.lxor x y < 2 ^ n.
Proof.
  intros Hn Hx Hy. assert (0 <= Z.lxor x y) by (apply Z.lxor_nonneg; lia). split; [done|].
  apply below_pow2_bits; [done | done |]. intros i Hi.
  by rewrite Z.lxor_spec, (testbit_above x n), (testbit_above y n).
Qed.

(** One bit of the CRC keeps a 24-bit register a 24-bit register. *)
Lemma crc24_step_bound crc : 0 <= crc < 2 ^ 24 -> 0 <= crc24_step crc < 2 ^ 24.
Proof.
  intros Hc. unfold crc24_step. rewrite Z.shiftl_mul_pow2 by lia. set (x := crc * 2 ^ 1).
  assert (Hx : 0 <= x < 2 ^ 25) by (unfold x; lia).
  assert (Hbit : forall y, 0 <= y < 2 ^ 25 -> Z.testbit y 24 = false -> y < 2 ^ 24).
  { intros y Hy H24. apply below_pow2_bits; [lia | lia |]. intros i Hi.
    destruct (Z.eq_dec i 24) as [->|]; [done|]. apply (testbit_above y 25); lia. }
  destruct (Z.eqb_spec (Z.land x 0x1000000) 0) as [Hz|Hz].
  - split; [lia|]. apply Hbit; [done|]. apply (f_equal (fun z => Z.testbit z 24)) in Hz.
    rewrite Z.land_spec, Z.testbit_0_l in Hz. cbn in Hz. by rewrite andb_true_r in Hz.
  - assert (Hl : 0 <= Z.lxor x CRC24_POLY < 2 ^ 25) by (apply lxor_below; [|done|]; done).
    split; [lia|]. apply Hbit; [done|]. rewrite Z.lxor_spec.
    destruct (Z.testbit x 24) eqn:E; [done|]. exfalso. apply Hz. apply Z.bits_inj'. intros i Hi.
    rewrite Z.land_spec, Z.testbit_0_l. change 0x1000000 with (2 ^ 24).
    rewrite Z.pow2_bits_eqb by lia. destruct (Z.eqb_spec 24 i) as [<-|]; [by rewrite E | by rewrite andb_false_r].
Qed.

Lemma crc24_update_bound crc c :
  0 <= crc < 2 ^ 24 -> byte c -> 0 <= crc24_update crc c < 2 ^ 24.
Proof.
  intros Hc Hb. unfold crc24_update.
  assert (H0 : 0 <= Z.lxor crc (Z.shiftl c 16) < 2 ^ 24).
  { apply lxor_below; [lia | done |]. rewrite Z.shiftl_mul_pow2 by lia. unfold byte in Hb. lia. }
  revert H0. generalize (Z.lxor crc (Z.shiftl c 16)). intros x Hx.
  do 8 (cbn [Nat.iter]). repeat apply crc24_step_bound. done.
Qed.

(** * What the encoder emits *)

(** The part of the encoder's state its output depends on. *)
Record armor_state : Type := mkAState { as_last : Z; as_cur : Z; as_count : Z }.

Definition astate_of {S} (st : armor_context S) : armor_state :=
  mkAState (ac_lastoctet st) (ac_curoctet st) (ac_count st).

Definition newline_at (count : Z) : list Z :=
  if Z.rem count ARMOR_WIDTH =? 0 then [chr_nl] else [].

(** The characters of one octet, and the state after it. *)
Definition octet_digits (a : armor_state) (c : Z) : list Z :=
  if as_cur a =? 0 then [encode64 (u8 (Z.shiftr c 2))]
  else if as_cur a =? 1
  then [encode64 (u8 (Z.shiftl (Z.land (as_last a) 3) 4 + Z.shiftr c 4))]
  else if as_cur a =? 2
  then [encode64 (u8 (Z.shiftl (Z.land (as_last a) 0xF) 2 + Z.shiftr c 6));
        encode64 (Z.land c 0x3F)]
  else [].

Definition octet_count (a : armor_state) : Z :=
  if as_cur a =? 0 then i32 (as_count a + 1)
  else if as_cur a =? 1 then i32 (as_count a + 1)
  else if as_cur a =? 2 then i32 (as_count a + 2)
  else as_count a.

Definition octet_chars (a : armor_state) (c : Z) : list Z :=
  octet_digits a c ++ newline_at (octet_count a).

Definition octet_state (a : armor_state) (c : Z) : armor_state :=
  mkAState c (Z.rem (as_cur a + 1) 3) (octet_count a).

Fixpoint armor_chars (a : armor_state) (bs : list Z) : list Z :=
  match bs with
  | [] => []
  | c :: bs => octet_chars a c ++ armor_chars (octet_state a c) bs
  end.

Definition armor_run (a : armor_state) (bs : list Z) : armor_state := foldl octet_state a bs.

Definition state0 : armor_state := mkAState 0 0 0.

Lemma armor_chars_app a xs ys :
  armor_chars a (xs ++ ys) = armor_chars a xs ++ armor_chars (armor_run a xs) ys.
Proof.
  revert a. induction xs as [|x xs IH]; intros a; [done|].
  cbn [app armor_chars]. by rewrite IH, <- app_assoc.
Qed.

Lemma octet_chars_length a c : zlen (octet_chars a c) <= 3.
Proof.
  unfold octet_chars, octet_digits, newline_at. repeat case_if; autorewrite with onak; lia.
Qed.

Lemma armor_chars_length a bs : zlen (armor_chars a bs) <= 3 * zlen bs.
Proof.
  revert a. induction bs as [|c bs IH]; intros a; [done|].
  cbn [armor_chars]. autorewrite with onak. pose proof (octet_chars_length a c).
  specialize (IH (octet_state a c)). lia.
Qed.

Lemma encode64_byte c : byte (encode64 c).
Proof.
  unfold encode64. repeat case_if; try apply u8_byte; unfold byte, chr_plus, chr_slash; lia.
Qed.

#[export] Hint Resolve encode64_byte : onak.

(** What [armor_finish] adds: the last digits and padding, a line break unless
    the line is just full, and the checksum line. *)
Definition final_digits (a : armor_state) : list Z :=
  if as_cur a =? 1 then
    [encode64 (u8 (Z.shiftl (Z.land (as_last a) 3) 4)); chr_eq; chr_eq]
    ++ newline_at (i32 (as_count a + 3))
  else if as_cur a =? 2 then
    [encode64 (u8 (Z.shiftl (Z.land (as_last a) 0xF) 2)); chr_eq]
    ++ newline_at (i32 (as_count a + 2))
  else [].

Definition final_count (a : armor_state) : Z :=
  if as_cur a =? 1 then i32 (as_count a + 3)
  else if as_cur a =? 2 then i32 (as_count a + 2)
  else as_count a.

Definition final_break (a : armor_state) : list Z :=
  if Z.rem (final_count a) ARMOR_WIDTH =? 0 then [] else [chr_nl].

Definition checksum_chars (crc : Z) : list Z :=
  let crc := Z.land crc 0xffffff in
  [chr_eq; encode64 (u8 (Z.shiftr crc 18)); encode64 (u8 (Z.land (Z.shiftr crc 12) 0x3F));
   encode64 (u8 (Z.land (Z.shiftr crc 6) 0x3F)); encode64 (u8 (Z.land crc 0x3F)); chr_nl].

Definition final_chars (a : armor_state) (crc : Z) : list Z :=
  final_digits a ++ final_break a ++ checksum_chars crc.

(** The whole text. *)
Definition armor_text (bs : list Z) : list Z :=
  armor_header ++ armor_chars state0 bs
  ++ final_chars (armor_run state0 bs) (foldl crc24_update CRC24_INIT bs) ++ armor_footer.

Lemma final_chars_length a crc : zlen (final_chars a crc) <= 11.
Proof.
  unfold final_chars, final_digits, final_break, checksum_chars, newline_at.
  repeat case_if; autorewrite with onak; lia.
Qed.

Lemma armor_text_length bs : zlen (armor_text bs) <= 3 * zlen bs + 84.
Proof.
  unfold armor_text. rewrite !zlen_app. pose proof (armor_chars_length state0 bs).
  pose proof (final_chars_length (armor_run state0 bs) (foldl crc24_update CRC24_INIT bs)).
  change (zlen armor_header) with 38. change (zlen armor_footer) with 35. lia.
Qed.

Section ArmorSpec.
Context {S : Type} `{Sink S} {W : S -> list Z -> Prop} {lim : Z} `{!Accepts W lim}.

Lemma putchar_spec s out cs :
  W s out -> Forall byte cs -> zlen out + zlen cs <= lim ->
  exists s', putchar s cs = Done s' /\ W s' (out ++ cs).
Proof. intros. by apply accepts_bytes. Qed.

Lemma put_all_spec s out css :
  W s out -> Forall byte (concat css) -> zlen out + zlen (concat css) <= lim ->
  exists s', put_all s css = Done s' /\ W s' (out ++ concat css).
Proof.
  revert s out. induction css as [|c css IH]; intros s out Hw Hb Hl; cbn [concat] in *.
  { exists s. by rewrite app_nil_r. }
  apply Forall_app in Hb as [Hb1 Hb2]. rewrite zlen_app in Hl.
  pose proof (zlen_nonneg (concat css)).
  destruct (putchar_spec s out c Hw Hb1) as (s1 & E1 & Hw1); [lia|].
  destruct (IH s1 (out ++ c) Hw1 Hb2) as (s2 & E2 & Hw2); [rewrite zlen_app; lia|].
  exists s2. rewrite app_assoc. split; [|done]. unfold put_all in *. cbn [foldl mbind outcome_bind].
  by rewrite E1.
Qed.

(** Runs the next [putchar] or [put_all] of the goal. *)
Ltac put_chars :=
  match goal with
  | Hw : W ?s ?out |- context [mbind _ (putchar ?s ?cs)] =>
      let s' := fresh "s" in let E := fresh "E" in let W' := fresh "Hw" in
      destruct (putchar_spec s out cs Hw) as (s' & E & W');
      [ | autorewrite with onak in *; lia
        | rewrite E; cbn [mbind outcome_bind]; clear Hw E ]
  | Hw : W ?s ?out |- context [mbind _ (put_all ?s ?css)] =>
      let s' := fresh "s" in let E := fresh "E" in let W' := fresh "Hw" in
      destruct (put_all_spec s out css Hw) as (s' & E & W'); cbn [concat] in *;
      [ | autorewrite with onak in *; lia
        | rewrite E; cbn [mbind outcome_bind]; clear Hw E ]
  end;
  try (cbn [app]; repeat (apply Forall_cons; split); auto with onak;
       unfold byte, chr_eq, chr_nl; lia).

(** The encoder wrote the text of [bs] behind [hdr]. *)
Definition armoring (hdr : list Z) (st : armor_context S) (bs : list Z) : Prop :=
  W (ac_ctx st) (hdr ++ armor_chars state0 bs) /\
  astate_of st = armor_run state0 bs /\ ac_crc24 st = foldl crc24_update CRC24_INIT bs.

Lemma armor_putchar_int_spec hdr st bs c :
  armoring hdr st bs -> byte c ->
  zlen hdr + 3 * (zlen bs + 1) <= lim ->
  exists st', armor_putchar_int st c = Done st' /\ armoring hdr st' (bs ++ [c]).
Proof.
  intros (Hw & Ha & Hcrc) Hc Hl. unfold armor_putchar_int.
  pose proof (armor_chars_length state0 bs) as Hlen.
  assert (Hgoal : forall ctx', W ctx' ((hdr ++ armor_chars state0 bs) ++ octet_chars (astate_of st) c) ->
    armoring hdr (mkArmor c (Z.rem (ac_curoctet st + 1) 3) (octet_count (astate_of st))
      (crc24_update (ac_crc24 st) c) ctx') (bs ++ [c])).
  { intros ctx' Hw'. unfold armoring, armor_run. rewrite !foldl_app_end, armor_chars_app.
    fold (armor_run state0 bs). rewrite <- Ha, <- Hcrc. cbn [armor_chars ac_ctx ac_crc24].
    rewrite app_nil_r. split; [by rewrite app_assoc|]. done. }
  unfold octet_chars, octet_digits, octet_count, newline_at in Hgoal.
  cbn [astate_of as_cur as_last as_count] in Hgoal.
  destruct (ac_curoctet st =? 0), (ac_curoctet st =? 1), (ac_curoctet st =? 2);
    cbv iota; repeat put_chars; cbn [mbind outcome_bind]; case_if; repeat put_chars;
    eexists; (split; [done|]); apply Hgoal; cbn [app]; by rewrite <- ?app_assoc, ?app_nil_r in *.
Qed.

Lemma armor_loop_spec hdr i ys st bs :
  armoring hdr st bs -> Forall byte ys -> 0 <= i -> i + zlen ys < 2 ^ 31 ->
  zlen hdr + 3 * (zlen bs + zlen ys) <= lim ->
  exists st', armor_loop i (i + zlen ys) ys st = Done st' /\ armoring hdr st' (bs ++ ys).
Proof.
  intros Hst Hys. revert i st bs Hst. induction Hys as [|c ys Hc Hys IH]; intros i st bs Hst Hi Hn Hl.
  { exists st. by rewrite app_nil_r. }
  rewrite zlen_cons in *. pose proof (zlen_nonneg ys). cbn [armor_loop].
  rewrite (u64_small i), (proj2 (Z.ltb_lt i _)) by lia.
  destruct (armor_putchar_int_spec hdr st bs c Hst Hc) as (st1 & E1 & Hst1); [lia|]. rewrite E1.
  cbn [mbind outcome_bind]. rewrite (i32_small (i + 1)) by lia.
  destruct (IH (i + 1) st1 (bs ++ [c]) Hst1) as (st2 & E2 & Hst2); [lia | lia | autorewrite with onak; lia |].
  exists st2. rewrite <- app_assoc in Hst2. split; [|done]. by rewrite Z.add_assoc.
Qed.

(** The encoder is a sink of a third of the room the inner sink has left, as
    long as its [int] counter does not wrap. *)
#[global] Instance armor_accepts hdr : Accepts (armoring hdr) (Z.min ((lim - zlen hdr) / 3) (2 ^ 31 - 1)).
Proof.
  intros st bs ys Hst Hys Hl. pose proof (Z.mul_div_le (lim - zlen hdr) 3). pose proof (zlen_nonneg bs).
  apply (armor_loop_spec hdr 0); [done | done | done | lia | lia].
Qed.

Lemma armor_finish_spec hdr st bs :
  armoring hdr st bs -> zlen hdr + 3 * zlen bs + 11 <= lim ->
  exists s', armor_finish st = Done s' /\
    W s' (hdr ++ armor_chars state0 bs
            ++ final_chars (armor_run state0 bs) (foldl crc24_update CRC24_INIT bs)).
Proof.
  intros (Hw & Ha & Hcrc) Hl. unfold armor_finish.
  pose proof (armor_chars_length state0 bs) as Hlen.
  rewrite <- Ha, <- Hcrc. rewrite app_assoc.
  unfold final_chars, final_digits, final_break, final_count, newline_at.
  cbn [astate_of as_cur as_last as_count].
  destruct (ac_curoctet st =? 1), (ac_curoctet st =? 2); cbv iota zeta;
    repeat put_chars; cbn [mbind outcome_bind]; (case_if; repeat put_chars); cbn [mbind outcome_bind];
    repeat match goal with H : (Z.rem ?a ?b =? 0) = _ |- _ => rewrite H end;
    cbn [mbind outcome_bind]; repeat put_chars;
    (match goal with Hw : W ?s ?out |- context [put_all ?s ?css] =>
      destruct (put_all_spec s out css Hw) as (s' & E & Hw'); cbn [concat app] in *
    end;
    [ repeat (apply Forall_cons; split); auto with onak; unfold byte, chr_eq, chr_nl; lia
    | autorewrite with onak in *; lia
    | exists s'; split; [exact E|]; rewrite <- ?app_assoc in *; exact Hw' ]).
Qed.

Lemma armor_stream_spec ctx ps :
  W ctx [] -> Forall encodable ps ->
  3 * zlen (encode_packets ps) + 102 <= lim -> zlen (encode_packets ps) <= 2 ^ 30 ->
  exists ctx', armor_openpgp_stream ctx ps = Done ctx' /\ W ctx' (armor_text (encode_packets ps)).
Proof.
  intros Hw Hps Hl Hc. unfold armor_openpgp_stream. pose proof (zlen_nonneg (encode_packets ps)).
  destruct (putchar_spec ctx [] armor_header Hw) as (c1 & E1 & Hw1);
    [apply (bool_decide_unpack _); by vm_compute | change (zlen armor_header) with 38; rewrite zlen_nil; lia |].
  rewrite E1. cbn [mbind outcome_bind app] in *.
  assert (Hi : armoring armor_header (armor_init c1) []).
  { split; [|done]. cbn [ac_ctx armor_init armor_chars]. by rewrite app_nil_r. }
  destruct (write_spec ps (armor_init c1) [] Hi Hps) as (st & E2 & Hst).
  { change (zlen armor_header) with 38. rewrite zlen_nil. apply Z.min_glb; [apply Z.div_le_lower_bound; lia | lia]. }
  rewrite E2. cbn [mbind outcome_bind app] in *.
  destruct (armor_finish_spec _ _ _ Hst) as (c2 & E3 & Hw2); [change (zlen armor_header) with 38; lia|].
  rewrite E3. cbn [mbind outcome_bind].
  destruct (putchar_spec c2 _ armor_footer Hw2) as (c3 & E4 & Hw3).
  { apply (bool_decide_unpack _); by vm_compute. }
  { pose proof (armor_text_length (encode_packets ps)) as Ht. unfold armor_text in Ht.
    rewrite !zlen_app in *. lia. }
  exists c3. split; [exact E4|]. unfold armor_text. by rewrite <- !app_assoc in Hw3.
Qed.
End ArmorSpec.

(** * What the decoder reads *)

(** Where the decoder stands inside a group of four digits. *)
Inductive dphase : Type :=
  | P0               (* at the start of a group *)
  | P0b (v : Z)      (* one digit read, no octet yet *)
  | P1 (w : Z)
  | P2 (w : Z).

(** The octets a text decodes to, up to its terminator. *)
Fixpoint dec (ph : dphase) (cs : list Z) : option (list Z) :=
  match cs with
  | [] => None
  | c :: cs =>
      let d := decode64 c in
      if d =? 65 then dec ph cs
      else if d =? 64 then Some []
      else match ph with
           | P0 => dec (P0b d) cs
           | P0b v => cons (u8 (Z.shiftl v 2 + Z.shiftr d 4)) <$> dec (P1 d) cs
           | P1 w => cons (u8 (Z.shiftl (Z.land w 0xF) 4 + Z.shiftr d 2)) <$> dec (P2 d) cs
           | P2 w => cons (u8 (Z.shiftl (Z.land w 3) 6 + d)) <$> dec P0 cs
           end
  end.

Lemma decode_encode64 x : 0 <= x < 64 -> decode64 (encode64 x) = x.
Proof. revert x. by_range. Qed.

Lemma dec_newline ph cs count : dec ph (newline_at count ++ cs) = dec ph cs.
Proof. unfold newline_at. case_if; done. Qed.

Lemma dec_digit ph x cs :
  0 <= x < 64 ->
  dec ph (encode64 x :: cs) =
    match ph with
    | P0 => dec (P0b x) cs
    | P0b v => cons (u8 (Z.shiftl v 2 + Z.shiftr x 4)) <$> dec (P1 x) cs
    | P1 w => cons (u8 (Z.shiftl (Z.land w 0xF) 4 + Z.shiftr x 2)) <$> dec (P2 x) cs
    | P2 w => cons (u8 (Z.shiftl (Z.land w 3) 6 + x)) <$> dec P0 cs
    end.
Proof.
  intros Hx. cbn [dec]. rewrite decode_encode64 by done.
  destruct (Z.eqb_spec x 65), (Z.eqb_spec x 64); try lia. done.
Qed.

(** The octet the encoder has taken but whose digits are not complete. *)
Definition pending (a : armor_state) : list Z :=
  if as_cur a =? 0 then [] else [as_last a].

(** The decoder's position after the digits of the encoder in state [a]. *)
Definition in_step (a : armor_state) (ph : dphase) : Prop :=
  (as_cur a = 0 /\ ph = P0) \/
  (as_cur a = 1 /\ byte (as_last a) /\ ph = P0b (as_last a / 4)) \/
  (as_cur a = 2 /\ byte (as_last a) /\ exists d, 0 <= d < 64 /\ ph = P1 d /\ d mod 16 = as_last a / 16).

Lemma digits_arith c : byte c ->
  Z.shiftr c 2 = c / 4 /\ Z.shiftr c 4 = c / 16 /\ Z.shiftr c 6 = c / 64 /\
  Z.land c 3 = c mod 4 /\ Z.land c 0xF = c mod 16 /\ Z.land c 0x3F = c mod 64.
Proof. revert c. unfold byte. by_range. Qed.

(** One octet: the decoder hands out the octet that was pending and keeps in
    step with the encoder. *)
Lemma dec_octet a ph c cs :
  in_step a ph -> byte c ->
  exists ph', in_step (octet_state a c) ph' /\
    dec ph (octet_chars a c ++ cs) =
      (fun bs => pending a ++ (if as_cur a =? 2 then [c] else []) ++ bs) <$> dec ph' cs.
Proof.
  intros Ha Hc. unfold octet_chars. rewrite <- app_assoc.
  destruct (digits_arith c Hc) as (R2 & R4 & R6 & L3 & LF & L3F).
  destruct Ha as [(E & ->) | [(E & Hl & ->) | (E & Hl & d & Hd & -> & Hdl)]];
    unfold octet_digits, octet_count, pending, octet_state, in_step;
    rewrite E; cbn [Z.eqb Pos.eqb app Z.rem Z.add Pos.add as_cur as_last].
  - exists (P0b (c / 4)). split; [right; left; auto|]. unfold byte in Hc.
    assert (0 <= c / 4 < 64) by (split; [apply Z.div_pos | apply Z.div_lt_upper_bound]; lia).
    rewrite R2, (u8_small (c / 4)) by (unfold byte; lia).
    rewrite dec_digit, dec_newline by done. by rewrite option_fmap_id.
  - destruct (digits_arith _ Hl) as (_ & _ & _ & L3' & _ & _). unfold byte in *.
    set (l := as_last a) in *. rewrite L3', R4, Z.shiftl_mul_pow2 by lia. change (2 ^ 4) with 16.
    assert (Hx : 0 <= l mod 4 * 16 + c / 16 < 64) by (Z.div_mod_to_equations; lia).
    exists (P1 (l mod 4 * 16 + c / 16)). split.
    { right; right. split; [done|]. split; [done|]. eexists. split; [exact Hx|]. split; [done|].
      Z.div_mod_to_equations; lia. }
    rewrite (u8_small (l mod 4 * 16 + c / 16)) by (unfold byte; lia).
    rewrite dec_digit, dec_newline by done. f_equal.
    rewrite Z.shiftl_mul_pow2, Z.shiftr_div_pow2 by lia. change (2 ^ 2) with 4. change (2 ^ 4) with 16.
    replace (l / 4 * 4 + (l mod 4 * 16 + c / 16) / 16) with l by (Z.div_mod_to_equations; lia).
    by rewrite u8_small.
  - destruct (digits_arith _ Hl) as (_ & _ & _ & _ & LF' & _). unfold byte in *.
    set (l := as_last a) in *. rewrite LF', R6, L3F, Z.shiftl_mul_pow2 by lia. change (2 ^ 2) with 4.
    assert (Hx : 0 <= l mod 16 * 4 + c / 64 < 64) by (Z.div_mod_to_equations; lia).
    assert (Hy : 0 <= c mod 64 < 64) by (apply Z.mod_pos_bound; lia).
    exists P0. split; [left; auto|].
    rewrite (u8_small (l mod 16 * 4 + c / 64)) by (unfold byte; lia).
    rewrite dec_digit, dec_digit, dec_newline by done.
    rewrite <- option_fmap_compose. f_equal. unfold compose. 
    assert (Hb : byte (l mod 16 * 4 + c / 64)) by (unfold byte; lia).
    destruct (digits_arith _ Hb) as (X2 & _ & _ & X3 & _ & _).
    assert (Hdb : byte d) by (unfold byte; lia).
    destruct (digits_arith _ Hdb) as (_ & _ & _ & _ & DF & _).
    rewrite X2, X3, DF, !Z.shiftl_mul_pow2 by lia. change (2 ^ 4) with 16. change (2 ^ 6) with 64.
    replace (d mod 16 * 16 + (l mod 16 * 4 + c / 64) / 4) with l by (Z.div_mod_to_equations; lia).
    replace ((l mod 16 * 4 + c / 64) mod 4 * 64 + c mod 64) with c by (Z.div_mod_to_equations; lia).
    by rewrite !u8_small.
Qed.

(** The final digits flush the pending octet and the padding ends the data. *)
Lemma dec_final a ph tail :
  in_step a ph ->
  dec ph (final_digits a ++ final_break a ++ chr_eq :: tail) = Some (pending a).
Proof.
  intros Ha. destruct Ha as [(E & ->) | [(E & Hl & ->) | (E & Hl & d & Hd & -> & Hdl)]];
    unfold final_digits, final_break, pending; rewrite E; cbn [Z.eqb Pos.eqb app].
  - by case_if.
  - destruct (digits_arith _ Hl) as (_ & _ & _ & L3 & _ & _). unfold byte in *.
    set (l := as_last a) in *. rewrite L3, Z.shiftl_mul_pow2 by lia. change (2 ^ 4) with 16.
    assert (Hx : 0 <= l mod 4 * 16 < 64) by (Z.div_mod_to_equations; lia).
    rewrite u8_small by (unfold byte; lia). rewrite dec_digit by done. cbn [dec].
    change (decode64 chr_eq) with 64. cbn [Z.eqb Pos.eqb fmap option_fmap option_map].
    rewrite Z.shiftl_mul_pow2, Z.shiftr_div_pow2 by lia. change (2 ^ 2) with 4. change (2 ^ 4) with 16.
    replace (l / 4 * 4 + l mod 4 * 16 / 16) with l by (Z.div_mod_to_equations; lia).
    by rewrite u8_small.
  - destruct (digits_arith _ Hl) as (_ & _ & _ & _ & LF & _). unfold byte in *.
    set (l := as_last a) in *. rewrite LF, Z.shiftl_mul_pow2 by lia. change (2 ^ 2) with 4.
    assert (Hx : 0 <= l mod 16 * 4 < 64) by (Z.div_mod_to_equations; lia).
    rewrite u8_small by (unfold byte; lia). rewrite dec_digit by done. cbn [dec].
    change (decode64 chr_eq) with 64. cbn [Z.eqb Pos.eqb fmap option_fmap option_map].
    assert (Hdb : byte d) by (unfold byte; lia).
    destruct (digits_arith _ Hdb) as (_ & _ & _ & _ & DF & _).
    rewrite DF, Z.shiftl_mul_pow2, Z.shiftr_div_pow2 by lia. change (2 ^ 2) with 4. change (2 ^ 4) with 16.
    replace (d mod 16 * 16 + l mod 16 * 4 / 4) with l by (Z.div_mod_to_equations; lia).
    by rewrite u8_small.
Qed.

Lemma dec_armor_chars a ph bs tail :
  in_step a ph -> Forall byte bs ->
  dec ph (armor_chars a bs ++ final_digits (armor_run a bs)
            ++ final_break (armor_run a bs) ++ chr_eq :: tail) = Some (pending a ++ bs).
Proof.
  intros Ha Hbs. revert a ph Ha. induction Hbs as [|c bs Hc Hbs IH]; intros a ph Ha.
  - cbn [armor_chars armor_run foldl app]. by rewrite dec_final, app_nil_r.
  - cbn [armor_chars armor_run foldl]. rewrite <- app_assoc.
    destruct (dec_octet a ph c (armor_chars (octet_state a c) bs
      ++ final_digits (armor_run (octet_state a c) bs)
      ++ final_break (armor_run (octet_state a c) bs) ++ chr_eq :: tail) Ha Hc) as (ph' & Hs & E).
    fold (armor_run (octet_state a c) bs). rewrite E, (IH _ _ Hs). cbn [fmap option_fmap option_map].
    f_equal. f_equal. destruct Ha as [(Ec & _) | [(Ec & _) | (Ec & _)]];
      unfold pending, octet_state; rewrite Ec; done.
Qed.

Section DearmorSpec.
Context {S : Type} `{Source S} {R : S -> list Z -> Prop} `{!Delivers R}.
Variable fuel : nat.

Lemma dec_skip ph cs bs :
  dec ph cs = Some bs -> exists skip c rest, cs = skip ++ c :: rest /\
    Forall (fun x => decode64 x = 65) skip /\ decode64 c <> 65 /\ dec ph (c :: rest) = Some bs.
Proof.
  induction cs as [|c cs IH]; [done|]. intros Hd.
  destruct (Z.eq_dec (decode64 c) 65) as [E|E]; [|by exists [], c, cs].
  cbn [dec] in Hd. rewrite E in Hd. destruct (IH Hd) as (skip & c' & rest & -> & ? & ? & ?).
  exists (c :: skip), c', rest. auto.
Qed.

Lemma next_sextet_spec f s skip c rest :
  R s (skip ++ c :: rest) -> Forall (fun x => decode64 x = 65) skip -> decode64 c <> 65 ->
  (length skip < f)%nat ->
  exists s', next_sextet f s 65 = Done (s', decode64 c) /\ R s' rest.
Proof.
  intros Hr Hskip Hc. revert f s Hr. induction Hskip as [|x skip Hx Hskip IH]; intros f s Hr Hf;
    (destruct f as [|f]; [cbn in Hf; lia|]); cbn [next_sextet Z.eqb Pos.eqb app length] in *;
    destruct (getc_spec s _ _ 65 Hr) as (s1 & E1 & Hr1); rewrite E1; cbn [mbind outcome_bind].
  - exists s1. split; [|done]. destruct f; cbn [next_sextet];
      by rewrite (proj2 (Z.eqb_neq _ _) Hc).
  - rewrite Hx. destruct (IH f s1 Hr1) as (s2 & E2 & Hr2); [lia|]. eauto.
Qed.

Definition phase_of (st : dearmor_context S) : dphase :=
  if dc_curoctet st =? 0 then P0
  else if dc_curoctet st =? 1 then P1 (dc_lastoctet st) else P2 (dc_lastoctet st).

(** The decoder stands in front of text that decodes to [bs], which an [int]
    can count, and has fuel to skip all of it. *)
Definition dearmoring (st : dearmor_context S) (bs : list Z) : Prop :=
  exists cs, R (dc_ctx st) cs /\ 0 <= dc_curoctet st <= 2 /\
    dec (phase_of st) cs = Some bs /\ (length cs < fuel)%nat /\ zlen bs < 2 ^ 31 - 1.

Lemma dearmor_next_digit ph s cs bs :
  R s cs -> dec ph cs = Some bs -> (length cs < fuel)%nat ->
  exists s' d rest, next_sextet fuel s 65 = Done (s', d) /\ R s' rest /\
    (length rest < fuel)%nat /\
    ((d = 64 /\ bs = []) \/
     (d <> 64 /\ match ph with
        | P0 => dec (P0b d) rest = Some bs
        | P0b v => cons (u8 (Z.shiftl v 2 + Z.shiftr d 4)) <$> dec (P1 d) rest = Some bs
        | P1 w => cons (u8 (Z.shiftl (Z.land w 0xF) 4 + Z.shiftr d 2)) <$> dec (P2 d) rest = Some bs
        | P2 w => cons (u8 (Z.shiftl (Z.land w 3) 6 + d)) <$> dec P0 rest = Some bs
        end)).
Proof.
  intros Hr Hd Hf. destruct (dec_skip _ _ _ Hd) as (skip & c & rest & -> & Hs & Hc & Hd').
  rewrite length_app in Hf. cbn [length] in Hf.
  destruct (next_sextet_spec fuel s skip c rest Hr Hs Hc) as (s' & E & Hr'); [lia|].
  exists s', (decode64 c), rest. split; [done|]. split; [done|]. split; [lia|].
  cbn [dec] in Hd'. rewrite (proj2 (Z.eqb_neq _ _) Hc) in Hd'.
  destruct (Z.eqb_spec (decode64 c) 64); [left; naive_solver | right; split; [done | by destruct ph]].
Qed.

Lemma dearmor_getchar_spec st bs :
  dearmoring st bs ->
  match bs with
  | [] => exists st' c, dearmor_getchar fuel st = Done (st', c, true)
  | b :: bs => exists st', dearmor_getchar fuel st = Done (st', b, false) /\ dearmoring st' bs
  end.
Proof.
  intros (cs & Hr & Hcur & Hd & Hf & Hn). unfold dearmor_getchar.
  destruct (dearmor_next_digit _ _ _ _ Hr Hd Hf) as (s1 & d & rest & E1 & Hr1 & Hf1 & Hcase).
  rewrite E1. cbn [mbind outcome_bind].
  destruct Hcase as [(-> & ->) | (Hd64 & Hcase)]; [by eexists _, _|].
  rewrite (proj2 (Z.eqb_neq _ _) Hd64).
  assert (dc_curoctet st = 0 \/ dc_curoctet st = 1 \/ dc_curoctet st = 2) as [E|[E|E]] by lia;
    unfold phase_of in Hcase; rewrite E in *; cbn [Z.eqb Pos.eqb mbind outcome_bind] in *.
  - destruct (dearmor_next_digit _ _ _ _ Hr1 Hcase Hf1) as (s2 & d2 & rest2 & E2 & Hr2 & Hf2 & Hc2).
    rewrite E2. cbn [mbind outcome_bind]. destruct Hc2 as [(-> & ->) | (Hd2 & Hc2)]; [by eexists _, _|].
    rewrite (proj2 (Z.eqb_neq _ _) Hd2). apply fmap_Some in Hc2 as (bs' & Hbs' & ->).
    eexists. split; [done|]. rewrite zlen_cons in Hn. exists rest2. repeat split; (done || lia).
  - rewrite (proj2 (Z.eqb_neq _ _) Hd64). apply fmap_Some in Hcase as (bs' & Hbs' & ->).
    eexists. split; [done|]. rewrite zlen_cons in Hn. exists rest. repeat split; (done || lia).
  - rewrite (proj2 (Z.eqb_neq _ _) Hd64). apply fmap_Some in Hcase as (bs' & Hbs' & ->).
    eexists. split; [done|]. rewrite zlen_cons in Hn. exists rest. repeat split; (done || lia).
Qed.

(** The decoder is a source of the octets its text stands for. *)
Lemma dearmor_loop_spec xs ys st i :
  dearmoring st (xs ++ ys) -> 0 <= i -> i + zlen xs < 2 ^ 31 ->
  exists st', dearmor_loop fuel (length xs) i (i + zlen xs) st = Done (st', xs, i + zlen xs, false) /\
    dearmoring st' ys.
Proof.
  revert st i. induction xs as [|x xs IH]; intros st i Hst Hi Hn.
  { exists st. split; [|done]. rewrite zlen_nil, Z.add_0_r. done. }
  rewrite zlen_cons in *. pose proof (zlen_nonneg xs).
  destruct (dearmor_getchar_spec _ _ Hst) as (st1 & E1 & Hst1).
  destruct (IH st1 (i + 1) Hst1) as (st2 & E2 & Hst2); [lia | lia |]. exists st2. split; [|done].
  cbn [length dearmor_loop]. rewrite (u64_small i), (proj2 (Z.ltb_lt i _)), E1 by lia. cbn [mbind outcome_bind].
  rewrite (i32_small (i + 1)) by lia. rewrite Z.add_assoc. by rewrite E2.
Qed.

Lemma dearmor_loop_short n i count bs st :
  dearmoring st bs -> (length bs < n)%nat -> 0 <= i -> i + zlen bs < 2 ^ 31 - 1 -> count = i + Z.of_nat n ->
  exists st' cs j, dearmor_loop fuel n i count st = Done (st', cs, j, true).
Proof.
  revert i bs st. induction n as [|n IH]; intros i bs st Hst Hn Hi Hl ->; [lia|].
  cbn [dearmor_loop]. pose proof (zlen_nonneg bs). rewrite (u64_small i), (proj2 (Z.ltb_lt i _)) by lia.
  pose proof (dearmor_getchar_spec _ _ Hst) as Hg. destruct bs as [|b bs].
  - destruct Hg as (st' & c & ->). by eexists _, _, _.
  - destruct Hg as (st1 & -> & Hst1). cbn [mbind outcome_bind length] in *. rewrite zlen_cons in *.
    rewrite (i32_small (i + 1)) by lia. pose proof (zlen_nonneg bs).
    destruct (IH (i + 1) bs st1 Hst1) as (st2 & cs & j & ->); [lia..|]. by eexists _, _, _.
Qed.

#[global] Instance dearmor_delivers :
  @Delivers _ (dearmor_getchar_c fuel) dearmoring.
Proof.
  split; [intros st xs ys Hst | intros st bs n Hst Hn _];
    pose proof Hst as (cs & _ & _ & _ & _ & Hl); unfold getchar, dearmor_getchar_c.
  - rewrite zlen_app in Hl. pose proof (zlen_nonneg xs). pose proof (zlen_nonneg ys).
    destruct (dearmor_loop_spec xs ys st 0 Hst) as (st' & E & Hst'); [lia | lia |].
    exists st'. split; [|done]. rewrite Z.add_0_l in E. unfold zlen at 1. rewrite Nat2Z.id, E.
    cbn [mbind outcome_bind]. by rewrite u64_small by lia.
  - pose proof (zlen_nonneg bs).
    destruct (dearmor_loop_short (Z.to_nat n) 0 n bs st Hst) as (st' & cs' & j & E);
      [unfold zlen in *; lia | lia | lia | lia |].
    exists st', cs', 0. rewrite E. auto with lia.
Qed.

(** [h] is a header that takes the search to its final state with its last
    character. *)
Fixpoint is_header (h : list Z) (state count : Z) : bool :=
  match h with
  | [] => state =? 4
  | c :: h => negb (state =? 4) &&
      let '(state, count) := header_step state count c in is_header h state count
  end.

Lemma find_header_spec h rest f s curchar state count :
  R s (h ++ rest) -> is_header h state count = true -> (length h < f)%nat ->
  exists s', find_header f s curchar state count = Done (s', 4) /\ R s' rest.
Proof.
  revert f s curchar state count. induction h as [|c h IH]; intros f s cc state count Hr Hh Hf;
    (destruct f as [|f]; [lia|]); cbn [is_header find_header app length] in *.
  - rewrite Hh. apply Z.eqb_eq in Hh as ->. by exists s.
  - apply andb_prop in Hh as [Hs Hh]. apply negb_true_iff in Hs. rewrite Hs.
    destruct (getc_spec s _ _ cc Hr) as (s1 & E1 & Hr1). rewrite E1. cbn [mbind outcome_bind Z.eqb Pos.eqb].
    destruct (header_step state count c) as [state' count'].
    destruct (IH f s1 c state' count' Hr1 Hh) as (s2 & E2 & Hr2); [lia|]. eauto.
Qed.

(** Whatever stands behind the '=' of the checksum line is not looked at,
    and in front of the header may be what the search skips. *)
Lemma dearmor_after_header h malloc_ok ps s tail pre : is_header h 1 0 = true ->
  let bs := encode_packets ps in
  let a := armor_run state0 bs in
  let text := h ++ armor_chars state0 bs ++ final_digits a ++ final_break a
                ++ chr_eq :: tail in
  R s text -> Forall encodable ps -> Forall version_sane ps ->
  Forall (fun p => malloc_ok (pkt_length p) = true) ps -> zlen bs <= 2 ^ 30 ->
  (length text < fuel)%nat -> (length ps < fuel)%nat ->
  exists s', dearmor_openpgp_stream fuel malloc_ok s pre = Done (s', pre ++ ps).
Proof.
  intros Hh bs a text Hr He Hv Hm Hl Hf Hn. unfold dearmor_openpgp_stream.
  unfold text in Hr, Hf. rewrite length_app in Hf.
  destruct (find_header_spec h _ fuel s 0 1 0 Hr Hh) as (s1 & E1 & Hr1); [lia|].
  rewrite E1. cbn [mbind outcome_bind Z.eqb Pos.eqb].
  assert (Hbs : Forall byte bs).
  { unfold bs, encode_packets. apply Forall_concat, Forall_map.
    eapply Forall_impl; [exact He|]. apply encode_packet_byte. }
  assert (Hd : dearmoring (dearmor_init s1) bs).
  { exists (armor_chars state0 bs ++ final_digits a ++ final_break a ++ chr_eq :: tail).
    split; [done|]. split; [cbn; lia|]. split; [|lia].
    change (phase_of (dearmor_init s1)) with P0. unfold a.
    rewrite dec_armor_chars by (done || by left). done. }
  destruct (read_stream_spec (H := dearmor_getchar_c fuel) (R := dearmoring) malloc_ok ps (dearmor_init s1) fuel pre He Hv Hm Hd Hn)
    as (st & E2). rewrite E2. cbn [mbind outcome_bind default]. eauto.
Qed.
Lemma dearmor_stream_spec malloc_ok ps s tail pre :
  let bs := encode_packets ps in
  let a := armor_run state0 bs in
  let text := armor_header ++ armor_chars state0 bs ++ final_digits a ++ final_break a
                ++ chr_eq :: tail in
  R s text -> Forall encodable ps -> Forall version_sane ps ->
  Forall (fun p => malloc_ok (pkt_length p) = true) ps -> zlen bs <= 2 ^ 30 ->
  (length text < fuel)%nat -> (length ps < fuel)%nat ->
  exists s', dearmor_openpgp_stream fuel malloc_ok s pre = Done (s', pre ++ ps).
Proof. by apply dearmor_after_header. Qed.
End DearmorSpec.

(** * Properties *)

(** C11: armoring a list of packets into a memory buffer and dearmoring that
    buffer gives the packets back, for every list of packets the binary format
    can express in at most 2^30 octets (so that none of the [int] counters of
    the encoder and the decoder leaves its range): the base64 encoder and
    decoder, the line breaks, the padding, the header search and the checksum
    line compose to the identity.  Fuel for three characters per octet and the
    fixed parts is enough. *)
Theorem armor_roundtrip malloc_ok ps buf pre fuel :
  writing buf [] ->
  Forall encodable ps -> Forall version_sane ps ->
  Forall (fun p => malloc_ok (pkt_length p) = true) ps ->
  zlen (encode_packets ps) <= 2 ^ 30 ->
  3 * zlen (encode_packets ps) + 84 < Z.of_nat fuel ->
  exists buf' buf'',
    armor_openpgp_stream buf ps = Done buf' /\
    dearmor_openpgp_stream fuel malloc_ok (rewind buf') pre = Done (buf'', pre ++ ps).
Proof.
  intros Hw He Hv Hm Hl Hf.
  destruct (armor_stream_spec buf ps Hw He) as (buf' & Ew & Hw'); [lia | lia |].
  pose proof (armor_text_length (encode_packets ps)) as Ht.
  apply rewind_reading in Hw'; [|lia].
  unfold armor_text, final_chars, checksum_chars in Hw', Ht. rewrite <- !app_assoc in Hw'.
  pose proof (encode_packets_count ps).
  edestruct (dearmor_stream_spec (R := reading) fuel malloc_ok ps (rewind buf')) as (buf'' & Er);
    [exact Hw' | done | done | done | lia | | unfold zlen in *; lia | by eauto].
  rewrite <- !app_assoc in Ht. unfold zlen in Ht, Hf. cbn [app] in Ht |- *. lia.
Qed.

Lemma armor_roundtrip_witness :
  exists buf' buf'',
    armor_openpgp_stream (mkBuffer (replicate 16 0) 0 16) sample_packets = Done buf' /\
    dearmor_openpgp_stream 1000 (fun _ => true) (rewind buf') [] = Done (buf'', [] ++ sample_packets).
Proof.
  apply (armor_roundtrip (fun _ => true) sample_packets (mkBuffer (replicate 16 0) 0 16) [] 1000).
  - repeat split; vm_compute; congruence.
  - apply (bool_decide_unpack _). vm_compute. exact I.
  - apply (bool_decide_unpack _). vm_compute. exact I.
  - apply (bool_decide_unpack _). vm_compute. exact I.
  - vm_compute. congruence.
  - vm_compute. reflexivity.
Defined.

(** The checksum is never verified: an armored key block whose checksum
    digits, or anything else behind the '=' that introduces them, are replaced
    by arbitrary characters is accepted like the intact one. *)
Theorem dearmor_ignores_checksum malloc_ok ps tail buf pre fuel :
  let bs := encode_packets ps in
  let a := armor_run state0 bs in
  let text := armor_header ++ armor_chars state0 bs ++ final_digits a ++ final_break a
                ++ chr_eq :: tail in
  reading buf text -> Forall encodable ps -> Forall version_sane ps ->
  Forall (fun p => malloc_ok (pkt_length p) = true) ps -> zlen bs <= 2 ^ 30 ->
  (length text < fuel)%nat -> (length ps < fuel)%nat ->
  exists buf', dearmor_openpgp_stream fuel malloc_ok buf pre = Done (buf', pre ++ ps).
Proof. apply (dearmor_stream_spec (R := reading)). Qed.

Lemma dearmor_ignores_checksum_witness :
  let bs := encode_packets sample_packets in
  let a := armor_run state0 bs in
  let text := armor_header ++ armor_chars state0 bs ++ final_digits a ++ final_break a
                ++ chr_eq :: str "????" in
  exists buf', dearmor_openpgp_stream 1000 (fun _ => true) (mkBuffer text 0 (zlen text)) []
    = Done (buf', [] ++ sample_packets).
Proof.
  intros bs a text.
  apply (dearmor_ignores_checksum (fun _ => true) sample_packets (str "????")).
  - repeat split; vm_compute; congruence.
  - apply (bool_decide_unpack _). vm_compute. exact I.
  - apply (bool_decide_unpack _). vm_compute. exact I.
  - apply (bool_decide_unpack _). vm_compute. exact I.
  - vm_compute. congruence.
  - apply Nat.ltb_lt. vm_compute. reflexivity.
  - apply Nat.ltb_lt. vm_compute. reflexivity.
Defined.

(** the CRC register is a 24-bit number after every octet, in the encoder
    and in the decoder, so that the shift [crc24 << 1] and the [c << 16] of the
    loop never leave the range of [long] (or of a 32-bit int), and the final
    masking with 0xffffff changes nothing. *)
Theorem crc24_register_bound bs :
  Forall byte bs ->
  let crc := foldl crc24_update CRC24_INIT bs in
  0 <= crc < 2 ^ 24 /\ Z.land crc 0xffffff = crc.
Proof.
  intros Hb crc. assert (Hc : 0 <= crc < 2 ^ 24).
  { unfold crc. assert (H0 : 0 <= CRC24_INIT < 2 ^ 24) by done. revert H0.
    generalize CRC24_INIT. induction Hb as [|c bs Hc Hb IH]; intros i Hi; [done|].
    cbn [foldl]. by apply IH, crc24_update_bound. }
  split; [done|]. change 0xffffff with (Z.ones 24). rewrite Z.land_ones by lia.
  by apply Z.mod_small.
Qed.

Lemma crc24_register_bound_witness :
  let crc := foldl crc24_update CRC24_INIT (str "onak") in
  0 <= crc < 2 ^ 24 /\ Z.land crc 0xffffff = crc.
Proof.
  apply (crc24_register_bound (str "onak")). apply (bool_decide_unpack _). vm_compute. exact I.
Defined.
