(* ===== verification/Keys.v ===== *)
(** Keys as packet lists: [packet_dup] and [packet_list_add] of mem.c,
    [parse_keys] and [flatten_publickey] of parsekey.c.

    The [last_sig], [last_uid] and [last_subkey] tail pointers of a key are the
    ends of the lists they belong to; [parse_keys] starts from lists it built
    itself or whose tail pointers are right. *)

From S2P Require Import Prelude OpenPGP Streams.

(** * mem.c *)

(** A deep copy; [memcpy] reads [length] bytes of the old buffer. *)
Definition packet_dup (p : openpgp_packet) : outcome openpgp_packet :=
  data ← memcpy_from (pkt_data p) 0 (pkt_length p);
  Done (mkPacket (pkt_tag p) (pkt_newformat p) (pkt_length p) data).

Fixpoint packet_list_add (lst packet_list : list openpgp_packet)
    : outcome (list openpgp_packet) :=
  match packet_list with
  | [] => Done lst
  | p :: packet_list => q ← packet_dup p; packet_list_add (lst ++ [q]) packet_list
  end.

(** * parse_keys *)

(** [ADD_PACKET_TO_LIST_END(last_xxx, sig, p)]: one more signature on the last
    element of a list of signed packets. *)
Fixpoint add_sig_to_last (l : list openpgp_signedpacket) (p : openpgp_packet)
    : list openpgp_signedpacket :=
  match l with
  | [] => []
  | [sp] => [set_sp_sigs sp (sp_sigs sp ++ [p])]
  | sp :: l => sp :: add_sig_to_last l p
  end.

(** The test for a revocation among the signatures on the key itself. *)
Definition key_revocation (data : list Z) : outcome bool :=
  d0 ← data.[0];
  v3 ← (if d0 =? 3 then d2 ← data.[2]; Done (d2 =? OPENPGP_SIGTYPE_KEY_REV) else Done false);
  if (v3 : bool) then Done true
  else if d0 =? 4 then d1 ← data.[1]; Done (d1 =? OPENPGP_SIGTYPE_KEY_REV)
  else Done false.

Arguments key_revocation : simpl never.
Arguments add_sig_to_last : simpl never.

Definition empty_key (p : openpgp_packet) : openpgp_publickey := mkKey p false [] [] [].

(** A signature packet behind the current key. *)
Definition parse_signature (k : openpgp_publickey) (p : openpgp_packet)
    : outcome openpgp_publickey :=
  q ← packet_dup p;
  match pk_subkeys k, pk_uids k with
  | _ :: _, _ => Done (set_pk_subkeys k (add_sig_to_last (pk_subkeys k) q))
  | [], _ :: _ => Done (set_pk_uids k (add_sig_to_last (pk_uids k) q))
  | [], [] =>
      let k := set_pk_sigs k (pk_sigs k ++ [q]) in
      rev ← key_revocation (pkt_data p);
      Done (if (rev : bool) then set_pk_revoked k true else k)
  end.

(** The loop: [prev] are the keys before the current one.  [inl] is an early
    return with an error code, [inr] the count at the end. *)
Fixpoint parse_loop (packets : list openpgp_packet) (prev : list openpgp_publickey)
    (curkey : option openpgp_publickey) (count : Z)
    : outcome (list openpgp_publickey * (onak_status_t + Z)) :=
  let keys := prev ++ option_list curkey in
  match packets with
  | [] => Done (keys, inr count)
  | p :: packets =>
      let tag := pkt_tag p in
      if tag =? OPENPGP_PACKET_SIGNATURE then
        match curkey with
        | None => Done (keys, inl ONAK_E_INVALID_PARAM)
        | Some k => k ← parse_signature k p; parse_loop packets prev (Some k) count
        end
      else if tag =? OPENPGP_PACKET_PUBLICKEY then
        q ← packet_dup p;
        parse_loop packets keys (Some (empty_key q)) (i32 (count + 1))
      else if (tag =? OPENPGP_PACKET_UID) || (tag =? OPENPGP_PACKET_UAT) then
        match curkey with
        | None => Done (keys, inl ONAK_E_INVALID_PARAM)
        | Some k =>
            match pk_subkeys k with
            | _ :: _ => Done (keys, inl ONAK_E_INVALID_PARAM)
            | [] =>
                q ← packet_dup p;
                parse_loop packets prev (Some (set_pk_uids k (pk_uids k ++ [mkSigned q []]))) count
            end
        end
      else if tag =? OPENPGP_PACKET_PUBLICSUBKEY then
        match curkey with
        | None => Done (keys, inl ONAK_E_INVALID_PARAM)
        | Some k =>
            q ← packet_dup p;
            parse_loop packets prev
              (Some (set_pk_subkeys k (pk_subkeys k ++ [mkSigned q []]))) count
        end
      else parse_loop packets prev curkey count
  end.

(** The keys and the result, with its error code if it is one. *)
Definition parse_keys_status (packets : list openpgp_packet) (keys : list openpgp_publickey)
    : outcome (list openpgp_publickey * (onak_status_t + Z)) :=
  parse_loop packets (removelast keys) (last keys) 0.

(** The [int] the caller sees: error codes and counts share it. *)
Definition parse_keys (packets : list openpgp_packet) (keys : list openpgp_publickey)
    : outcome (list openpgp_publickey * Z) :=
  '(keys, r) ← parse_keys_status packets keys;
  Done (keys, match r with inl e => status_code e | inr n => n end).

(** * flatten_publickey *)

Fixpoint flatten_signed (sps : list openpgp_signedpacket) (packets : list openpgp_packet)
    : outcome (list openpgp_packet) :=
  match sps with
  | [] => Done packets
  | sp :: sps =>
      q ← packet_dup (sp_packet sp);
      packets ← packet_list_add (packets ++ [q]) (sp_sigs sp);
      flatten_signed sps packets
  end.

Fixpoint flatten_publickey (keys : list openpgp_publickey) (packets : list openpgp_packet)
    : outcome (list openpgp_packet) :=
  match keys with
  | [] => Done packets
  | key :: keys =>
      q ← packet_dup (pk_publickey key);
      packets ← packet_list_add (packets ++ [q]) (pk_sigs key);
      packets ← flatten_signed (pk_uids key) packets;
      packets ← flatten_signed (pk_subkeys key) packets;
      flatten_publickey keys packets
  end.

(** * Specification *)

Definition signed_packets (sp : openpgp_signedpacket) : list openpgp_packet :=
  sp_packet sp :: sp_sigs sp.

(** The packets of a key, in the order of the transferable public key. *)
Definition key_packets (k : openpgp_publickey) : list openpgp_packet :=
  pk_publickey k :: pk_sigs k ++ concat (map signed_packets (pk_uids k))
    ++ concat (map signed_packets (pk_subkeys k)).

Definition keys_packets (ks : list openpgp_publickey) : list openpgp_packet :=
  concat (map key_packets ks).

Lemma keys_packets_app a b : keys_packets (a ++ b) = keys_packets a ++ keys_packets b.
Proof. unfold keys_packets. by rewrite map_app, concat_app. Qed.

(** The tags [parse_keys] does something with. *)
Definition is_uid_tag (t : Z) : bool :=
  (t =? OPENPGP_PACKET_UID) || (t =? OPENPGP_PACKET_UAT).
Definition key_tag (t : Z) : bool :=
  (t =? OPENPGP_PACKET_SIGNATURE) || (t =? OPENPGP_PACKET_PUBLICKEY) || is_uid_tag t
  || (t =? OPENPGP_PACKET_PUBLICSUBKEY).

(** The packets of a key carry the tags of their places. *)
Definition sigs_tagged (l : list openpgp_packet) : Prop :=
  Forall (fun s => pkt_tag s = OPENPGP_PACKET_SIGNATURE) l.

Definition tagged_key (k : openpgp_publickey) : Prop :=
  pkt_tag (pk_publickey k) = OPENPGP_PACKET_PUBLICKEY /\ sigs_tagged (pk_sigs k) /\
  Forall (fun sp => is_uid_tag (pkt_tag (sp_packet sp)) = true /\ sigs_tagged (sp_sigs sp)) (pk_uids k) /\
  Forall (fun sp => pkt_tag (sp_packet sp) = OPENPGP_PACKET_PUBLICSUBKEY /\ sigs_tagged (sp_sigs sp))
    (pk_subkeys k).

#[global] Instance tagged_key_dec k : Decision (tagged_key k).
Proof. unfold tagged_key, sigs_tagged. apply _. Defined.

(** [revoked] says whether a key revocation is among the key's signatures. *)
Definition is_key_revocation (p : openpgp_packet) : bool :=
  match key_revocation (pkt_data p) with Done b => b | Fault _ => false end.

Definition revoked_by_sigs (k : openpgp_publickey) : bool :=
  existsb is_key_revocation (pk_sigs k).

(** Signatures on the key itself that are long enough to be looked at. *)
Definition sigs_readable (k : openpgp_publickey) : Prop :=
  Forall (fun s => 3 <= zlen (pkt_data s)) (pk_sigs k).

#[global] Instance sigs_readable_dec k : Decision (sigs_readable k).
Proof. unfold sigs_readable. apply _. Defined.

(** * Lemmas *)

Lemma packet_dup_wf p : wf_packet p -> packet_dup p = Done p.
Proof.
  intros [Hl _]. unfold packet_dup. rewrite memcpy_from_ok by (rewrite ?Hl; auto with onak lia).
  cbn [mbind outcome_bind]. rewrite Hl. unfold zlen. rewrite Nat2Z.id, drop_0, firstn_all.
  destruct p as [t nf len d]. cbn in *. by rewrite Hl.
Qed.

Lemma packet_list_add_wf l ps : Forall wf_packet ps -> packet_list_add l ps = Done (l ++ ps).
Proof.
  intros Hps. revert l. induction Hps as [|p ps Hp Hps IH]; intros l; cbn [packet_list_add].
  - by rewrite app_nil_r.
  - rewrite packet_dup_wf by done. cbn [mbind outcome_bind]. by rewrite IH, <- app_assoc.
Qed.

Lemma flatten_signed_wf sps ps :
  Forall wf_signed sps -> flatten_signed sps ps = Done (ps ++ concat (map signed_packets sps)).
Proof.
  intros Hs. revert ps. induction Hs as [|sp sps [Hp Hsig] Hs IH]; intros ps; cbn [flatten_signed map concat].
  - by rewrite app_nil_r.
  - rewrite packet_dup_wf by done. cbn [mbind outcome_bind].
    rewrite packet_list_add_wf by done. cbn [mbind outcome_bind].
    rewrite IH. unfold signed_packets. by rewrite <- !app_assoc.
Qed.

(** [flatten_publickey] appends the packets of the keys in order. *)
Lemma flatten_publickey_wf ks ps :
  Forall wf_key ks -> flatten_publickey ks ps = Done (ps ++ keys_packets ks).
Proof.
  intros Hs. revert ps. induction Hs as [|k ks (Hp & Hsig & Hu & Hk) Hs IH]; intros ps;
    cbn [flatten_publickey].
  - unfold keys_packets. cbn. by rewrite app_nil_r.
  - rewrite packet_dup_wf by done. cbn [mbind outcome_bind].
    rewrite packet_list_add_wf by done. cbn [mbind outcome_bind].
    rewrite flatten_signed_wf by done. cbn [mbind outcome_bind].
    rewrite flatten_signed_wf by done. cbn [mbind outcome_bind].
    rewrite IH. unfold keys_packets. cbn [map concat]. unfold key_packets. cbn [app].
    by rewrite <- !app_assoc.
Qed.

Lemma add_sig_to_last_snoc l sp p :
  add_sig_to_last (l ++ [sp]) p = l ++ [set_sp_sigs sp (sp_sigs sp ++ [p])].
Proof.
  induction l as [|x l IH]; [done|].
  change (add_sig_to_last ((x :: l) ++ [sp]) p)
    with (match l ++ [sp] with [] => [set_sp_sigs x (sp_sigs x ++ [p])]
          | _ => x :: add_sig_to_last (l ++ [sp]) p end).
  rewrite IH. by destruct l.
Qed.

Lemma key_revocation_ok data : 3 <= zlen data -> exists b, key_revocation data = Done b.
Proof.
  intros H. unfold zlen in H. destruct data as [|a [|b [|c d]]]; try (cbn in H; lia).
  unfold key_revocation. change ((a :: b :: c :: d).[0]) with (Done a).
  change ((a :: b :: c :: d).[1]) with (Done b). change ((a :: b :: c :: d).[2]) with (Done c).
  cbn [mbind outcome_bind]. destruct (a =? 3), (c =? OPENPGP_SIGTYPE_KEY_REV), (a =? 4); cbn; eauto.
Qed.

(** ** Parsing the parts of a flattened key *)

Lemma parse_key_sigs sigs rest prev k n :
  pk_uids k = [] -> pk_subkeys k = [] -> Forall wf_packet sigs -> sigs_tagged sigs ->
  Forall (fun s => 3 <= zlen (pkt_data s)) sigs ->
  parse_loop (sigs ++ rest) prev (Some k) n =
  parse_loop rest prev (Some (mkKey (pk_publickey k)
    (pk_revoked k || existsb is_key_revocation sigs) (pk_sigs k ++ sigs) [] [])) n.
Proof.
  intros Hu Hs Hwf. revert k Hu Hs. induction Hwf as [|p sigs Hp Hwf IH]; intros k Hu Hs Ht Hr.
  - cbn [existsb app]. rewrite orb_false_r, app_nil_r. destruct k; cbn in *; by subst.
  - inversion Ht as [|? ? Htp Ht']; inversion Hr as [|? ? Hrp Hr']; subst.
    cbn [app parse_loop]. rewrite Htp. cbn [Z.eqb OPENPGP_PACKET_SIGNATURE Pos.eqb].
    destruct (key_revocation_ok _ Hrp) as [b Hb].
    unfold parse_signature. rewrite packet_dup_wf by done. cbn [mbind outcome_bind].
    rewrite Hu, Hs, Hb. cbn [mbind outcome_bind].
    rewrite IH; [|by destruct b|by destruct b|done|done]. cbn [existsb].
    unfold is_key_revocation at 2. rewrite Hb.
    destruct k as [pub rv sg us sk], b; cbn; rewrite <- app_assoc; cbn;
      by rewrite ?orb_true_r.
Qed.

Lemma parse_sig_sigs (uid : bool) sigs rest prev k sps sp n :
  (if uid then pk_uids k = sps ++ [sp] /\ pk_subkeys k = [] else pk_subkeys k = sps ++ [sp]) ->
  Forall wf_packet sigs -> sigs_tagged sigs ->
  parse_loop (sigs ++ rest) prev (Some k) n =
  parse_loop rest prev (Some
    ((if uid then set_pk_uids else set_pk_subkeys) k (sps ++ [set_sp_sigs sp (sp_sigs sp ++ sigs)]))) n.
Proof.
  intros Hk Hwf. revert k sp Hk. induction Hwf as [|p sigs Hp Hwf IH]; intros k sp Hk Ht.
  - cbn [app]. rewrite app_nil_r. destruct uid, k, sp; cbn in *; naive_solver.
  - inversion Ht as [|? ? Htp Ht']; subst.
    cbn [app parse_loop]. rewrite Htp. cbn [Z.eqb OPENPGP_PACKET_SIGNATURE Pos.eqb].
    unfold parse_signature. rewrite packet_dup_wf by done. cbn [mbind outcome_bind].
    destruct uid; [destruct Hk as [Hk Hs]; rewrite Hs|]; rewrite Hk, add_sig_to_last_snoc;
      destruct (sps ++ [sp]) eqn:E; try (by destruct sps); cbn [mbind outcome_bind];
      (rewrite (IH _ (set_sp_sigs sp (sp_sigs sp ++ [p]))); [| cbn; auto | done]);
      destruct k, sp; cbn; by rewrite <- app_assoc.
Qed.

(** The user ids, or the subkeys, of a key. *)
Lemma parse_signed (uid : bool) sps rest prev k n :
  (if uid then pk_subkeys k = [] else True) ->
  Forall wf_signed sps ->
  Forall (fun sp => (if uid then is_uid_tag (pkt_tag (sp_packet sp)) = true
                     else pkt_tag (sp_packet sp) = OPENPGP_PACKET_PUBLICSUBKEY)
                    /\ sigs_tagged (sp_sigs sp)) sps ->
  parse_loop (concat (map signed_packets sps) ++ rest) prev (Some k) n =
  parse_loop rest prev (Some (if uid then set_pk_uids k (pk_uids k ++ sps)
                              else set_pk_subkeys k (pk_subkeys k ++ sps))) n.
Proof.
  intros Hk Hwf. revert k Hk. induction Hwf as [|sp sps [Hp Hsig] Hwf IH]; intros k Hk Ht.
  - cbn [map concat app]. rewrite !app_nil_r. by destruct uid, k.
  - inversion Ht as [|? ? [Htag Hst] Ht']; subst.
    cbn [map concat signed_packets app]. rewrite <- app_assoc.
    destruct sp as [p sigs]; cbn [sp_packet sp_sigs] in *. destruct uid.
    + unfold is_uid_tag in Htag. cbn [parse_loop].
      assert (Hcases : pkt_tag p = OPENPGP_PACKET_UID \/ pkt_tag p = OPENPGP_PACKET_UAT)
        by (apply orb_true_iff in Htag as [?|?]; zbool; auto).
      destruct Hcases as [-> | ->]; cbn [Z.eqb Pos.eqb orb OPENPGP_PACKET_SIGNATURE
        OPENPGP_PACKET_PUBLICKEY OPENPGP_PACKET_UID OPENPGP_PACKET_UAT]; rewrite Hk, packet_dup_wf by done;
        cbn [mbind outcome_bind];
        (rewrite (parse_sig_sigs true sigs _ _ _ (pk_uids k) (mkSigned p [])); [|by destruct k | done | done]);
        (rewrite IH; [|by destruct k|done]); destruct k; cbn; by rewrite <- app_assoc.
    + cbn [parse_loop]. rewrite Htag. cbn [Z.eqb Pos.eqb orb OPENPGP_PACKET_SIGNATURE
        OPENPGP_PACKET_PUBLICKEY OPENPGP_PACKET_UID OPENPGP_PACKET_UAT OPENPGP_PACKET_PUBLICSUBKEY].
      rewrite packet_dup_wf by done. cbn [mbind outcome_bind].
      rewrite (parse_sig_sigs false sigs _ _ _ (pk_subkeys k) (mkSigned p [])); [|by destruct k | done | done].
      rewrite IH by done. destruct k; cbn; by rewrite <- app_assoc.
Qed.

Lemma parse_key k rest prev cur n :
  wf_key k -> tagged_key k -> sigs_readable k ->
  parse_loop (key_packets k ++ rest) prev cur n =
  parse_loop rest (prev ++ option_list cur) (Some (set_pk_revoked k (revoked_by_sigs k))) (i32 (n + 1)).
Proof.
  intros (Hp & Hsig & Hu & Hk) (Tp & Tsig & Tu & Tk) Hr. unfold key_packets.
  cbn [app parse_loop]. rewrite Tp. cbn [Z.eqb Pos.eqb OPENPGP_PACKET_SIGNATURE OPENPGP_PACKET_PUBLICKEY].
  rewrite packet_dup_wf by done. cbn [mbind outcome_bind]. rewrite <- !app_assoc.
  rewrite parse_key_sigs by done.
  rewrite (parse_signed true) by done. rewrite (parse_signed false) by done.
  destruct k; cbn. done.
Qed.

(** ** Parsing any packet list *)

(** What [parse_keys] establishes for every key it builds. *)
Definition parsed_key (k : openpgp_publickey) : Prop :=
  wf_key k /\ tagged_key k /\ pk_revoked k = revoked_by_sigs k.

#[global] Instance parsed_key_dec k : Decision (parsed_key k).
Proof. unfold parsed_key. apply _. Defined.

(** A signature packet of at least three octets. *)
Definition sig_readable (p : openpgp_packet) : Prop :=
  pkt_tag p = OPENPGP_PACKET_SIGNATURE -> 3 <= zlen (pkt_data p).

#[global] Instance sig_readable_dec p : Decision (sig_readable p).
Proof. unfold sig_readable. apply _. Defined.

Lemma add_sig_to_last_packets l p :
  l <> [] -> concat (map signed_packets (add_sig_to_last l p)) = concat (map signed_packets l) ++ [p].
Proof.
  intros Hl. destruct l as [|sp l _] using rev_ind; [done|].
  rewrite add_sig_to_last_snoc, !map_app, !concat_app, <- app_assoc. f_equal.
  cbn. by rewrite !app_nil_r.
Qed.

Lemma add_sig_to_last_Forall (P : openpgp_signedpacket -> Prop) l p :
  (forall sp, P sp -> P (set_sp_sigs sp (sp_sigs sp ++ [p]))) ->
  Forall P l -> Forall P (add_sig_to_last l p).
Proof.
  intros Hstep Hl. destruct l as [|sp l _] using rev_ind; [done|].
  rewrite add_sig_to_last_snoc. apply Forall_app in Hl as [Hl Hsp].
  apply Forall_app. split; [done|]. inversion Hsp; subst. auto.
Qed.

Lemma sigs_tagged_snoc l p :
  sigs_tagged l -> pkt_tag p = OPENPGP_PACKET_SIGNATURE -> sigs_tagged (l ++ [p]).
Proof. intros. apply Forall_app. auto. Qed.

Lemma existsb_snoc {A} (f : A -> bool) l x : existsb f (l ++ [x]) = existsb f l || f x.
Proof. rewrite existsb_app. cbn. by rewrite orb_false_r. Qed.

Lemma parse_signature_ok k p :
  parsed_key k -> wf_packet p -> pkt_tag p = OPENPGP_PACKET_SIGNATURE -> 3 <= zlen (pkt_data p) ->
  exists k', parse_signature k p = Done k' /\ parsed_key k' /\ key_packets k' = key_packets k ++ [p].
Proof.
  intros ((Wp & Wsig & Wu & Wk) & (Tp & Tsig & Tu & Tk) & Hrev) Hp Ht Hlen.
  unfold parse_signature. rewrite packet_dup_wf by done. cbn [mbind outcome_bind].
  assert (Hstep : forall sp, wf_signed sp -> wf_signed (set_sp_sigs sp (sp_sigs sp ++ [p]))).
  { intros sp [? ?]. split; [done|]. apply Forall_app. auto. }
  destruct k as [pub rv sg us sk]; cbn [pk_publickey pk_revoked pk_sigs pk_uids pk_subkeys] in *.
  destruct sk as [|s0 sk]; [destruct us as [|u us]|].
  - destruct (key_revocation_ok _ Hlen) as [b Hb]. rewrite Hb. cbn [mbind outcome_bind].
    eexists. split; [done|]. split.
    + unfold parsed_key, wf_key, tagged_key, revoked_by_sigs in *. cbn in *.
      assert (Hkr : is_key_revocation p = b) by (unfold is_key_revocation; by rewrite Hb).
      destruct b; cbn; rewrite existsb_snoc, Hkr, <- Hrev;
        rewrite ?orb_true_r, ?orb_false_r; split_and!; auto using sigs_tagged_snoc; apply Forall_app; auto.
    + destruct b; unfold key_packets; cbn; by rewrite !app_nil_r.
  - eexists. split; [done|]. split.
    + unfold parsed_key, wf_key, tagged_key in *. cbn in *.
      split_and!; auto; apply add_sig_to_last_Forall; auto.
      intros sp [? ?]; cbn; auto using sigs_tagged_snoc.
    + unfold key_packets. cbn [pk_publickey pk_sigs pk_uids pk_subkeys set_pk_uids].
      rewrite add_sig_to_last_packets by done. cbn [map concat]. rewrite !app_nil_r.
      cbn [app]. f_equal. apply app_assoc.
  - eexists. split; [done|]. split.
    + unfold parsed_key, wf_key, tagged_key in *. cbn in *.
      split_and!; auto; apply add_sig_to_last_Forall; auto.
      intros sp [? ?]; cbn; auto using sigs_tagged_snoc.
    + unfold key_packets. cbn [pk_publickey pk_sigs pk_uids pk_subkeys set_pk_subkeys].
      rewrite add_sig_to_last_packets by done. cbn [app]. by rewrite <- !app_assoc.
Qed.

Lemma keys_packets_snoc ks k : keys_packets (ks ++ [k]) = keys_packets ks ++ key_packets k.
Proof. unfold keys_packets. rewrite map_app, concat_app. cbn. by rewrite app_nil_r. Qed.

Lemma empty_key_parsed p :
  wf_packet p -> pkt_tag p = OPENPGP_PACKET_PUBLICKEY -> parsed_key (empty_key p).
Proof.
  intros. unfold parsed_key, wf_key, tagged_key, sigs_tagged. cbn.
  split_and!; auto using Forall_nil_2.
Qed.

Lemma add_uid_parsed k p :
  parsed_key k -> pk_subkeys k = [] -> wf_packet p -> is_uid_tag (pkt_tag p) = true ->
  let k' := set_pk_uids k (pk_uids k ++ [mkSigned p []]) in
  parsed_key k' /\ key_packets k' = key_packets k ++ [p].
Proof.
  intros ((Wp & Wsig & Wu & Wk) & (Tp & Tsig & Tu & Tk) & Hrev) Hs Hp Ht k'. split.
  - unfold parsed_key, wf_key, tagged_key in *. cbn in *.
    split_and!; auto; (apply Forall_app; split; [done|]; apply Forall_singleton);
      repeat split; cbn; auto; try apply Hp; apply Forall_nil_2.
  - unfold key_packets, k'. cbn. rewrite Hs, map_app, concat_app. cbn. by rewrite !app_nil_r, <- app_assoc.
Qed.

Lemma add_subkey_parsed k p :
  parsed_key k -> wf_packet p -> pkt_tag p = OPENPGP_PACKET_PUBLICSUBKEY ->
  let k' := set_pk_subkeys k (pk_subkeys k ++ [mkSigned p []]) in
  parsed_key k' /\ key_packets k' = key_packets k ++ [p].
Proof.
  intros ((Wp & Wsig & Wu & Wk) & (Tp & Tsig & Tu & Tk) & Hrev) Hp Ht k'. split.
  - unfold parsed_key, wf_key, tagged_key in *. cbn in *.
    split_and!; auto; (apply Forall_app; split; [done|]; apply Forall_singleton);
      repeat split; cbn; auto; try apply Hp; apply Forall_nil_2.
  - unfold key_packets, k'. cbn. rewrite map_app, concat_app. cbn. by rewrite <- !app_assoc.
Qed.

Definition parsed_keys (prev : list openpgp_publickey) (cur : option openpgp_publickey) : Prop :=
  Forall parsed_key (prev ++ option_list cur).

Definition count_keys (ps : list openpgp_packet) : nat :=
  length (filter (fun p => pkt_tag p = OPENPGP_PACKET_PUBLICKEY) ps).

(** What a result of the loop says about the packets that were consumed: all
    of them, or the ones before an offending packet. *)
Definition loop_result (ps : list openpgp_packet) (before : list openpgp_publickey) (n : Z)
    (ks : list openpgp_publickey) (r : onak_status_t + Z) : Prop :=
  match r with
  | inr m => keys_packets ks = keys_packets before ++ filter (fun p => key_tag (pkt_tag p) = true) ps
      /\ (0 <= n -> n + Z.of_nat (count_keys ps) < 2 ^ 31 -> m = n + Z.of_nat (count_keys ps))
      /\ (length ks = length before + count_keys ps)%nat
  | inl e => e = ONAK_E_INVALID_PARAM /\ exists pre p post, ps = pre ++ p :: post /\
      keys_packets ks = keys_packets before ++ filter (fun p => key_tag (pkt_tag p) = true) pre /\
      key_tag (pkt_tag p) = true /\ pkt_tag p <> OPENPGP_PACKET_PUBLICKEY /\
      (ks = [] \/ is_uid_tag (pkt_tag p) = true)
  end.

Lemma filter_key_tag_app ps qs :
  filter (fun p => key_tag (pkt_tag p) = true) (ps ++ qs) =
  filter (fun p => key_tag (pkt_tag p) = true) ps ++ filter (fun p => key_tag (pkt_tag p) = true) qs.
Proof. apply filter_app. Qed.

(** Consuming one more packet in front. *)
Lemma loop_result_cons p ps before before' n ks r :
  keys_packets before' = keys_packets before ++ filter (fun p => key_tag (pkt_tag p) = true) [p] ->
  length before' = (length before + count_keys [p])%nat ->
  loop_result ps before' (i32 (n + Z.of_nat (count_keys [p]))) ks r -> loop_result (p :: ps) before n ks r.
Proof.
  intros Hp Hc. unfold loop_result. destruct r as [e|m].
  - intros (-> & pre & q & post & -> & Hk & ?). split; [done|].
    exists (p :: pre), q, post. split; [done|]. split; [|done].
    change (p :: pre) with ([p] ++ pre). rewrite filter_key_tag_app, app_assoc, <- Hp. done.
  - intros (Hk & Hm & Hlen). change (p :: ps) with ([p] ++ ps).
    assert (Hcnt : count_keys ([p] ++ ps) = (count_keys [p] + count_keys ps)%nat)
      by (unfold count_keys; by rewrite filter_app, length_app).
    rewrite filter_key_tag_app, app_assoc, <- Hp, Hcnt. split; [done|]. split; [|lia].
    intros Hn Hb. unfold i32 in Hm. rewrite Z.mod_small in Hm by lia. lia.
Qed.

Ltac tag_cases p :=
  destruct (Z.eqb_spec (pkt_tag p) OPENPGP_PACKET_SIGNATURE) as [Et|];
  [| destruct (Z.eqb_spec (pkt_tag p) OPENPGP_PACKET_PUBLICKEY) as [Et|];
     [| destruct ((pkt_tag p =? OPENPGP_PACKET_UID) || (pkt_tag p =? OPENPGP_PACKET_UAT)) eqn:Et;
        [| destruct (Z.eqb_spec (pkt_tag p) OPENPGP_PACKET_PUBLICSUBKEY) as [Et'|]]]].

(** The packet in front counts as a key packet, or is skipped. *)
Lemma filter_one p :
  filter (fun p => key_tag (pkt_tag p) = true) [p] = if key_tag (pkt_tag p) then [p] else [].
Proof. cbn. destruct (key_tag (pkt_tag p)) eqn:E; [by rewrite decide_True | by rewrite decide_False]. Qed.

Lemma count_one p :
  count_keys [p] = if pkt_tag p =? OPENPGP_PACKET_PUBLICKEY then 1%nat else 0%nat.
Proof.
  unfold count_keys. cbn. destruct (Z.eqb_spec (pkt_tag p) OPENPGP_PACKET_PUBLICKEY);
    [by rewrite decide_True | by rewrite decide_False].
Qed.

Lemma loop_result_next p ps before before' n ks r :
  - 2 ^ 31 <= n < 2 ^ 31 -> pkt_tag p <> OPENPGP_PACKET_PUBLICKEY ->
  keys_packets before' = keys_packets before ++ (if key_tag (pkt_tag p) then [p] else []) ->
  length before' = length before ->
  loop_result ps before' n ks r -> loop_result (p :: ps) before n ks r.
Proof.
  intros Hn Ht Hk Hl Hr. apply (loop_result_cons p ps before before').
  - by rewrite filter_one.
  - rewrite count_one, (proj2 (Z.eqb_neq _ _) Ht). lia.
  - rewrite count_one, (proj2 (Z.eqb_neq _ _) Ht), Z.add_0_r, i32_small by done. done.
Qed.

Lemma parsed_keys_cur prev k : parsed_keys prev (Some k) -> parsed_key k.
Proof. intros [_ Hk]%Forall_app. exact (Forall_inv Hk). Qed.

Lemma parse_loop_correct ps prev cur n :
  Forall wf_packet ps -> Forall sig_readable ps -> parsed_keys prev cur ->
  (cur = None -> prev = []) -> - 2 ^ 31 <= n < 2 ^ 31 ->
  exists ks r, parse_loop ps prev cur n = Done (ks, r) /\ Forall parsed_key ks /\
    loop_result ps (prev ++ option_list cur) n ks r.
Proof.
  intros Hwf. revert prev cur n. induction Hwf as [|p ps Hp Hwf IH]; intros prev cur n Hsr Hinv Hnone Hn.
  { eexists _, _. split; [done|]. split; [done|]. cbn. rewrite app_nil_r. split; [done|]. split; lia. }
  inversion Hsr as [|? ? Hsp Hsr']; subst. cbn [parse_loop].
  assert (Hbad : forall ks, ks = prev ++ option_list cur -> key_tag (pkt_tag p) = true ->
     pkt_tag p <> OPENPGP_PACKET_PUBLICKEY -> (ks = [] \/ is_uid_tag (pkt_tag p) = true) ->
     loop_result (p :: ps) (prev ++ option_list cur) n ks (inl ONAK_E_INVALID_PARAM)).
  { intros ks -> Hkt Hnp Hor. split; [done|]. exists [], p, ps. cbn. rewrite app_nil_r. auto. }
  (* a packet that changes the current key from [k] to [k'] *)
  assert (Hnext : forall k k', cur = Some k -> pkt_tag p <> OPENPGP_PACKET_PUBLICKEY ->
     key_tag (pkt_tag p) = true -> parsed_key k' -> key_packets k' = key_packets k ++ [p] ->
     exists ks r, parse_loop ps prev (Some k') n = Done (ks, r) /\ Forall parsed_key ks /\
       loop_result (p :: ps) (prev ++ option_list cur) n ks r).
  { intros k k' -> Hnp Hkt Hk' Hpk. apply Forall_app in Hinv as [Hprev _].
    destruct (IH prev (Some k') n Hsr') as (ks & r & E & Hks & Hr); [|done|done|].
    { apply Forall_app. split; [done|]. by apply Forall_singleton. }
    exists ks, r. split; [done|]. split; [done|].
    apply (loop_result_next p ps _ (prev ++ [k'])); auto.
    - change (option_list (Some k)) with [k]. by rewrite !keys_packets_snoc, Hpk, Hkt, app_assoc.
    - by rewrite !length_app. }
  tag_cases p.
  - destruct cur as [k|].
    2: { eexists _, _. split; [done|]. split; [done|].
         apply Hbad; [done | | | left; by rewrite Hnone]; by rewrite Et. }
    pose proof (parsed_keys_cur _ _ Hinv) as Hk.
    destruct (parse_signature_ok k p Hk Hp Et (Hsp Et)) as (k' & E & Hk' & Hpk).
    rewrite E. cbn [mbind outcome_bind]. apply (Hnext k k'); auto; by rewrite Et.
  - rewrite packet_dup_wf by done. cbn [mbind outcome_bind].
    destruct (IH (prev ++ option_list cur) (Some (empty_key p)) (i32 (n + 1)) Hsr')
      as (ks & r & E & Hks & Hr); [| done | apply i32_range |].
    { apply Forall_app. split; [done|]. by apply Forall_singleton, empty_key_parsed. }
    eexists _, _. split; [done|]. split; [done|].
    apply (loop_result_cons p ps _ ((prev ++ option_list cur) ++ [empty_key p]));
      rewrite ?keys_packets_snoc, ?filter_one, ?count_one, Et, ?length_app; done.
  - assert (Hkt : key_tag (pkt_tag p) = true)
      by (unfold key_tag, is_uid_tag; rewrite Et, orb_true_r; done).
    destruct cur as [k|].
    2: { eexists _, _. split; [done|]. split; [done|].
         apply Hbad; [done | done | done | left; by rewrite Hnone]. }
    pose proof (parsed_keys_cur _ _ Hinv) as Hk.
    destruct (pk_subkeys k) as [|s0 sk] eqn:Esk.
    2: { eexists _, _. split; [done|]. split; [done|]. apply Hbad; auto. }
    rewrite packet_dup_wf by done. cbn [mbind outcome_bind].
    destruct (add_uid_parsed k p Hk Esk Hp Et) as [Hk' Hpk]. by apply (Hnext k).
  - destruct cur as [k|].
    2: { eexists _, _. split; [done|]. split; [done|].
         apply Hbad; [done | by rewrite Et' | done | left; by rewrite Hnone]. }
    pose proof (parsed_keys_cur _ _ Hinv) as Hk.
    rewrite packet_dup_wf by done. cbn [mbind outcome_bind].
    destruct (add_subkey_parsed k p Hk Hp Et') as [Hk' Hpk]. apply (Hnext k); auto. by rewrite Et'.
  - destruct (IH prev cur n Hsr' Hinv Hnone Hn) as (ks & r & E & Hks & Hr).
    exists ks, r. split; [done|]. split; [done|].
    apply (loop_result_next p ps _ (prev ++ option_list cur)); auto.
    assert (Hkt : key_tag (pkt_tag p) = false)
      by (unfold key_tag, is_uid_tag; rewrite Et; by rewrite !(proj2 (Z.eqb_neq _ _))).
    by rewrite Hkt, app_nil_r.
Qed.

(** The packets of a list of keys parse to these keys, behind those there
    are. *)
Lemma parse_keys_append ks prev :
  Forall wf_key ks -> Forall tagged_key ks -> Forall sigs_readable ks ->
  Z.of_nat (length ks) < 2 ^ 31 ->
  parse_keys (keys_packets ks) prev = Done (prev ++ map (fun k => set_pk_revoked k (revoked_by_sigs k)) ks,
                                            Z.of_nat (length ks)).
Proof.
  intros Hwf Ht Hr Hlen.
  assert (Hloop : forall prev cur n, 0 <= n -> n + Z.of_nat (length ks) < 2 ^ 31 ->
    parse_loop (keys_packets ks) prev cur n =
    Done (prev ++ option_list cur ++ map (fun k => set_pk_revoked k (revoked_by_sigs k)) ks,
          inr (n + Z.of_nat (length ks)))).
  { clear Hlen. induction Hwf as [|k ks Hk Hwf IH]; intros prev' cur n Hn Hb.
    - cbn. by rewrite app_nil_r, Z.add_0_r.
    - inversion Ht; inversion Hr; subst. cbn [length] in Hb.
      change (keys_packets (k :: ks)) with (key_packets k ++ keys_packets ks).
      rewrite parse_key by done. rewrite i32_small, IH by (done || lia).
      cbn [map length]. rewrite <- app_assoc. do 3 f_equal. lia. }
  unfold parse_keys, parse_keys_status. rewrite Hloop by lia. cbn [mbind outcome_bind]. do 2 f_equal.
  destruct prev as [|k prev _] using rev_ind; [done|].
  by rewrite removelast_last, last_snoc, <- app_assoc.
Qed.

Lemma parse_keys_packets ks :
  Forall wf_key ks -> Forall tagged_key ks -> Forall sigs_readable ks ->
  Z.of_nat (length ks) < 2 ^ 31 ->
  parse_keys (keys_packets ks) [] = Done (map (fun k => set_pk_revoked k (revoked_by_sigs k)) ks,
                                          Z.of_nat (length ks)).
Proof. intros. by rewrite parse_keys_append. Qed.

(** * Properties *)

(** C10: flattening keys to packets and parsing the packets again gives the
    same keys, in order, with their signatures on the same user ids and
    subkeys, and the number of keys as the result; only the [revoked] flag,
    which is not stored in packets, is recomputed from the signatures on the
    key itself. *)
Theorem flatten_parse_roundtrip ks :
  Forall wf_key ks -> Forall tagged_key ks -> Forall sigs_readable ks ->
  Z.of_nat (length ks) < 2 ^ 31 ->
  exists ps, flatten_publickey ks [] = Done ps /\
    parse_keys ps [] = Done (map (fun k => set_pk_revoked k (revoked_by_sigs k)) ks,
                             Z.of_nat (length ks)).
Proof.
  intros. exists (keys_packets ks). split; [by rewrite flatten_publickey_wf | by apply parse_keys_packets].
Qed.

Definition sample_key : openpgp_publickey :=
  mkKey (mkPacket OPENPGP_PACKET_PUBLICKEY true 6 [4; 0; 0; 0; 1; 1]) true
    [mkPacket OPENPGP_PACKET_SIGNATURE true 4 [4; 32; 1; 2]]
    [mkSigned (mkPacket OPENPGP_PACKET_UID false 3 [65; 66; 67])
       [mkPacket OPENPGP_PACKET_SIGNATURE true 3 [4; 16; 1]]]
    [mkSigned (mkPacket OPENPGP_PACKET_PUBLICSUBKEY true 6 [4; 0; 0; 0; 1; 1]) []].

Lemma flatten_parse_roundtrip_witness :
  exists ps, flatten_publickey [sample_key; sample_key] [] = Done ps /\
    parse_keys ps [] = Done (map (fun k => set_pk_revoked k (revoked_by_sigs k))
      [sample_key; sample_key], 2).
Proof.
  apply (flatten_parse_roundtrip [sample_key; sample_key]);
    try (apply (bool_decide_unpack _); vm_compute; exact I).
Defined.

(** C37: parsing any list of well-formed packets whose signature packets have
    at least three octets terminates without a fault.  Every key it returns
    has each packet at a place that fits its tag and a [revoked] flag that
    says whether its own signatures contain a key revocation.  If the list is
    accepted, flattening the keys gives back exactly the packets with a tag
    that keys are made of, nothing lost, duplicated or reordered, and the
    result is the number of keys; otherwise the keys are those of the packets
    before the first one that has no key to belong to or that is a user id
    behind a subkey. *)
Theorem parse_keys_correct ps :
  Forall wf_packet ps -> Forall sig_readable ps -> Z.of_nat (length ps) < 2 ^ 31 ->
  exists ks r, parse_keys_status ps [] = Done (ks, r) /\ Forall parsed_key ks /\
    match r with
    | inr n =>
        flatten_publickey ks [] = Done (filter (fun p => key_tag (pkt_tag p) = true) ps) /\
        n = Z.of_nat (length ks)
    | inl e =>
        e = ONAK_E_INVALID_PARAM /\ exists pre p post, ps = pre ++ p :: post /\
        flatten_publickey ks [] = Done (filter (fun p => key_tag (pkt_tag p) = true) pre) /\
        (ks = [] \/ is_uid_tag (pkt_tag p) = true)
    end.
Proof.
  intros Hwf Hsr Hlen.
  destruct (parse_loop_correct ps [] None 0 Hwf Hsr) as (ks & r & E & Hks & Hr);
    [by apply Forall_nil_2 | done | lia |].
  exists ks, r. split; [exact E|]. split; [done|].
  assert (Hfl : flatten_publickey ks [] = Done (keys_packets ks)).
  { rewrite flatten_publickey_wf; [done|]. eapply Forall_impl; [exact Hks|]. by intros k [? _]. }
  rewrite Hfl. destruct r as [e|n]; cbn in Hr.
  - destruct Hr as (-> & pre & p & post & -> & Hk & _ & _ & Hor). split; [done|].
    exists pre, p, post. rewrite Hk. auto.
  - destruct Hr as (Hk & Hn & Hl). rewrite Hk. split; [done|]. rewrite Hl.
    apply Hn; [lia|]. unfold count_keys. pose proof (length_filter (fun p => pkt_tag p = OPENPGP_PACKET_PUBLICKEY) ps). lia.
Qed.

Lemma parse_keys_correct_witness :
  let ps := mkPacket OPENPGP_PACKET_TRUST true 1 [0] :: key_packets sample_key in
  exists ks r, parse_keys_status ps [] = Done (ks, r) /\ Forall parsed_key ks /\
    match r with
    | inr n =>
        flatten_publickey ks [] = Done (filter (fun p => key_tag (pkt_tag p) = true) ps) /\
        n = Z.of_nat (length ks)
    | inl e =>
        e = ONAK_E_INVALID_PARAM /\ exists pre p post, ps = pre ++ p :: post /\
        flatten_publickey ks [] = Done (filter (fun p => key_tag (pkt_tag p) = true) pre) /\
        (ks = [] \/ is_uid_tag (pkt_tag p) = true)
    end.
Proof.
  intros ps. apply (parse_keys_correct ps); try (apply (bool_decide_unpack _); vm_compute; exact I).
Defined.

(** The error code of an orphan packet is indistinguishable from a count:
    a list that starts with a user id, a subkey or a signature makes
    [parse_keys] return 3 and no key, the result of having parsed three keys. *)
Theorem parse_keys_error_is_three p ps :
  wf_packet p -> key_tag (pkt_tag p) = true -> pkt_tag p <> OPENPGP_PACKET_PUBLICKEY ->
  parse_keys (p :: ps) [] = Done ([], 3).
Proof.
  intros Hp Hk Hnp. unfold parse_keys, parse_keys_status. cbn [removelast last parse_loop].
  unfold key_tag, is_uid_tag in Hk. tag_cases p; try done.
Qed.

Lemma parse_keys_error_is_three_witness :
  parse_keys [mkPacket OPENPGP_PACKET_UID true 1 [65]] [] = Done ([], 3).
Proof. by apply parse_keys_error_is_three; try (apply (bool_decide_unpack _); vm_compute; exact I). Defined.
