(* ===== verification/KeyId.v ===== *)
(** Key ids and fingerprints (keyid.c), over hash functions that are a
    parameter: the program takes them from libnettle, or from its own md5.c and
    sha1.c. *)

From S2P Require Import Prelude OpenPGP Streams.

(** * The hash functions

    [hash algo m] is the digest that [xxx_init], a sequence of [xxx_update]
    whose arguments concatenate to [m], and [xxx_digest] compute for the
    OpenPGP hash algorithm number [algo]. *)
Definition digest_size (algo : Z) : Z :=
  if algo =? OPENPGP_HASH_MD5 then 16
  else if algo =? OPENPGP_HASH_SHA1 then 20
  else if algo =? OPENPGP_HASH_RIPEMD160 then 20
  else if algo =? OPENPGP_HASH_SHA1X then 40
  else if algo =? OPENPGP_HASH_SHA256 then 32
  else if algo =? OPENPGP_HASH_SHA384 then 48
  else if algo =? OPENPGP_HASH_SHA512 then 64
  else if algo =? OPENPGP_HASH_SHA224 then 28
  else 0.

Class Hashes : Type := {
  hash : Z -> list Z -> list Z;
  hash_size : forall algo m, zlen (hash algo m) = digest_size algo;
  hash_bytes : forall algo m, Forall byte (hash algo m)
}.

(** The build options that select code: HAVE_NETTLE, NETTLE_WITH_RIPEMD160,
    HAVE_CRYPTO and WORDS_BIGENDIAN. *)
Class BuildConfig : Type := {
  have_nettle : bool;
  have_ripemd160 : bool;
  have_crypto : bool;
  words_bigendian : bool
}.

(** * Key ids *)

(** [fp] is read up to the index the version of the fingerprint implies. *)
Definition fingerprint2keyid (fingerprint : openpgp_fingerprint) : outcome Z :=
  if fp_length fingerprint =? 20 then rd_be (fp_bytes fingerprint) 12 8 0
  else if fp_length fingerprint =? 32 then rd_be (fp_bytes fingerprint) 0 8 0
  else Done (u64 (-1)).

Section KeyId.
Context {HF : Hashes} {BC : BuildConfig}.

(** Octets of an MPI whose two length octets stand at offset [o]. *)
Definition mpi_octets (data : list Z) (o : Z) : outcome Z :=
  h ← data.[o];
  l ← data.[o + 1];
  Done (Z.shiftr (Z.shiftl h 8 + l + 7) 3).

Definition get_fingerprint (packet : openpgp_packet)
    : outcome (onak_status_t * openpgp_fingerprint) :=
  let data := pkt_data packet in
  let length := pkt_length packet in
  d0 ← data.[0];
  if (d0 =? 2) || (d0 =? 3) then
    modlen ← mpi_octets data 8;
    m ← memcpy_from data 10 modlen;
    explen ← mpi_octets data (10 + modlen);
    e ← memcpy_from data (12 + modlen) explen;
    Done (ONAK_E_OK, mkFingerprint 16 (hash OPENPGP_HASH_MD5 (m ++ e)))
  else if d0 =? 4 then
    body ← memcpy_from data 0 length;
    Done (ONAK_E_OK, mkFingerprint 20 (hash OPENPGP_HASH_SHA1
      ([0x99; u8 (Z.shiftr length 8); u8 (Z.land length 0xFF)] ++ body)))
  else if (d0 =? 5) && have_nettle then
    body ← memcpy_from data 0 length;
    Done (ONAK_E_OK, mkFingerprint 32 (hash OPENPGP_HASH_SHA256
      ([0x9A; u8 (Z.shiftr length 24); u8 (Z.shiftr length 16); u8 (Z.shiftr length 8);
        u8 (Z.land length 0xFF)] ++ body)))
  else Done (ONAK_E_UNKNOWN_VER, mkFingerprint 0 []).

(** The key id of a version 2 or 3 key: RIPEMD160 of an Elgamal key, the low
    64 bits of the modulus of an RSA key. *)
Definition get_v3_packetid (packet : openpgp_packet) : outcome (onak_status_t * option Z) :=
  let data := pkt_data packet in
  let length := pkt_length packet in
  d7 ← data.[7];
  if have_ripemd160 && (d7 =? 16) then
    body ← memcpy_from data 0 length;
    id ← fingerprint2keyid (mkFingerprint 20 (hash OPENPGP_HASH_RIPEMD160
           ([0x99; u8 (Z.shiftr length 8); u8 (Z.land length 0xFF)] ++ body)));
    Done (ONAK_E_OK, Some id)
  else if (d7 <? 1) || (3 <? d7) then Done (ONAK_E_INVALID_PKT, None)
  else
    h ← data.[8];
    l ← data.[9];
    let offset := (Z.shiftl h 8 + l + 7) / 8 + 2 in
    id ← rd_be data offset 8 0;
    Done (ONAK_E_OK, Some id).

(** The status, and what was stored in [*keyid], if anything was. *)
Definition get_packetid (packet : openpgp_packet) : outcome (onak_status_t * option Z) :=
  d0 ← (pkt_data packet).[0];
  if (d0 =? 2) || (d0 =? 3) then get_v3_packetid packet
  else if (d0 =? 4) || (d0 =? 5) then
    '(_, fp) ← get_fingerprint packet;
    id ← fingerprint2keyid fp;
    Done (ONAK_E_OK, Some id)
  else Done (ONAK_E_UNKNOWN_VER, None).

Definition get_keyid (key : openpgp_publickey) : outcome (onak_status_t * option Z) :=
  get_packetid (pk_publickey key).

End KeyId.

(** * Hexadecimal SKS hashes *)

Definition hexdigit (c : Z) : Z :=
  if (48 <=? c) && (c <=? 57) then u8 (c - 48)
  else if (97 <=? c) && (c <=? 102) then u8 (c - 97 + 10)
  else if (65 <=? c) && (c <=? 70) then u8 (c - 65 + 10)
  else 0.

(** The loop of [parse_skshash] from index [i]; [search] is the string without
    its terminator, which an odd length makes the loop read. *)
Fixpoint parse_skshash_loop (fuel : nat) (search : list Z) (i : Z) (h : list Z)
    : outcome (list Z) :=
  if i <? zlen search then
    match fuel with
    | O => Fault OutOfFuel
    | S fuel =>
        hi ← (search ++ [0]).[i];
        lo ← (search ++ [0]).[i + 1];
        h ← memcpy_to h (Z.shiftr i 1) [u8 (Z.shiftl (hexdigit hi) 4 + hexdigit lo)];
        parse_skshash_loop fuel search (i + 2) h
    end
  else Done h.

(** Returns 0 without touching the hash when the string is too long. *)
Definition parse_skshash (search h : list Z) : outcome (Z * list Z) :=
  if 32 <? zlen search then Done (0, h)
  else h ← parse_skshash_loop 17 search 0 h; Done (1, h).

(** * Lemmas *)

Section KeyIdSpec.
Context {HF : Hashes} {BC : BuildConfig}.

Lemma memcpy_whole p : wf_packet p -> memcpy_from (pkt_data p) 0 (pkt_length p) = Done (pkt_data p).
Proof.
  intros [Hl _]. rewrite memcpy_from_ok by (rewrite ?Hl; auto with onak lia).
  unfold zlen in Hl. rewrite Hl, Nat2Z.id, drop_0, firstn_all. done.
Qed.

Lemma get_fingerprint_v4 p :
  wf_packet p -> (pkt_data p).[0] = Done 4 ->
  get_fingerprint p = Done (ONAK_E_OK, mkFingerprint 20 (hash OPENPGP_HASH_SHA1
    (0x99 :: drop 2 (htonl_bytes (pkt_length p)) ++ pkt_data p))).
Proof.
  intros Hp H0. unfold get_fingerprint. rewrite H0. cbn [mbind outcome_bind Z.eqb Pos.eqb orb].
  rewrite memcpy_whole by done. cbn [mbind outcome_bind app htonl_bytes drop].
  by rewrite u8_land_ff by (rewrite wf_packet_len; auto with onak).
Qed.

Lemma get_fingerprint_v5 p :
  have_nettle = true -> wf_packet p -> (pkt_data p).[0] = Done 5 ->
  get_fingerprint p = Done (ONAK_E_OK, mkFingerprint 32 (hash OPENPGP_HASH_SHA256
    (0x9A :: htonl_bytes (pkt_length p) ++ pkt_data p))).
Proof.
  intros Hn Hp H0. unfold get_fingerprint. rewrite H0. cbn [mbind outcome_bind Z.eqb Pos.eqb orb].
  rewrite Hn. cbn [andb]. rewrite memcpy_whole by done. cbn [mbind outcome_bind app htonl_bytes drop].
  by rewrite u8_land_ff by (rewrite wf_packet_len; auto with onak).
Qed.

Lemma fingerprint2keyid_total fp :
  Forall byte (fp_bytes fp) -> fp_length fp <= zlen (fp_bytes fp) ->
  exists id, fingerprint2keyid fp = Done id /\ 0 <= id < 2 ^ 64.
Proof.
  intros Hb Hl. unfold fingerprint2keyid.
  assert (Hv : forall o, 0 <= o -> o + 8 <= zlen (fp_bytes fp) ->
    exists id, rd_be (fp_bytes fp) o 8 0 = Done id /\ 0 <= id < 2 ^ 64).
  { intros o Ho Ho8. rewrite rd_be_8 by done. eexists. split; [done|].
    pose proof (be_value_bound (take 8 (drop (Z.to_nat o) (fp_bytes fp)))) as Hbv.
    unfold zlen in *. rewrite length_take, length_drop in Hbv.
    replace (Z.of_nat (8 `min` (length (fp_bytes fp) - Z.to_nat o))) with 8 in Hbv by lia.
    change (256 ^ 8) with (2 ^ 64) in Hbv. by apply Hbv, Forall_take, Forall_drop. }
  destruct (Z.eqb_spec (fp_length fp) 20); [apply Hv; lia|].
  destruct (Z.eqb_spec (fp_length fp) 32); [apply Hv; lia|].
  eexists. split; [done|]. unfold u64. apply Z.mod_pos_bound. lia.
Qed.

End KeyIdSpec.

(** * Properties *)

(** The key id of a version 4 key is the low 64 bits of its fingerprint,
    the SHA-1 of 0x99, the 16-bit length and the packet body; that of a version
    5 key the high 64 bits of the SHA-256 of 0x9A, the 32-bit length and the
    body. *)
Theorem packetid_of_fingerprint {HF : Hashes} {BC : BuildConfig} p v :
  wf_packet p -> (pkt_data p).[0] = Done v -> v = 4 \/ (v = 5 /\ have_nettle = true) ->
  let fp := if v =? 4
    then hash OPENPGP_HASH_SHA1 (0x99 :: drop 2 (htonl_bytes (pkt_length p)) ++ pkt_data p)
    else hash OPENPGP_HASH_SHA256 (0x9A :: htonl_bytes (pkt_length p) ++ pkt_data p) in
  get_fingerprint p = Done (ONAK_E_OK, mkFingerprint (if v =? 4 then 20 else 32) fp) /\
  get_packetid p = Done (ONAK_E_OK,
    Some (be_value (if v =? 4 then drop 12 fp else take 8 fp))).
Proof.
  intros Hp H0 Hv fp. assert (Hfp : zlen fp = if v =? 4 then 20 else 32).
  { unfold fp. destruct Hv as [-> | [-> _]]; apply hash_size. }
  assert (Hb : Forall byte fp) by (unfold fp; case_if; apply hash_bytes).
  assert (Hg : get_fingerprint p = Done (ONAK_E_OK, mkFingerprint (if v =? 4 then 20 else 32) fp)).
  { destruct Hv as [-> | [-> Hn]]; [by apply get_fingerprint_v4 | by apply get_fingerprint_v5]. }
  split; [done|]. unfold get_packetid. rewrite H0, Hg. cbn [mbind outcome_bind].
  destruct Hv as [-> | [-> Hn]]; cbn [Z.eqb Pos.eqb orb mbind outcome_bind] in *;
    unfold fingerprint2keyid; cbn [fp_length fp_bytes Z.eqb Pos.eqb];
    rewrite rd_be_8 by (done || lia); cbn [mbind outcome_bind].
  - change (Z.to_nat 12) with 12%nat. rewrite take_ge; [done|].
    unfold zlen in Hfp. rewrite length_drop. lia.
  - done.
Qed.

(** The key id of a version 2 or 3 RSA key whose packet holds the whole
    modulus, of at least 64 bits, is the modulus modulo 2^64. *)
Theorem packetid_v3_modulus {HF : Hashes} {BC : BuildConfig} p hdr h l modulus rest :
  wf_packet p -> pkt_data p = hdr ++ h :: l :: modulus ++ rest ->
  zlen hdr = 8 -> (hdr.[0] = Done 2 \/ hdr.[0] = Done 3) ->
  (exists alg, hdr.[7] = Done alg /\ 1 <= alg <= 3) ->
  zlen modulus = (h * 256 + l + 7) / 8 -> 8 <= zlen modulus ->
  get_packetid p = Done (ONAK_E_OK, Some (be_value modulus mod 2 ^ 64)).
Proof.
  intros [_ Hb] Hd Hh H0 (alg & H7 & Halg) Hm H8. unfold get_packetid, get_v3_packetid.
  assert (Hpre : forall i, 0 <= i < 8 -> (pkt_data p).[i] = hdr.[i])
    by (intros; rewrite Hd, rd_app_l by lia; done).
  assert (E8 : (pkt_data p).[8] = Done h) by (rewrite Hd, rd_app_r by lia; by rewrite Hh).
  assert (E9 : (pkt_data p).[9] = Done l) by (rewrite Hd, rd_app_r by lia; by rewrite Hh).
  rewrite (Hpre 0), (Hpre 7), H7, E8, E9 by lia.
  assert (Hv : exists v, hdr.[0] = Done v /\ ((v =? 2) || (v =? 3)) = true)
    by (destruct H0 as [-> | ->]; eauto).
  destruct Hv as (v & -> & Hv). cbn [mbind outcome_bind]. rewrite Hv.
  destruct (Z.eqb_spec alg 16); [lia|]. rewrite andb_false_r.
  destruct (Z.ltb_spec alg 1); [lia|]. destruct (Z.ltb_spec 3 alg); [lia|]. cbn [orb mbind outcome_bind].
  rewrite shiftl_8, <- Hm. set (o := zlen modulus + 2).
  set (hi := take (length modulus - 8) modulus). set (lo := drop (length modulus - 8) modulus).
  assert (Hml : modulus = hi ++ lo) by (symmetry; apply take_drop).
  assert (Hlo : length lo = 8%nat) by (unfold lo, zlen in *; rewrite length_drop; lia).
  assert (Hdrop : drop (Z.to_nat o) (pkt_data p) = lo ++ rest).
  { rewrite Hd, Hml. rewrite <- app_assoc.
    replace (hdr ++ h :: l :: hi ++ lo ++ rest) with ((hdr ++ h :: l :: hi) ++ lo ++ rest)
      by (rewrite <- app_assoc; done).
    rewrite drop_app_length'; [done|]. rewrite length_app. cbn [length].
    unfold hi, o, zlen in *. rewrite length_take. lia. }
  rewrite rd_be_8; [|done | unfold o; lia |].
  2: { rewrite Hd. autorewrite with onak. pose proof (zlen_nonneg rest). unfold o. lia. }
  rewrite Hdrop, take_app_length' by done. cbn [mbind outcome_bind]. do 3 f_equal.
  assert (Hbm : Forall byte lo).
  { rewrite Hd, Hml in Hb. rewrite !Forall_app in Hb. destruct Hb as [_ Hb].
    apply Forall_cons_1 in Hb as [_ Hb]. apply Forall_cons_1 in Hb as [_ Hb].
    rewrite !Forall_app in Hb. tauto. }
  rewrite Hml, be_value_app. unfold zlen. rewrite Hlo. change (256 ^ Z.of_nat 8) with (2 ^ 64).
  rewrite Z.add_comm, Z.mod_add by lia. symmetry. apply Z.mod_small.
  pose proof (be_value_bound lo Hbm) as Hbv. unfold zlen in Hbv. by rewrite Hlo in Hbv.
Qed.

(** A toy instance of the parameters: a checksum spread over the digest. *)
Definition toy_digest (algo : Z) (m : list Z) : list Z :=
  map (fun i => u8 (foldl (fun a b => a * 31 + b + i) 7 m)) (seqZ 0 (digest_size algo)).

Lemma digest_size_nonneg algo : 0 <= digest_size algo.
Proof. unfold digest_size. repeat case_if; lia. Qed.

Lemma toy_digest_size algo m : zlen (toy_digest algo m) = digest_size algo.
Proof.
  unfold toy_digest, zlen. rewrite length_map, length_seqZ. pose proof (digest_size_nonneg algo). lia.
Qed.

Lemma toy_digest_bytes algo m : Forall byte (toy_digest algo m).
Proof. unfold toy_digest. apply Forall_map, Forall_true. auto with onak. Qed.

Definition toy_hashes : Hashes := {|
  hash := toy_digest; hash_size := toy_digest_size; hash_bytes := toy_digest_bytes |}.

Definition full_build : BuildConfig := {| have_nettle := true; have_ripemd160 := true; have_crypto := true; words_bigendian := false |}.

Lemma packetid_of_fingerprint_witness :
  let p := mkPacket OPENPGP_PACKET_PUBLICKEY true 6 [5; 0; 0; 0; 1; 1] in
  let fp := @hash toy_hashes OPENPGP_HASH_SHA256 (0x9A :: htonl_bytes 6 ++ pkt_data p) in
  @get_fingerprint toy_hashes full_build p = Done (ONAK_E_OK, mkFingerprint 32 fp) /\
  @get_packetid toy_hashes full_build p = Done (ONAK_E_OK, Some (be_value (take 8 fp))).
Proof.
  intros p fp. apply (@packetid_of_fingerprint toy_hashes full_build p 5).
  - apply (bool_decide_unpack _). vm_compute. exact I.
  - reflexivity.
  - right. split; reflexivity.
Defined.

Lemma packetid_v3_modulus_witness :
  let p := mkPacket OPENPGP_PACKET_PUBLICKEY false 22
             ([3; 0; 0; 0; 0; 0; 0; 1] ++ 0 :: 72 :: [255; 1; 2; 3; 4; 5; 6; 7; 8] ++ [0; 2; 3]) in
  @get_packetid toy_hashes full_build p = Done (ONAK_E_OK, Some 0x0102030405060708).
Proof.
  intros p. apply (@packetid_v3_modulus toy_hashes full_build p [3; 0; 0; 0; 0; 0; 0; 1] 0 72
    [255; 1; 2; 3; 4; 5; 6; 7; 8] [0; 2; 3]);
    try reflexivity; try (apply (bool_decide_unpack _); vm_compute; exact I).
  exists 1. split; [reflexivity | lia].
Defined.

(** Upper and lower case hexadecimal, as a key id or hash is printed. *)
Definition hex_digit (upper : bool) (x : Z) : Z :=
  if x <? 10 then 48 + x else if upper then 55 + x else 87 + x.

Definition hex_of_bytes (upper : bool) (bs : list Z) : list Z :=
  concat (map (fun b => [hex_digit upper (b / 16); hex_digit upper (b mod 16)]) bs).

(** [%0nX] of a number that has at most [n] digits, and its last [n] otherwise. *)
Fixpoint hexn (n : nat) (x : Z) : list Z :=
  match n with
  | O => []
  | S n => hexn n (x / 16) ++ [hex_digit true (x mod 16)]
  end.

Lemma hexdigit_hex_digit u x : 0 <= x < 16 -> hexdigit (hex_digit u x) = x.
Proof. destruct u; revert x; by_range. Qed.

Lemma zlen_hex u bs : zlen (hex_of_bytes u bs) = 2 * zlen bs.
Proof.
  unfold hex_of_bytes. induction bs as [|b bs IH]; [done|].
  cbn [map concat]. autorewrite with onak. lia.
Qed.

(** The loop behind [done] bytes writes the rest of the hash in place. *)
Lemma parse_skshash_loop_hex u done todo pad h fuel :
  Forall byte todo -> length h = (length todo + length pad)%nat -> (length todo < fuel)%nat ->
  (exists old, length old = length todo /\ h = old ++ pad) ->
  parse_skshash_loop fuel (hex_of_bytes u (done ++ todo)) (2 * zlen done) (done ++ h)
    = Done (done ++ todo ++ pad).
Proof.
  intros Hb. revert done h fuel. induction Hb as [|b todo Hb Hbs IH]; intros done h fuel Hl Hf (old & Ho & ->).
  - destruct old; [|done]. rewrite app_nil_r. destruct fuel; cbn [parse_skshash_loop];
      rewrite zlen_hex, Z.ltb_irrefl; done.
  - destruct old as [|o old]; [done|]. destruct fuel as [|fuel]; [cbn in Hf; lia|].
    cbn [parse_skshash_loop]. pose proof (zlen_nonneg todo).
    rewrite zlen_hex, zlen_app, zlen_cons. destruct (Z.ltb_spec (2 * zlen done) (2 * (zlen done + (1 + zlen todo)))); [|lia].
    assert (Hb16 : 0 <= b / 16 < 16 /\ 0 <= b mod 16 < 16)
      by (unfold byte in Hb; split; Z.div_mod_to_equations; lia).
    assert (Hs : hex_of_bytes u (done ++ b :: todo) = hex_of_bytes u done
        ++ hex_digit u (b / 16) :: hex_digit u (b mod 16) :: hex_of_bytes u todo)
      by (unfold hex_of_bytes; by rewrite map_app, concat_app).
    rewrite Hs, <- !app_assoc. cbn [app].
    rewrite rd_app_r, zlen_hex by (rewrite zlen_hex; lia). rewrite rd_app_r, zlen_hex by (rewrite zlen_hex; lia).
    replace (2 * zlen done - 2 * zlen done) with 0 by lia.
    replace (2 * zlen done + 1 - 2 * zlen done) with 1 by lia.
    rewrite rd_cons_0, rd_cons_1. cbn [mbind outcome_bind].
    rewrite !hexdigit_hex_digit by tauto.
    replace (u8 (Z.shiftl (b / 16) 4 + b mod 16)) with b.
    2: { rewrite Z.shiftl_mul_pow2 by lia. change (2 ^ 4) with 16. unfold byte in Hb.
         rewrite u8_small by (unfold byte; Z.div_mod_to_equations; lia). Z.div_mod_to_equations; lia. }
    replace (Z.shiftr (2 * zlen done) 1) with (zlen done)
      by (rewrite Z.shiftr_div_pow2 by lia; change (2 ^ 1) with 2; Z.div_mod_to_equations; lia).
    rewrite memcpy_to_ok by (autorewrite with onak; pose proof (zlen_nonneg old); pose proof (zlen_nonneg pad); pose proof (zlen_nonneg done); lia).
    cbn [mbind outcome_bind]. replace (Z.to_nat (zlen done)) with (length done) by (unfold zlen; lia). rewrite take_app_length.
    replace (drop (length done + length [b]) (done ++ o :: old ++ pad)) with (old ++ pad)
      by (rewrite drop_app_ge by lia; cbn [length]; by replace (length done + 1 - length done)%nat with 1%nat by lia).
    specialize (IH (done ++ [b]) (old ++ pad) fuel). rewrite <- !app_assoc in IH. cbn [app] in IH.
    rewrite <- Hs, <- IH.
    + f_equal. autorewrite with onak. lia.
    + cbn in Hl. rewrite length_app in *. lia.
    + cbn in Hf. lia.
    + exists old. cbn in Ho. auto with lia.
Qed.

(** Parsing the hexadecimal form of a 16-byte SKS hash, in either case,
    gives the hash back, whatever the buffer held before. *)
Theorem skshash_hex_roundtrip u bs old :
  Forall byte bs -> length bs = 16%nat -> length old = 16%nat ->
  parse_skshash (hex_of_bytes u bs) old = Done (1, bs).
Proof.
  intros Hb Hl Ho. unfold parse_skshash. rewrite zlen_hex.
  destruct (Z.ltb_spec 32 (2 * zlen bs)); [unfold zlen in *; lia|].
  pose proof (parse_skshash_loop_hex u [] bs [] old 17 Hb) as E. cbn [app] in E. change (2 * zlen (@nil Z)) with 0 in E.
  rewrite E; [cbn; by rewrite app_nil_r | cbn; lia | lia |].
  exists old. rewrite app_nil_r. split; [lia | done].
Qed.

Lemma skshash_hex_roundtrip_witness :
  parse_skshash (hex_of_bytes false (seqZ 200 16)) (replicate 16 0) = Done (1, seqZ 200 16).
Proof.
  apply (skshash_hex_roundtrip false (seqZ 200 16));
    try reflexivity; apply (bool_decide_unpack _); vm_compute; exact I.
Defined.
