(* ===== verification/Decode.v ===== *)
(** Decoding of keys and signatures (decodekey.c): signature subpackets, the
    signer and creation time of a signature, user id strings, subkey
    fingerprints and curve object identifiers. *)

From S2P Require Import Prelude OpenPGP Streams KeyId.

(** * Out parameters

    [None] is a NULL pointer, [Some None] points to a variable that was not
    initialised, [Some (Some v)] to one that holds [v]. *)
Definition out : Type := option (option Z).

Definition store (p : out) (v : Z) : out :=
  match p with
  | None => None
  | Some _ => Some (Some v)
  end.

Definition non_null (p : out) : bool :=
  match p with None => false | Some _ => true end.

(** * Subpackets *)

(** The subpacket types the parser knows and ignores. *)
Definition sigsub_ignored : list Z :=
  [3; 4; 5; 6; 7; 9; 8; 10; 11; 12; 17; 18; 19; 20; 21; 22; 23; 24; 25; 26; 27; 28; 29; 30; 31; 32].

(** The length of a subpacket, in one of its three forms, and the offset of
    its type octet; [None] when the five-octet form does not fit. *)
Definition subpacket_length (data : list Z) (offset length : Z) : outcome (option (Z * Z)) :=
  packetlen ← data.[offset];
  let offset := u32 (offset + 1) in
  if (191 <? packetlen) && (packetlen <? 255) then
    b ← data.[offset];
    Done (Some (u32 (Z.shiftl (packetlen - 192) 8 + b + 192), u32 (offset + 1)))
  else if packetlen =? 255 then
    if length <? u32 (offset + 5) then Done None
    else
      b0 ← data.[offset];
      b1 ← data.[offset + 1];
      b2 ← data.[offset + 2];
      b3 ← data.[offset + 3];
      let acc x b := Z.lor (u32 (Z.shiftl x 8)) b in
      Done (Some (acc (acc (acc b0 b1) b2) b3, u32 (offset + 4)))
  else Done (Some (packetlen, offset)).

(** [fp.fp[i] = data[offset + i + 2]] for every [i] below [fp.length]. *)
Fixpoint read_fp (data : list Z) (o : Z) (n : nat) : outcome (list Z) :=
  match n with
  | O => Done []
  | S n => b ← data.[o]; bs ← read_fp data (o + 1) n; Done (b :: bs)
  end.

(** The [switch] on the subpacket type, for a subpacket of [packetlen] octets
    from the type octet at [offset] on. *)
Definition subpacket_body (data : list Z) (offset packetlen : Z) (keyid creation : out)
    : outcome (onak_status_t * out * out) :=
  t ← data.[offset];
  let type := Z.land t 0x7F in
  if type =? OPENPGP_SIGSUB_CREATION then
    if packetlen <? 5 then Done (ONAK_E_INVALID_PKT, keyid, creation)
    else if non_null creation then
      c ← rd_be data (offset + packetlen - 4) 4 0;
      Done (ONAK_E_OK, keyid, store creation c)
    else Done (ONAK_E_OK, keyid, creation)
  else if type =? OPENPGP_SIGSUB_ISSUER then
    if packetlen <? 9 then Done (ONAK_E_INVALID_PKT, keyid, creation)
    else if non_null keyid then
      k ← rd_be data (offset + packetlen - 8) 8 0;
      Done (ONAK_E_OK, store keyid k, creation)
    else Done (ONAK_E_OK, keyid, creation)
  else if type =? OPENPGP_SIGSUB_ISSUER_FINGER then
    if (u32 (packetlen - 2) <=? MAX_FINGERPRINT_LEN) && non_null keyid then
      let n := u32 (packetlen - 2) in
      fp ← read_fp data (offset + 2) (Z.to_nat n);
      k ← fingerprint2keyid (mkFingerprint n fp);
      Done (ONAK_E_OK, store keyid k, creation)
    else Done (ONAK_E_OK, keyid, creation)
  else if bool_decide (type ∈ sigsub_ignored) then Done (ONAK_E_OK, keyid, creation)
  else if Z.land t 0x80 =? 0 then Done (ONAK_E_OK, keyid, creation)
  else Done (ONAK_E_UNSUPPORTED_FEATURE, keyid, creation).

Fixpoint subpackets_loop (fuel : nat) (data : list Z) (offset length : Z) (keyid creation : out)
    : outcome (onak_status_t * out * out) :=
  if u32 (offset + 2) <? length then
    match fuel with
    | O => Fault OutOfFuel
    | S fuel =>
        lo ← subpacket_length data offset length;
        match lo with
        | None => Done (ONAK_E_INVALID_PKT, keyid, creation)
        | Some (packetlen, offset) =>
            if (packetlen =? 0) || (u32 (length - offset) <? packetlen)
            then Done (ONAK_E_INVALID_PKT, keyid, creation)
            else
              '(rc, keyid, creation) ← subpacket_body data offset packetlen keyid creation;
              if status_ok rc
              then subpackets_loop fuel data (u32 (offset + packetlen)) length keyid creation
              else Done (rc, keyid, creation)
        end
    end
  else Done (ONAK_E_OK, keyid, creation).

(** The status, the value stored in [*parselen] if any, and the two out
    parameters.  [data] is what is left of the buffer from the pointer on. *)
Definition parse_subpackets (data : list Z) (len : Z) (keyid creation : out)
    : outcome (onak_status_t * option Z * out * out) :=
  if len <? 4 then Done (ONAK_E_INVALID_PKT, None, keyid, creation)
  else
    b0 ← data.[0];
    b1 ← data.[1];
    let length := Z.shiftl b0 8 + b1 + 2 in
    if len <? length then Done (ONAK_E_INVALID_PKT, None, keyid, creation)
    else
      '(rc, keyid, creation) ← subpackets_loop (Z.to_nat length) data 2 length keyid creation;
      Done (rc, Some length, keyid, creation).

(** * Signatures *)

(** Version 4 and 5: the hashed area, then the unhashed area when the hashed
    one did not name the signer. *)
Definition sig_info_v4 (packet : openpgp_packet) (keyid creation : out)
    : outcome (onak_status_t * out * out) :=
  let keyid := store keyid 0 in
  '(res, parselen, keyid, creation) ←
    parse_subpackets (drop 4 (pkt_data packet)) (u64 (pkt_length packet - 4)) keyid creation;
  if status_ok res then
    let length := default 0 parselen in
    match keyid with
    | Some c =>
        k ← read_var c;
        if k =? 0 then
          '(res, _, keyid, _) ←
            parse_subpackets (drop (Z.to_nat (length + 4)) (pkt_data packet))
              (u64 (pkt_length packet - (4 + length))) keyid None;
          Done (res, keyid, creation)
        else Done (ONAK_E_OK, keyid, creation)
    | None => Done (ONAK_E_OK, keyid, creation)
    end
  else Done (res, keyid, creation).

Definition sig_info (packet : openpgp_packet) (keyid creation : out)
    : outcome (onak_status_t * out * out) :=
  let data := pkt_data packet in
  d0 ← data.[0];
  if (d0 =? 2) || (d0 =? 3) then
    keyid ← (if non_null keyid then k ← rd_be data 7 8 0; Done (store keyid k) else Done keyid);
    creation ← (if non_null creation then c ← rd_be data 3 4 0; Done (store creation c)
                else Done creation);
    Done (ONAK_E_OK, keyid, creation)
  else if (d0 =? 4) || (d0 =? 5) then sig_info_v4 packet keyid creation
  else Done (ONAK_E_OK, keyid, creation).

(** The status is dropped: a signature that does not parse has key id 0, or
    what was found before the parser gave up. *)
Definition sig_keyid (packet : openpgp_packet) : outcome Z :=
  '(_, keyid, _) ← sig_info packet (Some (Some 0)) None;
  match keyid with
  | Some c => read_var c
  | None => Fault NullDeref
  end.

(** * Lists of a key *)

Definition spsize (l : list openpgp_signedpacket) : Z := i32 (zlen l).

(** [snprintf(buf, n, "%.*s", prec, data)]: at most [prec] bytes, stopping at a
    NUL, cut to [n - 1].  A negative precision counts as omitted, and then the
    bytes have to contain a NUL. *)
Definition snprintf_s (n prec : Z) (data : list Z) : outcome (list Z) :=
  if (0 <=? prec) && (prec <=? zlen data) then
    Done (take (Z.to_nat (n - 1)) (c_string (take (Z.to_nat prec) data)))
  else if bool_decide (0 ∈ data) then Done (take (Z.to_nat (n - 1)) (c_string data))
  else Fault OutOfBounds.

Fixpoint uid_strings (uids : list openpgp_signedpacket) : outcome (list (list Z)) :=
  match uids with
  | [] => Done []
  | u :: uids =>
      let p := sp_packet u in
      if pkt_tag p =? OPENPGP_PACKET_UID then
        s ← snprintf_s 1023 (i32 (pkt_length p)) (pkt_data p);
        rest ← uid_strings uids;
        Done (s :: rest)
      else uid_strings uids
  end.

(** The array of strings ([None] is NULL), and the primary one. *)
Definition keyuids (key : openpgp_publickey)
    : outcome (option (list (list Z)) * option (list Z)) :=
  match pk_uids key with
  | [] => Done (None, None)
  | us => ss ← uid_strings us; Done (Some ss, head ss)
  end.

(** Whatever [get_fingerprint] answers is stored, an unknown version as a
    fingerprint of length 0. *)
Fixpoint subkey_fingerprints {HF : Hashes} {BC : BuildConfig} (l : list openpgp_signedpacket)
    : outcome (list openpgp_fingerprint) :=
  match l with
  | [] => Done []
  | sp :: l =>
      '(_, fp) ← get_fingerprint (sp_packet sp);
      fps ← subkey_fingerprints l;
      Done (fp :: fps)
  end.

(** The array up to and including its terminator. *)
Definition keysubkeys {HF : Hashes} {BC : BuildConfig} (key : openpgp_publickey)
    : outcome (option (list openpgp_fingerprint)) :=
  match pk_subkeys key with
  | [] => Done None
  | l => fps ← subkey_fingerprints l; Done (Some (fps ++ [mkFingerprint 0 []]))
  end.

Fixpoint any_cert_revocation (sigs : list openpgp_packet) : outcome bool :=
  match sigs with
  | [] => Done false
  | s :: sigs =>
      if pkt_length s <? 2 then any_cert_revocation sigs
      else
        d0 ← (pkt_data s).[0];
        if (d0 =? 4) || (d0 =? 5) then
          d1 ← (pkt_data s).[1];
          if d1 =? OPENPGP_SIGTYPE_CERT_REV then Done true else any_cert_revocation sigs
        else any_cert_revocation sigs
  end.

Definition signedpacket_is_revoked (sp : openpgp_signedpacket) : outcome bool :=
  any_cert_revocation (sp_sigs sp).

(** * Curve object identifiers *)

Inductive onak_oid : Type :=
  | ONAK_OID_UNKNOWN
  | ONAK_OID_INVALID
  | ONAK_OID_CURVE25519
  | ONAK_OID_ED25519
  | ONAK_OID_NISTP256
  | ONAK_OID_NISTP384
  | ONAK_OID_NISTP521
  | ONAK_OID_BRAINPOOLP256R1
  | ONAK_OID_BRAINPOOLP384R1
  | ONAK_OID_BRAINPOOLP512R1
  | ONAK_OID_SECP256K1.

#[global] Instance onak_oid_eq_dec : EqDecision onak_oid.
Proof. solve_decision. Defined.

(** [(buf[0] == n) && (buf[1] == b1) && ...], one test per byte. *)
Fixpoint buf_is (buf : list Z) (i : Z) (bs : list Z) : outcome bool :=
  match bs with
  | [] => Done true
  | b :: bs => x ← buf.[i]; if x =? b then buf_is buf (i + 1) bs else Done false
  end.

(** The tests of the if-else chain, in its order. *)
Definition oid_table : list (list Z * onak_oid) :=
  [ ([10; 0x2B; 0x06; 0x01; 0x04; 0x01; 0x97; 0x55; 0x01; 0x05; 0x01], ONAK_OID_CURVE25519);
    ([9; 0x2B; 0x06; 0x01; 0x04; 0x01; 0xDA; 0x47; 0x0F; 0x01], ONAK_OID_ED25519);
    ([8; 0x2A; 0x86; 0x48; 0xCE; 0x3D; 0x03; 0x01; 0x07], ONAK_OID_NISTP256);
    ([5; 0x2B; 0x81; 0x04; 0x00; 0x22], ONAK_OID_NISTP384);
    ([5; 0x2B; 0x81; 0x04; 0x00; 0x23], ONAK_OID_NISTP521);
    ([9; 0x2B; 0x24; 0x03; 0x03; 0x02; 0x08; 0x01; 0x01; 0x07], ONAK_OID_BRAINPOOLP256R1);
    ([9; 0x2B; 0x24; 0x03; 0x03; 0x02; 0x08; 0x01; 0x01; 0x0B], ONAK_OID_BRAINPOOLP384R1);
    ([9; 0x2B; 0x24; 0x03; 0x03; 0x02; 0x08; 0x01; 0x01; 0x0D], ONAK_OID_BRAINPOOLP512R1);
    ([5; 0x2B; 0x81; 0x04; 0x00; 0x0A], ONAK_OID_SECP256K1) ].

Fixpoint oid_chain (table : list (list Z * onak_oid)) (buf : list Z) : outcome onak_oid :=
  match table with
  | [] => Done ONAK_OID_UNKNOWN
  | (bs, oid) :: table => b ← buf_is buf 0 bs; if (b : bool) then Done oid else oid_chain table buf
  end.

Definition onak_parse_oid (buf : list Z) (len : Z) : outcome onak_oid :=
  if len =? 0 then Done ONAK_OID_INVALID
  else
    b0 ← buf.[0];
    if len <=? b0 then Done ONAK_OID_INVALID
    else oid_chain oid_table buf.

(** * Memory safety and termination of the parsers *)

(** [p'] is what an out parameter [p] may have become: the same pointer, and
    a 64-bit value if it held one before or was written. *)
Definition u64_out (p : out) : Prop :=
  match p with Some (Some v) => 0 <= v < 2 ^ 64 | _ => True end.

Definition out_after (p p' : out) : Prop :=
  non_null p' = non_null p /\ u64_out p' /\
  ((exists v, p = Some (Some v)) -> exists v, p' = Some (Some v)).

Lemma out_after_refl p : u64_out p -> out_after p p.
Proof. intros. by repeat split. Qed.

Lemma out_after_trans p q r : out_after p q -> out_after q r -> out_after p r.
Proof. intros (? & ? & ?) (? & ? & ?). split; [congruence|]. auto. Qed.

Lemma out_after_store p v : 0 <= v < 2 ^ 64 -> out_after p (store p v).
Proof. intros. destruct p; repeat split; cbn; naive_solver. Qed.

Lemma out_after_u64 p q : out_after p q -> u64_out q.
Proof. by intros (_ & ? & _). Qed.

(** What a piece of the parser does to an out parameter, whatever it points
    to: nothing, or a store. *)
Definition upd (p : out) (u : option Z) : out :=
  match u with None => p | Some v => store p v end.

Definition then_upd (u u' : option Z) : option Z :=
  match u' with None => u | Some v => Some v end.

Definition u64_upd (u : option Z) : Prop :=
  match u with Some v => 0 <= v < 2 ^ 64 | None => True end.

Lemma upd_upd p u u' : upd (upd p u) u' = upd p (then_upd u u').
Proof. by destruct p, u, u'. Qed.

Lemma u64_then_upd u u' : u64_upd u -> u64_upd u' -> u64_upd (then_upd u u').
Proof. by destruct u'. Qed.

Lemma upd_null u : upd None u = None.
Proof. by destruct u. Qed.

Lemma out_after_upd p u : u64_out p -> u64_upd u -> out_after p (upd p u).
Proof. destruct u; cbn; auto using out_after_refl, out_after_store. Qed.

#[export] Hint Resolve out_after_refl out_after_store out_after_upd u64_then_upd : onak.

Lemma rd_be_range d o n acc :
  Forall byte d -> 0 <= o -> o + Z.of_nat n <= zlen d -> 0 <= acc < 2 ^ 64 ->
  exists v, rd_be d o n acc = Done v /\ 0 <= v < 2 ^ 64.
Proof.
  intros Hd. revert o acc. induction n as [|n IH]; intros o acc Ho Hl Hacc; [by exists acc|].
  cbn [rd_be]. destruct (rd_ok d o) as [b ->]; [lia|]. cbn [mbind outcome_bind].
  apply IH; [lia | lia |]. apply Z.mod_pos_bound. lia.
Qed.

Lemma read_fp_ok data o n :
  Forall byte data -> 0 <= o -> o + Z.of_nat n <= zlen data ->
  exists fp, read_fp data o n = Done fp /\ length fp = n /\ Forall byte fp.
Proof.
  intros Hd. revert o. induction n as [|n IH]; intros o Ho Hl; [by exists []|].
  cbn [read_fp]. destruct (rd_ok_byte data o) as (b & -> & Hb); [done | lia |]. cbn [mbind outcome_bind].
  destruct (IH (o + 1)) as (fp & -> & Hfp & Hfb); [lia | lia |]. cbn [mbind outcome_bind].
  exists (b :: fp). cbn. auto.
Qed.

(** The three ways the [switch] ends, as updates. *)
Lemma body_skip (rc : onak_status_t) : exists rc' uk uc, u64_upd uk /\ u64_upd uc /\
  forall k c : out, Done (rc, k, c) = Done (rc', upd k uk, upd c uc).
Proof. by exists rc, None, None. Qed.

Lemma body_creation v : 0 <= v < 2 ^ 64 -> exists rc' uk uc, u64_upd uk /\ u64_upd uc /\
  forall k c : out, (if non_null c then Done (ONAK_E_OK, k, store c v) else Done (ONAK_E_OK, k, c))
    = Done (rc', upd k uk, upd c uc).
Proof. intros. exists ONAK_E_OK, None, (Some v). split; [done|]. split; [done|]. by intros k [c|]. Qed.

Lemma body_keyid v : 0 <= v < 2 ^ 64 -> exists rc' uk uc, u64_upd uk /\ u64_upd uc /\
  forall k c : out, (if non_null k then Done (ONAK_E_OK, store k v, c) else Done (ONAK_E_OK, k, c))
    = Done (rc', upd k uk, upd c uc).
Proof. intros. exists ONAK_E_OK, (Some v), None. split; [done|]. split; [done|]. by intros [k|] c. Qed.

Lemma subpacket_body_upd data offset packetlen :
  Forall byte data -> 0 <= offset -> 1 <= packetlen -> offset + packetlen <= zlen data ->
  packetlen < 2 ^ 32 ->
  exists rc uk uc, u64_upd uk /\ u64_upd uc /\ forall k c,
    subpacket_body data offset packetlen k c = Done (rc, upd k uk, upd c uc).
Proof.
  intros Hd Ho Hp Hl Hp32. unfold subpacket_body.
  destruct (rd_ok data offset) as [t ->]; [lia|]. cbn [mbind outcome_bind].
  case_if.
  { destruct (Z.ltb_spec packetlen 5); [apply body_skip|].
    destruct (rd_be_range data (offset + packetlen - 4) 4 0) as (v & -> & Hv); [done | lia | lia | lia |].
    by apply body_creation. }
  case_if.
  { destruct (Z.ltb_spec packetlen 9); [apply body_skip|].
    destruct (rd_be_range data (offset + packetlen - 8) 8 0) as (v & -> & Hv); [done | lia | lia | lia |].
    by apply body_keyid. }
  case_if.
  { destruct (Z.leb_spec (u32 (packetlen - 2)) MAX_FINGERPRINT_LEN) as [Hn|]; [|apply body_skip].
    assert (Hu : 0 <= u32 (packetlen - 2) /\ u32 (packetlen - 2) + 2 <= packetlen).
    { unfold u32, MAX_FINGERPRINT_LEN in *.
      destruct (Z.eq_dec packetlen 1) as [->|]; [exfalso; by apply Hn|].
      rewrite Z.mod_small by lia. lia. }
    destruct (read_fp_ok data (offset + 2) (Z.to_nat (u32 (packetlen - 2)))) as (fp & -> & Hfl & Hfb);
      [done | lia | lia |].
    destruct (fingerprint2keyid_total (mkFingerprint (u32 (packetlen - 2)) fp)) as (id & Hfp & Hid);
      [done | cbn; unfold zlen; lia |]. cbn [mbind outcome_bind andb]. rewrite Hfp.
    by apply body_keyid. }
  repeat case_if; apply body_skip.
Qed.

Lemma lor_shift_bound x b : 0 <= x -> byte b -> 0 <= Z.lor (u32 (Z.shiftl x 8)) b < 2 ^ 32.
Proof.
  intros Hx Hb. assert (0 <= u32 (Z.shiftl x 8) < 2 ^ 32) by (apply Z.mod_pos_bound; lia).
  unfold byte in Hb. assert (Hn : 0 <= Z.lor (u32 (Z.shiftl x 8)) b) by (apply Z.lor_nonneg; lia).
  split; [done|]. destruct (Z.eq_dec (Z.lor (u32 (Z.shiftl x 8)) b) 0) as [->|]; [lia|].
  apply Z.log2_lt_pow2; [lia|]. rewrite Z.log2_lor by lia. apply Z.max_lub_lt.
  - destruct (Z.eq_dec (u32 (Z.shiftl x 8)) 0) as [->|]; [cbn; lia|]. apply Z.log2_lt_pow2; lia.
  - destruct (Z.eq_dec b 0) as [->|]; [cbn; lia|]. apply Z.lt_le_trans with 8; [|lia].
    apply Z.log2_lt_pow2; lia.
Qed.

(** With three octets left the length field is inside the data, and leaves the
    offset inside it. *)
Lemma subpacket_length_ok data offset length :
  Forall byte data -> 0 <= offset -> offset + 2 < length -> length <= zlen data -> length < 2 ^ 17 ->
  exists r, subpacket_length data offset length = Done r /\
    match r with
    | None => True
    | Some (pl, o) => 0 <= pl < 2 ^ 32 /\ offset < o < length
    end.
Proof.
  intros Hd Ho Hl Hz H17. unfold subpacket_length.
  destruct (rd_ok_byte data offset) as (b & -> & Hb); [done | lia |]. cbn [mbind outcome_bind].
  unfold byte in Hb. rewrite (u32_small (offset + 1)) by lia.
  destruct ((191 <? b) && (b <? 255)) eqn:E.
  { zbool. destruct (rd_ok_byte data (offset + 1)) as (c & -> & Hc); [done | lia |].
    cbn [mbind outcome_bind]. eexists. split; [done|]. cbn. rewrite (u32_small (offset + 1 + 1)) by lia.
    split; [|lia]. apply Z.mod_pos_bound. lia. }
  destruct (Z.eqb_spec b 255); [|eexists; split; [done|]; cbn; lia].
  rewrite (u32_small (offset + 1 + 5)) by lia.
  destruct (Z.ltb_spec length (offset + 1 + 5)); [by eexists|].
  destruct (rd_ok_byte data (offset + 1)) as (b0 & -> & H0); [done | lia |].
  destruct (rd_ok_byte data (offset + 1 + 1)) as (b1 & -> & H1); [done | lia |].
  destruct (rd_ok_byte data (offset + 1 + 2)) as (b2 & -> & H2); [done | lia |].
  destruct (rd_ok_byte data (offset + 1 + 3)) as (b3 & -> & H3); [done | lia |].
  cbn [mbind outcome_bind]. eexists. split; [done|]. cbn. rewrite (u32_small (offset + 1 + 4)) by lia.
  split; [|lia]. apply lor_shift_bound; [|done]. unfold byte in H0.
  repeat (apply Z.lor_nonneg; split; [apply Z.mod_pos_bound; lia|]). unfold byte in H2. lia.
Qed.

Lemma subpackets_loop_upd fuel data offset length :
  Forall byte data -> 0 <= offset <= length -> length <= zlen data -> length < 2 ^ 17 ->
  length - offset <= Z.of_nat fuel ->
  exists rc uk uc, u64_upd uk /\ u64_upd uc /\ forall k c,
    subpackets_loop fuel data offset length k c = Done (rc, upd k uk, upd c uc).
Proof.
  intros Hd. revert offset. induction fuel as [|fuel IH];
    intros offset Ho Hl H17 Hf; cbn [subpackets_loop];
    rewrite (u32_small (offset + 2)) by lia;
    (destruct (Z.ltb_spec (offset + 2) length); [|apply body_skip]); [lia|].
  destruct (subpacket_length_ok data offset length) as (r & -> & Hr); [done | lia | done | done | done |].
  cbn [mbind outcome_bind]. destruct r as [[pl o]|]; [|apply body_skip].
  rewrite (u32_small (length - o)) by lia.
  destruct (Z.eqb_spec pl 0); [apply body_skip|].
  destruct (Z.ltb_spec (length - o) pl); [apply body_skip|]. cbn [orb].
  destruct (subpacket_body_upd data o pl) as (rc & uk & uc & Huk & Huc & Hb);
    [done | lia | lia | lia | lia |].
  destruct (status_ok rc) eqn:Erc.
  2: { exists rc, uk, uc. split; [done|]. split; [done|]. intros k c. rewrite Hb.
       cbn [mbind outcome_bind]. by rewrite Erc. }
  rewrite (u32_small (o + pl)) by lia.
  destruct (IH (o + pl)) as (rc' & uk' & uc' & Huk' & Huc' & Hb'); [lia | done | done | lia |].
  exists rc', (then_upd uk uk'), (then_upd uc uc'). split; [auto with onak|]. split; [auto with onak|].
  intros k c. rewrite Hb. cbn [mbind outcome_bind]. by rewrite Erc, Hb', !upd_upd.
Qed.

(** The area's length field is taken from the data, never trusted beyond it. *)
Lemma parse_subpackets_upd data len :
  Forall byte data -> 0 <= len <= zlen data ->
  exists rc l uk uc, u64_upd uk /\ u64_upd uc /\
    (forall n, l = Some n -> 2 <= n <= len) /\ (rc = ONAK_E_OK -> exists n, l = Some n) /\
    forall k c, parse_subpackets data len k c = Done (rc, l, upd k uk, upd c uc).
Proof.
  intros Hd Hl. unfold parse_subpackets.
  destruct (Z.ltb_spec len 4); [by exists ONAK_E_INVALID_PKT, None, None, None|].
  destruct (rd_ok_byte data 0) as (b0 & -> & H0); [done | lia |].
  destruct (rd_ok_byte data 1) as (b1 & -> & H1); [done | lia |]. cbn [mbind outcome_bind].
  rewrite shiftl_8. unfold byte in *.
  destruct (Z.ltb_spec len (b0 * 256 + b1 + 2)); [by exists ONAK_E_INVALID_PKT, None, None, None|].
  destruct (subpackets_loop_upd (Z.to_nat (b0 * 256 + b1 + 2)) data 2 (b0 * 256 + b1 + 2))
    as (rc & uk & uc & Huk & Huc & Hb); [done | lia | lia | lia | lia |].
  exists rc, (Some (b0 * 256 + b1 + 2)), uk, uc. split; [done|]. split; [done|].
  split; [intros n [= <-]; lia|]. split; [eauto|]. intros k c. by rewrite Hb.
Qed.

(** * What the subpacket parser computes *)

(** A signature subpacket of RFC 4880 section 5.2.3.1. *)
Record subpacket : Type := mkSub {
  sub_critical : bool;
  sub_type : Z;
  sub_body : list Z
}.

#[global] Instance subpacket_eq_dec : EqDecision subpacket.
Proof. solve_decision. Defined.

Definition sub_length_octets (n : Z) : list Z :=
  if n <? 192 then [n]
  else if n <? 8384 then [(n - 192) / 256 + 192; (n - 192) mod 256]
  else 255 :: htonl_bytes n.

Definition encode_sub (s : subpacket) : list Z :=
  sub_length_octets (1 + zlen (sub_body s))
  ++ (sub_type s + (if sub_critical s then 128 else 0)) :: sub_body s.

Definition encode_subs (l : list subpacket) : list Z := concat (map encode_sub l).

(** The last [n] bytes. *)
Definition tail_bytes (n : nat) (bs : list Z) : list Z := drop (length bs - n) bs.

(** The key id a fingerprint stands for; only versions 4 and 5 have one. *)
Definition fp_keyid (fp : list Z) : Z :=
  if zlen fp =? 20 then be_value (drop 12 fp)
  else if zlen fp =? 32 then be_value (take 8 fp)
  else 2 ^ 64 - 1.

(** What a subpacket says about the signer and the creation time. *)
Definition sub_effect (kc : out * out) (s : subpacket) : out * out :=
  let '(k, c) := kc in
  if sub_type s =? OPENPGP_SIGSUB_CREATION then (k, store c (be_value (tail_bytes 4 (sub_body s))))
  else if sub_type s =? OPENPGP_SIGSUB_ISSUER then (store k (be_value (tail_bytes 8 (sub_body s))), c)
  else if sub_type s =? OPENPGP_SIGSUB_ISSUER_FINGER then
    if zlen (sub_body s) - 1 <=? 32 then (store k (fp_keyid (drop 1 (sub_body s))), c) else (k, c)
  else (k, c).

(** Subpackets the parser accepts: long enough for their type, and known or
    not critical. *)
Definition sub_ok (s : subpacket) : Prop :=
  0 <= sub_type s < 128 /\ Forall byte (sub_body s) /\
  (sub_type s = OPENPGP_SIGSUB_CREATION -> 4 <= zlen (sub_body s)) /\
  (sub_type s = OPENPGP_SIGSUB_ISSUER -> 8 <= zlen (sub_body s)) /\
  (sub_type s = OPENPGP_SIGSUB_ISSUER_FINGER -> 1 <= zlen (sub_body s)) /\
  (sub_critical s = true -> sub_type s ∈ [2; 16; 33] ++ sigsub_ignored).

#[global] Instance sub_ok_dec s : Decision (sub_ok s).
Proof. unfold sub_ok. apply _. Defined.

Lemma rd_mid pre x post : (pre ++ x :: post).[zlen pre] = Done x.
Proof. rewrite rd_app_r by lia. by rewrite Z.sub_diag. Qed.

Lemma rd_mid' pre x post o : o = zlen pre -> (pre ++ x :: post).[o] = Done x.
Proof. intros ->. apply rd_mid. Qed.

Lemma rd_be_mid pre bs post o n :
  Forall byte bs -> length bs = n -> (n <= 8)%nat -> o = zlen pre ->
  rd_be (pre ++ bs ++ post) o n 0 = Done (be_value bs).
Proof.
  intros Hb <- Hn ->. unfold be_value.
  assert (H : forall acc k, 0 <= acc < 256 ^ Z.of_nat k -> (length bs + k <= 8)%nat ->
    rd_be (pre ++ bs ++ post) (zlen pre) (length bs) acc = Done (foldl (fun a b => a * 256 + b) acc bs)).
  2: { apply (H 0 0%nat); lia. }
  clear Hn. revert pre. induction Hb as [|b bs Hb Hbs IH]; intros pre acc k Ha Hk; [done|].
  cbn [length rd_be app foldl]. rewrite rd_mid. cbn [mbind outcome_bind].
  cbn [length] in Hk. unfold byte in Hb.
  assert (HS : 256 ^ Z.of_nat (S k) = 256 ^ Z.of_nat k * 256)
    by (rewrite Nat2Z.inj_succ, Z.pow_succ_r by lia; lia).
  assert (Hp : 256 ^ Z.of_nat (S k) <= 256 ^ 8) by (apply Z.pow_le_mono_r; lia).
  change (256 ^ 8) with (2 ^ 64) in Hp. rewrite shiftl_8, u64_small by lia.
  replace (pre ++ b :: bs ++ post) with ((pre ++ [b]) ++ bs ++ post) by (by rewrite <- app_assoc).
  replace (zlen pre + 1) with (zlen (pre ++ [b])) by (rewrite zlen_app; done).
  apply (IH (pre ++ [b]) _ (S k)); lia.
Qed.

Lemma read_fp_mid pre bs post : read_fp (pre ++ bs ++ post) (zlen pre) (length bs) = Done bs.
Proof.
  revert pre. induction bs as [|b bs IH]; intros pre; [done|]. cbn [length read_fp app].
  rewrite rd_mid. cbn [mbind outcome_bind].
  replace (pre ++ b :: bs ++ post) with ((pre ++ [b]) ++ bs ++ post) by (by rewrite <- app_assoc).
  replace (zlen pre + 1) with (zlen (pre ++ [b])) by (rewrite zlen_app; done).
  by rewrite IH.
Qed.

Lemma lor_add_byte x b : 0 <= x < 2 ^ 24 -> byte b -> Z.lor (u32 (Z.shiftl x 8)) b = x * 256 + b.
Proof.
  intros Hx Hb. rewrite shiftl_8, u32_small by lia. unfold byte in Hb.
  rewrite <- Z.add_lor_land. replace (Z.land (x * 256) b) with 0; [lia|].
  symmetry. apply Z.bits_inj'. intros i Hi. rewrite Z.land_spec, Z.testbit_0_l.
  destruct (Z.lt_ge_cases i 8).
  - change 256 with (2 ^ 8). by rewrite Z.mul_pow2_bits_low.
  - replace (Z.testbit b i) with false; [apply andb_false_r|].
    destruct (Z.eq_dec b 0) as [->|]; [by rewrite Z.testbit_0_l|].
    symmetry. apply Z.bits_above_log2; [lia|]. apply Z.lt_le_trans with 8; [|lia].
    apply Z.log2_lt_pow2; lia.
Qed.

(** The length field of an encoded subpacket. *)
Lemma subpacket_length_encode pre n rest length :
  1 <= n -> zlen pre + zlen (sub_length_octets n) + n <= length -> length < 2 ^ 17 ->
  subpacket_length (pre ++ sub_length_octets n ++ rest) (zlen pre) length
    = Done (Some (n, zlen pre + zlen (sub_length_octets n))).
Proof.
  intros Hn Hl H17. pose proof (zlen_nonneg pre). revert Hl.
  unfold subpacket_length, sub_length_octets. destruct (Z.ltb_spec n 192); [intros Hl|].
  { cbn [app]. change (zlen [n]) with 1 in *. rewrite rd_mid. cbn [mbind outcome_bind].
    rewrite (u32_small (zlen pre + 1)) by lia.
    destruct (Z.ltb_spec 191 n), (Z.ltb_spec n 255), (Z.eqb_spec n 255); try lia; done. }
  destruct (Z.ltb_spec n 8384); intros Hl.
  { cbn [app]. change (zlen [_; _]) with 2 in *. rewrite rd_mid. cbn [mbind outcome_bind].
    set (q := (n - 192) / 256). assert (Hq : 0 <= q < 32 /\ (n - 192) mod 256 = n - 192 - 256 * q)
      by (unfold q; split; Z.div_mod_to_equations; lia).
    rewrite (u32_small (zlen pre + 1)) by lia.
    destruct (Z.ltb_spec 191 (q + 192)), (Z.ltb_spec (q + 192) 255); try lia. cbn [andb].
    rewrite (proj2 Hq).
    replace (pre ++ q + 192 :: n - 192 - 256 * q :: rest)
      with ((pre ++ [q + 192]) ++ (n - 192 - 256 * q) :: rest) by (by rewrite <- app_assoc).
    rewrite rd_mid' by (rewrite zlen_app; done). cbn [mbind outcome_bind].
    rewrite shiftl_8, !u32_small by lia. do 3 f_equal; lia. }
  cbn [app] in *. change (zlen (255 :: htonl_bytes n)) with 5 in *. rewrite rd_mid. cbn [mbind outcome_bind Z.ltb Z.compare Pos.compare Pos.compare_cont andb Z.eqb Pos.eqb].
  rewrite (u32_small (zlen pre + 1)), (u32_small (zlen pre + 1 + 5)), (u32_small (zlen pre + 1 + 4)) by lia.
  destruct (Z.ltb_spec length (zlen pre + 1 + 5)); [lia|].
  replace (pre ++ 255 :: htonl_bytes n ++ rest) with ((pre ++ [255]) ++ htonl_bytes n ++ rest)
    by (by rewrite <- app_assoc).
  assert (Hz : zlen (pre ++ [255]) = zlen pre + 1) by (by rewrite zlen_app).
  assert (Hrd : forall i b, 0 <= i < 4 -> (htonl_bytes n).[i] = Done b ->
    ((pre ++ [255]) ++ htonl_bytes n ++ rest).[zlen pre + 1 + i] = Done b).
  { intros i b Hi Hb. rewrite rd_app_r by lia. rewrite Hz.
    replace (zlen pre + 1 + i - (zlen pre + 1)) with i by lia.
    rewrite rd_app_l; [done|]. change (zlen (htonl_bytes n)) with 4. lia. }
  pose proof (htonl_bytes_value n ltac:(lia)) as Hv.
  rewrite <- (Z.add_0_r (zlen pre + 1)) at 1.
  rewrite (Hrd 0 _ ltac:(lia) eq_refl), (Hrd 1 _ ltac:(lia) eq_refl),
    (Hrd 2 _ ltac:(lia) eq_refl), (Hrd 3 _ ltac:(lia) eq_refl). cbn [mbind outcome_bind].
  assert (Hhi : 0 <= u8 (Z.shiftr n 24) < 1).
  { rewrite Z.shiftr_div_pow2 by lia. rewrite Z.div_small by lia. vm_compute. split; congruence. }
  pose proof (u8_byte (Z.shiftr n 16)) as B1. pose proof (u8_byte (Z.shiftr n 8)) as B2.
  pose proof (u8_byte n) as B3. unfold byte in *.
  rewrite (lor_add_byte (u8 (Z.shiftr n 24))) by (unfold byte; lia).
  rewrite (lor_add_byte (_ * 256 + _)) by (unfold byte; lia).
  rewrite (lor_add_byte (_ * 256 + _)) by (unfold byte; lia).
  unfold htonl_bytes in Hv. cbn [foldl] in Hv. rewrite !shiftl_8 in Hv. do 3 f_equal; lia.
Qed.

Lemma store_null p v : non_null p = false -> store p v = p.
Proof. by destruct p. Qed.

Lemma tail_bytes_split n bs :
  (n <= length bs)%nat -> bs = take (length bs - n) bs ++ tail_bytes n bs /\ length (tail_bytes n bs) = n.
Proof. intros. unfold tail_bytes. rewrite take_drop, length_drop. auto with lia. Qed.

Lemma type_octet_bits ty (crit : bool) :
  0 <= ty < 128 ->
  Z.land (ty + (if crit then 128 else 0)) 0x7F = ty /\
  (Z.land (ty + (if crit then 128 else 0)) 0x80 =? 0) = negb crit.
Proof. destruct crit; revert ty; by_range. Qed.

Lemma fingerprint2keyid_fp fp :
  Forall byte fp -> fingerprint2keyid (mkFingerprint (zlen fp) fp) = Done (fp_keyid fp).
Proof.
  intros Hb. unfold fingerprint2keyid, fp_keyid. cbn [fp_length fp_bytes].
  destruct (Z.eqb_spec (zlen fp) 20) as [E|]; [|destruct (Z.eqb_spec (zlen fp) 32)].
  - rewrite rd_be_8 by (done || lia). change (Z.to_nat 12) with 12%nat.
    rewrite take_ge; [done|]. unfold zlen in E. rewrite length_drop. lia.
  - rewrite rd_be_8 by (done || lia). done.
  - done.
Qed.

(** The body of an acceptable subpacket has the effect of its meaning. *)
Lemma subpacket_body_effect pre s post k c :
  sub_ok s -> zlen (sub_body s) < 2 ^ 17 ->
  let data := pre ++ (sub_type s + (if sub_critical s then 128 else 0)) :: sub_body s ++ post in
  subpacket_body data (zlen pre) (1 + zlen (sub_body s)) k c
    = Done (ONAK_E_OK, (sub_effect (k, c) s).1, (sub_effect (k, c) s).2).
Proof.
  intros (Ht & Hb & Hcr & Hiss & Hfin & Hcrit) H17 data. unfold subpacket_body, data.
  rewrite rd_mid. cbn [mbind outcome_bind].
  destruct (type_octet_bits (sub_type s) (sub_critical s) Ht) as [-> ->]. unfold sub_effect.
  set (body := sub_body s) in *. set (t := sub_type s + (if sub_critical s then 128 else 0)).
  assert (Hbe : forall n, (n <= 8)%nat -> (n <= length body)%nat ->
    rd_be (pre ++ t :: body ++ post) (zlen pre + (1 + zlen body) - Z.of_nat n) n 0
      = Done (be_value (tail_bytes n body))).
  { intros n H8 Hn. destruct (tail_bytes_split n body Hn) as [Hs Hl].
    replace (pre ++ t :: body ++ post) with ((pre ++ t :: take (length body - n) body)
      ++ tail_bytes n body ++ post)
      by (rewrite <- app_assoc; cbn [app]; do 2 f_equal; rewrite app_assoc; by rewrite <- Hs).
    apply rd_be_mid; [apply Forall_drop, Hb | done | done |].
    rewrite zlen_app, zlen_cons. unfold zlen. rewrite length_take. lia. }
  destruct (Z.eqb_spec (sub_type s) OPENPGP_SIGSUB_CREATION) as [E|].
  { specialize (Hcr E). destruct (Z.ltb_spec (1 + zlen body) 5); [lia|].
    pose proof (Hbe 4%nat) as Hrd. change (Z.of_nat 4) with 4 in Hrd.
    rewrite Hrd by (unfold zlen in Hcr; lia). cbn [mbind outcome_bind fst snd].
    destruct (non_null c) eqn:En; [done|]. by rewrite store_null. }
  destruct (Z.eqb_spec (sub_type s) OPENPGP_SIGSUB_ISSUER) as [E|].
  { specialize (Hiss E). destruct (Z.ltb_spec (1 + zlen body) 9); [lia|].
    pose proof (Hbe 8%nat) as Hrd. change (Z.of_nat 8) with 8 in Hrd.
    rewrite Hrd by (unfold zlen in Hiss; lia). cbn [mbind outcome_bind fst snd].
    destruct (non_null k) eqn:En; [done|]. by rewrite store_null. }
  destruct (Z.eqb_spec (sub_type s) OPENPGP_SIGSUB_ISSUER_FINGER) as [E|].
  { specialize (Hfin E). rewrite u32_small by lia. unfold MAX_FINGERPRINT_LEN.
    replace (1 + zlen body - 2) with (zlen body - 1) by lia.
    destruct (Z.leb_spec (zlen body - 1) 32); [|done]. cbn [andb].
    destruct (non_null k) eqn:En; [|cbn [fst snd]; by rewrite store_null].
    destruct body as [|v fp] eqn:Eb; [unfold zlen in Hfin; cbn in Hfin; lia|].
    rewrite zlen_cons. replace (1 + zlen fp - 1) with (zlen fp) by lia.
    replace (pre ++ t :: (v :: fp) ++ post) with ((pre ++ [t; v]) ++ fp ++ post)
      by (by rewrite <- app_assoc).
    replace (zlen pre + 2) with (zlen (pre ++ [t; v])) by (by rewrite zlen_app).
    replace (Z.to_nat (zlen fp)) with (length fp) by (unfold zlen; lia). rewrite read_fp_mid. cbn [mbind outcome_bind].
    inversion Hb; subst. rewrite fingerprint2keyid_fp by done. done. }
  destruct (decide (sub_type s ∈ sigsub_ignored)) as [Hin|Hin];
    [by rewrite bool_decide_eq_true_2 | rewrite bool_decide_eq_false_2 by done].
  destruct (sub_critical s) eqn:Ec; [|done]. exfalso. specialize (Hcrit eq_refl).
  apply elem_of_app in Hcrit as [Hcrit|]; [|done].
  rewrite !elem_of_cons, elem_of_nil in Hcrit. unfold OPENPGP_SIGSUB_CREATION,
    OPENPGP_SIGSUB_ISSUER, OPENPGP_SIGSUB_ISSUER_FINGER in *. naive_solver.
Qed.

Lemma zlen_sub_length_octets n : 1 <= zlen (sub_length_octets n).
Proof. unfold sub_length_octets. repeat case_if; vm_compute; congruence. Qed.

(** A subpacket without a body changes nothing. *)
Lemma sub_effect_empty s kc : sub_ok s -> sub_body s = [] -> sub_effect kc s = kc.
Proof.
  intros (_ & _ & H1 & H2 & H3 & _) Hb. rewrite Hb in *. destruct kc as [k c]. unfold sub_effect.
  change (zlen []) with 0 in *.
  destruct (Z.eqb_spec (sub_type s) OPENPGP_SIGSUB_CREATION); [lia|].
  destruct (Z.eqb_spec (sub_type s) OPENPGP_SIGSUB_ISSUER); [lia|].
  destruct (Z.eqb_spec (sub_type s) OPENPGP_SIGSUB_ISSUER_FINGER); [lia|]. done.
Qed.

Lemma encode_subs_cons s l : encode_subs (s :: l) = encode_sub s ++ encode_subs l.
Proof. done. Qed.

Lemma zlen_encode_sub s :
  zlen (encode_sub s) = zlen (sub_length_octets (1 + zlen (sub_body s))) + 1 + zlen (sub_body s).
Proof. unfold encode_sub. autorewrite with onak. lia. Qed.

Lemma subpackets_loop_encode l pre post k c fuel :
  Forall sub_ok l -> zlen pre + zlen (encode_subs l) < 2 ^ 17 -> (length l <= fuel)%nat ->
  subpackets_loop fuel (pre ++ encode_subs l ++ post) (zlen pre) (zlen pre + zlen (encode_subs l)) k c
    = Done (ONAK_E_OK, (foldl sub_effect (k, c) l).1, (foldl sub_effect (k, c) l).2).
Proof.
  intros Hok. revert pre k c fuel. induction Hok as [|s l Hs Hl IH]; intros pre k c fuel H17 Hf.
  { unfold encode_subs. cbn [map concat]. rewrite zlen_nil. pose proof (zlen_nonneg pre).
    change (zlen (encode_subs [])) with 0 in H17.
    destruct fuel; cbn [subpackets_loop]; rewrite u32_small by lia;
      (destruct (Z.ltb_spec (zlen pre + 2) (zlen pre + 0)); [lia | done]). }
  destruct fuel as [|fuel]; [cbn in Hf; lia|]. cbn [length] in Hf.
  rewrite encode_subs_cons, zlen_app, zlen_encode_sub in *.
  pose proof (zlen_nonneg pre). pose proof (zlen_nonneg (sub_body s)). pose proof (zlen_nonneg (encode_subs l)).
  set (n := 1 + zlen (sub_body s)) in *. pose proof (zlen_sub_length_octets n) as Hlo.
  set (tot := zlen pre + (zlen (sub_length_octets n) + 1 + zlen (sub_body s) + zlen (encode_subs l))) in *.
  cbn [subpackets_loop foldl]. rewrite (u32_small (zlen pre + 2)) by lia.
  destruct (Z.ltb_spec (zlen pre + 2) tot) as [Hlt|Hge].
  2: { (* only a subpacket without a body is left *)
    unfold tot in Hge.
    assert (sub_body s = []) as Hnil by (apply length_zero_iff_nil; unfold zlen in *; lia).
    assert (l = []) as ->.
    { destruct l as [|s' l]; [done|]. rewrite encode_subs_cons, zlen_app, zlen_encode_sub in Hge.
      pose proof (zlen_sub_length_octets (1 + zlen (sub_body s'))). pose proof (zlen_nonneg (sub_body s')).
      pose proof (zlen_nonneg (encode_subs l)). lia. }
    cbn [foldl]. by rewrite sub_effect_empty. }
  unfold encode_sub. rewrite <- !app_assoc. fold n.
  rewrite subpacket_length_encode by lia. cbn [mbind outcome_bind].
  set (o := zlen pre + zlen (sub_length_octets n)). rewrite (u32_small (tot - o)) by (unfold o, tot in *; lia).
  destruct (Z.eqb_spec n 0); [lia|]. destruct (Z.ltb_spec (tot - o) n); [unfold o, tot in *; lia|]. cbn [orb].
  pose proof (subpacket_body_effect (pre ++ sub_length_octets n) s (encode_subs l ++ post) k c Hs
    ltac:(lia)) as Hbody. cbn zeta in Hbody. rewrite <- !app_assoc in Hbody. cbn [app] in *.
  rewrite zlen_app in Hbody. fold o n in Hbody. rewrite Hbody. cbn [mbind outcome_bind status_ok].
  rewrite (u32_small (o + n)) by (unfold o, tot in *; lia).
  destruct (sub_effect (k, c) s) as [k' c'] eqn:Ekc. cbn [fst snd].
  rewrite <- (IH (pre ++ encode_sub s) k' c' fuel); [|rewrite zlen_app, zlen_encode_sub; fold n; unfold tot in *; lia | lia].
  f_equal.
  - unfold encode_sub. fold n. by rewrite <- !app_assoc.
  - rewrite zlen_app, zlen_encode_sub. fold n. unfold o. lia.
  - rewrite zlen_app, zlen_encode_sub. fold n. unfold tot. lia.
Qed.

Lemma encode_subs_count l : (length l <= length (encode_subs l))%nat.
Proof.
  induction l as [|s l IH]; [done|]. rewrite encode_subs_cons, length_app.
  assert (1 <= length (encode_sub s))%nat by (unfold encode_sub; rewrite length_app; cbn; lia).
  cbn [length]. lia.
Qed.

(** A whole area: its two length octets and its subpackets. *)
Definition encode_area (l : list subpacket) : list Z :=
  [zlen (encode_subs l) / 256; zlen (encode_subs l) mod 256] ++ encode_subs l.

Lemma zlen_encode_area l : zlen (encode_area l) = 2 + zlen (encode_subs l).
Proof. unfold encode_area. by rewrite zlen_app. Qed.

Lemma parse_subpackets_encode l post len k c :
  Forall sub_ok l -> zlen (encode_subs l) < 65536 -> 4 <= len -> zlen (encode_area l) <= len ->
  parse_subpackets (encode_area l ++ post) len k c
    = Done (ONAK_E_OK, Some (zlen (encode_area l)),
            (foldl sub_effect (k, c) l).1, (foldl sub_effect (k, c) l).2).
Proof.
  intros Hok H16 H4 Hlen. rewrite zlen_encode_area in *. unfold parse_subpackets.
  destruct (Z.ltb_spec len 4); [lia|]. pose proof (zlen_nonneg (encode_subs l)).
  set (n := zlen (encode_subs l)) in *. unfold encode_area. fold n. rewrite <- app_assoc. cbn [app].
  rewrite rd_cons_0, rd_cons_1. cbn [mbind outcome_bind]. rewrite shiftl_8.
  replace (n / 256 * 256 + n mod 256 + 2) with (2 + n) by (Z.div_mod_to_equations; lia).
  destruct (Z.ltb_spec len (2 + n)); [lia|].
  pose proof (subpackets_loop_encode l [n / 256; n mod 256] post k c (Z.to_nat (2 + n)) Hok) as E.
  change (zlen [_; _]) with 2 in E. fold n in E. cbn [app] in E. rewrite E; [done | lia |].
  pose proof (encode_subs_count l). unfold n, zlen. lia.
Qed.

(** Signatures the decoder can look at without leaving the buffer: version 2
    and 3 ones need fifteen octets, version 4 and 5 ones four. *)
Definition sig_decodable (p : openpgp_packet) : Prop :=
  wf_packet p /\ exists v, (pkt_data p).[0] = Done v /\
    (v = 2 \/ v = 3 -> 15 <= pkt_length p) /\ (v = 4 \/ v = 5 -> 4 <= pkt_length p).

(** The versions the decoder knows. *)
Definition sig_version_known (p : openpgp_packet) : Prop :=
  exists v, (pkt_data p).[0] = Done v /\ 2 <= v <= 5.

(** What decoding a signature does: a key id is always stored where one is
    asked for, a creation time only if there is one, and neither depends on
    what else is asked for. *)
Definition sig_decodes (p : openpgp_packet) (kid : Z) (created : option Z) : Prop :=
  0 <= kid < 2 ^ 64 /\ u64_upd created /\
  (forall x c, exists rc, sig_info p (Some x) c = Done (rc, Some (Some kid), upd c created)) /\
  (forall c, exists rc, sig_info p None c = Done (rc, None, upd c created)).

Lemma sig_info_v4_decodes p :
  wf_packet p -> 4 <= pkt_length p < 2 ^ 64 ->
  exists kid created, 0 <= kid < 2 ^ 64 /\ u64_upd created /\
    (forall x c, exists rc, sig_info_v4 p (Some x) c = Done (rc, Some (Some kid), upd c created)) /\
    (forall c, exists rc, sig_info_v4 p None c = Done (rc, None, upd c created)).
Proof.
  intros [Hl Hb] H4.
  assert (Hz : forall n, 0 <= n <= pkt_length p -> zlen (drop (Z.to_nat n) (pkt_data p)) = pkt_length p - n)
    by (intros; unfold zlen in *; rewrite length_drop; lia).
  destruct (parse_subpackets_upd (drop 4 (pkt_data p)) (pkt_length p - 4))
    as (rc & l & uk & uc & Huk & Huc & Hn & Hok & E).
  { by apply Forall_drop. }
  { change 4%nat with (Z.to_nat 4). rewrite Hz by lia. lia. }
  rewrite <- (u64_small (pkt_length p - 4)) in E by lia.
  set (k1 := default 0 uk). assert (Hk1 : 0 <= k1 < 2 ^ 64) by (unfold k1; destruct uk; cbn in *; lia).
  assert (Es : forall x, upd (store (Some x) 0) uk = Some (Some k1)) by (by destruct uk).
  assert (Hnull : forall c, exists rc', sig_info_v4 p None c = Done (rc', None, upd c uc)).
  { intros c. unfold sig_info_v4. rewrite E, upd_null. cbn [mbind outcome_bind]. case_if; eauto. }
  assert (Hdone : forall kid, 0 <= kid < 2 ^ 64 ->
    (forall x c, exists rc', sig_info_v4 p (Some x) c = Done (rc', Some (Some kid), upd c uc)) ->
    exists kid created, 0 <= kid < 2 ^ 64 /\ u64_upd created /\
    (forall x c, exists rc, sig_info_v4 p (Some x) c = Done (rc, Some (Some kid), upd c created)) /\
    (forall c, exists rc, sig_info_v4 p None c = Done (rc, None, upd c created)))
    by (intros kid Hkid Hx; exists kid, uc; auto).
  unfold sig_info_v4 in Hdone at 1.
  destruct (status_ok rc) eqn:Erc.
  2: { apply (Hdone k1); [done|]. intros x c. rewrite E, Es. cbn [mbind outcome_bind]. rewrite Erc. eauto. }
  destruct Hok as [n ->]; [by destruct rc|]. specialize (Hn n eq_refl).
  destruct (Z.eqb_spec k1 0) as [E0|E0].
  2: { apply (Hdone k1); [done|]. intros x c. rewrite E, Es. cbn [mbind outcome_bind read_var]. rewrite Erc.
       rewrite (proj2 (Z.eqb_neq _ _) E0). eauto. }
  destruct (parse_subpackets_upd (drop (Z.to_nat (n + 4)) (pkt_data p)) (pkt_length p - (4 + n)))
    as (rc2 & l2 & uk2 & uc2 & Huk2 & _ & _ & _ & E2).
  { by apply Forall_drop. }
  { rewrite Hz by lia. lia. }
  apply (Hdone (default 0 uk2)); [destruct uk2; cbn in *; lia|].
  intros x c. rewrite E, Es, E0. cbn [mbind outcome_bind read_var from_option id]. rewrite Erc. cbn [Z.eqb].
  rewrite u64_small by lia. rewrite E2. cbn [mbind outcome_bind]. exists rc2. by destruct uk2.
Qed.

Lemma sig_info_v3_decodes p v :
  wf_packet p -> (pkt_data p).[0] = Done v -> v = 2 \/ v = 3 -> 15 <= pkt_length p ->
  exists kid t, sig_decodes p kid (Some t).
Proof.
  intros [Hl Hb] H0 Hv H15. unfold sig_decodes, sig_info. rewrite H0. cbn [mbind outcome_bind].
  replace ((v =? 2) || (v =? 3)) with true by (destruct Hv as [-> | ->]; done).
  destruct (rd_be_range (pkt_data p) 7 8 0) as (kid & -> & Hkid); [done | lia | lia | lia |].
  destruct (rd_be_range (pkt_data p) 3 4 0) as (t & -> & Ht); [done | lia | lia | lia |].
  exists kid, t. split; [done|]. split; [done|].
  split; intros; exists ONAK_E_OK; destruct c; done.
Qed.

Lemma sig_info_decodes p :
  sig_decodable p -> sig_version_known p -> pkt_length p < 2 ^ 64 ->
  exists kid created, sig_decodes p kid created.
Proof.
  intros (Hwf & v & H0 & H23 & H45) (v' & H0' & Hv) H64. rewrite H0 in H0'. injection H0' as <-.
  destruct ((v =? 2) || (v =? 3)) eqn:E.
  - assert (v = 2 \/ v = 3) as Hv3 by (apply orb_true_iff in E as [?|?]; zbool; auto).
    destruct (sig_info_v3_decodes p v Hwf H0 Hv3 (H23 Hv3)) as (kid & t & Hd). eauto.
  - assert (v = 4 \/ v = 5) as Hv4 by (apply orb_false_iff in E as [? ?]; zbool; lia).
    unfold sig_decodes, sig_info. rewrite H0. cbn [mbind outcome_bind]. rewrite E.
    replace ((v =? 4) || (v =? 5)) with true by (destruct Hv4 as [-> | ->]; done).
    apply sig_info_v4_decodes; [done|]. specialize (H45 Hv4). lia.
Qed.

(** * Properties *)

(** C38: the subpacket parser, on any bytes and with any combination of NULL,
    uninitialised and initialised out parameters, terminates and never reads
    outside the [len] bytes it was given; the area length it reports lies
    between 2 and [len], and it is always reported with success. *)
Theorem parse_subpackets_safe data len keyid creation :
  Forall byte data -> 0 <= len <= zlen data -> u64_out keyid -> u64_out creation ->
  exists rc l k c, parse_subpackets data len keyid creation = Done (rc, l, k, c) /\
    out_after keyid k /\ out_after creation c /\
    (forall n, l = Some n -> 2 <= n <= len) /\ (rc = ONAK_E_OK -> exists n, l = Some n).
Proof.
  intros Hd Hl Hk Hc. destruct (parse_subpackets_upd data len Hd Hl)
    as (rc & l & uk & uc & Huk & Huc & Hn & Hok & E).
  exists rc, l, (upd keyid uk), (upd creation uc). rewrite E. auto 10 with onak.
Qed.

Lemma parse_subpackets_safe_witness :
  let data := [0; 9; 255; 255; 255; 255; 255; 16; 1; 2; 3] in
  exists rc l k c, parse_subpackets data 11 (Some None) None = Done (rc, l, k, c) /\
    out_after (Some None) k /\ out_after None c /\
    (forall n, l = Some n -> 2 <= n <= 11) /\ (rc = ONAK_E_OK -> exists n, l = Some n).
Proof.
  intros data. apply (parse_subpackets_safe data 11 (Some None) None);
    [apply (bool_decide_unpack _); vm_compute; exact I | vm_compute; split; congruence | exact I | exact I].
Defined.

(** On the encoding of a list of subpackets, in all three length forms,
    the parser reports success, the size of the area, the creation time of the
    last creation subpacket and the key id of the last issuer or issuer
    fingerprint subpacket; everything else is skipped, and NULL out parameters
    are left alone. *)
Theorem parse_subpackets_meaning l post len k c :
  Forall sub_ok l -> zlen (encode_subs l) < 65536 -> 4 <= len -> zlen (encode_area l) <= len ->
  parse_subpackets (encode_area l ++ post) len k c
    = Done (ONAK_E_OK, Some (zlen (encode_area l)),
            (foldl sub_effect (k, c) l).1, (foldl sub_effect (k, c) l).2).
Proof. apply parse_subpackets_encode. Qed.

Definition sample_subs : list subpacket :=
  [ mkSub false 2 [1; 2; 3; 4]; mkSub true 27 [3]; mkSub false 101 (replicate 300 5);
    mkSub false 33 (4 :: replicate 12 0 ++ [1; 2; 3; 4; 5; 6; 7; 8]) ].

Lemma parse_subpackets_meaning_witness :
  parse_subpackets (encode_area sample_subs ++ [0; 0]) 400 (Some None) (Some None)
    = Done (ONAK_E_OK, Some 337, Some (Some 0x0102030405060708), Some (Some 0x01020304)).
Proof.
  apply (parse_subpackets_meaning sample_subs [0; 0] 400 (Some None) (Some None));
    try (apply (bool_decide_unpack _); vm_compute; exact I); vm_compute; congruence.
Defined.

(** For every signature packet of a version from 2 to 5 that is long enough
    for its version, with any contents, decoding terminates and stays inside
    the packet; it has one key id, stored whenever a key id is asked for, and
    at most one creation time, and neither depends on the other parameter or
    on what the parameters held before. *)
Theorem sig_info_functional p :
  sig_decodable p -> sig_version_known p -> pkt_length p < 2 ^ 64 ->
  exists kid created, sig_decodes p kid created.
Proof. apply sig_info_decodes. Qed.

Lemma sig_info_functional_witness :
  let p := mkPacket OPENPGP_PACKET_SIGNATURE true 9 [4; 0; 0; 0; 0; 3; 2; 16; 1] in
  exists kid created, sig_decodes p kid created.
Proof.
  intros p. apply (sig_info_functional p).
  - split; [apply (bool_decide_unpack _); vm_compute; exact I|].
    exists 4. split; [reflexivity|]. split; cbn; lia.
  - exists 4. split; [reflexivity | lia].
  - reflexivity.
Defined.

(** A version 4 or 5 signature packet of one to three octets makes
    [packet->length - 4] wrap around, the length check of the subpacket parser
    passes, and the decoder reads behind the packet. *)
Theorem sig_info_short_reads_behind p keyid creation v :
  wf_packet p -> (pkt_data p).[0] = Done v -> v = 4 \/ v = 5 -> pkt_length p < 4 ->
  sig_info p keyid creation = Fault OutOfBounds.
Proof.
  intros [Hl Hb] H0 Hv H4. unfold sig_info, sig_info_v4. rewrite H0. cbn [mbind outcome_bind].
  assert (Hr : 0 < zlen (pkt_data p)) by (apply rd_Done_inv in H0; lia).
  replace ((v =? 2) || (v =? 3)) with false by (destruct Hv as [-> | ->]; done).
  replace ((v =? 4) || (v =? 5)) with true by (destruct Hv as [-> | ->]; done).
  unfold parse_subpackets. destruct (Z.ltb_spec (u64 (pkt_length p - 4)) 4) as [Hlt|].
  { exfalso. revert Hlt. unfold u64. rewrite <- (Z.mod_add _ 1), Z.mod_small by lia. lia. }
  rewrite drop_ge by (unfold zlen in *; lia). done.
Qed.

Lemma sig_info_short_reads_behind_witness :
  sig_info (mkPacket OPENPGP_PACKET_SIGNATURE true 2 [4; 0x20]) (Some (Some 0)) None
    = Fault OutOfBounds.
Proof.
  apply (sig_info_short_reads_behind _ _ _ 4);
    [apply (bool_decide_unpack _); vm_compute; exact I | reflexivity | left; reflexivity | reflexivity].
Defined.
