(* ===== verification/Merge.v ===== *)
(** Merging keys (merge.c): comparison of packets and signatures, collapsing
    of superseded signatures, and the merge of two copies of a key into the
    union and the difference.

    Lists are the values of the C lists, without their tail pointers.  The
    local [time_t] and key id variables that the code hands to [sig_info]
    uninitialised are cells that start as [None]. *)

From S2P Require Import Prelude OpenPGP Streams Keys KeyId Decode.

(** * Comparison *)

(** [memcmp] over the shorter length, then the lengths.  The shorter length
    is kept in an [int]: one of 2^31 octets or more becomes negative, and then
    [memcmp] is asked for almost 2^64 octets. *)
Definition compare_packets (a b : openpgp_packet) : outcome Z :=
  if pkt_tag b <? pkt_tag a then Done 1
  else if pkt_tag a <? pkt_tag b then Done (-1)
  else
    let len := i32 (if pkt_length a <? pkt_length b then pkt_length a else pkt_length b) in
    if len <? 0 then Fault OutOfBounds
    else
      let ret := memcmp (pkt_data a) (pkt_data b) (Z.to_nat len) in
      Done (if (ret =? 0) && negb (pkt_length a =? pkt_length b)
            then if pkt_length a <? pkt_length b then -1 else 1
            else ret).

Definition sig_sigtype (p : openpgp_packet) : outcome Z :=
  if pkt_length p <? 3 then Done 0xFF
  else
    d0 ← (pkt_data p).[0];
    if d0 =? 3 then (pkt_data p).[2]
    else if (d0 =? 4) || (d0 =? 5) then (pkt_data p).[1]
    else Done 0xFF.

Definition sig_is_revocation (sigtype : Z) : bool :=
  (sigtype =? OPENPGP_SIGTYPE_KEY_REV) || (sigtype =? OPENPGP_SIGTYPE_SUBKEY_REV)
  || (sigtype =? OPENPGP_SIGTYPE_CERT_REV).

(** The value behind an out parameter that points to a local variable. *)
Definition deref (p : out) : outcome Z :=
  match p with
  | Some c => read_var c
  | None => Fault NullDeref
  end.

Definition signatures_match_signer (a b : openpgp_packet) : outcome bool :=
  if negb (pkt_tag a =? OPENPGP_PACKET_SIGNATURE) || negb (pkt_tag b =? OPENPGP_PACKET_SIGNATURE)
  then Done false
  else
    a0 ← (pkt_data a).[0];
    b0 ← (pkt_data b).[0];
    if negb (a0 =? b0) then Done false
    else
      ta ← sig_sigtype a;
      tb ← sig_sigtype b;
      if negb (ta =? tb) then Done false
      else
        '(_, a_keyid, _) ← sig_info a (Some None) None;
        '(_, b_keyid, _) ← sig_info b (Some None) None;
        ka ← deref a_keyid;
        if ka =? 0 then Done false
        else
          kb ← deref b_keyid;
          if kb =? 0 then Done false else Done (ka =? kb).

(** * dedupe_sigs *)

(** [outer_t] and [inner_t] live as long as the function: a signature without
    a creation time leaves the value of an earlier one. *)
Definition times : Type := option Z * option Z.

(** The inner loop for one outer signature: whether the outer one is to be
    dropped, the signatures left behind it, the number dropped. *)
Fixpoint dedupe_inner (outer : openpgp_packet) (l : list openpgp_packet) (ts : times)
    : outcome (bool * list openpgp_packet * Z * times) :=
  match l with
  | [] => Done (false, [], 0, ts)
  | inner :: l' =>
      m ← signatures_match_signer outer inner;
      if (m : bool) then
        st ← sig_sigtype outer;
        if sig_is_revocation st then
          '(drop_outer, rest, dropped, ts) ← dedupe_inner outer l' ts;
          Done (drop_outer, rest, dropped + 1, ts)
        else
          '(_, _, outer_t) ← sig_info outer None (Some (ts.1));
          '(_, _, inner_t) ← sig_info inner None (Some (ts.2));
          ti ← deref inner_t;
          to ← deref outer_t;
          let ts := (Some to, Some ti) in
          if to <? ti then Done (true, l, 0, ts)
          else
            '(drop_outer, rest, dropped, ts) ← dedupe_inner outer l' ts;
            Done (drop_outer, rest, dropped + 1, ts)
      else
        '(drop_outer, rest, dropped, ts) ← dedupe_inner outer l' ts;
        Done (drop_outer, inner :: rest, dropped, ts)
  end.

(** The outer loop; every round takes one signature off the list it still has
    to look at. *)
Fixpoint dedupe_outer (fuel : nat) (l : list openpgp_packet) (ts : times)
    : outcome (list openpgp_packet * Z) :=
  match l with
  | [] => Done ([], 0)
  | outer :: l =>
      match fuel with
      | O => Fault OutOfFuel
      | S fuel =>
          '(drop_outer, rest, dropped, ts) ← dedupe_inner outer l ts;
          '(kept, dropped') ← dedupe_outer fuel rest ts;
          Done (if (drop_outer : bool) then (kept, dropped + dropped' + 1)
                else (outer :: kept, dropped + dropped'))
      end
  end.

Definition dedupe_sigs (sigs : list openpgp_packet) : outcome (list openpgp_packet * Z) :=
  dedupe_outer (length sigs) sigs (None, None).

(** * Searching *)

Definition compare_signatures (a b : openpgp_packet) : outcome bool :=
  a0 ← (pkt_data a).[0];
  b0 ← (pkt_data b).[0];
  if negb (a0 =? b0) then Done false
  else
    differ ← (if a0 =? 4 then
                a1 ← (pkt_data a).[1];
                b1 ← (pkt_data b).[1];
                Done (negb (a1 =? b1))
              else Done false);
    if (differ : bool) then Done false
    else
      '(_, a_keyid, a_creation) ← sig_info a (Some None) (Some None);
      '(_, b_keyid, b_creation) ← sig_info b (Some None) (Some None);
      ca ← deref a_creation;
      cb ← deref b_creation;
      if ca =? cb then
        ka ← deref a_keyid;
        kb ← deref b_keyid;
        Done (ka =? kb)
      else Done false.

Fixpoint find_packet (l : list openpgp_packet) (p : openpgp_packet) : outcome bool :=
  match l with
  | [] => Done false
  | q :: l =>
      ret ← compare_packets q p;
      if ret =? 0 then Done true else find_packet l p
  end.

Fixpoint find_signature (l : list openpgp_packet) (p : openpgp_packet) : outcome bool :=
  match l with
  | [] => Done false
  | q :: l => same ← compare_signatures q p; if (same : bool) then Done true else find_signature l p
  end.

(** The first element that holds the packet, with what is around it. *)
Fixpoint find_signed_packet (l : list openpgp_signedpacket) (p : openpgp_packet)
    : outcome (option (list openpgp_signedpacket * openpgp_signedpacket * list openpgp_signedpacket)) :=
  match l with
  | [] => Done None
  | sp :: l =>
      ret ← compare_packets (sp_packet sp) p;
      if ret =? 0 then Done (Some ([], sp, l))
      else
        found ← find_signed_packet l p;
        Done (match found with
              | Some (pre, found, post) => Some (sp :: pre, found, post)
              | None => None
              end)
  end.

Fixpoint remove_signed_packet (l : list openpgp_signedpacket) (p : openpgp_packet)
    : outcome (list openpgp_signedpacket) :=
  match l with
  | [] => Done []
  | sp :: l =>
      ret ← compare_packets (sp_packet sp) p;
      if ret =? 0 then Done l
      else rest ← remove_signed_packet l p; Done (sp :: rest)
  end.

(** * Merging *)

(** The signatures of [new] that [old] does not have. *)
Fixpoint new_signatures (old new : list openpgp_packet) : outcome (list openpgp_packet) :=
  match new with
  | [] => Done []
  | s :: new =>
      found ← find_signature old s;
      rest ← new_signatures old new;
      Done (if (found : bool) then rest else s :: rest)
  end.

Definition merge_packet_sigs (old new : openpgp_signedpacket)
    : outcome (openpgp_signedpacket * openpgp_signedpacket) :=
  ret ← compare_packets (sp_packet old) (sp_packet new);
  _ ← c_assert (ret =? 0);
  diff ← new_signatures (sp_sigs old) (sp_sigs new);
  all ← packet_list_add (sp_sigs old) diff;
  '(kept, _) ← dedupe_sigs all;
  Done (set_sp_sigs old kept, set_sp_sigs new diff).

(** The first loop: every old packet takes the signatures of its new copy,
    and a new packet without new signatures leaves the difference. *)
Fixpoint merge_old_packets (old new : list openpgp_signedpacket)
    : outcome (list openpgp_signedpacket * list openpgp_signedpacket) :=
  match old with
  | [] => Done ([], new)
  | cur :: old =>
      found ← find_signed_packet new (sp_packet cur);
      '(cur, new) ←
        match found with
        | None => Done (cur, new)
        | Some (pre, newelem, post) =>
            '(cur, newelem) ← merge_packet_sigs cur newelem;
            let new := pre ++ newelem :: post in
            new ← match sp_sigs newelem with
                  | [] => remove_signed_packet new (sp_packet newelem)
                  | _ :: _ => Done new
                  end;
            Done (cur, new)
        end;
      '(old, new) ← merge_old_packets old new;
      Done (cur :: old, new)
  end.

(** The second loop: packets of the difference that are not on the old key
    are copied to its end. *)
Fixpoint add_new_packets (old new : list openpgp_signedpacket)
    : outcome (list openpgp_signedpacket) :=
  match new with
  | [] => Done old
  | cur :: new =>
      found ← find_signed_packet old (sp_packet cur);
      match found with
      | Some _ => add_new_packets old new
      | None =>
          p ← packet_dup (sp_packet cur);
          sigs ← packet_list_add [] (sp_sigs cur);
          add_new_packets (old ++ [mkSigned p sigs]) new
      end
  end.

Definition merge_signed_packets (old new : list openpgp_signedpacket)
    : outcome (list openpgp_signedpacket * list openpgp_signedpacket) :=
  '(old, new) ← merge_old_packets old new;
  old ← add_new_packets old new;
  Done (old, new).

(** The signatures on the key itself that the old key does not have. *)
Fixpoint new_packets (old new : list openpgp_packet) : outcome (list openpgp_packet) :=
  match new with
  | [] => Done []
  | p :: new =>
      found ← find_packet old p;
      rest ← new_packets old new;
      Done (if (found : bool) then rest else p :: rest)
  end.

(** The merged key, the difference and the return code. *)
Definition merge_keys {HF : Hashes} {BC : BuildConfig} (a b : openpgp_publickey)
    : outcome (openpgp_publickey * openpgp_publickey * Z) :=
  '(ra, keya) ← get_keyid a;
  if negb (status_ok ra) then Done (a, b, 1)
  else
    '(rb, keyb) ← get_keyid b;
    if negb (status_ok rb) then Done (a, b, 1)
    else
      ka ← read_var keya;
      kb ← read_var keyb;
      '(a, b, rc) ←
        (if negb (ka =? kb) then Done (a, b, -1)
         else
           diff ← new_packets (pk_sigs a) (pk_sigs b);
           sigs ← packet_list_add (pk_sigs a) diff;
           '(uids, new_uids) ← merge_signed_packets (pk_uids a) (pk_uids b);
           '(subkeys, new_subkeys) ← merge_signed_packets (pk_subkeys a) (pk_subkeys b);
           Done (mkKey (pk_publickey a) (pk_revoked a) sigs uids subkeys,
                 mkKey (pk_publickey b) (pk_revoked b) diff new_uids new_subkeys, 0));
      Done (if pk_revoked a || pk_revoked b
            then (set_pk_revoked a true, set_pk_revoked b true, rc) else (a, b, rc)).

(** * Comparison decides equality *)

(** Equal tag and equal body; the header format does not count. *)
Definition same_packet (a b : openpgp_packet) : Prop :=
  pkt_tag a = pkt_tag b /\ pkt_data a = pkt_data b.

#[global] Instance same_packet_dec a b : Decision (same_packet a b).
Proof. unfold same_packet. apply _. Defined.

(** A packet whose length fits an [int]. *)
Definition small_packet (p : openpgp_packet) : Prop := wf_packet p /\ pkt_length p < 2 ^ 31.

#[global] Instance small_packet_dec p : Decision (small_packet p).
Proof. unfold small_packet. apply _. Defined.

Lemma small_packet_wf p : small_packet p -> wf_packet p.
Proof. by intros [? _]. Qed.

Lemma small_packets_wf l : Forall small_packet l -> Forall wf_packet l.
Proof. intros H. eapply Forall_impl; [exact H | apply small_packet_wf]. Qed.

#[export] Hint Resolve small_packet_wf small_packets_wf : onak.

(** The comparison of small packets, with the lengths as they are. *)
Lemma compare_packets_small a b :
  small_packet a -> small_packet b ->
  compare_packets a b = Done (
    if pkt_tag b <? pkt_tag a then 1
    else if pkt_tag a <? pkt_tag b then -1
    else
      let ret := memcmp (pkt_data a) (pkt_data b)
                   (Nat.min (length (pkt_data a)) (length (pkt_data b))) in
      if (ret =? 0) && negb (zlen (pkt_data a) =? zlen (pkt_data b))
      then if zlen (pkt_data a) <? zlen (pkt_data b) then -1 else 1
      else ret).
Proof.
  intros [[Ha _] La] [[Hb _] Lb]. unfold compare_packets.
  destruct (_ <? _); [done|]. destruct (_ <? _); [done|]. rewrite Ha, Hb in *.
  pose proof (zlen_nonneg (pkt_data a)). pose proof (zlen_nonneg (pkt_data b)).
  set (m := if zlen (pkt_data a) <? zlen (pkt_data b) then zlen (pkt_data a) else zlen (pkt_data b)).
  assert (Hm : 0 <= m < 2 ^ 31) by (unfold m; case_if; lia).
  assert (Em : Z.to_nat m = Nat.min (length (pkt_data a)) (length (pkt_data b))).
  { unfold m, zlen. destruct (Z.ltb_spec (Z.of_nat (length (pkt_data a))) (Z.of_nat (length (pkt_data b)))); lia. }
  rewrite (i32_small m) by lia. destruct (Z.ltb_spec m 0); [lia|]. by rewrite Em.
Qed.

Lemma compare_packets_same a b :
  small_packet a -> small_packet b ->
  exists r, compare_packets a b = Done r /\ (r = 0 <-> same_packet a b).
Proof.
  intros Ha Hb. rewrite compare_packets_small by done. eexists. split; [done|]. unfold same_packet.
  set (x := pkt_data a). set (y := pkt_data b). split.
  - destruct (Z.ltb_spec (pkt_tag b) (pkt_tag a)); [done|].
    destruct (Z.ltb_spec (pkt_tag a) (pkt_tag b)); [done|]. cbv zeta.
    destruct (_ && _) eqn:E; [by destruct (_ <? _)|]. intros Hm. split; [lia|].
    rewrite Hm in E. cbn in E. apply negb_false_iff, Z.eqb_eq in E. unfold zlen in E.
    replace (Nat.min (length x) (length y)) with (length x) in Hm by lia.
    apply memcmp_eq in Hm; [done|lia].
  - intros [Ht Hd]. rewrite Ht, Z.ltb_irrefl, Hd, memcmp_refl, !Z.eqb_refl. done.
Qed.

Lemma compare_packets_eqb a b :
  small_packet a -> small_packet b ->
  exists r, compare_packets a b = Done r /\ (r =? 0) = bool_decide (same_packet a b).
Proof.
  intros Ha Hb. destruct (compare_packets_same a b Ha Hb) as (r & E & Hr). exists r. split; [done|].
  apply eq_bool_prop_intro. rewrite bool_decide_spec, <- Hr.
  destruct (Z.eqb_spec r 0); cbn; naive_solver.
Qed.

(** * Signatures as a signer and a time *)

Definition sig_version (p : openpgp_packet) : Z :=
  match (pkt_data p).[0] with Done v => v | Fault _ => 0 end.
Definition sig_type (p : openpgp_packet) : Z :=
  match sig_sigtype p with Done t => t | Fault _ => 0xFF end.
Definition sig_kid (p : openpgp_packet) : Z :=
  match sig_info p (Some None) None with Done (_, Some (Some k), _) => k | _ => 0 end.
Definition sig_time (p : openpgp_packet) : Z :=
  match sig_info p None (Some None) with Done (_, _, Some (Some t)) => t | _ => 0 end.

(** A signature packet, not cut off, that names a creation time. *)
Definition sig_good (p : openpgp_packet) : Prop :=
  pkt_tag p = OPENPGP_PACKET_SIGNATURE /\ wf_packet p /\ 4 <= pkt_length p /\
  exists kid t, sig_decodes p kid (Some t).

(** Same version, same type and same, known, key id. *)
Definition same_signer (a b : openpgp_packet) : bool :=
  (sig_version a =? sig_version b) && (sig_type a =? sig_type b)
  && negb (sig_kid a =? 0) && (sig_kid a =? sig_kid b).

Definition sig_rev (p : openpgp_packet) : bool := sig_is_revocation (sig_type p).

Lemma same_signer_sym a b : same_signer a b = same_signer b a.
Proof.
  unfold same_signer.
  destruct (Z.eqb_spec (sig_version a) (sig_version b)), (Z.eqb_spec (sig_version b) (sig_version a)),
    (Z.eqb_spec (sig_type a) (sig_type b)), (Z.eqb_spec (sig_type b) (sig_type a)),
    (Z.eqb_spec (sig_kid a) (sig_kid b)), (Z.eqb_spec (sig_kid b) (sig_kid a)); try congruence; cbn;
    rewrite ?andb_false_r; congruence.
Qed.

Lemma same_signer_trans a b c : same_signer a b = true -> same_signer b c = true -> same_signer a c = true.
Proof.
  unfold same_signer. intros Hab Hbc. zbool.
  rewrite (proj2 (Z.eqb_eq _ _)), (proj2 (Z.eqb_eq (sig_type a) _)), (proj2 (Z.eqb_eq (sig_kid a) (sig_kid c)))
    by congruence.
  by rewrite (proj2 (Z.eqb_neq (sig_kid a) 0)).
Qed.

Lemma same_signer_rev a b : same_signer a b = true -> sig_rev a = sig_rev b.
Proof. unfold same_signer, sig_rev. intros H. zbool. congruence. Qed.

Lemma sig_decodes_fun p kid t :
  sig_decodes p kid (Some t) -> sig_kid p = kid /\ sig_time p = t.
Proof.
  intros (_ & _ & Hk & Hc). unfold sig_kid, sig_time.
  destruct (Hk None None) as [rc ->]. destruct (Hc (Some None)) as [rc' ->]. done.
Qed.

Lemma sig_good_info p :
  sig_good p ->
  (forall x, exists rc, sig_info p (Some x) None = Done (rc, Some (Some (sig_kid p)), None)) /\
  (forall x, exists rc, sig_info p None (Some x) = Done (rc, None, Some (Some (sig_time p)))) /\
  (exists rc, sig_info p (Some None) (Some None)
     = Done (rc, Some (Some (sig_kid p)), Some (Some (sig_time p)))).
Proof.
  intros (_ & _ & _ & kid & t & Hd). destruct (sig_decodes_fun p kid t Hd) as [-> ->].
  destruct Hd as (_ & _ & Hk & Hc). split; [|split].
  - intros x. apply (Hk x None).
  - intros x. apply (Hc (Some x)).
  - apply (Hk None (Some None)).
Qed.

Lemma sig_good_version p : sig_good p -> (pkt_data p).[0] = Done (sig_version p).
Proof.
  intros Hg. destruct (sig_good_info p Hg) as (H & _). destruct (H None) as [rc E].
  unfold sig_version. unfold sig_info in E. by destruct ((pkt_data p).[0]).
Qed.

Lemma sig_good_type p : sig_good p -> sig_sigtype p = Done (sig_type p).
Proof.
  intros Hg. unfold sig_type. pose proof (sig_good_version p Hg) as Hv. destruct Hg as (_ & Hwf & _).
  assert (exists t, sig_sigtype p = Done t) as [t ->]; [|done].
  unfold sig_sigtype. destruct (Z.ltb_spec (pkt_length p) 3); [eauto|]. rewrite Hv. cbn [mbind outcome_bind].
  destruct (wf_packet_rd p 2 Hwf ltac:(lia)) as (b2 & -> & _).
  destruct (wf_packet_rd p 1 Hwf ltac:(lia)) as (b1 & -> & _). repeat case_if; eauto.
Qed.

Lemma match_signer_good a b :
  sig_good a -> sig_good b -> signatures_match_signer a b = Done (same_signer a b).
Proof.
  intros Ha Hb. unfold signatures_match_signer, same_signer.
  rewrite (sig_good_version a Ha), (sig_good_version b Hb), (sig_good_type a Ha), (sig_good_type b Hb).
  destruct (sig_good_info a Ha) as (Ia & _), (sig_good_info b Hb) as (Ib & _).
  destruct (Ia None) as [ra ->], (Ib None) as [rb ->].
  destruct Ha as (-> & _), Hb as (-> & _). cbn [mbind outcome_bind deref read_var].
  cbn [OPENPGP_PACKET_SIGNATURE Z.eqb Pos.eqb negb orb].
  destruct (sig_version a =? sig_version b); [|done]. destruct (sig_type a =? sig_type b); [|done].
  cbn [negb andb]. destruct (Z.eqb_spec (sig_kid a) 0); [done|].
  destruct (Z.eqb_spec (sig_kid b) 0) as [E|]; [|done].
  cbn [negb andb]. destruct (Z.eqb_spec (sig_kid a) (sig_kid b)); [congruence | done].
Qed.

(** * dedupe_sigs on signatures that decode *)

(** [i] behind [o] loses against it. *)
Definition loses_to (i o : openpgp_packet) : Prop :=
  same_signer o i = true /\ (sig_rev o = true \/ sig_time i <= sig_time o).

(** What one run of the inner loop leaves behind. *)
Record inner_result (o : openpgp_packet) (l rest : list openpgp_packet) (d : bool) (n : Z) : Prop := {
  ir_sub : rest `sublist_of` l;
  ir_count : zlen rest + n = zlen l;
  ir_cover : forall i, i ∈ l -> i ∈ rest \/ loses_to i o;
  ir_keep : d = false -> forall i, i ∈ rest -> same_signer o i = false;
  ir_drop : d = true -> sig_rev o = false /\
    exists i, i ∈ rest /\ same_signer o i = true /\ sig_time o < sig_time i
}.

Lemma sig_cells_good o i (ts : times) :
  sig_good o -> sig_good i -> exists rc rc',
  sig_info o None (Some (ts.1)) = Done (rc, None, Some (Some (sig_time o))) /\
  sig_info i None (Some (ts.2)) = Done (rc', None, Some (Some (sig_time i))).
Proof.
  intros Ho Hi. destruct (sig_good_info o Ho) as (_ & To & _), (sig_good_info i Hi) as (_ & Ti & _).
  destruct (To (ts.1)) as [rc ->], (Ti (ts.2)) as [rc' ->]. eauto.
Qed.

Lemma inner_result_lose o i l rest d n :
  loses_to i o -> inner_result o l rest d n -> inner_result o (i :: l) rest d (n + 1).
Proof.
  intros Hlose [Hs Hc Hcov Hk Hd]. split; auto.
  - by apply sublist_cons.
  - rewrite zlen_cons. lia.
  - intros j [->|Hj]%elem_of_cons; auto.
Qed.

Lemma inner_result_other o i l rest d n :
  same_signer o i = false -> inner_result o l rest d n -> inner_result o (i :: l) (i :: rest) d n.
Proof.
  intros Hne [Hs Hc Hcov Hk Hd]. split.
  - by apply sublist_skip.
  - rewrite !zlen_cons. lia.
  - intros j [->|Hj]%elem_of_cons; [left; by left|]. destruct (Hcov j Hj); [left; by right | by right].
  - intros Hd' j [->|Hj]%elem_of_cons; auto.
  - intros Hd'. destruct (Hd Hd') as (Hr & j & Hj & ?). split; [done|]. exists j. split; [by right | done].
Qed.

Lemma dedupe_inner_good o l ts :
  sig_good o -> Forall sig_good l ->
  exists d rest n ts', dedupe_inner o l ts = Done (d, rest, n, ts') /\ inner_result o l rest d n.
Proof.
  intros Ho Hl. revert ts. induction Hl as [|i l Hi Hl IH]; intros ts.
  { eexists _, _, _, _. split; [done|]. split; try done; set_solver. }
  cbn [dedupe_inner]. rewrite match_signer_good by done. cbn [mbind outcome_bind].
  destruct (same_signer o i) eqn:Em.
  2: { destruct (IH ts) as (d & rest & n & ts' & -> & Hr). eexists _, _, _, _. split; [done|].
       by apply inner_result_other. }
  rewrite (sig_good_type o Ho). cbn [mbind outcome_bind]. fold (sig_rev o).
  destruct (sig_rev o) eqn:Er.
  { destruct (IH ts) as (d & rest & n & ts' & -> & Hr). eexists _, _, _, _. split; [done|].
    apply inner_result_lose; [|done]. split; auto. }
  destruct (sig_cells_good o i ts Ho Hi) as (rc & rc' & -> & ->). cbn [mbind outcome_bind deref read_var].
  destruct (Z.ltb_spec (sig_time o) (sig_time i)).
  { eexists _, _, _, _. split; [done|]. split; [done | lia | by left | done |].
    intros _. split; [done|]. exists i. split; [by left | done]. }
  destruct (IH (Some (sig_time o), Some (sig_time i))) as (d & rest & n & ts' & -> & Hr).
  eexists _, _, _, _. split; [done|]. apply inner_result_lose; [|done]. split; auto.
Qed.

(** The list of the signatures that [dedupe_sigs] keeps. *)
Record dedupe_result (l r : list openpgp_packet) (n : Z) : Prop := {
  dr_sub : r `sublist_of` l;
  dr_count : zlen r + n = zlen l;
  (* no two signatures of the same signer are left *)
  dr_distinct : forall i j a b, (i < j)%nat -> r !! i = Some a -> r !! j = Some b -> same_signer a b = false;
  (* every signature is still there or has a representative, no older if it
     is a certification *)
  dr_cover : forall s, s ∈ l -> s ∈ r \/ exists w, w ∈ r /\ same_signer w s = true /\
    (sig_rev s = false -> sig_time s <= sig_time w);
  (* the first revocation of a signer is the one that stays *)
  dr_first : forall s, sig_rev s = true ->
    head (filter (fun x => same_signer s x = true) r) = head (filter (fun x => same_signer s x = true) l)
}.

Lemma distinct_cons o r :
  (forall x, x ∈ r -> same_signer o x = false) ->
  (forall i j a b, (i < j)%nat -> r !! i = Some a -> r !! j = Some b -> same_signer a b = false) ->
  forall i j a b, (i < j)%nat -> (o :: r) !! i = Some a -> (o :: r) !! j = Some b -> same_signer a b = false.
Proof.
  intros Ho Hr i j a b Hij Ha Hb. destruct j as [|j]; [lia|]. cbn in Hb.
  destruct i as [|i]; cbn in Ha; [injection Ha as <-; apply Ho; by eapply list_elem_of_lookup_2|].
  apply (Hr i j); auto with lia.
Qed.

(** The inner loop only takes signatures of the outer signer. *)
Lemma dedupe_inner_filter o l ts d rest n ts' s :
  sig_good o -> Forall sig_good l -> dedupe_inner o l ts = Done (d, rest, n, ts') ->
  same_signer s o = false ->
  filter (fun x => same_signer s x = true) rest = filter (fun x => same_signer s x = true) l.
Proof.
  intros Ho Hl E Hs. revert ts d rest n ts' E. induction Hl as [|i l Hi Hl IH]; intros ts d rest n ts' E.
  { cbn in E. by inv_done. }
  cbn [dedupe_inner] in E. rewrite match_signer_good in E by done. cbn [mbind outcome_bind] in E.
  assert (Hskip : same_signer o i = true -> same_signer s i = false).
  { intros Hoi. destruct (same_signer s i) eqn:Esi; [|done].
    rewrite (same_signer_trans s i o) in Hs; [done | done | by rewrite same_signer_sym]. }
  destruct (same_signer o i) eqn:Em.
  2: { inv_done. repeat match goal with H : context [let '(_, _) := ?x in _] |- _ => destruct x end.
       inv_done. rewrite !filter_cons. by erewrite IH. }
  rewrite (sig_good_type o Ho) in E. cbn [mbind outcome_bind] in E.
  rewrite filter_cons_False by (rewrite Hskip; done).
  destruct (sig_is_revocation _).
  { inv_done. repeat match goal with H : context [let '(_, _) := ?x in _] |- _ => destruct x end.
    inv_done. by erewrite IH. }
  destruct (sig_cells_good o i ts Ho Hi) as (rc & rc' & E1 & E2). rewrite E1, E2 in E.
  cbn [mbind outcome_bind deref read_var] in E. destruct (_ <? _).
  { inv_done. by rewrite filter_cons_False by (rewrite Hskip; done). }
  inv_done. repeat match goal with H : context [let '(_, _) := ?x in _] |- _ => destruct x end.
  inv_done. by erewrite IH.
Qed.

Lemma sublist_elem {A} (l k : list A) x : l `sublist_of` k -> x ∈ l -> x ∈ k.
Proof. intros Hs. revert x. induction Hs; set_solver. Qed.

Lemma loses_to_cover i o w :
  loses_to i o -> (w = o \/ (same_signer w o = true /\ sig_time o <= sig_time w)) ->
  same_signer w i = true /\ (sig_rev i = false -> sig_time i <= sig_time w).
Proof.
  intros [Hs Ht] [-> | [Hw Hle]].
  - split; [done|]. intros Hr. rewrite (same_signer_rev _ _ Hs) in Ht. destruct Ht; [congruence | lia].
  - split; [by eapply same_signer_trans|]. intros Hr. rewrite (same_signer_rev _ _ Hs) in Ht.
    destruct Ht; [congruence | lia].
Qed.

(** One outer signature that is kept, and one that is dropped. *)
Lemma dedupe_keep o l rest n r m :
  inner_result o l rest false n -> dedupe_result rest r m ->
  (forall s, same_signer s o = false ->
     filter (fun x => same_signer s x = true) rest = filter (fun x => same_signer s x = true) l) ->
  dedupe_result (o :: l) (o :: r) (n + m).
Proof.
  intros [Hs Hc Hcov Hk _] [Ds Dc Dd Dcov Df] Hfil. split.
  - apply sublist_skip. by etrans.
  - rewrite !zlen_cons. lia.
  - apply distinct_cons; [|done]. intros x Hx. apply Hk; [done|]. by eapply sublist_elem.
  - intros s [->|Hin]%elem_of_cons; [left; by left|].
    destruct (Hcov s Hin) as [Hrest|Hlose].
    + destruct (Dcov s Hrest) as [|(w & Hw & ?)]; [left; by right|]. right. exists w.
      split; [by right | done].
    + right. exists o. split; [by left|]. apply (loses_to_cover s o o); auto.
  - intros s Hr. rewrite !filter_cons. destruct (same_signer s o) eqn:E.
    + by rewrite !decide_True.
    + rewrite !decide_False by congruence. by rewrite Df, Hfil.
Qed.

Lemma dedupe_drop o l rest n r m :
  inner_result o l rest true n -> dedupe_result rest r m ->
  (forall s, same_signer s o = false ->
     filter (fun x => same_signer s x = true) rest = filter (fun x => same_signer s x = true) l) ->
  dedupe_result (o :: l) r (n + m + 1).
Proof.
  intros [Hs Hc Hcov _ Hd] [Ds Dc Dd Dcov Df] Hfil.
  destruct (Hd eq_refl) as (Hrev & i & Hi & Hoi & Hlt).
  (* the representative of the newer signature also represents [o] *)
  assert (exists w, w ∈ r /\ same_signer w o = true /\ sig_time o <= sig_time w) as (w & Hw & Hwo & Hle).
  { destruct (Dcov i Hi) as [Hir | (w & Hw & Hwi & Ht)].
    - exists i. split; [done|]. split; [by rewrite same_signer_sym | lia].
    - exists w. split; [done|]. split.
      + apply (same_signer_trans w i o); [done|]. by rewrite same_signer_sym.
      + rewrite <- (same_signer_rev _ _ Hoi) in Ht. specialize (Ht Hrev). lia. }
  split.
  - apply sublist_cons. by etrans.
  - rewrite zlen_cons. lia.
  - done.
  - intros s [->|Hin]%elem_of_cons; [right; by exists w|].
    destruct (Hcov s Hin) as [Hrest|Hlose]; [by apply Dcov|].
    right. exists w. split; [done|]. apply (loses_to_cover s o w); auto.
  - intros s Hr. rewrite filter_cons. destruct (same_signer s o) eqn:E.
    + rewrite (same_signer_rev _ _ E) in Hr. congruence.
    + rewrite decide_False by congruence. by rewrite Df, Hfil.
Qed.

Lemma dedupe_outer_good fuel l ts :
  Forall sig_good l -> (length l <= fuel)%nat ->
  exists r n, dedupe_outer fuel l ts = Done (r, n) /\ dedupe_result l r n.
Proof.
  revert l ts. induction fuel as [|fuel IH]; intros l ts Hl Hf; (destruct l as [|o l]; [|]).
  1, 3: eexists _, _; split; [done|]; split; try done; set_solver.
  { cbn in Hf. lia. }
  inversion Hl as [|? ? Ho Hl']; subst. cbn [dedupe_outer length] in *.
  destruct (dedupe_inner_good o l ts Ho Hl') as (d & rest & n & ts' & E & Hin). rewrite E.
  cbn [mbind outcome_bind].
  assert (Hrest : Forall sig_good rest).
  { apply Forall_forall. intros x Hx. rewrite Forall_forall in Hl'. apply Hl'.
    eapply sublist_elem; [apply Hin | done]. }
  destruct (IH rest ts' Hrest) as (r & m & Er & Hr).
  { pose proof (sublist_length _ _ (ir_sub _ _ _ _ _ Hin)). lia. }
  rewrite Er. cbn [mbind outcome_bind].
  assert (Hfil : forall s, same_signer s o = false ->
     filter (fun x => same_signer s x = true) rest = filter (fun x => same_signer s x = true) l)
    by (intros s Hs; by apply (dedupe_inner_filter o l ts d rest n ts' s)).
  destruct d; eexists _, _; (split; [done|]).
  - by eapply dedupe_drop.
  - by eapply dedupe_keep.
Qed.

(** A list without two signatures of the same signer is left alone. *)
Lemma dedupe_outer_distinct fuel l ts :
  Forall sig_good l -> (length l <= fuel)%nat ->
  (forall i j a b, (i < j)%nat -> l !! i = Some a -> l !! j = Some b -> same_signer a b = false) ->
  dedupe_outer fuel l ts = Done (l, 0).
Proof.
  intros Hl. revert fuel ts. induction Hl as [|o l Ho Hl IH]; intros fuel ts Hf Hd; [by destruct fuel|].
  destruct fuel as [|fuel]; [cbn in Hf; lia|]. cbn [dedupe_outer].
  assert (Hi : dedupe_inner o l ts = Done (false, l, 0, ts)).
  { assert (Hne : Forall (fun x => same_signer o x = false) l).
    { apply Forall_lookup. intros j x Hx. apply (Hd 0%nat (S j)); auto with lia. }
    clear -Hne Hl Ho. induction Hl as [|i l Hi Hl IH]; [done|]. inversion Hne; subst. cbn [dedupe_inner].
    rewrite match_signer_good by done. cbn [mbind outcome_bind].
    rewrite H1, IH by done. done. }
  rewrite Hi. cbn [mbind outcome_bind]. rewrite IH; [done | cbn in Hf; lia |].
  intros i j a b Hij Ha Hb. apply (Hd (S i) (S j)); auto with lia.
Qed.

Lemma dedupe_sigs_good l :
  Forall sig_good l -> exists r n, dedupe_sigs l = Done (r, n) /\ dedupe_result l r n.
Proof. intros. by apply dedupe_outer_good. Qed.

(** * Signatures that are the same *)

Definition sig_octet1 (p : openpgp_packet) : Z :=
  match (pkt_data p).[1] with Done b => b | Fault _ => 0 end.

(** Same version, type octet (of version 4 signatures), time and signer. *)
Definition same_sig (a b : openpgp_packet) : bool :=
  (sig_version a =? sig_version b)
  && (negb (sig_version a =? 4) || (sig_octet1 a =? sig_octet1 b))
  && (sig_time a =? sig_time b) && (sig_kid a =? sig_kid b).

Lemma same_sig_refl a : same_sig a a = true.
Proof. unfold same_sig. rewrite !Z.eqb_refl. by rewrite orb_true_r. Qed.

Lemma compare_signatures_good a b :
  sig_good a -> sig_good b -> compare_signatures a b = Done (same_sig a b).
Proof.
  intros Ha Hb. unfold compare_signatures, same_sig, sig_octet1.
  rewrite (sig_good_version a Ha), (sig_good_version b Hb).
  destruct (sig_good_info a Ha) as (_ & _ & ra & ->), (sig_good_info b Hb) as (_ & _ & rb & ->).
  destruct Ha as (_ & Wa & La & _), Hb as (_ & Wb & Lb & _).
  destruct (wf_packet_rd a 1 Wa ltac:(lia)) as (a1 & -> & _).
  destruct (wf_packet_rd b 1 Wb ltac:(lia)) as (b1 & -> & _).
  cbn [mbind outcome_bind deref read_var].
  destruct (sig_version a =? sig_version b); [|done]. cbn [negb andb].
  destruct (sig_version a =? 4); cbn [mbind outcome_bind negb orb andb]; [destruct (a1 =? b1); [|done]|];
    cbn [negb andb]; by destruct (sig_time a =? sig_time b).
Qed.

Definition has_sig (l : list openpgp_packet) (s : openpgp_packet) : bool :=
  existsb (fun q => same_sig q s) l.

(** The signatures of [new] that [old] lacks. *)
Definition diff_sigs (old new : list openpgp_packet) : list openpgp_packet :=
  List.filter (fun s => negb (has_sig old s)) new.

Lemma find_signature_good l s :
  Forall sig_good l -> sig_good s -> find_signature l s = Done (has_sig l s).
Proof.
  intros Hl Hs. induction Hl as [|q l Hq Hl IH]; [done|]. cbn [find_signature has_sig existsb].
  rewrite compare_signatures_good by done. cbn [mbind outcome_bind]. by destruct (same_sig q s).
Qed.

Lemma new_signatures_good old new :
  Forall sig_good old -> Forall sig_good new -> new_signatures old new = Done (diff_sigs old new).
Proof.
  intros Ho Hn. induction Hn as [|s new Hs Hn IH]; [done|]. cbn [new_signatures diff_sigs List.filter].
  rewrite find_signature_good, IH by done. cbn [mbind outcome_bind]. by destruct (has_sig old s).
Qed.

Lemma Forall_List_filter {A} (P : A -> Prop) f l : Forall P l -> Forall P (List.filter f l).
Proof. induction 1; cbn; [done|]. case_if; auto. Qed.

Lemma sig_good_wf s : sig_good s -> wf_packet s.
Proof. by intros (_ & ? & _). Qed.

Lemma sigs_good_wf l : Forall sig_good l -> Forall wf_packet l.
Proof. intros H. eapply Forall_impl; [exact H | apply sig_good_wf]. Qed.

#[export] Hint Resolve Forall_List_filter sig_good_wf sigs_good_wf : onak.

(** * Which signatures stay *)

(** A signature gives way to an earlier one of its signer, unless it is a
    newer certification, and a certification gives way to a later one that is
    newer: of several revocations the first stays, of several certifications
    the first of the newest ones. *)
Definition yields_to_earlier (s e : openpgp_packet) : bool :=
  same_signer e s && (sig_rev s || (sig_time s <=? sig_time e)).

Definition yields_to_later (s x : openpgp_packet) : bool :=
  same_signer s x && negb (sig_rev s) && (sig_time s <? sig_time x).

Fixpoint survivors (before l : list openpgp_packet) : list openpgp_packet :=
  match l with
  | [] => []
  | s :: l =>
      if existsb (yields_to_earlier s) before || existsb (yields_to_later s) l
      then survivors (before ++ [s]) l
      else s :: survivors (before ++ [s]) l
  end.

Definition kept_sigs (l : list openpgp_packet) : list openpgp_packet := survivors [] l.

(** The signatures of other signers than that of [o]. *)
Definition others (o : openpgp_packet) (l : list openpgp_packet) : list openpgp_packet :=
  List.filter (fun x => negb (same_signer o x)) l.

(** What the inner loop leaves, exactly. *)
Lemma dedupe_inner_shape o l ts :
  sig_good o -> Forall sig_good l ->
  exists d rest n ts', dedupe_inner o l ts = Done (d, rest, n, ts') /\
    if d : bool then exists p i t, l = p ++ i :: t /\ rest = others o p ++ i :: t /\
      same_signer o i = true /\ sig_rev o = false /\ sig_time o < sig_time i /\
      (forall x, x ∈ p -> same_signer o x = true -> loses_to x o)
    else rest = others o l /\ forall x, x ∈ l -> same_signer o x = true -> loses_to x o.
Proof.
  intros Ho Hl. revert ts. induction Hl as [|i l Hi Hl IH]; intros ts.
  { eexists _, _, _, _. split; [done|]. cbn. set_solver. }
  cbn [dedupe_inner]. rewrite match_signer_good by done. cbn [mbind outcome_bind].
  assert (Hmore : forall ts0 d rest n ts', dedupe_inner o l ts0 = Done (d, rest, n, ts') ->
    (same_signer o i = true -> loses_to i o) ->
    (if d : bool then exists p j t, l = p ++ j :: t /\ rest = others o p ++ j :: t /\
       same_signer o j = true /\ sig_rev o = false /\ sig_time o < sig_time j /\
       (forall x, x ∈ p -> same_signer o x = true -> loses_to x o)
     else rest = others o l /\ forall x, x ∈ l -> same_signer o x = true -> loses_to x o) ->
    let rest' := if same_signer o i then rest else i :: rest in
    if d : bool then exists p j t, i :: l = p ++ j :: t /\ rest' = others o p ++ j :: t /\
       same_signer o j = true /\ sig_rev o = false /\ sig_time o < sig_time j /\
       (forall x, x ∈ p -> same_signer o x = true -> loses_to x o)
     else rest' = others o (i :: l) /\ forall x, x ∈ i :: l -> same_signer o x = true -> loses_to x o).
  { intros ts0 d rest n ts' _ Hlo Hr rest'. unfold rest'. destruct d.
    - destruct Hr as (p & j & t & -> & -> & Hj & Hrev & Ht & Hp). exists (i :: p), j, t.
      unfold others. cbn [List.filter]. split; [done|]. split; [by destruct (same_signer o i)|].
      do 3 (split; [done|]). intros x [->|Hx]%elem_of_cons; auto.
    - destruct Hr as [-> Hp]. unfold others. cbn [List.filter]. split; [by destruct (same_signer o i)|].
      intros x [->|Hx]%elem_of_cons; auto. }
  destruct (same_signer o i) eqn:Em.
  2: { destruct (IH ts) as (d & rest & n & ts' & E & Hr). rewrite E. eexists _, _, _, _. split; [done|].
       by apply (Hmore ts d rest n ts'). }
  rewrite (sig_good_type o Ho). cbn [mbind outcome_bind]. fold (sig_rev o).
  destruct (sig_rev o) eqn:Er.
  { destruct (IH ts) as (d & rest & n & ts' & E & Hr). rewrite E. eexists _, _, _, _. split; [done|].
    apply (Hmore ts d rest n ts'); [done | by split; auto | done]. }
  destruct (sig_cells_good o i ts Ho Hi) as (rc & rc' & -> & ->). cbn [mbind outcome_bind deref read_var].
  destruct (Z.ltb_spec (sig_time o) (sig_time i)).
  { eexists _, _, _, _. split; [done|]. exists [], i, l. repeat split; auto; set_solver. }
  destruct (IH (Some (sig_time o), Some (sig_time i))) as (d & rest & n & ts' & E & Hr). rewrite E.
  eexists _, _, _, _. split; [done|]. eapply Hmore; [done | by split; auto | done].
Qed.

Lemma yields_earlier_loses s o : yields_to_earlier s o = true <-> loses_to s o.
Proof.
  unfold yields_to_earlier, loses_to. rewrite andb_true_iff, orb_true_iff, Z.leb_le.
  split; intros [Hs Ht]; (split; [done|]); by rewrite (same_signer_rev _ _ Hs) in *.
Qed.

(** Signatures of another signer than [o] do not see those of [o]. *)
Lemma existsb_others o s (f : openpgp_packet -> bool) l :
  same_signer o s = false -> (forall x, f x = true -> same_signer s x = true) ->
  existsb f (others o l) = existsb f l.
Proof.
  intros Ho Hf. unfold others. induction l as [|x l IH]; [done|]. cbn [List.filter existsb].
  destruct (same_signer o x) eqn:E; cbn [negb existsb]; rewrite IH; [|done].
  destruct (f x) eqn:Ef; [|done]. apply Hf in Ef.
  rewrite (same_signer_trans o x s) in Ho; [done | done | by rewrite same_signer_sym].
Qed.

Lemma yields_earlier_signer s x : yields_to_earlier s x = true -> same_signer s x = true.
Proof. unfold yields_to_earlier. rewrite same_signer_sym. by intros [? _]%andb_true_iff. Qed.

Lemma yields_later_signer s x : yields_to_later s x = true -> same_signer s x = true.
Proof. unfold yields_to_later. by intros [[? _]%andb_true_iff _]%andb_true_iff. Qed.

(** Only what is dominated counts of the signatures before. *)
Lemma survivors_before b1 b2 l :
  (forall s, s ∈ l -> existsb (yields_to_earlier s) b1 = existsb (yields_to_earlier s) b2) ->
  survivors b1 l = survivors b2 l.
Proof.
  revert b1 b2. induction l as [|s l IH]; intros b1 b2 H; [done|]. cbn [survivors].
  rewrite (H s) by (by left). rewrite (IH (b1 ++ [s]) (b2 ++ [s])); [done|].
  intros x Hx. rewrite !existsb_app. rewrite (H x) by (by right). done.
Qed.

Lemma others_snoc_same o b s : same_signer o s = true -> others o (b ++ [s]) = others o b.
Proof.
  intros E. unfold others. rewrite List.filter_app. cbn [List.filter]. rewrite E. apply app_nil_r.
Qed.

Lemma others_snoc_other o b s : same_signer o s = false -> others o (b ++ [s]) = others o b ++ [s].
Proof. intros E. unfold others. rewrite List.filter_app. cbn [List.filter]. by rewrite E. Qed.

(** A signature that wins against all of its signer behind it. *)
Lemma survivors_winner o b l :
  o ∈ b -> (forall x, x ∈ l -> same_signer o x = true -> loses_to x o) ->
  survivors b l = survivors (others o b) (others o l).
Proof.
  revert b. induction l as [|s l IH]; intros b Hb Hl; [done|]. cbn [survivors].
  assert (Hb' : o ∈ b ++ [s]) by set_solver.
  assert (IH' := IH (b ++ [s]) Hb' ltac:(intros; apply Hl; [by right | done])).
  destruct (same_signer o s) eqn:E.
  - assert (existsb (yields_to_earlier s) b = true) as ->.
    { apply existsb_exists. exists o. split; [by apply list_elem_of_In|].
      apply yields_earlier_loses, Hl; [by left | done]. }
    cbn [orb]. rewrite IH', others_snoc_same by done. unfold others at 4. cbn [List.filter]. by rewrite E.
  - unfold others at 2. cbn [List.filter]. rewrite E. cbn [negb survivors]. fold (others o l).
    rewrite (existsb_others o s) by eauto using yields_earlier_signer.
    rewrite (existsb_others o s) by eauto using yields_later_signer.
    by rewrite IH', others_snoc_other by done.
Qed.

(** A signature that loses against a later one, [i]: the signatures of its
    signer up to there do not matter. *)
Lemma survivors_loser o i b p t :
  o ∈ b -> same_signer o i = true -> sig_rev o = false -> sig_time o < sig_time i ->
  (forall x, x ∈ b -> same_signer o x = true -> sig_time x <= sig_time o) ->
  (forall x, x ∈ p -> same_signer o x = true -> loses_to x o) ->
  survivors b (p ++ i :: t) = survivors (others o b) (others o p ++ i :: t).
Proof.
  intros Ho Hi Hrev Ht. revert b Ho. induction p as [|s p IH]; intros b Ho Hb Hp; cbn [app].
  - assert (Hri : sig_rev i = false) by (by rewrite <- (same_signer_rev _ _ Hi)).
    assert (Hd : existsb (yields_to_earlier i) b = existsb (yields_to_earlier i) (others o b)).
    { assert (Hno : forall c, (forall x, x ∈ c -> x ∈ b) -> existsb (yields_to_earlier i) c = false).
      { intros c Hc. apply not_true_is_false. intros (x & Hx & Hy)%existsb_exists.
        apply list_elem_of_In, Hc in Hx. apply yields_earlier_loses in Hy as [Hs [Hr|Hle]].
        - rewrite (same_signer_rev _ _ Hs) in Hr. congruence.
        - specialize (Hb x Hx). rewrite same_signer_sym in Hs. rewrite (same_signer_trans o i x Hi Hs) in Hb.
          specialize (Hb eq_refl). lia. }
      rewrite !Hno; [done | | done]. intros x Hx. apply list_elem_of_In, List.filter_In in Hx as [Hx _].
      by apply list_elem_of_In. }
    cbn [survivors]. rewrite Hd.
    assert (Hs : survivors (b ++ [i]) t = survivors (others o b ++ [i]) t).
    { apply survivors_before. intros s _. destruct (same_signer o s) eqn:Es.
      - rewrite !existsb_app. cbn [existsb]. rewrite orb_false_r.
        destruct (yields_to_earlier s i) eqn:Ey; [by rewrite !orb_true_r|]. rewrite !orb_false_r.
        assert (Hno : forall c, (forall x, x ∈ c -> x ∈ b) -> existsb (yields_to_earlier s) c = false).
        { intros c Hc. apply not_true_is_false. intros (x & Hx & Hy)%existsb_exists.
          apply list_elem_of_In, Hc in Hx. pose proof (yields_earlier_signer _ _ Hy) as Hsx.
          apply yields_earlier_loses in Hy as [Hxs [Hr|Hle]].
          - rewrite (same_signer_rev _ _ Hxs), <- (same_signer_rev _ _ Es) in Hr. congruence.
          - specialize (Hb x Hx (same_signer_trans _ _ _ Es Hsx)).
            apply not_true_iff_false in Ey. apply Ey, yields_earlier_loses. split; [|right; lia].
            apply (same_signer_trans i o s); [by rewrite same_signer_sym | done]. }
        rewrite !Hno; [done | | done]. intros x Hx. apply list_elem_of_In, List.filter_In in Hx as [Hx _].
        by apply list_elem_of_In.
      - rewrite !existsb_app. f_equal. symmetry. apply (existsb_others o s); eauto using yields_earlier_signer. }
    by rewrite Hs.
  - cbn [survivors]. assert (Hp' : forall x, x ∈ p -> same_signer o x = true -> loses_to x o)
      by (intros; apply Hp; [by right | done]).
    destruct (same_signer o s) eqn:E.
    + pose proof (Hp s ltac:(by left) E) as Hlo.
      assert (existsb (yields_to_earlier s) b = true) as ->.
      { apply existsb_exists. exists o. split; [by apply list_elem_of_In|]. by apply yields_earlier_loses. }
      cbn [orb]. rewrite IH; [|set_solver | | done].
      * rewrite others_snoc_same by done. unfold others at 4. cbn [List.filter]. by rewrite E.
      * intros x [Hx|Hx]%elem_of_app; [by apply Hb|]. apply list_elem_of_singleton in Hx as ->. intros _.
        destruct Hlo as [_ [?|?]]; [congruence | done].
    + unfold others at 2. cbn [List.filter]. rewrite E. cbn [negb survivors app]. fold (others o p).
      rewrite (existsb_others o s) by eauto using yields_earlier_signer.
      assert (existsb (yields_to_later s) (p ++ i :: t) = existsb (yields_to_later s) (others o p ++ i :: t)) as ->.
      { rewrite !existsb_app. f_equal. symmetry. apply (existsb_others o s); eauto using yields_later_signer. }
      rewrite IH; [by rewrite others_snoc_other | set_solver | | done].
      intros x [Hx|Hx]%elem_of_app; [by apply Hb|]. apply list_elem_of_singleton in Hx as ->. congruence.
Qed.

(** The loops of [dedupe_sigs] keep exactly these. *)
Lemma dedupe_outer_kept fuel l ts :
  Forall sig_good l -> (length l <= fuel)%nat -> exists n, dedupe_outer fuel l ts = Done (kept_sigs l, n).
Proof.
  revert l ts. induction fuel as [|fuel IH]; intros [|o l] ts Hl Hf; [by eexists | cbn in Hf; lia | by eexists |].
  apply Forall_cons in Hl as [Ho Hl]. cbn [dedupe_outer length] in *.
  destruct (dedupe_inner_shape o l ts Ho Hl) as (d & rest & n & ts' & E & Hr). rewrite E. cbn [mbind outcome_bind].
  destruct (dedupe_inner_good o l ts Ho Hl) as (d0 & rest0 & n0 & ts0 & E0 & Hin).
  rewrite E in E0. injection E0 as <- <- <- <-.
  assert (Hrest : Forall sig_good rest).
  { apply Forall_forall. intros x Hx. rewrite Forall_forall in Hl. apply Hl.
    eapply sublist_elem; [apply Hin | done]. }
  destruct (IH rest ts' Hrest) as (m & ->).
  { pose proof (sublist_length _ _ (ir_sub _ _ _ _ _ Hin)). lia. }
  cbn [mbind outcome_bind]. unfold kept_sigs. cbn [survivors existsb orb app]. destruct d; cbn [mbind].
  - destruct Hr as (p & i & t & -> & -> & Hi & Hrev & Ht & Hp). eexists.
    assert (existsb (yields_to_later o) (p ++ i :: t) = true) as ->.
    { apply existsb_exists. exists i. split; [apply in_or_app; right; by left|].
      unfold yields_to_later. rewrite Hi, Hrev. by apply Z.ltb_lt. }
    rewrite (survivors_loser o i [o] p t); [|set_solver | done | done | done | | done].
    2: { intros x Hx%list_elem_of_singleton _. subst. lia. }
    assert (Hoo : same_signer o o = true)
      by (apply (same_signer_trans o i o); [done | by rewrite same_signer_sym]).
    replace (others o [o]) with (@nil openpgp_packet) by (unfold others; cbn [List.filter]; by rewrite Hoo).
    done.
  - destruct Hr as [-> Hp]. eexists.
    assert (existsb (yields_to_later o) l = false) as ->.
    { apply not_true_is_false. intros (x & Hx & Hy)%existsb_exists. pose proof (yields_later_signer _ _ Hy) as Hs.
      apply list_elem_of_In in Hx. destruct (Hp x Hx Hs) as [_ Hle]. unfold yields_to_later in Hy. zbool.
      destruct Hle; [congruence | lia]. }
    rewrite (survivors_winner o [o] l); [|set_solver | done].
    f_equal. f_equal. f_equal. unfold others at 2. cbn [List.filter].
    destruct (same_signer o o) eqn:Eoo; [done|]. cbn [negb]. apply survivors_before.
    intros s Hs. cbn [existsb]. rewrite orb_false_r. symmetry. apply not_true_is_false. intros Hy%yields_earlier_signer.
    apply not_true_iff_false in Eoo. apply Eoo. rewrite same_signer_sym in Hy.
    apply (same_signer_trans o s o); [done | by rewrite same_signer_sym].
Qed.

Lemma dedupe_sigs_kept l :
  Forall sig_good l -> exists n, dedupe_sigs l = Done (kept_sigs l, n) /\ dedupe_result l (kept_sigs l) n.
Proof.
  intros Hl. destruct (dedupe_outer_kept (length l) l (None, None) Hl ltac:(lia)) as [n E].
  destruct (dedupe_sigs_good l Hl) as (r & m & E' & Hr). unfold dedupe_sigs in *. exists n. split; [done|].
  rewrite E in E'. by injection E' as <- <-.
Qed.

Definition signed_good (sp : openpgp_signedpacket) : Prop :=
  small_packet (sp_packet sp) /\ Forall sig_good (sp_sigs sp).

(** The old packet with the signatures of both. *)
Definition merged_sigs (old new : list openpgp_packet) : list openpgp_packet :=
  kept_sigs (old ++ diff_sigs old new).

Lemma merge_packet_sigs_good old new :
  signed_good old -> signed_good new -> same_packet (sp_packet old) (sp_packet new) ->
  merge_packet_sigs old new =
    Done (set_sp_sigs old (merged_sigs (sp_sigs old) (sp_sigs new)),
          set_sp_sigs new (diff_sigs (sp_sigs old) (sp_sigs new))).
Proof.
  intros (Wo & Go) (Wn & Gn) Hs. unfold merge_packet_sigs.
  destruct (compare_packets_same _ _ Wo Wn) as (ret & -> & Hret). rewrite (proj2 Hret Hs).
  cbn [Z.eqb c_assert mbind outcome_bind].
  rewrite new_signatures_good by done. cbn [mbind outcome_bind].
  rewrite packet_list_add_wf by (unfold diff_sigs; auto with onak). cbn [mbind outcome_bind].
  destruct (dedupe_sigs_kept (sp_sigs old ++ diff_sigs (sp_sigs old) (sp_sigs new))) as (n & -> & _); [|done].
  apply Forall_app. unfold diff_sigs. auto with onak.
Qed.

(** * Lists of signed packets *)

(** What identifies a signed packet. *)
Definition sp_id (sp : openpgp_signedpacket) : Z * list Z :=
  (pkt_tag (sp_packet sp), pkt_data (sp_packet sp)).

Definition pkt_id (p : openpgp_packet) : Z * list Z := (pkt_tag p, pkt_data p).

Definition lookup_sp (l : list openpgp_signedpacket) (id : Z * list Z) : option openpgp_signedpacket :=
  List.find (fun sp => bool_decide (sp_id sp = id)) l.

Definition distinct_sps (l : list openpgp_signedpacket) : Prop := NoDup (map sp_id l).

Lemma same_packet_id a b : same_packet a b <-> pkt_id a = pkt_id b.
Proof. unfold same_packet, pkt_id. split; [by intros [-> ->] | by intros [= -> ->]]. Qed.

Lemma compare_sp_id sp p :
  small_packet (sp_packet sp) -> small_packet p ->
  exists r, compare_packets (sp_packet sp) p = Done r /\ (r =? 0) = bool_decide (sp_id sp = pkt_id p).
Proof.
  intros Hs Hp. destruct (compare_packets_eqb _ _ Hs Hp) as (r & E & Hr). exists r. split; [done|].
  rewrite Hr. apply bool_decide_ext. apply same_packet_id.
Qed.

Lemma lookup_sp_None l id : lookup_sp l id = None <-> id ∉ map sp_id l.
Proof.
  induction l as [|sp l IH]; [set_solver|]. unfold lookup_sp in *. cbn [List.find map].
  case_bool_decide; set_solver.
Qed.

Lemma lookup_sp_Some l id sp : lookup_sp l id = Some sp -> sp ∈ l /\ sp_id sp = id.
Proof. unfold lookup_sp. intros [Hin Hid]%List.find_some. split; [by apply list_elem_of_In | by case_bool_decide]. Qed.

Lemma id_notin_cons id x l : id ∉ map sp_id (x :: l) <-> sp_id x <> id /\ id ∉ map sp_id l.
Proof. cbn [map]. rewrite not_elem_of_cons. split; intros []; auto. Qed.

(** Finding a packet splits the list at the only element with its id. *)
Lemma find_signed_packet_spec l p :
  Forall signed_good l -> small_packet p ->
  exists found, find_signed_packet l p = Done found /\
  match found with
  | Some (pre, sp, post) => l = pre ++ sp :: post /\ sp_id sp = pkt_id p /\ pkt_id p ∉ map sp_id pre
  | None => pkt_id p ∉ map sp_id l
  end.
Proof.
  intros Hl Hp. induction Hl as [|sp l [Hw _] Hl IH]; cbn [find_signed_packet]; [eexists; split; [done|]; set_solver|].
  destruct (compare_sp_id sp p Hw Hp) as (r & -> & Hr). cbn [mbind outcome_bind]; rewrite Hr. case_bool_decide as E.
  - eexists. split; [done|]. split; [done|]. split; [done|]. set_solver.
  - destruct IH as (found & -> & IH). cbn [mbind outcome_bind]. eexists. split; [done|].
    destruct found as [[[pre sp'] post]|].
    + destruct IH as (-> & ? & ?). split; [done|]. split; [done|]. set_solver.
    + set_solver.
Qed.

Lemma remove_signed_packet_spec pre sp post :
  Forall signed_good (pre ++ sp :: post) -> sp_id sp ∉ map sp_id pre ->
  remove_signed_packet (pre ++ sp :: post) (sp_packet sp) = Done (pre ++ post).
Proof.
  induction pre as [|x pre IH]; cbn [app remove_signed_packet]; intros Hl Hn;
    inversion Hl as [|? ? [Hx _] Hl']; subst.
  - destruct (compare_sp_id sp (sp_packet sp) Hx Hx) as (r & -> & Hr). cbn [mbind outcome_bind].
    by rewrite Hr, bool_decide_eq_true_2.
  - assert (Hsp : small_packet (sp_packet sp)).
    { apply Forall_app in Hl' as [_ Hl'']. by inversion Hl'' as [|? ? [? _]]. }
    apply id_notin_cons in Hn as [Hx' Hn]. destruct (compare_sp_id x (sp_packet sp) Hx Hsp) as (r & -> & Hr).
    cbn [mbind outcome_bind]. rewrite Hr, bool_decide_eq_false_2 by done. by rewrite IH.
Qed.

(** The merge, packet by packet: an old packet takes the signatures of its new
    copy; a new packet keeps the signatures the old copy lacks, and goes when
    there are none. *)
Definition merged_old (new : list openpgp_signedpacket) (cur : openpgp_signedpacket) : openpgp_signedpacket :=
  match lookup_sp new (sp_id cur) with
  | None => cur
  | Some sp => set_sp_sigs cur (merged_sigs (sp_sigs cur) (sp_sigs sp))
  end.

Definition merged_new (old : list openpgp_signedpacket) (sp : openpgp_signedpacket)
    : list openpgp_signedpacket :=
  match lookup_sp old (sp_id sp) with
  | None => [sp]
  | Some cur =>
      match diff_sigs (sp_sigs cur) (sp_sigs sp) with
      | [] => []
      | d => [set_sp_sigs sp d]
      end
  end.

Definition fresh_packets (old new : list openpgp_signedpacket) : list openpgp_signedpacket :=
  List.filter (fun sp => bool_decide (sp_id sp ∉ map sp_id old)) new.

Lemma lookup_sp_app_r pre l id : id ∉ map sp_id pre -> lookup_sp (pre ++ l) id = lookup_sp l id.
Proof.
  induction pre as [|x pre IH]; [done|]. intros Hn. unfold lookup_sp in *. cbn [app List.find map] in *.
  apply id_notin_cons in Hn as [Hx Hn]. rewrite bool_decide_eq_false_2 by done. by apply IH.
Qed.

(** Lookups of other packets do not see the element in the middle. *)
Lemma lookup_sp_mid pre sp post id :
  sp_id sp <> id -> lookup_sp (pre ++ sp :: post) id = lookup_sp (pre ++ post) id.
Proof.
  intros Hne. unfold lookup_sp. induction pre as [|x pre IH]; cbn [app List.find];
    [by rewrite bool_decide_eq_false_2|]. case_bool_decide; [done|]. apply IH.
Qed.

Lemma map_ext_ids {A} (f g : openpgp_signedpacket -> A) l :
  (forall sp, sp ∈ l -> f sp = g sp) -> map f l = map g l.
Proof. induction l as [|x l IH]; intros H; [done|]. cbn. rewrite H, IH; set_solver. Qed.

Lemma sp_id_set sp l : sp_id (set_sp_sigs sp l) = sp_id sp.
Proof. done. Qed.

Lemma merged_new_other old sp :
  sp_id sp ∉ map sp_id old -> merged_new old sp = [sp].
Proof. intros H. unfold merged_new. by rewrite (proj2 (lookup_sp_None _ _) H). Qed.

Lemma merged_new_cons cur old sp :
  sp_id sp <> sp_id cur -> merged_new (cur :: old) sp = merged_new old sp.
Proof.
  intros H. unfold merged_new, lookup_sp. cbn [List.find]. by rewrite bool_decide_eq_false_2.
Qed.

(** The first loop, one old packet at a time. *)
Lemma merge_step_spec cur old pre sp post new1 :
  sp_id sp = sp_id cur -> sp_id cur ∉ map sp_id old ->
  sp_id cur ∉ map sp_id pre -> sp_id cur ∉ map sp_id post ->
  new1 = match diff_sigs (sp_sigs cur) (sp_sigs sp) with
         | [] => pre ++ post
         | d => pre ++ set_sp_sigs sp d :: post
         end ->
  concat (map (merged_new old) new1) = concat (map (merged_new (cur :: old)) (pre ++ sp :: post)) /\
  (forall c, c ∈ old -> merged_old new1 c = merged_old (pre ++ sp :: post) c).
Proof.
  intros Hid Hno Hpre Hpost ->.
  assert (Hm : forall l, sp_id cur ∉ map sp_id l -> map (merged_new (cur :: old)) l = map (merged_new old) l).
  { intros l Hl. apply map_ext_ids. intros x Hx. apply merged_new_cons.
    intros Heq. apply Hl. rewrite <- Heq. apply list_elem_of_fmap. eauto. }
  rewrite map_app, concat_app. cbn [map concat]. rewrite !Hm by done.
  assert (Hsp : merged_new (cur :: old) sp = match diff_sigs (sp_sigs cur) (sp_sigs sp) with
    | [] => [] | d => [set_sp_sigs sp d] end)
    by (unfold merged_new, lookup_sp; cbn [List.find]; by rewrite bool_decide_eq_true_2).
  rewrite Hsp. assert (Hne : forall c, c ∈ old -> sp_id sp <> sp_id c).
  { intros c Hc Heq. apply Hno. rewrite <- Hid, Heq. apply list_elem_of_fmap. eauto. }
  split.
  - destruct (diff_sigs (sp_sigs cur) (sp_sigs sp)) as [|d ds]; rewrite map_app, concat_app; [done|].
    cbn [map concat]. rewrite merged_new_other by (rewrite sp_id_set; congruence). done.
  - intros c Hc. unfold merged_old. rewrite (lookup_sp_mid pre sp post) by auto.
    destruct (diff_sigs (sp_sigs cur) (sp_sigs sp)) as [|d ds]; [done|].
    by rewrite (lookup_sp_mid pre (set_sp_sigs sp (d :: ds)) post) by (rewrite sp_id_set; auto).
Qed.

Lemma NoDup_mid {A} (pre post : list A) x : NoDup (pre ++ x :: post) -> (x ∉ pre) /\ (x ∉ post).
Proof.
  intros (_ & Hd & Hp)%NoDup_app. apply NoDup_cons in Hp as [Hx _].
  split; [|done]. intros Hin. apply (Hd x Hin). by left.
Qed.

Lemma distinct_replace pre sp sp' post :
  sp_id sp' = sp_id sp -> distinct_sps (pre ++ sp :: post) -> distinct_sps (pre ++ sp' :: post).
Proof. unfold distinct_sps. intros Hid. rewrite !map_app. cbn [map]. by rewrite Hid. Qed.

Lemma distinct_remove pre sp post :
  distinct_sps (pre ++ sp :: post) -> distinct_sps (pre ++ post).
Proof.
  unfold distinct_sps. rewrite !map_app. cbn [map]. intros (Hpre & Hd & Hp)%NoDup_app.
  apply NoDup_cons in Hp as [_ Hp]. apply NoDup_app. split; [done|]. split; [|done].
  intros x Hx Hx'. apply (Hd x Hx). by right.
Qed.

Lemma merge_old_packets_spec old new :
  Forall signed_good old -> Forall signed_good new -> distinct_sps old -> distinct_sps new ->
  merge_old_packets old new = Done (map (merged_old new) old, concat (map (merged_new old) new)).
Proof.
  intros Ho. revert new. induction Ho as [|cur old Hc Ho IH]; intros new Hn Do Dn.
  { cbn. do 2 f_equal. clear. induction new as [|x new IH]; [done|]. cbn. by rewrite <- IH. }
  apply NoDup_cons in Do as [Hno Do]. cbn [merge_old_packets].
  destruct (find_signed_packet_spec new (sp_packet cur) Hn (proj1 Hc)) as (found & -> & Hf).
  change (pkt_id (sp_packet cur)) with (sp_id cur) in Hf. cbn [mbind outcome_bind].
  destruct found as [[[pre sp] post]|].
  - destruct Hf as (-> & Hid & Hpre). cbn [mbind outcome_bind].
    pose proof Hn as Hn'. apply Forall_app in Hn' as [Gpre Gsp]. inversion Gsp as [|? ? Hsp Gpost]; subst.
    assert (Hpost : sp_id cur ∉ map sp_id post).
    { unfold distinct_sps in Dn. rewrite map_app in Dn. apply NoDup_mid in Dn as [_ Dn]. by rewrite <- Hid. }
    rewrite merge_packet_sigs_good by (done || by apply same_packet_id). cbn [mbind outcome_bind].
    set (diff := diff_sigs (sp_sigs cur) (sp_sigs sp)).
    assert (Hgd : signed_good (set_sp_sigs sp diff))
      by (split; [apply Hsp | unfold diff, diff_sigs; apply Forall_List_filter, Hsp]).
    set (new1 := match diff with [] => pre ++ post | d => pre ++ set_sp_sigs sp d :: post end).
    replace (match sp_sigs (set_sp_sigs sp diff) with
      | [] => remove_signed_packet (pre ++ set_sp_sigs sp diff :: post) (sp_packet (set_sp_sigs sp diff))
      | _ :: _ => Done (pre ++ set_sp_sigs sp diff :: post) end) with (Done new1).
    2: { unfold new1. cbn [sp_sigs set_sp_sigs]. destruct diff as [|d ds] eqn:Ed; [|done].
         symmetry. apply (remove_signed_packet_spec pre (set_sp_sigs sp []) post).
         - apply Forall_app. auto.
         - by rewrite sp_id_set, Hid. }
    cbn [mbind outcome_bind].
    destruct (merge_step_spec cur old pre sp post new1) as [E1 E2]; [done | done | done | done | unfold new1, diff; by destruct (diff_sigs _ _) |].
    rewrite IH; auto.
    + cbn [mbind outcome_bind map]. rewrite E1. do 3 f_equal.
      * unfold merged_old. rewrite lookup_sp_app_r by done. unfold lookup_sp. cbn [List.find].
        by rewrite bool_decide_eq_true_2.
      * apply map_ext_ids, E2.
    + unfold new1. destruct diff; apply Forall_app; auto.
    + unfold new1. destruct diff; [by eapply distinct_remove | by apply (distinct_replace pre sp)].
  - cbn [mbind outcome_bind]. rewrite IH by done. cbn [mbind outcome_bind map]. do 3 f_equal.
    + unfold merged_old. by rewrite (proj2 (lookup_sp_None _ _) Hf).
    + apply map_ext_ids. intros sp Hsp. symmetry. apply merged_new_cons.
      intros Heq. apply Hf. rewrite <- Heq. apply list_elem_of_fmap. eauto.
Qed.

(** The second loop copies the packets the old list does not have. *)
Lemma add_new_packets_spec old new :
  Forall signed_good old -> Forall signed_good new -> distinct_sps new ->
  add_new_packets old new = Done (old ++ fresh_packets old new).
Proof.
  intros Ho Hn. revert old Ho. induction Hn as [|sp new Hsp Hn IH]; intros old Ho Dn.
  { cbn. by rewrite app_nil_r. }
  apply NoDup_cons in Dn as [Hni Dn]. cbn [add_new_packets fresh_packets List.filter].
  destruct (find_signed_packet_spec old (sp_packet sp) Ho (proj1 Hsp)) as (found & -> & Hf).
  change (pkt_id (sp_packet sp)) with (sp_id sp) in Hf. cbn [mbind outcome_bind].
  destruct found as [[[pre x] post]|].
  - destruct Hf as (-> & Hid & _). rewrite bool_decide_eq_false_2; [by apply IH|].
    intros Hnot. apply Hnot. rewrite map_app. apply elem_of_app. right. cbn. rewrite Hid. by left.
  - rewrite bool_decide_eq_true_2 by done. destruct Hsp as [Hw Hg].
    rewrite packet_dup_wf by auto with onak. cbn [mbind outcome_bind].
    rewrite packet_list_add_wf by auto with onak. cbn [mbind outcome_bind app].
    replace (mkSigned (sp_packet sp) (sp_sigs sp)) with sp by (by destruct sp).
    rewrite IH; [|apply Forall_app; split; [done|]; by constructor | done].
    rewrite <- app_assoc. cbn [app]. do 3 f_equal. unfold fresh_packets.
    apply List.filter_ext_in. intros y Hy. apply bool_decide_ext. rewrite map_app, not_elem_of_app.
    split; [tauto|]. intros Hnot. split; [done|]. cbn. rewrite not_elem_of_cons. split; [|apply not_elem_of_nil].
    intros Heq. apply Hni. rewrite <- Heq. apply list_elem_of_fmap. exists y. split; [done|].
    by apply list_elem_of_In.
Qed.

Definition merged_list (old new : list openpgp_signedpacket) : list openpgp_signedpacket :=
  map (merged_old new) old ++ fresh_packets old new.

Definition diff_list (old new : list openpgp_signedpacket) : list openpgp_signedpacket :=
  concat (map (merged_new old) new).

Lemma kept_sigs_good l : Forall sig_good l -> Forall sig_good (kept_sigs l).
Proof.
  intros Hl. destruct (dedupe_sigs_kept l Hl) as (n & E & Hr).
  apply Forall_forall. intros x Hx. rewrite Forall_forall in Hl. apply Hl.
  eapply sublist_elem; [apply Hr | done].
Qed.

Lemma merged_old_id new cur : sp_id (merged_old new cur) = sp_id cur.
Proof. unfold merged_old. by destruct (lookup_sp new (sp_id cur)). Qed.

Lemma merged_old_ids new old : map sp_id (map (merged_old new) old) = map sp_id old.
Proof. rewrite map_map. apply map_ext_ids. intros. apply merged_old_id. Qed.

Lemma merged_old_good new cur :
  Forall signed_good new -> signed_good cur -> signed_good (merged_old new cur).
Proof.
  intros Hn Hc. unfold merged_old. destruct (lookup_sp new (sp_id cur)) as [sp|] eqn:E; [|done].
  apply lookup_sp_Some in E as [Hin _]. rewrite Forall_forall in Hn. destruct (Hn sp Hin) as [_ Hg].
  destruct Hc as [Hw Hcg]. split; [done|]. apply kept_sigs_good, Forall_app. unfold diff_sigs. auto with onak.
Qed.

(** The packets of the difference are some of the new packets. *)
Lemma diff_list_ids old new : map sp_id (diff_list old new) `sublist_of` map sp_id new.
Proof.
  unfold diff_list. induction new as [|sp new IH]; [done|]. cbn [map concat]. rewrite map_app.
  unfold merged_new at 1. destruct (lookup_sp old (sp_id sp)) as [cur|]; [|by apply sublist_skip].
  destruct (diff_sigs _ _); [by apply sublist_cons | by apply sublist_skip].
Qed.

Lemma diff_list_good old new : Forall signed_good new -> Forall signed_good (diff_list old new).
Proof.
  intros Hn. unfold diff_list. apply Forall_concat, Forall_map. eapply Forall_impl; [exact Hn|].
  intros sp Hsp. cbn. unfold merged_new. destruct (lookup_sp old (sp_id sp)) as [cur|]; [|by constructor].
  destruct (diff_sigs _ _) eqn:E; [done|]. constructor; [|done]. destruct Hsp as [Hw Hg]. split; [done|].
  cbn. rewrite <- E. unfold diff_sigs. auto with onak.
Qed.

Lemma fresh_packets_diff old new : fresh_packets old (diff_list old new) = fresh_packets old new.
Proof.
  unfold fresh_packets, diff_list. induction new as [|sp new IH]; [done|]. cbn [map concat].
  rewrite List.filter_app, IH. cbn [List.filter]. case_bool_decide as E.
  - rewrite merged_new_other by done. cbn [List.filter]. by rewrite bool_decide_eq_true_2.
  - unfold merged_new. destruct (lookup_sp old (sp_id sp)) as [cur|] eqn:Ec.
    + destruct (diff_sigs _ _); [done|]. cbn [List.filter]. by rewrite bool_decide_eq_false_2 by (rewrite sp_id_set; intros Hne; by apply Hne).
    + by apply lookup_sp_None in Ec.
Qed.

Lemma fresh_packets_ids old old' new :
  map sp_id old' = map sp_id old -> fresh_packets old' new = fresh_packets old new.
Proof. intros E. unfold fresh_packets. by rewrite E. Qed.

Lemma merge_signed_packets_spec old new :
  Forall signed_good old -> Forall signed_good new -> distinct_sps old -> distinct_sps new ->
  merge_signed_packets old new = Done (merged_list old new, diff_list old new).
Proof.
  intros Ho Hn Do Dn. unfold merge_signed_packets. rewrite merge_old_packets_spec by done.
  cbn [mbind outcome_bind]. fold (diff_list old new). rewrite add_new_packets_spec.
  - cbn [mbind outcome_bind]. unfold merged_list.
    by rewrite (fresh_packets_ids old) by apply merged_old_ids; rewrite fresh_packets_diff.
  - apply Forall_map. eapply Forall_impl; [exact Ho|]. intros x Hx. by apply merged_old_good.
  - by apply diff_list_good.
  - unfold distinct_sps. eapply sublist_NoDup; [exact Dn | apply diff_list_ids].
Qed.

(** * Keys *)

(** Keys whose packets are well formed and below 2^31 octets, whose certifications decode, and that
    have no user id or subkey twice. *)
Definition mergeable (k : openpgp_publickey) : Prop :=
  Forall small_packet (pk_sigs k) /\
  Forall signed_good (pk_uids k) /\ distinct_sps (pk_uids k) /\
  Forall signed_good (pk_subkeys k) /\ distinct_sps (pk_subkeys k).

(** The signatures on the key itself that [a] does not have. *)
Definition diff_key_sigs (a b : list openpgp_packet) : list openpgp_packet :=
  List.filter (fun s => bool_decide (pkt_id s ∉ map pkt_id a)) b.

Lemma find_packet_spec l p :
  Forall small_packet l -> small_packet p -> find_packet l p = Done (bool_decide (pkt_id p ∈ map pkt_id l)).
Proof.
  intros Hl Hp. induction Hl as [|q l Hq Hl IH]; [done|]. cbn [find_packet map].
  destruct (compare_packets_eqb q p Hq Hp) as (r & -> & Hr). cbn [mbind outcome_bind]; rewrite Hr.
  case_bool_decide as Hs.
  - f_equal. symmetry. apply bool_decide_eq_true_2. apply same_packet_id in Hs. rewrite Hs. by left.
  - rewrite IH. f_equal. apply bool_decide_ext. rewrite elem_of_cons. split; [tauto|]. intros [E|]; [|done].
    exfalso. apply Hs, same_packet_id. done.
Qed.

Lemma diff_key_sigs_spec a b :
  Forall small_packet a -> Forall small_packet b -> new_packets a b = Done (diff_key_sigs a b).
Proof.
  intros Ha Hb. unfold diff_key_sigs. induction Hb as [|s b Hs Hb IH]; [done|]. cbn [new_packets List.filter].
  rewrite find_packet_spec, IH by done. cbn [mbind outcome_bind]. rewrite bool_decide_not.
  by case_bool_decide.
Qed.

Lemma merge_keys_good {HF : Hashes} {BC : BuildConfig} a b id :
  mergeable a -> mergeable b ->
  get_keyid a = Done (ONAK_E_OK, Some id) -> get_keyid b = Done (ONAK_E_OK, Some id) ->
  let rv := pk_revoked a || pk_revoked b in
  merge_keys a b = Done (
    mkKey (pk_publickey a) rv (pk_sigs a ++ diff_key_sigs (pk_sigs a) (pk_sigs b))
      (merged_list (pk_uids a) (pk_uids b)) (merged_list (pk_subkeys a) (pk_subkeys b)),
    mkKey (pk_publickey b) rv (diff_key_sigs (pk_sigs a) (pk_sigs b))
      (diff_list (pk_uids a) (pk_uids b)) (diff_list (pk_subkeys a) (pk_subkeys b)), 0).
Proof.
  intros (Sa & Ua & Dua & Ka & Dka) (Sb & Ub & Dub & Kb & Dkb) Ia Ib rv. unfold merge_keys.
  rewrite Ia. cbn [mbind outcome_bind status_ok negb]. rewrite Ib. cbn [mbind outcome_bind status_ok negb read_var].
  rewrite Z.eqb_refl. cbn [negb]. rewrite diff_key_sigs_spec by done. cbn [mbind outcome_bind].
  rewrite packet_list_add_wf by (unfold diff_key_sigs; auto with onak). cbn [mbind outcome_bind].
  rewrite !merge_signed_packets_spec by done. cbn [mbind outcome_bind].
  unfold rv. cbn [pk_revoked]. by destruct (pk_revoked a), (pk_revoked b).
Qed.

(** [w] stands for [s]: same signer, and not older unless it is a revocation. *)
Definition represents (w s : openpgp_packet) : Prop :=
  sig_version w = sig_version s /\ sig_kid w = sig_kid s /\
  (sig_rev w = false -> sig_time s <= sig_time w).

Lemma represents_refl s : represents s s.
Proof. repeat split; lia. Qed.

Lemma same_sig_fields a b :
  same_sig a b = true -> sig_version a = sig_version b /\ sig_kid a = sig_kid b /\ sig_time a = sig_time b.
Proof. unfold same_sig. intros H. zbool. auto. Qed.

Lemma kept_sigs_represent l s :
  Forall sig_good l -> s ∈ l -> exists w, w ∈ kept_sigs l /\ represents w s.
Proof.
  intros Hl Hs. destruct (dedupe_sigs_kept l Hl) as (n & E & Hr).
  destruct (dr_cover _ _ _ Hr s Hs) as [|(w & Hw & Hws & Ht)]; [eauto using represents_refl|].
  exists w. split; [done|]. pose proof (same_signer_rev _ _ Hws) as Hrev.
  unfold same_signer in Hws. zbool. repeat split; auto. intros. apply Ht. congruence.
Qed.

(** Merging two signature lists represents every signature of both. *)
Lemma merged_sigs_represent old new s :
  Forall sig_good old -> Forall sig_good new -> s ∈ old \/ s ∈ new ->
  exists w, w ∈ merged_sigs old new /\ represents w s.
Proof.
  intros Ho Hn Hs. unfold merged_sigs.
  assert (Hg : Forall sig_good (old ++ diff_sigs old new))
    by (apply Forall_app; unfold diff_sigs; auto with onak).
  destruct Hs as [Hs|Hs]; [apply kept_sigs_represent; [done|]; apply elem_of_app; by left|].
  destruct (has_sig old s) eqn:Eh.
  - apply existsb_exists in Eh as (q & Hq & Hqs). apply list_elem_of_In in Hq.
    destruct (kept_sigs_represent _ q Hg) as (w & Hw & Hv & Hk & Ht); [apply elem_of_app; by left|].
    apply same_sig_fields in Hqs as (? & ? & ?). exists w. split; [done|].
    repeat split; [congruence | congruence |]. intros Hr. specialize (Ht Hr). lia.
  - apply kept_sigs_represent; [done|]. apply elem_of_app. right. apply list_elem_of_In.
    apply List.filter_In. rewrite Eh. split; [by apply list_elem_of_In | done].
Qed.

Lemma lookup_sp_distinct l sp : distinct_sps l -> sp ∈ l -> lookup_sp l (sp_id sp) = Some sp.
Proof.
  unfold distinct_sps. intros Hd Hin. induction Hin as [sp l | sp y l Hin IH]; unfold lookup_sp in *;
    cbn [List.find map] in *; [by rewrite bool_decide_eq_true_2|].
  apply NoDup_cons in Hd as [Hy Hd]. rewrite bool_decide_eq_false_2; [auto|].
  intros E. apply Hy. rewrite E. apply list_elem_of_fmap. eauto.
Qed.

(** Every packet of either list is in the merged list, with its signatures
    represented. *)
Lemma merged_list_keeps old new sp :
  Forall signed_good old -> Forall signed_good new -> distinct_sps old -> distinct_sps new ->
  sp ∈ old \/ sp ∈ new ->
  exists sp', sp' ∈ merged_list old new /\ sp_id sp' = sp_id sp /\
    forall s, s ∈ sp_sigs sp -> exists w, w ∈ sp_sigs sp' /\ represents w s.
Proof.
  intros Ho Hn Do Dn Hsp. unfold merged_list.
  assert (Hself : forall x : openpgp_signedpacket, forall s, s ∈ sp_sigs x ->
    exists w, w ∈ sp_sigs x /\ represents w s) by eauto using represents_refl.
  assert (Hmo : forall cur x, cur ∈ old -> sp_id x = sp_id cur -> (x = cur \/ x ∈ new) ->
    exists sp', sp' ∈ map (merged_old new) old ++ fresh_packets old new /\ sp_id sp' = sp_id x /\
    forall s, s ∈ sp_sigs x -> exists w, w ∈ sp_sigs sp' /\ represents w s).
  { intros cur x Hcur Hid Hx. exists (merged_old new cur).
    split; [apply elem_of_app; left; apply list_elem_of_fmap; eauto|]. split; [by rewrite merged_old_id|].
    unfold merged_old. destruct (lookup_sp new (sp_id cur)) as [y|] eqn:Ey.
    - pose proof (lookup_sp_Some _ _ _ Ey) as [Hy _]. rewrite Forall_forall in Ho, Hn.
      destruct (Ho cur Hcur) as [_ Gc], (Hn y Hy) as [_ Gy]. intros s Hs.
      apply merged_sigs_represent; [done | done |]. destruct Hx as [-> | Hx]; [by left|right].
      apply (lookup_sp_distinct new x Dn) in Hx. rewrite Hid in Hx. congruence.
    - destruct Hx as [-> | Hx]; [by apply Hself|].
      apply (lookup_sp_distinct new x Dn) in Hx. rewrite Hid in Hx. congruence. }
  destruct Hsp as [Hsp|Hsp]; [apply (Hmo sp); auto|].
  destruct (decide (sp_id sp ∈ map sp_id old)) as [Hin|Hout].
  - apply list_elem_of_fmap in Hin as (cur & Hid & Hcur). apply (Hmo cur); auto.
  - exists sp. split; [|split; [done | apply Hself]]. apply elem_of_app. right. apply list_elem_of_In.
    apply List.filter_In. split; [by apply list_elem_of_In | by apply bool_decide_eq_true_2].
Qed.

Lemma filter_none {A} (l : list A) : List.filter (fun _ => false) l = [].
Proof. by induction l. Qed.

(** Signature lists that [dedupe_sigs] would leave alone. *)
Definition settled (sp : openpgp_signedpacket) : Prop :=
  forall i j a b, (i < j)%nat -> sp_sigs sp !! i = Some a -> sp_sigs sp !! j = Some b ->
    same_signer a b = false.

Lemma diff_sigs_self l : diff_sigs l l = [].
Proof.
  unfold diff_sigs. assert (H : forall k, (forall s, s ∈ k -> s ∈ l) ->
    List.filter (fun s => negb (has_sig l s)) k = []).
  2: { by apply H. }
  induction k as [|s k IH]; intros Hk; [done|]. cbn [List.filter].
  replace (has_sig l s) with true; [apply IH; intros; apply Hk; by right|].
  symmetry. apply existsb_exists. exists s. rewrite same_sig_refl. split; [|done].
  apply list_elem_of_In, Hk. by left.
Qed.

Lemma kept_sigs_settled sp : Forall sig_good (sp_sigs sp) -> settled sp -> kept_sigs (sp_sigs sp) = sp_sigs sp.
Proof.
  intros Hg Hs. destruct (dedupe_sigs_kept (sp_sigs sp) Hg) as (n & E & _). unfold dedupe_sigs in E.
  rewrite dedupe_outer_distinct in E by done. congruence.
Qed.

Lemma merged_list_self l :
  Forall signed_good l -> distinct_sps l -> Forall settled l -> merged_list l l = l /\ diff_list l l = [].
Proof.
  intros Hg Hd Hs. unfold merged_list, diff_list. split.
  - assert (E1 : map (merged_old l) l = map id l).
    { apply map_ext_ids. intros sp Hin. unfold merged_old. rewrite lookup_sp_distinct by done.
      unfold merged_sigs. rewrite diff_sigs_self, app_nil_r. rewrite Forall_forall in Hg, Hs.
      rewrite kept_sigs_settled; [by destruct sp | apply (Hg sp Hin) | by apply Hs]. }
    rewrite E1, map_id. unfold fresh_packets. rewrite (List.filter_ext_in _ (fun _ => false)).
    + rewrite filter_none. apply app_nil_r.
    + intros a Ha. apply bool_decide_eq_false_2. intros Hn. apply Hn. apply list_elem_of_fmap.
      exists a. split; [done | by apply list_elem_of_In].
  - rewrite (map_ext_ids (merged_new l) (fun _ => [])).
    + clear. induction l; done.
    + intros sp Hin. unfold merged_new. rewrite lookup_sp_distinct by done. by rewrite diff_sigs_self.
Qed.

(** * Properties *)

(** Collapsing a list of signatures always terminates; it keeps a part of
    the list in its order and returns how many were dropped; no two of the
    kept ones have the same version, type and (known) signer; every
    certification is kept or represented by one of the same signer that is not
    older, of several revocations of a signer the first one stays, signatures
    of unknown signers all stay; and doing it again changes nothing. *)
Theorem dedupe_sigs_correct l :
  Forall sig_good l ->
  exists r n, dedupe_sigs l = Done (r, n) /\ dedupe_result l r n /\ dedupe_sigs r = Done (r, 0).
Proof.
  intros Hl. destruct (dedupe_sigs_good l Hl) as (r & n & E & Hr). exists r, n.
  split; [done|]. split; [done|]. apply dedupe_outer_distinct; [|done | apply Hr].
  apply Forall_forall. intros x Hx. rewrite Forall_forall in Hl. apply Hl.
  eapply sublist_elem; [apply Hr | done].
Qed.

(** A version 3 signature of signer [k] made at [t]. *)
Definition v3_sig (ty t k : Z) : openpgp_packet :=
  mkPacket OPENPGP_PACKET_SIGNATURE true 19 ([3; 5; ty] ++ htonl_bytes t ++ [0; 0; 0; 0] ++ htonl_bytes k ++ [1; 1; 0; 0]).

Lemma v3_sig_good ty t k : byte ty -> sig_good (v3_sig ty t k).
Proof.
  intros Hty. assert (Hw : wf_packet (v3_sig ty t k)).
  { split; [done|]. cbn. repeat (apply Forall_cons; split); try apply Forall_nil_2; auto with onak;
      unfold byte in *; lia. }
  split; [done|]. split; [done|]. split; [cbn; lia|].
  apply (sig_info_v3_decodes _ 3); [done | done | auto | cbn; lia].
Qed.

Lemma dedupe_sigs_correct_witness :
  let l := [v3_sig 0x10 1 7; v3_sig 0x10 3 7; v3_sig 0x30 5 7; v3_sig 0x30 9 7; v3_sig 0x10 2 7] in
  exists r n, dedupe_sigs l = Done (r, n) /\ dedupe_result l r n /\ dedupe_sigs r = Done (r, 0).
Proof.
  intros l. apply (dedupe_sigs_correct l).
  repeat (apply Forall_cons; split); [apply v3_sig_good; unfold byte; lia ..| apply Forall_nil_2].
Defined.

(** C2: merging two copies of a key (equal key ids, packets below 2^31 octets,
    whose lengths fit into the [int] of the comparison) does exactly this: the
    key itself gets the signatures of [b] it lacks, every user id and subkey of
    [a] stays in its place with the merged signatures ([kept_sigs]: of several
    certifications of one signer the first of the newest, of several revocations
    the first), those only [b] has follow in order, and the difference holds
    precisely the signatures, user ids and subkeys [a] did not have; both results
    are revoked if either key was. *)
Theorem merge_keys_spec {HF : Hashes} {BC : BuildConfig} a b id :
  mergeable a -> mergeable b ->
  get_keyid a = Done (ONAK_E_OK, Some id) -> get_keyid b = Done (ONAK_E_OK, Some id) ->
  let rv := pk_revoked a || pk_revoked b in
  merge_keys a b = Done (
    mkKey (pk_publickey a) rv (pk_sigs a ++ diff_key_sigs (pk_sigs a) (pk_sigs b))
      (merged_list (pk_uids a) (pk_uids b)) (merged_list (pk_subkeys a) (pk_subkeys b)),
    mkKey (pk_publickey b) rv (diff_key_sigs (pk_sigs a) (pk_sigs b))
      (diff_list (pk_uids a) (pk_uids b)) (diff_list (pk_subkeys a) (pk_subkeys b)), 0).
Proof. apply merge_keys_good. Qed.

Definition key_packet : openpgp_packet := mkPacket OPENPGP_PACKET_PUBLICKEY true 6 [4; 0; 0; 0; 1; 1].
Definition uid_packet (c : Z) : openpgp_packet := mkPacket OPENPGP_PACKET_UID true 1 [c].

Definition merge_a : openpgp_publickey :=
  mkKey key_packet false [] [mkSigned (uid_packet 65) [v3_sig 0x10 1 7]] [].
Definition merge_b : openpgp_publickey :=
  mkKey key_packet true [] [mkSigned (uid_packet 65) [v3_sig 0x10 2 7]; mkSigned (uid_packet 66) []] [].

Ltac solve_mergeable :=
  split; [apply Forall_nil_2|];
  split; [repeat (apply Forall_cons; split); try apply Forall_nil_2;
          (split; [apply (bool_decide_unpack _); vm_compute; exact I|]);
          repeat (apply Forall_cons; split); try apply Forall_nil_2; apply v3_sig_good; unfold byte; lia|];
  split; [apply (bool_decide_unpack _); vm_compute; exact I|];
  split; [apply Forall_nil_2 | apply NoDup_nil_2].

Lemma merge_a_mergeable : mergeable merge_a.
Proof. solve_mergeable. Qed.

Lemma merge_b_mergeable : mergeable merge_b.
Proof. solve_mergeable. Qed.

Lemma merge_keys_spec_witness :
  let id := be_value (drop 12 (toy_digest OPENPGP_HASH_SHA1 [0x99; 0; 6; 4; 0; 0; 0; 1; 1])) in
  @get_keyid toy_hashes full_build merge_a = Done (ONAK_E_OK, Some id) /\
  @merge_keys toy_hashes full_build merge_a merge_b = Done (
    mkKey key_packet true [] (merged_list (pk_uids merge_a) (pk_uids merge_b)) [],
    mkKey key_packet true [] (diff_list (pk_uids merge_a) (pk_uids merge_b)) [], 0).
Proof.
  intros id. assert (Hid : @get_keyid toy_hashes full_build merge_a = Done (ONAK_E_OK, Some id))
    by (vm_compute; reflexivity).
  split; [exact Hid|].
  apply (@merge_keys_spec toy_hashes full_build merge_a merge_b id
    merge_a_mergeable merge_b_mergeable Hid Hid).
Defined.

(** Nothing is lost by a merge: every user id and every subkey of either
    key is in the merged key, and every certification on it is represented
    there by one of the same signer which, unless it is a revocation, is not
    older. *)
Theorem merge_keys_keeps {HF : Hashes} {BC : BuildConfig} a b id a' b' rc :
  mergeable a -> mergeable b ->
  get_keyid a = Done (ONAK_E_OK, Some id) -> get_keyid b = Done (ONAK_E_OK, Some id) ->
  merge_keys a b = Done (a', b', rc) ->
  forall sp, (sp ∈ pk_uids a \/ sp ∈ pk_uids b -> exists sp', sp' ∈ pk_uids a' /\ sp_id sp' = sp_id sp /\
      forall s, s ∈ sp_sigs sp -> exists w, w ∈ sp_sigs sp' /\ represents w s) /\
    (sp ∈ pk_subkeys a \/ sp ∈ pk_subkeys b -> exists sp', sp' ∈ pk_subkeys a' /\ sp_id sp' = sp_id sp /\
      forall s, s ∈ sp_sigs sp -> exists w, w ∈ sp_sigs sp' /\ represents w s).
Proof.
  intros Ma Mb Ia Ib. rewrite (merge_keys_good a b id) by done. intros [= <- <- _] sp.
  destruct Ma as (_ & ? & ? & ? & ?), Mb as (_ & ? & ? & ? & ?).
  split; intros Hsp; by apply merged_list_keeps.
Qed.

Lemma merge_keys_keeps_witness :
  exists a' b' rc, @merge_keys toy_hashes full_build merge_a merge_b = Done (a', b', rc) /\
  exists sp', sp' ∈ pk_uids a' /\ sp_id sp' = sp_id (mkSigned (uid_packet 66) []) /\
    forall s, s ∈ [] -> exists w, w ∈ sp_sigs sp' /\ represents w s.
Proof.
  pose (id := be_value (drop 12 (toy_digest OPENPGP_HASH_SHA1 [0x99; 0; 6; 4; 0; 0; 0; 1; 1]))).
  assert (Hid : @get_keyid toy_hashes full_build merge_a = Done (ONAK_E_OK, Some id))
    by (vm_compute; reflexivity).
  assert (E := @merge_keys_good toy_hashes full_build merge_a merge_b id
    merge_a_mergeable merge_b_mergeable Hid Hid).
  eexists _, _, _. split; [exact E|].
  apply (@merge_keys_keeps toy_hashes full_build merge_a merge_b id _ _ _
    merge_a_mergeable merge_b_mergeable Hid Hid E (mkSigned (uid_packet 66) [])).
  right. right. left.
Defined.

(** Merging a key with a copy of itself changes nothing and leaves an
    empty difference (given that its certifications are already collapsed), so
    nothing is stored or sent on. *)
Theorem merge_keys_self {HF : Hashes} {BC : BuildConfig} a id :
  mergeable a -> Forall settled (pk_uids a) -> Forall settled (pk_subkeys a) ->
  get_keyid a = Done (ONAK_E_OK, Some id) ->
  merge_keys a a = Done (a, mkKey (pk_publickey a) (pk_revoked a) [] [] [], 0).
Proof.
  intros Ma Su Sk Ia. rewrite (merge_keys_good a a id) by done.
  destruct Ma as (Wa & Ua & Dua & Ka & Dka).
  destruct (merged_list_self _ Ua Dua Su) as [-> ->]. destruct (merged_list_self _ Ka Dka Sk) as [-> ->].
  assert (E : diff_key_sigs (pk_sigs a) (pk_sigs a) = []).
  { unfold diff_key_sigs. rewrite (List.filter_ext_in _ (fun _ => false)); [apply filter_none|].
    intros s Hs. apply bool_decide_eq_false_2. intros Hn. apply Hn, list_elem_of_fmap.
    exists s. split; [done | by apply list_elem_of_In]. }
  rewrite E, app_nil_r, orb_diag. by destruct a.
Qed.

Lemma merge_keys_self_witness :
  @merge_keys toy_hashes full_build merge_b merge_b
    = Done (merge_b, mkKey key_packet true [] [] [], 0).
Proof.
  pose (id := be_value (drop 12 (toy_digest OPENPGP_HASH_SHA1 [0x99; 0; 6; 4; 0; 0; 0; 1; 1]))).
  apply (@merge_keys_self toy_hashes full_build merge_b id merge_b_mergeable).
  - repeat (apply Forall_cons; split); try apply Forall_nil_2;
      intros i j x y Hij Hx Hy; exfalso; destruct i, j; cbn in *; try lia; try done; destruct j; done.
  - apply Forall_nil_2.
  - vm_compute. reflexivity.
Defined.

Lemma merge_keys_refused {HF : Hashes} {BC : BuildConfig} a b ida idb :
  get_keyid a = Done (ONAK_E_OK, Some ida) -> get_keyid b = Done (ONAK_E_OK, Some idb) -> ida <> idb ->
  let rv := pk_revoked a || pk_revoked b in
  merge_keys a b = Done (set_pk_revoked a rv, set_pk_revoked b rv, -1).
Proof.
  intros Ia Ib Hne rv. unfold merge_keys. rewrite Ia. cbn [mbind outcome_bind status_ok negb]. rewrite Ib.
  cbn [mbind outcome_bind status_ok negb read_var]. rewrite (proj2 (Z.eqb_neq _ _) Hne). cbn [negb mbind outcome_bind].
  unfold rv. destruct a as [pa [] sa ua ka], b as [pb [] sb ub kb]; done.
Qed.

(** Keys with different ids are not merged, but if either is revoked both
    come back marked as revoked, with return code -1. *)
Theorem merge_keys_other_key {HF : Hashes} {BC : BuildConfig} a b ida idb :
  get_keyid a = Done (ONAK_E_OK, Some ida) -> get_keyid b = Done (ONAK_E_OK, Some idb) -> ida <> idb ->
  let rv := pk_revoked a || pk_revoked b in
  merge_keys a b = Done (set_pk_revoked a rv, set_pk_revoked b rv, -1).
Proof. apply merge_keys_refused. Qed.

Lemma merge_keys_other_key_witness :
  let b := mkKey (mkPacket OPENPGP_PACKET_PUBLICKEY true 6 [4; 0; 0; 0; 1; 2]) true [] [] [] in
  @merge_keys toy_hashes full_build merge_a b = Done (set_pk_revoked merge_a true, b, -1).
Proof.
  intros b.
  apply (@merge_keys_other_key toy_hashes full_build merge_a b
    (be_value (drop 12 (toy_digest OPENPGP_HASH_SHA1 [0x99; 0; 6; 4; 0; 0; 0; 1; 1])))
    (be_value (drop 12 (toy_digest OPENPGP_HASH_SHA1 [0x99; 0; 6; 4; 0; 0; 0; 1; 2]))));
    vm_compute; congruence.
Defined.

(** A certification that is older than the one the old key has of the same
    signer is not added to the merged packet, yet stays in the difference: the
    difference is not minimal, and an old signature is stored and sent on every
    time it comes in. *)
Theorem merge_superseded_in_difference p s o :
  small_packet p -> sig_good s -> sig_good o ->
  same_signer s o = true -> sig_rev s = false -> sig_time o < sig_time s ->
  merge_packet_sigs (mkSigned p [s]) (mkSigned p [o]) = Done (mkSigned p [s], mkSigned p [o]).
Proof.
  intros Hp Gs Go Hso Hr Ht.
  assert (Hg : forall x, sig_good x -> signed_good (mkSigned p [x]))
    by (intros x Hx; split; [done | by apply Forall_singleton]).
  rewrite merge_packet_sigs_good; [|by apply Hg | by apply Hg | by split].
  assert (Ed : diff_sigs [s] [o] = [o]).
  { unfold diff_sigs, has_sig, same_sig. cbn. rewrite (proj2 (Z.eqb_neq (sig_time s) (sig_time o))) by lia.
    by rewrite andb_false_r. }
  cbn [sp_sigs]. unfold merged_sigs. rewrite Ed. cbn [app].
  unfold kept_sigs. cbn [survivors existsb app]. unfold yields_to_later, yields_to_earlier.
  rewrite Hso, (proj2 (Z.ltb_ge (sig_time s) (sig_time o))), (proj2 (Z.leb_le (sig_time o) (sig_time s))) by lia.
  by rewrite Hr, orb_true_r.
Qed.

Lemma merge_superseded_in_difference_witness :
  let s := v3_sig 0x10 5 7 in let o := v3_sig 0x10 3 7 in
  merge_packet_sigs (mkSigned (uid_packet 65) [s]) (mkSigned (uid_packet 65) [o])
    = Done (mkSigned (uid_packet 65) [s], mkSigned (uid_packet 65) [o]).
Proof.
  intros s o. apply (merge_superseded_in_difference (uid_packet 65) s o);
    try (apply v3_sig_good; unfold byte; lia); try (vm_compute; reflexivity).
  apply (bool_decide_unpack _). vm_compute. exact I.
Defined.

(** Two packets of the same kind whose lengths do not fit an [int] are compared
    beyond their ends. *)
Lemma compare_packets_large a b :
  pkt_tag a = pkt_tag b -> 2 ^ 31 <= pkt_length a < 2 ^ 32 -> 2 ^ 31 <= pkt_length b < 2 ^ 32 ->
  compare_packets a b = Fault OutOfBounds.
Proof.
  intros Ht Ha Hb. unfold compare_packets. rewrite Ht, Z.ltb_irrefl.
  set (m := if pkt_length a <? pkt_length b then _ else _).
  assert (Hm : 2 ^ 31 <= m < 2 ^ 32) by (unfold m; case_if; lia).
  assert (i32 m = m - 2 ^ 32) as ->.
  { unfold i32. rewrite <- (Z.mod_unique (m + 2 ^ 31) (2 ^ 32) 1 (m - 2 ^ 31)) by lia. lia. }
  by rewrite (proj2 (Z.ltb_lt _ 0)) by lia.
Qed.

(** Comparing two signature packets of a version the decoder does not know
    reads key ids that were never written. *)
Theorem match_signer_unknown_version a b v :
  pkt_tag a = OPENPGP_PACKET_SIGNATURE -> pkt_tag b = OPENPGP_PACKET_SIGNATURE ->
  wf_packet a -> wf_packet b ->
  (pkt_data a).[0] = Done v -> (pkt_data b).[0] = Done v -> 5 < v ->
  signatures_match_signer a b = Fault Uninitialised.
Proof.
  intros Ta Tb Wa Wb Va Vb Hv. unfold signatures_match_signer. rewrite Ta, Tb, Va, Vb.
  cbn [OPENPGP_PACKET_SIGNATURE Z.eqb Pos.eqb negb orb mbind outcome_bind]. rewrite Z.eqb_refl. cbn [negb].
  assert (Hst : forall p, (pkt_data p).[0] = Done v -> sig_sigtype p = Done 0xFF).
  { intros p Vp. unfold sig_sigtype. case_if; [done|]. rewrite Vp. cbn [mbind outcome_bind].
    destruct (Z.eqb_spec v 3), (Z.eqb_spec v 4), (Z.eqb_spec v 5); try lia. done. }
  assert (Hsi : forall p, (pkt_data p).[0] = Done v ->
    sig_info p (Some None) None = Done (ONAK_E_OK, Some None, None)).
  { intros p Vp. unfold sig_info. rewrite Vp. cbn [mbind outcome_bind].
    destruct (Z.eqb_spec v 2), (Z.eqb_spec v 3), (Z.eqb_spec v 4), (Z.eqb_spec v 5); try lia. done. }
  rewrite !Hst, !Hsi by done. done.
Qed.

Lemma match_signer_unknown_version_witness :
  let s := mkPacket OPENPGP_PACKET_SIGNATURE true 4 [6; 0x10; 1; 8] in
  signatures_match_signer s s = Fault Uninitialised.
Proof.
  intros s. apply (match_signer_unknown_version s s 6); try reflexivity;
    try (apply (bool_decide_unpack _); vm_compute; exact I).
Defined.
