(* ===== verification/SksHash.v ===== *)
(** The SKS hash of a key (keyid.c: [sortpackets] and [get_skshash]): the MD5
    of its packets in a canonical order. *)

From stdpp Require Import sorting.
From S2P Require Import Prelude OpenPGP Streams Keys KeyId Decode Merge.

(** The inner loop: [packets] goes in front of the first element that is not
    less. *)
Fixpoint insert_packet (p : openpgp_packet) (sorted : list openpgp_packet) : outcome (list openpgp_packet) :=
  match sorted with
  | [] => Done [p]
  | cur :: rest =>
      ret ← compare_packets cur p;
      if ret <? 0 then rest ← insert_packet p rest; Done (cur :: rest) else Done (p :: sorted)
  end.

Fixpoint insert_packets (packets sorted : list openpgp_packet) : outcome (list openpgp_packet) :=
  match packets with
  | [] => Done sorted
  | p :: packets => sorted ← insert_packet p sorted; insert_packets packets sorted
  end.

Definition sortpackets (packets : list openpgp_packet) : outcome (list openpgp_packet) :=
  insert_packets packets [].

(** The tag and length in network order, then the body. *)
Fixpoint skshash_input (packets : list openpgp_packet) : outcome (list Z) :=
  match packets with
  | [] => Done []
  | p :: packets =>
      body ← memcpy_from (pkt_data p) 0 (pkt_length p);
      rest ← skshash_input packets;
      Done (htonl_bytes (u32 (pkt_tag p)) ++ htonl_bytes (u32 (pkt_length p)) ++ body ++ rest)
  end.

(** Only the first key of the list is hashed. *)
Definition get_skshash {HF : Hashes} (key : openpgp_publickey) : outcome (onak_status_t * list Z) :=
  packets ← flatten_publickey [key] [];
  packets ← sortpackets packets;
  input ← skshash_input packets;
  Done (ONAK_E_OK, hash OPENPGP_HASH_MD5 input).

(** * The order of packets *)

(** Lexicographic order of bodies, a prefix first. *)
Fixpoint lex (a b : list Z) : Z :=
  match a, b with
  | [], [] => 0
  | [], _ :: _ => -1
  | _ :: _, [] => 1
  | x :: a, y :: b => if x <? y then -1 else if y <? x then 1 else lex a b
  end.

Definition id_cmp (x y : Z * list Z) : Z :=
  if y.1 <? x.1 then 1 else if x.1 <? y.1 then -1 else lex x.2 y.2.

Lemma lex_memcmp a b :
  lex a b =
    let ret := memcmp a b (Nat.min (length a) (length b)) in
    if (ret =? 0) && negb (zlen a =? zlen b) then if zlen a <? zlen b then -1 else 1 else ret.
Proof.
  revert b. induction a as [|x a IH]; intros [|y b]; cbn [lex length Nat.min memcmp]; [done | | |].
  - cbv zeta. unfold zlen. cbn [length]. destruct (Z.eqb_spec (Z.of_nat 0) (Z.of_nat (S (length b)))); [lia|].
    destruct (Z.ltb_spec (Z.of_nat 0) (Z.of_nat (S (length b)))); [done | lia].
  - cbv zeta. unfold zlen. cbn [length]. destruct (Z.eqb_spec (Z.of_nat (S (length a))) (Z.of_nat 0)); [lia|].
    destruct (Z.ltb_spec (Z.of_nat (S (length a))) (Z.of_nat 0)); [lia | done].
  - destruct (x <? y); [done|]. destruct (y <? x); [done|]. rewrite IH, !zlen_cons. cbv zeta.
    destruct (Z.eqb_spec (zlen a) (zlen b)), (Z.eqb_spec (1 + zlen a) (1 + zlen b)); try lia;
      cbn [negb]; rewrite ?andb_false_r, ?andb_true_r; [done|].
    destruct (Z.ltb_spec (zlen a) (zlen b)), (Z.ltb_spec (1 + zlen a) (1 + zlen b)); try lia; done.
Qed.

Lemma compare_packets_id a b :
  small_packet a -> small_packet b -> compare_packets a b = Done (id_cmp (pkt_id a) (pkt_id b)).
Proof.
  intros Ha Hb. rewrite compare_packets_small by done. unfold id_cmp, pkt_id. cbn [fst snd].
  by rewrite lex_memcmp.
Qed.

Lemma lex_opp a b : lex b a = - lex a b.
Proof.
  revert b. induction a as [|x a IH]; intros [|y b]; try done. cbn [lex].
  destruct (Z.ltb_spec y x), (Z.ltb_spec x y); try lia. apply IH.
Qed.

Lemma lex_eq a b : lex a b = 0 -> a = b.
Proof.
  revert b. induction a as [|x a IH]; intros [|y b]; try done. cbn [lex].
  destruct (Z.ltb_spec x y), (Z.ltb_spec y x); try lia. intros Heq%IH. f_equal; [lia | done].
Qed.

Lemma lex_trans a b c : lex a b <= 0 -> lex b c <= 0 -> lex a c <= 0.
Proof.
  revert b c. induction a as [|x a IH]; intros [|y b] [|z c]; try done. cbn [lex].
  destruct (Z.ltb_spec x y), (Z.ltb_spec y x); try lia; destruct (Z.ltb_spec y z), (Z.ltb_spec z y); try lia;
    destruct (Z.ltb_spec x z), (Z.ltb_spec z x); try lia. apply IH.
Qed.

Definition id_le (x y : Z * list Z) : Prop := id_cmp x y <= 0.

#[global] Instance id_le_antisymm : AntiSymm (=) id_le.
Proof.
  intros [t d] [t' d']. unfold id_le, id_cmp. cbn [fst snd].
  destruct (Z.ltb_spec t' t), (Z.ltb_spec t t'); try lia. rewrite (lex_opp d d'). intros H1 H2.
  assert (t = t') by lia. assert (lex d d' = 0) as ->%lex_eq by lia. congruence.
Qed.

#[global] Instance id_le_trans : Transitive id_le.
Proof.
  intros [t d] [t' d'] [t'' d'']. unfold id_le, id_cmp. cbn [fst snd].
  destruct (Z.ltb_spec t' t), (Z.ltb_spec t t'); try lia;
    destruct (Z.ltb_spec t'' t'), (Z.ltb_spec t' t''); try lia;
    destruct (Z.ltb_spec t'' t), (Z.ltb_spec t t''); try lia. apply lex_trans.
Qed.

Lemma id_le_total x y : id_cmp x y < 0 \/ id_le y x.
Proof.
  destruct x as [t d], y as [t' d']. unfold id_le, id_cmp. cbn [fst snd].
  destruct (Z.ltb_spec t' t), (Z.ltb_spec t t'); try lia. rewrite (lex_opp d d'). lia.
Qed.

(** * Sorting *)

Definition sorted_packets (l : list openpgp_packet) : Prop := StronglySorted id_le (map pkt_id l).

Lemma Forall_perm_map {A B} (P : B -> Prop) (f : A -> B) l k :
  l ≡ₚ k -> Forall P (map f k) -> Forall P (map f l).
Proof. intros ->. done. Qed.

Lemma insert_packet_sorted p l :
  small_packet p -> Forall small_packet l -> sorted_packets l ->
  exists r, insert_packet p l = Done r /\ r ≡ₚ p :: l /\ sorted_packets r.
Proof.
  intros Hp Hl. unfold sorted_packets. induction Hl as [|q l Hq Hl IH]; intros Hs; cbn [insert_packet].
  { eexists. split; [done|]. split; [done|]. repeat constructor. }
  cbn [map] in Hs. inversion Hs as [|? ? Hs' Hf]; subst. rewrite compare_packets_id by done.
  cbn [mbind outcome_bind].
  destruct (Z.ltb_spec (id_cmp (pkt_id q) (pkt_id p)) 0) as [Hlt|Hge].
  - destruct (IH Hs') as (r & -> & Hperm & Hr). eexists. split; [done|]. split.
    { rewrite Hperm. apply Permutation_swap. }
    cbn [map]. constructor; [done|]. eapply Forall_perm_map; [exact Hperm|].
    cbn [map]. constructor; [unfold id_le; lia | done].
  - destruct (id_le_total (pkt_id q) (pkt_id p)) as [|Hle]; [lia|]. eexists. split; [done|]. split; [done|].
    cbn [map]. constructor; [done|]. constructor; [done|]. eapply Forall_impl; [exact Hf|]. intros x Hx. by etrans.
Qed.

Lemma insert_packets_sorted ps acc :
  Forall small_packet ps -> Forall small_packet acc -> sorted_packets acc ->
  exists r, insert_packets ps acc = Done r /\ r ≡ₚ ps ++ acc /\ sorted_packets r.
Proof.
  intros Hps. revert acc. induction Hps as [|p ps Hp Hps IH]; intros acc Ha Hs; [by eexists|].
  cbn [insert_packets app]. destruct (insert_packet_sorted p acc Hp Ha Hs) as (r & -> & Hperm & Hr).
  cbn [mbind outcome_bind]. destruct (IH r) as (r' & -> & Hperm' & Hr'); [|done|].
  - rewrite Hperm. by constructor.
  - exists r'. split; [done|]. split; [|done]. rewrite Hperm', Hperm. symmetry. apply Permutation_middle.
Qed.

Lemma sortpackets_sorted ps :
  Forall small_packet ps -> exists r, sortpackets ps = Done r /\ r ≡ₚ ps /\ sorted_packets r.
Proof.
  intros Hps. destruct (insert_packets_sorted ps []) as (r & E & Hperm & Hr); [done | done | constructor|].
  rewrite app_nil_r in Hperm. by exists r.
Qed.

(** The digest's input depends on the sorted ids alone. *)
Definition id_octets (x : Z * list Z) : list Z :=
  htonl_bytes (u32 x.1) ++ htonl_bytes (u32 (zlen x.2)) ++ x.2.

Lemma skshash_input_ids ps :
  Forall wf_packet ps -> skshash_input ps = Done (concat (map id_octets (map pkt_id ps))).
Proof.
  intros Hps. induction Hps as [|p ps Hp Hps IH]; [done|]. cbn [skshash_input map concat].
  rewrite memcpy_whole by done. cbn [mbind outcome_bind]. rewrite IH. cbn [mbind outcome_bind].
  unfold id_octets at 2. cbn [pkt_id fst snd]. rewrite <- !app_assoc. by rewrite (wf_packet_len p Hp).
Qed.

Lemma sorted_ids_unique ps qs :
  sorted_packets ps -> sorted_packets qs -> map pkt_id ps ≡ₚ map pkt_id qs -> map pkt_id ps = map pkt_id qs.
Proof. intros Hp Hq Hperm. by apply (StronglySorted_unique id_le). Qed.

(** A key whose packets are all well formed and below 2^31 octets. *)
Definition small_key (k : openpgp_publickey) : Prop := Forall small_packet (key_packets k).

#[global] Instance small_key_dec k : Decision (small_key k).
Proof. unfold small_key. apply _. Defined.

Lemma key_packets_wf k : wf_key k -> Forall wf_packet (key_packets k).
Proof.
  intros (Hp & Hs & Hu & Hk). unfold key_packets. constructor; [done|].
  assert (Hsp : forall l, Forall wf_signed l -> Forall wf_packet (concat (map signed_packets l))).
  { intros l Hl. apply Forall_concat, Forall_map. eapply Forall_impl; [exact Hl|].
    intros sp [? ?]. by constructor. }
  rewrite !Forall_app. auto.
Qed.

(** * Properties *)

(** Sorting the packets of a key permutes them and puts them in the order
    of tag, then body, a body before its extensions. *)
Theorem sortpackets_correct ps :
  Forall small_packet ps -> exists r, sortpackets ps = Done r /\ r ≡ₚ ps /\ sorted_packets r.
Proof. apply sortpackets_sorted. Qed.

Lemma sortpackets_correct_witness :
  exists r, sortpackets [uid_packet 67; key_packet; uid_packet 65] = Done r /\
    r ≡ₚ [uid_packet 67; key_packet; uid_packet 65] /\ sorted_packets r.
Proof. apply sortpackets_correct. apply (bool_decide_unpack _). vm_compute. exact I. Defined.

Lemma get_skshash_small {HF : Hashes} k :
  wf_key k -> small_key k ->
  exists ps, ps ≡ₚ key_packets k /\ sorted_packets ps /\
    get_skshash k = Done (ONAK_E_OK, hash OPENPGP_HASH_MD5 (concat (map id_octets (map pkt_id ps)))).
Proof.
  intros Wk Sk. unfold get_skshash. rewrite flatten_publickey_wf by (by constructor).
  cbn [mbind outcome_bind app]. unfold keys_packets. cbn [map concat]. rewrite app_nil_r.
  destruct (sortpackets_sorted _ Sk) as (ps & -> & Hperm & Hs). exists ps. split; [done|]. split; [done|].
  cbn [mbind outcome_bind]. rewrite skshash_input_ids; [done|]. rewrite Hperm. by apply key_packets_wf.
Qed.

(** The SKS hash of a key does not depend on the order in which its
    signatures, user ids and subkeys are stored, nor on the header format of
    the packets: two well-formed keys with packets below 2^31 octets that have
    the same tags and bodies, in any order, have the same hash. *)
Theorem skshash_order_independent {HF : Hashes} k k' :
  wf_key k -> wf_key k' -> small_key k -> small_key k' ->
  map pkt_id (key_packets k) ≡ₚ map pkt_id (key_packets k') ->
  exists h, get_skshash k = Done (ONAK_E_OK, h) /\ get_skshash k' = Done (ONAK_E_OK, h).
Proof.
  intros Hk Hk' Sk Sk' Hperm. destruct (get_skshash_small k Hk Sk) as (ps & Pp & Sp & ->).
  destruct (get_skshash_small k' Hk' Sk') as (qs & Pq & Sq & ->). eexists. split; [done|].
  rewrite (sorted_ids_unique ps qs Sp Sq); [done|]. by rewrite Pp, Pq.
Qed.

Lemma skshash_order_independent_witness :
  let k := mkKey key_packet false [] [mkSigned (uid_packet 65) []; mkSigned (uid_packet 66) []] [] in
  let k' := mkKey key_packet true [] [mkSigned (uid_packet 66) []; mkSigned (uid_packet 65) []] [] in
  exists h, @get_skshash toy_hashes k = Done (ONAK_E_OK, h) /\ @get_skshash toy_hashes k' = Done (ONAK_E_OK, h).
Proof.
  intros k k'. apply (@skshash_order_independent toy_hashes k k');
    try (apply (bool_decide_unpack _); vm_compute; exact I).
Defined.
