(* ===== verification/Marshal.v ===== *)
(** Marshalling (marshal.c): keys, SKS hashes, strings and arrays as
    length-prefixed octets on a stream, as keyd's clients send and receive
    them. *)

From Stdlib Require Import String.
From S2P Require Import Prelude OpenPGP Streams Packets Keys KeyId Merge SksHash.

Definition SKSHASH_LEN : Z := 16.

Section Marshal.
Context {S : Type} `{Sink S}.

(** [len = htonl(n); putchar_func(ctx, sizeof(len), &len)] *)
Definition put_len (s : S) (n : Z) : outcome S := putchar s (htonl_bytes (u32 n)).

(** The packets are written to a buffer of 1024 bytes that grows; the status
    of the writer is not looked at. *)
Definition marshal_publickey (s : S) (keys : list openpgp_publickey) : outcome S :=
  packets ← flatten_publickey keys [];
  '(buf, _) ← write_openpgp_stream (mkBuffer (replicate 1024 0) 0 1024) packets;
  s ← put_len s (buf_offset buf);
  data ← memcpy_from (buf_buffer buf) 0 (buf_offset buf);
  putchar s data.

Definition marshal_skshash (s : S) (h : list Z) : outcome S :=
  s ← put_len s SKSHASH_LEN;
  data ← memcpy_from h 0 SKSHASH_LEN;
  putchar s data.

(** A string is its bytes without the terminator. *)
Definition marshal_string (s : S) (string : list Z) : outcome S :=
  s ← put_len s (zlen string);
  data ← memcpy_from string 0 (u32 (zlen string));
  putchar s data.

(** [for (i = 0; i < size; i++) marshal_func(putchar_func, ctx, array[i])] *)
Fixpoint marshal_items {A} (marshal_func : S -> A -> outcome S) (s : S) (array : list A) : outcome S :=
  match array with
  | [] => Done s
  | x :: array => s ← marshal_func s x; marshal_items marshal_func s array
  end.

Definition marshal_array {A} (marshal_func : S -> A -> outcome S) (s : S) (array : list A) : outcome S :=
  s ← put_len s (zlen array);
  marshal_items marshal_func s array.

End Marshal.

Section Unmarshal.
Context {S : Type} `{Source S}.

(** The length prefix, [None] on a short read. *)
Definition get_len (s : S) : outcome (S * option Z) :=
  '(s, w, r) ← getchar s 4;
  if r =? 4 then Done (s, Some (be_value w)) else Done (s, None).

(** [None] is the NULL result. *)
Definition unmarshal_skshash (s : S) : outcome (S * option (list Z)) :=
  '(s, len) ← get_len s;
  match len with
  | None => Done (s, None)
  | Some len =>
      if SKSHASH_LEN <? len then Done (s, None)
      else
        '(s, w, r) ← getchar s len;
        h ← memcpy_to (replicate 16 0) 0 w;
        if r =? len then Done (s, Some h) else Done (s, None)
  end.

(** [malloc(len + 1)] computes the size in 32 bits. *)
Definition unmarshal_string (s : S) : outcome (S * option (list Z)) :=
  '(s, len) ← get_len s;
  match len with
  | None => Done (s, None)
  | Some len =>
      '(s, w, r) ← getchar s len;
      if u32 (len + 1) <? zlen w then Fault OutOfBounds
      else if r =? len then
        if len <? u32 (len + 1) then Done (s, Some w) else Fault OutOfBounds
      else Done (s, None)
  end.

(** The elements, NULL ones included, in the order they were read. *)
Fixpoint unmarshal_items {A} (unmarshal_func : S -> outcome (S * option A)) (s : S) (n : nat)
    : outcome (S * list (option A)) :=
  match n with
  | O => Done (s, [])
  | Datatypes.S n =>
      '(s, x) ← unmarshal_func s;
      '(s, l) ← unmarshal_items unmarshal_func s n;
      Done (s, x :: l)
  end.

(** A number of elements that is negative as an [int] makes [calloc] fail. *)
Definition unmarshal_array {A} (unmarshal_func : S -> outcome (S * option A)) (s : S)
    : outcome (S * option (list (option A))) :=
  '(s, len) ← get_len s;
  match len with
  | None => Done (s, None)
  | Some len =>
      if i32 len <? 0 then Done (s, None) else
      '(s, l) ← unmarshal_items unmarshal_func s (Z.to_nat (i32 len));
      Done (s, Some l)
  end.

End Unmarshal.

(** * Specification *)

(** A length in network order and the bytes. *)
Definition prefixed (bs : list Z) : list Z := htonl_bytes (zlen bs) ++ bs.

Lemma zlen_prefixed bs : zlen (prefixed bs) = 4 + zlen bs.
Proof. unfold prefixed. rewrite zlen_app. done. Qed.

Lemma be_value_htonl n : 0 <= n < 2 ^ 32 -> be_value (htonl_bytes n) = n.
Proof.
  intros Hn. rewrite <- (htonl_bytes_value n Hn) at 2. unfold be_value, htonl_bytes. cbn [foldl].
  by rewrite !shiftl_8.
Qed.

Lemma memcpy_all d : memcpy_from d 0 (zlen d) = Done d.
Proof.
  pose proof (zlen_nonneg d). rewrite memcpy_from_ok by lia. unfold zlen.
  by rewrite Nat2Z.id, drop_0, firstn_all.
Qed.

Section MarshalSpec.
Context {S : Type} `{Sink S} {W : S -> list Z -> Prop} {lim : Z} `{!Accepts W lim}.

Lemma put_prefixed s out bs :
  W s out -> Forall byte bs -> zlen bs < 2 ^ 32 -> zlen out + zlen (prefixed bs) <= lim ->
  exists s', (s ← put_len s (zlen bs); putchar s bs) = Done s' /\ W s' (out ++ prefixed bs).
Proof.
  intros Hw Hb H32 Hl. rewrite zlen_prefixed in Hl. pose proof (zlen_nonneg bs). unfold put_len.
  rewrite u32_small by lia.
  destruct (accepts_bytes s out (htonl_bytes (zlen bs)) Hw (htonl_bytes_byte _)) as (s1 & E1 & Hw1);
    [change (zlen (htonl_bytes (zlen bs))) with 4; lia|].
  rewrite E1. cbn [mbind outcome_bind].
  destruct (accepts_bytes s1 _ bs Hw1 Hb) as (s2 & E2 & Hw2);
    [rewrite zlen_app; change (zlen (htonl_bytes (zlen bs))) with 4; lia|].
  exists s2. split; [done|]. unfold prefixed. by rewrite app_assoc.
Qed.

Lemma marshal_string_spec s out str :
  W s out -> Forall byte str -> zlen str < 2 ^ 32 -> zlen out + zlen (prefixed str) <= lim ->
  exists s', marshal_string s str = Done s' /\ W s' (out ++ prefixed str).
Proof.
  intros Hw Hb H32 Hl. destruct (put_prefixed s out str Hw Hb H32 Hl) as (s' & E & Hw').
  exists s'. split; [|done]. unfold marshal_string. pose proof (zlen_nonneg str).
  rewrite u32_small, memcpy_all by lia. exact E.
Qed.

Lemma marshal_skshash_spec s out h :
  W s out -> Forall byte h -> zlen h = SKSHASH_LEN -> zlen out + zlen (prefixed h) <= lim ->
  exists s', marshal_skshash s h = Done s' /\ W s' (out ++ prefixed h).
Proof.
  intros Hw Hb Hh Hl. destruct (put_prefixed s out h Hw Hb) as (s' & E & Hw');
    [rewrite Hh; done | done |].
  exists s'. split; [|done]. unfold marshal_skshash. rewrite <- Hh, memcpy_all. exact E.
Qed.

(** A key is the length and the octets of its packets. *)
Lemma marshal_publickey_spec s out keys :
  W s out -> Forall wf_key keys -> Forall encodable (keys_packets keys) ->
  zlen (encode_packets (keys_packets keys)) < 2 ^ 32 ->
  zlen out + zlen (prefixed (encode_packets (keys_packets keys))) <= lim ->
  exists s', marshal_publickey s keys = Done s' /\ W s' (out ++ prefixed (encode_packets (keys_packets keys))).
Proof.
  intros Hw Hwf He H32 Hl. set (ps := keys_packets keys) in *. pose proof (zlen_nonneg (encode_packets ps)).
  assert (Hinit : writing (mkBuffer (replicate 1024 0) 0 1024) []) by (repeat split; vm_compute; congruence).
  destruct (write_spec (W := writing) ps _ [] Hinit He) as (wb & Ewb & Wwb); [rewrite zlen_nil; lia|].
  cbn [app] in Wwb. pose proof Wwb as (Hbl & _ & Hbo & Htake).
  assert (Hoff : buf_offset wb = zlen (encode_packets ps)).
  { rewrite Htake. unfold zlen in *. rewrite length_take. lia. }
  assert (Hbytes : Forall byte (encode_packets ps)).
  { unfold encode_packets. apply Forall_concat, Forall_map. eapply Forall_impl; [exact He|]. apply encode_packet_byte. }
  destruct (put_prefixed s out (encode_packets ps) Hw Hbytes H32 Hl) as (s1 & E1 & W1).
  exists s1. split; [|done]. unfold marshal_publickey. rewrite flatten_publickey_wf by done.
  cbn [mbind outcome_bind app]. fold ps. rewrite Ewb. cbn [mbind outcome_bind].
  rewrite memcpy_from_ok by (unfold zlen in *; lia). rewrite drop_0, <- Htake, Hoff. exact E1.
Qed.

Lemma marshal_items_spec {A} (f : S -> A -> outcome S) (enc : A -> list Z) s out items :
  (forall s out x, x ∈ items -> W s out -> zlen out + zlen (enc x) <= lim ->
     exists s', f s x = Done s' /\ W s' (out ++ enc x)) ->
  W s out -> zlen out + zlen (concat (map enc items)) <= lim ->
  exists s', marshal_items f s items = Done s' /\ W s' (out ++ concat (map enc items)).
Proof.
  revert s out. induction items as [|x items IH]; intros s out Hf Hw Hl; cbn [marshal_items map concat] in *.
  { exists s. by rewrite app_nil_r. }
  rewrite zlen_app in Hl. pose proof (zlen_nonneg (concat (map enc items))).
  destruct (Hf s out x) as (s1 & -> & Hw1); [by left | done | lia |]. cbn [mbind outcome_bind].
  destruct (IH s1 (out ++ enc x)) as (s2 & E & Hw2); [| done | rewrite zlen_app; lia |].
  - intros. apply Hf; [by right | done | done].
  - exists s2. rewrite app_assoc. auto.
Qed.

Lemma marshal_array_spec {A} (f : S -> A -> outcome S) (enc : A -> list Z) s out items :
  (forall s out x, x ∈ items -> W s out -> zlen out + zlen (enc x) <= lim ->
     exists s', f s x = Done s' /\ W s' (out ++ enc x)) ->
  W s out -> zlen items < 2 ^ 31 -> zlen out + 4 + zlen (concat (map enc items)) <= lim ->
  exists s', marshal_array f s items = Done s' /\
    W s' (out ++ htonl_bytes (zlen items) ++ concat (map enc items)).
Proof.
  intros Hf Hw H31 Hl. unfold marshal_array, put_len. pose proof (zlen_nonneg items).
  pose proof (zlen_nonneg (concat (map enc items))). rewrite u32_small by lia.
  destruct (accepts_bytes s out (htonl_bytes (zlen items)) Hw (htonl_bytes_byte _)) as (s1 & E1 & Hw1);
    [change (zlen (htonl_bytes (zlen items))) with 4; lia|].
  rewrite E1. cbn [mbind outcome_bind].
  destruct (marshal_items_spec f enc s1 _ items Hf Hw1) as (s2 & E2 & Hw2).
  - rewrite zlen_app. change (zlen (htonl_bytes (zlen items))) with 4. lia.
  - exists s2. rewrite app_assoc. auto.
Qed.
End MarshalSpec.

Section UnmarshalSpec.
Context {S : Type} `{Source S} {R : S -> list Z -> Prop} `{!Delivers R}.

Lemma get_len_spec s n rest :
  0 <= n < 2 ^ 32 -> R s (htonl_bytes n ++ rest) ->
  exists s', get_len s = Done (s', Some n) /\ R s' rest.
Proof.
  intros Hn Hr. destruct (delivers_bytes s _ _ Hr) as (s' & E & Hr'). exists s'. split; [|done].
  unfold get_len. change (zlen (htonl_bytes n)) with 4 in E. rewrite E. cbn [mbind outcome_bind Z.eqb Pos.eqb].
  by rewrite be_value_htonl.
Qed.

Lemma unmarshal_string_spec s str rest :
  zlen str < 2 ^ 32 - 1 -> R s (prefixed str ++ rest) ->
  exists s', unmarshal_string s = Done (s', Some str) /\ R s' rest.
Proof.
  intros H32 Hr. pose proof (zlen_nonneg str). unfold prefixed in Hr. rewrite <- app_assoc in Hr.
  destruct (get_len_spec s (zlen str) _ ltac:(lia) Hr) as (s1 & E1 & Hr1).
  destruct (delivers_bytes s1 _ _ Hr1) as (s2 & E2 & Hr2). exists s2. split; [|done].
  unfold unmarshal_string. rewrite E1. cbn [mbind outcome_bind]. rewrite E2. cbn [mbind outcome_bind].
  rewrite u32_small by lia. destruct (Z.ltb_spec (zlen str + 1) (zlen str)); [lia|].
  rewrite Z.eqb_refl. destruct (Z.ltb_spec (zlen str) (zlen str + 1)); [done | lia].
Qed.

Lemma unmarshal_skshash_spec s h rest :
  zlen h = SKSHASH_LEN -> R s (prefixed h ++ rest) ->
  exists s', unmarshal_skshash s = Done (s', Some h) /\ R s' rest.
Proof.
  intros Hh Hr. unfold prefixed in Hr. rewrite <- app_assoc in Hr.
  destruct (get_len_spec s (zlen h) _ ltac:(rewrite Hh; done) Hr) as (s1 & E1 & Hr1).
  destruct (delivers_bytes s1 _ _ Hr1) as (s2 & E2 & Hr2). exists s2. split; [|done].
  unfold unmarshal_skshash. rewrite E1. cbn [mbind outcome_bind]. rewrite Hh, Z.ltb_irrefl.
  rewrite Hh in E2. rewrite E2. cbn [mbind outcome_bind].
  rewrite memcpy_to_ok by (rewrite ?Hh; done). cbn [mbind outcome_bind]. rewrite Z.eqb_refl.
  change (Z.to_nat 0) with 0%nat. cbn [take app Nat.add].
  rewrite drop_ge; [by rewrite app_nil_r|]. unfold zlen in Hh. rewrite length_replicate. unfold SKSHASH_LEN in Hh. lia.
Qed.

(** The elements that are there, and then [m] more. *)
Lemma unmarshal_items_spec {A} (f : S -> outcome (S * option A)) (enc : A -> list Z) items m rest : forall s,
  (forall s x rest, x ∈ items -> R s (enc x ++ rest) -> exists s', f s = Done (s', Some x) /\ R s' rest) ->
  R s (concat (map enc items) ++ rest) ->
  exists s', R s' rest /\ unmarshal_items f s (length items + m) =
    ('(s, l) ← unmarshal_items f s' m; Done (s, map Some items ++ l)).
Proof.
  induction items as [|x l IH]; intros s Hf Hr; cbn [length Nat.add unmarshal_items map concat] in *.
  { exists s. split; [done|]. by destruct (unmarshal_items f s m) as [[]|]. }
  rewrite <- app_assoc in Hr. destruct (Hf s x _ ltac:(by left) Hr) as (s2 & -> & Hr2). cbn [mbind outcome_bind].
  destruct (IH s2) as (s3 & Hr3 & E); [intros; apply Hf; [by right | done] | done |]. exists s3. split; [done|]. rewrite E.
  by destruct (unmarshal_items f s3 m) as [[]|].
Qed.

Lemma unmarshal_array_items {A} (f : S -> outcome (S * option A)) (enc : A -> list Z) s items m rest :
  (forall s x rest, x ∈ items -> R s (enc x ++ rest) -> exists s', f s = Done (s', Some x) /\ R s' rest) ->
  zlen items + Z.of_nat m < 2 ^ 31 -> R s (htonl_bytes (zlen items + Z.of_nat m) ++ concat (map enc items) ++ rest) ->
  exists s', R s' rest /\ unmarshal_array f s =
    ('(s, l) ← unmarshal_items f s' m; Done (s, Some (map Some items ++ l))).
Proof.
  intros Hf H31 Hr. pose proof (zlen_nonneg items).
  destruct (get_len_spec s (zlen items + Z.of_nat m) _ ltac:(lia) Hr) as (s1 & E1 & Hr1).
  unfold unmarshal_array. rewrite E1. cbn [mbind outcome_bind]. rewrite i32_small by lia.
  destruct (Z.ltb_spec (zlen items + Z.of_nat m) 0) as [Hneg|_]; [lia|].
  unfold zlen. rewrite <- Nat2Z.inj_add, Nat2Z.id.
  destruct (unmarshal_items_spec f enc items m rest s1 Hf Hr1) as (s' & Hr' & ->). exists s'. split; [done|].
  by destruct (unmarshal_items f s' m) as [[]|].
Qed.

Lemma unmarshal_array_spec {A} (f : S -> outcome (S * option A)) (enc : A -> list Z) s items rest :
  (forall s x rest, x ∈ items -> R s (enc x ++ rest) -> exists s', f s = Done (s', Some x) /\ R s' rest) ->
  zlen items < 2 ^ 31 -> R s (htonl_bytes (zlen items) ++ concat (map enc items) ++ rest) ->
  exists s', unmarshal_array f s = Done (s', Some (map Some items)) /\ R s' rest.
Proof.
  intros Hf H31 Hr. rewrite <- (Z.add_0_r (zlen items)) in Hr.
  destruct (unmarshal_array_items f enc s items 0 rest) as (s' & Hr' & ->); [done | lia | done |].
  exists s'. cbn. by rewrite app_nil_r.
Qed.
End UnmarshalSpec.

(** * Properties *)

(** An array of strings, marshalled to a buffer and unmarshalled from it,
    comes back as the same strings in the same order; so does an array of
    16-byte hashes. *)
Theorem marshal_array_roundtrip buf strs hashes :
  writing buf [] ->
  Forall (fun s => Forall byte s /\ zlen s < 2 ^ 32 - 1) strs ->
  Forall (fun h => Forall byte h /\ zlen h = SKSHASH_LEN) hashes ->
  zlen strs < 2 ^ 31 -> zlen hashes < 2 ^ 31 ->
  8 + zlen (concat (map prefixed strs)) + zlen (concat (map prefixed hashes)) < 2 ^ 62 ->
  exists buf1 buf2 buf3 buf4,
    marshal_array marshal_string buf strs = Done buf1 /\
    marshal_array marshal_skshash buf1 hashes = Done buf2 /\
    unmarshal_array unmarshal_string (rewind buf2) = Done (buf3, Some (map Some strs)) /\
    unmarshal_array unmarshal_skshash buf3 = Done (buf4, Some (map Some hashes)).
Proof.
  intros Hw Hs Hh Ls Lh Hl. rewrite Forall_forall in Hs, Hh.
  pose proof (zlen_nonneg (concat (map prefixed strs))). pose proof (zlen_nonneg (concat (map prefixed hashes))).
  destruct (marshal_array_spec (W := writing) marshal_string prefixed buf [] strs) as (b1 & E1 & W1);
    [|done | done | rewrite zlen_nil; lia |].
  { intros s out x Hx Hw' Hl'. destruct (Hs x Hx). apply marshal_string_spec; auto with lia. }
  destruct (marshal_array_spec (W := writing) marshal_skshash prefixed b1
    ([] ++ htonl_bytes (zlen strs) ++ concat (map prefixed strs)) hashes) as (b2 & E2 & W2);
    [| exact W1 | done | |].
  { intros s out x Hx Hw' Hl'. destruct (Hh x Hx). apply marshal_skshash_spec; auto with lia. }
  { cbn [app]. rewrite zlen_app. change (zlen (htonl_bytes (zlen strs))) with 4. lia. }
  apply rewind_reading in W2.
  2: { cbn [app]. rewrite !zlen_app. change (zlen (htonl_bytes (zlen strs))) with 4.
       change (zlen (htonl_bytes (zlen hashes))) with 4. lia. }
  cbn [app] in W2.
  destruct (unmarshal_array_spec (R := reading) unmarshal_string prefixed (rewind b2) strs
    (htonl_bytes (zlen hashes) ++ concat (map prefixed hashes))) as (b3 & E3 & R3); [|done | |].
  { intros s x rest Hx Hr. destruct (Hs x Hx). apply unmarshal_string_spec; auto. }
  { by rewrite <- app_assoc in W2. }
  rewrite <- (app_nil_r (concat (map prefixed hashes))) in R3.
  destruct (unmarshal_array_spec (R := reading) unmarshal_skshash prefixed b3 hashes [])  as (b4 & E4 & R4);
    [|done | exact R3 | eauto 10].
  intros s x rest Hx Hr. destruct (Hh x Hx). apply unmarshal_skshash_spec; auto.
Qed.

Lemma marshal_array_roundtrip_witness :
  let strs := [str "Alice <a@example.org>"; []] in
  let hashes := [seqZ 1 16] in
  exists buf1 buf2 buf3 buf4,
    marshal_array marshal_string (mkBuffer [0; 0] 0 2) strs = Done buf1 /\
    marshal_array marshal_skshash buf1 hashes = Done buf2 /\
    unmarshal_array unmarshal_string (rewind buf2) = Done (buf3, Some (map Some strs)) /\
    unmarshal_array unmarshal_skshash buf3 = Done (buf4, Some (map Some hashes)).
Proof.
  intros strs hashes. apply (marshal_array_roundtrip (mkBuffer [0; 0] 0 2) strs hashes);
    try (apply (bool_decide_unpack _); vm_compute; exact I); try (vm_compute; reflexivity).
Defined.

(** A marshalled key is the four-octet length and the binary packets of
    the key, which [read_openpgp_stream] and [parse_keys] turn back into the
    key (up to the recomputed [revoked] flag). *)
Theorem marshal_publickey_roundtrip malloc_ok keys buf fuel :
  writing buf [] ->
  Forall wf_key keys -> Forall tagged_key keys -> Forall sigs_readable keys ->
  Forall encodable (keys_packets keys) -> Forall version_sane (keys_packets keys) ->
  Forall (fun p => malloc_ok (pkt_length p) = true) (keys_packets keys) ->
  zlen (encode_packets (keys_packets keys)) < 2 ^ 32 -> Z.of_nat (length keys) < 2 ^ 31 ->
  (length (keys_packets keys) < fuel)%nat ->
  exists buf1 buf2 buf3,
    marshal_publickey buf keys = Done buf1 /\
    get_len (rewind buf1) = Done (buf2, Some (zlen (encode_packets (keys_packets keys)))) /\
    read_openpgp_stream malloc_ok fuel buf2 (Some []) 0 = Done (buf3, ONAK_E_OK, Some (keys_packets keys)) /\
    parse_keys (keys_packets keys) [] = Done (map (fun k => set_pk_revoked k (revoked_by_sigs k)) keys,
                                              Z.of_nat (length keys)).
Proof.
  intros Hw Hwf Ht Hr He Hv Hm H32 H31 Hf. pose proof (zlen_nonneg (encode_packets (keys_packets keys))).
  destruct (marshal_publickey_spec (W := writing) buf [] keys Hw Hwf He H32) as (b1 & Em & W1);
    [rewrite zlen_nil, zlen_prefixed; lia|].
  set (ps := keys_packets keys) in *.
  apply rewind_reading in W1; [|cbn [app]; rewrite zlen_prefixed; lia]. cbn [app] in W1.
  destruct (get_len_spec (R := reading) (rewind b1) (zlen (encode_packets ps)) (encode_packets ps))
    as (b2 & E2 & R2); [lia | exact W1 |].
  destruct (read_stream_spec (R := reading) malloc_ok ps b2 fuel [] He Hv Hm R2 Hf) as (b3 & E3).
  exists b1, b2, b3. split; [done|]. split; [done|]. split; [done|]. by apply parse_keys_packets.
Qed.

Lemma marshal_publickey_roundtrip_witness :
  let ps := keys_packets [sample_key] in
  exists buf1 buf2 buf3,
    marshal_publickey (mkBuffer [0] 0 1) [sample_key] = Done buf1 /\
    get_len (rewind buf1) = Done (buf2, Some (zlen (encode_packets ps))) /\
    read_openpgp_stream (fun _ => true) 9 buf2 (Some []) 0 = Done (buf3, ONAK_E_OK, Some ps) /\
    parse_keys ps [] = Done (map (fun k => set_pk_revoked k (revoked_by_sigs k)) [sample_key], 1).
Proof.
  intros ps. apply (marshal_publickey_roundtrip (fun _ => true) [sample_key] (mkBuffer [0] 0 1) 9);
    try (apply (bool_decide_unpack _); vm_compute; exact I); try (vm_compute; reflexivity).
Defined.

(** The size [len + 1] of the buffer for a string is computed in 32 bits: a
    length prefix of 0xffffffff makes it 0, and the bytes that follow are
    stored outside the buffer. *)
Theorem unmarshal_string_length_wraps buf b rest :
  reading buf (htonl_bytes (2 ^ 32 - 1) ++ b :: rest) ->
  unmarshal_string buf = Fault OutOfBounds.
Proof.
  intros Hr. destruct (get_len_spec (R := reading) buf (2 ^ 32 - 1) (b :: rest)) as (b1 & E1 & R1);
    [lia | exact Hr |].
  destruct (buffer_fetchchar_spec b1 (b :: rest) (2 ^ 32 - 1) R1) as (b2 & E2 & _); [lia|].
  unfold unmarshal_string. rewrite E1. cbn [mbind outcome_bind]. unfold getchar. rewrite E2.
  cbn [mbind outcome_bind]. destruct (Z.to_nat (2 ^ 32 - 1)) as [|n] eqn:En; [lia|].
  cbn [take]. rewrite zlen_cons. pose proof (zlen_nonneg (take n rest)).
  change (u32 (2 ^ 32 - 1 + 1)) with 0. by destruct (Z.ltb_spec 0 (1 + zlen (take n rest))); [|lia].
Qed.

Lemma unmarshal_string_length_wraps_witness :
  unmarshal_string (mkBuffer [255; 255; 255; 255; 7] 0 5) = Fault OutOfBounds.
Proof.
  apply (unmarshal_string_length_wraps (mkBuffer [255; 255; 255; 255; 7] 0 5) 7 []).
  repeat split; vm_compute; congruence.
Defined.
