(* ===== verification/KeyBuffer.v ===== *)
(** Keys as the octets of their packets in a memory buffer: how the key daemon
    sends them, and how the Berkeley DB backend stores them. *)

From S2P Require Import Prelude OpenPGP Streams Packets Armor Keys.

(** The keys in a buffer, appended to [keys]; the status of the packet
    reader is not looked at. *)
Definition keys_of_buffer (malloc_ok : Z -> bool) (data : list Z) (keys : list openpgp_publickey)
    : outcome (list openpgp_publickey) :=
  '(_, _, packets) ← read_openpgp_stream malloc_ok (S (length data))
    (mkBuffer data 0 (zlen data)) (Some []) 0;
  '(keys, _) ← parse_keys (default [] packets) keys;
  Done keys.

(** The packets of keys in a buffer that starts with 8192 octets. *)
Definition buffer_of_keys (keys : list openpgp_publickey) : outcome (list Z) :=
  packets ← flatten_publickey keys [];
  '(buf, _) ← write_openpgp_stream (mkBuffer (replicate (Z.to_nat 8192) 0) 0 8192) packets;
  memcpy_from (buf_buffer buf) 0 (buf_offset buf).

(** * The round trip *)

(** What a key is after it was written and parsed. *)
Definition reparsed (key : openpgp_publickey) : openpgp_publickey := set_pk_revoked key (revoked_by_sigs key).

Section Storable.
Variable malloc_ok : Z -> bool.

Record storable (keys : list openpgp_publickey) : Prop := {
  storable_wf : Forall wf_key keys;
  storable_tagged : Forall tagged_key keys;
  storable_sigs : Forall sigs_readable keys;
  storable_encodable : Forall encodable (keys_packets keys);
  storable_version : Forall version_sane (keys_packets keys);
  storable_malloc : Forall (fun p => malloc_ok (pkt_length p) = true) (keys_packets keys);
  storable_size : zlen (encode_packets (keys_packets keys)) < 2 ^ 61;
  storable_count : Z.of_nat (length keys) < 2 ^ 31
}.

Lemma buffer_of_keys_ok keys : storable keys -> buffer_of_keys keys = Done (encode_packets (keys_packets keys)).
Proof.
  intros S. unfold buffer_of_keys. rewrite flatten_publickey_wf by apply S. cbn [mbind outcome_bind app].
  pose proof (storable_size keys S). set (ps := keys_packets keys) in *.
  assert (Hinit : writing (mkBuffer (replicate (Z.to_nat 8192) 0) 0 8192) []).
  { repeat split; cbn [buf_buffer buf_size buf_offset]; try lia. }
  destruct (write_spec (W := writing) ps _ [] Hinit (storable_encodable keys S)) as (wb & -> & Wwb);
    [rewrite zlen_nil; lia|]. cbn [mbind outcome_bind].
  destruct Wwb as (Hbl & _ & Hbo & Htake). cbn [app] in Htake.
  by rewrite memcpy_from_ok, drop_0, <- Htake by lia.
Qed.

Lemma keys_of_buffer_ok keys prev :
  storable keys ->
  keys_of_buffer malloc_ok (encode_packets (keys_packets keys)) prev = Done (prev ++ map reparsed keys).
Proof.
  intros S. unfold keys_of_buffer. pose proof (storable_size keys S). pose proof (encode_packets_count (keys_packets keys)).
  destruct (read_stream_spec (R := reading) malloc_ok (keys_packets keys)
    (mkBuffer (encode_packets (keys_packets keys)) 0 (zlen (encode_packets (keys_packets keys))))
    (Datatypes.S (length (encode_packets (keys_packets keys)))) []) as (b & ->); try apply S; [|lia|].
  { pose proof (zlen_nonneg (encode_packets (keys_packets keys))). repeat split; cbn [buf_buffer buf_size buf_offset]; try lia. }
  cbn [mbind outcome_bind app default id].
  rewrite parse_keys_append by apply S. done.
Qed.

Lemma keys_of_buffer_nil keys :
  storable keys -> keys_of_buffer malloc_ok (encode_packets (keys_packets keys)) [] = Done (map reparsed keys).
Proof. apply (keys_of_buffer_ok keys []). Qed.
End Storable.

Lemma encode_packets_ne keys : keys <> [] -> encode_packets (keys_packets keys) <> [].
Proof.
  destruct keys as [|k ks]; [done|]. intros _ E. pose proof (encode_packets_count (keys_packets (k :: ks))) as Hc.
  rewrite E in Hc. cbn in Hc. lia.
Qed.

