(* ===== verification/KeyArray.v ===== *)
(** Sorted arrays of fingerprints (keyarray.c): binary search, insertion and
    loading from a text file.

    [ka_keys] is the allocated array, [ka_size] elements of which the first
    [ka_count] are in use; the empty list is the NULL pointer. *)

From S2P Require Import Prelude CLib OpenPGP Streams.

Record keyarray : Type := mkArray {
  ka_keys : list openpgp_fingerprint;
  ka_count : Z;
  ka_size : Z
}.

Definition fingerprint_cmp (a b : openpgp_fingerprint) : Z :=
  if fp_length a <? fp_length b then -1
  else if fp_length b <? fp_length a then 1
  else memcmp (fp_bytes a) (fp_bytes b) (Z.to_nat (fp_length a)).

(** [keys[i]] *)
Definition key_at (keys : list openpgp_fingerprint) (i : Z) : outcome openpgp_fingerprint :=
  if i <? 0 then Fault OutOfBounds
  else match keys !! Z.to_nat i with
       | Some k => Done k
       | None => Fault OutOfBounds
       end.

(** [while ((top - bottom) > 1)]: halving; the position found. *)
Fixpoint bsearch (fuel : nat) (keys : list openpgp_fingerprint) (fp : openpgp_fingerprint)
    (bottom top : Z) : outcome Z :=
  if 1 <? top - bottom then
    match fuel with
    | O => Fault OutOfFuel
    | S fuel =>
        let curpos := Z.quot (top + bottom) 2 in
        k ← key_at keys curpos;
        if 0 <? fingerprint_cmp fp k then bsearch fuel keys fp curpos top
        else bsearch fuel keys fp bottom curpos
    end
  else Done top.

Definition array_find (array : keyarray) (fp : openpgp_fingerprint) : outcome bool :=
  match ka_keys array with
  | [] => Done false
  | keys =>
      if 0 <? ka_count array then
        top ← bsearch (Z.to_nat (ka_count array)) keys fp (-1) (i32 (ka_count array - 1));
        k ← key_at keys top;
        Done (fingerprint_cmp fp k =? 0)
      else Done false
  end.

(** [realloc] and [memmove] on arrays of fingerprints; fresh elements are
    unspecified, here [blank]. *)
Definition blank : openpgp_fingerprint := mkFingerprint 0 [].

Definition realloc_keys (keys : list openpgp_fingerprint) (n : Z) : list openpgp_fingerprint :=
  take (Z.to_nat n) keys ++ replicate (Z.to_nat n - length keys) blank.

(** [memmove(&keys[pos+1], &keys[pos], (count - pos))] followed by
    [keys[pos] = fp]. *)
Definition insert_at (keys : list openpgp_fingerprint) (pos count : Z) (fp : openpgp_fingerprint)
    : outcome (list openpgp_fingerprint) :=
  let p := Z.to_nat pos in
  let c := Z.to_nat count in
  if (0 <=? pos) && (pos <? zlen keys) && ((count <=? pos) || (count + 1 <=? zlen keys)) then
    Done (if pos <? count
          then take p keys ++ fp :: take (c - p) (drop p keys) ++ drop (c + 1) keys
          else <[p := fp]> keys)
  else Fault OutOfBounds.

(** The new array, and whether the fingerprint was added. *)
Definition array_add (array : keyarray) (fp : openpgp_fingerprint) : outcome (keyarray * bool) :=
  '(found, curpos) ←
    (if negb (ka_size array =? 0) && (0 <? ka_count array) then
       let keys := ka_keys array in
       top ← bsearch (Z.to_nat (ka_count array)) keys fp (-1) (i32 (ka_count array - 1));
       k ← key_at keys top;
       Done (fingerprint_cmp fp k =? 0, if 0 <? fingerprint_cmp fp k then top + 1 else top)
     else Done (false, 0));
  if (found : bool) then Done (array, false)
  else if ka_size array =? 0 then
    keys ← insert_at (replicate 16 blank) 0 0 fp;
    Done (mkArray keys 1 16, true)
  else
    let '(size, keys) :=
      if ka_size array <=? ka_count array
      then (u64 (ka_size array * 2), realloc_keys (ka_keys array) (u64 (ka_size array * 2)))
      else (ka_size array, ka_keys array) in
    keys ← insert_at keys curpos (ka_count array) fp;
    Done (mkArray keys (u64 (ka_count array + 1)) size, true).

Definition array_free (array : keyarray) : keyarray := mkArray [] 0 0.

(** * Loading *)

(** 255 for a character that is no digit. *)
Definition hex2bin (c : Z) : Z :=
  if (48 <=? c) && (c <=? 57) then c - 48
  else if (97 <=? c) && (c <=? 102) then c - 97 + 10
  else if (65 <=? c) && (c <=? 70) then c - 65 + 10
  else 255.

(** Trailing white space is overwritten with NULs. *)
Fixpoint strip_right (s : list Z) : list Z :=
  match s with
  | [] => []
  | c :: s =>
      match strip_right s with
      | [] => if isspace c then [] else [c]
      | s' => c :: s'
      end
  end.

(** The bytes of a fingerprint of [n] bytes on a line. *)
Fixpoint hex_line (n : nat) (line : list Z) : outcome (list Z) :=
  match n with
  | O => Done []
  | S n =>
      match line with
      | h :: l :: line =>
          bs ← hex_line n line;
          Done (Z.lor (u8 (Z.shiftl (hex2bin h) 4)) (hex2bin l) :: bs)
      | _ => Fault OutOfBounds
      end
  end.

(** One line: a comment, a fingerprint, or something else. *)
Definition load_line (array : keyarray) (line : list Z) : outcome keyarray :=
  let line := strip_right (c_string line) in
  let i := Z.shiftr (zlen line) 1 in
  match line with
  | 35 :: _ => Done array
  | _ =>
      if (i =? FINGERPRINT_V3_LEN) || (i =? FINGERPRINT_V4_LEN) || (i =? FINGERPRINT_V5_LEN) then
        bs ← hex_line (Z.to_nat i) line;
        '(array, _) ← array_add array (mkFingerprint i bs);
        Done array
      else Done array
  end.

(** [while (!feof(f))], with the line read before the test. *)
Fixpoint load_loop (fuel : nat) (array : keyarray) (line rest : list Z) (eof : bool)
    : outcome keyarray :=
  if eof then Done array
  else
    match fuel with
    | O => Fault OutOfFuel
    | S fuel =>
        array ← load_line array line;
        match rest with
        | [] => Done array
        | _ => let '(line, rest, eof) := fgets 1022 rest in load_loop fuel array line rest eof
        end
    end.

(** [None] is a file that cannot be opened. *)
Definition array_load (array : keyarray) (file : option (list Z)) : outcome (keyarray * bool) :=
  match file with
  | None => Done (array, negb (ka_count array =? 0))
  | Some [] => Done (array, false)
  | Some s =>
      let '(line, rest, eof) := fgets 1022 s in
      array ← load_loop (length s) array line rest eof;
      Done (array, negb (ka_count array =? 0))
  end.

(** * The order of fingerprints *)

(** Only the meaningful bytes are kept. *)
Definition wf_fp (fp : openpgp_fingerprint) : Prop := zlen (fp_bytes fp) = fp_length fp.

#[global] Instance wf_fp_dec fp : Decision (wf_fp fp).
Proof. unfold wf_fp. apply _. Defined.

Definition fp_lt (a b : openpgp_fingerprint) : Prop := fingerprint_cmp a b < 0.

Lemma fingerprint_cmp_opp a b : wf_fp a -> wf_fp b -> fingerprint_cmp b a = - fingerprint_cmp a b.
Proof.
  intros Ha Hb. unfold fingerprint_cmp.
  destruct (Z.ltb_spec (fp_length b) (fp_length a)), (Z.ltb_spec (fp_length a) (fp_length b)); try lia.
  replace (fp_length b) with (fp_length a) by lia. apply memcmp_opp.
Qed.

Lemma fingerprint_cmp_eq a b : wf_fp a -> wf_fp b -> fingerprint_cmp a b = 0 <-> a = b.
Proof.
  intros Ha Hb. unfold fingerprint_cmp. split.
  - destruct (Z.ltb_spec (fp_length a) (fp_length b)); [lia|].
    destruct (Z.ltb_spec (fp_length b) (fp_length a)); [lia|].
    unfold wf_fp, zlen in *. rewrite <- Ha, Nat2Z.id. intros Hm. apply memcmp_eq in Hm; [|lia].
    destruct a, b; cbn in *. f_equal; [lia | done].
  - intros ->. rewrite Z.ltb_irrefl. apply memcmp_refl.
Qed.

Lemma fp_lt_trans a b c : wf_fp a -> wf_fp b -> wf_fp c -> fp_lt a b -> fp_lt b c -> fp_lt a c.
Proof.
  intros Ha Hb Hc. unfold fp_lt, fingerprint_cmp, wf_fp, zlen in *.
  destruct (Z.ltb_spec (fp_length a) (fp_length b)), (Z.ltb_spec (fp_length b) (fp_length c)),
    (Z.ltb_spec (fp_length a) (fp_length c)); try lia;
  destruct (Z.ltb_spec (fp_length b) (fp_length a)), (Z.ltb_spec (fp_length c) (fp_length b)),
    (Z.ltb_spec (fp_length c) (fp_length a)); try lia.
  replace (fp_length b) with (fp_length a) by lia. apply memcmp_trans; lia.
Qed.

Lemma fp_gt_lt a b : wf_fp a -> wf_fp b -> 0 < fingerprint_cmp a b <-> fp_lt b a.
Proof. intros. unfold fp_lt. rewrite (fingerprint_cmp_opp a b) by done. lia. Qed.

(** * The invariant *)

Definition elements (a : keyarray) : list openpgp_fingerprint := take (Z.to_nat (ka_count a)) (ka_keys a).

Definition sorted_fps (l : list openpgp_fingerprint) : Prop :=
  forall i j x y, (i < j)%nat -> l !! i = Some x -> l !! j = Some y -> fp_lt x y.

(** The array has room for its elements, and they are sorted without
    duplicates. *)
Definition wf_array (a : keyarray) : Prop :=
  zlen (ka_keys a) = ka_size a /\ 0 <= ka_count a <= ka_size a /\ ka_size a < 2 ^ 30 /\
  Forall wf_fp (elements a) /\ sorted_fps (elements a).

Lemma zlen_elements a : wf_array a -> zlen (elements a) = ka_count a.
Proof. intros (Hl & Hc & _). unfold elements, zlen in *. rewrite length_take. lia. Qed.

Lemma key_at_elements a i :
  wf_array a -> 0 <= i < ka_count a ->
  exists k, key_at (ka_keys a) i = Done k /\ elements a !! Z.to_nat i = Some k /\ wf_fp k.
Proof.
  intros Hw Hi. pose proof (zlen_elements a Hw) as Hz. unfold zlen in Hz.
  destruct (lookup_lt_is_Some_2 (elements a) (Z.to_nat i)) as [k Hk]; [lia|].
  exists k. split; [|split; [done|]].
  - unfold key_at. destruct (Z.ltb_spec i 0); [lia|]. unfold elements in Hk.
    rewrite lookup_take_lt in Hk by lia. by rewrite Hk.
  - destruct Hw as (_ & _ & _ & Hf & _). by eapply Forall_lookup_1.
Qed.

(** When only one position is left, everything below it is smaller. *)
Lemma bsearch_stop a fp bottom top :
  wf_array a -> wf_fp fp -> -1 <= bottom -> top = bottom + 1 -> top < ka_count a ->
  (0 <= bottom -> forall k, elements a !! Z.to_nat bottom = Some k -> fp_lt k fp) ->
  forall i k, (i < Z.to_nat top)%nat -> elements a !! i = Some k -> fp_lt k fp.
Proof.
  intros Hw Hfp Hb -> Ht Hlow i k Hi Hk.
  destruct (key_at_elements a bottom Hw) as (kb & _ & Ekb & Wkb); [lia|].
  specialize (Hlow ltac:(lia) kb Ekb).
  destruct (decide (i = Z.to_nat bottom)) as [->|]; [congruence|].
  destruct Hw as (_ & _ & _ & Hfs & Hso).
  apply (fp_lt_trans k kb fp); [by eapply Forall_lookup_1 | done | done | | done].
  apply (Hso i (Z.to_nat bottom)); auto with lia.
Qed.

(** Binary search: everything below the result is smaller than [fp], and the
    result is the last index unless its element is not smaller. *)
Lemma bsearch_spec a fp fuel bottom top :
  wf_array a -> wf_fp fp -> -1 <= bottom < top -> top < ka_count a -> top - bottom <= Z.of_nat fuel + 1 ->
  (0 <= bottom -> forall k, elements a !! Z.to_nat bottom = Some k -> fp_lt k fp) ->
  (top = ka_count a - 1 \/ forall k, elements a !! Z.to_nat top = Some k -> ~ fp_lt k fp) ->
  exists t, bsearch fuel (ka_keys a) fp bottom top = Done t /\ 0 <= t < ka_count a /\
    (forall i k, (i < Z.to_nat t)%nat -> elements a !! i = Some k -> fp_lt k fp) /\
    (t = ka_count a - 1 \/ forall k, elements a !! Z.to_nat t = Some k -> ~ fp_lt k fp).
Proof.
  intros Hw Hfp. revert bottom top. induction fuel as [|fuel IH]; intros bottom top Hb Ht Hf Hlow Hhigh;
    cbn [bsearch]; (destruct (Z.ltb_spec 1 (top - bottom)); [try lia|]).
  1, 3: exists top; split; [done|]; split; [lia|]; split; [|done]; apply (bsearch_stop a fp bottom); auto with lia.
  assert (Hq : Z.quot (top + bottom) 2 = (top + bottom) / 2) by (apply Z.quot_div_nonneg; lia).
  rewrite Hq. set (m := (top + bottom) / 2). assert (Hm : bottom < m < top) by (unfold m; Z.div_mod_to_equations; lia).
  destruct (key_at_elements a m Hw) as (km & -> & Ekm & Wkm); [lia|]. cbn [mbind outcome_bind].
  destruct (Z.ltb_spec 0 (fingerprint_cmp fp km)) as [Hgt|Hle].
  - apply IH; [lia | lia | lia | | done]. intros _ k Hk. apply fp_gt_lt in Hgt; [|done | done]. congruence.
  - apply IH; [lia | lia | lia | done |]. right. intros k Hk Hlt. rewrite Ekm in Hk. injection Hk as <-.
    apply fp_gt_lt in Hlt; [lia | done | done].
Qed.

Lemma fp_lt_irrefl a : wf_fp a -> ~ fp_lt a a.
Proof. intros H. unfold fp_lt. rewrite (proj2 (fingerprint_cmp_eq a a H H) eq_refl). lia. Qed.

(** The search result decides membership. *)
Lemma bsearch_found a fp :
  wf_array a -> wf_fp fp -> 0 < ka_count a ->
  exists t k, bsearch (Z.to_nat (ka_count a)) (ka_keys a) fp (-1) (i32 (ka_count a - 1)) = Done t /\
    0 <= t < ka_count a /\ key_at (ka_keys a) t = Done k /\ elements a !! Z.to_nat t = Some k /\ wf_fp k /\
    (forall i x, (i < Z.to_nat t)%nat -> elements a !! i = Some x -> fp_lt x fp) /\
    (t = ka_count a - 1 \/ ~ fp_lt k fp) /\
    ((fingerprint_cmp fp k =? 0) = bool_decide (fp ∈ elements a)).
Proof.
  intros Hw Hfp Hc. pose proof Hw as (Hl & Hcs & H31 & Hf & Hs).
  rewrite i32_small by lia.
  destruct (bsearch_spec a fp (Z.to_nat (ka_count a)) (-1) (ka_count a - 1) Hw Hfp)
    as (t & E & Ht & Hlow & Hhigh); [lia | lia | lia | lia | by left |].
  destruct (key_at_elements a t Hw Ht) as (k & Ek & Hk & Wk).
  exists t, k. split; [done|]. split; [done|]. split; [done|]. split; [done|]. split; [done|].
  split; [done|]. split; [destruct Hhigh; auto|].
  apply eq_bool_prop_intro. rewrite bool_decide_spec, Is_true_true, Z.eqb_eq, fingerprint_cmp_eq by done.
  split; [intros ->; by eapply list_elem_of_lookup_2|].
  intros [j Hj]%list_elem_of_lookup_1.
  destruct (decide (j = Z.to_nat t)) as [->|Hne]; [congruence|].
  destruct (decide (j < Z.to_nat t)%nat) as [Hlt|Hge].
  { exfalso. by apply (fp_lt_irrefl fp Hfp), (Hlow j). }
  exfalso. assert (Hkfp : fp_lt k fp) by (apply (Hs (Z.to_nat t) j); auto with lia).
  destruct Hhigh as [-> | Hhigh]; [|by apply (Hhigh k Hk)].
  apply lookup_lt_Some in Hj. unfold elements in Hj. rewrite length_take in Hj. lia.
Qed.

Lemma array_find_spec a fp :
  wf_array a -> wf_fp fp -> array_find a fp = Done (bool_decide (fp ∈ elements a)).
Proof.
  intros Hw Hfp. pose proof Hw as (Hl & Hc & _). unfold array_find.
  destruct (ka_keys a) as [|k0 ks] eqn:Ek.
  { rewrite bool_decide_eq_false_2; [done|]. unfold elements. rewrite Ek, take_nil. apply not_elem_of_nil. }
  destruct (Z.ltb_spec 0 (ka_count a)) as [Hpos|Hz].
  - destruct (bsearch_found a fp Hw Hfp Hpos) as (t & k & E & _ & Eat & _ & _ & _ & _ & Hd).
    rewrite <- Ek, E. cbn [mbind outcome_bind]. rewrite Eat. cbn [mbind outcome_bind]. by rewrite Hd.
  - rewrite bool_decide_eq_false_2; [done|]. unfold elements.
    replace (Z.to_nat (ka_count a)) with 0%nat by lia. apply not_elem_of_nil.
Qed.

(** Insertion at a place that keeps the order. *)
Lemma sorted_insert l p fp :
  sorted_fps l -> (p <= length l)%nat ->
  (forall i x, (i < p)%nat -> l !! i = Some x -> fp_lt x fp) ->
  (forall i x, (p <= i)%nat -> l !! i = Some x -> fp_lt fp x) ->
  sorted_fps (take p l ++ fp :: drop p l).
Proof.
  intros Hs Hp Hlo Hhi i j x y Hij Hx Hy.
  assert (Hlen : length (take p l) = p) by (rewrite length_take; lia).
  assert (Hcase : forall n z, (take p l ++ fp :: drop p l) !! n = Some z ->
    ((n < p)%nat /\ l !! n = Some z) \/ (n = p /\ z = fp) \/ ((p < n)%nat /\ l !! (n - 1)%nat = Some z)).
  { intros n z Hz. destruct (decide (n < p)%nat) as [Hlt|Hge].
    - left. rewrite lookup_app_l in Hz by lia. rewrite lookup_take_lt in Hz by done. auto.
    - right. rewrite lookup_app_r in Hz by lia. rewrite Hlen in Hz.
      destruct (n - p)%nat as [|m] eqn:Em; [cbn in Hz; left; split; [lia | congruence]|right].
      change ((fp :: drop p l) !! S m) with (drop p l !! m) in Hz. rewrite lookup_drop in Hz. split; [lia|]. rewrite <- Hz. f_equal. lia. }
  destruct (Hcase i x Hx) as [(Hi & Hxi) | [(Hi & ->) | (Hi & Hxi)]],
    (Hcase j y Hy) as [(Hj & Hyj) | [(Hj & ->) | (Hj & Hyj)]]; try lia.
  - by apply (Hs i j).
  - by apply (Hlo i).
  - apply (Hs i (j - 1)%nat); auto with lia.
  - apply (Hhi (j - 1)%nat); auto with lia.
  - apply (Hs (i - 1)%nat (j - 1)%nat); auto with lia.
Qed.

(** What the memory operations of an insertion leave in the first
    [count + 1] slots. *)
Lemma insert_at_spec keys pos count fp :
  0 <= pos <= count -> count < zlen keys ->
  exists keys', insert_at keys pos count fp = Done keys' /\ length keys' = length keys /\
    take (Z.to_nat (count + 1)) keys' =
      take (Z.to_nat pos) (take (Z.to_nat count) keys) ++ fp
        :: drop (Z.to_nat pos) (take (Z.to_nat count) keys).
Proof.
  intros Hp Hc. unfold insert_at. unfold zlen in *.
  destruct (Z.leb_spec 0 pos), (Z.ltb_spec pos (Z.of_nat (length keys))); try lia.
  destruct (Z.leb_spec (count + 1) (Z.of_nat (length keys))); [|lia]. rewrite orb_true_r. cbn [andb].
  eexists. split; [done|]. set (p := Z.to_nat pos). set (c := Z.to_nat count).
  assert (Hpc : (p <= c < length keys)%nat) by (unfold p, c; lia).
  replace (Z.to_nat (count + 1)) with (S c) by (unfold c; lia).
  rewrite take_take, Nat.min_l by lia.
  destruct (Z.ltb_spec pos count).
  - split.
    + rewrite length_app. cbn [length]. rewrite length_app, !length_take, !length_drop. lia.
    + rewrite skipn_firstn_comm. fold c.
      rewrite take_app_ge by (rewrite length_take; lia). f_equal. rewrite length_take.
      replace (S c - p `min` length keys)%nat with (S (c - p)) by lia. cbn [take]. f_equal.
      rewrite take_app_length'; [done|]. rewrite length_take, length_drop. lia.
  - assert (Hpeq : p = c) by (unfold p, c; lia). split; [by rewrite length_insert|].
    rewrite (take_S_r _ _ fp) by (rewrite Hpeq; apply list_lookup_insert_eq; lia).
    rewrite Hpeq, take_insert_ge by lia. rewrite drop_ge by (rewrite length_take; lia). done.
Qed.

Lemma elements_insert a keys keys' size pos fp :
  wf_array a -> wf_fp fp -> take (Z.to_nat (ka_count a)) keys = elements a ->
  zlen keys = size -> ka_count a < size < 2 ^ 30 -> 0 <= pos <= ka_count a ->
  insert_at keys pos (ka_count a) fp = Done keys' ->
  (forall i x, (i < Z.to_nat pos)%nat -> elements a !! i = Some x -> fp_lt x fp) ->
  (forall i x, (Z.to_nat pos <= i)%nat -> elements a !! i = Some x -> fp_lt fp x) ->
  let a' := mkArray keys' (u64 (ka_count a + 1)) size in
  wf_array a' /\ elements a' ≡ₚ fp :: elements a.
Proof.
  intros Hw Hfp Htk Hz Hsz Hpos E Hlo Hhi a'. pose proof Hw as (Hl & Hc & _ & Hf & Hs).
  destruct (insert_at_spec keys pos (ka_count a) fp) as (k2 & E2 & Hlen & Htake); [lia | lia |].
  rewrite E in E2. injection E2 as <-. rewrite Htk in Htake.
  assert (Hu : u64 (ka_count a + 1) = ka_count a + 1) by (apply u64_small; lia).
  assert (He : elements a' = take (Z.to_nat pos) (elements a) ++ fp :: drop (Z.to_nat pos) (elements a))
    by (unfold elements at 1, a'; cbn [ka_keys ka_count]; by rewrite Hu).
  pose proof (zlen_elements a Hw) as Hze. split.
  - unfold wf_array. rewrite He. cbn [ka_keys ka_count ka_size a']. rewrite Hu.
    split; [unfold zlen in *; lia|]. split; [lia|]. split; [lia|]. split.
    + apply Forall_app. split; [by apply Forall_take|]. constructor; [done | by apply Forall_drop].
    + apply sorted_insert; auto. unfold zlen in Hze. lia.
  - rewrite He. rewrite <- Permutation_middle. by rewrite take_drop.
Qed.

Lemma array_add_first a fp :
  wf_array a -> wf_fp fp -> ka_size a = 0 ->
  exists keys, insert_at (replicate 16 blank) 0 0 fp = Done keys /\
    wf_array (mkArray keys 1 16) /\ elements (mkArray keys 1 16) = [fp].
Proof.
  intros Hw Hfp Hs. destruct (insert_at_spec (replicate 16 blank) 0 0 fp) as (keys & E & Hl & Ht); [lia | done |].
  exists keys. split; [done|]. assert (He : elements (mkArray keys 1 16) = [fp]) by exact Ht.
  split; [|done]. unfold wf_array. rewrite He. cbn [ka_keys ka_count ka_size].
  split; [unfold zlen; rewrite Hl; done|]. split; [lia|]. split; [lia|]. split; [by apply Forall_singleton|].
  intros [|i] [|j] x y Hij Hx Hy; try lia; done.
Qed.

(** Where the search says to insert. *)
Lemma insert_position a fp :
  wf_array a -> wf_fp fp -> fp ∉ elements a -> ka_size a <> 0 ->
  exists pos, 0 <= pos <= ka_count a /\
    (if negb (ka_size a =? 0) && (0 <? ka_count a) then
       top ← bsearch (Z.to_nat (ka_count a)) (ka_keys a) fp (-1) (i32 (ka_count a - 1));
       k ← key_at (ka_keys a) top;
       Done (fingerprint_cmp fp k =? 0, if 0 <? fingerprint_cmp fp k then top + 1 else top)
     else Done (false, 0)) = Done (false, pos) /\
    (forall i x, (i < Z.to_nat pos)%nat -> elements a !! i = Some x -> fp_lt x fp) /\
    (forall i x, (Z.to_nat pos <= i)%nat -> elements a !! i = Some x -> fp_lt fp x).
Proof.
  intros Hw Hfp Hni Hsz. pose proof Hw as (Hl & Hc & _ & Hf & Hs). pose proof (zlen_elements a Hw) as Hze.
  rewrite (proj2 (Z.eqb_neq _ _) Hsz). cbn [negb andb].
  destruct (Z.ltb_spec 0 (ka_count a)) as [Hpos|Hz].
  2: { exists 0. split; [lia|]. split; [done|].
       split; intros i x Hi Hx; apply lookup_lt_Some in Hx; unfold zlen in Hze; lia. }
  destruct (bsearch_found a fp Hw Hfp Hpos) as (t & k & E & Ht & Eat & Ek & Wk & Hlow & Hhigh & Hd).
  rewrite E. cbn [mbind outcome_bind]. rewrite Eat. cbn [mbind outcome_bind].
  rewrite Hd, bool_decide_eq_false_2 by done.
  assert (Hne : fingerprint_cmp fp k <> 0).
  { intros Heq. apply fingerprint_cmp_eq in Heq; [|done | done]. subst k. apply Hni. by eapply list_elem_of_lookup_2. }
  destruct (Z.ltb_spec 0 (fingerprint_cmp fp k)) as [Hgt|Hle].
  - apply fp_gt_lt in Hgt; [|done | done]. destruct Hhigh as [-> | Hn]; [|done].
    exists (ka_count a - 1 + 1). split; [lia|]. split; [done|]. split.
    + intros i x Hi Hx. destruct (decide (i = Z.to_nat (ka_count a - 1))) as [->|]; [congruence|].
      apply (Hlow i); auto with lia.
    + intros i x Hi Hx. apply lookup_lt_Some in Hx. unfold zlen in Hze. lia.
  - exists t. split; [lia|]. split; [done|]. split; [done|].
    intros i x Hi Hx. assert (Hlt : fp_lt fp k) by (unfold fp_lt; lia).
    destruct (decide (i = Z.to_nat t)) as [->|]; [congruence|].
    apply (fp_lt_trans fp k x); [done | done | by eapply Forall_lookup_1 | done |].
    apply (Hs (Z.to_nat t) i); auto with lia.
Qed.

Lemma array_add_spec a fp :
  wf_array a -> wf_fp fp -> ka_size a < 2 ^ 29 ->
  exists a' b, array_add a fp = Done (a', b) /\ wf_array a' /\
    b = negb (bool_decide (fp ∈ elements a)) /\
    elements a' ≡ₚ (if b then fp :: elements a else elements a) /\ ka_size a' <= Z.max 16 (2 * ka_size a).
Proof.
  intros Hw Hfp H29. pose proof Hw as (Hl & Hc & _ & Hf & Hs). unfold array_add.
  destruct (Z.eq_dec (ka_size a) 0) as [Hz|Hz].
  { rewrite Hz. cbn [Z.eqb negb andb mbind outcome_bind].
    destruct (array_add_first a fp Hw Hfp Hz) as (keys & -> & Hw' & He). cbn [mbind outcome_bind].
    assert (Hnil : elements a = []) by (unfold elements; by replace (Z.to_nat (ka_count a)) with 0%nat by lia).
    eexists _, _. split; [done|]. split; [done|]. rewrite Hnil, He. done. }
  destruct (decide (fp ∈ elements a)) as [Hin|Hni].
  - rewrite (proj2 (Z.eqb_neq _ _) Hz). cbn [negb andb].
    assert (Hpos : 0 < ka_count a).
    { destruct (Z.ltb_spec 0 (ka_count a)); [done|]. exfalso. unfold elements in Hin.
      replace (Z.to_nat (ka_count a)) with 0%nat in Hin by lia. by apply not_elem_of_nil in Hin. }
    rewrite (proj2 (Z.ltb_lt _ _) Hpos).
    destruct (bsearch_found a fp Hw Hfp Hpos) as (t & k & E & _ & Eat & _ & _ & _ & _ & Hd).
    rewrite E. cbn [mbind outcome_bind]. rewrite Eat. cbn [mbind outcome_bind].
    rewrite Hd, bool_decide_eq_true_2 by done. eexists _, _. split; [done|]. repeat split; auto; lia.
  - destruct (insert_position a fp Hw Hfp Hni Hz) as (pos & Hpos & -> & Hlo & Hhi).
    cbn [mbind outcome_bind]. rewrite (proj2 (Z.eqb_neq _ _) Hz), bool_decide_eq_false_2 by done.
    set (grow := ka_size a <=? ka_count a).
    set (size := if grow then u64 (ka_size a * 2) else ka_size a).
    set (keys := if grow then realloc_keys (ka_keys a) (u64 (ka_size a * 2)) else ka_keys a).
    replace (if grow then (u64 (ka_size a * 2), realloc_keys (ka_keys a) (u64 (ka_size a * 2)))
             else (ka_size a, ka_keys a)) with (size, keys) by (unfold size, keys; by destruct grow).
    assert (Hu : u64 (ka_size a * 2) = ka_size a * 2) by (apply u64_small; lia).
    assert (Hsk : zlen keys = size /\ ka_count a < size < 2 ^ 30 /\ size <= 2 * ka_size a /\
      take (Z.to_nat (ka_count a)) keys = elements a).
    { unfold size, keys, grow. destruct (Z.leb_spec (ka_size a) (ka_count a)).
      - rewrite Hu. unfold realloc_keys, zlen, elements in *.
        rewrite length_app, length_take, length_replicate. split; [lia|]. split; [lia|]. split; [lia|].
        rewrite take_app_le by (rewrite length_take; lia). rewrite take_take. f_equal. lia.
      - repeat split; lia. }
    destruct Hsk as (Hzk & Hsz & Hs2 & Htk).
    destruct (insert_at_spec keys pos (ka_count a) fp) as (keys' & E & _ & _); [lia | lia |].
    rewrite E. cbn [mbind outcome_bind].
    destruct (elements_insert a keys keys' size pos fp) as [Hw' Hp]; auto.
    eexists _, _. split; [done|]. split; [done|]. split; [done|]. split; [done|]. cbn [ka_size]. lia.
Qed.

(** * Loading never fails *)

(** The allocation is at most twice as large as what it holds. *)
Definition tight (a : keyarray) : Prop := ka_size a <= Z.max 16 (2 * ka_count a).

Lemma array_add_tight a fp a' b : wf_array a -> tight a -> ka_size a < 2 ^ 29 -> array_add a fp = Done (a', b) -> tight a'.
Proof.
  intros (_ & Hc & _) Ht H29. unfold array_add, tight in *.
  destruct (if negb _ && _ then _ else _) as [[[] pos]|]; cbn [mbind outcome_bind]; [by intros [= <- <-] | | done].
  destruct (Z.eqb_spec (ka_size a) 0).
  { destruct (insert_at _ _ _ _); cbn [mbind outcome_bind]; [intros [= <- <-] | done]. cbn. lia. }
  destruct (Z.leb_spec (ka_size a) (ka_count a)); cbv zeta beta iota;
    (destruct (insert_at _ _ _ _); cbn [mbind outcome_bind]; [intros [= <- <-] | done]); cbn [ka_size ka_count];
    rewrite !u64_small by lia; lia.
Qed.

Lemma elements_nodup a : wf_array a -> NoDup (elements a).
Proof.
  intros (_ & _ & _ & Hf & Hs). apply NoDup_alt. intros i j x Hi Hj. destruct (Nat.lt_trichotomy i j) as [H | [H | H]]; [|done|];
    (exfalso; apply (fp_lt_irrefl x); [by eapply Forall_lookup_1 | eapply Hs; eauto]).
Qed.

(** The fingerprint on a line, if there is one. *)
Definition line_fps (line : list Z) : list openpgp_fingerprint :=
  let line := strip_right (c_string line) in
  match hex_line (Z.to_nat (Z.shiftr (zlen line) 1)) line with
  | Done bs => [mkFingerprint (Z.shiftr (zlen line) 1) bs]
  | Fault _ => []
  end.

Lemma hex_line_ok n : forall line, (2 * n <= length line)%nat -> exists bs, hex_line n line = Done bs /\ length bs = n.
Proof.
  induction n as [|n IH]; intros line Hl; [by exists []|]. destruct line as [|h [|l line]]; cbn [length] in Hl; [lia.. |].
  cbn [hex_line]. destruct (IH line) as (bs & -> & Hb); [lia|]. eexists. split; [done|]. cbn. lia.
Qed.

(** The fingerprints of a file, line by line as it is read. *)
Fixpoint lines_fps (fuel : nat) (line rest : list Z) : list openpgp_fingerprint :=
  match fuel with
  | O => []
  | S fuel => line_fps line ++ match rest with
                               | [] => []
                               | _ => let '(line, rest, _) := fgets 1022 rest in lines_fps fuel line rest
                               end
  end.

Definition file_fps (s : list Z) : list openpgp_fingerprint :=
  let '(line, rest, _) := fgets 1022 s in lines_fps (length s) line rest.

Lemma file_fps_length s : zlen (file_fps s) <= zlen s.
Proof.
  assert (H : forall fuel line rest, (length (lines_fps fuel line rest) <= fuel)%nat).
  { induction fuel as [|fuel IH]; intros line rest; cbn [lines_fps]; [done|]. rewrite length_app.
    assert (length (line_fps line) <= 1)%nat by (unfold line_fps; destruct (hex_line _ _); cbn; lia).
    destruct rest as [|c rest]; [cbn; lia|]. destruct (fgets 1022 (c :: rest)) as [[l r] e]. specialize (IH l r). lia. }
  unfold file_fps. destruct (fgets 1022 s) as [[l r] e]. specialize (H (length s) l r). unfold zlen. lia.
Qed.

Section Load.
Context (U : list openpgp_fingerprint) (HU : zlen U < 2 ^ 28).

(** A sound array of fingerprints from [U]. *)
Definition array_of (a : keyarray) : Prop := wf_array a /\ tight a /\ forall fp, fp ∈ elements a -> fp ∈ U.

Lemma array_of_size a : array_of a -> ka_size a < 2 ^ 29.
Proof.
  intros (Hw & Ht & Hin). assert (Hl : elements a ⊆+ U) by (apply NoDup_submseteq; [by apply elements_nodup | done]).
  apply submseteq_length in Hl. pose proof (zlen_elements a Hw). unfold tight, zlen in *. lia.
Qed.

Lemma load_line_ok a line : array_of a -> (forall fp, fp ∈ line_fps line -> fp ∈ U) ->
  exists a', load_line a line = Done a' /\ array_of a'.
Proof.
  intros Ha Hin. pose proof (array_of_size a Ha) as H29. destruct Ha as (Hw & Ht & Hel). unfold load_line, line_fps in *.
  set (l := strip_right (c_string line)) in *. set (i := Z.shiftr (zlen l) 1) in *.
  assert (Hi : 0 <= i /\ 2 * i <= zlen l) by (unfold i; rewrite Z.shiftr_div_pow2 by lia; pose proof (zlen_nonneg l); change (2 ^ 1) with 2; Z.div_mod_to_equations; lia).
  destruct (hex_line_ok (Z.to_nat i) l) as (bs & E & Hb); [unfold zlen in Hi; lia|]. rewrite E in *.
  assert (Hgo : exists a', (if (i =? FINGERPRINT_V3_LEN) || (i =? FINGERPRINT_V4_LEN) || (i =? FINGERPRINT_V5_LEN) then
      '(array, _) ← array_add a (mkFingerprint i bs); Done array else Done a) = Done a' /\ array_of a').
  { destruct (_ || _); [|by exists a]. destruct (array_add_spec a (mkFingerprint i bs)) as (a' & b & E2 & Hw' & _ & Hp & _);
      [done | unfold wf_fp, zlen; cbn; lia | done |].
    rewrite E2. exists a'. split; [done|]. split; [done|]. split; [exact (array_add_tight a _ a' b Hw Ht H29 E2)|].
    intros fp. rewrite Hp. destruct b; [|apply Hel]. intros [-> | ?]%elem_of_cons; [apply Hin; by left | auto]. }
  destruct l as [|c l']; [exact Hgo|].
  assert (Hc : c = 35 \/ c <> 35) by lia. destruct Hc as [-> | Hc]; [by exists a|].
  destruct Hgo as (a' & Hgo & Ha'). exists a'. split; [|done]. rewrite <- Hgo.
  destruct (_ || _); cbn [mbind outcome_bind]; repeat (done || case_match).
Qed.

Lemma load_loop_ok fuel : forall a line rest eof, array_of a -> (eof = true \/ (length rest < fuel)%nat) ->
  (forall fp, fp ∈ lines_fps fuel line rest -> fp ∈ U) -> exists a', load_loop fuel a line rest eof = Done a' /\ array_of a'.
Proof.
  induction fuel as [|fuel IH]; intros a line rest eof Ha Hf Hin; destruct eof; cbn [load_loop]; eauto; (destruct Hf as [|Hf]; [done|]); [lia|].
  cbn [lines_fps] in Hin. destruct (load_line_ok a line Ha) as (a1 & -> & Ha1); [intros; apply Hin, elem_of_app; auto|].
  cbn [mbind outcome_bind]. destruct rest as [|c rest]; [eauto|]. pose proof (fgets_rest 1021 (c :: rest)) as Hr.
  destruct (fgets 1022 (c :: rest)) as [[l r] e]. cbn [fst snd length] in *.
  apply IH; [done | right; lia | intros; apply Hin, elem_of_app; auto].
Qed.

Lemma array_load_ok a file : array_of a -> (forall s fp, file = Some s -> fp ∈ file_fps s -> fp ∈ U) ->
  exists a' b, array_load a file = Done (a', b) /\ array_of a'.
Proof.
  intros Ha Hin. unfold array_load. destruct file as [s|]; [|eauto]. specialize (Hin s). destruct s as [|c s]; [eauto|].
  unfold file_fps in Hin. pose proof (fgets_rest 1021 (c :: s)) as Hr. destruct (fgets 1022 (c :: s)) as [[l r] e]. cbn [fst snd length] in Hr.
  destruct (load_loop_ok (length (c :: s)) a l r e Ha) as (a' & -> & Ha'); [right; cbn; lia | by eauto |]. cbn [mbind outcome_bind]. eauto.
Qed.
End Load.

Lemma array_of_empty U : array_of U (mkArray [] 0 0).
Proof.
  split; [|split; [unfold tight; cbn; lia | intros fp Hfp; by apply elem_of_nil in Hfp]].
  split; [done|]. split; [cbn; lia|]. split; [cbn; lia|]. split; [constructor|]. intros i j x y _ Hx. done.
Qed.

(** * Properties *)

(** A lookup in a sorted array answers whether the fingerprint is one of
    its elements. *)
Theorem array_find_correct a fp :
  wf_array a -> wf_fp fp -> array_find a fp = Done (bool_decide (fp ∈ elements a)).
Proof. apply array_find_spec. Qed.

(** Adding a fingerprint keeps the array sorted, free of duplicates and
    within its allocation (which doubles when it is full); the fingerprint is
    added exactly if it was not there, which the result reports, and nothing
    else changes. *)
Theorem array_add_correct a fp :
  wf_array a -> wf_fp fp -> ka_size a < 2 ^ 29 ->
  exists a' b, array_add a fp = Done (a', b) /\ wf_array a' /\
    b = negb (bool_decide (fp ∈ elements a)) /\
    elements a' ≡ₚ (if b then fp :: elements a else elements a) /\ ka_size a' <= Z.max 16 (2 * ka_size a).
Proof. apply array_add_spec. Qed.

Definition sample_fp (x : Z) : openpgp_fingerprint := mkFingerprint 16 (replicate 15 0 ++ [x]).

Definition sample_array : keyarray :=
  mkArray ([sample_fp 3; sample_fp 5; sample_fp 9] ++ replicate 13 blank) 3 16.

Lemma sample_array_wf : wf_array sample_array.
Proof.
  split; [done|]. split; [cbn; lia|]. split; [cbn; lia|].
  split; [apply (bool_decide_unpack _); vm_compute; exact I|].
  intros i j x y Hij Hx Hy. change (elements sample_array) with [sample_fp 3; sample_fp 5; sample_fp 9] in *.
  destruct i as [|[|[|i]]], j as [|[|[|j]]]; try lia; cbn in Hx, Hy; try done;
    injection Hx as <-; injection Hy as <-; vm_compute; done.
Qed.

Lemma array_find_correct_witness :
  array_find sample_array (sample_fp 5) = Done true.
Proof. apply (array_find_correct sample_array (sample_fp 5) sample_array_wf). reflexivity. Defined.

Lemma array_add_correct_witness :
  exists a' b, array_add sample_array (sample_fp 7) = Done (a', b) /\ wf_array a' /\
    b = negb (bool_decide (sample_fp 7 ∈ elements sample_array)) /\
    elements a' ≡ₚ (if b then sample_fp 7 :: elements sample_array else elements sample_array) /\
    ka_size a' <= Z.max 16 (2 * 16).
Proof. apply (array_add_correct sample_array (sample_fp 7) sample_array_wf); reflexivity. Defined.

(** The last line of a fingerprint file is ignored when it does not end in
    a newline: a file that consists of one such line loads nothing. *)
Theorem array_load_drops_last_line s :
  s <> [] -> (10 ∉ s) -> zlen s < 1022 ->
  array_load (mkArray [] 0 0) (Some s) = Done (mkArray [] 0 0, false).
Proof.
  intros Hne Hnl Hlen.
  assert (Hf : forall n l, (10 ∉ l) -> (length l < n)%nat -> fgets n l = (l, [], true)).
  { induction n as [|n IH]; intros l Hl Hn; [lia|]. destruct l as [|c l]; [done|]. cbn [fgets length] in *.
    apply not_elem_of_cons in Hl as [Hc Hl]. destruct (Z.eqb_spec c 10); [congruence|].
    by rewrite IH by (done || lia). }
  unfold array_load. destruct s as [|c s]; [done|].
  rewrite Hf by (done || (unfold zlen in Hlen; lia)). done.
Qed.

Lemma array_load_drops_last_line_witness :
  array_load (mkArray [] 0 0) (Some (replicate 40 65)) = Done (mkArray [] 0 0, false).
Proof.
  apply array_load_drops_last_line; [done | | reflexivity].
  apply (bool_decide_unpack _). vm_compute. exact I.
Defined.
