(* ===== verification/Digest.v ===== *)
(** What the two digests of 64 octet blocks share: words of 32 bits, their
    order of octets in memory, and absorbing a message block by block. *)

From S2P Require Import Prelude CLib.

(** * Words *)

(** [((v) << (n)) | ((v) >> (32 - (n)))] on [uint32_t] *)
Definition rol (v n : Z) : Z := Z.lor (u32 (Z.shiftl v n)) (Z.shiftr v (32 - n)).

(** A [uint32_t] in the memory of the host, and its octets. *)
Definition load32 (big : bool) (bs : list Z) : Z := if big then be_value bs else le_value bs.
Definition store32 (big : bool) (w : Z) : list Z := if big then rev (le_bytes 4 w) else le_bytes 4 w.

(** The words of a piece of memory. *)
Fixpoint load_words (big : bool) (n : nat) (bs : list Z) : list Z :=
  match n with
  | O => []
  | S n => load32 big (take 4 bs) :: load_words big n (drop 4 bs)
  end.

Lemma length_load_words big n : forall bs, length (load_words big n bs) = n.
Proof. induction n; intros bs; cbn; auto. Qed.

(** * Identities of bits *)

(** Equality of two combinations of bits, position by position. *)
Ltac by_bits :=
  apply Z.bits_inj'; intros ? ?; repeat rewrite ?Z.lxor_spec, ?Z.land_spec, ?Z.lor_spec, ?Z.lnot_spec by lia;
  repeat match goal with |- context [Z.testbit ?x ?n] => destruct (Z.testbit x n) end; reflexivity.

Lemma byte_bits b n : byte b -> 8 <= n -> Z.testbit b n = false.
Proof. intros Hb Hn. unfold byte in Hb. destruct (Z.eq_dec b 0) as [->|]; [apply Z.bits_0|]. apply Z.bits_above_log2; [lia|]. assert (Z.log2 b < 8) by (apply Z.log2_lt_pow2; lia). lia. Qed.

(** A word as octets at the positions of its bits. *)
Lemma lor_add a b k : 0 <= k -> 0 <= a < 2 ^ k -> Z.lor a (Z.shiftl b k) = a + 2 ^ k * b.
Proof.
  intros Hk Ha. rewrite Z.shiftl_mul_pow2, (Z.mul_comm b) by lia. symmetry. rewrite Z.add_comm, (Z.lor_comm a).
  assert (E : Z.land (2 ^ k * b) a = 0).
  { apply Z.bits_inj'. intros n Hn. rewrite Z.land_spec, Z.bits_0. destruct (Z.ltb_spec n k).
    - by rewrite Z.mul_comm, Z.mul_pow2_bits_low.
    - rewrite andb_false_iff. right. destruct (Z.eq_dec a 0) as [->|]; [apply Z.bits_0|]. apply Z.bits_above_log2; [lia|].
      assert (Z.log2 a < k) by (apply Z.log2_lt_pow2; lia). lia. }
  rewrite <- Z.lxor_lor by done. by apply Z.add_nocarry_lxor.
Qed.

Definition octets (a b c d : Z) : Z := Z.lor a (Z.shiftl (Z.lor b (Z.shiftl (Z.lor c (Z.shiftl d 8)) 8)) 8).

Lemma le_value_octets a b c d : byte a -> byte b -> byte c -> byte d -> le_value [a; b; c; d] = octets a b c d.
Proof. intros. unfold octets, byte in *. rewrite !lor_add by lia. cbn [le_value]. lia. Qed.

Lemma be_value_octets a b c d : byte a -> byte b -> byte c -> byte d -> be_value [a; b; c; d] = octets d c b a.
Proof. intros. rewrite <- le_value_octets by done. unfold be_value. cbn. lia. Qed.

Lemma octets_spec a b c d n : byte a -> byte b -> byte c -> byte d -> 0 <= n ->
  Z.testbit (octets a b c d) n =
    if n <? 8 then Z.testbit a n else if n <? 16 then Z.testbit b (n - 8) else if n <? 24 then Z.testbit c (n - 16)
    else Z.testbit d (n - 24).
Proof.
  intros Ha Hb Hc Hd Hn. unfold octets. rewrite Z.lor_spec, Z.shiftl_spec by done.
  destruct (Z.ltb_spec n 8); [rewrite (Z.testbit_neg_r _ (n - 8)) by lia; apply orb_false_r|].
  rewrite (byte_bits a) by done. cbn [orb]. rewrite Z.lor_spec, Z.shiftl_spec by lia.
  destruct (Z.ltb_spec n 16); [rewrite (Z.testbit_neg_r _ (n - 8 - 8)) by lia; apply orb_false_r|].
  rewrite (byte_bits b) by (done || lia). cbn [orb]. rewrite Z.lor_spec, Z.shiftl_spec by lia.
  destruct (Z.ltb_spec n 24); [rewrite (Z.testbit_neg_r _ (n - 8 - 8 - 8)) by lia; rewrite orb_false_r; f_equal; lia|].
  rewrite (byte_bits c) by (done || lia). cbn [orb]. f_equal; lia.
Qed.

Lemma range_cases (P : Z -> Prop) n : 0 <= n < 32 ->
  Forall P (map Z.of_nat (seq 0 32)) -> P n.
Proof.
  intros Hn H. rewrite Forall_forall in H. apply H, list_elem_of_fmap. exists (Z.to_nat n). split; [lia|].
  apply elem_of_seq. lia.
Qed.

Lemma u32_bits x n : 0 <= n -> Z.testbit (u32 x) n = (n <? 32) && Z.testbit x n.
Proof.
  intros Hn. unfold u32. destruct (Z.ltb_spec n 32); [by rewrite Z.mod_pow2_bits_low | by rewrite Z.mod_pow2_bits_high by lia].
Qed.

Lemma rol_bits v k n : 0 <= k <= 32 -> 0 <= n -> Z.testbit (rol v k) n = (n <? 32) && Z.testbit v (n - k) || Z.testbit v (n + (32 - k)).
Proof. intros Hk Hn. unfold rol. by rewrite Z.lor_spec, u32_bits, Z.shiftl_spec, Z.shiftr_spec by lia. Qed.

Lemma word_bits a b c d n : byte a -> byte b -> byte c -> byte d -> 32 <= n -> Z.testbit (octets a b c d) n = false.
Proof.
  intros. rewrite octets_spec by (done || lia). destruct (Z.ltb_spec n 8), (Z.ltb_spec n 16), (Z.ltb_spec n 24); try lia.
  apply byte_bits; [done | lia].
Qed.

(** Two words whose 32 bits agree. *)
Lemma word_eq x y : (forall n, 32 <= n -> Z.testbit x n = false) -> (forall n, 32 <= n -> Z.testbit y n = false) ->
  Forall (fun n => Z.testbit x n = Z.testbit y n) (map Z.of_nat (seq 0 32)) -> x = y.
Proof.
  intros Hx Hy H. apply Z.bits_inj'. intros n Hn. destruct (Z.ltb_spec n 32); [|by rewrite Hx, Hy].
  exact (range_cases (fun n => Z.testbit x n = Z.testbit y n) n ltac:(lia) H).
Qed.

Lemma mask_bits m n : 0 <= m < 2 ^ 32 -> 32 <= n -> Z.testbit m n = false.
Proof.
  intros Hm Hn. destruct (Z.eq_dec m 0) as [->|]; [apply Z.bits_0|]. apply Z.bits_above_log2; [lia|].
  assert (Z.log2 m < 32) by (apply Z.log2_lt_pow2; lia). lia.
Qed.

(** The bits of rotated and masked octets at given positions. *)
Ltac octet_bit :=
  match goal with
  | |- context [Z.testbit (octets ?a ?b ?c ?d) ?k] =>
      let v := eval vm_compute in k in change k with v;
      first [rewrite (Z.testbit_neg_r (octets a b c d) v) by lia
            | rewrite (word_bits a b c d v) by (assumption || lia)
            | rewrite (octets_spec a b c d v) by (assumption || lia);
              repeat match goal with |- context [?x <? ?y] => let r := eval vm_compute in (x <? y) in change (x <? y) with r end; cbv iota]
  | |- context [Z.testbit (Zpos ?p) ?k] => let v := eval vm_compute in (Z.testbit (Zpos p) k) in change (Z.testbit (Zpos p) k) with v
  | |- context [?x <? ?y] => let r := eval vm_compute in (x <? y) in change (x <? y) with r
  end.

Ltac octet_bits :=
  let l := eval vm_compute in (map Z.of_nat (seq 0 32)) in change (map Z.of_nat (seq 0 32)) with l;
  repeat (apply Forall_cons; split); [..|by constructor];
  rewrite ?Z.lor_spec, ?Z.land_spec, ?rol_bits, ?u32_bits by lia;
  repeat (rewrite ?Z.shiftl_spec, ?Z.shiftr_spec, ?Z.land_spec by lia);
  repeat octet_bit;
  rewrite ?andb_true_r, ?andb_false_r, ?andb_true_l, ?andb_false_l, ?orb_false_r, ?orb_false_l; reflexivity.

(** The octets of a little endian word the other way round, as sha1.c does it. *)
Lemma swap_rol a b c d : byte a -> byte b -> byte c -> byte d ->
  Z.lor (Z.land (rol (octets a b c d) 24) 0xFF00FF00) (Z.land (rol (octets a b c d) 8) 0x00FF00FF) = octets d c b a.
Proof.
  intros Ha Hb Hc Hd. apply word_eq.
  - intros n Hn. rewrite Z.lor_spec, !Z.land_spec, (mask_bits 0xFF00FF00 n), (mask_bits 0x00FF00FF n) by lia. by rewrite !andb_false_r.
  - intros n Hn. by apply word_bits.
  - octet_bits.
Qed.

(** [SWAP] of md5.c on a big endian host. *)
Definition swap_word (n : Z) : Z :=
  Z.lor (Z.lor (Z.lor (u32 (Z.shiftl n 24)) (u32 (Z.shiftl (Z.land n 0xff00) 8))) (Z.land (Z.shiftr n 8) 0xff00)) (Z.shiftr n 24).

Lemma swap_word_octets a b c d : byte a -> byte b -> byte c -> byte d -> swap_word (octets a b c d) = octets d c b a.
Proof.
  intros Ha Hb Hc Hd. unfold swap_word. apply word_eq.
  - intros n Hn. rewrite !Z.lor_spec, !u32_bits, Z.land_spec, (mask_bits 0xff00 n), !Z.shiftr_spec by lia.
    rewrite (word_bits a b c d (n + 24)) by (done || lia). destruct (Z.ltb_spec n 32); [lia|]. by rewrite andb_false_r.
  - intros n Hn. by apply word_bits.
  - octet_bits.
Qed.

(** * Absorbing a message *)

Lemma foldl_cons {A B} (f : A -> B -> A) a x l : foldl f a (x :: l) = foldl f (f a x) l.
Proof. done. Qed.

Section Absorb.
Context {H : Type} (compress : H -> list Z -> H).

(** The first [n] blocks of 64 octets. *)
Fixpoint absorb_n (n : nat) (h : H) (m : list Z) : H :=
  match n with
  | O => h
  | S n => absorb_n n (compress h (take 64 m)) (drop 64 m)
  end.

(** The complete blocks of a message. *)
Definition absorb (h : H) (m : list Z) : H := absorb_n (length m / 64) h m.

Lemma absorb_n_app n : forall h m1 m2, length m1 = (64 * n)%nat -> absorb_n n h (m1 ++ m2) = absorb_n n h m1.
Proof.
  induction n as [|n IH]; intros h m1 m2 Hl; [done|]. cbn [absorb_n].
  rewrite take_app_le, drop_app_le by lia. apply IH. rewrite length_drop. lia.
Qed.

Lemma absorb_n_add a b : forall h m, absorb_n (a + b) h m = absorb_n b (absorb_n a h m) (drop (64 * a) m).
Proof.
  induction a as [|a IH]; intros h m; [by rewrite drop_0|]. cbn [Nat.add absorb_n]. rewrite IH, drop_drop. do 2 f_equal. lia.
Qed.

(** Blocks and what follows them. *)
Lemma absorb_app n h m1 m2 : length m1 = (64 * n)%nat -> absorb h (m1 ++ m2) = absorb (absorb h m1) m2.
Proof.
  intros Hl. unfold absorb. rewrite length_app, Hl.
  replace ((64 * n + length m2) / 64)%nat with (n + length m2 / 64)%nat by (rewrite (Nat.mul_comm 64), Nat.div_add_l; lia).
  replace (64 * n / 64)%nat with n by (rewrite Nat.mul_comm, Nat.div_mul; lia).
  rewrite absorb_n_add, absorb_n_app by done. by rewrite <- Hl, drop_app_length.
Qed.

Lemma absorb_short h m : (length m < 64)%nat -> absorb h m = h.
Proof. intros Hl. unfold absorb. by rewrite Nat.div_small. Qed.

Lemma absorb_block h m : length m = 64%nat -> absorb h m = compress h m.
Proof. intros Hl. unfold absorb. rewrite Hl. cbn [Nat.div Nat.divmod absorb_n fst]. by rewrite take_ge by lia. Qed.
End Absorb.

(** The octets that have not filled a block. *)
Definition pending (m : list Z) : list Z := drop (64 * (length m / 64)) m.

Lemma pending_length m : length (pending m) = (length m mod 64)%nat.
Proof. unfold pending. rewrite length_drop, Nat.Div0.mod_eq. lia. Qed.

Lemma pending_split m : exists full, m = full ++ pending m /\ length full = (64 * (length m / 64))%nat.
Proof.
  exists (take (64 * (length m / 64)) m). split; [by unfold pending; rewrite take_drop|]. rewrite length_take.
  pose proof (Nat.Div0.mul_div_le (length m) 64). lia.
Qed.

(** [0x80] and zeros up to 8 octets before the end of a block. *)
Definition padding (n : nat) : list Z := 128 :: replicate (Z.to_nat ((55 - Z.of_nat n) mod 64)) 0.

Lemma padding_length n : exists k, (n + length (padding n) + 8 = 64 * k)%nat.
Proof.
  unfold padding. cbn [length]. rewrite length_replicate.
  exists (Z.to_nat ((Z.of_nat n + 1 + (55 - Z.of_nat n) mod 64 + 8) / 64)). Z.div_mod_to_equations; lia.
Qed.

(** * Cells *)

(** Octets of a buffer that have been written; the others have no value yet. *)
Abbreviation cell := (option Z).

Fixpoint read_cells_n (n : nat) (m : list cell) : outcome (list Z) :=
  match n, m with
  | O, _ => Done []
  | S _, [] => Fault OutOfBounds
  | S _, None :: _ => Fault Uninitialised
  | S n, Some b :: m => bs ← read_cells_n n m; Done (b :: bs)
  end.

(** [memcpy(&buffer[o], bs, ...)] *)
Definition store_cells (m : list cell) (o : Z) (bs : list Z) : outcome (list cell) :=
  if (0 <=? o) && (o + zlen bs <=? zlen m) then
    Done (take (Z.to_nat o) m ++ map Some bs ++ drop (Z.to_nat (o + zlen bs)) m)
  else Fault OutOfBounds.

Lemma read_cells_n_written bs rest : read_cells_n (length bs) (map Some bs ++ rest) = Done bs.
Proof. induction bs as [|b bs IH]; cbn; [done|]. by rewrite IH. Qed.

Lemma store_cells_next a bs rest : (length bs <= length rest)%nat ->
  store_cells (map Some a ++ rest) (zlen a) bs = Done (map Some (a ++ bs) ++ drop (length bs) rest).
Proof.
  intros Hl. unfold store_cells. rewrite zlen_app. pose proof (zlen_nonneg a).
  assert (E : zlen (map Some a) = zlen a) by (unfold zlen; by rewrite length_map). rewrite E.
  destruct (Z.leb_spec 0 (zlen a)), (Z.leb_spec (zlen a + zlen bs) (zlen a + zlen rest)); try (unfold zlen in *; lia). cbn [andb].
  rewrite map_app, <- app_assoc, take_app_length', drop_app_ge; unfold zlen; rewrite ?length_map; try lia.
  do 4 f_equal. lia.
Qed.

(** Blocks followed by less than one. *)
Lemma pending_app k a b : length a = (64 * k)%nat -> (length b < 64)%nat -> pending (a ++ b) = b.
Proof.
  intros Ha Hb. unfold pending. rewrite length_app, Ha.
  replace ((64 * k + length b) / 64)%nat with k by (rewrite (Nat.mul_comm 64), Nat.div_add_l, Nat.div_small; lia).
  by rewrite <- Ha, drop_app_length.
Qed.

Lemma absorb_pending {H} (compress : H -> list Z -> H) h k a b : length a = (64 * k)%nat -> (length b < 64)%nat ->
  absorb compress h (a ++ b) = absorb compress h a.
Proof. intros Ha Hb. by rewrite (absorb_app compress k), absorb_short. Qed.
