(* ===== verification/Sha1.v ===== *)
(** SHA-1 (sha1.c): the transformation of a block, and a context that is updated
    with pieces of a message.

    [big] is WORDS_BIGENDIAN.  The working variables and the 16 words of the
    block are updated in place, by the unrolled list of operations of the
    source. *)

From Stdlib Require Import String.
From S2P Require Import Prelude CLib Streams Digest.

Section Sha1.
Context (big : bool).

(** * The transformation *)

Inductive reg : Type := A_ | B_ | C_ | D_ | E_.

Record regs : Type := mkRegs { reg_a : Z; reg_b : Z; reg_c : Z; reg_d : Z; reg_e : Z }.

Definition get_reg (r : regs) (x : reg) : Z :=
  match x with A_ => reg_a r | B_ => reg_b r | C_ => reg_c r | D_ => reg_d r | E_ => reg_e r end.

Definition set_reg (r : regs) (x : reg) (v : Z) : regs :=
  match x with
  | A_ => mkRegs v (reg_b r) (reg_c r) (reg_d r) (reg_e r)
  | B_ => mkRegs (reg_a r) v (reg_c r) (reg_d r) (reg_e r)
  | C_ => mkRegs (reg_a r) (reg_b r) v (reg_d r) (reg_e r)
  | D_ => mkRegs (reg_a r) (reg_b r) (reg_c r) v (reg_e r)
  | E_ => mkRegs (reg_a r) (reg_b r) (reg_c r) (reg_d r) v
  end.

Definition word_at (block : list Z) (i : Z) : Z := nth (Z.to_nat i) block 0.

(** [blk0] and [blk]: the word and the block with the word in it. *)
Definition blk0 (block : list Z) (i : Z) : Z * list Z :=
  if big then (word_at block i, block)
  else
    let l := word_at block i in
    let w := Z.lor (Z.land (rol l 24) 0xFF00FF00) (Z.land (rol l 8) 0x00FF00FF) in
    (w, <[Z.to_nat i := w]> block).

Definition blk (block : list Z) (i : Z) : Z * list Z :=
  let l j := word_at block (Z.land j 15) in
  let w := rol (Z.lxor (Z.lxor (Z.lxor (l (i + 13)) (l (i + 8))) (l (i + 2))) (l i)) 1 in
  (w, <[Z.to_nat (Z.land i 15) := w]> block).

Inductive op : Type :=
  | R0 (v w x y z : reg) (i : Z)
  | R1 (v w x y z : reg) (i : Z)
  | R2 (v w x y z : reg) (i : Z)
  | R3 (v w x y z : reg) (i : Z)
  | R4 (v w x y z : reg) (i : Z).

(** [z += f + word + k + rol(v, 5); w = rol(w, 30);] *)
Definition apply_round (st : regs * list Z) (f k : Z) (word : Z * list Z) (v w z : reg) : regs * list Z :=
  let r := st.1 in
  let r := set_reg r z (u32 (get_reg r z + (f + word.1 + k + rol (get_reg r v) 5))) in
  (set_reg r w (rol (get_reg r w) 30), word.2).

Definition run_op (st : regs * list Z) (o : op) : regs * list Z :=
  let g := get_reg st.1 in
  let choose w x y := Z.lxor (Z.land (g w) (Z.lxor (g x) (g y))) (g y) in
  let parity w x y := Z.lxor (Z.lxor (g w) (g x)) (g y) in
  let majority w x y := Z.lor (Z.land (Z.lor (g w) (g x)) (g y)) (Z.land (g w) (g x)) in
  match o with
  | R0 v w x y z i => apply_round st (choose w x y) 0x5A827999 (blk0 st.2 i) v w z
  | R1 v w x y z i => apply_round st (choose w x y) 0x5A827999 (blk st.2 i) v w z
  | R2 v w x y z i => apply_round st (parity w x y) 0x6ED9EBA1 (blk st.2 i) v w z
  | R3 v w x y z i => apply_round st (majority w x y) 0x8F1BBCDC (blk st.2 i) v w z
  | R4 v w x y z i => apply_round st (parity w x y) 0xCA62C1D6 (blk st.2 i) v w z
  end.

Definition ops : list op :=
  [ R0 A_ B_ C_ D_ E_ 0; R0 E_ A_ B_ C_ D_ 1; R0 D_ E_ A_ B_ C_ 2; R0 C_ D_ E_ A_ B_ 3;
    R0 B_ C_ D_ E_ A_ 4; R0 A_ B_ C_ D_ E_ 5; R0 E_ A_ B_ C_ D_ 6; R0 D_ E_ A_ B_ C_ 7;
    R0 C_ D_ E_ A_ B_ 8; R0 B_ C_ D_ E_ A_ 9; R0 A_ B_ C_ D_ E_ 10; R0 E_ A_ B_ C_ D_ 11;
    R0 D_ E_ A_ B_ C_ 12; R0 C_ D_ E_ A_ B_ 13; R0 B_ C_ D_ E_ A_ 14; R0 A_ B_ C_ D_ E_ 15;
    R1 E_ A_ B_ C_ D_ 16; R1 D_ E_ A_ B_ C_ 17; R1 C_ D_ E_ A_ B_ 18; R1 B_ C_ D_ E_ A_ 19;
    R2 A_ B_ C_ D_ E_ 20; R2 E_ A_ B_ C_ D_ 21; R2 D_ E_ A_ B_ C_ 22; R2 C_ D_ E_ A_ B_ 23;
    R2 B_ C_ D_ E_ A_ 24; R2 A_ B_ C_ D_ E_ 25; R2 E_ A_ B_ C_ D_ 26; R2 D_ E_ A_ B_ C_ 27;
    R2 C_ D_ E_ A_ B_ 28; R2 B_ C_ D_ E_ A_ 29; R2 A_ B_ C_ D_ E_ 30; R2 E_ A_ B_ C_ D_ 31;
    R2 D_ E_ A_ B_ C_ 32; R2 C_ D_ E_ A_ B_ 33; R2 B_ C_ D_ E_ A_ 34; R2 A_ B_ C_ D_ E_ 35;
    R2 E_ A_ B_ C_ D_ 36; R2 D_ E_ A_ B_ C_ 37; R2 C_ D_ E_ A_ B_ 38; R2 B_ C_ D_ E_ A_ 39;
    R3 A_ B_ C_ D_ E_ 40; R3 E_ A_ B_ C_ D_ 41; R3 D_ E_ A_ B_ C_ 42; R3 C_ D_ E_ A_ B_ 43;
    R3 B_ C_ D_ E_ A_ 44; R3 A_ B_ C_ D_ E_ 45; R3 E_ A_ B_ C_ D_ 46; R3 D_ E_ A_ B_ C_ 47;
    R3 C_ D_ E_ A_ B_ 48; R3 B_ C_ D_ E_ A_ 49; R3 A_ B_ C_ D_ E_ 50; R3 E_ A_ B_ C_ D_ 51;
    R3 D_ E_ A_ B_ C_ 52; R3 C_ D_ E_ A_ B_ 53; R3 B_ C_ D_ E_ A_ 54; R3 A_ B_ C_ D_ E_ 55;
    R3 E_ A_ B_ C_ D_ 56; R3 D_ E_ A_ B_ C_ 57; R3 C_ D_ E_ A_ B_ 58; R3 B_ C_ D_ E_ A_ 59;
    R4 A_ B_ C_ D_ E_ 60; R4 E_ A_ B_ C_ D_ 61; R4 D_ E_ A_ B_ C_ 62; R4 C_ D_ E_ A_ B_ 63;
    R4 B_ C_ D_ E_ A_ 64; R4 A_ B_ C_ D_ E_ 65; R4 E_ A_ B_ C_ D_ 66; R4 D_ E_ A_ B_ C_ 67;
    R4 C_ D_ E_ A_ B_ 68; R4 B_ C_ D_ E_ A_ 69; R4 A_ B_ C_ D_ E_ 70; R4 E_ A_ B_ C_ D_ 71;
    R4 D_ E_ A_ B_ C_ 72; R4 C_ D_ E_ A_ B_ 73; R4 B_ C_ D_ E_ A_ 74; R4 A_ B_ C_ D_ E_ 75;
    R4 E_ A_ B_ C_ D_ 76; R4 D_ E_ A_ B_ C_ 77; R4 C_ D_ E_ A_ B_ 78; R4 B_ C_ D_ E_ A_ 79 ].

Definition SHA1Transform (state : regs) (buffer : list Z) : regs :=
  let block := load_words big 16 buffer in
  let w := (foldl run_op (state, block) ops).1 in
  mkRegs (u32 (reg_a state + reg_a w)) (u32 (reg_b state + reg_b w)) (u32 (reg_c state + reg_c w)) (u32 (reg_d state + reg_d w)) (u32 (reg_e state + reg_e w)).

(** * The context *)

Record sha1_ctx : Type := mkSha1 { s1_state : regs; s1_count0 : Z; s1_count1 : Z; s1_buffer : list cell }.

(** The contents of [ctx] before are given. *)
Definition sha1_init (ctx : sha1_ctx) : sha1_ctx :=
  mkSha1 (mkRegs 0x67452301 0xEFCDAB89 0x98BADCFE 0x10325476 0xC3D2E1F0) 0 0 (s1_buffer ctx).

(** [for ( ; i + 63 < length; i += 64)] *)
Fixpoint blocks_loop (fuel : nat) (state : regs) (data : list Z) (i length : Z) : outcome (regs * Z) :=
  if u32 (i + 63) <? length then
    match fuel with
    | O => Fault OutOfFuel
    | S fuel =>
        b ← memcpy_from data i 64;
        blocks_loop fuel (SHA1Transform state b) data (u32 (i + 64)) length
    end
  else Done (state, i).

Definition sha1_update (ctx : sha1_ctx) (length : Z) (data : list Z) : outcome sha1_ctx :=
  let j := s1_count0 ctx in
  let count0 := u32 (j + u32 (Z.shiftl length 3)) in
  let count1 := if count0 <? j then u32 (s1_count1 ctx + 1) else s1_count1 ctx in
  let count1 := u32 (count1 + Z.shiftr length 29) in
  let j := Z.land (Z.shiftr j 3) 63 in
  '(state, buffer, i, j) ←
    (if 63 <? u32 (j + length) then
       let i := 64 - j in
       first ← memcpy_from data 0 i;
       buffer ← store_cells (s1_buffer ctx) j first;
       block ← read_cells_n 64 buffer;
       '(state, i) ← blocks_loop (Z.to_nat length) (SHA1Transform (s1_state ctx) block) data i length;
       Done (state, buffer, i, 0)
     else Done (s1_state ctx, s1_buffer ctx, 0, j));
  rest ← memcpy_from data i (u32 (length - i));
  buffer ← store_cells buffer j rest;
  Done (mkSha1 state count0 count1 buffer).

(** [while ((ctx->count[0] & 504) != 448)] *)
Fixpoint pad_loop (fuel : nat) (ctx : sha1_ctx) : outcome sha1_ctx :=
  if Z.land (s1_count0 ctx) 504 =? 448 then Done ctx
  else match fuel with
       | O => Fault OutOfFuel
       | S fuel => ctx ← sha1_update ctx 1 [0]; pad_loop fuel ctx
       end.

(** [finalcount[i]] *)
Definition count_octet (ctx : sha1_ctx) (i : Z) : Z :=
  Z.land (Z.shiftr (if 4 <=? i then s1_count0 ctx else s1_count1 ctx) ((3 - Z.land i 3) * 8)) 255.

Definition state_word (r : regs) (i : Z) : Z := nth (Z.to_nat i) [reg_a r; reg_b r; reg_c r; reg_d r; reg_e r] 0.

(** [digest[i]] *)
Definition digest_octet (r : regs) (i : Z) : Z :=
  Z.land (Z.shiftr (state_word r (Z.shiftr i 2)) ((3 - Z.land i 3) * 8)) 255.

Definition upto (n : nat) : list Z := map Z.of_nat (seq 0 n).

(** The 20 octets written to [digest]; [length] is not used. *)
Definition sha1_digest (ctx : sha1_ctx) : outcome (sha1_ctx * list Z) :=
  let finalcount := map (count_octet ctx) (upto 8) in
  ctx ← sha1_update ctx 1 [128];
  ctx ← pad_loop 64 ctx;
  ctx ← sha1_update ctx 8 finalcount;
  Done (ctx, map (digest_octet (s1_state ctx)) (upto 20)).

(** A context as it is allocated. *)
Definition fresh_sha1 : sha1_ctx := mkSha1 (mkRegs 0 0 0 0 0) 0 0 (replicate 64 None).

(** One update after the other, and the digest. *)
Fixpoint sha1_updates (ctx : sha1_ctx) (pieces : list (list Z)) : outcome sha1_ctx :=
  match pieces with
  | [] => Done ctx
  | p :: pieces => ctx ← sha1_update ctx (zlen p) p; sha1_updates ctx pieces
  end.

Definition sha1_of (pieces : list (list Z)) : outcome (list Z) :=
  ctx ← sha1_updates (sha1_init fresh_sha1) pieces; '(_, d) ← sha1_digest ctx; Done d.
End Sha1.
