(* ===== verification/Sha1Facts.v ===== *)
(** sha1.c computes SHA-1 as FIPS 180 defines it, for a message that comes in any
    number of pieces. *)

From Stdlib Require Import String.
From S2P Require Import Prelude CLib Streams Digest KeyId Sha1.

(** * The definition of FIPS 180 *)

Definition fips_f (t : nat) (x y z : Z) : Z :=
  if (t <? 20)%nat then Z.lxor (Z.land x y) (Z.land (Z.lnot x) z)
  else if (t <? 40)%nat then Z.lxor x (Z.lxor y z)
  else if (t <? 60)%nat then Z.lxor (Z.land x y) (Z.lxor (Z.land x z) (Z.land y z))
  else Z.lxor x (Z.lxor y z).

Definition fips_k (t : nat) : Z :=
  if (t <? 20)%nat then 0x5A827999 else if (t <? 40)%nat then 0x6ED9EBA1 else if (t <? 60)%nat then 0x8F1BBCDC else 0xCA62C1D6.

(** [n] more words of the message schedule. *)
Fixpoint expand (n : nat) (ws : list Z) : list Z :=
  match n with
  | O => ws
  | S n =>
      let w k := nth (length ws - k) ws 0 in
      expand n (ws ++ [rol (Z.lxor (w 3%nat) (Z.lxor (w 8%nat) (Z.lxor (w 14%nat) (w 16%nat)))) 1])
  end.

Definition schedule (block : list Z) : list Z := expand 64 (load_words true 16 block).

Definition fips_step (s : regs) (tw : nat * Z) : regs :=
  let T := u32 (rol (reg_a s) 5 + fips_f tw.1 (reg_b s) (reg_c s) (reg_d s) + reg_e s + fips_k tw.1 + tw.2) in
  mkRegs T (reg_a s) (rol (reg_b s) 30) (reg_c s) (reg_d s).

Definition add_regs (s r : regs) : regs :=
  mkRegs (u32 (reg_a s + reg_a r)) (u32 (reg_b s + reg_b r)) (u32 (reg_c s + reg_c r)) (u32 (reg_d s + reg_d r)) (u32 (reg_e s + reg_e r)).

Definition fips_compress (h : regs) (block : list Z) : regs :=
  add_regs h (foldl fips_step h (zip (seq 0 80) (schedule block))).

Definition fips_init : regs := mkRegs 0x67452301 0xEFCDAB89 0x98BADCFE 0x10325476 0xC3D2E1F0.

(** The digest of a message of less than 2{^64} bits. *)
Definition be32 (w : Z) : list Z := [w / 2 ^ 24 mod 256; w / 2 ^ 16 mod 256; w / 2 ^ 8 mod 256; w mod 256].

Definition sha1 (m : list Z) : list Z :=
  let bits := 8 * zlen m in
  let r := absorb fips_compress fips_init (m ++ padding (length m) ++ be32 (bits / 2 ^ 32) ++ be32 bits) in
  be32 (reg_a r) ++ be32 (reg_b r) ++ be32 (reg_c r) ++ be32 (reg_d r) ++ be32 (reg_e r).

(** * The schedule in 16 words *)

Definition W (block : list Z) (t : nat) : Z := nth t (schedule block) 0.

Lemma expand_prefix n : forall ws, exists more, expand n ws = ws ++ more /\ length more = n.
Proof.
  induction n as [|n IH]; intros ws; [exists []; by rewrite app_nil_r|]. cbn [expand].
  match goal with |- context [expand n (ws ++ [?x])] => destruct (IH (ws ++ [x])) as (more & -> & Hl); exists (x :: more) end.
  rewrite <- app_assoc. split; [done|]. cbn. lia.
Qed.

Lemma schedule_length block : length (schedule block) = 80%nat.
Proof.
  unfold schedule. destruct (expand_prefix 64 (load_words true 16 block)) as (more & -> & Hl).
  by rewrite length_app, length_load_words, Hl.
Qed.

Lemma expand_nth n : forall ws t, (length ws <= t < length ws + n)%nat ->
  let w k := nth (t - k) (expand n ws) 0 in (16 <= length ws)%nat ->
  nth t (expand n ws) 0 = rol (Z.lxor (w 3%nat) (Z.lxor (w 8%nat) (Z.lxor (w 14%nat) (w 16%nat)))) 1.
Proof.
  induction n as [|n IH]; intros ws t Ht w H16; [lia|]. subst w. cbn [expand].
  set (x := rol _ 1). destruct (decide (t = length ws)) as [->|Hne].
  - destruct (expand_prefix n (ws ++ [x])) as (more & -> & _).
    assert (E : forall k, (1 <= k <= 16)%nat -> nth (length ws - k) ((ws ++ [x]) ++ more) 0 = nth (length ws - k) ws 0)
      by (intros k Hk; rewrite <- app_assoc, app_nth1; [done | lia]).
    cbv beta. rewrite !E by lia. rewrite <- app_assoc, app_nth2, Nat.sub_diag by lia. done.
  - apply IH; rewrite length_app; cbn; lia.
Qed.

Lemma W_late block t : (16 <= t < 80)%nat ->
  W block t = rol (Z.lxor (W block (t - 3)) (Z.lxor (W block (t - 8)) (Z.lxor (W block (t - 14)) (W block (t - 16))))) 1.
Proof. intros Ht. unfold W, schedule. apply expand_nth; rewrite length_load_words; lia. Qed.

Lemma W_early block t : (t < 16)%nat -> W block t = nth t (load_words true 16 block) 0.
Proof.
  intros Ht. unfold W, schedule. destruct (expand_prefix 64 (load_words true 16 block)) as (more & -> & _).
  apply app_nth1. rewrite length_load_words. lia.
Qed.

Lemma load_words_nth big n : forall bs t, (t < n)%nat -> nth t (load_words big n bs) 0 = load32 big (take 4 (drop (4 * t) bs)).
Proof.
  induction n as [|n IH]; intros bs t Ht; [lia|]. destruct t as [|t]; cbn [load_words nth]; [by rewrite drop_0|].
  rewrite IH, drop_drop by lia. do 3 f_equal. lia.
Qed.

(** The first 16 words, as [blk0] makes them of the words in memory. *)
Lemma blk0_word (big : bool) block t : Forall byte block -> length block = 64%nat -> (t < 16)%nat ->
  (if big then nth t (load_words big 16 block) 0
   else let l := nth t (load_words big 16 block) 0 in
        Z.lor (Z.land (rol l 24) 0xFF00FF00) (Z.land (rol l 8) 0x00FF00FF)) = W block t.
Proof.
  intros Hb Hl Ht. rewrite W_early, !load_words_nth by done. destruct big; [done|]. cbv zeta.
  assert (Hf : Forall byte (take 4 (drop (4 * t) block))) by by apply Forall_take, Forall_drop.
  assert (H4 : length (take 4 (drop (4 * t) block)) = 4%nat) by (rewrite length_take, length_drop; lia).
  destruct (take 4 (drop (4 * t) block)) as [|a [|b [|c [|d [|]]]]]; try done.
  repeat (apply Forall_cons in Hf as [? Hf]). cbn [load32].
  by rewrite le_value_octets, be_value_octets, swap_rol.
Qed.

(** * The rounds *)

Section Rounds.
Context (big : bool) (block : list Z) (Hbytes : Forall byte block) (Hlen : length block = 64%nat).

(** The names the working variables of FIPS 180 have before round [t]. *)
Definition names (t : nat) : reg * reg * reg * reg * reg :=
  match (t mod 5)%nat with
  | 0%nat => (A_, B_, C_, D_, E_)
  | 1%nat => (E_, A_, B_, C_, D_)
  | 2%nat => (D_, E_, A_, B_, C_)
  | 3%nat => (C_, D_, E_, A_, B_)
  | _ => (B_, C_, D_, E_, A_)
  end.

Definition view (t : nat) (r : regs) : regs :=
  let '(v, w, x, y, z) := names t in mkRegs (get_reg r v) (get_reg r w) (get_reg r x) (get_reg r y) (get_reg r z).

(** The operation of round [t]. *)
Definition round (t : nat) : op :=
  let '(v, w, x, y, z) := names t in
  (if (t <? 16)%nat then R0 else if (t <? 20)%nat then R1 else if (t <? 40)%nat then R2 else if (t <? 60)%nat then R3 else R4)
    v w x y z (Z.of_nat t).

Lemma ops_rounds : ops = map round (seq 0 80).
Proof. vm_compute. reflexivity. Qed.

Lemma apply_round_view t r b f k word : let '(v, w, x, y, z) := names t in
  let r' := (apply_round (r, b) f k word v w z).1 in
  view (S t) r' = mkRegs (u32 (get_reg r z + (f + word.1 + k + rol (get_reg r v) 5))) (get_reg r v) (rol (get_reg r w) 30) (get_reg r x) (get_reg r y).
Proof.
  unfold view, names. assert (H : (t mod 5 = 0 \/ t mod 5 = 1 \/ t mod 5 = 2 \/ t mod 5 = 3 \/ t mod 5 = 4)%nat)
    by (pose proof (Nat.mod_upper_bound t 5); lia).
  assert (HS : (S t mod 5 = if decide (t mod 5 = 4) then 0 else S (t mod 5))%nat).
  { replace (S t) with (t + 1)%nat by lia. rewrite Nat.Div0.add_mod. destruct (decide (t mod 5 = 4)%nat) as [->|]; [done|].
    rewrite (Nat.mod_small (t mod 5 + 1 mod 5)); change (1 mod 5)%nat with 1%nat; lia. }
  rewrite HS. destruct H as [-> | [-> | [-> | [-> | ->]]]]; reflexivity.
Qed.

(** What the 16 words hold before round [t]. *)
Definition window (t : nat) (ws : list Z) : Prop :=
  length ws = 16%nat /\ (forall s, (s < t <= s + 16)%nat -> nth (s mod 16) ws 0 = W block s) /\
  (forall s, (t <= s < 16)%nat -> nth s ws 0 = nth s (load_words big 16 block) 0).

Lemma lookup_nth0 (ws : list Z) i : (i < length ws)%nat -> ws !! i = Some (nth i ws 0).
Proof. intros H. rewrite nth_lookup. destruct (lookup_lt_is_Some_2 ws i H) as [x ->]. done. Qed.

Lemma nth_insert_other (ws : list Z) i j x : i <> j -> nth j (<[i:=x]> ws) 0 = nth j ws 0.
Proof. intros H. rewrite !nth_lookup. by rewrite list_lookup_insert_ne. Qed.

Lemma nth_insert_here (ws : list Z) i x : (i < length ws)%nat -> nth i (<[i:=x]> ws) 0 = x.
Proof. intros H. rewrite nth_lookup, list_lookup_insert by done. by rewrite decide_True by done. Qed.

Lemma window_put t ws : window t ws -> window (S t) (<[(t mod 16)%nat := W block t]> ws).
Proof.
  intros (Hl & Hw & Hr). assert (Ht : (t mod 16 < 16)%nat) by (apply Nat.mod_upper_bound; lia). split_and!.
  - by rewrite length_insert.
  - intros s Hs. destruct (decide (s = t)) as [->|]; [apply nth_insert_here; lia|]. rewrite nth_insert_other; [apply Hw; lia|].
    intros E. pose proof (Nat.div_mod_eq t 16). pose proof (Nat.div_mod_eq s 16). lia.
  - intros s Hs. rewrite nth_insert_other; [apply Hr; lia|]. rewrite Nat.mod_small by lia. lia.
Qed.

Lemma window_blk0 t ws : window t ws -> (t < 16)%nat ->
  (blk0 big ws (Z.of_nat t)).1 = W block t /\ window (S t) (blk0 big ws (Z.of_nat t)).2.
Proof.
  intros Hw Ht. pose proof Hw as (Hl & _ & Hr). pose proof (blk0_word big block t Hbytes Hlen Ht) as E.
  rewrite <- Hr in E by lia. unfold blk0, word_at. rewrite Nat2Z.id. pose proof (window_put t ws Hw) as Hp.
  rewrite Nat.mod_small in Hp by lia. destruct big; cbv zeta in *; cbn [fst snd].
  - split; [done|]. rewrite list_insert_id in Hp; [done|]. rewrite <- E. apply lookup_nth0. lia.
  - rewrite E. split; [done|]. done.
Qed.

Lemma window_blk t ws : window t ws -> (16 <= t < 80)%nat ->
  (blk ws (Z.of_nat t)).1 = W block t /\ window (S t) (blk ws (Z.of_nat t)).2.
Proof.
  intros Hw Ht. pose proof Hw as (Hl & Hs & _).
  assert (E : forall k, (k <= 13)%nat -> word_at ws (Z.land (Z.of_nat t + Z.of_nat k) 15) = W block (t - (16 - k))).
  { intros k Hk. change 15 with (Z.ones 4). rewrite Z.land_ones by lia. change (2 ^ 4) with 16. unfold word_at.
    rewrite <- (Hs (t - (16 - k))%nat) by lia. f_equal.
    replace (Z.of_nat t + Z.of_nat k) with (Z.of_nat (t - (16 - k)) + 1 * 16) by lia.
    rewrite Z.mod_add by lia. by rewrite <- (Nat2Z.inj_mod _ 16), Nat2Z.id. }
  pose proof (E 13%nat ltac:(lia)) as E13. pose proof (E 8%nat ltac:(lia)) as E8. pose proof (E 2%nat ltac:(lia)) as E2.
  pose proof (E 0%nat ltac:(lia)) as E0. change (Z.of_nat 13) with 13 in *. change (Z.of_nat 8) with 8 in *. change (Z.of_nat 2) with 2 in *.
  change (Z.of_nat 0) with 0 in *. rewrite Z.add_0_r in E0. unfold blk. cbv zeta beta. cbn [fst snd]. rewrite E13, E8, E2, E0.
  change (16 - 13)%nat with 3%nat. change (16 - 8)%nat with 8%nat. change (16 - 2)%nat with 14%nat. change (16 - 0)%nat with 16%nat.
  assert (Ew : rol (Z.lxor (Z.lxor (Z.lxor (W block (t - 3)) (W block (t - 8))) (W block (t - 14))) (W block (t - 16))) 1 = W block t)
    by (rewrite (W_late block t), !Z.lxor_assoc; done).
  rewrite Ew. split; [done|]. replace (Z.to_nat (Z.land (Z.of_nat t) 15)) with (t mod 16)%nat; [by apply window_put|].
  change 15 with (Z.ones 4). rewrite Z.land_ones by lia. change (2 ^ 4) with (Z.of_nat 16). by rewrite <- Nat2Z.inj_mod, Nat2Z.id.
Qed.

Lemma choose_eq x y z : Z.lxor (Z.land x (Z.lxor y z)) z = Z.lxor (Z.land x y) (Z.land (Z.lnot x) z).
Proof. by_bits. Qed.

Lemma majority_eq x y z : Z.lor (Z.land (Z.lor x y) z) (Z.land x y) = Z.lxor (Z.land x y) (Z.lxor (Z.land x z) (Z.land y z)).
Proof. by_bits. Qed.

(** A round is a step of FIPS 180 under the names of the round. *)
Lemma round_step t r ws : window t ws -> (t < 80)%nat ->
  let st := run_op big (r, ws) (round t) in
  view (S t) st.1 = fips_step (view t r) (t, W block t) /\ window (S t) st.2.
Proof.
  intros Hw Ht. assert (Hword : let word := if (t <? 16)%nat then blk0 big ws (Z.of_nat t) else blk ws (Z.of_nat t) in
    word.1 = W block t /\ window (S t) word.2).
  { destruct (Nat.ltb_spec t 16); [by apply window_blk0 | apply window_blk; [done | lia]]. }
  unfold round, view at 2. unfold fips_step, fips_f, fips_k.
  pose proof (apply_round_view t r ws) as Hv. destruct (names t) as [[[[v w] x] y] z]. cbn [fst snd].
  destruct (Nat.ltb_spec t 16), (Nat.ltb_spec t 20), (Nat.ltb_spec t 40), (Nat.ltb_spec t 60); try lia;
    cbv zeta in Hword; destruct Hword as [E1 E2]; cbn [run_op fst snd];
    (split; [rewrite Hv, E1; f_equal; f_equal; cbn [reg_a reg_b reg_c reg_d reg_e]; rewrite ?choose_eq, ?majority_eq, ?Z.lxor_assoc; lia | exact E2]).
Qed.

Lemma rounds_run n : forall t r ws, window t ws -> (t + n <= 80)%nat ->
  view (t + n) (foldl (run_op big) (r, ws) (map round (seq t n))).1 = foldl fips_step (view t r) (map (fun s => (s, W block s)) (seq t n)).
Proof.
  induction n as [|n IH]; intros t r ws Hw Ht; [by rewrite Nat.add_0_r|]. rewrite <- cons_seq, !map_cons, !foldl_cons.
  destruct (round_step t r ws Hw) as [E Hw']; [lia|].
  destruct (run_op big (r, ws) (round t)) as [r' ws']. cbn [fst snd] in E, Hw'. rewrite <- E, <- (IH (S t) r' ws' Hw') by lia.
  by rewrite Nat.add_succ_comm.
Qed.

Lemma zip_words (ws : list Z) n : forall t, length ws = (t + n)%nat -> zip (seq t n) (drop t ws) = map (fun s => (s, nth s ws 0)) (seq t n).
Proof.
  induction n as [|n IH]; intros t Hl; [done|]. rewrite (drop_S ws (nth t ws 0)) by (apply lookup_nth0; lia).
  rewrite <- cons_seq, map_cons. cbn [zip_with]. f_equal. apply IH. lia.
Qed.

Lemma view_80 r : view 80 r = r.
Proof. by destruct r. Qed.

Lemma view_0 r : view 0 r = r.
Proof. by destruct r. Qed.

Lemma transform_fips state : SHA1Transform big state block = fips_compress state block.
Proof.
  unfold SHA1Transform, fips_compress, add_regs. rewrite ops_rounds.
  assert (E : (foldl (run_op big) (state, load_words big 16 block) (map round (seq 0 80))).1 = foldl fips_step state (zip (seq 0 80) (schedule block))).
  { pose proof (rounds_run 80 0 state (load_words big 16 block)) as H. change (0 + 80)%nat with 80%nat in H. rewrite view_80, view_0 in H.
    rewrite H; [|split_and!; [apply length_load_words | lia | done] | lia].
    rewrite <- (drop_0 (schedule block)), zip_words by apply schedule_length. done. }
  by rewrite E.
Qed.
End Rounds.

(** * Pieces of a message *)

Section Pieces.
Context (big : bool).

Definition digested (m : list Z) : regs := absorb fips_compress fips_init m.

(** The context after the message [m]; the count is kept modulo 2{^64}. *)
Record absorbed (ctx : sha1_ctx) (m : list Z) : Prop := {
  ab_bytes : Forall byte m;
  ab_state : s1_state ctx = digested m;
  ab_count0 : s1_count0 ctx = (8 * zlen m) mod 2 ^ 32;
  ab_count1 : s1_count1 ctx = (8 * zlen m) / 2 ^ 32 mod 2 ^ 32;
  ab_buffer : exists rest, s1_buffer ctx = map Some (pending m) ++ rest /\ (length (pending m) + length rest)%nat = 64%nat
}.

Lemma init_absorbed ctx : length (s1_buffer ctx) = 64%nat -> absorbed (sha1_init ctx) [].
Proof. intros Hl. split; [constructor | done | done | done | by exists (s1_buffer ctx)]. Qed.

Lemma count_next n d : 0 <= n -> 0 <= d < 2 ^ 32 ->
  let c0 := (8 * n) mod 2 ^ 32 in let c1 := (8 * n) / 2 ^ 32 mod 2 ^ 32 in
  let c0' := u32 (c0 + u32 (Z.shiftl d 3)) in
  c0' = (8 * (n + d)) mod 2 ^ 32 /\
  u32 ((if c0' <? c0 then u32 (c1 + 1) else c1) + Z.shiftr d 29) = (8 * (n + d)) / 2 ^ 32 mod 2 ^ 32.
Proof.
  intros Hn Hd c0 c1 c0'. assert (E0 : c0' = (8 * (n + d)) mod 2 ^ 32).
  { unfold c0', c0, u32. rewrite Z.shiftl_mul_pow2 by lia. change (2 ^ 3) with 8. rewrite <- Z.add_mod by lia. f_equal. lia. }
  split; [done|]. unfold u32. rewrite Z.shiftr_div_pow2 by lia. change (2 ^ 29) with 536870912. change (2 ^ 32) with 4294967296 in *.
  assert (E1 : (if c0' <? c0 then (c1 + 1) mod 4294967296 else c1) mod 4294967296 = ((8 * n) / 4294967296 + (if c0' <? c0 then 1 else 0)) mod 4294967296).
  { unfold c1. destruct (c0' <? c0); rewrite ?Z.add_0_r, ?Zmod_mod, ?Zplus_mod_idemp_l; done. }
  rewrite Zplus_mod, E1, <- Zplus_mod. f_equal. rewrite E0. unfold c0. clear E0 E1 c0 c1 c0'.
  destruct (Z.ltb_spec ((8 * (n + d)) mod 4294967296) ((8 * n) mod 4294967296)); Z.div_mod_to_equations; lia.
Qed.

Lemma position n : 0 <= n -> Z.land (Z.shiftr ((8 * n) mod 2 ^ 32) 3) 63 = n mod 64.
Proof.
  intros Hn. change 63 with (Z.ones 6). rewrite Z.land_ones, Z.shiftr_div_pow2 by lia.
  change (2 ^ 3) with 8. change (2 ^ 6) with 64. change (2 ^ 32) with 4294967296. Z.div_mod_to_equations; lia.
Qed.

(** The complete blocks inside the data. *)
Lemma blocks_loop_spec data m : Forall byte m -> Forall byte data -> zlen data < 2 ^ 32 - 64 -> forall fuel i k,
  length (m ++ take i data) = (64 * k)%nat -> (i <= length data)%nat -> (length data - i <= fuel)%nat ->
  exists i' k', blocks_loop big fuel (digested (m ++ take i data)) data (Z.of_nat i) (zlen data) =
    Done (digested (m ++ take i' data), Z.of_nat i') /\
    length (m ++ take i' data) = (64 * k')%nat /\ (i <= i' <= length data)%nat /\ (length data - i' < 64)%nat.
Proof.
  intros Hm Hd H32. induction fuel as [|fuel IH]; intros i k Hk Hi Hf; cbn [blocks_loop];
    rewrite u32_small by (unfold zlen in *; lia); destruct (Z.ltb_spec (Z.of_nat i + 63) (zlen data)) as [Hlt|Hge].
  1: unfold zlen in *; lia. 1, 3: exists i, k; unfold zlen in *; split_and!; (done || lia).
  rewrite memcpy_from_ok by (unfold zlen in *; lia). cbn [mbind outcome_bind]. rewrite Nat2Z.id. change (Z.to_nat 64) with 64%nat.
  set (b := take 64 (drop i data)). assert (Hb : length b = 64%nat) by (unfold b, zlen in *; rewrite length_take, length_drop; lia).
  rewrite transform_fips by (done || by apply Forall_take, Forall_drop).
  assert (E : take (i + 64) data = take i data ++ b) by (unfold b; by rewrite take_take_drop).
  assert (Ea : fips_compress (digested (m ++ take i data)) b = digested (m ++ take (i + 64) data)).
  { rewrite E, app_assoc. unfold digested at 2. by rewrite (absorb_app _ k), (absorb_block _ _ b). }
  rewrite Ea, u32_small by (unfold zlen in *; lia). replace (Z.of_nat i + 64) with (Z.of_nat (i + 64)) by lia.
  destruct (IH (i + 64)%nat (S k)) as (i' & k' & -> & H1 & H2 & H3); unfold zlen in *;
    [rewrite E, app_assoc, length_app, Hk, Hb; lia | lia | lia |].
  exists i', k'. split_and!; (done || lia).
Qed.

(** Complete blocks, and octets in the buffer behind them. *)
Lemma absorbed_rest k a b (rest : list cell) : length a = (64 * k)%nat -> (length b < 64)%nat -> Forall byte (a ++ b) ->
  (length b + length rest)%nat = 64%nat ->
  absorbed (mkSha1 (digested a) ((8 * zlen (a ++ b)) mod 2 ^ 32) ((8 * zlen (a ++ b)) / 2 ^ 32 mod 2 ^ 32) (map Some b ++ rest)) (a ++ b).
Proof.
  intros Ha Hb Hby Hr. split; cbn [s1_state s1_count0 s1_count1 s1_buffer]; [done | | done | done |].
  - unfold digested. by rewrite (absorb_pending _ _ k).
  - rewrite (pending_app k) by done. by exists rest.
Qed.

Lemma update_absorbs ctx m data : absorbed ctx m -> Forall byte data -> zlen data < 2 ^ 32 - 64 ->
  exists ctx', sha1_update big ctx (zlen data) data = Done ctx' /\ absorbed ctx' (m ++ data).
Proof.
  intros [Hm Hs Hc0 Hc1 (rest & Hbuf & Hrest)] Hd H32. pose proof (zlen_nonneg m) as Hm0. pose proof (zlen_nonneg data) as Hd0.
  destruct (count_next (zlen m) (zlen data)) as [E0 E1]; [lia..|]. rewrite <- zlen_app in E0, E1.
  unfold sha1_update. rewrite Hc0, Hc1, E1, E0, position by done. clear E0 E1.
  pose proof (pending_length m) as Hp. destruct (pending_split m) as (full & Em & Hf).
  assert (Ej : zlen m mod 64 = zlen (pending m)) by (unfold zlen; by rewrite Hp, Nat2Z.inj_mod).
  rewrite Ej. set (p := pending m) in *. assert (Hp64 : (length p < 64)%nat) by (rewrite Hp; apply Nat.mod_upper_bound; lia).
  rewrite u32_small by (unfold zlen in *; lia). destruct (Z.ltb_spec 63 (zlen p + zlen data)) as [Hge|Hlt].
  - rewrite memcpy_from_ok by (unfold zlen in *; lia). cbn [mbind outcome_bind]. rewrite drop_0.
    set (a := take (Z.to_nat (64 - zlen p)) data). assert (Ha : (length p + length a = 64)%nat) by (unfold a, zlen in *; rewrite length_take; lia).
    rewrite Hbuf, store_cells_next by lia. cbn [mbind outcome_bind]. rewrite drop_ge, app_nil_r by lia.
    assert (Hpa : length (p ++ a) = 64%nat) by (rewrite length_app; lia).
    pose proof (read_cells_n_written (p ++ a) []) as Hrd. rewrite Hpa, app_nil_r in Hrd. rewrite Hrd. cbn [mbind outcome_bind].
    assert (Ht : take (Z.to_nat (64 - zlen p)) data = a) by done. set (n := Z.to_nat (64 - zlen p)) in *.
    assert (Hma : m ++ take n data = full ++ (p ++ a)) by (rewrite Ht, Em at 1; by rewrite <- app_assoc).
    rewrite transform_fips.
    2: { apply Forall_app. split; [by apply Forall_drop | by apply Forall_take]. } 2: done.
    assert (Es : fips_compress (s1_state ctx) (p ++ a) = digested (m ++ take n data)).
    { rewrite Hs, Hma. unfold digested. rewrite Em at 1. by rewrite (absorb_pending _ _ _ full p Hf Hp64), (absorb_app _ _ _ full _ Hf), (absorb_block _ _ (p ++ a)). }
    rewrite Es. replace (64 - zlen p) with (Z.of_nat n) by (unfold n, zlen in *; lia).
    destruct (blocks_loop_spec data m Hm Hd H32 (Z.to_nat (zlen data)) n (S (length m / 64))) as (i & k & -> & Hk & Hi & Hlast).
    + rewrite Hma, length_app, Hf, Hpa. lia.
    + unfold n, zlen in *; lia.
    + unfold zlen; lia.
    + cbn [mbind outcome_bind]. rewrite u32_small by (unfold zlen in *; lia). rewrite memcpy_from_ok by (unfold zlen in *; lia).
      cbn [mbind outcome_bind]. rewrite Nat2Z.id, (take_ge (drop i data)) by (rewrite length_drop; unfold zlen; lia).
      pose proof (store_cells_next [] (drop i data) (map Some (p ++ a))) as Hst. cbn [map app] in Hst.
      change (zlen (@nil Z)) with 0 in Hst. rewrite Hst by (rewrite length_drop, length_map, Hpa; lia). cbn [mbind outcome_bind].
      assert (Emd : m ++ data = (m ++ take i data) ++ drop i data) by (by rewrite <- app_assoc, take_drop).
      eexists. split; [done|]. rewrite Emd. apply (absorbed_rest k); rewrite ?length_drop, ?length_map, ?Hpa; [done | lia | | lia].
      rewrite <- Emd. by apply Forall_app.
  - cbn [mbind outcome_bind]. rewrite Z.sub_0_r, u32_small, memcpy_from_ok by (unfold zlen in *; lia). cbn [mbind outcome_bind].
    rewrite drop_0, take_ge by (unfold zlen; lia). rewrite Hbuf, store_cells_next by (unfold zlen in *; lia). cbn [mbind outcome_bind].
    eexists. split; [done|]. assert (Emd : m ++ data = full ++ (p ++ data)) by (rewrite Em at 1; by rewrite <- app_assoc).
    assert (Es : s1_state ctx = digested full) by (rewrite Hs, Em at 1; unfold digested; by rewrite (absorb_pending _ _ _ full p Hf)).
    rewrite Es, Emd. apply (absorbed_rest (length m / 64)); rewrite <- ?Emd, ?length_app, ?length_drop; try done;
      [unfold zlen in *; lia | by apply Forall_app | unfold zlen in *; lia].
Qed.


Lemma updates_absorb pieces : forall ctx m, absorbed ctx m -> Forall (fun p => Forall byte p /\ zlen p < 2 ^ 32 - 64) pieces ->
  exists ctx', sha1_updates big ctx pieces = Done ctx' /\ absorbed ctx' (m ++ concat pieces).
Proof.
  induction pieces as [|p pieces IH]; intros ctx m Hc Hp; cbn [sha1_updates concat]; [rewrite app_nil_r; eauto|].
  apply Forall_cons in Hp as [[Hb Hl] Hp]. destruct (update_absorbs ctx m p Hc Hb Hl) as (ctx' & -> & Hc'). cbn [mbind outcome_bind].
  rewrite app_assoc. by apply IH.
Qed.

(** * The end of a message *)

Lemma land_504 x : Z.land x 504 = 8 * (Z.land (Z.shiftr x 3) 63).
Proof.
  rewrite Z.mul_comm. change 8 with (2 ^ 3). rewrite <- Z.shiftl_mul_pow2 by lia. change 504 with (Z.shiftl 63 3).
  apply Z.bits_inj'. intros n Hn. rewrite Z.land_spec, !(Z.shiftl_spec _ 3 n), Z.land_spec by done.
  destruct (Z.ltb_spec n 3); [rewrite !(Z.testbit_neg_r _ (n - 3)) by lia; by rewrite andb_false_r|].
  rewrite Z.shiftr_spec by lia. do 2 f_equal. lia.
Qed.

Lemma pad_loop_spec fuel : forall ctx m, absorbed ctx m -> (56 - zlen m) mod 64 <= Z.of_nat fuel ->
  exists ctx', pad_loop big fuel ctx = Done ctx' /\ absorbed ctx' (m ++ replicate (Z.to_nat ((56 - zlen m) mod 64)) 0).
Proof.
  induction fuel as [|fuel IH]; intros ctx m Hc Hf; cbn [pad_loop]; rewrite (ab_count0 _ _ Hc), land_504, position by apply zlen_nonneg;
    pose proof (Z.mod_pos_bound (56 - zlen m) 64 ltac:(lia));
    (destruct (Z.eqb_spec (8 * (zlen m mod 64)) 448) as [E|E];
      [exists ctx; replace ((56 - zlen m) mod 64) with 0 by (clear -E; Z.div_mod_to_equations; lia); by rewrite app_nil_r|]).
  - exfalso. apply E. clear -Hf H. change (Z.of_nat 0) with 0 in *. Z.div_mod_to_equations; lia.
  - destruct (update_absorbs ctx m [0]) as (ctx' & Eu & Hc'); [done | by repeat constructor | done |].
    change (zlen [0]) with 1 in Eu. rewrite Eu. cbn [mbind outcome_bind].
    assert (En : (56 - zlen m) mod 64 = 1 + (56 - zlen (m ++ [0])) mod 64)
      by (rewrite zlen_app; change (zlen [0]) with 1; clear -E; Z.div_mod_to_equations; lia).
    rewrite En, Z2Nat.inj_add by (lia || apply Z.mod_pos_bound; lia). change (Z.to_nat 1) with 1%nat. cbn [Nat.add replicate].
    change (0 :: ?l) with ([0] ++ l). rewrite app_assoc. apply IH; [done | lia].
Qed.

Lemma land_255 x k : 0 <= k -> Z.land (Z.shiftr x k) 255 = x / 2 ^ k mod 256.
Proof. intros Hk. change 255 with (Z.ones 8). by rewrite Z.land_ones, Z.shiftr_div_pow2 by lia. Qed.

Lemma be32_mod x : be32 (x mod 2 ^ 32) = be32 x.
Proof.
  unfold be32.
  assert (E : forall k, 0 <= k <= 24 -> (x mod 2 ^ 32) / 2 ^ k mod 256 = x / 2 ^ k mod 256).
  { intros k Hk. change 256 with (2 ^ 8). rewrite <- !Z.shiftr_div_pow2, <- !Z.land_ones by lia.
    apply Z.bits_inj'. intros n Hn. rewrite !Z.land_spec. destruct (Z.ltb_spec n 8).
    - rewrite !Z.shiftr_spec, Z.land_spec, (Z.ones_spec_low 32) by lia. by rewrite andb_true_r.
    - rewrite Z.ones_spec_high by lia. by rewrite !andb_false_r. }
  rewrite !E by lia. f_equal. f_equal. f_equal. f_equal. pose proof (E 0 ltac:(lia)) as E0. change (2 ^ 0) with 1 in E0. by rewrite !Z.div_1_r in E0.
Qed.

Lemma be32_bytes x : Forall byte (be32 x).
Proof. unfold be32. repeat constructor; apply Z.mod_pos_bound; lia. Qed.

Lemma finalcount ctx m : absorbed ctx m -> map (count_octet ctx) (upto 8) = be32 (8 * zlen m / 2 ^ 32) ++ be32 (8 * zlen m).
Proof.
  intros Hc. rewrite <- (be32_mod (8 * zlen m)), <- (be32_mod (8 * zlen m / 2 ^ 32)), <- (ab_count0 _ _ Hc), <- (ab_count1 _ _ Hc).
  unfold count_octet, be32, upto. cbn [map seq app Z.of_nat Z.leb Z.compare Pos.of_succ_nat Pos.succ Pos.compare Pos.compare_cont].
  rewrite !land_255 by done. cbn. by rewrite !Z.div_1_r.
Qed.

Lemma digest_words r : map (digest_octet r) (upto 20) =
  be32 (reg_a r) ++ be32 (reg_b r) ++ be32 (reg_c r) ++ be32 (reg_d r) ++ be32 (reg_e r).
Proof.
  unfold digest_octet, be32, upto. cbn [map seq app Z.of_nat]. rewrite !land_255 by done. cbn. by rewrite !Z.div_1_r.
Qed.

Lemma digest_absorbed ctx m : absorbed ctx m -> exists ctx', sha1_digest big ctx = Done (ctx', sha1 m).
Proof.
  intros Hc. unfold sha1_digest. rewrite (finalcount ctx m Hc).
  destruct (update_absorbs ctx m [128]) as (ctx1 & E1 & Hc1); [done | by repeat constructor | done |].
  change (zlen [128]) with 1 in E1. rewrite E1. cbn [mbind outcome_bind].
  destruct (pad_loop_spec 64 ctx1 (m ++ [128]) Hc1) as (ctx2 & -> & Hc2);
    [pose proof (Z.mod_pos_bound (56 - zlen (m ++ [128])) 64 ltac:(lia)); lia|]. cbn [mbind outcome_bind].
  set (fc := be32 (8 * zlen m / 2 ^ 32) ++ be32 (8 * zlen m)).
  destruct (update_absorbs ctx2 _ fc Hc2) as (ctx3 & E3 & Hc3); [apply Forall_app; split; apply be32_bytes | done |].
  change (zlen fc) with 8 in E3. rewrite E3. cbn [mbind outcome_bind]. exists ctx3. rewrite digest_words, (ab_state _ _ Hc3).
  assert (Ep : ((m ++ [128]) ++ replicate (Z.to_nat ((56 - zlen (m ++ [128])) mod 64)) 0) ++ fc = m ++ padding (length m) ++ fc).
  { unfold padding. rewrite <- !app_assoc. cbn [app]. rewrite zlen_app. change (zlen [128]) with 1.
    do 6 f_equal. unfold zlen. lia. }
  rewrite Ep. unfold sha1. fold (digested (m ++ padding (length m) ++ fc)). done.
Qed.
End Pieces.

Lemma sha1_pieces big pieces : Forall (fun p => Forall byte p /\ zlen p < 2 ^ 32 - 64) pieces ->
  sha1_of big pieces = Done (sha1 (concat pieces)).
Proof.
  intros Hp. unfold sha1_of. destruct (updates_absorb big pieces (sha1_init fresh_sha1) []) as (ctx & -> & Hc);
    [by apply init_absorbed | done |]. cbn [mbind outcome_bind app] in *.
  by destruct (digest_absorbed big ctx _ Hc) as [ctx' ->].
Qed.

(** C23: Whatever the order of octets of the host, a message that is given to
    [sha1_update] in any pieces, each shorter than 2{^32} - 64 octets, has the
    digest FIPS 180 defines for the whole message. *)
Theorem sha1_correct big pieces : Forall (fun p => Forall byte p /\ zlen p < 2 ^ 32 - 64) pieces ->
  sha1_of big pieces = Done (sha1 (concat pieces)).
Proof. apply sha1_pieces. Qed.

(** The test vectors the source names, except for the longest. *)
Lemma sha1_correct_witness :
  sha1_of false [str "a"; str "bc"] = Done (sha1 (str "abc")) /\
  hex_of_bytes true (sha1 (str "abc")) = str "A9993E364706816ABA3E25717850C26C9CD0D89D".
Proof.
  split; [|vm_compute; reflexivity]. apply (sha1_correct false [str "a"; str "bc"]).
  repeat constructor; vm_compute; congruence.
Defined.

Lemma sha1_second_vector :
  hex_of_bytes true (sha1 (str "abcdbcdecdefdefgefghfghighijhijkijkljklmklmnlmnomnopnopq")) = str "84983E441C3BD26EBAAE4AA1F95129E5E54670F1".
Proof. vm_compute. reflexivity. Qed.
