(* ===== verification/Sha1x.v ===== *)
(** The double width SHA-1 of PGP 5.5 (sha1x.c), over sha1.c. *)

From Stdlib Require Import String.
From S2P Require Import Prelude CLib Streams Digest KeyId Sha1 Sha1Facts.

Definition BUFSIZE : nat := 64.
Definition SHA1X_DIGEST_SIZE : Z := 40.

(** * The code *)

Section Sha1x.
Context (big : bool).

Record sha1x_ctx : Type := mkSha1x { sx_a : sha1_ctx; sx_b : sha1_ctx; sx_c : sha1_ctx; sx_d : sha1_ctx; sx_odd : bool }.

Definition zeros (n : nat) : list Z := replicate n 0.

Definition sha1x_init (ctx : sha1x_ctx) : outcome sha1x_ctx :=
  b ← sha1_update big (sha1_init (sx_b ctx)) 1 (zeros 3);
  c ← sha1_update big (sha1_init (sx_c ctx)) 2 (zeros 3);
  d ← sha1_update big (sha1_init (sx_d ctx)) 3 (zeros 3);
  Done (mkSha1x (sha1_init (sx_a ctx)) b c d false).

(** [*bufp++ = *data++]: the buffer and the rest of the data. *)
Definition move_octet (buf data : list Z) : outcome (list Z * list Z) :=
  match data with
  | [] => Fault OutOfBounds
  | x :: data => if (length buf <? BUFSIZE)%nat then Done (buf ++ [x], data) else Fault OutOfBounds
  end.

(** [while (length != 0 && oddp < oddbuf + BUFSIZE)]: what is left of [length]
    and of the data, and the two buffers. *)
Fixpoint split_loop (len : nat) (data evenbuf oddbuf : list Z) : outcome (nat * list Z * list Z * list Z) :=
  match len with
  | O => Done (O, data, evenbuf, oddbuf)
  | S len' =>
      if (length oddbuf <? BUFSIZE)%nat then
        '(evenbuf, data) ← move_octet evenbuf data;
        match len' with
        | O => Done (O, data, evenbuf, oddbuf)
        | S len'' => '(oddbuf, data) ← move_octet oddbuf data; split_loop len'' data evenbuf oddbuf
        end
      else Done (len, data, evenbuf, oddbuf)
  end.

(** [while (length != 0)] *)
Fixpoint sha1x_loop (fuel len : nat) (ctx : sha1x_ctx) (data oddbuf : list Z) : outcome sha1x_ctx :=
  match len with
  | O => Done ctx
  | S _ =>
      match fuel with
      | O => Fault OutOfFuel
      | S fuel =>
          '(len, data, evenbuf, oddbuf) ← split_loop len data [] oddbuf;
          a ← sha1_update big (sx_a ctx) (zlen evenbuf) evenbuf;
          b ← sha1_update big (sx_b ctx) (zlen evenbuf) evenbuf;
          c ← sha1_update big (sx_c ctx) (zlen oddbuf) oddbuf;
          d ← sha1_update big (sx_d ctx) (zlen oddbuf) oddbuf;
          sha1x_loop fuel len (mkSha1x a b c d (sx_odd ctx)) data []
      end
  end.

Definition sha1x_update (ctx : sha1x_ctx) (len : nat) (data : list Z) : outcome sha1x_ctx :=
  let newodd := xorb (sx_odd ctx) (Nat.odd len) in
  '(oddbuf, data, len) ←
    (if sx_odd ctx && negb (len =? 0)%nat then '(oddbuf, data) ← move_octet [] data; Done (oddbuf, data, pred len)
     else Done ([], data, len));
  sha1x_loop len len (mkSha1x (sx_a ctx) (sx_b ctx) (sx_c ctx) (sx_d ctx) newodd) data oddbuf.

(** [x[i] ^= y[i]] *)
Definition xor_octets (x y : list Z) : list Z := zip_with Z.lxor x y.

(** A digest of zeros and another digest. *)
Definition sha1_wrapped (n : nat) (d : list Z) : outcome (list Z) :=
  ctx ← sha1_update big (sha1_init fresh_sha1) (Z.of_nat n) (zeros 7);
  ctx ← sha1_update big ctx 20 d;
  '(_, d) ← sha1_digest big ctx;
  Done d.

Definition sha1x_digest (ctx : sha1x_ctx) (length : Z) : outcome (sha1x_ctx * list Z) :=
  '(a, f0) ← sha1_digest big (sx_a ctx);
  '(b, f1) ← sha1_digest big (sx_b ctx);
  '(c, f2) ← sha1_digest big (sx_c ctx);
  '(d, f3) ← sha1_digest big (sx_d ctx);
  let f0 := xor_octets f0 f2 in
  let f1 := xor_octets f1 f3 in
  f4 ← sha1_wrapped 4 f0;
  f5 ← sha1_wrapped 5 f0;
  f6 ← sha1_wrapped 6 f1;
  f7 ← sha1_wrapped 7 f1;
  let f4 := xor_octets f4 f6 in
  let f5 := xor_octets f5 f7 in
  let length := if SHA1X_DIGEST_SIZE <? length then SHA1X_DIGEST_SIZE else length in
  Done (mkSha1x a b c d (sx_odd ctx), take (Z.to_nat length) (f4 ++ f6)).

Definition fresh_sha1x : sha1x_ctx := mkSha1x fresh_sha1 fresh_sha1 fresh_sha1 fresh_sha1 true.

Fixpoint sha1x_updates (ctx : sha1x_ctx) (pieces : list (list Z)) : outcome sha1x_ctx :=
  match pieces with
  | [] => Done ctx
  | p :: pieces => ctx ← sha1x_update ctx (length p) p; sha1x_updates ctx pieces
  end.

Definition sha1x_of (pieces : list (list Z)) (length : Z) : outcome (list Z) :=
  ctx ← sha1x_init fresh_sha1x;
  ctx ← sha1x_updates ctx pieces;
  '(_, d) ← sha1x_digest ctx length;
  Done d.
End Sha1x.

(** * Even and odd octets *)

Fixpoint evens (m : list Z) : list Z := match m with [] => [] | x :: m => x :: match m with [] => [] | _ :: m => evens m end end.
Definition odds (m : list Z) : list Z := evens (tail m).

Lemma evens_cons x m : evens (x :: m) = x :: odds m.
Proof. by destruct m. Qed.

Lemma odds_cons x m : odds (x :: m) = evens m.
Proof. done. Qed.

Lemma evens_odds_app m data : evens (m ++ data) = evens m ++ (if Nat.odd (length m) then odds data else evens data) /\
  odds (m ++ data) = odds m ++ (if Nat.odd (length m) then evens data else odds data).
Proof.
  induction m as [|x m [IHe IHo]]; [done|]. cbn [app length]. rewrite !evens_cons, !odds_cons, IHe, IHo, Nat.odd_succ, <- Nat.negb_odd.
  by destruct (Nat.odd (length m)).
Qed.

Lemma evens_bytes m : Forall byte m -> Forall byte (evens m) /\ Forall byte (odds m).
Proof. induction 1 as [|x m Hx _ [IHe IHo]]; [done|]. rewrite evens_cons, odds_cons. auto. Qed.

(** * Updates *)

Section Facts.
Context (big : bool).

Lemma split_loop_spec len : forall data e o, len = length data -> (length e <= length o <= 64)%nat ->
  exists x data' e' o', split_loop len data e o = Done (length data', data', e', o') /\ data = x ++ data' /\
    e' = e ++ evens x /\ o' = o ++ odds x /\ (length e' <= 64 /\ length o' <= 64)%nat /\
    (data' <> [] -> Nat.even (length x) = true) /\ ((length o < 64)%nat -> data <> [] -> x <> []).
Proof.
  induction len as [len IH] using lt_wf_ind. intros data e o -> Ho.
  destruct data as [|x1 data]; cbn [length split_loop].
  { exists [], [], e, o. rewrite !app_nil_r. split_and!; (done || lia). }
  unfold BUFSIZE. destruct (Nat.ltb_spec (length o) 64) as [Hlt|Hge].
  2: { exists [], (x1 :: data), e, o. rewrite !app_nil_r. split_and!; (done || lia). }
  cbn [move_octet]. unfold BUFSIZE. destruct (Nat.ltb_spec (length e) 64); [|lia]. cbn [mbind outcome_bind].
  destruct data as [|x2 data]; cbn [length].
  { exists [x1], [], (e ++ [x1]), o. change (odds [x1]) with (@nil Z). rewrite !app_nil_r. split_and!; (done || lia || (rewrite length_app; cbn; lia)). }
  cbn [move_octet]. unfold BUFSIZE. destruct (Nat.ltb_spec (length o) 64); [|lia]. cbn [mbind outcome_bind].
  destruct (IH (length data) ltac:(cbn; lia) data (e ++ [x1]) (o ++ [x2]) eq_refl) as (x & data' & e' & o' & -> & -> & -> & -> & Hl & He & _);
    [rewrite !length_app; cbn; lia|].
  exists (x1 :: x2 :: x), data', ((e ++ [x1]) ++ evens x), ((o ++ [x2]) ++ odds x).
  rewrite evens_cons, !odds_cons, evens_cons. rewrite <- !app_assoc in Hl |- *. split_and!; try done; [apply Hl | apply Hl].
Qed.

(** The octets at even and at odd positions that have been absorbed. *)
Record split_absorbed (ctx : sha1x_ctx) (E O : list Z) : Prop := {
  sa_a : absorbed (sx_a ctx) E;
  sa_b : absorbed (sx_b ctx) (zeros 1 ++ E);
  sa_c : absorbed (sx_c ctx) (zeros 2 ++ O);
  sa_d : absorbed (sx_d ctx) (zeros 3 ++ O)
}.

Lemma short_update ctx m bs : absorbed ctx m -> Forall byte bs -> (length bs <= 64)%nat ->
  exists ctx', sha1_update big ctx (zlen bs) bs = Done ctx' /\ absorbed ctx' (m ++ bs).
Proof. intros Hc Hb Hl. apply update_absorbs; [done | done | unfold zlen; lia]. Qed.

Lemma sha1x_loop_spec fuel : forall ctx data oddbuf E O, split_absorbed ctx E O -> Forall byte data -> Forall byte oddbuf ->
  (length oddbuf <= 1)%nat -> (data <> [] \/ oddbuf = []) -> (length data <= fuel)%nat ->
  exists ctx', sha1x_loop big fuel (length data) ctx data oddbuf = Done ctx' /\
    split_absorbed ctx' (E ++ evens data) (O ++ oddbuf ++ odds data) /\ sx_odd ctx' = sx_odd ctx.
Proof.
  induction fuel as [|fuel IH]; intros ctx data oddbuf E O Hc Hd Ho H1 Hne Hf.
  { destruct data; [|cbn in Hf; lia]. destruct Hne as [| ->]; [done|]. exists ctx. rewrite !app_nil_r. done. }
  destruct data as [|y data]; [destruct Hne as [| ->]; [done|]; exists ctx; rewrite !app_nil_r; done|].
  cbn [length sha1x_loop]. change (S (length data)) with (length (y :: data)). set (all := y :: data) in *.
  destruct (split_loop_spec (length all) all [] oddbuf eq_refl) as (x & data' & e' & o' & -> & Eall & -> & -> & [He Ho'] & Hev & Hx); [cbn; lia|].
  cbn [mbind outcome_bind app]. assert (Hxb : Forall byte x /\ Forall byte data') by (by apply Forall_app; rewrite <- Eall).
  destruct (evens_bytes x (proj1 Hxb)) as [Hxe Hxo]. assert (Hob : Forall byte (oddbuf ++ odds x)) by (by apply Forall_app).
  destruct Hc as [Ha Hb Hcc Hdd]. cbn [app] in He.
  destruct (short_update _ _ (evens x) Ha Hxe He) as (a' & -> & Ha'). cbn [mbind outcome_bind].
  destruct (short_update _ _ (evens x) Hb Hxe He) as (b' & -> & Hb'). cbn [mbind outcome_bind].
  destruct (short_update _ _ (oddbuf ++ odds x) Hcc Hob Ho') as (c' & -> & Hc'). cbn [mbind outcome_bind].
  destruct (short_update _ _ (oddbuf ++ odds x) Hdd Hob Ho') as (d' & -> & Hd'). cbn [mbind outcome_bind].
  rewrite <- !app_assoc in *.
  destruct (IH (mkSha1x a' b' c' d' (sx_odd ctx)) data' [] (E ++ evens x) (O ++ oddbuf ++ odds x)) as (ctx' & -> & Hs & Hodd);
    [by split | apply Hxb | constructor | cbn; lia | by right | |].
  - assert (x <> []) by (apply Hx; [lia | done]). pose proof (f_equal length Eall) as Hl. rewrite length_app in Hl.
    destruct x; [done|]. cbn [length] in Hl. lia.
  - exists ctx'. split; [done|]. split; [|done]. assert (Esplit : evens all = evens x ++ evens data' /\ odds all = odds x ++ odds data').
    { rewrite Eall. destruct (evens_odds_app x data') as [-> ->]. destruct data' as [|z data'].
      - by destruct (Nat.odd (length x)).
      - specialize (Hev ltac:(done)). rewrite <- Nat.negb_odd in Hev. by destruct (Nat.odd (length x)). }
    destruct Esplit as [-> ->]. cbn [app] in Hs. by rewrite <- !app_assoc in Hs.
Qed.

(** The context after the message [m]. *)
Definition sha1x_absorbed (ctx : sha1x_ctx) (m : list Z) : Prop :=
  split_absorbed ctx (evens m) (odds m) /\ sx_odd ctx = Nat.odd (length m).

(** A single octet at an odd position. *)
Definition lone (m data : list Z) : bool := Nat.odd (length m) && (length data =? 1)%nat.

Lemma sha1x_update_absorbs ctx m data : sha1x_absorbed ctx m -> Forall byte data -> lone m data = false ->
  exists ctx', sha1x_update big ctx (length data) data = Done ctx' /\ sha1x_absorbed ctx' (m ++ data).
Proof.
  intros [Hs Ho] Hd Hl. unfold sha1x_update. rewrite Ho. unfold sha1x_absorbed. rewrite length_app, Nat.odd_add.
  destruct (evens_odds_app m data) as [-> ->]. unfold lone in Hl. destruct (Nat.odd (length m)) eqn:Em; cbn [andb xorb] in Hl |- *.
  - destruct data as [|x data]; cbn [length negb Nat.eqb].
    { cbn [mbind outcome_bind sha1x_loop]. eexists. split; [done|]. rewrite !app_nil_r. split; [by destruct Hs; split | done]. }
    cbn [move_octet length]. unfold BUFSIZE. cbn [Nat.ltb Nat.leb mbind outcome_bind app Nat.pred].
    apply Forall_cons in Hd as [Hx Hd]. match goal with |- context [sha1x_loop big _ _ ?c _ _] =>
      destruct (sha1x_loop_spec (length data) c data [x] (evens m) (odds m)) as (ctx' & E & Hs' & Ho') end;
      [by destruct Hs; split | done | by apply Forall_singleton | cbn; lia | left; by destruct data | lia |].
    exists ctx'. rewrite E. split; [done|]. rewrite odds_cons, evens_cons. split; [exact Hs' | by rewrite Ho'].
  - cbn [mbind outcome_bind]. match goal with |- context [sha1x_loop big _ _ ?c _ _] =>
      destruct (sha1x_loop_spec (length data) c data [] (evens m) (odds m)) as (ctx' & E & Hs' & Ho') end;
      [by destruct Hs; split | done | constructor | cbn; lia | by right | lia |].
    exists ctx'. split; [done|]. split; [exact Hs' | by rewrite Ho'].
Qed.

(** No piece of the message is a single octet at an odd position. *)
Fixpoint no_lone (m : list Z) (pieces : list (list Z)) : bool :=
  match pieces with
  | [] => true
  | p :: pieces => negb (lone m p) && no_lone (m ++ p) pieces
  end.

Lemma sha1x_updates_absorb pieces : forall ctx m, sha1x_absorbed ctx m -> Forall (Forall byte) pieces -> no_lone m pieces = true ->
  exists ctx', sha1x_updates big ctx pieces = Done ctx' /\ sha1x_absorbed ctx' (m ++ concat pieces).
Proof.
  induction pieces as [|p pieces IH]; intros ctx m Hc Hp Hn; cbn [sha1x_updates concat]; [rewrite app_nil_r; eauto|].
  apply Forall_cons in Hp as [Hb Hp]. cbn [no_lone] in Hn. apply andb_prop in Hn as [Hn1 Hn]. apply negb_true_iff in Hn1.
  destruct (sha1x_update_absorbs ctx m p Hc Hb Hn1) as (ctx' & -> & Hc'). cbn [mbind outcome_bind]. rewrite app_assoc. by apply IH.
Qed.

(** Zeros from a longer array. *)
Lemma zeros_update n N : (n <= 7)%nat -> N = 3%nat /\ (n <= 3)%nat \/ N = 7%nat ->
  exists c, sha1_update big (sha1_init fresh_sha1) (Z.of_nat n) (zeros N) = Done c /\ absorbed c (zeros n).
Proof.
  intros Hn HN. assert (E : sha1_update big (sha1_init fresh_sha1) (Z.of_nat n) (zeros N) =
    sha1_update big (sha1_init fresh_sha1) (zlen (zeros n)) (zeros n)).
  { do 8 (destruct n as [|n]; [destruct HN as [[-> ?] | ->], big; (lia || reflexivity)|]). lia. }
  rewrite E. apply (short_update _ []); [by apply init_absorbed | by apply Forall_replicate |]. unfold zeros. rewrite length_replicate. lia.
Qed.

Lemma sha1x_init_absorbed : exists ctx, sha1x_init big fresh_sha1x = Done ctx /\ sha1x_absorbed ctx [].
Proof.
  unfold sha1x_init. cbn [fresh_sha1x sx_a sx_b sx_c sx_d].
  destruct (zeros_update 1 3) as (b & Eb & Hb); [lia | by left; lia |]. change (Z.of_nat 1) with 1 in Eb. rewrite Eb. cbn [mbind outcome_bind].
  destruct (zeros_update 2 3) as (c & Ec & Hc); [lia | by left; lia |]. change (Z.of_nat 2) with 2 in Ec. rewrite Ec. cbn [mbind outcome_bind].
  destruct (zeros_update 3 3) as (d & Ed & Hd); [lia | by left; lia |]. change (Z.of_nat 3) with 3 in Ed. rewrite Ed. cbn [mbind outcome_bind].
  eexists. split; [done|]. split; [|done]. split; cbn [sx_a sx_b sx_c sx_d]; try done. by apply init_absorbed.
Qed.

(** * The digest *)

Lemma sha1_size m : length (sha1 m) = 20%nat.
Proof. done. Qed.

Lemma sha1_bytes m : Forall byte (sha1 m).
Proof. unfold sha1. rewrite !Forall_app. auto using be32_bytes. Qed.

Lemma xor_bytes x y : Forall byte x -> Forall byte y -> Forall byte (xor_octets x y).
Proof.
  intros Hx. revert y. induction Hx as [|a x Ha _ IH]; intros [|b y] Hy; cbn; try constructor.
  - apply Forall_cons in Hy as [Hb _]. unfold byte in *. pose proof (Z.lxor_nonneg a b) as Hn.
    assert (H0 : 0 <= Z.lxor a b) by (apply Hn; lia). split; [done|]. destruct (Z.eq_dec (Z.lxor a b) 0) as [->|]; [lia|].
    apply Z.log2_lt_cancel. pose proof (Z.log2_lxor a b ltac:(lia) ltac:(lia)). change 255 with (2 ^ 8 - 1) in *.
    assert (Z.log2 a <= 7 /\ Z.log2 b <= 7) by (split; change 7 with (Z.log2 255); apply Z.log2_le_mono; lia).
    change (Z.log2 256) with 8. lia.
  - apply IH. by apply Forall_cons in Hy as [_ Hy].
Qed.

Lemma xor_sha1 a b : Forall byte (xor_octets (sha1 a) (sha1 b)) /\ length (xor_octets (sha1 a) (sha1 b)) = 20%nat.
Proof. split; [apply xor_bytes; apply sha1_bytes|]. unfold xor_octets. by rewrite length_zip_with, !sha1_size. Qed.

Lemma sha1_wrapped_spec n d : (n <= 7)%nat -> Forall byte d -> length d = 20%nat ->
  sha1_wrapped big n d = Done (sha1 (zeros n ++ d)).
Proof.
  intros Hn Hd Hl. unfold sha1_wrapped. destruct (zeros_update n 7) as (c & -> & Hc); [done | by right |]. cbn [mbind outcome_bind].
  destruct (short_update c _ d Hc Hd) as (c' & E & Hc'); [lia|]. replace (zlen d) with 20 in E by (unfold zlen; lia). rewrite E.
  cbn [mbind outcome_bind]. by destruct (digest_absorbed big c' _ Hc') as [c'' ->].
Qed.

(** What the context has as its digest, of the octets it took for those at
    even and at odd positions, and what it should have for a message. *)
Definition sha1x_halves (E O : list Z) : list Z :=
  let ac := xor_octets (sha1 E) (sha1 (zeros 2 ++ O)) in
  let bd := xor_octets (sha1 (zeros 1 ++ E)) (sha1 (zeros 3 ++ O)) in
  let g := sha1 (zeros 6 ++ bd) in
  xor_octets (sha1 (zeros 4 ++ ac)) g ++ g.

Definition sha1x (m : list Z) : list Z := sha1x_halves (evens m) (odds m).

Lemma sha1x_halves_size E O : zlen (sha1x_halves E O) = 40.
Proof. unfold sha1x_halves, zlen, xor_octets. rewrite length_app, length_zip_with, !sha1_size. done. Qed.

Lemma sha1x_halves_bytes E O : Forall byte (sha1x_halves E O).
Proof. unfold sha1x_halves. apply Forall_app. split; [apply xor_bytes|]; apply sha1_bytes. Qed.

Lemma sha1x_digest_split ctx E O length : split_absorbed ctx E O -> 0 <= length ->
  exists ctx', sha1x_digest big ctx length = Done (ctx', take (Z.to_nat (Z.min 40 length)) (sha1x_halves E O)).
Proof.
  intros [Ha Hb Hc Hd] Hl.
  destruct (digest_absorbed big _ _ Ha) as [a Ea], (digest_absorbed big _ _ Hb) as [b Eb], (digest_absorbed big _ _ Hc) as [c Ec],
    (digest_absorbed big _ _ Hd) as [d Ed].
  destruct (xor_sha1 E (zeros 2 ++ O)) as [Hx Lx]. destruct (xor_sha1 (zeros 1 ++ E) (zeros 3 ++ O)) as [Hy Ly].
  unfold sha1x_halves. revert Ea Eb Ec Ed Hx Lx Hy Ly.
  generalize (sha1 E) (sha1 (zeros 1 ++ E)) (sha1 (zeros 2 ++ O)) (sha1 (zeros 3 ++ O)). intros A B C D Ea Eb Ec Ed Hx Lx Hy Ly.
  pose proof (sha1_wrapped_spec 4 _ ltac:(lia) Hx Lx) as E4. pose proof (sha1_wrapped_spec 5 _ ltac:(lia) Hx Lx) as E5.
  pose proof (sha1_wrapped_spec 6 _ ltac:(lia) Hy Ly) as E6. pose proof (sha1_wrapped_spec 7 _ ltac:(lia) Hy Ly) as E7.
  revert E4 E5 E6 E7. generalize (sha1 (zeros 4 ++ xor_octets A C)) (sha1 (zeros 5 ++ xor_octets A C)) (sha1 (zeros 6 ++ xor_octets B D)) (sha1 (zeros 7 ++ xor_octets B D)).
  intros d4 d5 d6 d7 E4 E5 E6 E7. unfold sha1x_digest. rewrite Ea. cbn [mbind outcome_bind]. rewrite Eb. cbn [mbind outcome_bind].
  rewrite Ec. cbn [mbind outcome_bind]. rewrite Ed. cbn [mbind outcome_bind]. rewrite E4, E5, E6, E7. cbn [mbind outcome_bind].
  eexists. unfold SHA1X_DIGEST_SIZE. do 4 f_equal. destruct (Z.ltb_spec 40 length); lia.
Qed.

Lemma sha1x_digest_absorbed ctx m length : sha1x_absorbed ctx m -> 0 <= length ->
  exists ctx', sha1x_digest big ctx length = Done (ctx', take (Z.to_nat (Z.min 40 length)) (sha1x m)).
Proof. intros [Hs _] Hl. exact (sha1x_digest_split ctx _ _ length Hs Hl). Qed.

(** * Any pieces *)

(** Whatever the pieces are, the code runs, over some of their octets. *)
Lemma sha1x_update_total ctx data E O : split_absorbed ctx E O -> Forall byte data ->
  exists ctx' E' O', sha1x_update big ctx (length data) data = Done ctx' /\ split_absorbed ctx' E' O'.
Proof.
  intros Hs Hd. unfold sha1x_update. destruct (sx_odd ctx); cbn [andb].
  - destruct data as [|x [|y data]]; cbn [length negb Nat.eqb].
    { cbn [mbind outcome_bind sha1x_loop]. eexists _, E, O. split; [done | by destruct Hs; split]. }
    { cbn [move_octet length]. unfold BUFSIZE. cbn [Nat.ltb Nat.leb mbind outcome_bind app Nat.pred sha1x_loop].
      eexists _, E, O. split; [done | by destruct Hs; split]. }
    cbn [move_octet length]. unfold BUFSIZE. cbn [Nat.ltb Nat.leb mbind outcome_bind app Nat.pred].
    apply Forall_cons in Hd as [Hx Hd]. change (S (length data)) with (length (y :: data)). match goal with |- context [sha1x_loop big _ _ ?c _ _] =>
      destruct (sha1x_loop_spec (length (y :: data)) c (y :: data) [x] E O) as (ctx' & -> & Hs' & _) end;
      [by destruct Hs; split | done | by apply Forall_singleton | cbn; lia | by left | lia | eauto].
  - cbn [mbind outcome_bind]. match goal with |- context [sha1x_loop big _ _ ?c _ _] =>
      destruct (sha1x_loop_spec (length data) c data [] E O) as (ctx' & -> & Hs' & _) end;
      [by destruct Hs; split | done | constructor | cbn; lia | by right | lia | eauto].
Qed.

Lemma sha1x_updates_total pieces : forall ctx E O, split_absorbed ctx E O -> Forall (Forall byte) pieces ->
  exists ctx' E' O', sha1x_updates big ctx pieces = Done ctx' /\ split_absorbed ctx' E' O'.
Proof.
  induction pieces as [|p pieces IH]; intros ctx E O Hs Hp; cbn [sha1x_updates]; [eauto|].
  apply Forall_cons in Hp as [Hb Hp]. destruct (sha1x_update_total ctx p E O Hs Hb) as (ctx1 & E1 & O1 & -> & H1).
  cbn [mbind outcome_bind]. by apply (IH ctx1 E1 O1).
Qed.

Lemma sha1x_of_total pieces : Forall (Forall byte) pieces ->
  exists d, sha1x_of big pieces SHA1X_DIGEST_SIZE = Done d /\ zlen d = 40 /\ Forall byte d.
Proof.
  intros Hp. unfold sha1x_of. destruct sha1x_init_absorbed as (c0 & -> & [H0 _]). cbn [mbind outcome_bind].
  destruct (sha1x_updates_total pieces c0 _ _ H0 Hp) as (c1 & E & O & -> & H1). cbn [mbind outcome_bind].
  destruct (sha1x_digest_split c1 E O SHA1X_DIGEST_SIZE H1) as [c2 ->]; [done|]. cbn [mbind outcome_bind].
  pose proof (sha1x_halves_size E O) as Hz. eexists. split; [done|].
  rewrite take_ge by (unfold zlen in Hz; change (Z.to_nat (Z.min 40 SHA1X_DIGEST_SIZE)) with 40%nat; lia).
  split; [done | apply sha1x_halves_bytes].
Qed.
End Facts.

(** A message whose pieces never begin and end at the same odd position has the
    double width digest of its octets at even and at odd positions; of the
    second half, the code gives out the seventh of the eight inner digests. *)
Theorem sha1x_correct big pieces length : Forall (Forall byte) pieces -> no_lone [] pieces = true -> 0 <= length ->
  sha1x_of big pieces length = Done (take (Z.to_nat (Z.min 40 length)) (sha1x (concat pieces))).
Proof.
  intros Hp Hn Hl. unfold sha1x_of. destruct (sha1x_init_absorbed big) as (c0 & -> & H0). cbn [mbind outcome_bind].
  destruct (sha1x_updates_absorb big pieces c0 [] H0 Hp Hn) as (c1 & -> & H1). cbn [mbind outcome_bind app] in *.
  by destruct (sha1x_digest_absorbed big c1 _ length H1 Hl) as [c2 ->].
Qed.

(** A single octet that is added at an odd position is lost: only the parity
    of the context changes, whatever the octet is. *)
Theorem sha1x_loses_octet big ctx x : sx_odd ctx = true ->
  sha1x_update big ctx 1 [x] = Done (mkSha1x (sx_a ctx) (sx_b ctx) (sx_c ctx) (sx_d ctx) false).
Proof. intros Ho. unfold sha1x_update. rewrite Ho. reflexivity. Qed.

Lemma sha1x_correct_witness : exists d, sha1x_of false [str "ab"; str "cde"; str "fg"] 20 = Done d /\ d = take 20 (sha1x (str "abcdefg")).
Proof.
  eexists. split; [apply (sha1x_correct false [str "ab"; str "cde"; str "fg"] 20)|done].
  - repeat constructor; vm_compute; congruence.
  - reflexivity.
  - lia.
Defined.

Lemma sha1x_loses_octet_witness : exists ctx ctx', sha1x_updates false fresh_sha1x [str "a"] = Done ctx' /\ sx_odd ctx = true /\
  sha1x_update false ctx 1 [66] = sha1x_update false ctx 1 [67].
Proof.
  exists fresh_sha1x. eexists. split; [vm_compute; reflexivity|]. split; [done|].
  rewrite (sha1x_loses_octet false fresh_sha1x 66 eq_refl). by rewrite (sha1x_loses_octet false fresh_sha1x 67 eq_refl).
Defined.
