(* ===== verification/Sighash.v ===== *)
(** What a signature signs: the chunked hashing of hash-helper.c and the hash
    input of [calculate_packet_sighash] (sigcheck.c), against the signature
    formats of OpenPGP. *)

From S2P Require Import Prelude OpenPGP Streams KeyId Decode Sha1x.

(** * hash-helper.c *)

Definition MAX_HASH_CHUNKS : Z := 8.

(** The arrays [data] and [len] up to [chunks]. *)
Record onak_hash_data : Type := mkHashData {
  hd_hashtype : Z;
  hd_chunks : list (list Z * Z)
}.

(** What the calls of [xxx_update], one per chunk, are given. *)
Fixpoint hash_updates (chunks : list (list Z * Z)) : outcome (list (list Z)) :=
  match chunks with
  | [] => Done []
  | (data, len) :: chunks =>
      c ← memcpy_from data 0 len;
      rest ← hash_updates chunks;
      Done (c :: rest)
  end.

Section Sighash.
Context {HF : Hashes} {BC : BuildConfig}.

(** The cases of the [switch], those behind HAVE_NETTLE included. *)
Definition hash_supported (algo : Z) : bool :=
  (algo =? OPENPGP_HASH_MD5) || (algo =? OPENPGP_HASH_SHA1) || (algo =? OPENPGP_HASH_SHA1X) ||
  have_nettle &&
    ((algo =? OPENPGP_HASH_RIPEMD160) || (algo =? OPENPGP_HASH_SHA224) ||
     (algo =? OPENPGP_HASH_SHA256) || (algo =? OPENPGP_HASH_SHA384) || (algo =? OPENPGP_HASH_SHA512)).

(** One of the loops over the chunks, from [xxx_init] to [xxx_digest].  The
    double width SHA-1 is that of sha1x.c, chunk by chunk.  The digests of the
    other algorithms do not depend on how their input is cut into chunks: Nettle
    documents that, and for md5.c and sha1.c it is proved in Md5Facts.v and
    Sha1Facts.v. *)
Definition digest_chunks (algo : Z) (cs : list (list Z)) : outcome (list Z) :=
  if algo =? OPENPGP_HASH_SHA1X then sha1x_of words_bigendian cs SHA1X_DIGEST_SIZE
  else Done (hash algo (concat cs)).

(** The status and the digest stored in [hash], if one was. *)
Definition onak_hash (data : option onak_hash_data) : outcome (onak_status_t * option (list Z)) :=
  match data with
  | None => Done (ONAK_E_INVALID_PARAM, None)
  | Some d =>
      if MAX_HASH_CHUNKS <? zlen (hd_chunks d) then Done (ONAK_E_INVALID_PARAM, None)
      else if hash_supported (hd_hashtype d) then
        cs ← hash_updates (hd_chunks d);
        h ← digest_chunks (hd_hashtype d) cs;
        Done (ONAK_E_OK, Some h)
      else Done (ONAK_E_UNSUPPORTED_FEATURE, None)
  end.

(** * calculate_packet_sighash *)

(** The status, [*hashtype], what was stored in [hash], and [*sighash] as an
    offset into the signature packet ([None] is NULL). *)
Record sighash_result : Type := mkSighash {
  sh_status : onak_status_t;
  sh_hashtype : Z;
  sh_hash : option (list Z);
  sh_sighash : option Z
}.

Definition header16 (tag len : Z) : list Z := [tag; u8 (Z.shiftr len 8); u8 (Z.land len 0xFF)].

Definition header16_v5 (len : Z) : list Z :=
  [0x9A; 0; 0; u8 (Z.shiftr len 8); u8 (Z.land len 0xFF)].

Definition header32 (tag len : Z) : list Z :=
  [tag; u8 (Z.shiftr len 24); Z.land (Z.shiftr len 16) 0xFF; Z.land (Z.shiftr len 8) 0xFF;
   Z.land len 0xFF].

Definition whole (p : openpgp_packet) : list Z * Z := (pkt_data p, pkt_length p).

Definition local_chunk (bs : list Z) : list Z * Z := (bs, zlen bs).

(** [keyheader] and the key packet. *)
Definition key_chunks (keyheader : Z -> list Z) (key : openpgp_publickey) : list (list Z * Z) :=
  let p := pk_publickey key in [local_chunk (keyheader (pkt_length p)); whole p].

(** [packetheader], if there is one, and the packet. *)
Definition packet_chunks_v3 (packet : option openpgp_packet) : list (list Z * Z) :=
  match packet with
  | None => []
  | Some p =>
      if pkt_tag p =? OPENPGP_PACKET_PUBLICSUBKEY
      then [local_chunk (header16 0x99 (pkt_length p)); whole p]
      else [whole p]
  end.

Definition packet_chunks (subkeyheader : Z -> list Z) (packet : option openpgp_packet)
    : list (list Z * Z) :=
  match packet with
  | None => []
  | Some p =>
      if pkt_tag p =? OPENPGP_PACKET_PUBLICSUBKEY
      then [local_chunk (subkeyheader (pkt_length p)); whole p]
      else if (pkt_tag p =? OPENPGP_PACKET_UID) || (pkt_tag p =? OPENPGP_PACKET_UAT)
      then [local_chunk (header32 (if pkt_tag p =? OPENPGP_PACKET_UID then 0xB4 else 0xD1)
              (pkt_length p)); whole p]
      else [whole p]
  end.

Definition trailer_v4 (siglen : Z) : list Z :=
  [4; 0xFF; u8 (Z.shiftr siglen 24); Z.land (Z.shiftr siglen 16) 0xFF;
   Z.land (Z.shiftr siglen 8) 0xFF; Z.land siglen 0xFF].

Definition trailer_v5 (siglen : Z) : list Z :=
  [5; 0xFF; 0; 0; 0; 0; u8 (Z.shiftr siglen 24); Z.land (Z.shiftr siglen 16) 0xFF;
   Z.land (Z.shiftr siglen 8) 0xFF; Z.land siglen 0xFF].

(** The end of the function, after the [switch] on the version. *)
Definition finish_sighash (hashtype : Z) (chunks : list (list Z * Z)) (sighash : Z)
    : outcome sighash_result :=
  '(res, h) ← onak_hash (Some (mkHashData hashtype chunks));
  Done (mkSighash res hashtype h (Some sighash)).

Definition sighash_v3 (key : openpgp_publickey) (packet : option openpgp_packet)
    (sig : openpgp_packet) : outcome sighash_result :=
  if pkt_length sig <? 19 then Done (mkSighash ONAK_E_INVALID_PKT 0 None None)
  else
    hashtype ← (pkt_data sig).[16];
    finish_sighash hashtype
      (key_chunks (header16 0x99) key ++ packet_chunks_v3 packet ++ [(drop 2 (pkt_data sig), 5)]) 17.

(** From [*hashtype = sig->data[3]] to the end of the version 4 and 5 cases,
    which differ in the headers and the trailer. *)
Definition sighash_v4_v5 (keyheader trailer : Z -> list Z) (key : openpgp_publickey)
    (packet : option openpgp_packet) (sig : openpgp_packet) : outcome sighash_result :=
  let data := pkt_data sig in
  hashtype ← data.[3];
  h ← data.[4];
  l ← data.[5];
  let siglen := Z.shiftl h 8 + l + 6 in
  if pkt_length sig <? siglen then Done (mkSighash ONAK_E_INVALID_PKT hashtype None None)
  else
    uh ← data.[siglen];
    ul ← data.[siglen + 1];
    let unhashedlen := Z.shiftl uh 8 + ul in
    if pkt_length sig <? unhashedlen + siglen + 4
    then Done (mkSighash ONAK_E_INVALID_PKT hashtype None None)
    else finish_sighash hashtype
      (key_chunks keyheader key ++ packet_chunks keyheader packet ++
       [(data, siglen); local_chunk (trailer siglen)])
      (siglen + unhashedlen + 2).

(** The check for a signature that was made by an X.509 certificate: [Some]
    status is an early return. *)
Definition x509_check (sig : openpgp_packet) : outcome (option onak_status_t) :=
  let data := pkt_data sig in
  d2 ← data.[2];
  if (d2 =? 0) || (d2 =? 100) then
    '(res, len, keyid, _) ←
      parse_subpackets (drop 4 data) (u64 (pkt_length sig - 4)) (Some (Some 0)) None;
    if negb (status_ok res) then Done (Some res)
    else
      let len := default 0 len in
      if pkt_length sig <? 11 + len then Done (Some ONAK_E_INVALID_PKT)
      else
        k ← read_var (default None keyid);
        if k =? 0 then
          dummy ← buf_is data (4 + len) [0; 0; 0; 0; 0; 1; 1];
          Done (if (dummy : bool) then Some ONAK_E_UNSUPPORTED_FEATURE else None)
        else Done None
  else Done None.

Definition calculate_packet_sighash (key : openpgp_publickey) (packet : option openpgp_packet)
    (sig : openpgp_packet) : outcome sighash_result :=
  if pkt_length sig <? 10 then Done (mkSighash ONAK_E_INVALID_PKT 0 None None)
  else
    d0 ← (pkt_data sig).[0];
    if (d0 =? 2) || (d0 =? 3) then sighash_v3 key packet sig
    else if d0 =? 4 then
      early ← x509_check sig;
      match early with
      | Some res => Done (mkSighash res 0 None None)
      | None => sighash_v4_v5 (header16 0x99) trailer_v4 key packet sig
      end
    else if d0 =? 5 then sighash_v4_v5 header16_v5 trailer_v5 key packet sig
    else Done (mkSighash ONAK_E_UNSUPPORTED_FEATURE 0 None None).

(** * The signature formats and what they sign *)

(** A signature packet, version 2 or 3, and version 4 or 5. *)
Inductive signature : Type :=
  | SigV3 (version type : Z) (time keyid : list Z) (pkalgo hashalgo : Z) (left16 mpis : list Z)
  | SigV4 (version type pkalgo hashalgo : Z) (hashed unhashed left16 mpis : list Z).

(** [n] octets, most significant first. *)
Fixpoint be_bytes (n : nat) (x : Z) : list Z :=
  match n with
  | O => []
  | S n => be_bytes n (x / 256) ++ [x mod 256]
  end.

Definition encode_hashed (version type pkalgo hashalgo : Z) (hashed : list Z) : list Z :=
  [version; type; pkalgo; hashalgo] ++ be_bytes 2 (zlen hashed) ++ hashed.

Definition encode_signature (s : signature) : list Z :=
  match s with
  | SigV3 version type time keyid pkalgo hashalgo left16 mpis =>
      [version; 5; type] ++ time ++ keyid ++ [pkalgo; hashalgo] ++ left16 ++ mpis
  | SigV4 version type pkalgo hashalgo hashed unhashed left16 mpis =>
      encode_hashed version type pkalgo hashalgo hashed ++
      be_bytes 2 (zlen unhashed) ++ unhashed ++ left16 ++ mpis
  end.

Definition sig_hashalgo (s : signature) : Z :=
  match s with SigV3 _ _ _ _ _ h _ _ | SigV4 _ _ _ h _ _ _ _ => h end.

Definition sig_left (s : signature) : list Z :=
  match s with SigV3 _ _ _ _ _ _ l _ | SigV4 _ _ _ _ _ _ l _ => l end.

Definition sig_format_version (s : signature) : Z :=
  match s with SigV3 v _ _ _ _ _ _ _ | SigV4 v _ _ _ _ _ _ _ => v end.

(** A key as it is hashed: tag, length in two octets (four in version 5),
    body. *)
Definition key_octets (version : Z) (p : openpgp_packet) : list Z :=
  (if version =? 5 then 0x9A :: be_bytes 4 (pkt_length p) else 0x99 :: be_bytes 2 (pkt_length p)) ++
  pkt_data p.

(** The packet that is certified, as it is hashed. *)
Definition target_octets (version : Z) (packet : option openpgp_packet) : list Z :=
  match packet with
  | None => []
  | Some p =>
      if pkt_tag p =? OPENPGP_PACKET_PUBLICSUBKEY then key_octets version p
      else if version <? 4 then pkt_data p
      else if pkt_tag p =? OPENPGP_PACKET_UID then 0xB4 :: be_bytes 4 (pkt_length p) ++ pkt_data p
      else if pkt_tag p =? OPENPGP_PACKET_UAT then 0xD1 :: be_bytes 4 (pkt_length p) ++ pkt_data p
      else pkt_data p
  end.

(** The part of the signature that is hashed, with the trailer. *)
Definition signature_octets (s : signature) : list Z :=
  match s with
  | SigV3 _ type time _ _ _ _ _ => type :: time
  | SigV4 version type pkalgo hashalgo hashed _ _ _ =>
      encode_hashed version type pkalgo hashalgo hashed ++
      [version; 0xFF] ++ be_bytes (if version =? 5 then 8 else 4) (6 + zlen hashed)
  end.

Definition signed_octets (key : openpgp_publickey) (packet : option openpgp_packet) (s : signature)
    : list Z :=
  key_octets (sig_format_version s) (pk_publickey key) ++
  target_octets (sig_format_version s) packet ++ signature_octets s.

(** The digest of an algorithm. *)
Definition digest_of (algo : Z) (m : list Z) : list Z :=
  if algo =? OPENPGP_HASH_SHA1X then sha1x m else hash algo m.

(** The lengths of the chunks in which the octets are hashed: headers apart from
    bodies, and the trailer apart from the rest of the signature. *)
Definition chunk_lengths (key : openpgp_publickey) (packet : option openpgp_packet) (s : signature) : list Z :=
  let v := sig_format_version s in
  let key_header := if v =? 5 then 5 else 3 in
  [key_header; pkt_length (pk_publickey key)] ++
  match packet with
  | None => []
  | Some p =>
      if pkt_tag p =? OPENPGP_PACKET_PUBLICSUBKEY then [key_header; pkt_length p]
      else if (v <? 4) || negb ((pkt_tag p =? OPENPGP_PACKET_UID) || (pkt_tag p =? OPENPGP_PACKET_UAT))
      then [pkt_length p]
      else [5; pkt_length p]
  end ++
  match s with
  | SigV3 _ _ _ _ _ _ _ _ => [5]
  | SigV4 _ _ _ _ hashed _ _ _ => [6 + zlen hashed; if v =? 5 then 10 else 6]
  end.

(** No chunk is a single octet with an odd number of octets in front of it. *)
Fixpoint no_lone_chunk (before : Z) (lens : list Z) : bool :=
  match lens with
  | [] => true
  | n :: lens => negb (Z.odd before && (n =? 1)) && no_lone_chunk (before + n) lens
  end.

(** Field sizes. *)
Definition signature_ok (s : signature) : Prop :=
  match s with
  | SigV3 v _ time keyid _ _ left16 _ =>
      (v = 2 \/ v = 3) /\ zlen time = 4 /\ zlen keyid = 8 /\ zlen left16 = 2
  | SigV4 v _ pk _ hashed unhashed left16 _ =>
      (v = 4 /\ pk <> 0 /\ pk <> 100 \/ v = 5) /\
      zlen hashed < 65536 /\ zlen unhashed < 65536 /\ zlen left16 = 2
  end.

(** The packet is not longer than its header can say, nor than sha1.c can take in
    one piece. *)
Definition target_ok (packet : option openpgp_packet) : Prop :=
  match packet with
  | None => True
  | Some p => wf_packet p /\
      pkt_length p < if pkt_tag p =? OPENPGP_PACKET_PUBLICSUBKEY then 2 ^ 16 else 2 ^ 32 - 64
  end.

(** * Headers and chunks *)

Lemma be_bytes_2 x : be_bytes 2 x = [x / 256 mod 256; x mod 256].
Proof. reflexivity. Qed.

Lemma be_bytes_4 x :
  be_bytes 4 x = [x / 256 / 256 / 256 mod 256; x / 256 / 256 mod 256; x / 256 mod 256; x mod 256].
Proof. reflexivity. Qed.

Lemma header16_be tag len : 0 <= len -> header16 tag len = tag :: be_bytes 2 len.
Proof.
  intros. unfold header16. rewrite be_bytes_2, shiftr_div, land_ff by lia. unfold u8.
  change (2 ^ 8) with 256. by rewrite Z.mod_mod.
Qed.

Lemma shiftr_octet x k : 0 <= x -> 0 <= k -> Z.land (Z.shiftr x (8 + k)) 0xFF = x / 256 / 2 ^ k mod 256.
Proof.
  intros. rewrite land_ff, shiftr_div by (try apply Z.shiftr_nonneg; lia).
  rewrite Z.pow_add_r, <- Z.div_div by lia. done.
Qed.

Lemma header32_be tag len : 0 <= len -> header32 tag len = tag :: be_bytes 4 len.
Proof.
  intros. unfold header32. rewrite be_bytes_4. change 24 with (8 + 16). change 16 with (8 + 8) at 2.
  change 8 with (8 + 0) at 4. rewrite !shiftr_octet, land_ff, shiftr_div by lia. unfold u8.
  rewrite Z.pow_0_r, Z.div_1_r. rewrite !Z.div_div by lia. done.
Qed.

Lemma header16_v5_be len : 0 <= len < 2 ^ 16 -> header16_v5 len = 0x9A :: be_bytes 4 len.
Proof.
  intros. unfold header16_v5. rewrite be_bytes_4, shiftr_div, land_ff by lia. unfold u8.
  change (2 ^ 8) with 256. rewrite Z.mod_mod by lia.
  rewrite (Z.div_small (len / 256) 256) by (split; [apply Z.div_pos | apply Z.div_lt_upper_bound]; lia). done.
Qed.

Lemma trailer_v4_be n : 0 <= n -> trailer_v4 n = [4; 0xFF] ++ be_bytes 4 n.
Proof. intros. change (trailer_v4 n) with (4 :: header32 0xFF n). by rewrite header32_be. Qed.

Lemma trailer_v5_be n : 0 <= n < 2 ^ 32 -> trailer_v5 n = [5; 0xFF] ++ be_bytes 8 n.
Proof.
  intros. change (trailer_v5 n) with ([5; 0xFF; 0; 0; 0] ++ header32 0 n). rewrite header32_be by lia.
  change (be_bytes 8 n) with (be_bytes 4 (n / 256 / 256 / 256 / 256) ++ be_bytes 4 n).
  rewrite !Z.div_div by lia. by rewrite Z.div_small by lia.
Qed.

(** A chunk that lies inside its object, and what it contributes. *)
Definition chunk_ok (c : list Z * Z) : Prop := 0 <= c.2 <= zlen c.1 /\ Forall byte c.1.
Definition chunk_octets (c : list Z * Z) : list Z := take (Z.to_nat c.2) c.1.

Lemma hash_updates_ok cs :
  Forall chunk_ok cs -> hash_updates cs = Done (map chunk_octets cs).
Proof.
  induction 1 as [|[d n] cs [[Hn Hd] _] _ IH]; [done|]. cbn [hash_updates map concat fst snd] in *.
  rewrite memcpy_from_ok by lia. cbn [mbind outcome_bind]. rewrite IH. done.
Qed.

Lemma chunks_bytes cs : Forall chunk_ok cs -> Forall (Forall byte) (map chunk_octets cs).
Proof.
  intros H. apply Forall_map. eapply Forall_impl; [exact H|]. intros c [_ Hb]. by apply Forall_take.
Qed.

Lemma local_chunk_ok bs : Forall byte bs -> chunk_ok (local_chunk bs).
Proof. intros Hb. unfold chunk_ok, local_chunk. cbn. pose proof (zlen_nonneg bs). split; [lia | done]. Qed.

Lemma local_chunk_octets bs : chunk_octets (local_chunk bs) = bs.
Proof. unfold chunk_octets, local_chunk, zlen. cbn [fst snd]. by rewrite Nat2Z.id, firstn_all. Qed.

Lemma whole_ok p : wf_packet p -> chunk_ok (whole p).
Proof.
  intros [Hl Hb]. unfold chunk_ok, whole. cbn. rewrite Hl. pose proof (zlen_nonneg (pkt_data p)). split; [lia | done].
Qed.

Lemma header16_bytes tag n : byte tag -> Forall byte (header16 tag n).
Proof. intros. unfold header16. repeat (apply Forall_cons; split); auto with onak. Qed.

Lemma header16_v5_bytes n : Forall byte (header16_v5 n).
Proof. unfold header16_v5. repeat (apply Forall_cons; split); try apply u8_byte; try apply Forall_nil_2; unfold byte; lia. Qed.

Lemma land_ff_byte x : byte (Z.land x 0xFF).
Proof. change 0xFF with (Z.ones 8). rewrite Z.land_ones by lia. apply Z.mod_pos_bound. lia. Qed.

Lemma header32_bytes tag n : byte tag -> Forall byte (header32 tag n).
Proof.
  intros. unfold header32. repeat (apply Forall_cons; split); try apply u8_byte; try apply land_ff_byte;
    try apply Forall_nil_2; done.
Qed.

Lemma trailer_bytes n : Forall byte (trailer_v4 n) /\ Forall byte (trailer_v5 n).
Proof.
  split; unfold trailer_v4, trailer_v5; repeat (apply Forall_cons; split); try apply u8_byte; try apply land_ff_byte;
    try apply Forall_nil_2; unfold byte; lia.
Qed.

Lemma whole_octets p : wf_packet p -> chunk_octets (whole p) = pkt_data p.
Proof. intros [Hl _]. unfold chunk_octets, whole, zlen in *. cbn [fst snd]. by rewrite Hl, Nat2Z.id, firstn_all. Qed.

Lemma packet_chunks_ok kh o :
  (forall n, Forall byte (kh n)) -> (forall p, o = Some p -> wf_packet p) ->
  Forall chunk_ok (packet_chunks kh o) /\ Forall chunk_ok (packet_chunks_v3 o) /\
  zlen (packet_chunks kh o) <= 2 /\ zlen (packet_chunks_v3 o) <= 2.
Proof.
  destruct o as [p|]; [|done]. intros Hkh Hp. specialize (Hp p eq_refl).
  assert (Hw : chunk_ok (whole p)) by (by apply whole_ok).
  assert (H2 : forall bs, Forall byte bs -> Forall chunk_ok [local_chunk bs; whole p])
    by (intros; apply Forall_cons; split; [by apply local_chunk_ok | by apply Forall_singleton]).
  unfold packet_chunks, packet_chunks_v3.
  repeat case_if; repeat split; try apply H2; try (by apply Forall_singleton); try apply Hkh;
    try (apply header16_bytes; unfold byte; lia); try (apply header32_bytes; unfold byte; lia); done.
Qed.

(** The end of the function on chunks that are inside their objects. *)
Lemma finish_sighash_ok halgo cs off :
  Forall chunk_ok cs -> zlen cs <= 8 ->
  finish_sighash halgo cs off =
    if hash_supported halgo
    then h ← digest_chunks halgo (map chunk_octets cs); Done (mkSighash ONAK_E_OK halgo (Some h) (Some off))
    else Done (mkSighash ONAK_E_UNSUPPORTED_FEATURE halgo None (Some off)).
Proof.
  intros Hc Hn. unfold finish_sighash, onak_hash. cbn [hd_chunks hd_hashtype].
  rewrite (proj2 (Z.ltb_ge _ _)) by (unfold MAX_HASH_CHUNKS; lia).
  case_if; [|done]. rewrite hash_updates_ok by done. cbn [mbind outcome_bind].
  by destruct (digest_chunks halgo (map chunk_octets cs)).
Qed.

(** Chunks of known lengths without a lone octet have the digest of their
    concatenation. *)
Lemma no_lone_lengths cs : forall m,
  no_lone_chunk (zlen m) (map zlen cs) = true -> no_lone m cs = true.
Proof.
  induction cs as [|c cs IH]; intros m; cbn [map no_lone_chunk no_lone]; [done|].
  rewrite !andb_true_iff, !negb_true_iff, <- zlen_app. intros [Hl Hr]. split; [|by apply IH].
  unfold lone. rewrite <- Hl. unfold zlen. f_equal.
  - induction (length m) as [|n IHn]; [done|]. rewrite Nat2Z.inj_succ, Nat.odd_succ, Z.odd_succ.
    by rewrite <- Nat.negb_odd, <- Z.negb_odd, IHn.
  - destruct (Nat.eqb_spec (length c) 1), (Z.eqb_spec (Z.of_nat (length c)) 1); lia || done.
Qed.

Lemma digest_chunks_ok algo cs :
  Forall (Forall byte) cs -> (algo = OPENPGP_HASH_SHA1X -> no_lone_chunk 0 (map zlen cs) = true) ->
  digest_chunks algo cs = Done (digest_of algo (concat cs)).
Proof.
  intros Hb Hn. unfold digest_chunks, digest_of. destruct (Z.eqb_spec algo OPENPGP_HASH_SHA1X) as [->|]; [|done].
  rewrite sha1x_correct; [|done | by apply no_lone_lengths, Hn | done].
  pose proof (sha1x_halves_size (evens (concat cs)) (odds (concat cs))) as Hz. unfold zlen in Hz.
  change (Z.to_nat (Z.min 40 SHA1X_DIGEST_SIZE)) with 40%nat. unfold sha1x. rewrite take_ge by lia. done.
Qed.

(** Any chunks have some digest, of the size of the algorithm. *)
Lemma digest_chunks_total algo cs :
  Forall (Forall byte) cs -> exists d, digest_chunks algo cs = Done d /\ zlen d = digest_size algo.
Proof.
  intros Hb. unfold digest_chunks. destruct (Z.eqb_spec algo OPENPGP_HASH_SHA1X) as [->|].
  - destruct (sha1x_of_total words_bigendian cs Hb) as (d & E & Hz & _). by exists d.
  - eexists. split; [done | apply hash_size].
Qed.

(** * The hash input is what the formats say *)

(** The key header of the code for a signature version. *)
Definition keyheader_of (version : Z) : Z -> list Z :=
  if version =? 5 then header16_v5 else header16 0x99.

Lemma keyheader_octets v p :
  wf_packet p -> pkt_length p < 2 ^ 16 ->
  keyheader_of v (pkt_length p) ++ pkt_data p = key_octets v p.
Proof.
  intros [Hl _] Hp. pose proof (zlen_nonneg (pkt_data p)). unfold keyheader_of, key_octets.
  case_if; [rewrite header16_v5_be by lia | rewrite header16_be by lia]; done.
Qed.

Lemma key_chunks_octets v key :
  wf_packet (pk_publickey key) -> pkt_length (pk_publickey key) < 2 ^ 16 ->
  concat (map chunk_octets (key_chunks (keyheader_of v) key)) = key_octets v (pk_publickey key).
Proof.
  intros. unfold key_chunks. cbn [map concat]. rewrite local_chunk_octets, whole_octets, app_nil_r by done.
  by apply keyheader_octets.
Qed.

Lemma packet_chunks_octets v o :
  target_ok o ->
  concat (map chunk_octets (if v <? 4 then packet_chunks_v3 o else packet_chunks (keyheader_of v) o))
    = target_octets v o.
Proof.
  destruct o as [p|]; [|by case_if]. intros [Hp Hn]. unfold packet_chunks_v3, packet_chunks, target_octets.
  pose proof (zlen_nonneg (pkt_data p)). pose proof (wf_packet_len _ Hp).
  destruct (pkt_tag p =? OPENPGP_PACKET_PUBLICSUBKEY).
  - rewrite <- keyheader_octets by done. case_if; cbn [map concat];
      rewrite local_chunk_octets, whole_octets, app_nil_r by done; [|done].
    unfold keyheader_of. zbool. by rewrite (proj2 (Z.eqb_neq v 5)) by lia.
  - case_if; [by cbn [map concat]; rewrite whole_octets, app_nil_r by done|].
    destruct (pkt_tag p =? OPENPGP_PACKET_UID), (pkt_tag p =? OPENPGP_PACKET_UAT); cbn [orb map concat];
      rewrite ?local_chunk_octets, whole_octets, app_nil_r, ?header32_be by lia || done; done.
Qed.

Lemma target_ok_wf o : target_ok o -> forall p, o = Some p -> wf_packet p.
Proof. intros Ho p ->. apply Ho. Qed.

Lemma be_value_2 n : 0 <= n < 65536 -> Z.shiftl (n / 256 mod 256) 8 + n mod 256 = n.
Proof.
  intros. rewrite shiftl_8, (Z.mod_small (n / 256)) by (split; [apply Z.div_pos | apply Z.div_lt_upper_bound]; lia).
  pose proof (Z_div_mod_eq_full n 256). lia.
Qed.

Lemma encode_hashed_len v t pk h hashed : zlen (encode_hashed v t pk h hashed) = 6 + zlen hashed.
Proof. unfold encode_hashed. rewrite be_bytes_2. autorewrite with onak. lia. Qed.

(** The version 4 and 5 code on an encoded signature. *)
Lemma sighash_v4_v5_correct kh tr key o sig v t pk h hashed unhashed left16 mpis :
  pkt_data sig = encode_signature (SigV4 v t pk h hashed unhashed left16 mpis) ->
  pkt_length sig = zlen (pkt_data sig) ->
  zlen hashed < 65536 -> zlen unhashed < 65536 -> zlen left16 = 2 ->
  sighash_v4_v5 kh tr key o sig =
    finish_sighash h
      (key_chunks kh key ++ packet_chunks kh o ++
       [(pkt_data sig, 6 + zlen hashed); local_chunk (tr (6 + zlen hashed))])
      (6 + zlen hashed + zlen unhashed + 2).
Proof.
  intros Hd Hl Hh Hu H2. unfold sighash_v4_v5. rewrite Hl, Hd. cbn [encode_signature].
  set (rest := be_bytes 2 (zlen unhashed) ++ unhashed ++ left16 ++ mpis).
  pose proof (encode_hashed_len v t pk h hashed) as Hel.
  pose proof (zlen_nonneg hashed). pose proof (zlen_nonneg unhashed). pose proof (zlen_nonneg mpis).
  assert (Hr : zlen rest = 2 + zlen unhashed + 2 + zlen mpis)
    by (unfold rest; rewrite be_bytes_2; autorewrite with onak; lia).
  assert (E3 : (encode_hashed v t pk h hashed ++ rest).[3] = Done h) by done.
  assert (E4 : (encode_hashed v t pk h hashed ++ rest).[4] = Done (zlen hashed / 256 mod 256)) by done.
  assert (E5 : (encode_hashed v t pk h hashed ++ rest).[5] = Done (zlen hashed mod 256)) by done.
  rewrite E3, E4, E5. cbn [mbind outcome_bind]. rewrite be_value_2 by lia.
  rewrite (Z.add_comm (zlen hashed) 6).
  rewrite zlen_app, Hel, Hr, (proj2 (Z.ltb_ge _ _)) by lia.
  rewrite !rd_app_r by lia. rewrite Hel.
  replace (6 + zlen hashed - (6 + zlen hashed)) with 0 by lia.
  replace (6 + zlen hashed + 1 - (6 + zlen hashed)) with 1 by lia.
  assert (E0 : rest.[0] = Done (zlen unhashed / 256 mod 256)) by done.
  assert (E1 : rest.[1] = Done (zlen unhashed mod 256)) by done.
  rewrite E0, E1. cbn [mbind outcome_bind]. rewrite be_value_2 by lia.
  by rewrite (proj2 (Z.ltb_ge _ _)) by lia.
Qed.

Lemma drop_zlen_app {A} (xs ys : list A) n : Z.to_nat n = length xs -> drop (Z.to_nat n) (xs ++ ys) = ys.
Proof. intros ->. by rewrite drop_app_length. Qed.

Lemma sig_v4_left v t pk h hashed unhashed left16 mpis :
  zlen left16 = 2 ->
  take 2 (drop (Z.to_nat (6 + zlen hashed + zlen unhashed + 2))
    (encode_signature (SigV4 v t pk h hashed unhashed left16 mpis))) = left16.
Proof.
  intros H2. cbn [encode_signature].
  set (pre := encode_hashed v t pk h hashed ++ be_bytes 2 (zlen unhashed) ++ unhashed).
  assert (Hp : zlen pre = 6 + zlen hashed + zlen unhashed + 2)
    by (unfold pre; rewrite be_bytes_2; autorewrite with onak; rewrite encode_hashed_len; lia).
  replace (encode_hashed v t pk h hashed ++ be_bytes 2 (zlen unhashed) ++ unhashed ++ left16 ++ mpis)
    with (pre ++ left16 ++ mpis) by (unfold pre; by rewrite <- !app_assoc).
  rewrite <- Hp. unfold zlen in H2 |- *. rewrite Nat2Z.id, drop_app_length. apply take_app_length'. lia.
Qed.

(** * Memory safety *)

Lemma buf_is_ok bs : forall buf i, 0 <= i -> i + zlen bs <= zlen buf -> exists b, buf_is buf i bs = Done b.
Proof.
  induction bs as [|b bs IH]; intros buf i Hi Hn; [by exists true|]. rewrite zlen_cons in Hn.
  pose proof (zlen_nonneg bs). cbn [buf_is]. destruct (rd_ok buf i) as [x ->]; [lia|]. cbn [mbind outcome_bind].
  case_if; [apply IH; lia | by exists false].
Qed.

(** The length the subpacket parser reports is the one in front of the area. *)
Lemma parsed_area_length data len k c rc n k' c' h l :
  parse_subpackets data len k c = Done (rc, Some n, k', c') ->
  data.[0] = Done h -> data.[1] = Done l -> n = Z.shiftl h 8 + l + 2.
Proof.
  unfold parse_subpackets. intros E H0 H1. revert E. rewrite H0, H1. cbn [mbind outcome_bind]. case_if; [done|].
  case_if; [done|]. intros E. inv_done. destruct x as [[? ?] ?]. by inv_done.
Qed.

Lemma x509_check_safe sig :
  wf_packet sig -> 10 <= pkt_length sig < 2 ^ 64 ->
  exists d2 r, (pkt_data sig).[2] = Done d2 /\ x509_check sig = Done r /\
    (r = None -> d2 = 0 \/ d2 = 100 -> exists h l, (pkt_data sig).[4] = Done h /\ (pkt_data sig).[5] = Done l /\
      Z.shiftl h 8 + l + 6 + 7 <= pkt_length sig) /\
    (d2 <> 0 -> d2 <> 100 -> r = None).
Proof.
  intros Hwf Hl. destruct Hwf as [Hlen Hb]. unfold x509_check.
  destruct (rd_ok_byte (pkt_data sig) 2) as (d2 & E2 & _); [done | lia |]. rewrite E2. cbn [mbind outcome_bind].
  exists d2. case_if.
  2: { apply orb_false_iff in Heqb as [? ?]. zbool. exists None. split; [done|]. split; [done|]. split; [lia | done]. }
  destruct (parse_subpackets_upd (drop 4 (pkt_data sig)) (pkt_length sig - 4))
    as (rc & l & uk & uc & Huk & Huc & Hn & Hok & E).
  { by apply Forall_drop. }
  { unfold zlen in *. rewrite length_drop. lia. }
  rewrite u64_small, E by lia. cbn [mbind outcome_bind].
  assert (Hd2 : d2 = 0 \/ d2 = 100) by (apply orb_true_iff in Heqb as [?|?]; zbool; auto).
  destruct (status_ok rc) eqn:Erc; cbn [negb].
  2: { exists (Some rc). repeat split; [done | lia]. }
  destruct Hok as [n ->]; [by destruct rc|]. specialize (Hn n eq_refl). cbn [default from_option id].
  case_if; [exists (Some ONAK_E_INVALID_PKT); repeat split; [done | lia]|]. zbool.
  destruct (rd_ok_byte (pkt_data sig) 4) as (h & E4 & _); [done | lia |].
  destruct (rd_ok_byte (pkt_data sig) 5) as (l & E5 & _); [done | lia |].
  assert (Hsz : n = Z.shiftl h 8 + l + 2).
  { eapply parsed_area_length; [apply (E None None) | |]; rewrite rd_drop by lia; done. }
  assert (Hk : exists k, read_var (default None (upd (Some (Some 0)) uk)) = Done k) by (destruct uk; eauto).
  destruct Hk as [k ->]. cbn [mbind outcome_bind].
  assert (Hfin : forall r, Done r = Done r /\ (r = None -> d2 = 0 \/ d2 = 100 ->
     exists h l, (pkt_data sig).[4] = Done h /\ (pkt_data sig).[5] = Done l /\
       Z.shiftl h 8 + l + 6 + 7 <= pkt_length sig) /\ (d2 <> 0 -> d2 <> 100 -> r = None :> option onak_status_t)).
  { intros r. split; [done|]. split; [|lia]. intros _ _. exists h, l. rewrite E4, E5. repeat split; lia. }
  case_if; [|exists None; split; [done|]; apply Hfin].
  destruct (buf_is_ok [0; 0; 0; 0; 0; 1; 1] (pkt_data sig) (4 + n)) as [b ->]; [lia | autorewrite with onak; lia |].
  cbn [mbind outcome_bind]. eexists. split; [done|]. apply Hfin.
Qed.

Lemma x509_check_not_ok sig : x509_check sig <> Done (Some ONAK_E_OK).
Proof.
  unfold x509_check. intros E.
  repeat (inv_done; match goal with
    | H : context [if ?b then _ else _] |- _ => destruct b eqn:?
    | p : (_ * _)%type |- _ => destruct p
    end); inv_done; try discriminate.
Qed.

(** The hashed area ends less than two octets before the end of the packet, in
    a packet of a version and algorithm for which nothing checks that. *)
Definition sig_truncated (sig : openpgp_packet) : bool :=
  match pkt_data sig with
  | v :: _ :: pk :: _ :: h :: l :: _ =>
      let siglen := Z.shiftl h 8 + l + 6 in
      ((v =? 5) || (v =? 4) && negb ((pk =? 0) || (pk =? 100))) &&
      (siglen <=? pkt_length sig) && (pkt_length sig <? siglen + 2)
  | _ => false
  end.

(** A result the caller can use: the digest fits a 64 byte buffer, the two
    octets to compare it with are inside the packet, and success provides
    both. *)
Definition sighash_usable (sig : openpgp_packet) (r : sighash_result) : Prop :=
  (forall off, sh_sighash r = Some off -> 0 <= off /\ off + 2 <= pkt_length sig) /\
  (forall d, sh_hash r = Some d -> zlen d = digest_size (sh_hashtype r) /\ 16 <= zlen d <= 64) /\
  (sh_status r = ONAK_E_OK -> is_Some (sh_hash r) /\ is_Some (sh_sighash r)).

Lemma hash_supported_size a : hash_supported a = true -> 16 <= digest_size a <= 64.
Proof.
  unfold hash_supported, digest_size. intros H.
  repeat match type of H with context [?x =? ?y] => destruct (x =? y); [repeat case_if; lia|] end.
  cbn in H. rewrite andb_false_r in H. done.
Qed.

Lemma finish_sighash_usable sig halgo cs off :
  Forall chunk_ok cs -> zlen cs <= 8 -> 0 <= off -> off + 2 <= pkt_length sig ->
  exists r, finish_sighash halgo cs off = Done r /\ sighash_usable sig r.
Proof.
  intros Hc Hn Ho Ho2. rewrite finish_sighash_ok by done. unfold sighash_usable.
  case_if; [|eexists; split; [done|]; cbn; split; [intros ? [= <-]; lia | done]].
  destruct (digest_chunks_total halgo _ (chunks_bytes cs Hc)) as (d & -> & Hd). cbn [mbind outcome_bind].
  eexists. split; [done|]. cbn. split; [intros ? [= <-]; lia|]. split; [|split; eauto].
  intros ? [= <-]. rewrite Hd. split; [done|]. by apply hash_supported_size.
Qed.

Lemma early_usable sig rc h : rc <> ONAK_E_OK -> sighash_usable sig (mkSighash rc h None None).
Proof. intros Hr. by split. Qed.

Lemma chunks_usable kh key o (rest : list (list Z * Z)) :
  (forall n, Forall byte (kh n)) -> wf_packet (pk_publickey key) -> (forall p, o = Some p -> wf_packet p) ->
  Forall chunk_ok rest -> zlen rest <= 2 ->
  (Forall chunk_ok (key_chunks kh key ++ packet_chunks kh o ++ rest) /\
   zlen (key_chunks kh key ++ packet_chunks kh o ++ rest) <= 8) /\
  (Forall chunk_ok (key_chunks kh key ++ packet_chunks_v3 o ++ rest) /\
   zlen (key_chunks kh key ++ packet_chunks_v3 o ++ rest) <= 8).
Proof.
  intros Hkh Hk Ho Hr Hn. destruct (packet_chunks_ok kh o Hkh Ho) as (? & ? & ? & ?).
  assert (Hkc : Forall chunk_ok (key_chunks kh key))
    by (apply Forall_cons; split; [by apply local_chunk_ok | apply Forall_singleton; by apply whole_ok]).
  split; (split; [by repeat (apply Forall_app; split) | autorewrite with onak; unfold key_chunks;
    autorewrite with onak; lia]).
Qed.

Lemma sighash_v4_v5_safe kh tr key o sig h l :
  (forall n, Forall byte (kh n)) -> (forall n, Forall byte (tr n)) -> wf_packet (pk_publickey key) -> (forall p, o = Some p -> wf_packet p) ->
  wf_packet sig -> 10 <= pkt_length sig ->
  (pkt_data sig).[4] = Done h -> (pkt_data sig).[5] = Done l ->
  let siglen := Z.shiftl h 8 + l + 6 in
  if (siglen <=? pkt_length sig) && (pkt_length sig <? siglen + 2)
  then sighash_v4_v5 kh tr key o sig = Fault OutOfBounds
  else exists r, sighash_v4_v5 kh tr key o sig = Done r /\ sighash_usable sig r.
Proof.
  intros Hkh Htr Hk Ho [Hl Hb] H10 E4 E5 siglen. unfold sighash_v4_v5.
  destruct (rd_ok_byte (pkt_data sig) 3) as (h3 & -> & _); [done | lia |]. rewrite E4, E5.
  cbn [mbind outcome_bind]. fold siglen.
  pose proof (rd_byte _ _ _ Hb E4) as B4. pose proof (rd_byte _ _ _ Hb E5) as B5. unfold byte in B4, B5.
  assert (Hs : 6 <= siglen) by (unfold siglen; rewrite shiftl_8; lia). clearbody siglen.
  destruct (Z.ltb_spec (pkt_length sig) siglen) as [Hlt|Hge].
  { rewrite (proj2 (Z.leb_gt _ _)) by lia. cbn [andb]. eexists. split; [done|]. by apply early_usable. }
  rewrite (proj2 (Z.leb_le _ _)) by lia. cbn [andb].
  destruct (Z.ltb_spec (pkt_length sig) (siglen + 2)).
  { destruct (decide (siglen = pkt_length sig)) as [->|].
    { rewrite (rd_oob _ (pkt_length sig)) by lia. done. }
    destruct (rd_ok_byte (pkt_data sig) siglen) as (x & -> & _); [done | lia |].
    cbn [mbind outcome_bind]. by rewrite rd_oob by lia. }
  destruct (rd_ok_byte (pkt_data sig) siglen) as (x & -> & Hx); [done | lia |].
  destruct (rd_ok_byte (pkt_data sig) (siglen + 1)) as (y & -> & Hy); [done | lia |].
  cbn [mbind outcome_bind]. unfold byte in *. rewrite shiftl_8.
  case_if; [eexists; split; [done|]; by apply early_usable|]. zbool.
  destruct (chunks_usable kh key o [(pkt_data sig, siglen); local_chunk (tr siglen)]) as [[? ?] _];
    [done | done | done | | done | apply finish_sighash_usable; [done | done | lia | lia]].
  apply Forall_cons. split; [|by apply Forall_singleton, local_chunk_ok]. unfold chunk_ok. cbn. split; [lia | done].
Qed.

Lemma sighash_v3_safe key o sig :
  wf_packet (pk_publickey key) -> (forall p, o = Some p -> wf_packet p) -> wf_packet sig ->
  exists r, sighash_v3 key o sig = Done r /\ sighash_usable sig r.
Proof.
  intros Hk Ho [Hl Hb]. unfold sighash_v3.
  case_if; [eexists; split; [done|]; by apply early_usable|]. zbool.
  destruct (rd_ok_byte (pkt_data sig) 16) as (h & -> & _); [done | lia |]. cbn [mbind outcome_bind].
  destruct (chunks_usable (header16 0x99) key o [(drop 2 (pkt_data sig), 5)]) as [_ [? ?]];
    [by intros; apply header16_bytes | done | done | | done | apply finish_sighash_usable; [done | done | lia | lia]].
  apply Forall_singleton. unfold chunk_ok, zlen in *. cbn. rewrite length_drop. split; [lia | by apply Forall_drop].
Qed.

(** * Whole signatures *)

(** The lengths of the chunks of the code. *)
Lemma chunk_octets_zlen c : chunk_ok c -> zlen (chunk_octets c) = c.2.
Proof. intros [Hc _]. unfold chunk_octets, zlen in *. rewrite length_take. lia. Qed.

Lemma chunks_zlen cs : Forall chunk_ok cs -> map zlen (map chunk_octets cs) = map snd cs.
Proof.
  induction 1 as [|c cs Hc _ IH]; [done|]. cbn [map]. by rewrite chunk_octets_zlen, IH.
Qed.

Lemma keyheader_zlen v n : zlen (keyheader_of v n) = if v =? 5 then 5 else 3.
Proof. unfold keyheader_of. by destruct (v =? 5). Qed.

Lemma keyheader_bytes v n : Forall byte (keyheader_of v n).
Proof. unfold keyheader_of. case_if; [apply header16_v5_bytes | apply header16_bytes; unfold byte; lia]. Qed.

Lemma key_packet_lengths v key o :
  map snd (key_chunks (keyheader_of v) key ++ (if v <? 4 then packet_chunks_v3 o else packet_chunks (keyheader_of v) o)) =
  [if v =? 5 then 5 else 3; pkt_length (pk_publickey key)] ++
  match o with
  | None => []
  | Some p =>
      if pkt_tag p =? OPENPGP_PACKET_PUBLICSUBKEY then [if v =? 5 then 5 else 3; pkt_length p]
      else if (v <? 4) || negb ((pkt_tag p =? OPENPGP_PACKET_UID) || (pkt_tag p =? OPENPGP_PACKET_UAT))
      then [pkt_length p]
      else [5; pkt_length p]
  end.
Proof.
  rewrite map_app. unfold key_chunks, packet_chunks_v3, packet_chunks. cbn [map app snd local_chunk whole].
  rewrite keyheader_zlen. do 2 f_equal. destruct o as [p|]; [|by case_if].
  destruct (pkt_tag p =? OPENPGP_PACKET_PUBLICSUBKEY).
  - destruct (Z.ltb_spec v 4); cbn [map snd local_chunk whole]; rewrite ?keyheader_zlen; [|done].
    by rewrite (proj2 (Z.eqb_neq v 5)) by lia.
  - destruct (Z.ltb_spec v 4); [done|].
    by destruct (pkt_tag p =? OPENPGP_PACKET_UID), (pkt_tag p =? OPENPGP_PACKET_UAT).
Qed.

(** A signature whose digest is not the double width SHA-1, or whose chunks
    have no lone octet. *)
Definition digest_sound (key : openpgp_publickey) (o : option openpgp_packet) (s : signature) : Prop :=
  sig_hashalgo s = OPENPGP_HASH_SHA1X -> no_lone_chunk 0 (chunk_lengths key o s) = true.

Lemma finish_sighash_digest halgo cs off m :
  Forall chunk_ok cs -> zlen cs <= 8 -> hash_supported halgo = true -> concat (map chunk_octets cs) = m ->
  (halgo = OPENPGP_HASH_SHA1X -> no_lone_chunk 0 (map snd cs) = true) ->
  finish_sighash halgo cs off = Done (mkSighash ONAK_E_OK halgo (Some (digest_of halgo m)) (Some off)).
Proof.
  intros Hc Hn Hh <- Hl. rewrite finish_sighash_ok, Hh by done.
  rewrite digest_chunks_ok; [done | by apply chunks_bytes | by rewrite chunks_zlen].
Qed.

Lemma sighash_v3_correct key o sig v t time keyid pk h left16 mpis :
  let s := SigV3 v t time keyid pk h left16 mpis in
  wf_packet (pk_publickey key) -> pkt_length (pk_publickey key) < 2 ^ 16 -> target_ok o ->
  signature_ok s -> hash_supported h = true -> digest_sound key o s -> Forall byte (pkt_data sig) ->
  pkt_data sig = encode_signature s -> pkt_length sig = zlen (pkt_data sig) ->
  sighash_v3 key o sig = Done (mkSighash ONAK_E_OK h (Some (digest_of h (signed_octets key o s))) (Some 17)) /\
  take 2 (drop 17 (pkt_data sig)) = left16.
Proof.
  intros s Hk Hk16 Ho (Hv & Ht & Hkid & Hleft) Hh Hsound Hb Hd Hl. pose proof (zlen_nonneg mpis).
  assert (Hlen : zlen (pkt_data sig) = 19 + zlen mpis)
    by (rewrite Hd; cbn [s encode_signature]; autorewrite with onak; lia).
  unfold sighash_v3. rewrite (proj2 (Z.ltb_ge _ _)) by lia.
  assert (E : drop 2 (pkt_data sig) = (t :: time) ++ keyid ++ [pk; h] ++ left16 ++ mpis) by (by rewrite Hd).
  assert (E16 : (pkt_data sig).[16] = Done h).
  { change 16 with (Z.of_nat 2 + 14). rewrite <- rd_drop, E by lia.
    rewrite rd_app_r by (rewrite zlen_cons; lia). rewrite rd_app_r by (rewrite zlen_cons; lia).
    rewrite zlen_cons, Ht, Hkid. done. }
  rewrite E16. cbn [mbind outcome_bind].
  destruct (chunks_usable (header16 0x99) key o [(drop 2 (pkt_data sig), 5)]) as [_ [Hc Hn]];
    [by intros; apply header16_bytes | done | by apply target_ok_wf | apply Forall_singleton; unfold chunk_ok, zlen in *; cbn; rewrite length_drop; split; [lia | by apply Forall_drop] | done |].
  split.
  - apply finish_sighash_digest; [done | done | done | |].
    2: { intros H4. specialize (Hsound H4). unfold chunk_lengths in Hsound. cbn [s sig_format_version] in Hsound.
         pose proof (key_packet_lengths v key o) as El. unfold keyheader_of in El.
         rewrite (proj2 (Z.eqb_neq v 5)), (proj2 (Z.ltb_lt v 4)) in El by lia.
         rewrite (proj2 (Z.eqb_neq v 5)), (proj2 (Z.ltb_lt v 4)) in Hsound by lia.
         rewrite app_assoc, map_app, El, <- app_assoc. exact Hsound. }
    rewrite !map_app, !concat_app. unfold signed_octets. cbn [s sig_format_version].
    pose proof (key_chunks_octets v key Hk Hk16) as Ek. pose proof (packet_chunks_octets v o Ho) as Ep.
    unfold keyheader_of in Ek. rewrite (proj2 (Z.eqb_neq v 5)) in Ek by lia.
    rewrite (proj2 (Z.ltb_lt v 4)) in Ep by lia. rewrite Ek, Ep. do 3 f_equal. cbn [map concat].
    rewrite app_nil_r, E. unfold chunk_octets. cbn [fst snd]. apply (take_app_length' (t :: time)).
    unfold zlen in Ht. cbn. lia.
  - change 17%nat with (2 + 15)%nat. rewrite <- drop_drop, E.
    replace ((t :: time) ++ keyid ++ [pk; h] ++ left16 ++ mpis) with
      (((t :: time) ++ keyid ++ [pk; h]) ++ left16 ++ mpis) by (by rewrite <- !app_assoc).
    unfold zlen in *. rewrite drop_app_length' by (cbn; rewrite !length_app; cbn; lia).
    apply take_app_length'. lia.
Qed.

Lemma sighash_v4_correct tr key o sig v t pk h hashed unhashed left16 mpis :
  let s := SigV4 v t pk h hashed unhashed left16 mpis in
  wf_packet (pk_publickey key) -> pkt_length (pk_publickey key) < 2 ^ 16 -> target_ok o ->
  signature_ok s -> hash_supported h = true -> digest_sound key o s -> Forall byte (pkt_data sig) ->
  pkt_data sig = encode_signature s -> pkt_length sig = zlen (pkt_data sig) ->
  (forall n, Forall byte (tr n)) ->
  tr (6 + zlen hashed) = [v; 0xFF] ++ be_bytes (if v =? 5 then 8 else 4) (6 + zlen hashed) ->
  sighash_v4_v5 (keyheader_of v) tr key o sig =
    Done (mkSighash ONAK_E_OK h (Some (digest_of h (signed_octets key o s)))
      (Some (6 + zlen hashed + zlen unhashed + 2))).
Proof.
  intros s Hk Hk16 Ho (Hv & Hha & Hun & Hleft) Hh Hsound Hb Hd Hl Htr Etr.
  pose proof (zlen_nonneg hashed). pose proof (encode_hashed_len v t pk h hashed) as Hel.
  assert (Hlen : 6 + zlen hashed <= zlen (pkt_data sig)).
  { rewrite Hd. cbn [s encode_signature]. rewrite zlen_app, Hel.
    pose proof (zlen_nonneg (be_bytes 2 (zlen unhashed) ++ unhashed ++ left16 ++ mpis)). lia. }
  rewrite (sighash_v4_v5_correct _ _ _ _ _ v t pk h hashed unhashed left16 mpis) by done.
  destruct (chunks_usable (keyheader_of v) key o [(pkt_data sig, 6 + zlen hashed); local_chunk (tr (6 + zlen hashed))])
    as [[Hc Hn] _]; [apply keyheader_bytes | done | by apply target_ok_wf | | done |].
  { apply Forall_cons. split; [unfold chunk_ok; cbn; split; [lia | done] | by apply Forall_singleton, local_chunk_ok]. }
  apply finish_sighash_digest; [done | done | done | |].
  2: { intros H4. specialize (Hsound H4). unfold chunk_lengths in Hsound. cbn [s sig_format_version] in Hsound.
       pose proof (key_packet_lengths v key o) as El.
       rewrite (proj2 (Z.ltb_ge v 4)) in El by lia. rewrite (proj2 (Z.ltb_ge v 4)) in Hsound by lia.
       rewrite app_assoc, map_app, El, <- app_assoc. cbn [map snd local_chunk]. rewrite Etr.
       replace (zlen ([v; 255] ++ be_bytes (if v =? 5 then 8 else 4) (6 + zlen hashed))) with (if v =? 5 then 10 else 6)
         by (by destruct (v =? 5)).
       exact Hsound. }
  rewrite !map_app, !concat_app. unfold signed_octets. cbn [s sig_format_version].
  rewrite key_chunks_octets by done.
  pose proof (packet_chunks_octets v o Ho) as Ep. rewrite (proj2 (Z.ltb_ge v 4)) in Ep by lia. rewrite Ep.
  assert (Et : chunk_octets (pkt_data sig, 6 + zlen hashed) = encode_hashed v t pk h hashed).
  { rewrite Hd, <- Hel. unfold chunk_octets, zlen. cbn [s fst snd encode_signature].
    rewrite Nat2Z.id. apply take_app_length. }
  cbn [map concat]. by rewrite local_chunk_octets, app_nil_r, Etr, Et.
Qed.

Lemma sighash_readable key o sig :
  wf_packet (pk_publickey key) -> (forall p, o = Some p -> wf_packet p) -> wf_packet sig ->
  10 <= pkt_length sig < 2 ^ 64 ->
  if sig_truncated sig then calculate_packet_sighash key o sig = Fault OutOfBounds
  else exists r, calculate_packet_sighash key o sig = Done r /\ sighash_usable sig r.
Proof.
  intros Hk Ho Hs H10. destruct (x509_check_safe sig Hs H10) as (d2 & r & E2 & Ex & Hr & Hn).
  unfold calculate_packet_sighash. rewrite (proj2 (Z.ltb_ge _ _)) by lia.
  pose proof Hs as [Hl Hb].
  destruct (pkt_data sig) as [|v [|? [|pk [|h3 [|h [|l rest]]]]]] eqn:Ed;
    try (exfalso; unfold zlen in Hl; cbn in Hl; lia).
  assert (E4 : (pkt_data sig).[4] = Done h) by (by rewrite Ed).
  assert (E5 : (pkt_data sig).[5] = Done l) by (by rewrite Ed).
  injection E2 as <-. rewrite rd_cons_0. cbn [mbind outcome_bind].
  unfold sig_truncated. rewrite Ed.
  pose proof (fun kh tr Hkh Htr => sighash_v4_v5_safe kh tr key o sig h l Hkh Htr Hk Ho Hs (proj1 H10) E4 E5) as Hsafe.
  cbn zeta in Hsafe. assert (H99 : forall n, Forall byte (header16 0x99 n)) by (intros; apply header16_bytes; unfold byte; lia).
  assert (Ht4 : forall n, Forall byte (trailer_v4 n)) by apply trailer_bytes.
  destruct (Z.eqb_spec v 5) as [->|Hv5];
    [cbn [Z.eqb Pos.eqb orb andb]; apply Hsafe; [apply header16_v5_bytes | apply trailer_bytes]|].
  destruct (Z.eqb_spec v 4) as [->|Hv4].
  - cbn [Z.eqb Pos.eqb orb andb]. rewrite Ex. cbn [mbind outcome_bind].
    destruct ((pk =? 0) || (pk =? 100)) eqn:Epk; cbn [negb andb].
    + apply orb_true_iff in Epk. assert (pk = 0 \/ pk = 100) as Hpk by (destruct Epk; zbool; auto).
      destruct r as [rc|].
      { eexists. split; [done|]. split; [done|]. split; [done|]. cbn. intros ->.
        exfalso. eapply x509_check_not_ok. exact Ex. }
      destruct (Hr eq_refl Hpk) as (h' & l' & [= <-] & [= <-] & Hlen).
      specialize (Hsafe (header16 0x99) trailer_v4 H99 Ht4). rewrite (proj2 (Z.ltb_ge (pkt_length sig) _)) in Hsafe by lia.
      by rewrite andb_false_r in Hsafe.
    + apply orb_false_iff in Epk as [? ?]. zbool. rewrite Hn by done. by apply Hsafe.
  - cbn [orb andb]. case_if; [by apply sighash_v3_safe|].
    eexists. split; [done|]. by apply early_usable.
Qed.

End Sighash.

(** * Properties *)

(** C8: for a signature in any of the formats of versions 2 to 5, on a key
    alone, a user id, a user attribute or a subkey, the digest that is computed
    is the one of the octets OpenPGP prescribes, in order: the key with its
    header, the certified packet with the header of its kind, the hashed part
    of the signature and the trailer of its version; the algorithm is the one
    the signature names, and the pointer that is returned is at the two octets
    of the digest the signature carries.  For the double width SHA-1 this needs
    that no chunk which is hashed is a single octet behind an odd number of
    octets, such as the body of a one-octet user id: sha1x.c loses that octet. *)
Theorem sighash_correct {HF : Hashes} {BC : BuildConfig} key o sig s :
  wf_packet (pk_publickey key) -> pkt_length (pk_publickey key) < 2 ^ 16 -> target_ok o ->
  signature_ok s -> hash_supported (sig_hashalgo s) = true -> digest_sound key o s ->
  wf_packet sig -> pkt_data sig = encode_signature s ->
  exists off, calculate_packet_sighash key o sig =
      Done (mkSighash ONAK_E_OK (sig_hashalgo s)
        (Some (digest_of (sig_hashalgo s) (signed_octets key o s))) (Some off)) /\
    take 2 (drop (Z.to_nat off) (pkt_data sig)) = sig_left s.
Proof.
  intros Hk Hk16 Ho Hs Hh Hsound [Hl Hb] Hd. unfold calculate_packet_sighash.
  destruct s as [v t time keyid pk h left16 mpis | v t pk h hashed unhashed left16 mpis];
    cbn [sig_hashalgo sig_left] in *.
  - destruct (sighash_v3_correct key o sig v t time keyid pk h left16 mpis) as [E El]; try done.
    exists 17. split; [|done]. destruct Hs as (Hv & Ht & Hkid & Hleft).
    rewrite Hl, (proj2 (Z.ltb_ge _ _)) by
      (rewrite Hd; cbn [encode_signature]; autorewrite with onak; pose proof (zlen_nonneg mpis); lia).
    rewrite Hd at 1. cbn [encode_signature app]. rewrite rd_cons_0. cbn [mbind outcome_bind].
    replace ((v =? 2) || (v =? 3)) with true by (destruct Hv as [-> | ->]; done). done.
  - exists (6 + zlen hashed + zlen unhashed + 2).
    pose proof Hs as (Hv & Hha & _ & Hleft). split; [|rewrite Hd; by apply sig_v4_left].
    pose proof (zlen_nonneg hashed). pose proof (zlen_nonneg unhashed). pose proof (zlen_nonneg mpis).
    rewrite Hl, (proj2 (Z.ltb_ge _ _)) by (rewrite Hd; cbn [encode_signature]; rewrite be_bytes_2;
      autorewrite with onak; rewrite encode_hashed_len; lia).
    assert (E0 : (pkt_data sig).[0] = Done v) by (by rewrite Hd).
    assert (E2 : (pkt_data sig).[2] = Done pk) by (by rewrite Hd).
    rewrite E0. cbn [mbind outcome_bind].
    destruct Hv as [(-> & Hp1 & Hp2) | ->]; cbn [Z.eqb Pos.eqb orb].
    + unfold x509_check. rewrite E2. cbn [mbind outcome_bind].
      rewrite (proj2 (Z.eqb_neq pk 0)), (proj2 (Z.eqb_neq pk 100)) by done. cbn [orb mbind outcome_bind].
      rewrite <- (sighash_v4_correct trailer_v4 key o sig 4 t pk h hashed unhashed left16 mpis); try assumption;
        [reflexivity | apply trailer_bytes | apply trailer_v4_be; lia].
    + rewrite <- (sighash_v4_correct trailer_v5 key o sig 5 t pk h hashed unhashed left16 mpis); try assumption;
        [reflexivity | apply trailer_bytes | apply trailer_v5_be; lia].
Qed.

Definition sample_sigv5 : signature :=
  SigV4 5 0x13 1 8 [5; 2; 0; 0; 0; 1] [9; 16; 1; 2; 3; 4; 5; 6; 7; 8] [0xAB; 0xCD] [0; 1; 1].

Definition sample_pubkey : openpgp_packet := mkPacket OPENPGP_PACKET_PUBLICKEY true 6 [4; 0; 0; 0; 1; 1].

Lemma sighash_correct_witness :
  let key := mkKey sample_pubkey false [] [] [] in
  let uid := mkPacket OPENPGP_PACKET_UID true 3 [97; 98; 99] in
  let sig := mkPacket OPENPGP_PACKET_SIGNATURE true 29 (encode_signature sample_sigv5) in
  signed_octets key (Some uid) sample_sigv5 =
    [0x9A; 0; 0; 0; 6; 4; 0; 0; 0; 1; 1; 0xB4; 0; 0; 0; 3; 97; 98; 99;
     5; 0x13; 1; 8; 0; 6; 5; 2; 0; 0; 0; 1; 5; 0xFF; 0; 0; 0; 0; 0; 0; 0; 12] /\
  exists off, @calculate_packet_sighash toy_hashes full_build key (Some uid) sig =
      Done (mkSighash ONAK_E_OK 8
        (Some (@hash toy_hashes 8 (signed_octets key (Some uid) sample_sigv5))) (Some off)) /\
    take 2 (drop (Z.to_nat off) (pkt_data sig)) = [0xAB; 0xCD].
Proof.
  intros key uid sig. split; [vm_compute; reflexivity|].
  apply (@sighash_correct toy_hashes full_build key (Some uid) sig sample_sigv5);
    try (vm_compute; reflexivity).
  - split; [vm_compute; reflexivity | apply (bool_decide_unpack _); vm_compute; exact I].
  - split; [|vm_compute; reflexivity].
    split; [vm_compute; reflexivity | apply (bool_decide_unpack _); vm_compute; exact I].
  - repeat split; try (vm_compute; reflexivity). right. reflexivity.
  - split; [vm_compute; reflexivity | apply (bool_decide_unpack _); vm_compute; exact I].
Defined.

(** A certification of version 3 with the double width SHA-1 has the same digest
    for any two user ids of one octet: with a key packet of even length that
    octet comes at an odd position, and is lost. *)
Definition sha1x_certification : openpgp_packet :=
  mkPacket OPENPGP_PACKET_SIGNATURE true 19 (encode_signature (SigV3 3 0x10 [0; 0; 0; 1] (replicate 8 7) 1 OPENPGP_HASH_SHA1X [1; 2] [])).

Lemma sighash_sha1x_same :
  let key := mkKey sample_pubkey false [] [] [] in
  let uid c := mkPacket OPENPGP_PACKET_UID true 1 [c] in
  exists r, @calculate_packet_sighash toy_hashes full_build key (Some (uid 65)) sha1x_certification = Done r /\
    @calculate_packet_sighash toy_hashes full_build key (Some (uid 66)) sha1x_certification = Done r /\
    sh_status r = ONAK_E_OK.
Proof. eexists. split; [vm_compute; reflexivity|]. split; vm_compute; reflexivity. Qed.

(** On any key, packet and signature packet the computation of a digest
    reads only inside the packets and returns a result the caller can use,
    except for a version 4 or 5 signature whose hashed area ends less than two
    octets before the end of the packet: there it reads the length of the
    unhashed area behind the end. *)
Theorem sighash_safe {HF : Hashes} {BC : BuildConfig} key o sig :
  wf_packet (pk_publickey key) -> (forall p, o = Some p -> wf_packet p) -> wf_packet sig ->
  10 <= pkt_length sig < 2 ^ 64 ->
  if sig_truncated sig then calculate_packet_sighash key o sig = Fault OutOfBounds
  else exists r, calculate_packet_sighash key o sig = Done r /\ sighash_usable sig r.
Proof. apply sighash_readable. Qed.

Lemma sighash_safe_witness :
  let key := mkKey sample_pubkey false [] [] [] in
  let sig := mkPacket OPENPGP_PACKET_SIGNATURE true 10 [4; 0x13; 1; 8; 0; 4; 2; 25; 1; 1] in
  @calculate_packet_sighash toy_hashes full_build key None sig = Fault OutOfBounds.
Proof.
  intros key sig. apply (@sighash_safe toy_hashes full_build key None sig); try done;
    apply (bool_decide_unpack _); vm_compute; exact I.
Defined.
