(* ===== verification/SigCheck.v ===== *)
(** Checking a signature over a digest (sigcheck.c, rsa.c): the numbers of a
    public key packet and of a signature packet are read and handed to the
    verification functions of the crypto libraries, which are parameters. *)

From S2P Require Import Prelude OpenPGP Streams KeyId Decode Sighash.

(** * What the crypto libraries provide *)

Record rsa_public_key : Type := mkRsa {
  rsa_size : Z;
  rsa_n : Z;
  rsa_e : Z
}.

(** [ecc_point_of curve x y] is what an initialised point of the curve holds
    after [ecc_point_set], whose answer the program ignores. *)
Class Nettle : Type := {
  ecc_point : Type;
  ecc_point_of : onak_oid -> Z -> Z -> ecc_point;
  dsa_verify : forall (p q g y : Z) (digest : list Z) (r s : Z), bool;
  ecdsa_verify : forall (pub : ecc_point) (digest : list Z) (r s : Z), bool;
  ed25519_sha512_verify : forall (pub digest signature : list Z), bool;
  rsa_pkcs1_verify : forall (key : rsa_public_key) (digest_info : list Z) (s : Z), bool;
  rsa_md5_verify_digest : forall (key : rsa_public_key) (digest : list Z) (s : Z), bool;
  rsa_sha1_verify_digest : forall (key : rsa_public_key) (digest : list Z) (s : Z), bool;
  rsa_sha256_verify_digest : forall (key : rsa_public_key) (digest : list Z) (s : Z), bool;
  rsa_sha512_verify_digest : forall (key : rsa_public_key) (digest : list Z) (s : Z), bool
}.

(** The DER encoding of the DigestInfo of PKCS#1, for a digest algorithm given
    by the arcs of its object identifier. *)
Definition der (tag : Z) (content : list Z) : list Z := tag :: zlen content :: content.

Definition der_arc (x : Z) : list Z :=
  if x <? 2 ^ 7 then [x]
  else if x <? 2 ^ 14 then [128 + x / 2 ^ 7; x mod 2 ^ 7]
  else [128 + x / 2 ^ 14; 128 + x / 2 ^ 7 mod 2 ^ 7; x mod 2 ^ 7].

Definition der_oid (arcs : list Z) : list Z :=
  match arcs with
  | a :: b :: arcs => der 6 (concat (map der_arc (40 * a + b :: arcs)))
  | _ => []
  end.

Definition digest_info (oid digest : list Z) : list Z :=
  der 0x30 (der 0x30 (der_oid oid ++ der 5 []) ++ der 4 digest).

Definition oid_md5 : list Z := [1; 2; 840; 113549; 2; 5].
Definition oid_ripemd160 : list Z := [1; 3; 36; 3; 2; 1].
Definition oid_sha1 : list Z := [1; 3; 14; 3; 2; 26].
Definition oid_sha2 (n : Z) : list Z := [2; 16; 840; 1; 101; 3; 4; 2; n].

(** The library's own verification functions are PKCS#1 signature checks with
    the DigestInfo of their digest. *)
Class NettleLaws {NT : Nettle} : Prop := {
  rsa_md5_pkcs1 key d s :
    zlen d = 16 -> rsa_md5_verify_digest key d s = rsa_pkcs1_verify key (digest_info oid_md5 d) s;
  rsa_sha1_pkcs1 key d s :
    zlen d = 20 -> rsa_sha1_verify_digest key d s = rsa_pkcs1_verify key (digest_info oid_sha1 d) s;
  rsa_sha256_pkcs1 key d s :
    zlen d = 32 -> rsa_sha256_verify_digest key d s = rsa_pkcs1_verify key (digest_info (oid_sha2 1) d) s;
  rsa_sha512_pkcs1 key d s :
    zlen d = 64 -> rsa_sha512_verify_digest key d s = rsa_pkcs1_verify key (digest_info (oid_sha2 3) d) s
}.
Arguments NettleLaws NT : clear implicits.

Definition hash_oid (hashtype : Z) : option (list Z) :=
  if hashtype =? OPENPGP_HASH_MD5 then Some oid_md5
  else if hashtype =? OPENPGP_HASH_RIPEMD160 then Some oid_ripemd160
  else if hashtype =? OPENPGP_HASH_SHA1 then Some oid_sha1
  else if hashtype =? OPENPGP_HASH_SHA224 then Some (oid_sha2 4)
  else if hashtype =? OPENPGP_HASH_SHA256 then Some (oid_sha2 1)
  else if hashtype =? OPENPGP_HASH_SHA384 then Some (oid_sha2 2)
  else if hashtype =? OPENPGP_HASH_SHA512 then Some (oid_sha2 3)
  else None.

(** [mpz_import(v, n, 1, 1, 0, 0, &data[o])]. *)
Definition mpz_import (data : list Z) (o n : Z) : outcome Z :=
  bs ← memcpy_from data o n; Done (be_value bs).

(** [MPI_TO_MPZ]: the status, the number ([v] if nothing was imported) and the
    new offset. *)
Definition MPI_TO_MPZ (pk : openpgp_packet) (ofs v : Z) : outcome (onak_status_t * Z * Z) :=
  if pkt_length pk <? ofs + 2 then Done (ONAK_E_INVALID_PKT, v, ofs)
  else
    h ← (pkt_data pk).[ofs];
    l ← (pkt_data pk).[ofs + 1];
    let len := Z.shiftr (Z.lor (Z.shiftl h 8) l + 7) 3 in
    if pkt_length pk <? ofs + len + 2 then Done (ONAK_E_INVALID_PKT, v, ofs)
    else
      v ← mpz_import (pkt_data pk) (ofs + 2) len;
      Done (ONAK_E_OK, v, ofs + len + 2).

(** A sequence of [MPI_TO_MPZ] on numbers that start as 0, each but the first
    guarded by [if (ret == ONAK_E_OK)]. *)
Fixpoint read_mpis (n : nat) (pk : openpgp_packet) (ofs : Z) : outcome (onak_status_t * list Z) :=
  match n with
  | O => Done (ONAK_E_OK, [])
  | S n =>
      '(ret, v, ofs) ← MPI_TO_MPZ pk ofs 0;
      if status_ok ret then
        '(ret, vs) ← read_mpis n pk ofs;
        Done (ret, v :: vs)
      else Done (ret, v :: replicate n 0)
  end.

Section SigCheck.
Context {NT : Nettle}.

(** * rsa.c *)

Definition ripemd160_prefix : list Z :=
  [0x30; 0x21; 0x30; 0x09; 0x06; 0x05; 0x2B; 0x24; 0x03; 0x02; 0x01; 0x05; 0x00; 0x04; 0x14].

Definition sha224_prefix : list Z :=
  [0x30; 0x2D; 0x30; 0x0d; 0x06; 0x09; 0x60; 0x86; 0x48; 0x01; 0x65; 0x03; 0x04; 0x02; 0x04;
   0x05; 0x00; 0x04; 0x1c].

Definition sha384_prefix : list Z :=
  [0x30; 0x41; 0x30; 0x0d; 0x06; 0x09; 0x60; 0x86; 0x48; 0x01; 0x65; 0x03; 0x04; 0x02; 0x02;
   0x05; 0x00; 0x04; 0x30].

Definition rsa_ripemd160_verify_digest (key : rsa_public_key) (digest : list Z) (s : Z) : bool :=
  rsa_pkcs1_verify key (ripemd160_prefix ++ digest) s.

Definition rsa_sha224_verify_digest (key : rsa_public_key) (digest : list Z) (s : Z) : bool :=
  rsa_pkcs1_verify key (sha224_prefix ++ digest) s.

Definition rsa_sha384_verify_digest (key : rsa_public_key) (digest : list Z) (s : Z) : bool :=
  rsa_pkcs1_verify key (sha384_prefix ++ digest) s.

(** * Key material *)

(** [struct onak_key_material]: the union with the number [y], and [type] for
    the three RSA types. *)
Inductive onak_key_material : Type :=
  | KeyDSA (p q g y : Z)
  | KeyECDSA (ecc : ecc_point)
  | KeyRSA (type : Z) (rsa : rsa_public_key)
  | KeyEdDSA (ed25519 : list Z).

Definition key_type (k : onak_key_material) : Z :=
  match k with
  | KeyDSA _ _ _ _ => OPENPGP_PKALGO_DSA
  | KeyECDSA _ => OPENPGP_PKALGO_ECDSA
  | KeyRSA type _ => type
  | KeyEdDSA _ => OPENPGP_PKALGO_EDDSA
  end.

(** One curve of the ECDSA case: the expected rest of the packet, the expected
    bit count and the octets of a coordinate. *)
Definition ecdsa_material (pk : openpgp_packet) (ofs : Z) (oid : onak_oid) (rest bits size : Z)
    : outcome (onak_status_t + onak_key_material) :=
  let data := pkt_data pk in
  if negb (u64 (pkt_length pk - ofs) =? rest) then Done (inl ONAK_E_INVALID_PKT)
  else
    n ← data.[ofs];
    let ofs := ofs + n + 1 in
    h ← data.[ofs];
    l ← data.[ofs + 1];
    if negb (Z.lor (Z.shiftl h 8) l =? bits) then Done (inl ONAK_E_INVALID_PKT)
    else
      f ← data.[ofs + 2];
      if negb (f =? 4) then Done (inl ONAK_E_INVALID_PKT)
      else
        x ← mpz_import data (ofs + 3) size;
        y ← mpz_import data (ofs + 3 + size) size;
        Done (inr (KeyECDSA (ecc_point_of oid x y))).

Definition eddsa_material (pk : openpgp_packet) (ofs : Z) (oid : onak_oid)
    : outcome (onak_status_t + onak_key_material) :=
  let data := pkt_data pk in
  n ← data.[ofs];
  let ofs := ofs + n + 1 in
  match oid with
  | ONAK_OID_ED25519 =>
      h ← data.[ofs];
      l ← data.[ofs + 1];
      if negb (Z.lor (Z.shiftl h 8) l =? 263) then Done (inl ONAK_E_INVALID_PKT)
      else
        f ← data.[ofs + 2];
        if negb (f =? 0x40) then Done (inl ONAK_E_INVALID_PKT)
        else
          bs ← memcpy_from data (ofs + 3) 32;
          Done (inr (KeyEdDSA bs))
  | _ => Done (inl ONAK_E_UNSUPPORTED_FEATURE)
  end.

(** An error status, or the material of a key that was parsed in full. *)
Definition onak_parse_key_material (pk : openpgp_packet)
    : outcome (onak_status_t + onak_key_material) :=
  let data := pkt_data pk in
  if pkt_length pk <? 51 then Done (inl ONAK_E_INVALID_PKT)
  else
    d0 ← data.[0];
    if negb (d0 =? 4) && negb (d0 =? 5) then Done (inl ONAK_E_UNSUPPORTED_FEATURE)
    else
      let ofs := if d0 =? 4 then 6 else 10 in
      d5 ← data.[5];
      if d5 =? OPENPGP_PKALGO_ECDSA then
        oid ← onak_parse_oid (drop (Z.to_nat ofs) data) (u64 (pkt_length pk - ofs));
        match oid with
        | ONAK_OID_INVALID => Done (inl ONAK_E_INVALID_PKT)
        | ONAK_OID_NISTP256 => ecdsa_material pk ofs oid 76 515 32
        | ONAK_OID_NISTP384 => ecdsa_material pk ofs oid 105 771 48
        | ONAK_OID_NISTP521 => ecdsa_material pk ofs oid 141 1059 66
        | _ => Done (inl ONAK_E_UNSUPPORTED_FEATURE)
        end
      else if d5 =? OPENPGP_PKALGO_EDDSA then
        if negb (u64 (pkt_length pk - ofs) =? 45) then Done (inl ONAK_E_INVALID_PKT)
        else
          oid ← onak_parse_oid (drop (Z.to_nat ofs) data) (u64 (pkt_length pk - ofs));
          match oid with
          | ONAK_OID_INVALID => Done (inl ONAK_E_INVALID_PKT)
          | ONAK_OID_UNKNOWN => Done (inl ONAK_E_UNSUPPORTED_FEATURE)
          | _ => eddsa_material pk ofs oid
          end
      else if d5 =? OPENPGP_PKALGO_DSA then
        '(ret, vs) ← read_mpis 4 pk ofs;
        match vs with
        | [p; q; g; y] => Done (if status_ok ret then inr (KeyDSA p q g y) else inl ret)
        | _ => Fault Uninitialised
        end
      else if (d5 =? OPENPGP_PKALGO_RSA) || (d5 =? OPENPGP_PKALGO_RSA_ENC) ||
              (d5 =? OPENPGP_PKALGO_RSA_SIGN) then
        d6 ← data.[6];
        d7 ← data.[7];
        let size := Z.shiftr (Z.shiftl d6 8 + d7 + 7) 3 in
        '(ret, vs) ← read_mpis 2 pk ofs;
        match vs with
        | [n; e] => Done (if status_ok ret then inr (KeyRSA d5 (mkRsa size n e)) else inl ret)
        | _ => Fault Uninitialised
        end
      else Done (inl ONAK_E_UNSUPPORTED_FEATURE).

(** * Signature values *)

(** [mpz_export] most significant octet first, without leading zero octets;
    [mpz_sizeinbase(v, 2)]. *)
Definition mpz_export (v : Z) : list Z :=
  if v =? 0 then [] else be_bytes (Z.to_nat (Z.log2 v / 8 + 1)) v.

Definition mpz_sizeinbase2 (v : Z) : Z := if v =? 0 then 1 else Z.log2 v + 1.

(** [while (count < 32) { count++; edsig[base + 32 - count] = 0; }] *)
Fixpoint zero_front (fuel : nat) (edsig : list Z) (base count : Z) : outcome (list Z) :=
  if count <? 32 then
    match fuel with
    | O => Fault OutOfFuel
    | S fuel =>
        edsig ← memcpy_to edsig (base + 32 - (count + 1)) [0];
        zero_front fuel edsig base (count + 1)
    end
  else Done edsig.

(** One half of an EdDSA signature: exported at [base], then moved to the end
    of its 32 octets. *)
Definition export_half (edsig : list Z) (base v : Z) : outcome (list Z) :=
  let bs := mpz_export v in
  let count := zlen bs in
  edsig ← memcpy_to edsig base bs;
  if count <? 32 then
    tmp ← memcpy_from edsig base count;
    edsig ← memcpy_to edsig (base + 32 - count) tmp;
    zero_front 32 edsig base count
  else Done edsig.

(** The variables a signature is parsed into; [NoValues]: none was written. *)
Inductive sig_values : Type :=
  | ValuesDSA (r s : Z)
  | ValuesEdDSA (edsig : list Z)
  | ValuesRSA (s : Z)
  | NoValues.

(** The [switch] on the algorithm; [edsig] is what the stack buffer happens to
    hold. *)
Definition parse_sig_values (sigkeytype : Z) (sig : openpgp_packet) (ofs : Z) (edsig : list Z)
    : outcome (onak_status_t * sig_values) :=
  if (sigkeytype =? OPENPGP_PKALGO_ECDSA) || (sigkeytype =? OPENPGP_PKALGO_DSA) then
    '(ret, vs) ← read_mpis 2 sig ofs;
    match vs with
    | [r; s] => Done (ret, ValuesDSA r s)
    | _ => Fault Uninitialised
    end
  else if sigkeytype =? OPENPGP_PKALGO_EDDSA then
    '(ret, vs) ← read_mpis 2 sig ofs;
    match vs with
    | [r; s] =>
        if negb (status_ok ret) then Done (ret, NoValues)
        else if (32 * 8 <? mpz_sizeinbase2 r) || (32 * 8 <? mpz_sizeinbase2 s)
        then Done (ONAK_E_INVALID_PARAM, NoValues)
        else
          edsig ← export_half edsig 0 r;
          edsig ← export_half edsig 32 s;
          Done (ONAK_E_OK, ValuesEdDSA edsig)
    | _ => Fault Uninitialised
    end
  else if (sigkeytype =? OPENPGP_PKALGO_RSA) || (sigkeytype =? OPENPGP_PKALGO_RSA_SIGN) then
    '(ret, s, _) ← MPI_TO_MPZ sig ofs 0;
    Done (ret, ValuesRSA s)
  else Done (ONAK_E_OK, NoValues).

(** Where the signature values start, and the algorithm of the signature; or
    an early return. *)
Definition sig_material (sig : openpgp_packet) : outcome (onak_status_t + Z * Z) :=
  let data := pkt_data sig in
  if pkt_length sig <? 8 then Done (inl ONAK_E_INVALID_PKT)
  else
    d0 ← data.[0];
    if d0 =? 3 then
      d1 ← data.[1];
      if negb (d1 =? 5) then Done (inl ONAK_E_INVALID_PARAM)
      else if pkt_length sig <? 19 then Done (inl ONAK_E_INVALID_PKT)
      else
        t ← data.[15];
        Done (inr (19, t))
    else if 4 <=? d0 then
      h ← data.[4];
      l ← data.[5];
      let ofs := Z.shiftl h 8 + l + 6 in
      if pkt_length sig <? ofs + 2 then Done (inl ONAK_E_INVALID_PKT)
      else
        h ← data.[ofs];
        l ← data.[ofs + 1];
        let ofs := ofs + (Z.shiftl h 8 + l + 2) in
        if pkt_length sig <? ofs + 2 then Done (inl ONAK_E_INVALID_PKT)
        else
          t ← data.[2];
          Done (inr (ofs + 2, t))
    else Done (inl ONAK_E_UNSUPPORTED_FEATURE).

(** * The verdict *)

(** [verify ? ONAK_E_OK : ONAK_E_BAD_SIGNATURE], MD5 being weak. *)
Definition verdict (hashtype : Z) (ok : bool) : onak_status_t :=
  if ok then if hashtype =? OPENPGP_HASH_MD5 then ONAK_E_WEAK_SIGNATURE else ONAK_E_OK
  else ONAK_E_BAD_SIGNATURE.

Definition rsa_verify (hashtype : Z) : option (rsa_public_key -> list Z -> Z -> bool) :=
  if hashtype =? OPENPGP_HASH_MD5 then Some rsa_md5_verify_digest
  else if hashtype =? OPENPGP_HASH_RIPEMD160 then Some rsa_ripemd160_verify_digest
  else if hashtype =? OPENPGP_HASH_SHA1 then Some rsa_sha1_verify_digest
  else if hashtype =? OPENPGP_HASH_SHA224 then Some rsa_sha224_verify_digest
  else if hashtype =? OPENPGP_HASH_SHA256 then Some rsa_sha256_verify_digest
  else if hashtype =? OPENPGP_HASH_SHA384 then Some rsa_sha384_verify_digest
  else if hashtype =? OPENPGP_HASH_SHA512 then Some rsa_sha512_verify_digest
  else None.

Definition dsa_hashes : list Z :=
  [OPENPGP_HASH_MD5; OPENPGP_HASH_RIPEMD160; OPENPGP_HASH_SHA1; OPENPGP_HASH_SHA1X;
   OPENPGP_HASH_SHA224; OPENPGP_HASH_SHA256; OPENPGP_HASH_SHA384; OPENPGP_HASH_SHA512].

Definition ecdsa_hashes : list Z :=
  [OPENPGP_HASH_SHA1; OPENPGP_HASH_SHA256; OPENPGP_HASH_SHA384; OPENPGP_HASH_SHA512].

Definition eddsa_hashes : list Z :=
  [OPENPGP_HASH_RIPEMD160; OPENPGP_HASH_SHA256; OPENPGP_HASH_SHA384; OPENPGP_HASH_SHA512].

(** The [switch] on [KEYHASH(pubkey.type, hashtype)]; a signing-only RSA key
    counts as an RSA key.  Using a variable that was not written is a fault. *)
Definition keyhash_verify (k : onak_key_material) (hashtype : Z) (hash : list Z) (v : sig_values)
    : outcome onak_status_t :=
  match k with
  | KeyDSA p q g y =>
      if bool_decide (hashtype ∈ dsa_hashes) then
        digest ← memcpy_from hash 0 (digest_size hashtype);
        match v with
        | ValuesDSA r s => Done (verdict hashtype (dsa_verify p q g y digest r s))
        | _ => Fault Uninitialised
        end
      else Done ONAK_E_UNSUPPORTED_FEATURE
  | KeyECDSA ecc =>
      if bool_decide (hashtype ∈ ecdsa_hashes) then
        digest ← memcpy_from hash 0 (digest_size hashtype);
        match v with
        | ValuesDSA r s => Done (verdict hashtype (ecdsa_verify ecc digest r s))
        | _ => Fault Uninitialised
        end
      else Done ONAK_E_UNSUPPORTED_FEATURE
  | KeyEdDSA pub =>
      if bool_decide (hashtype ∈ eddsa_hashes) then
        digest ← memcpy_from hash 0 (digest_size hashtype);
        match v with
        | ValuesEdDSA edsig => Done (verdict hashtype (ed25519_sha512_verify pub digest edsig))
        | _ => Fault Uninitialised
        end
      else Done ONAK_E_UNSUPPORTED_FEATURE
  | KeyRSA type rsa =>
      if (type =? OPENPGP_PKALGO_RSA) || (type =? OPENPGP_PKALGO_RSA_SIGN) then
        match rsa_verify hashtype with
        | Some verify =>
            digest ← memcpy_from hash 0 (digest_size hashtype);
            match v with
            | ValuesRSA s => Done (verdict hashtype (verify rsa digest s))
            | _ => Fault Uninitialised
            end
        | None => Done ONAK_E_UNSUPPORTED_FEATURE
        end
      else Done ONAK_E_UNSUPPORTED_FEATURE
  end.

Definition onak_check_hash_sig (sigkey sig : openpgp_packet) (hash : list Z) (hashtype : Z)
    (edsig : list Z) : outcome onak_status_t :=
  material ← onak_parse_key_material sigkey;
  match material with
  | inl ret => Done ret
  | inr pubkey =>
      place ← sig_material sig;
      match place with
      | inl ret => Done ret
      | inr (ofs, sigkeytype) =>
          if negb (key_type pubkey =? sigkeytype) then Done ONAK_E_INVALID_PARAM
          else
            '(ret, values) ← parse_sig_values sigkeytype sig ofs edsig;
            if status_ok ret then keyhash_verify pubkey hashtype hash values else Done ret
      end
  end.

(** * Numbers *)

(** The bits of a number, and its encoding as an MPI. *)
Definition mpi_bits (v : Z) : Z := if v =? 0 then 0 else Z.log2 v + 1.
Definition encode_mpi (v : Z) : list Z := be_bytes 2 (mpi_bits v) ++ mpz_export v.

Lemma be_bytes_length n v : length (be_bytes n v) = n.
Proof. revert v. induction n as [|n IH]; intros v; [done|]. cbn. rewrite length_app, IH. cbn. lia. Qed.

Lemma be_bytes_value n v : 0 <= v < 256 ^ Z.of_nat n -> be_value (be_bytes n v) = v.
Proof.
  revert v. induction n as [|n IH]; intros v Hv; [cbn in *; unfold be_value; cbn; lia|].
  cbn [be_bytes]. rewrite be_value_app. change (zlen [v mod 256]) with 1. change (be_value [v mod 256]) with (v mod 256).
  rewrite Nat2Z.inj_succ, Z.pow_succ_r in Hv by lia.
  rewrite IH by (split; [apply Z.div_pos | apply Z.div_lt_upper_bound]; lia).
  pose proof (Z_div_mod_eq_full v 256). lia.
Qed.

Lemma be_bytes_pad m k v : 0 <= v < 256 ^ Z.of_nat k -> be_bytes (m + k) v = replicate m 0 ++ be_bytes k v.
Proof.
  revert v. induction k as [|k IH]; intros v Hv.
  - rewrite Nat.add_0_r, app_nil_r. assert (v = 0) as -> by (cbn in Hv; lia). clear.
    induction m as [|m IH]; [done|]. cbn [be_bytes]. change (0 / 256) with 0. rewrite IH.
    change [0 mod 256] with (replicate 1 0). rewrite <- replicate_add. f_equal. lia.
  - rewrite Nat.add_succ_r. cbn [be_bytes]. rewrite Nat2Z.inj_succ, Z.pow_succ_r in Hv by lia.
    rewrite IH by (split; [apply Z.div_pos | apply Z.div_lt_upper_bound]; lia). by rewrite app_assoc.
Qed.

Lemma mpz_export_octets v :
  0 <= v -> exists k, mpz_export v = be_bytes k v /\ v < 256 ^ Z.of_nat k /\
    Z.of_nat k = Z.shiftr (mpi_bits v + 7) 3 /\ (v < 2 ^ 256 -> (k <= 32)%nat).
Proof.
  intros Hv. unfold mpz_export, mpi_bits. destruct (Z.eqb_spec v 0) as [->|Hn]; [by exists 0%nat; auto with lia|].
  pose proof (Z.log2_nonneg v). pose proof (Z.div_pos (Z.log2 v) 8 ltac:(lia) ltac:(lia)).
  exists (Z.to_nat (Z.log2 v / 8 + 1)). rewrite Z2Nat.id by lia. split; [done|].
  split; [|split].
  - destruct (Z.log2_spec v) as [_ Hlt]; [lia|]. eapply Z.lt_le_trans; [exact Hlt|].
    change 256 with (2 ^ 8). rewrite <- Z.pow_mul_r by lia. apply Z.pow_le_mono_r; [lia|].
    pose proof (Z_div_mod_eq_full (Z.log2 v) 8). pose proof (Z.mod_pos_bound (Z.log2 v) 8). lia.
  - rewrite shiftr_div by lia. change (2 ^ 3) with 8. replace (Z.log2 v + 1 + 7) with (Z.log2 v + 1 * 8) by lia.
    by rewrite Z.div_add by lia.
  - intros H256. assert (Z.log2 v < 256) by (apply Z.log2_lt_pow2; lia).
    pose proof (Z.div_lt_upper_bound (Z.log2 v) 8 32). lia.
Qed.

Lemma mpz_export_len v : 0 <= v -> zlen (mpz_export v) = Z.shiftr (mpi_bits v + 7) 3.
Proof. intros Hv. destruct (mpz_export_octets v Hv) as (k & -> & _ & <- & _). unfold zlen. by rewrite be_bytes_length. Qed.

Lemma mpz_export_value v : 0 <= v -> be_value (mpz_export v) = v.
Proof. intros Hv. destruct (mpz_export_octets v Hv) as (k & -> & ? & _ & _). by apply be_bytes_value. Qed.

Lemma lor_bytes h l : 0 <= h -> byte l -> Z.lor (Z.shiftl h 8) l = Z.shiftl h 8 + l.
Proof.
  unfold byte. intros Hh Hl. symmetry. rewrite <- Z.lxor_lor; [apply Z.add_nocarry_lxor|];
    (apply Z.bits_inj'; intros n Hn; rewrite Z.land_spec, Z.bits_0;
     destruct (Z.ltb_spec n 8); [rewrite Z.shiftl_spec_low by lia; done|];
     rewrite (Z.bits_above_log2 l), andb_false_r by (try (destruct (Z.eq_dec l 0) as [->|];
       [cbn; lia | apply Z.log2_lt_pow2; [lia | apply Z.lt_le_trans with 256; [lia|];
        change 256 with (2 ^ 8); apply Z.pow_le_mono_r; lia]]); lia); done).
Qed.

(** Reading inside the middle of a packet. *)
Lemma rd_inside pre mid post i : 0 <= i < zlen mid -> (pre ++ mid ++ post).[zlen pre + i] = mid.[i].
Proof.
  intros Hi. rewrite rd_app_r by lia. rewrite rd_app_l by lia. f_equal. lia.
Qed.

Lemma rd_inside_0 pre mid post : 0 < zlen mid -> (pre ++ mid ++ post).[zlen pre] = mid.[0].
Proof. intros. rewrite <- (Z.add_0_r (zlen pre)). apply rd_inside. lia. Qed.

Lemma memcpy_mid pre mid post n :
  n = zlen mid -> memcpy_from (pre ++ mid ++ post) (zlen pre) n = Done mid.
Proof.
  intros ->. pose proof (zlen_nonneg mid). pose proof (zlen_nonneg pre). pose proof (zlen_nonneg post).
  rewrite memcpy_from_ok by (autorewrite with onak; lia).
  unfold zlen. by rewrite !Nat2Z.id, drop_app_length, take_app_length.
Qed.

Lemma MPI_TO_MPZ_encode pk pre v post v0 :
  pkt_data pk = pre ++ encode_mpi v ++ post -> pkt_length pk = zlen (pkt_data pk) ->
  0 <= v -> mpi_bits v < 65536 ->
  MPI_TO_MPZ pk (zlen pre) v0 = Done (ONAK_E_OK, v, zlen (pre ++ encode_mpi v)).
Proof.
  intros Hd Hl Hv Hb. pose proof (mpz_export_len v Hv) as He. pose proof (zlen_nonneg post).
  pose proof (zlen_nonneg (mpz_export v)).
  assert (Hm : 0 <= mpi_bits v) by (unfold mpi_bits; case_if; [lia | pose proof (Z.log2_nonneg v); lia]).
  assert (Hz : zlen (pkt_data pk) = zlen pre + (2 + zlen (mpz_export v)) + zlen post)
    by (rewrite Hd; unfold encode_mpi; rewrite be_bytes_2; autorewrite with onak; lia).
  unfold MPI_TO_MPZ. rewrite Hl, (proj2 (Z.ltb_ge _ _)) by lia.
  assert (E0 : (pkt_data pk).[zlen pre] = Done (mpi_bits v / 256 mod 256)).
  { rewrite Hd. rewrite <- (Z.add_0_r (zlen pre)), rd_inside; [done|]. unfold encode_mpi. rewrite be_bytes_2.
    autorewrite with onak. lia. }
  assert (E1 : (pkt_data pk).[zlen pre + 1] = Done (mpi_bits v mod 256)).
  { rewrite Hd, rd_inside; [done|]. unfold encode_mpi. rewrite be_bytes_2. autorewrite with onak. lia. }
  rewrite E0, E1. cbn [mbind outcome_bind].
  rewrite lor_bytes by (try (apply Z.mod_pos_bound; lia)). rewrite be_value_2 by lia. rewrite <- He.
  rewrite (proj2 (Z.ltb_ge _ _)) by lia. unfold mpz_import. rewrite Hd. unfold encode_mpi.
  replace (pre ++ (be_bytes 2 (mpi_bits v) ++ mpz_export v) ++ post) with
    ((pre ++ be_bytes 2 (mpi_bits v)) ++ mpz_export v ++ post) by (by rewrite <- !app_assoc).
  replace (zlen pre + 2) with (zlen (pre ++ be_bytes 2 (mpi_bits v))) by (rewrite be_bytes_2; autorewrite with onak; lia).
  rewrite memcpy_mid by done. cbn [mbind outcome_bind]. rewrite mpz_export_value by done.
  rewrite be_bytes_2. autorewrite with onak. do 2 f_equal. lia.
Qed.

Definition mpi_ok (v : Z) : Prop := 0 <= v /\ mpi_bits v < 65536.

Definition encode_mpis (vs : list Z) : list Z := concat (map encode_mpi vs).

Lemma read_mpis_encode pk vs : forall pre post,
  pkt_data pk = pre ++ encode_mpis vs ++ post -> pkt_length pk = zlen (pkt_data pk) ->
  Forall mpi_ok vs -> read_mpis (length vs) pk (zlen pre) = Done (ONAK_E_OK, vs).
Proof.
  induction vs as [|v vs IH]; intros pre post Hd Hl Hvs; [done|].
  apply Forall_cons in Hvs as [[Hv Hb] Hvs]. cbn [length read_mpis].
  change (encode_mpis (v :: vs)) with (encode_mpi v ++ encode_mpis vs) in Hd. rewrite <- app_assoc in Hd.
  rewrite (MPI_TO_MPZ_encode pk pre v (encode_mpis vs ++ post)) by done. cbn [mbind outcome_bind status_ok].
  rewrite (IH (pre ++ encode_mpi v) post); [done | by rewrite <- app_assoc | done | done].
Qed.

(** * The EdDSA buffer *)

Lemma memcpy_to_mid pre mid mid' post :
  length mid = length mid' -> memcpy_to (pre ++ mid ++ post) (zlen pre) mid' = Done (pre ++ mid' ++ post).
Proof.
  intros Hl. pose proof (zlen_nonneg pre). pose proof (zlen_nonneg post).
  rewrite memcpy_to_ok by (try (autorewrite with onak; unfold zlen in *); lia).
  unfold zlen. rewrite Nat2Z.id, take_app_length, <- drop_drop, drop_app_length, <- Hl, drop_app_length. done.
Qed.

Lemma zero_front_mid pre mid bs post fuel :
  zlen mid + zlen bs = 32 -> (length mid <= fuel)%nat ->
  zero_front fuel (pre ++ mid ++ bs ++ post) (zlen pre) (zlen bs) =
    Done (pre ++ replicate (length mid) 0 ++ bs ++ post).
Proof.
  revert mid bs. induction fuel as [|fuel IH]; intros mid bs Hn Hf.
  { destruct mid; [|cbn in Hf; lia]. unfold zlen in *. cbn [length zero_front] in *.
    by rewrite (proj2 (Z.ltb_ge _ _)) by lia. }
  cbn [zero_front]. destruct mid as [|x mid _] using rev_ind.
  { change (zlen (@nil Z)) with 0 in Hn. by rewrite (proj2 (Z.ltb_ge _ _)) by lia. }
  rewrite zlen_app in Hn. change (zlen [x]) with 1 in Hn. pose proof (zlen_nonneg mid).
  rewrite (proj2 (Z.ltb_lt _ _)) by lia.
  replace (zlen pre + 32 - (zlen bs + 1)) with (zlen (pre ++ mid)) by (rewrite zlen_app; lia).
  replace (pre ++ (mid ++ [x]) ++ bs ++ post) with ((pre ++ mid) ++ [x] ++ bs ++ post) by (by rewrite <- !app_assoc).
  rewrite memcpy_to_mid by done. cbn [mbind outcome_bind].
  rewrite length_app in Hf |- *. cbn [length] in *.
  replace ((pre ++ mid) ++ [0] ++ bs ++ post) with (pre ++ mid ++ (0 :: bs) ++ post) by (by rewrite <- !app_assoc).
  replace (zlen bs + 1) with (zlen (0 :: bs)) by (rewrite zlen_cons; lia).
  rewrite IH by (rewrite ?zlen_cons; lia). rewrite replicate_add, <- !app_assoc. done.
Qed.

Lemma split_at_len {A} (l : list A) n m :
  (n + m <= length l)%nat -> exists a b c, l = a ++ b ++ c /\ length a = n /\ length b = m.
Proof.
  intros H. exists (take n l), (take m (drop n l)), (drop (n + m) l).
  rewrite <- drop_drop, !take_drop, !length_take, length_drop. split; [done | lia].
Qed.

(** A number of at most 256 bits comes out as exactly 32 octets, whatever the
    buffer held. *)
Lemma export_half_ok pre old post v :
  zlen old = 32 -> 0 <= v < 2 ^ 256 ->
  export_half (pre ++ old ++ post) (zlen pre) v = Done (pre ++ be_bytes 32 v ++ post).
Proof.
  intros Ho Hv. unfold export_half. destruct (mpz_export_octets v) as (k & -> & Hk & _ & H32); [lia|].
  specialize (H32 (proj2 Hv)). set (bs := be_bytes k v).
  assert (Hbs : length bs = k) by apply be_bytes_length.
  assert (Hpad : be_bytes 32 v = replicate (32 - k) 0 ++ bs).
  { replace 32%nat with (32 - k + k)%nat at 1 by lia. apply be_bytes_pad. split; [lia | exact Hk]. }
  unfold zlen in Ho. destruct (split_at_len old 0 k) as (a & b & c & -> & Ha & Hb); [lia|].
  destruct a; [|done]. rewrite !length_app in Ho. cbn [app length] in *.
  replace (pre ++ (b ++ c) ++ post) with (pre ++ b ++ c ++ post) by (by rewrite <- !app_assoc).
  rewrite memcpy_to_mid by lia. cbn [mbind outcome_bind].
  destruct (Z.ltb_spec (zlen bs) 32) as [Hlt|Hge].
  2: { unfold zlen in Hge. destruct c; [|cbn in Ho; lia]. rewrite Hpad. replace (32 - k)%nat with 0%nat by lia. done. }
  rewrite memcpy_mid by done. cbn [mbind outcome_bind]. unfold zlen in Hlt.
  destruct (split_at_len (bs ++ c) (32 - k) k) as (a & e & t & E & Hla & Hle); [rewrite length_app; lia|].
  assert (t = []) as -> by (apply (f_equal length) in E; rewrite !length_app in E; destruct t; [done | cbn in E; lia]).
  rewrite app_nil_r in E. rewrite (app_assoc bs c post), E.
  replace (pre ++ (a ++ e) ++ post) with ((pre ++ a) ++ e ++ post) by (by rewrite <- !app_assoc).
  replace (zlen pre + 32 - zlen bs) with (zlen (pre ++ a)) by (rewrite zlen_app; unfold zlen; lia).
  rewrite memcpy_to_mid by lia. cbn [mbind outcome_bind]. rewrite <- app_assoc.
  rewrite zero_front_mid by (unfold zlen; lia). rewrite Hpad, Hla, <- app_assoc. done.
Qed.

(** * Public keys as packets *)

Inductive pubkey : Type :=
  | PubRSA (type n e : Z)
  | PubDSA (p q g y : Z)
  | PubECDSA (oid : onak_oid) (x y : Z)
  | PubEdDSA (point : list Z).

Definition pub_algo (k : pubkey) : Z :=
  match k with
  | PubRSA type _ _ => type
  | PubDSA _ _ _ _ => OPENPGP_PKALGO_DSA
  | PubECDSA _ _ _ => OPENPGP_PKALGO_ECDSA
  | PubEdDSA _ => OPENPGP_PKALGO_EDDSA
  end.

(** The object identifier of a curve with its length octet, and the octets of
    a coordinate. *)
Definition oid_octets (oid : onak_oid) : list Z :=
  match List.find (fun e => bool_decide (e.2 = oid)) oid_table with
  | Some (bs, _) => bs
  | None => []
  end.

Definition curve_size (oid : onak_oid) : nat :=
  match oid with
  | ONAK_OID_NISTP256 => 32
  | ONAK_OID_NISTP384 => 48
  | ONAK_OID_NISTP521 => 66
  | _ => 0
  end.

Definition encode_body (k : pubkey) : list Z :=
  match k with
  | PubRSA _ n e => encode_mpis [n; e]
  | PubDSA p q g y => encode_mpis [p; q; g; y]
  | PubECDSA oid x y =>
      oid_octets oid ++ be_bytes 2 (3 + 16 * Z.of_nat (curve_size oid)) ++ [4] ++
      be_bytes (curve_size oid) x ++ be_bytes (curve_size oid) y
  | PubEdDSA point => oid_octets ONAK_OID_ED25519 ++ be_bytes 2 263 ++ [0x40] ++ point
  end.

(** Version, creation time, algorithm, in version 5 the octets of the body,
    the body. *)
Definition encode_pub_header (v : Z) (time : list Z) (k : pubkey) : list Z :=
  [v] ++ time ++ [pub_algo k] ++ (if v =? 5 then be_bytes 4 (zlen (encode_body k)) else []).

Definition encode_pub (v : Z) (time : list Z) (k : pubkey) : list Z :=
  encode_pub_header v time k ++ encode_body k.

Definition pub_ok (k : pubkey) : Prop :=
  match k with
  | PubRSA type n e => 1 <= type <= 3 /\ Forall mpi_ok [n; e]
  | PubDSA p q g y => Forall mpi_ok [p; q; g; y]
  | PubECDSA oid x y =>
      oid ∈ [ONAK_OID_NISTP256; ONAK_OID_NISTP384; ONAK_OID_NISTP521] /\
      0 <= x < 256 ^ Z.of_nat (curve_size oid) /\ 0 <= y < 256 ^ Z.of_nat (curve_size oid)
  | PubEdDSA point => zlen point = 32
  end.

(** What the verification functions are given for a key; [size] is the octets
    of an RSA modulus. *)
Definition pub_material (k : pubkey) (size : Z) : onak_key_material :=
  match k with
  | PubRSA type n e => KeyRSA type (mkRsa size n e)
  | PubDSA p q g y => KeyDSA p q g y
  | PubECDSA oid x y => KeyECDSA (ecc_point_of oid x y)
  | PubEdDSA point => KeyEdDSA point
  end.

Definition modulus_octets (k : pubkey) : Z :=
  match k with PubRSA _ n _ => zlen (mpz_export n) | _ => 0 end.

(** The size the code uses: it reads octets 6 and 7 of the packet, which are
    the length of the modulus in version 4 and a part of the length of the
    body in version 5. *)
Definition code_modulus_octets (v : Z) (k : pubkey) : Z :=
  if v =? 5 then (zlen (encode_body k) / 2 ^ 16 mod 2 ^ 16 + 7) / 8 else modulus_octets k.

Lemma encode_pub_header_len v time k :
  v = 4 \/ v = 5 -> zlen time = 4 -> zlen (encode_pub_header v time k) = if v =? 4 then 6 else 10.
Proof.
  intros Hv Ht. unfold encode_pub_header.
  destruct Hv as [-> | ->]; cbn [Z.eqb Pos.eqb]; rewrite ?be_bytes_4; autorewrite with onak; lia.
Qed.

(** The coordinates behind an object identifier. *)
Lemma ecdsa_material_encode pk hdr oid oidb rest size x y :
  pkt_data pk = hdr ++ oidb ++ be_bytes 2 (3 + 16 * Z.of_nat size) ++ [4] ++ be_bytes size x ++ be_bytes size y ->
  pkt_length pk = zlen (pkt_data pk) -> pkt_length pk < 2 ^ 64 ->
  oidb.[0] = Done (zlen oidb - 1) -> rest = zlen oidb + 3 + 2 * Z.of_nat size -> (size <= 66)%nat ->
  0 <= x < 256 ^ Z.of_nat size -> 0 <= y < 256 ^ Z.of_nat size ->
  ecdsa_material pk (zlen hdr) oid rest (3 + 16 * Z.of_nat size) (Z.of_nat size)
    = Done (inr (KeyECDSA (ecc_point_of oid x y))).
Proof.
  intros Hd Hl H64 Ho Hrest Hsz Hx Hy.
  set (len2 := be_bytes 2 (3 + 16 * Z.of_nat size)) in *.
  assert (H2 : zlen len2 = 2) by (unfold len2; by rewrite be_bytes_2).
  assert (Hsx : forall v, zlen (be_bytes size v) = Z.of_nat size) by (intros; unfold zlen; by rewrite be_bytes_length).
  pose proof (rd_Done_inv _ _ _ Ho). pose proof (zlen_nonneg hdr).
  assert (Hz : zlen (pkt_data pk) = zlen hdr + rest)
    by (rewrite Hd; autorewrite with onak; rewrite H2, !Hsx; lia).
  unfold ecdsa_material. rewrite u64_small by lia. rewrite (proj2 (Z.eqb_eq _ _)) by lia. cbn [negb].
  rewrite Hd. rewrite rd_inside_0, Ho by lia. cbn [mbind outcome_bind].
  replace (zlen hdr + (zlen oidb - 1) + 1) with (zlen (hdr ++ oidb)) by (rewrite zlen_app; lia).
  rewrite (app_assoc hdr oidb). set (h1 := hdr ++ oidb).
  rewrite rd_inside_0, (rd_inside h1 len2 _ 1) by lia.
  change (len2.[0]) with (Done ((3 + 16 * Z.of_nat size) / 256 mod 256)).
  change (len2.[1]) with (Done ((3 + 16 * Z.of_nat size) mod 256)). cbn [mbind outcome_bind].
  rewrite lor_bytes by (try (apply Z.mod_pos_bound; lia)). rewrite be_value_2 by lia.
  rewrite Z.eqb_refl. cbn [negb]. rewrite (app_assoc h1 len2).
  replace (zlen h1 + 2) with (zlen (h1 ++ len2)) by (rewrite zlen_app; lia).
  rewrite rd_inside_0 by (change (zlen [4]) with 1; lia). rewrite rd_cons_0.
  cbn [mbind outcome_bind Z.eqb Pos.eqb negb]. rewrite (app_assoc (h1 ++ len2) [4]). set (h2 := (h1 ++ len2) ++ [4]).
  replace (zlen h1 + 3) with (zlen h2) by (unfold h2; autorewrite with onak; lia).
  unfold mpz_import. rewrite memcpy_mid by done. cbn [mbind outcome_bind].
  replace (zlen h2 + Z.of_nat size) with (zlen (h2 ++ be_bytes size x)) by (rewrite zlen_app, Hsx; lia).
  rewrite <- (app_nil_r (be_bytes size y)), (app_assoc h2). rewrite memcpy_mid by done. cbn [mbind outcome_bind].
  by rewrite !be_bytes_value by done.
Qed.

Lemma parse_oid_octets oid rest len :
  oid ∈ [ONAK_OID_NISTP256; ONAK_OID_NISTP384; ONAK_OID_NISTP521; ONAK_OID_ED25519] ->
  11 <= len -> onak_parse_oid (oid_octets oid ++ rest) len = Done oid.
Proof.
  intros Ho Hl. unfold onak_parse_oid. rewrite (proj2 (Z.eqb_neq _ _)) by lia.
  repeat (apply elem_of_cons in Ho as [->|Ho]; [match goal with |- context [oid_octets ?o] =>
    let b := eval vm_compute in (oid_octets o) in change (oid_octets o) with b end; cbn [app];
    rewrite rd_cons_0; cbn [mbind outcome_bind]; rewrite (proj2 (Z.leb_gt _ _)) by lia; reflexivity|]).
  by apply not_elem_of_nil in Ho.
Qed.

Lemma eddsa_material_encode pk hdr point :
  pkt_data pk = hdr ++ oid_octets ONAK_OID_ED25519 ++ be_bytes 2 263 ++ [0x40] ++ point ->
  zlen point = 32 ->
  eddsa_material pk (zlen hdr) ONAK_OID_ED25519 = Done (inr (KeyEdDSA point)).
Proof.
  intros Hd Hp. unfold eddsa_material. rewrite Hd, rd_inside_0 by done.
  change ((oid_octets ONAK_OID_ED25519).[0]) with (Done (A := Z) 9). cbn [mbind outcome_bind].
  set (oidb := oid_octets ONAK_OID_ED25519). set (len2 := be_bytes 2 263).
  assert (H2 : zlen len2 = 2) by done. assert (Ho : zlen oidb = 10) by done.
  replace (zlen hdr + 9 + 1) with (zlen (hdr ++ oidb)) by (rewrite zlen_app; lia).
  rewrite (app_assoc hdr oidb). set (h1 := hdr ++ oidb). rewrite rd_inside_0, (rd_inside h1 len2 _ 1) by lia.
  change (len2.[0]) with (Done (A := Z) 1). change (len2.[1]) with (Done (A := Z) 7).
  cbn [mbind outcome_bind]. change (negb (Z.lor (Z.shiftl 1 8) 7 =? 263)) with false. cbn [negb].
  rewrite (app_assoc h1 len2). replace (zlen h1 + 2) with (zlen (h1 ++ len2)) by (rewrite zlen_app; lia).
  rewrite rd_inside_0 by done. rewrite rd_cons_0. cbn [mbind outcome_bind Z.eqb Pos.eqb negb].
  rewrite (app_assoc (h1 ++ len2) [0x40]). set (h2 := (h1 ++ len2) ++ [0x40]).
  replace (zlen h1 + 3) with (zlen h2) by (unfold h2; autorewrite with onak; lia).
  rewrite <- (app_nil_r point) at 1. by rewrite memcpy_mid by done.
Qed.

Lemma be_octets_6_7 n : 0 <= n < 2 ^ 32 ->
  be_bytes 4 n = [n / 2 ^ 16 / 256 mod 256; n / 2 ^ 16 mod 256; n / 256 mod 256; n mod 256] /\
  Z.shiftl (n / 2 ^ 16 / 256 mod 256) 8 + n / 2 ^ 16 mod 256 = n / 2 ^ 16 mod 2 ^ 16.
Proof.
  intros Hn. rewrite be_bytes_4, !Z.div_div by lia. split; [done|].
  rewrite <- (Z.div_div n (2 ^ 16) 256) by lia.
  assert (0 <= n / 2 ^ 16 < 2 ^ 16) by (split; [apply Z.div_pos | apply Z.div_lt_upper_bound]; lia).
  rewrite be_value_2, Z.mod_small by lia. done.
Qed.

Lemma rsa_size_octets v time k pk :
  v = 4 \/ v = 5 -> zlen time = 4 -> pub_ok k -> (exists t n e, k = PubRSA t n e) ->
  pkt_data pk = encode_pub v time k -> zlen (encode_body k) < 2 ^ 32 ->
  exists d6 d7, (pkt_data pk).[6] = Done d6 /\ (pkt_data pk).[7] = Done d7 /\
    Z.shiftr (Z.shiftl d6 8 + d7 + 7) 3 = code_modulus_octets v k.
Proof.
  intros Hv Ht Hk (t & n & e & ->) Hd Hb. destruct Hk as (_ & Hm).
  apply Forall_cons in Hm as [[Hn Hnb] _].
  destruct time as [|t0 [|t1 [|t2 [|t3 [|]]]]]; try (exfalso; unfold zlen in Ht; cbn [length] in Ht; lia).
  rewrite Hd. unfold encode_pub, encode_pub_header, code_modulus_octets.
  destruct Hv as [-> | ->]; cbn [Z.eqb Pos.eqb].
  - exists (mpi_bits n / 256 mod 256), (mpi_bits n mod 256). split; [done|]. split; [done|].
    assert (0 <= mpi_bits n) by (unfold mpi_bits; case_if; [lia | pose proof (Z.log2_nonneg n); lia]).
    rewrite be_value_2 by lia. cbn [modulus_octets]. by rewrite mpz_export_len.
  - set (body := encode_body (PubRSA t n e)) in *. pose proof (zlen_nonneg body).
    destruct (be_octets_6_7 (zlen body)) as [E4 E6]; [lia|]. rewrite E4.
    eexists _, _. split; [reflexivity|]. split; [reflexivity|]. rewrite E6, shiftr_div by lia. done.
Qed.

Lemma parse_material pk v time k :
  v = 4 \/ v = 5 -> zlen time = 4 -> pub_ok k ->
  pkt_data pk = encode_pub v time k -> pkt_length pk = zlen (pkt_data pk) ->
  51 <= pkt_length pk < 2 ^ 32 ->
  onak_parse_key_material pk = Done (inr (pub_material k (code_modulus_octets v k))).
Proof.
  intros Hv Ht Hk Hd Hl Hlen. pose proof (encode_pub_header_len v time k Hv Ht) as Hh.
  unfold onak_parse_key_material. rewrite (proj2 (Z.ltb_ge _ _)) by lia.
  assert (E0 : (pkt_data pk).[0] = Done v) by (by rewrite Hd).
  assert (E5 : (pkt_data pk).[5] = Done (pub_algo k)).
  { rewrite Hd. unfold encode_pub, encode_pub_header.
    destruct time as [|t0 [|t1 [|t2 [|t3 [|]]]]]; try (exfalso; unfold zlen in Ht; cbn [length] in Ht; lia). done. }
  rewrite E0. cbn [mbind outcome_bind]. rewrite E5.
  replace (negb (v =? 4) && negb (v =? 5)) with false by (destruct Hv as [-> | ->]; done).
  cbn [mbind outcome_bind]. rewrite <- Hh. set (hdr := encode_pub_header v time k) in *.
  assert (Hz : pkt_length pk - zlen hdr = zlen (encode_body k))
    by (rewrite Hl, Hd; unfold encode_pub; rewrite zlen_app; fold hdr; lia).
  assert (Hdrop : drop (Z.to_nat (zlen hdr)) (pkt_data pk) = encode_body k)
    by (rewrite Hd; unfold encode_pub, zlen; by rewrite Nat2Z.id, drop_app_length).
  pose proof (zlen_nonneg hdr). pose proof (zlen_nonneg (encode_body k)).
  assert (Hbody : 41 <= zlen (encode_body k)) by (revert Hh; case_if; lia).
  rewrite Hdrop, Hz, (u64_small (zlen _)) by lia.
  pose proof (rsa_size_octets v time k pk Hv Ht Hk) as Hrsa.
  unfold encode_pub in Hd. fold hdr in Hd. rewrite <- (app_nil_r (encode_body k)) in Hd.
  destruct k as [t n e|p q g y|oid x y|point]; cbn [pub_algo pub_material encode_body] in *.
  - destruct Hk as [Htype Hm].
    destruct (Z.eqb_spec t OPENPGP_PKALGO_ECDSA), (Z.eqb_spec t OPENPGP_PKALGO_EDDSA),
      (Z.eqb_spec t OPENPGP_PKALGO_DSA); try (subst; exfalso; revert Htype; clear; unfold OPENPGP_PKALGO_ECDSA, OPENPGP_PKALGO_EDDSA, OPENPGP_PKALGO_DSA; lia).
    replace ((t =? OPENPGP_PKALGO_RSA) || (t =? OPENPGP_PKALGO_RSA_ENC) || (t =? OPENPGP_PKALGO_RSA_SIGN)) with true
      by (assert (t = 1 \/ t = 2 \/ t = 3) as [->|[->| ->]] by lia; done).
    destruct Hrsa as (d6 & d7 & E6 & E7 & Es); [eauto | by rewrite Hd, app_nil_r | lia |].
    rewrite E6, E7. cbn [mbind outcome_bind]. rewrite Es. pose proof (read_mpis_encode pk [n; e] hdr [] Hd Hl Hm) as Em.
    cbn [length] in Em. by rewrite Em.
  - cbn [OPENPGP_PKALGO_DSA OPENPGP_PKALGO_ECDSA OPENPGP_PKALGO_EDDSA Z.eqb Pos.eqb].
    pose proof (read_mpis_encode pk [p; q; g; y] hdr [] Hd Hl Hk) as Em.
    cbn [length] in Em. by rewrite Em.
  - destruct Hk as (Ho & Hx & Hy). cbn [OPENPGP_PKALGO_ECDSA Z.eqb Pos.eqb]. rewrite app_nil_r in Hd.
    repeat (apply elem_of_cons in Ho as [->|Ho];
      [rewrite parse_oid_octets by (repeat constructor || lia); cbn [mbind outcome_bind];
       match goal with |- ecdsa_material _ _ ?o ?rest _ _ = _ =>
         apply (ecdsa_material_encode pk hdr o (oid_octets o) rest (curve_size o) x y);
           [exact Hd | exact Hl | lia | reflexivity | reflexivity | cbn; lia | exact Hx | exact Hy]
       end|]).
    by apply not_elem_of_nil in Ho.
  - cbn [OPENPGP_PKALGO_ECDSA OPENPGP_PKALGO_EDDSA Z.eqb Pos.eqb]. rewrite app_nil_r in Hd.
    assert (zlen (oid_octets ONAK_OID_ED25519 ++ be_bytes 2 263 ++ [64] ++ point) = 45) as ->
      by (rewrite !zlen_app, Hk; done).
    cbn [Z.eqb Pos.eqb negb]. rewrite parse_oid_octets by (repeat constructor || lia). cbn [mbind outcome_bind].
    by apply eddsa_material_encode.
Qed.

(** * Signatures as packets *)

Definition sig_pkalgo (s : signature) : Z :=
  match s with SigV3 _ _ _ _ pk _ _ _ | SigV4 _ _ pk _ _ _ _ _ => pk end.

Definition sig_mpis (s : signature) : list Z :=
  match s with SigV3 _ _ _ _ _ _ _ m | SigV4 _ _ _ _ _ _ _ m => m end.

(** The numbers of a signature by a key. *)
Definition values_ok (k : pubkey) (vals : list Z) : Prop :=
  Forall mpi_ok vals /\
  match k, vals with
  | PubRSA _ _ _, [_] => True
  | PubDSA _ _ _ _, [_; _] => True
  | PubECDSA _ _ _, [_; _] => True
  | PubEdDSA _, [r; s] => r < 2 ^ 256 /\ s < 2 ^ 256
  | _, _ => False
  end.

(** Whether the crypto library accepts the numbers as a signature of the
    digest, for RSA the PKCS#1 encoding of the digest; [None] where the program does not support the combination. *)
Definition pub_accepts (k : pubkey) (hashtype : Z) (digest vals : list Z) : option bool :=
  match k, vals with
  | PubRSA type n e, [s] =>
      if type =? OPENPGP_PKALGO_RSA_ENC then None
      else oid ← hash_oid hashtype;
           Some (rsa_pkcs1_verify (mkRsa (modulus_octets k) n e) (digest_info oid digest) s)
  | PubDSA p q g y, [r; s] =>
      if bool_decide (hashtype ∈ dsa_hashes) then Some (dsa_verify p q g y digest r s) else None
  | PubECDSA oid x y, [r; s] =>
      if bool_decide (hashtype ∈ ecdsa_hashes)
      then Some (ecdsa_verify (ecc_point_of oid x y) digest r s) else None
  | PubEdDSA point, [r; s] =>
      if bool_decide (hashtype ∈ eddsa_hashes)
      then Some (ed25519_sha512_verify point digest (be_bytes 32 r ++ be_bytes 32 s)) else None
  | _, _ => None
  end.

(** The prefixes of rsa.c are those of DigestInfo. *)
Lemma digest_info_prefix oid n prefix :
  digest_info oid (replicate n 0) = prefix ++ replicate n 0 ->
  forall d, zlen d = Z.of_nat n -> digest_info oid d = prefix ++ d.
Proof.
  intros H d Hd.
  assert (E : forall d', zlen d' = Z.of_nat n -> digest_info oid d' =
    [0x30; zlen (der 0x30 (der_oid oid ++ der 5 [])) + 2 + Z.of_nat n] ++ der 0x30 (der_oid oid ++ der 5 []) ++ [4; Z.of_nat n] ++ d').
  { intros d' Hd'. unfold digest_info. set (a := der 0x30 (der_oid oid ++ _)). unfold der. rewrite zlen_app, !zlen_cons, Hd'.
    cbn [app]. do 2 f_equal. lia. }
  rewrite E in H |- * by (done || (unfold zlen; by rewrite length_replicate)).
  rewrite !app_assoc in H |- *. apply app_inv_tail in H. by rewrite H.
Qed.

Lemma rsa_verify_pkcs1 {NL : NettleLaws NT} hashtype key digest s :
  zlen digest = digest_size hashtype ->
  (verify ← rsa_verify hashtype; Some (verify key digest s)) =
  (oid ← hash_oid hashtype; Some (rsa_pkcs1_verify key (digest_info oid digest) s)).
Proof.
  unfold rsa_verify, hash_oid. intros Hd.
  repeat (case_if; [zbool; subst; cbn [mbind option_bind]; f_equal|]); [..|done].
  - by apply rsa_md5_pkcs1.
  - unfold rsa_ripemd160_verify_digest. by rewrite (digest_info_prefix oid_ripemd160 20 ripemd160_prefix eq_refl digest Hd).
  - by apply rsa_sha1_pkcs1.
  - unfold rsa_sha224_verify_digest. by rewrite (digest_info_prefix (oid_sha2 4) 28 sha224_prefix eq_refl digest Hd).
  - by apply rsa_sha256_pkcs1.
  - unfold rsa_sha384_verify_digest. by rewrite (digest_info_prefix (oid_sha2 2) 48 sha384_prefix eq_refl digest Hd).
  - by apply rsa_sha512_pkcs1.
Qed.

Lemma sig_material_encode sig s :
  signature_ok s -> sig_format_version s <> 2 ->
  pkt_data sig = encode_signature s -> pkt_length sig = zlen (pkt_data sig) ->
  exists pre, pkt_data sig = pre ++ sig_mpis s /\ sig_material sig = Done (inr (zlen pre, sig_pkalgo s)).
Proof.
  intros Hs Hv2 Hd Hl. unfold sig_material.
  destruct s as [v t time keyid pk h left16 mpis | v t pk h hashed unhashed left16 mpis];
    cbn [encode_signature sig_mpis sig_pkalgo sig_format_version] in *; pose proof (zlen_nonneg mpis).
  - destruct Hs as (Hv & Ht & Hkid & Hleft).
    assert (v = 3) as -> by lia. exists ([3; 5; t] ++ time ++ keyid ++ [pk; h] ++ left16).
    split; [rewrite Hd; by rewrite <- !app_assoc|].
    assert (Hlen : zlen (pkt_data sig) = 19 + zlen mpis) by (rewrite Hd; autorewrite with onak; lia).
    rewrite Hl, !(proj2 (Z.ltb_ge _ _)) by lia.
    assert (E : forall i, 3 <= i -> (pkt_data sig).[i] = (time ++ keyid ++ [pk; h] ++ left16 ++ mpis).[i - 3]).
    { intros i Hi. rewrite Hd, rd_app_r by (change (zlen [3; 5; t]) with 3; lia). done. }
    assert (E0 : (pkt_data sig).[0] = Done 3) by (by rewrite Hd).
    assert (E1 : (pkt_data sig).[1] = Done 5) by (by rewrite Hd).
    rewrite E0, E1. cbn [mbind outcome_bind Z.eqb Pos.eqb negb].
    rewrite E by lia. rewrite !rd_app_r by lia. rewrite Ht, Hkid. cbn [mbind outcome_bind].
    change ([pk; h] ++ left16 ++ mpis) with (pk :: h :: left16 ++ mpis). change (15 - 3 - 4 - 8) with 0.
    rewrite rd_cons_0. cbn [mbind outcome_bind]. do 3 f_equal. autorewrite with onak. lia.
  - destruct Hs as (Hv & Hha & Hun & Hleft).
    exists (encode_hashed v t pk h hashed ++ be_bytes 2 (zlen unhashed) ++ unhashed ++ left16).
    split; [rewrite Hd; by rewrite <- !app_assoc|].
    pose proof (zlen_nonneg hashed). pose proof (zlen_nonneg unhashed).
    pose proof (encode_hashed_len v t pk h hashed) as Hel. set (hb := encode_hashed v t pk h hashed) in *.
    assert (H2 : zlen (be_bytes 2 (zlen unhashed)) = 2) by done.
    assert (Hlen : zlen (pkt_data sig) = 10 + zlen hashed + zlen unhashed + zlen mpis)
      by (rewrite Hd, !zlen_app, Hel, H2; lia).
    assert (E0 : (pkt_data sig).[0] = Done v) by (by rewrite Hd).
    assert (E2 : (pkt_data sig).[2] = Done pk) by (by rewrite Hd).
    assert (E4 : (pkt_data sig).[4] = Done (zlen hashed / 256 mod 256)) by (by rewrite Hd).
    assert (E5 : (pkt_data sig).[5] = Done (zlen hashed mod 256)) by (by rewrite Hd).
    assert (Eu : (pkt_data sig).[6 + zlen hashed] = Done (zlen unhashed / 256 mod 256))
      by (rewrite Hd, <- Hel, rd_inside_0 by lia; done).
    assert (Ev : (pkt_data sig).[6 + zlen hashed + 1] = Done (zlen unhashed mod 256))
      by (rewrite Hd, <- Hel, rd_inside by lia; done).
    rewrite Hl, (proj2 (Z.ltb_ge _ _)) by lia. rewrite E0. cbn [mbind outcome_bind].
    rewrite (proj2 (Z.eqb_neq v 3)), (proj2 (Z.leb_le 4 v)) by lia. rewrite E4, E5. cbn [mbind outcome_bind].
    rewrite be_value_2 by lia. rewrite (Z.add_comm (zlen hashed) 6), (proj2 (Z.ltb_ge _ _)) by lia.
    rewrite Eu, Ev. cbn [mbind outcome_bind]. rewrite be_value_2 by lia. rewrite (proj2 (Z.ltb_ge _ _)) by lia.
    rewrite E2. cbn [mbind outcome_bind]. do 3 f_equal. rewrite !zlen_app, Hel, H2. lia.
Qed.

Lemma parse_sig_values_encode sig pre k vals edsig :
  pub_ok k -> values_ok k vals -> pkt_data sig = pre ++ encode_mpis vals ->
  pkt_length sig = zlen (pkt_data sig) -> zlen edsig = 64 ->
  parse_sig_values (pub_algo k) sig (zlen pre) edsig = Done (ONAK_E_OK,
    match k, vals with
    | PubRSA type _ _, [s] => if type =? OPENPGP_PKALGO_RSA_ENC then NoValues else ValuesRSA s
    | PubEdDSA _, [r; s] => ValuesEdDSA (be_bytes 32 r ++ be_bytes 32 s)
    | _, [r; s] => ValuesDSA r s
    | _, _ => NoValues
    end).
Proof.
  intros Hk [Hm Hv] Hd Hl He. rewrite <- (app_nil_r (encode_mpis vals)) in Hd.
  pose proof (read_mpis_encode sig vals pre [] Hd Hl Hm) as E. unfold parse_sig_values.
  destruct k as [t n e|p q g y|oid x y|point]; cbn [pub_algo].
  - destruct vals as [|s [|]]; try done. destruct Hk as [Ht _]. apply Forall_singleton in Hm as [Hs Hb].
    unfold encode_mpis in Hd. cbn [map concat] in Hd. rewrite !app_nil_r in Hd.
    rewrite <- (app_nil_r (encode_mpi s)) in Hd.
    assert (t = 1 \/ t = 2 \/ t = 3) as [->|[->| ->]] by lia; try done;
      by rewrite (MPI_TO_MPZ_encode sig pre s []) by done.
  - destruct vals as [|r [|s [|]]]; try done. cbn [length] in E. by rewrite E.
  - destruct vals as [|r [|s [|]]]; try done. cbn [length] in E. by rewrite E.
  - destruct vals as [|r [|s [|]]]; try done. cbn [length] in E.
    change (OPENPGP_PKALGO_EDDSA =? OPENPGP_PKALGO_EDDSA) with true. cbn match.
    change ((OPENPGP_PKALGO_EDDSA =? OPENPGP_PKALGO_ECDSA) || (OPENPGP_PKALGO_EDDSA =? OPENPGP_PKALGO_DSA)) with false.
    cbn match. rewrite E. cbn [mbind outcome_bind status_ok negb].
    apply Forall_cons in Hm as [[Hr _] [[Hs _] _]%Forall_cons]. destruct Hv as [Hr2 Hs2].
    assert (Hsz : forall v, 0 <= v < 2 ^ 256 -> (32 * 8 <? mpz_sizeinbase2 v) = false).
    { intros v Hvv. unfold mpz_sizeinbase2. apply Z.ltb_ge. case_if; [done|]. zbool.
      pose proof (Z.log2_lt_pow2 v 256). lia. }
    rewrite !Hsz by done. cbn [orb].
    destruct (split_at_len edsig 32 32) as (a & b & c & -> & Ha & Hb); [unfold zlen in He; lia|].
    unfold zlen in He. rewrite !length_app in He. destruct c; [|cbn in He; lia].
    assert (Ea : export_half (a ++ b ++ []) 0 r = Done (be_bytes 32 r ++ b ++ []))
      by (apply (export_half_ok [] a (b ++ []) r); [unfold zlen; lia | done]).
    rewrite Ea. cbn [mbind outcome_bind].
    assert (H32 : zlen (be_bytes 32 r) = 32) by (unfold zlen; by rewrite be_bytes_length).
    rewrite <- H32 at 1. rewrite (export_half_ok (be_bytes 32 r) b [] s) by (unfold zlen; done || lia).
    cbn [mbind outcome_bind].
    by rewrite app_nil_r.
Qed.

(** * Memory safety *)

Lemma byte_lor h l : byte h -> byte l -> 0 <= Z.lor (Z.shiftl h 8) l.
Proof. unfold byte. intros. apply Z.lor_nonneg. split; [apply Z.shiftl_nonneg|]; lia. Qed.

Lemma mpz_import_safe data o n :
  Forall byte data -> 0 <= o -> 0 <= n -> o + n <= zlen data ->
  exists v, mpz_import data o n = Done v /\ 0 <= v.
Proof.
  intros Hb Ho Hn Hl. unfold mpz_import. rewrite memcpy_from_ok by lia. eexists. split; [done|].
  apply be_value_bound. by apply Forall_take, Forall_drop.
Qed.

Lemma MPI_TO_MPZ_safe pk ofs :
  wf_packet pk -> 0 <= ofs ->
  exists rc v ofs', MPI_TO_MPZ pk ofs 0 = Done (rc, v, ofs') /\ 0 <= v /\ ofs <= ofs'.
Proof.
  intros [Hl Hb] Ho. unfold MPI_TO_MPZ. case_if; [eauto with lia|]. zbool.
  destruct (rd_ok_byte (pkt_data pk) ofs) as (h & -> & Hh); [done | lia |].
  destruct (rd_ok_byte (pkt_data pk) (ofs + 1)) as (l & -> & Hll); [done | lia |].
  cbn [mbind outcome_bind]. pose proof (byte_lor h l Hh Hll).
  assert (0 <= Z.shiftr (Z.lor (Z.shiftl h 8) l + 7) 3) by (apply Z.shiftr_nonneg; lia).
  case_if; [eauto with lia|]. zbool.
  destruct (mpz_import_safe (pkt_data pk) (ofs + 2) (Z.shiftr (Z.lor (Z.shiftl h 8) l + 7) 3)) as (v & -> & Hv);
    [done | lia | lia | lia |]. cbn [mbind outcome_bind]. eexists _, _, _. split; [done|]. lia.
Qed.

Lemma read_mpis_safe pk n : forall ofs,
  wf_packet pk -> 0 <= ofs ->
  exists rc vs, read_mpis n pk ofs = Done (rc, vs) /\ length vs = n /\ Forall (Z.le 0) vs.
Proof.
  induction n as [|n IH]; intros ofs Hp Ho; [by exists ONAK_E_OK, []|].
  cbn [read_mpis]. destruct (MPI_TO_MPZ_safe pk ofs Hp Ho) as (rc & v & ofs' & -> & Hv & Hofs).
  cbn [mbind outcome_bind]. case_if.
  - destruct (IH ofs') as (rc' & vs & -> & Hn & Hvs); [done | lia |]. cbn [mbind outcome_bind].
    eexists _, _. split; [done|]. split; [cbn; lia | by constructor].
  - eexists _, _. split; [done|]. split; [cbn; by rewrite length_replicate|].
    constructor; [done|]. apply Forall_forall. intros x Hx. apply elem_of_replicate in Hx as [-> _]. lia.
Qed.

Definition table_entry_ok (e : list Z * onak_oid) : Prop := hd 0 e.1 = zlen e.1 - 1.

Lemma oid_chain_safe table buf b0 :
  Forall table_entry_ok table -> buf.[0] = Done b0 -> b0 < zlen buf ->
  exists oid, oid_chain table buf = Done oid /\
    (oid = ONAK_OID_UNKNOWN \/ exists bs, (bs, oid) ∈ table /\ b0 = zlen bs - 1).
Proof.
  intros Ht H0 Hb. induction Ht as [|[bs oid] table He _ IH]; [exists ONAK_OID_UNKNOWN; auto|].
  cbn [oid_chain]. unfold table_entry_ok in He. cbn [fst] in He.
  destruct bs as [|b bs]; [done|]. cbn [hd buf_is] in *. rewrite H0. cbn [mbind outcome_bind].
  destruct (Z.eqb_spec b0 b) as [->|Hne].
  - rewrite zlen_cons in He. destruct (buf_is_ok bs buf (0 + 1)) as [r ->]; [lia | lia |].
    cbn [mbind outcome_bind]. destruct r.
    + exists oid. split; [done|]. right. exists (b :: bs). split; [left | rewrite zlen_cons; lia].
    + destruct IH as (oid' & -> & [->|(bs' & Hin & ->)]); eexists; (split; [done|]); [by left|].
      right. exists bs'. split; [by right | done].
  - cbn [mbind outcome_bind]. destruct IH as (oid' & -> & [->|(bs' & Hin & ->)]); eexists; (split; [done|]); [by left|].
    right. exists bs'. split; [by right | done].
Qed.

Lemma onak_parse_oid_safe buf len :
  0 <= len <= zlen buf ->
  exists oid, onak_parse_oid buf len = Done oid /\
    (oid = ONAK_OID_UNKNOWN \/ oid = ONAK_OID_INVALID \/
     exists b0 bs, buf.[0] = Done b0 /\ (bs, oid) ∈ oid_table /\ b0 = zlen bs - 1).
Proof.
  intros Hl. unfold onak_parse_oid. destruct (Z.eqb_spec len 0); [eauto|].
  destruct (rd_ok buf 0) as [b0 H0]; [lia|]. rewrite H0. cbn [mbind outcome_bind]. case_if; [eauto|]. zbool.
  destruct (oid_chain_safe oid_table buf b0) as (oid & -> & Ho); [|done | lia |].
  - apply (bool_decide_unpack _). vm_compute. exact I.
  - exists oid. split; [done|]. destruct Ho as [->|(bs & Hin & E)]; [auto|]. right; right. eauto 6.
Qed.

(** What a parsed key can be. *)
Definition material_ok (k : onak_key_material) : Prop :=
  match k with
  | KeyRSA type _ => 1 <= type <= 3
  | _ => True
  end.

Lemma ecdsa_material_safe pk ofs oid rest bits size n :
  wf_packet pk -> 0 <= ofs <= pkt_length pk -> pkt_length pk < 2 ^ 64 -> 0 <= size ->
  (pkt_data pk).[ofs] = Done n -> rest = n + 4 + 2 * size ->
  exists r, ecdsa_material pk ofs oid rest bits size = Done r /\
    (forall k, r = inr k -> material_ok k).
Proof.
  intros [Hl Hb] Ho H64 Hs Hn ->. pose proof (rd_byte _ _ _ Hb Hn) as Bn. unfold byte in Bn.
  unfold ecdsa_material. rewrite u64_small by lia. case_if; [eexists; by split|]. zbool.
  rewrite Hn. cbn [mbind outcome_bind].
  destruct (rd_ok (pkt_data pk) (ofs + n + 1)) as [h ->]; [lia|].
  destruct (rd_ok (pkt_data pk) (ofs + n + 1 + 1)) as [l ->]; [lia|]. cbn [mbind outcome_bind].
  case_if; [eexists; by split|].
  destruct (rd_ok (pkt_data pk) (ofs + n + 1 + 2)) as [f ->]; [lia|]. cbn [mbind outcome_bind].
  case_if; [eexists; by split|].
  destruct (mpz_import_safe (pkt_data pk) (ofs + n + 1 + 3) size) as (x & -> & _); [done | lia | lia | lia |].
  destruct (mpz_import_safe (pkt_data pk) (ofs + n + 1 + 3 + size) size) as (y & -> & _); [done | lia | lia | lia |].
  cbn [mbind outcome_bind]. eexists. split; [done|]. by intros k [= <-].
Qed.

Lemma eddsa_material_safe pk ofs oid n :
  wf_packet pk -> 0 <= ofs -> pkt_length pk - ofs = 45 -> (pkt_data pk).[ofs] = Done n ->
  (oid = ONAK_OID_ED25519 -> n = 9) ->
  exists r, eddsa_material pk ofs oid = Done r /\ (forall k, r = inr k -> material_ok k).
Proof.
  intros [Hl Hb] Ho Hlen Hn Hed. unfold eddsa_material. rewrite Hn. cbn [mbind outcome_bind].
  destruct oid; try (eexists; by split). rewrite (Hed eq_refl).
  destruct (rd_ok (pkt_data pk) (ofs + 9 + 1)) as [h ->]; [lia|].
  destruct (rd_ok (pkt_data pk) (ofs + 9 + 1 + 1)) as [l ->]; [lia|]. cbn [mbind outcome_bind].
  case_if; [eexists; by split|].
  destruct (rd_ok (pkt_data pk) (ofs + 9 + 1 + 2)) as [f ->]; [lia|]. cbn [mbind outcome_bind].
  case_if; [eexists; by split|]. rewrite memcpy_from_ok by lia. cbn [mbind outcome_bind].
  eexists. split; [done|]. by intros k [= <-].
Qed.

Lemma oid_table_octets bs oid : (bs, oid) ∈ oid_table -> bs = oid_octets oid.
Proof.
  revert bs oid. assert (H : Forall (fun e => e.1 = oid_octets e.2) oid_table)
    by (apply (bool_decide_unpack _); vm_compute; exact I).
  intros bs oid Hin. rewrite Forall_forall in H. apply (H (bs, oid) Hin).
Qed.

Lemma parse_key_material_safe pk :
  wf_packet pk -> pkt_length pk < 2 ^ 64 ->
  exists r, onak_parse_key_material pk = Done r /\ (forall k, r = inr k -> material_ok k).
Proof.
  intros Hwf H64. pose proof Hwf as [Hl Hb]. unfold onak_parse_key_material.
  case_if; [eexists; by split|]. zbool.
  destruct (rd_ok (pkt_data pk) 0) as [d0 ->]; [lia|]. cbn [mbind outcome_bind].
  case_if; [eexists; by split|]. destruct (rd_ok (pkt_data pk) 5) as [d5 ->]; [lia|]. cbn [mbind outcome_bind].
  set (ofs := if d0 =? 4 then 6 else 10). assert (Hofs : 0 <= ofs <= 10) by (unfold ofs; case_if; lia).
  rewrite u64_small by lia.
  destruct (onak_parse_oid_safe (drop (Z.to_nat ofs) (pkt_data pk)) (pkt_length pk - ofs)) as (oid & Eo & Ho).
  { unfold zlen in *. rewrite length_drop. lia. }
  rewrite Eo.
  assert (Hn : forall b0 bs, (drop (Z.to_nat ofs) (pkt_data pk)).[0] = Done b0 -> (bs, oid) ∈ oid_table ->
    b0 = zlen bs - 1 -> (pkt_data pk).[ofs] = Done (zlen (oid_octets oid) - 1)).
  { intros b0 bs E0 Hin ->. rewrite rd_drop in E0 by lia. rewrite Z2Nat.id, Z.add_0_r in E0 by lia.
    by rewrite <- (oid_table_octets bs oid). }
  assert (Hec : forall rest bits size, rest = zlen (oid_octets oid) + 3 + 2 * size -> 0 <= size ->
    oid <> ONAK_OID_UNKNOWN -> oid <> ONAK_OID_INVALID ->
    exists r, ecdsa_material pk ofs oid rest bits size = Done r /\ (forall k, r = inr k -> material_ok k)).
  { intros rest bits size Hrest Hs Hnu Hni. destruct Ho as [?|[?|(b0 & bs & E0 & Hin & E)]]; [done | done |].
    destruct (ecdsa_material_safe pk ofs oid rest bits size (zlen (oid_octets oid) - 1)) as (r & -> & Hr);
      [done | lia | lia | done | by eapply Hn | lia |].
    by exists r. }
  case_if; [cbn [mbind outcome_bind]; destruct oid; try (eexists; by split); by apply Hec|].
  case_if.
  { case_if; [eexists; by split|]. zbool. cbn [mbind outcome_bind].
    destruct Ho as [->|[->|(b0 & bs & E0 & Hin & E)]]; [by eexists | by eexists |].
    destruct (eddsa_material_safe pk ofs oid (zlen (oid_octets oid) - 1)) as (r & Er & Hr);
      [done | lia | done | by eapply Hn | by intros -> |].
    assert (Hfin : exists r, eddsa_material pk ofs oid = Done r /\ (forall k, r = inr k -> material_ok k)).
    { by exists r. }
    destruct oid; try exact Hfin; by eexists. }
  case_if.
  { destruct (read_mpis_safe pk 4 ofs) as (rc & vs & -> & Hv & _); [done | lia |]. cbn [mbind outcome_bind].
    destruct vs as [|p [|q [|g [|y [|]]]]]; try done. eexists. split; [done|]. by case_if; intros k [= <-]. }
  case_if; [|eexists; by split].
  destruct (rd_ok (pkt_data pk) 6) as [d6 ->]; [lia|]. destruct (rd_ok (pkt_data pk) 7) as [d7 ->]; [lia|].
  cbn [mbind outcome_bind].
  destruct (read_mpis_safe pk 2 ofs) as (rc & vs & -> & Hv & _); [done | lia |]. cbn [mbind outcome_bind].
  destruct vs as [|n [|e [|]]]; try done. eexists. split; [done|]. case_if; intros k [= <-]. cbn.
  repeat match goal with H : _ || _ = true |- _ => apply orb_true_iff in H as [H|H] end; zbool; subst; done.
Qed.

(** The values the verification of a key type needs have been written. *)
Definition values_for (type : Z) (v : sig_values) : Prop :=
  (type = OPENPGP_PKALGO_DSA \/ type = OPENPGP_PKALGO_ECDSA -> exists r s, v = ValuesDSA r s) /\
  (type = OPENPGP_PKALGO_EDDSA -> exists e, v = ValuesEdDSA e) /\
  (type = OPENPGP_PKALGO_RSA \/ type = OPENPGP_PKALGO_RSA_SIGN -> exists s, v = ValuesRSA s).

Lemma sizeinbase2_bound v : 0 <= v -> (32 * 8 <? mpz_sizeinbase2 v) = false -> v < 2 ^ 256.
Proof.
  unfold mpz_sizeinbase2. intros Hv H. case_if_in H; zbool; [lia|].
  destruct (Z.log2_spec v) as [_ Hlt]; [lia|]. eapply Z.lt_le_trans; [exact Hlt|].
  apply Z.pow_le_mono_r; lia.
Qed.

Lemma parse_sig_values_safe type sig ofs edsig :
  wf_packet sig -> 0 <= ofs -> zlen edsig = 64 ->
  exists rc v, parse_sig_values type sig ofs edsig = Done (rc, v) /\ (rc = ONAK_E_OK -> values_for type v).
Proof.
  intros Hs Ho He. unfold parse_sig_values.
  destruct (read_mpis_safe sig 2 ofs Hs Ho) as (rc & vs & -> & Hn & Hv).
  destruct vs as [|r [|s [|]]]; try done. apply Forall_cons in Hv as [Hr [Hs0 _]%Forall_cons].
  unfold values_for. case_if.
  { eexists _, _. split; [done|]. intros _. apply orb_true_iff in Heqb.
    repeat split; [eauto | |]; intros Ht; exfalso; destruct Heqb; zbool; subst; (done || destruct Ht; done). }
  apply orb_false_iff in Heqb as [? ?]. zbool.
  assert (Hdsa : ~ (type = OPENPGP_PKALGO_DSA \/ type = OPENPGP_PKALGO_ECDSA)) by (intros []; done).
  destruct (Z.eqb_spec type OPENPGP_PKALGO_EDDSA) as [->|Hed]; cbn [mbind outcome_bind].
  - destruct (status_ok rc) eqn:Erc; cbn [negb]; [|eexists _, _; split; [done|]; by intros ->].
    case_if; [eexists _, _; by split|]. apply orb_false_iff in Heqb as [E1 E2].
    apply (sizeinbase2_bound _ Hr) in E1. apply (sizeinbase2_bound _ Hs0) in E2.
    destruct (split_at_len edsig 32 32) as (a & b & c & -> & Ha & Hb); [unfold zlen in He; lia|].
    assert (Ea : export_half (a ++ b ++ c) 0 r = Done (be_bytes 32 r ++ b ++ c))
      by (apply (export_half_ok [] a (b ++ c) r); [unfold zlen; lia | done]).
    rewrite Ea. cbn [mbind outcome_bind].
    assert (H32 : zlen (be_bytes 32 r) = 32) by (unfold zlen; by rewrite be_bytes_length).
    pose proof (export_half_ok (be_bytes 32 r) b c s) as Eb. rewrite H32 in Eb.
    rewrite Eb by (unfold zlen; done || lia).
    cbn [mbind outcome_bind]. eexists _, _. split; [done|]. intros _.
    split; [done|]. split; [eauto | by intros []].
  - case_if; [|eexists _, _; split; [done|]; intros _; split; [done|]; split; [done|]; intros Ht; exfalso;
      apply orb_false_iff in Heqb as [? ?]; zbool; destruct Ht; done].
    destruct (MPI_TO_MPZ_safe sig ofs Hs Ho) as (rc' & v & ofs' & -> & _). cbn [mbind outcome_bind].
    eexists _, _. split; [done|]. intros _. split; [done|]. split; [done | eauto].
Qed.

Lemma sig_material_safe sig :
  wf_packet sig ->
  exists r, sig_material sig = Done r /\ (forall ofs t, r = inr (ofs, t) -> 0 <= ofs).
Proof.
  intros [Hl Hb]. unfold sig_material. case_if; [eexists; by split|]. zbool.
  destruct (rd_ok (pkt_data sig) 0) as [d0 ->]; [lia|]. cbn [mbind outcome_bind]. case_if.
  { destruct (rd_ok (pkt_data sig) 1) as [d1 ->]; [lia|]. cbn [mbind outcome_bind].
    case_if; [eexists; by split|]. case_if; [eexists; by split|]. zbool.
    destruct (rd_ok (pkt_data sig) 15) as [t ->]; [lia|]. eexists. split; [done|]. intros ? ? [= <- _]. lia. }
  case_if; [|eexists; by split].
  destruct (rd_ok_byte (pkt_data sig) 4) as (h & -> & Hh); [done | lia |].
  destruct (rd_ok_byte (pkt_data sig) 5) as (l & -> & Hl5); [done | lia |]. cbn [mbind outcome_bind].
  unfold byte in *. rewrite shiftl_8. case_if; [eexists; by split|]. zbool.
  destruct (rd_ok_byte (pkt_data sig) (h * 256 + l + 6)) as (uh & -> & Huh); [done | lia |].
  destruct (rd_ok_byte (pkt_data sig) (h * 256 + l + 6 + 1)) as (ul & -> & Hul); [done | lia |].
  cbn [mbind outcome_bind]. unfold byte in *. rewrite shiftl_8. case_if; [eexists; by split|]. zbool.
  destruct (rd_ok (pkt_data sig) 2) as [t ->]; [lia|]. eexists. split; [done|]. intros ? ? [= <- _]. lia.
Qed.

Lemma digest_size_range a : 0 <= digest_size a <= 64.
Proof. unfold digest_size. repeat case_if; lia. Qed.

Lemma keyhash_verify_safe k hashtype hash v :
  material_ok k -> values_for (key_type k) v -> 64 <= zlen hash ->
  exists rc, keyhash_verify k hashtype hash v = Done rc.
Proof.
  intros Hk (Hd & He & Hr) Hh. pose proof (digest_size_range hashtype) as Hs.
  unfold keyhash_verify. rewrite memcpy_from_ok by lia. cbn [mbind outcome_bind].
  destruct k as [p q g y|ecc|type rsa|ed]; cbn [key_type material_ok] in *.
  - case_if; [|eauto]. destruct Hd as (r & s & ->); eauto.
  - case_if; [|eauto]. destruct Hd as (r & s & ->); eauto.
  - case_if; [|eauto]. destruct (rsa_verify hashtype); [|eauto].
    destruct Hr as (s & ->); [|eauto]. apply orb_true_iff in Heqb as [?|?]; zbool; auto.
  - case_if; [|eauto]. destruct He as (e & ->); eauto.
Qed.

Lemma check_hash_sig_done sigkey sig hash hashtype edsig :
  wf_packet sigkey -> wf_packet sig -> pkt_length sigkey < 2 ^ 64 ->
  64 <= zlen hash -> zlen edsig = 64 ->
  exists rc, onak_check_hash_sig sigkey sig hash hashtype edsig = Done rc.
Proof.
  intros Hk Hs H64 Hh He. unfold onak_check_hash_sig.
  destruct (parse_key_material_safe sigkey Hk H64) as ([ret|k] & -> & Hmk); cbn [mbind outcome_bind]; [eauto|].
  destruct (sig_material_safe sig Hs) as ([ret|[ofs t]] & -> & Ho); cbn [mbind outcome_bind]; [eauto|].
  destruct (Z.eqb_spec (key_type k) t) as [<-|]; cbn [negb]; [|eauto].
  destruct (parse_sig_values_safe (key_type k) sig ofs edsig) as (rc & v & -> & Hv); [done | by eapply Ho | done |].
  cbn [mbind outcome_bind]. destruct (status_ok rc) eqn:E; [|eauto].
  apply keyhash_verify_safe; [by apply Hmk | apply Hv; by destruct rc | done].
Qed.

End SigCheck.

(** * Properties *)

(** C9: for an RSA, DSA, ECDSA or EdDSA public key packet of version 4 (or 5,
    RSA apart) and a signature packet of version 3, 4 or 5 of the same
    algorithm, checking the signature asks the crypto library about exactly the
    numbers of the key, the digest and the numbers of the signature (an EdDSA
    signature as 64 octets, padded, whatever the buffer held; the digest of an
    RSA signature in the DigestInfo of PKCS#1), and answers OK,
    or WEAK for MD5, exactly when the library accepts them; combinations
    without support are reported as such. *)
Theorem check_hash_sig_correct {NT : Nettle} {NL : NettleLaws NT} v time k s vals sigkey sig digest junk edsig hashtype :
  v = 4 \/ v = 5 /\ (forall t n e, k <> PubRSA t n e) -> zlen time = 4 -> pub_ok k ->
  pkt_data sigkey = encode_pub v time k -> pkt_length sigkey = zlen (pkt_data sigkey) ->
  51 <= pkt_length sigkey < 2 ^ 32 ->
  signature_ok s -> sig_format_version s <> 2 -> sig_pkalgo s = pub_algo k ->
  values_ok k vals -> sig_mpis s = encode_mpis vals ->
  pkt_data sig = encode_signature s -> pkt_length sig = zlen (pkt_data sig) ->
  zlen digest = digest_size hashtype -> zlen edsig = 64 ->
  onak_check_hash_sig sigkey sig (digest ++ junk) hashtype edsig =
    Done match pub_accepts k hashtype digest vals with
         | Some accepted => verdict hashtype accepted
         | None => ONAK_E_UNSUPPORTED_FEATURE
         end.
Proof.
  intros Hv Ht Hk Hkd Hkl Hklen Hs Hs2 Halgo Hvals Hm Hsd Hsl Hdig He. unfold onak_check_hash_sig.
  rewrite (parse_material sigkey v time k) by (done || tauto). cbn [mbind outcome_bind].
  destruct (sig_material_encode sig s Hs Hs2 Hsd Hsl) as (pre & Hpre & ->). cbn [mbind outcome_bind].
  rewrite Hm in Hpre. rewrite Halgo.
  assert (key_type (pub_material k (code_modulus_octets v k)) = pub_algo k) as -> by (by destruct k).
  rewrite Z.eqb_refl. cbn [negb].
  rewrite (parse_sig_values_encode sig pre k vals edsig) by done. cbn [mbind outcome_bind status_ok].
  assert (Hcp : memcpy_from (digest ++ junk) 0 (digest_size hashtype) = Done digest)
    by (rewrite <- Hdig; apply (memcpy_mid [] digest junk); done).
  assert (Hsize : (exists t n e, k = PubRSA t n e) -> code_modulus_octets v k = modulus_octets k).
  { intros (t & n & e & ->). destruct Hv as [->|[_ Hv]]; [done | by destruct (Hv t n e)]. }
  destruct Hvals as [_ Hvals]. unfold keyhash_verify, pub_accepts. rewrite Hcp. cbn [mbind outcome_bind].
  destruct k as [t n e|p q g y|oid x y|point]; cbn [pub_material].
  - destruct vals as [|r [|]]; try done. destruct Hk as [Hk _]. rewrite Hsize by eauto.
    assert (t = 1 \/ t = 2 \/ t = 3) as [->|[->| ->]] by lia; try done;
      cbn [OPENPGP_PKALGO_RSA OPENPGP_PKALGO_RSA_ENC OPENPGP_PKALGO_RSA_SIGN Z.eqb Pos.eqb orb];
      (rewrite <- rsa_verify_pkcs1 by done; by destruct (rsa_verify hashtype)).
  - destruct vals as [|r [|s' [|]]]; try done. by case_if.
  - destruct vals as [|r [|s' [|]]]; try done. by case_if.
  - destruct vals as [|r [|s' [|]]]; try done. by case_if.
Qed.

(** A small concrete instance: textbook equations instead of the padded and
    elliptic schemes. *)
Definition toy_pkcs1 (key : rsa_public_key) (info : list Z) (s : Z) : bool :=
  (rsa_size key =? zlen (mpz_export (rsa_n key))) && (s ^ rsa_e key mod rsa_n key =? be_value info mod rsa_n key).

Definition toy_nettle : Nettle := {|
  ecc_point := Z * Z;
  ecc_point_of := fun _ x y => (x, y);
  dsa_verify := fun p q g y digest r s => (g ^ be_value digest * y ^ r) mod p =? (r ^ s) mod p;
  ecdsa_verify := fun pub digest r s => pub.1 * r =? be_value digest + pub.2 * s;
  ed25519_sha512_verify := fun pub digest signature =>
    be_value signature =? be_value pub + be_value digest;
  rsa_pkcs1_verify := toy_pkcs1;
  rsa_md5_verify_digest := fun key d => toy_pkcs1 key (digest_info oid_md5 d);
  rsa_sha1_verify_digest := fun key d => toy_pkcs1 key (digest_info oid_sha1 d);
  rsa_sha256_verify_digest := fun key d => toy_pkcs1 key (digest_info (oid_sha2 1) d);
  rsa_sha512_verify_digest := fun key d => toy_pkcs1 key (digest_info (oid_sha2 3) d)
|}.

#[global] Instance toy_nettle_laws : NettleLaws toy_nettle.
Proof. by split. Qed.

Definition sample_ed_point : list Z := replicate 31 0 ++ [3].

Lemma check_hash_sig_correct_witness :
  let k := PubEdDSA sample_ed_point in
  let sigkey := mkPacket OPENPGP_PACKET_PUBLICKEY true 55 (encode_pub 5 [0; 0; 0; 1] k) in
  let s := SigV4 4 0x13 22 8 [] [] [0; 0] (encode_mpis [0; 10]) in
  let sig := mkPacket OPENPGP_PACKET_SIGNATURE true 15 (encode_signature s) in
  @onak_check_hash_sig toy_nettle sigkey sig ((replicate 31 0 ++ [7]) ++ replicate 32 9) 8 (replicate 64 77)
    = Done ONAK_E_OK.
Proof.
  intros k sigkey s sig.
  assert (H := @check_hash_sig_correct toy_nettle toy_nettle_laws 5 [0; 0; 0; 1] k s [0; 10] sigkey sig
    (replicate 31 0 ++ [7]) (replicate 32 9) (replicate 64 77) 8).
  etransitivity; [apply H|].
  - right. split; [reflexivity | discriminate].
  - reflexivity.
  - reflexivity.
  - reflexivity.
  - reflexivity.
  - split; vm_compute; [discriminate | reflexivity].
  - repeat split. left. repeat split; discriminate.
  - discriminate.
  - reflexivity.
  - split; [|split; reflexivity]. repeat constructor; vm_compute; (discriminate || reflexivity).
  - reflexivity.
  - reflexivity.
  - reflexivity.
  - reflexivity.
  - reflexivity.
  - vm_compute. reflexivity.
Defined.

(** Checking a signature, with any key packet, any signature packet and a
    64 byte digest buffer, terminates, never reads outside the packets or the
    buffers, and never uses a number it did not read. *)
Theorem check_hash_sig_safe {NT : Nettle} sigkey sig hash hashtype edsig :
  wf_packet sigkey -> wf_packet sig -> pkt_length sigkey < 2 ^ 64 ->
  64 <= zlen hash -> zlen edsig = 64 ->
  exists rc, onak_check_hash_sig sigkey sig hash hashtype edsig = Done rc.
Proof. apply check_hash_sig_done. Qed.

Lemma check_hash_sig_safe_witness :
  exists rc, @onak_check_hash_sig toy_nettle
    (mkPacket OPENPGP_PACKET_PUBLICKEY true 60 ([4; 0; 0; 0; 1; 19; 8; 0x2A; 0x86; 0x48; 0xCE; 0x3D] ++ replicate 48 3))
    (mkPacket OPENPGP_PACKET_SIGNATURE true 10 [4; 0; 19; 8; 0; 2; 255; 255; 0; 1]) (replicate 64 0) 8 (replicate 64 7)
    = Done rc.
Proof.
  apply (@check_hash_sig_safe toy_nettle); try done; apply (bool_decide_unpack _); vm_compute; exact I.
Defined.

(** The size of the modulus of a version 5 RSA key is taken from the length
    of the key material, not from the modulus: for every such key with less
    than 64 kB of material the verification functions are given a size of 0
    octets, although the modulus has [zlen (mpz_export n)]. *)
Theorem rsa_v5_size_zero {NT : Nettle} time t n e sigkey :
  zlen time = 4 -> pub_ok (PubRSA t n e) ->
  pkt_data sigkey = encode_pub 5 time (PubRSA t n e) -> pkt_length sigkey = zlen (pkt_data sigkey) ->
  51 <= pkt_length sigkey < 2 ^ 16 ->
  onak_parse_key_material sigkey = Done (inr (KeyRSA t (mkRsa 0 n e))).
Proof.
  intros Ht Hk Hd Hl Hlen. rewrite (parse_material sigkey 5 time (PubRSA t n e)) by (done || lia).
  cbn [pub_material]. unfold code_modulus_octets. cbn [Z.eqb Pos.eqb].
  pose proof (encode_pub_header_len 5 time (PubRSA t n e) (or_intror eq_refl) Ht) as Hh.
  rewrite Hl, Hd in Hlen. unfold encode_pub in Hlen. rewrite zlen_app, Hh in Hlen. cbn [Z.eqb Pos.eqb] in Hlen.
  pose proof (zlen_nonneg (encode_body (PubRSA t n e))). by rewrite (Z.div_small (zlen _) (2 ^ 16)) by lia.
Qed.

Lemma rsa_v5_size_zero_witness :
  let n := 2 ^ 400 + 1 in
  let sigkey := mkPacket OPENPGP_PACKET_PUBLICKEY true 66 (encode_pub 5 [0; 0; 0; 1] (PubRSA 1 n 3)) in
  @onak_parse_key_material toy_nettle sigkey = Done (inr (@KeyRSA toy_nettle 1 (mkRsa 0 n 3))).
Proof.
  intros n sigkey. apply (@rsa_v5_size_zero toy_nettle [0; 0; 0; 1] 1 n 3 sigkey);
    try (vm_compute; reflexivity); try (split; vm_compute; (discriminate || reflexivity)).
  split; [split; discriminate|]. repeat constructor; vm_compute; (discriminate || reflexivity).
Defined.
