(* ===== verification/DbCtx.v ===== *)
(** The interface between the program and a key database: the operations of
    [struct onak_dbctx] (keydb.h) that the modelled code calls.  A backend is
    an instance; [D] is its state.  Lookups return the count and the keys they
    append to an empty list.  [KeyDbMore] has the operations that only the key
    daemon and its clients pass on. *)

From S2P Require Import Prelude OpenPGP.

Class KeyDb (D : Type) : Type := {
  starttrans : D -> D * bool;
  endtrans : D -> D;
  fetch_key : D -> openpgp_fingerprint -> bool -> Z * list openpgp_publickey;
  fetch_key_id : D -> Z -> bool -> Z * list openpgp_publickey;
  fetch_key_fp : D -> openpgp_fingerprint -> bool -> Z * list openpgp_publickey;
  store_key : D -> openpgp_publickey -> bool -> bool -> D * Z
}.

Class KeyDbMore (D : Type) : Type := {
  fetch_key_text : D -> list Z -> Z * list openpgp_publickey;
  fetch_key_skshash : D -> list Z -> Z * list openpgp_publickey;
  delete_key : D -> openpgp_fingerprint -> bool -> D * Z;
  iterate_keys : D -> list openpgp_publickey
}.
