(* ===== verification/Clean.v ===== *)
(** Cleaning of keys before they are stored (cleankey.c): duplicate user ids
    and subkeys, size and number limits, signature hashes and signature
    verification. *)

From Stdlib Require Import String.
From S2P Require Import Prelude OpenPGP Streams KeyId Decode Keys Merge Sighash SigCheck DbCtx.

(** * Duplicates *)

(** The inner loop: as long as a later packet is a copy of the current one,
    its signatures are merged and it is unlinked. *)
Fixpoint merge_dups (fuel : nat) (log : openpgp_packet -> outcome unit) (cur : openpgp_signedpacket)
    (next : list openpgp_signedpacket) (merged : Z)
    : outcome (openpgp_signedpacket * list openpgp_signedpacket * Z) :=
  found ← find_signed_packet next (sp_packet cur);
  match found with
  | None => Done (cur, next, merged)
  | Some (pre, dup, post) =>
      match fuel with
      | O => Fault OutOfFuel
      | S fuel =>
          _ ← log (sp_packet cur);
          '(cur, _) ← merge_packet_sigs cur dup;
          merge_dups fuel log cur (pre ++ post) (i32 (merged + 1))
      end
  end.

(** The outer loop over the list. *)
Fixpoint dedup_packets (fuel : nat) (log : openpgp_packet -> outcome unit)
    (l : list openpgp_signedpacket) (merged : Z) : outcome (list openpgp_signedpacket * Z) :=
  match l with
  | [] => Done ([], merged)
  | cur :: next =>
      match fuel with
      | O => Fault OutOfFuel
      | S fuel =>
          '(cur, next, merged) ← merge_dups (length next) log cur next merged;
          '(next, merged) ← dedup_packets fuel log next merged;
          Done (cur :: next, merged)
      end
  end.

Definition dedupuids (key : openpgp_publickey) : outcome (openpgp_publickey * Z) :=
  '(l, n) ← dedup_packets (length (pk_uids key)) (fun _ => Done tt) (pk_uids key) 0;
  Done (set_pk_uids key l, n).

(** The key id of the subkey is computed for the log message. *)
Definition dedupsubkeys {HF : Hashes} {BC : BuildConfig} (key : openpgp_publickey)
    : outcome (openpgp_publickey * Z) :=
  '(l, n) ← dedup_packets (length (pk_subkeys key))
    (fun p => '(_, id) ← get_packetid p; _ ← read_var id; Done tt) (pk_subkeys key) 0;
  Done (set_pk_subkeys key l, n).

(** * Signature hashes *)

Section Sigs.
Context {HF : Hashes} {BC : BuildConfig} {NT : Nettle} {D : Type} {DB : KeyDb D}.
(** The database, and what the stack buffers happen to hold. *)
Context (dbctx : D) (stack : list Z).

(** [for (curkey = sigkeys; ...)]: whether one of the keys verifies. *)
Fixpoint any_key_verifies (sigkeys : list openpgp_publickey) (sig : openpgp_packet) (hash : list Z)
    (hashtype : Z) : outcome bool :=
  match sigkeys with
  | [] => Done false
  | k :: sigkeys =>
      ret ← onak_check_hash_sig (pk_publickey k) sig hash hashtype stack;
      if status_ok ret then Done true else any_key_verifies sigkeys sig hash hashtype
  end.

(** The part behind HAVE_CRYPTO, for a signature that is still to be kept:
    whether to remove it, whether it is a valid self signature, and whether
    another key verifies it. *)
Definition verify_sig (key : openpgp_publickey) (keyid : option Z) (sig : openpgp_packet)
    (hash : list Z) (hashtype : Z) : outcome (bool * bool * bool) :=
  '(_, sigid, _) ← sig_info sig (Some None) None;
  sigid ← deref sigid;
  keyid ← read_var keyid;
  self ← (if sigid =? keyid then
            ret ← onak_check_hash_sig (pk_publickey key) sig hash hashtype stack;
            Done (status_ok ret)
          else Done false);
  let sigkeys := if (self : bool) then [] else (fetch_key_id dbctx sigid false).2 in
  other ← any_key_verifies sigkeys sig hash hashtype;
  Done (negb (self || other), self, other).

(** One iteration of the loop. *)
Definition clean_sighash (key : openpgp_publickey) (keyid : option Z)
    (sigdata : option openpgp_packet) (sig : openpgp_packet) (fullverify : bool)
    : outcome (bool * bool * bool) :=
  r ← calculate_packet_sighash key sigdata sig;
  remove ←
    match sh_status r with
    | ONAK_E_UNSUPPORTED_FEATURE => _ ← read_var keyid; Done fullverify
    | ONAK_E_OK =>
        if fullverify then Done false
        else
          match sh_hash r, sh_sighash r with
          | Some h, Some o =>
              h0 ← h.[0];
              s0 ← (pkt_data sig).[o];
              if h0 =? s0 then
                h1 ← h.[1];
                s1 ← (pkt_data sig).[o + 1];
                Done (negb (h1 =? s1))
              else Done true
          | None, _ => Fault Uninitialised
          | _, None => Fault NullDeref
          end
    | _ => Done true
    end;
  if have_crypto && fullverify && negb remove then
    match sh_hash r with
    | Some h => verify_sig key keyid sig (h ++ stack) (sh_hashtype r)
    | None => Fault Uninitialised
    end
  else Done (remove, false, false).

(** The signatures that stay, how many were removed, [*selfsig] and
    [*othersig]. *)
Fixpoint clean_sighashes_loop (key : openpgp_publickey) (keyid : option Z)
    (sigdata : option openpgp_packet) (sigs : list openpgp_packet) (fullverify : bool)
    (removed : Z) (selfsig othersig : bool) : outcome (list openpgp_packet * Z * bool * bool) :=
  match sigs with
  | [] => Done ([], removed, selfsig, othersig)
  | sig :: sigs =>
      '(remove, self, other) ← clean_sighash key keyid sigdata sig fullverify;
      '(kept, removed, selfsig, othersig) ←
        clean_sighashes_loop key keyid sigdata sigs fullverify
          (if remove then i32 (removed + 1) else removed) (selfsig || self) (othersig || other);
      Done (if (remove : bool) then kept else sig :: kept, removed, selfsig, othersig)
  end.

Definition clean_sighashes (key : openpgp_publickey) (sigdata : option openpgp_packet)
    (sigs : list openpgp_packet) (fullverify othersig : bool)
    : outcome (list openpgp_packet * Z * bool * bool) :=
  '(_, keyid) ← get_keyid key;
  clean_sighashes_loop key keyid sigdata sigs fullverify 0 false othersig.

(** The first loop of [clean_list_sighashes]. *)
Fixpoint clean_list_loop (key : openpgp_publickey) (l : list openpgp_signedpacket)
    (fullverify othersig : bool) (removed : Z) : outcome (list openpgp_signedpacket * Z * bool) :=
  match l with
  | [] => Done ([], removed, othersig)
  | sp :: l =>
      '(sigs, n, selfsig, othersig) ←
        clean_sighashes key (Some (sp_packet sp)) (sp_sigs sp) fullverify othersig;
      '(rest, removed, othersig) ← clean_list_loop key l fullverify othersig (i32 (removed + n));
      Done (if fullverify && negb selfsig then rest else set_sp_sigs sp sigs :: rest, removed, othersig)
  end.

Definition clean_list_sighashes (key : openpgp_publickey) (siglist : list openpgp_signedpacket)
    (fullverify needother : bool) : outcome (list openpgp_signedpacket * Z) :=
  '(l, removed, othersig) ← clean_list_loop key siglist fullverify false 0;
  Done (if needother && fullverify && negb othersig then [] else l, removed).

Definition clean_key_signatures (key : openpgp_publickey) (fullverify needother : bool)
    : outcome (openpgp_publickey * Z) :=
  '(sigs, n, _, _) ← clean_sighashes key None (pk_sigs key) fullverify false;
  let key := set_pk_sigs key sigs in
  '(uids, m) ← clean_list_sighashes key (pk_uids key) fullverify needother;
  let key := set_pk_uids key uids in
  '(subkeys, o) ← clean_list_sighashes key (pk_subkeys key) fullverify false;
  Done (set_pk_subkeys key subkeys, i32 (i32 (n + m) + o)).

End Sigs.

(** * Limits *)

Definition UAT_LIMIT : Z := 0xFFFF.
Definition UID_LIMIT : Z := 1024.
Definition PACKET_LIMIT : Z := 8383.
Definition MAX_UIDS_PER_KEY : Z := 32.
Definition MAX_UATS_PER_KEY : Z := 4.

(** The subpacket loop of [signedpacket_is_primary]; [data] starts at the
    length of the hashed area. *)
Fixpoint primary_loop (fuel : nat) (data : list Z) (offset sub_len : Z) : outcome bool :=
  if offset + 2 <? sub_len then
    match fuel with
    | O => Fault OutOfFuel
    | S fuel =>
        b ← data.[offset];
        let offset := offset + 1 in
        lo ← (if (191 <? b) && (b <? 255) then
                c ← data.[offset];
                Done (Some (Z.shiftl (b - 192) 8 + c + 192, offset + 1))
              else if b =? 255 then
                if sub_len <? offset + 4 then Done None
                else
                  b0 ← data.[offset];
                  b1 ← data.[offset + 1];
                  b2 ← data.[offset + 2];
                  b3 ← data.[offset + 3];
                  Done (Some (u32 (u32 (Z.shiftl b0 24) + u32 (Z.shiftl b1 16) + u32 (Z.shiftl b2 8) + b3),
                              offset + 4))
              else Done (Some (b, offset)));
        match lo with
        | None => Done false
        | Some (packet_len, offset) =>
            if (packet_len =? 0) || (u64 (sub_len - offset) <? packet_len) then Done false
            else
              t ← data.[offset];
              found ← (if (Z.land t 0x7f =? OPENPGP_SIGSUB_PRIMARYUID) && (2 <=? packet_len) then
                         v ← data.[offset + 1];
                         Done (negb (v =? 0))
                       else Done false);
              if (found : bool) then Done true else primary_loop fuel data (offset + packet_len) sub_len
        end
    end
  else Done false.

(** One signature: a version 4 or 5 certification with the flag in its hashed
    area. *)
Definition sig_is_primary (p : openpgp_packet) : outcome bool :=
  if pkt_length p <? 6 then Done false
  else
    d0 ← (pkt_data p).[0];
    if negb (d0 =? 4) && negb (d0 =? 5) then Done false
    else
      d1 ← (pkt_data p).[1];
      if (d1 <? 0x10) || (0x13 <? d1) then Done false
      else
        let data := drop 4 (pkt_data p) in
        h ← data.[0];
        l ← data.[1];
        let sub_len := Z.shiftl h 8 + l + 2 in
        if u64 (pkt_length p - 4) <? sub_len then Done false
        else primary_loop (Z.to_nat sub_len) data 2 sub_len.

Fixpoint any_primary (sigs : list openpgp_packet) : outcome bool :=
  match sigs with
  | [] => Done false
  | s :: sigs => b ← sig_is_primary s; if (b : bool) then Done true else any_primary sigs
  end.

Definition signedpacket_is_primary (spl : openpgp_signedpacket) : outcome bool :=
  any_primary (sp_sigs spl).

Definition urn_prefix : list Z := str "UID:urn:".

Definition signedpacket_is_urn_anchor (spl : openpgp_signedpacket) : outcome bool :=
  let p := sp_packet spl in
  if negb (pkt_tag p =? OPENPGP_PACKET_UID) || (pkt_length p <? zlen urn_prefix) then Done false
  else
    bs ← memcpy_from (pkt_data p) 0 (zlen urn_prefix);
    Done (memcmp bs urn_prefix (length urn_prefix) =? 0).

(** Pass 1: the packets of the tag that are not revoked, and the revoked
    ones. *)
Fixpoint count_packets (l : list openpgp_signedpacket) (tag active revoked : Z)
    : outcome (Z * Z) :=
  match l with
  | [] => Done (active, revoked)
  | sp :: l =>
      if pkt_tag (sp_packet sp) =? tag then
        r ← signedpacket_is_revoked sp;
        if (r : bool) then count_packets l tag active (u32 (revoked + 1))
        else count_packets l tag (u32 (active + 1)) revoked
      else count_packets l tag active revoked
  end.

(** Pass 2. *)
Fixpoint drop_oldest (l : list openpgp_signedpacket) (tag drop_active drop_revoked : Z)
    (primary_kept anchor_kept : bool) (dropped : Z) : outcome (list openpgp_signedpacket * Z) :=
  match l with
  | [] => Done ([], dropped)
  | sp :: next =>
      let keep da dr pk ak :=
        '(next, dropped) ← drop_oldest next tag da dr pk ak dropped; Done (sp :: next, dropped) in
      if (drop_active =? 0) && (drop_revoked =? 0) then Done (l, dropped)
      else if negb (pkt_tag (sp_packet sp) =? tag) then
        keep drop_active drop_revoked primary_kept anchor_kept
      else
        is_rev ← signedpacket_is_revoked sp;
        if (is_rev : bool) then
          if drop_revoked =? 0 then keep drop_active drop_revoked primary_kept anchor_kept
          else drop_oldest next tag drop_active (drop_revoked - 1) primary_kept anchor_kept (i32 (dropped + 1))
        else if drop_active =? 0 then keep drop_active drop_revoked primary_kept anchor_kept
        else
          primary ← (if primary_kept then Done false else signedpacket_is_primary sp);
          if (primary : bool) then keep drop_active drop_revoked true anchor_kept
          else
            anchor ← (if anchor_kept then Done false else signedpacket_is_urn_anchor sp);
            if (anchor : bool) then keep drop_active drop_revoked primary_kept true
            else drop_oldest next tag (drop_active - 1) drop_revoked primary_kept anchor_kept (i32 (dropped + 1))
  end.

Definition cap_packet_type (key : openpgp_publickey) (tag max_active max_revoked : Z)
    : outcome (openpgp_publickey * Z) :=
  '(active, revoked) ← count_packets (pk_uids key) tag 0 0;
  let drop_active := if max_active <? active then active - max_active else 0 in
  let drop_revoked := if max_revoked <? revoked then revoked - max_revoked else 0 in
  if (drop_active =? 0) && (drop_revoked =? 0) then Done (key, 0)
  else
    '(uids, dropped) ← drop_oldest (pk_uids key) tag drop_active drop_revoked false false 0;
    Done (set_pk_uids key uids, dropped).

Definition cap_uids_per_key (key : openpgp_publickey) : outcome (openpgp_publickey * Z) :=
  cap_packet_type key OPENPGP_PACKET_UID MAX_UIDS_PER_KEY MAX_UIDS_PER_KEY.

Definition cap_uats_per_key (key : openpgp_publickey) : outcome (openpgp_publickey * Z) :=
  cap_packet_type key OPENPGP_PACKET_UAT MAX_UATS_PER_KEY MAX_UATS_PER_KEY.

Definition is_large (p : openpgp_packet) : bool :=
  if pkt_tag p =? OPENPGP_PACKET_UID then UID_LIMIT <? pkt_length p
  else if pkt_tag p =? OPENPGP_PACKET_UAT then UAT_LIMIT <? pkt_length p
  else PACKET_LIMIT <? pkt_length p.

Fixpoint drop_large (l : list openpgp_signedpacket) (dropped : Z) : list openpgp_signedpacket * Z :=
  match l with
  | [] => ([], dropped)
  | sp :: l =>
      if is_large (sp_packet sp) then drop_large l (i32 (dropped + 1))
      else let '(l, dropped) := drop_large l dropped in (sp :: l, dropped)
  end.

Definition clean_large_packets (key : openpgp_publickey) : openpgp_publickey * Z :=
  let '(l, dropped) := drop_large (pk_uids key) 0 in (set_pk_uids key l, dropped).

(** The first [max] signatures of every packet of the tag. *)
Fixpoint cap_sigs_loop (l : list openpgp_signedpacket) (tag max dropped : Z)
    : list openpgp_signedpacket * Z :=
  match l with
  | [] => ([], dropped)
  | sp :: l =>
      if negb (pkt_tag (sp_packet sp) =? tag) then
        let '(l, dropped) := cap_sigs_loop l tag max dropped in (sp :: l, dropped)
      else
        let kept := take (Z.to_nat max) (sp_sigs sp) in
        let rest := drop (Z.to_nat max) (sp_sigs sp) in
        let '(l, dropped) := cap_sigs_loop l tag max (i32 (dropped + zlen rest)) in
        (set_sp_sigs sp kept :: l, dropped)
  end.

Definition cap_sigs_per_packet (key : openpgp_publickey) (tag max : Z) : openpgp_publickey * Z :=
  if max =? 0 then (key, 0)
  else let '(l, dropped) := cap_sigs_loop (pk_uids key) tag max 0 in (set_pk_uids key l, dropped).

(** * The cleaning pass *)

Definition ONAK_CLEAN_CHECK_SIGHASH : Z := Z.shiftl 1 0.
Definition ONAK_CLEAN_LARGE_PACKETS : Z := Z.shiftl 1 1.
Definition ONAK_CLEAN_UPDATE_ONLY : Z := Z.shiftl 1 3.
Definition ONAK_CLEAN_VERIFY_SIGNATURES : Z := Z.shiftl 1 4.
Definition ONAK_CLEAN_NEED_OTHER_SIG : Z := Z.shiftl 1 5.
Definition ONAK_CLEAN_CAP_UIDS : Z := Z.shiftl 1 6.
Definition ONAK_CLEAN_CAP_UATS : Z := Z.shiftl 1 7.

(** [policies & flags]. *)
Definition policy (policies flags : Z) : bool := negb (Z.land policies flags =? 0).

(** The settings of [config] that are used. *)
Record onak_config : Type := mkConfig {
  max_sigs_per_uid : Z;
  max_sigs_per_uat : Z
}.

Fixpoint dedupe_sigs_list (l : list openpgp_signedpacket) (count : Z)
    : outcome (list openpgp_signedpacket * Z) :=
  match l with
  | [] => Done ([], count)
  | sp :: l =>
      '(sigs, n) ← dedupe_sigs (sp_sigs sp);
      '(l, count) ← dedupe_sigs_list l (i32 (count + n));
      Done (set_sp_sigs sp sigs :: l, count)
  end.

(** The three [dedupe_sigs] passes over a key. *)
Definition dedupe_key_sigs (key : openpgp_publickey) (count : Z) : outcome (openpgp_publickey * Z) :=
  '(sigs, n) ← dedupe_sigs (pk_sigs key);
  '(uids, count) ← dedupe_sigs_list (pk_uids key) (i32 (count + n));
  '(subkeys, count) ← dedupe_sigs_list (pk_subkeys key) count;
  Done (set_pk_subkeys (set_pk_uids (set_pk_sigs key sigs) uids) subkeys, count).

(** A step that is only taken if a condition holds, adding to [count]. *)
Definition clean_step (cond : bool) (step : openpgp_publickey -> outcome (openpgp_publickey * Z))
    (key : openpgp_publickey) (count : Z) : outcome (openpgp_publickey * Z) :=
  if cond then '(key, n) ← step key; Done (key, i32 (count + n)) else Done (key, count).

Section Cleankeys.
Context {HF : Hashes} {BC : BuildConfig} {NT : Nettle} {D : Type} {DB : KeyDb D}.
Context (dbctx : D) (stack : list Z) (config : onak_config).

(** The signature checks of one key. *)
Definition check_signatures (policies : Z) (key : openpgp_publickey) : outcome (openpgp_publickey * Z) :=
  needother ←
    (if policy policies ONAK_CLEAN_NEED_OTHER_SIG then
       '(_, fp) ← get_fingerprint (pk_publickey key);
       Done ((fetch_key dbctx fp false).1 =? 0)
     else Done false);
  clean_key_signatures dbctx stack key (policy policies ONAK_CLEAN_VERIFY_SIGNATURES) needother.

(** The body of the loop for a key of version 4 or later, up to the test of
    [count]. *)
Definition clean_key (policies : Z) (key : openpgp_publickey) (count : Z)
    : outcome (openpgp_publickey * Z) :=
  '(key, count) ← clean_step (policy policies ONAK_CLEAN_LARGE_PACKETS)
    (fun k => Done (clean_large_packets k)) key count;
  '(key, count) ← clean_step true dedupuids key count;
  '(key, count) ← clean_step true dedupsubkeys key count;
  '(key, count) ← clean_step (policy policies ONAK_CLEAN_CAP_UIDS) cap_uids_per_key key count;
  '(key, count) ← clean_step (policy policies ONAK_CLEAN_CAP_UATS) cap_uats_per_key key count;
  '(key, count) ← dedupe_key_sigs key count;
  '(key, count) ← clean_step (0 <? max_sigs_per_uid config)
    (fun k => Done (cap_sigs_per_packet k OPENPGP_PACKET_UID (max_sigs_per_uid config))) key count;
  '(key, count) ← clean_step (0 <? max_sigs_per_uat config)
    (fun k => Done (cap_sigs_per_packet k OPENPGP_PACKET_UAT (max_sigs_per_uat config))) key count;
  clean_step (policy policies (Z.lor ONAK_CLEAN_CHECK_SIGHASH ONAK_CLEAN_VERIFY_SIGNATURES))
    (check_signatures policies) key count.

Fixpoint cleankeys_loop (policies : Z) (keys : list openpgp_publickey) (changed count : Z)
    : outcome (list openpgp_publickey * Z) :=
  match keys with
  | [] => Done ([], changed)
  | key :: keys =>
      d0 ← (pkt_data (pk_publickey key)).[0];
      if d0 <? 4 then cleankeys_loop policies keys (i32 (changed + 1)) count
      else
        '(key, count) ← clean_key policies key count;
        let changed := if 0 <? count then i32 (changed + 1) else changed in
        '(keys, changed) ← cleankeys_loop policies keys changed count;
        Done (match pk_uids key with [] => keys | _ => key :: keys end, changed)
  end.

(** [None] is a NULL pointer to the list. *)
Definition cleankeys (keys : option (list openpgp_publickey)) (policies : Z)
    : outcome (option (list openpgp_publickey) * Z) :=
  match keys with
  | None => Done (None, 0)
  | Some keys =>
      '(keys, changed) ← cleankeys_loop policies keys 0 0;
      Done (Some keys, changed)
  end.

End Cleankeys.
