(* ===== verification/CleanFacts.v ===== *)
(** Correctness of the cleaning pass (Clean.v): what every step keeps and
    removes, that it terminates without a fault, and what holds of the keys
    that come out. *)

From Stdlib Require Import String.
From S2P Require Import Prelude OpenPGP Streams KeyId Decode Keys Merge Sighash SigCheck DbCtx Clean.

(** * Duplicates *)

(** A signature of the same version by the same signer is among [l]. *)
Definition signer_in (s : openpgp_packet) (l : list openpgp_packet) : Prop :=
  exists w, w ∈ l /\ sig_version w = sig_version s /\ sig_kid w = sig_kid s.

(** [l'] has the packets of [l], each once, with the signers of every copy. *)
Record deduped (l l' : list openpgp_signedpacket) : Prop := {
  dd_distinct : distinct_sps l';
  dd_good : Forall signed_good l';
  dd_sub : map sp_id l' `sublist_of` map sp_id l;
  dd_keeps : forall sp, sp ∈ l -> exists sp', sp' ∈ l' /\ sp_id sp' = sp_id sp /\
    forall s, s ∈ sp_sigs sp -> signer_in s (sp_sigs sp');
  dd_packets : forall P : openpgp_packet -> Prop,
    Forall (fun sp => P (sp_packet sp)) l -> Forall (fun sp => P (sp_packet sp)) l';
  dd_sigs : forall P : openpgp_packet -> Prop,
    Forall (fun sp => Forall P (sp_sigs sp)) l -> Forall (fun sp => Forall P (sp_sigs sp)) l'
}.

Lemma signer_in_self s l : s ∈ l -> signer_in s l.
Proof. intros. by exists s. Qed.

Lemma signer_in_trans s l l' :
  signer_in s l -> (forall x, x ∈ l -> signer_in x l') -> signer_in s l'.
Proof.
  intros (w & Hw & Hv & Hk) H. destruct (H w Hw) as (x & Hx & Hxv & Hxk).
  exists x. repeat split; congruence.
Qed.

Lemma merged_sigs_signers old new s :
  Forall sig_good old -> Forall sig_good new -> s ∈ old \/ s ∈ new -> signer_in s (merged_sigs old new).
Proof.
  intros Ho Hn Hs. destruct (merged_sigs_represent old new s Ho Hn Hs) as (w & Hw & Hv & Hk & _).
  by exists w.
Qed.

Lemma merged_sigs_good old new :
  Forall sig_good old -> Forall sig_good new -> Forall sig_good (merged_sigs old new).
Proof. intros. apply kept_sigs_good, Forall_app. unfold diff_sigs. auto with onak. Qed.

Lemma sublist_Forall {A} (P : A -> Prop) l k : l `sublist_of` k -> Forall P k -> Forall P l.
Proof. induction 1; intros H'; inversion H'; subst; auto. Qed.

Lemma kept_sigs_sublist l : Forall sig_good l -> kept_sigs l `sublist_of` l.
Proof.
  intros Hl. destruct (dedupe_sigs_kept l Hl) as (n & _ & Hr). apply Hr.
Qed.

Lemma merged_sigs_all (P : openpgp_packet -> Prop) old new :
  Forall sig_good old -> Forall sig_good new -> Forall P old -> Forall P new -> Forall P (merged_sigs old new).
Proof.
  intros Go Gn Ho Hn. eapply sublist_Forall; [apply kept_sigs_sublist|];
    apply Forall_app; unfold diff_sigs; auto with onak.
Qed.

(** What the inner loop makes of the current packet and the ones behind it. *)
Record dups_merged (cur : openpgp_signedpacket) (next : list openpgp_signedpacket)
    (cur' : openpgp_signedpacket) (next' : list openpgp_signedpacket) : Prop := {
  dm_packet : sp_packet cur' = sp_packet cur;
  dm_good : signed_good cur';
  dm_sub : next' `sublist_of` next;
  dm_gone : sp_id cur' ∉ map sp_id next';
  dm_cur : forall s, s ∈ sp_sigs cur -> signer_in s (sp_sigs cur');
  dm_next : forall sp, sp ∈ next -> sp ∈ next' \/
    sp_id sp = sp_id cur /\ forall s, s ∈ sp_sigs sp -> signer_in s (sp_sigs cur');
  dm_sigs : forall P : openpgp_packet -> Prop,
    Forall P (sp_sigs cur) -> Forall (fun sp => Forall P (sp_sigs sp)) next -> Forall P (sp_sigs cur')
}.

Lemma merge_dups_good log fuel : forall cur next m,
  (length next <= fuel)%nat -> signed_good cur -> Forall signed_good next -> log (sp_packet cur) = Done tt ->
  exists cur' next' n, merge_dups fuel log cur next m = Done (cur', next', n) /\ dups_merged cur next cur' next'.
Proof.
  induction fuel as [|fuel IH]; intros cur next m Hf Hc Hn Hlog;
    destruct (find_signed_packet_spec next (sp_packet cur) Hn (proj1 Hc)) as (found & Efind & Hfind);
    cbn [merge_dups]; rewrite Efind; cbn [mbind outcome_bind]; destruct found as [[[pre dup] post]|].
  2,4: exists cur, next, m; split; [done|]; split; auto using signer_in_self.
  { destruct Hfind as (-> & _). rewrite length_app in Hf. cbn in Hf. lia. }
  destruct Hfind as (-> & Hid & _). rewrite length_app in Hf. cbn [length] in Hf.
  apply Forall_app in Hn as [Hpre [Hdup Hpost]%Forall_cons].
  rewrite Hlog. cbn [mbind outcome_bind]. rewrite merge_packet_sigs_good; [|done | done | by apply same_packet_id].
  cbn [mbind outcome_bind]. set (cur1 := set_sp_sigs cur _).
  destruct (IH cur1 (pre ++ post) (i32 (m + 1))) as (cur' & next' & n & E & H).
  { rewrite length_app. lia. }
  { split; [apply Hc|]. cbn. apply merged_sigs_good; [apply Hc | apply Hdup]. }
  { by apply Forall_app. }
  { done. }
  exists cur', next', n. split; [exact E|]. destruct H as [Hp Hg Hs Hgone Hcur Hnext Hall].
  assert (Hm : forall s, s ∈ sp_sigs cur \/ s ∈ sp_sigs dup -> signer_in s (sp_sigs cur')).
  { intros s Hin. apply (signer_in_trans s (sp_sigs cur1)); [|done].
    apply merged_sigs_signers; [apply Hc | apply Hdup | done]. }
  split; [done | done | | done | auto | |].
  - etransitivity; [exact Hs|]. apply sublist_app; [done | by apply sublist_cons].
  - intros sp Hin. rewrite elem_of_app, elem_of_cons in Hin.
    assert (Hin' : sp = dup \/ sp ∈ pre ++ post) by (rewrite elem_of_app; tauto).
    destruct Hin' as [->|Hin']; [right; split; [exact Hid | auto]|]. by apply Hnext.
  - intros P HPc [HPpre [HPdup HPpost]%Forall_cons]%Forall_app. apply Hall; [|by apply Forall_app].
    apply merged_sigs_all; [apply Hc | apply Hdup | done | done].
Qed.

Lemma sublist_map {A B} (f : A -> B) l k : l `sublist_of` k -> map f l `sublist_of` map f k.
Proof. induction 1; cbn; by constructor. Qed.

Lemma dedup_packets_good log fuel : forall l m,
  (length l <= fuel)%nat -> Forall signed_good l -> Forall (fun sp => log (sp_packet sp) = Done tt) l ->
  exists l' n, dedup_packets fuel log l m = Done (l', n) /\ deduped l l'.
Proof.
  induction fuel as [|fuel IH]; intros l m Hf Hl Hlog.
  { destruct l; [|cbn in Hf; lia]. exists [], m. split; [done|]. split; [constructor | done | done | set_solver | done | done]. }
  destruct l as [|cur next].
  { exists [], m. split; [done|]. split; [constructor | done | done | set_solver | done | done]. }
  apply Forall_cons in Hl as [Hc Hn]. apply Forall_cons in Hlog as [Hlc Hln]. cbn [dedup_packets length] in *.
  destruct (merge_dups_good log (length next) cur next m) as (cur' & next' & n & -> & H); [done..|].
  cbn [mbind outcome_bind]. destruct H as [Hp Hg Hs Hgone Hcur Hnext Hall].
  destruct (IH next' n) as (l' & k & -> & [Hd Hg' Hsub Hkeep Hpk Hsg]);
    [apply sublist_length in Hs; lia | by eapply sublist_Forall | by eapply sublist_Forall |].
  cbn [mbind outcome_bind]. exists (cur' :: l'), k. split; [done|].
  assert (Hid : sp_id cur' = sp_id cur) by (unfold sp_id; by rewrite Hp). split.
  - apply NoDup_cons. split; [|done]. intros Hin. apply Hgone. by eapply sublist_elem.
  - by constructor.
  - cbn [map]. rewrite Hid. apply sublist_skip. etransitivity; [exact Hsub|]. by apply sublist_map.
  - intros sp Hin. apply elem_of_cons in Hin as [->|Hin].
    { exists cur'. split; [by left|]. auto. }
    destruct (Hnext sp Hin) as [Hin'|[Hsid Hsig]].
    { destruct (Hkeep sp Hin') as (sp' & ? & ? & ?). exists sp'. split; [by right|]. auto. }
    exists cur'. split; [by left|]. split; [congruence | done].
  - intros P [HPc HPn]%Forall_cons. constructor; [by rewrite Hp|]. apply Hpk. by eapply sublist_Forall.
  - intros P [HPc HPn]%Forall_cons. constructor; [by apply Hall|]. apply Hsg. by eapply sublist_Forall.
Qed.

(** * Classification of user ids *)

(** The answers of the three tests on packets that can be read. *)
Definition is_revoked (sp : openpgp_signedpacket) : bool :=
  match signedpacket_is_revoked sp with Done b => b | Fault _ => false end.
Definition is_primary (sp : openpgp_signedpacket) : bool :=
  match signedpacket_is_primary sp with Done b => b | Fault _ => false end.
Definition is_anchor (sp : openpgp_signedpacket) : bool :=
  match signedpacket_is_urn_anchor sp with Done b => b | Fault _ => false end.

(** Readable: lengths and buffers agree. *)
Definition sp_readable (sp : openpgp_signedpacket) : Prop :=
  wf_signed sp /\ Forall (fun s => pkt_length s < 2 ^ 64) (sp_sigs sp).

Lemma is_revoked_ok sp : sp_readable sp -> signedpacket_is_revoked sp = Done (is_revoked sp).
Proof.
  intros [[_ Hs] _]. unfold is_revoked, signedpacket_is_revoked.
  cut (exists b, any_cert_revocation (sp_sigs sp) = Done b); [by intros [b ->]|].
  induction Hs as [|s l [Hl Hb] _ IH]; cbn [any_cert_revocation]; [eauto|].
  case_if; [done|]. zbool. destruct (rd_ok (pkt_data s) 0) as [d0 ->]; [lia|]. cbn [mbind outcome_bind].
  case_if; [|done]. destruct (rd_ok (pkt_data s) 1) as [d1 ->]; [lia|]. cbn [mbind outcome_bind].
  case_if; eauto.
Qed.

Lemma primary_loop_ok fuel : forall data offset sub_len,
  Forall byte data -> sub_len <= zlen data -> sub_len < 2 ^ 32 -> 0 <= offset ->
  sub_len - offset <= Z.of_nat fuel -> exists b, primary_loop fuel data offset sub_len = Done b.
Proof.
  induction fuel as [|fuel IH]; intros data offset sub_len Hd Hl H32 Ho Hf; cbn [primary_loop];
    (destruct (Z.ltb_spec (offset + 2) sub_len); [|eauto]); [lia|].
  destruct (rd_ok_byte data offset) as (b & -> & Hb); [done | lia |]. cbn [mbind outcome_bind]. unfold byte in Hb.
  assert (Hstep : forall plen o, offset < o -> o <= sub_len -> 0 <= plen -> exists r,
    (if (plen =? 0) || (u64 (sub_len - o) <? plen) then Done false
     else t ← data.[o];
       found ← (if (Z.land t 0x7f =? OPENPGP_SIGSUB_PRIMARYUID) && (2 <=? plen) then
                  v ← data.[o + 1]; Done (negb (v =? 0)) else Done false);
       if (found : bool) then Done true else primary_loop fuel data (o + plen) sub_len) = Done r).
  { intros plen o Ho1 Ho2 Hp. rewrite u64_small by lia. case_if; [eauto|]. zbool.
    destruct (rd_ok data o) as [t ->]; [lia|]. cbn [mbind outcome_bind].
    case_if; [zbool; destruct (rd_ok data (o + 1)) as [v ->]; [lia|]; cbn [mbind outcome_bind]; case_if; [eauto|]|];
      cbn [mbind outcome_bind]; apply IH; lia || done. }
  case_if.
  { zbool. destruct (rd_ok_byte data (offset + 1)) as (c & -> & Hc); [done | lia |].
    cbn [mbind outcome_bind]. apply Hstep; [lia | lia |]. rewrite shiftl_8. unfold byte in Hc. lia. }
  case_if; [|cbn [mbind outcome_bind]; apply Hstep; lia].
  case_if; [cbn [mbind outcome_bind]; eauto|]. zbool.
  destruct (rd_ok data (offset + 1)) as [b0 ->]; [lia|]. destruct (rd_ok data (offset + 1 + 1)) as [b1 ->]; [lia|].
  destruct (rd_ok data (offset + 1 + 2)) as [b2 ->]; [lia|]. destruct (rd_ok data (offset + 1 + 3)) as [b3 ->]; [lia|].
  cbn [mbind outcome_bind]. apply Hstep; [lia | lia |]. apply Z.mod_pos_bound. lia.
Qed.

Lemma is_primary_ok sp : sp_readable sp -> signedpacket_is_primary sp = Done (is_primary sp).
Proof.
  intros [[_ Hs] Hlt]. unfold is_primary, signedpacket_is_primary.
  cut (exists b, any_primary (sp_sigs sp) = Done b); [by intros [b ->]|].
  induction Hs as [|s l [Hl Hb] _ IH]; cbn [any_primary]; [eauto|].
  apply Forall_cons in Hlt as [H64 Hlt]. specialize (IH Hlt).
  cut (exists b, sig_is_primary s = Done b); [intros [[] ->]; cbn [mbind outcome_bind]; eauto|].
  unfold sig_is_primary. case_if; [eauto|]. zbool.
  destruct (rd_ok (pkt_data s) 0) as [d0 ->]; [lia|]. cbn [mbind outcome_bind]. case_if; [eauto|].
  destruct (rd_ok (pkt_data s) 1) as [d1 ->]; [lia|]. cbn [mbind outcome_bind]. case_if; [eauto|].
  assert (Hd : Forall byte (drop 4 (pkt_data s))) by (by apply Forall_drop).
  assert (Hz : zlen (drop 4 (pkt_data s)) = pkt_length s - 4) by (unfold zlen in *; rewrite length_drop; lia).
  destruct (rd_ok_byte (drop 4 (pkt_data s)) 0) as (h & -> & Hh); [done | lia |].
  destruct (rd_ok_byte (drop 4 (pkt_data s)) 1) as (l' & -> & Hl'); [done | lia |].
  cbn [mbind outcome_bind]. unfold byte in *. rewrite shiftl_8, u64_small by lia.
  case_if; [eauto|]. zbool. apply primary_loop_ok; [done | lia | lia | lia | lia].
Qed.

Lemma is_anchor_ok sp : sp_readable sp -> signedpacket_is_urn_anchor sp = Done (is_anchor sp).
Proof.
  intros [[[Hl _] _] _]. unfold is_anchor, signedpacket_is_urn_anchor. case_if; [done|].
  apply orb_false_iff in Heqb as [_ ?]. zbool. by rewrite memcpy_from_ok by (change (zlen urn_prefix) with 8 in *; lia).
Qed.

(** * The number limits *)

Definition of_tag (tag : Z) (sp : openpgp_signedpacket) : bool := pkt_tag (sp_packet sp) =? tag.
Definition active (tag : Z) (sp : openpgp_signedpacket) : bool := of_tag tag sp && negb (is_revoked sp).
Definition revoked (tag : Z) (sp : openpgp_signedpacket) : bool := of_tag tag sp && is_revoked sp.

Lemma count_packets_ok tag l : forall a r,
  Forall sp_readable l -> 0 <= a -> 0 <= r -> a + r + zlen l < 2 ^ 32 ->
  count_packets l tag a r =
    Done (a + zlen (List.filter (active tag) l), r + zlen (List.filter (revoked tag) l)).
Proof.
  induction l as [|sp l IH]; intros a r Hl Ha Hr Hn; cbn [count_packets List.filter].
  { rewrite zlen_nil, !Z.add_0_r. done. }
  apply Forall_cons in Hl as [Hsp Hl]. rewrite zlen_cons in Hn. pose proof (zlen_nonneg l).
  unfold active at 1, revoked at 1, of_tag. case_if; cbn [andb]; [|apply IH; done || lia].
  rewrite is_revoked_ok by done. cbn [mbind outcome_bind].
  destruct (is_revoked sp); cbn [negb]; rewrite u32_small by lia; rewrite IH by (done || lia);
    rewrite zlen_cons; do 2 f_equal; lia.
Qed.

(** What pass 2 does to the packets that are not revoked: from the oldest on,
    [n] are evicted, but the first primary one and the first anchor stay. *)
Fixpoint evict (n : Z) (pk ak : bool) (l : list openpgp_signedpacket) : list openpgp_signedpacket :=
  match l with
  | [] => []
  | sp :: l' =>
      if n =? 0 then l
      else if negb pk && is_primary sp then sp :: evict n true ak l'
      else if negb ak && is_anchor sp then sp :: evict n pk true l'
      else evict (n - 1) pk ak l'
  end.

Lemma evict_0 pk ak l : evict 0 pk ak l = l.
Proof. by destruct l. Qed.

Record dropped_oldest (tag da dr : Z) (pk ak : bool) (l l' : list openpgp_signedpacket) : Prop := {
  do_sub : l' `sublist_of` l;
  do_other : List.filter (fun sp => negb (of_tag tag sp)) l' = List.filter (fun sp => negb (of_tag tag sp)) l;
  do_revoked : List.filter (revoked tag) l' = drop (Z.to_nat dr) (List.filter (revoked tag) l);
  do_active : List.filter (active tag) l' = evict da pk ak (List.filter (active tag) l)
}.

Lemma dropped_oldest_refl tag pk ak l : dropped_oldest tag 0 0 pk ak l l.
Proof. split; [done | done | done | by rewrite evict_0]. Qed.

(** The four ways an element goes to the result. *)
Lemma dropped_keep_other tag da dr pk ak sp l l' :
  of_tag tag sp = false -> dropped_oldest tag da dr pk ak l l' -> dropped_oldest tag da dr pk ak (sp :: l) (sp :: l').
Proof.
  intros Ht [H1 H2 H3 H4]. assert (Hr : revoked tag sp = false) by (unfold revoked; by rewrite Ht).
  assert (Ha : active tag sp = false) by (unfold active; by rewrite Ht).
  split; [by apply sublist_skip| | |]; cbn [List.filter]; rewrite ?Ht, ?Hr, ?Ha; cbn [negb]; congruence.
Qed.

Lemma dropped_keep_revoked tag da pk ak sp l l' :
  revoked tag sp = true -> dropped_oldest tag da 0 pk ak l l' -> dropped_oldest tag da 0 pk ak (sp :: l) (sp :: l').
Proof.
  intros Hr [H1 H2 H3 H4]. pose proof Hr as [Ht Er]%andb_prop.
  assert (Ha : active tag sp = false) by (unfold active; by rewrite Ht, Er).
  split; [by apply sublist_skip| | |]; cbn [List.filter]; rewrite ?Ht, ?Hr, ?Ha; cbn [negb]; [done | | done].
  change (Z.to_nat 0) with 0%nat in *. rewrite drop_0 in *. by f_equal.
Qed.

Lemma dropped_drop_revoked tag da dr pk ak sp l l' :
  revoked tag sp = true -> 0 < dr -> dropped_oldest tag da (dr - 1) pk ak l l' ->
  dropped_oldest tag da dr pk ak (sp :: l) l'.
Proof.
  intros Hr Hdr [H1 H2 H3 H4]. pose proof Hr as [Ht Er]%andb_prop.
  assert (Ha : active tag sp = false) by (unfold active; by rewrite Ht, Er).
  split; [by apply sublist_cons| | |]; cbn [List.filter]; rewrite ?Ht, ?Hr, ?Ha; cbn [negb]; [done | | done].
  by replace (Z.to_nat dr) with (S (Z.to_nat (dr - 1))) by lia.
Qed.

Lemma dropped_active tag da dr pk ak sp l l' r :
  active tag sp = true ->
  r `sublist_of` (sp :: l) ->
  List.filter (fun sp => negb (of_tag tag sp)) r = List.filter (fun sp => negb (of_tag tag sp)) l' ->
  List.filter (revoked tag) r = List.filter (revoked tag) l' ->
  List.filter (fun sp => negb (of_tag tag sp)) l' = List.filter (fun sp => negb (of_tag tag sp)) l ->
  List.filter (revoked tag) l' = drop (Z.to_nat dr) (List.filter (revoked tag) l) ->
  List.filter (active tag) r = evict da pk ak (sp :: List.filter (active tag) l) ->
  dropped_oldest tag da dr pk ak (sp :: l) r.
Proof.
  intros Ha Hs Ho Hr Ho' Hr' Hac. pose proof Ha as [Ht Er%negb_true_iff]%andb_prop.
  assert (Hrv : revoked tag sp = false) by (unfold revoked; by rewrite Ht, Er).
  split; [done| | |]; cbn [List.filter]; rewrite ?Ht, ?Hrv, ?Ha; cbn [negb]; congruence.
Qed.

Lemma drop_oldest_ok tag l : forall da dr pk ak d,
  Forall sp_readable l -> 0 <= da -> 0 <= dr ->
  exists l' n, drop_oldest l tag da dr pk ak d = Done (l', n) /\ dropped_oldest tag da dr pk ak l l' /\
    (d + zlen l < 2 ^ 31 -> 0 <= d -> n = d + zlen l - zlen l').
Proof.
  induction l as [|sp l IH]; intros da dr pk ak d Hl Hda Hdr; cbn [drop_oldest].
  { exists [], d. split; [done|]. split; [split; [done | done | by destruct (Z.to_nat dr) | done]|].
    rewrite zlen_nil. lia. }
  apply Forall_cons in Hl as [Hsp Hl].
  destruct ((da =? 0) && (dr =? 0)) eqn:E0.
  { zbool. subst. exists (sp :: l), d. split; [done|]. split; [apply dropped_oldest_refl | lia]. }
  assert (Hkeep : forall da' dr' pk' ak', 0 <= da' -> 0 <= dr' ->
    (forall l', dropped_oldest tag da' dr' pk' ak' l l' -> dropped_oldest tag da dr pk ak (sp :: l) (sp :: l')) ->
    exists l' n, ('(next, dropped) ← drop_oldest l tag da' dr' pk' ak' d; Done (sp :: next, dropped)) = Done (l', n) /\
      dropped_oldest tag da dr pk ak (sp :: l) l' /\ (d + zlen (sp :: l) < 2 ^ 31 -> 0 <= d -> n = d + zlen (sp :: l) - zlen l')).
  { intros da' dr' pk' ak' H1 H2 Hd. destruct (IH da' dr' pk' ak' d) as (l' & n & -> & Ho & Hn); [done..|].
    cbn [mbind outcome_bind]. eexists _, _. split; [done|]. split; [by apply Hd|]. rewrite !zlen_cons. lia. }
  assert (Hdrop : forall da' dr' pk' ak', 0 <= da' -> 0 <= dr' ->
    (forall l', dropped_oldest tag da' dr' pk' ak' l l' -> dropped_oldest tag da dr pk ak (sp :: l) l') ->
    exists l' n, drop_oldest l tag da' dr' pk' ak' (i32 (d + 1)) = Done (l', n) /\
      dropped_oldest tag da dr pk ak (sp :: l) l' /\ (d + zlen (sp :: l) < 2 ^ 31 -> 0 <= d -> n = d + zlen (sp :: l) - zlen l')).
  { intros da' dr' pk' ak' H1 H2 Hd. destruct (IH da' dr' pk' ak' (i32 (d + 1))) as (l' & n & -> & Ho & Hn); [done..|].
    eexists _, _. split; [done|]. split; [by apply Hd|]. rewrite zlen_cons. pose proof (zlen_nonneg l).
    intros Hb Hd0. rewrite i32_small in Hn by lia. lia. }
  destruct (pkt_tag (sp_packet sp) =? tag) eqn:Et; cbn [negb].
  2: { apply Hkeep; [done | done|]. intros l'. by apply dropped_keep_other. }
  rewrite is_revoked_ok by done. cbn [mbind outcome_bind].
  destruct (is_revoked sp) eqn:Er.
  { assert (Hr : revoked tag sp = true) by (unfold revoked, of_tag; by rewrite Et, Er).
    destruct (Z.eqb_spec dr 0) as [->|Hn0].
    - apply Hkeep; [done | done|]. intros l'. by apply dropped_keep_revoked.
    - apply Hdrop; [done | lia|]. intros l'. apply dropped_drop_revoked; [done | lia]. }
  assert (Ha : active tag sp = true) by (unfold active, of_tag; by rewrite Et, Er).
  assert (Hf : forall l', List.filter (fun sp => negb (of_tag tag sp)) (sp :: l') = List.filter (fun sp => negb (of_tag tag sp)) l' /\
    List.filter (revoked tag) (sp :: l') = List.filter (revoked tag) l' /\
    List.filter (active tag) (sp :: l') = sp :: List.filter (active tag) l').
  { assert (Ht : of_tag tag sp = true) by done.
    assert (Hr : revoked tag sp = false) by (unfold revoked; by rewrite Ht, Er).
    intros l'. cbn [List.filter]. by rewrite Ht, Hr, Ha. }
  destruct (Z.eqb_spec da 0) as [->|Hn0].
  { apply Hkeep; [done | done|]. intros l' [H1 H2 H3 H4]. destruct (Hf l') as (F1 & F2 & F3).
    apply (dropped_active _ _ _ _ _ _ _ l'); try done; [by apply sublist_skip|]. rewrite F3, evict_0. f_equal.
    by rewrite evict_0 in H4. }
  assert (Hn : (da =? 0) = false) by (by apply Z.eqb_neq).
  assert (Hprim : (if pk then Done false else signedpacket_is_primary sp) = Done (negb pk && is_primary sp))
    by (destruct pk; [done | by apply is_primary_ok]).
  assert (Hanch : (if ak then Done false else signedpacket_is_urn_anchor sp) = Done (negb ak && is_anchor sp))
    by (destruct ak; [done | by apply is_anchor_ok]).
  rewrite Hprim. cbn [mbind outcome_bind].
  destruct (negb pk && is_primary sp) eqn:Ep.
  { apply Hkeep; [done | done|]. intros l' [H1 H2 H3 H4]. destruct (Hf l') as (F1 & F2 & F3).
    apply (dropped_active _ _ _ _ _ _ _ l'); try done; [by apply sublist_skip|]. rewrite F3.
    cbn [evict]. rewrite Hn, Ep. by f_equal. }
  rewrite Hanch. cbn [mbind outcome_bind].
  destruct (negb ak && is_anchor sp) eqn:Ea.
  { apply Hkeep; [done | done|]. intros l' [H1 H2 H3 H4]. destruct (Hf l') as (F1 & F2 & F3).
    apply (dropped_active _ _ _ _ _ _ _ l'); try done; [by apply sublist_skip|]. rewrite F3.
    cbn [evict]. rewrite Hn, Ep, Ea. by f_equal. }
  apply Hdrop; [lia | done|]. intros l' [H1 H2 H3 H4].
  apply (dropped_active _ _ _ _ _ _ _ l'); try done; [by apply sublist_cons|].
  cbn [evict]. by rewrite Hn, Ep, Ea.
Qed.

Definition slots (pk ak : bool) : Z := Z.b2z (negb pk) + Z.b2z (negb ak).

Lemma evict_length l : forall n pk ak,
  0 <= n -> n + slots pk ak <= zlen l -> zlen (evict n pk ak l) = zlen l - n.
Proof.
  induction l as [|sp l IH]; intros n pk ak Hn Hs; cbn [evict].
  { unfold slots in Hs. rewrite zlen_nil in *. destruct pk, ak; cbn in Hs; lia. }
  rewrite zlen_cons in Hs |- *. destruct (Z.eqb_spec n 0); [rewrite zlen_cons; lia|].
  unfold slots in *. destruct pk, ak; cbn [negb andb Z.b2z] in *; repeat case_if;
    rewrite ?zlen_cons, IH by (cbn [negb Z.b2z]; lia); lia.
Qed.

Lemma evict_keeps_primary l sp : forall n ak,
  List.find is_primary l = Some sp -> sp ∈ evict n false ak l.
Proof.
  induction l as [|x l IH]; intros n ak Hf; [done|]. cbn [evict List.find] in *.
  case_if; [destruct (is_primary x) eqn:E; [injection Hf as ->; by left | right; by apply list_elem_of_In, (List.find_some _ _ Hf)]|].
  cbn [negb andb]. destruct (is_primary x); [injection Hf as ->; by left|].
  case_if; [right|]; by apply IH.
Qed.

Lemma evict_keeps_anchor l sp : forall n pk,
  List.find is_anchor l = Some sp -> sp ∈ evict n pk false l.
Proof.
  induction l as [|x l IH]; intros n pk Hf; [done|]. cbn [evict List.find] in *.
  case_if; [destruct (is_anchor x) eqn:E; [injection Hf as ->; by left | right; by apply list_elem_of_In, (List.find_some _ _ Hf)]|].
  cbn [negb andb]. case_if.
  - destruct (is_anchor x); [injection Hf as ->; by left | right; by apply IH].
  - destruct (is_anchor x); [injection Hf as ->; by left | by apply IH].
Qed.

(** Only a prefix is touched, and at most the protected ones stay of it. *)
Lemma evict_fifo l : forall n pk ak,
  exists old p new, l = old ++ new /\ evict n pk ak l = p ++ new /\ p `sublist_of` old /\ zlen p <= slots pk ak.
Proof.
  assert (Hs : forall pk ak, 0 <= slots pk ak) by (unfold slots; intros [] []; cbn [negb Z.b2z]; lia).
  induction l as [|x l IH]; intros n pk ak; cbn [evict]; [exists [], [], []; auto|].
  case_if; [exists [], [], (x :: l); auto|].
  assert (Hcons : forall pk' ak' n', slots pk' ak' + 1 <= slots pk ak -> exists old p new,
    x :: l = old ++ new /\ x :: evict n' pk' ak' l = p ++ new /\ p `sublist_of` old /\ zlen p <= slots pk ak).
  { intros pk' ak' n' Hle. destruct (IH n' pk' ak') as (old & p & new & E1 & -> & Hp & Hz).
    exists (x :: old), (x :: p), new. rewrite E1 at 1. split; [done|]. split; [done|].
    split; [by apply sublist_skip | rewrite zlen_cons; lia]. }
  assert (Hskip : exists old p new,
    x :: l = old ++ new /\ evict (n - 1) pk ak l = p ++ new /\ p `sublist_of` old /\ zlen p <= slots pk ak).
  { destruct (IH (n - 1) pk ak) as (old & p & new & E1 & -> & Hp & Hz). exists (x :: old), p, new.
    rewrite E1 at 1. split; [done|]. split; [done|]. split; [by apply sublist_cons | exact Hz]. }
  destruct pk, ak; cbn [negb andb]; repeat case_if; try exact Hskip;
    apply Hcons; unfold slots; cbn [negb Z.b2z]; lia.
Qed.

Lemma cap_packet_type_spec key tag max :
  Forall sp_readable (pk_uids key) -> zlen (pk_uids key) < 2 ^ 31 -> 2 <= max < 2 ^ 31 ->
  exists uids' n, cap_packet_type key tag max max = Done (set_pk_uids key uids', n) /\
    let act := List.filter (active tag) (pk_uids key) in
    let rev := List.filter (revoked tag) (pk_uids key) in
    uids' `sublist_of` pk_uids key /\ n = zlen (pk_uids key) - zlen uids' /\
    List.filter (fun sp => negb (of_tag tag sp)) uids' = List.filter (fun sp => negb (of_tag tag sp)) (pk_uids key) /\
    List.filter (revoked tag) uids' = drop (length rev - Z.to_nat max) rev /\
    zlen (List.filter (active tag) uids') = Z.min max (zlen act) /\
    (exists old kept new, act = old ++ new /\ List.filter (active tag) uids' = kept ++ new /\
       kept `sublist_of` old /\ zlen kept <= 2) /\
    (forall sp, List.find is_primary act = Some sp -> sp ∈ List.filter (active tag) uids') /\
    (forall sp, List.find is_anchor act = Some sp -> sp ∈ List.filter (active tag) uids').
Proof.
  intros Hr Hz Hmax. unfold cap_packet_type.
  rewrite count_packets_ok by (done || lia). cbn [mbind outcome_bind]. rewrite !Z.add_0_l. cbv zeta.
  set (act := List.filter (active tag) (pk_uids key)). set (rev := List.filter (revoked tag) (pk_uids key)).
  set (da := if max <? zlen act then zlen act - max else 0). set (dr := if max <? zlen rev then zlen rev - max else 0).
  assert (Hda : 0 <= da /\ zlen act - da = Z.min max (zlen act) /\ (da = 0 \/ da + 2 <= zlen act))
    by (unfold da; case_if; zbool; pose proof (zlen_nonneg act); lia).
  assert (Hdr : 0 <= dr /\ Z.to_nat dr = (length rev - Z.to_nat max)%nat)
    by (unfold dr, zlen; case_if; zbool; lia).
  assert (Hall : forall uids' n, dropped_oldest tag da dr false false (pk_uids key) uids' ->
    n = zlen (pk_uids key) - zlen uids' ->
    uids' `sublist_of` pk_uids key /\ n = zlen (pk_uids key) - zlen uids' /\
    List.filter (fun sp => negb (of_tag tag sp)) uids' = List.filter (fun sp => negb (of_tag tag sp)) (pk_uids key) /\
    List.filter (revoked tag) uids' = drop (length rev - Z.to_nat max) rev /\
    zlen (List.filter (active tag) uids') = Z.min max (zlen act) /\
    (exists old kept new, act = old ++ new /\ List.filter (active tag) uids' = kept ++ new /\
       kept `sublist_of` old /\ zlen kept <= 2) /\
    (forall sp, List.find is_primary act = Some sp -> sp ∈ List.filter (active tag) uids') /\
    (forall sp, List.find is_anchor act = Some sp -> sp ∈ List.filter (active tag) uids')).
  { intros uids' n [H1 H2 H3 H4] Hn. fold act in H4. fold rev in H3. rewrite (proj2 Hdr) in H3. rewrite H4.
    repeat split; try done; [|apply (evict_fifo act da false false) | |].
    - destruct Hda as (? & <- & [-> | ?]); [rewrite evict_0; lia | by apply evict_length].
    - intros sp. apply evict_keeps_primary.
    - intros sp. apply evict_keeps_anchor. }
  destruct ((da =? 0) && (dr =? 0)) eqn:E0.
  - zbool. exists (pk_uids key), 0. split; [by destruct key|].
    apply Hall; [|lia]. rewrite H, H0. apply dropped_oldest_refl.
  - destruct (drop_oldest_ok tag (pk_uids key) da dr false false 0 Hr) as (l' & n & -> & Ho & Hn); [lia | lia |].
    cbn [mbind outcome_bind]. exists l', n. split; [done|]. apply Hall; [done|]. apply Hn; lia.
Qed.


(** * Properties of the number limits *)

(** Limiting the packets of a kind to [max] per class, for readable packets
    and a limit of at least two, touches nothing but packets of that kind and
    keeps their order.  Of the revoked ones exactly the newest [max] stay.  Of
    the others exactly [max] stay if there were more: the newest ones, apart
    from at most two of the older ones which are protected; the first primary
    one and the first URN anchor always stay.  The number of dropped packets is
    returned. *)
Theorem cap_packet_type_correct key tag max :
  Forall sp_readable (pk_uids key) -> zlen (pk_uids key) < 2 ^ 31 -> 2 <= max < 2 ^ 31 ->
  exists uids' n, cap_packet_type key tag max max = Done (set_pk_uids key uids', n) /\
    let act := List.filter (active tag) (pk_uids key) in
    let rev := List.filter (revoked tag) (pk_uids key) in
    uids' `sublist_of` pk_uids key /\ n = zlen (pk_uids key) - zlen uids' /\
    List.filter (fun sp => negb (of_tag tag sp)) uids' = List.filter (fun sp => negb (of_tag tag sp)) (pk_uids key) /\
    List.filter (revoked tag) uids' = drop (length rev - Z.to_nat max) rev /\
    zlen (List.filter (active tag) uids') = Z.min max (zlen act) /\
    (exists old kept new, act = old ++ new /\ List.filter (active tag) uids' = kept ++ new /\
       kept `sublist_of` old /\ zlen kept <= 2) /\
    (forall sp, List.find is_primary act = Some sp -> sp ∈ List.filter (active tag) uids') /\
    (forall sp, List.find is_anchor act = Some sp -> sp ∈ List.filter (active tag) uids').
Proof. apply cap_packet_type_spec. Qed.

Definition sample_uid (s : string) : openpgp_signedpacket :=
  mkSigned (mkPacket OPENPGP_PACKET_UID true (zlen (str s)) (str s)) [].

Definition sample_uids : list openpgp_signedpacket :=
  map sample_uid ["UID:urn:eid:x"; "a"; "b"; "UID:urn:eid:y"; "c"]%string.

Lemma cap_packet_type_correct_witness :
  let key := mkKey sample_pubkey false [] sample_uids [] in
  exists uids' n, cap_packet_type key OPENPGP_PACKET_UID 2 2 = Done (set_pk_uids key uids', n) /\
    zlen (List.filter (active OPENPGP_PACKET_UID) uids') = 2 /\
    sample_uid "UID:urn:eid:x" ∈ List.filter (active OPENPGP_PACKET_UID) uids'.
Proof.
  intros key. destruct (cap_packet_type_correct key OPENPGP_PACKET_UID 2)
    as (uids' & n & E & _ & _ & _ & _ & Hz & _ & _ & Ha).
  - repeat constructor; apply (bool_decide_unpack _); vm_compute; exact I.
  - vm_compute. reflexivity.
  - split; vm_compute; [discriminate | reflexivity].
  - exists uids', n. split; [exact E|]. split; [exact Hz|]. apply Ha. vm_compute. reflexivity.
Defined.

(** * Signature checks *)

(** A signature packet the checks can read. *)
Definition sig_checkable (s : openpgp_packet) : Prop :=
  sig_good s /\ pkt_length s < 2 ^ 64 /\ sig_truncated s = false.

Definition key_packet_ok (p : openpgp_packet) : Prop := wf_packet p /\ pkt_length p < 2 ^ 64.

Section Checks.
Context {HF : Hashes} {BC : BuildConfig} {NT : Nettle} {D : Type} {DB : KeyDb D}.
Context (dbctx : D) (stack : list Z).

(** The keys the database returns are well formed. *)
Definition db_readable : Prop :=
  forall id, Forall (fun k => key_packet_ok (pk_publickey k)) (fetch_key_id dbctx id false).2.

(** The stored two octets agree with the digest, or the digest cannot be
    computed for want of support. *)
Definition hash_agrees (key : openpgp_publickey) (target : option openpgp_packet) (sig : openpgp_packet) : Prop :=
  exists r, calculate_packet_sighash key target sig = Done r /\
    (sh_status r = ONAK_E_UNSUPPORTED_FEATURE \/
     sh_status r = ONAK_E_OK /\ exists h o, sh_hash r = Some h /\ sh_sighash r = Some o /\
       take 2 h = take 2 (drop (Z.to_nat o) (pkt_data sig))).

(** The signature over the target is one of [signer]. *)
Definition verifies_by (signer key : openpgp_publickey) (target : option openpgp_packet) (sig : openpgp_packet) : Prop :=
  exists r h, calculate_packet_sighash key target sig = Done r /\ sh_status r = ONAK_E_OK /\ sh_hash r = Some h /\
    onak_check_hash_sig (pk_publickey signer) sig (h ++ stack) (sh_hashtype r) stack = Done ONAK_E_OK.

(** It is the key's own signature, or one of a key in the database. *)
Definition self_signed (key : openpgp_publickey) (id : Z) (target : option openpgp_packet) (sig : openpgp_packet) : Prop :=
  sig_kid sig = id /\ verifies_by key key target sig.
Definition other_signed (key : openpgp_publickey) (target : option openpgp_packet) (sig : openpgp_packet) : Prop :=
  exists k, k ∈ (fetch_key_id dbctx (sig_kid sig) false).2 /\ verifies_by k key target sig.

Lemma sighash_done key target sig :
  wf_packet (pk_publickey key) -> (forall p, target = Some p -> wf_packet p) -> sig_checkable sig ->
  exists r, calculate_packet_sighash key target sig = Done r /\ sighash_usable sig r.
Proof.
  intros Hk Ht (Hg & H64 & Htr). pose proof (sig_good_wf _ Hg) as Hwf.
  destruct (Z.ltb_spec (pkt_length sig) 10) as [Hlt|Hge].
  - unfold calculate_packet_sighash. rewrite (proj2 (Z.ltb_lt _ _)) by done. eexists. split; [done|].
    by apply early_usable.
  - pose proof (sighash_readable key target sig Hk Ht Hwf (conj Hge H64)) as H. by rewrite Htr in H.
Qed.

Lemma take2_rd (h s : list Z) o :
  2 <= zlen h -> 0 <= o -> o + 2 <= zlen s ->
  exists h0 h1 s0 s1, h.[0] = Done h0 /\ h.[1] = Done h1 /\ s.[o] = Done s0 /\ s.[o + 1] = Done s1 /\
    (take 2 h = take 2 (drop (Z.to_nat o) s) <-> h0 = s0 /\ h1 = s1).
Proof.
  intros Hh Ho Hs. destruct h as [|h0 [|h1 h]]; [unfold zlen in Hh; cbn in Hh; lia..|].
  assert (E : exists s0 s1 t, drop (Z.to_nat o) s = s0 :: s1 :: t).
  { destruct (drop (Z.to_nat o) s) as [|s0 [|s1 t]] eqn:E; [| |eauto];
      apply (f_equal length) in E; rewrite length_drop in E; unfold zlen in Hs; cbn in E; lia. }
  destruct E as (s0 & s1 & t & E). exists h0, h1, s0, s1.
  assert (Hrd : forall i, 0 <= i -> s.[o + i] = (s0 :: s1 :: t).[i]).
  { intros i Hi. rewrite <- E, rd_drop by done. by rewrite Z2Nat.id. }
  rewrite <- (Z.add_0_r o) at 1. rewrite !Hrd by lia. rewrite E. cbn [take].
  do 4 (split; [done|]). rewrite !take_0. split; [by intros [= -> ->] | by intros [-> ->]].
Qed.

(** Without verification, a signature stays exactly if its hash agrees. *)
Lemma clean_sighash_hash key id target sig :
  wf_packet (pk_publickey key) -> (forall p, target = Some p -> wf_packet p) -> sig_checkable sig ->
  exists rm, clean_sighash dbctx stack key (Some id) target sig false = Done (rm, false, false) /\
    (rm = false <-> hash_agrees key target sig).
Proof.
  intros Hk Ht Hs. destruct (sighash_done key target sig Hk Ht Hs) as (r & E & Hoff & Hh & Hok).
  unfold clean_sighash, hash_agrees. rewrite E. cbn [mbind outcome_bind]. rewrite andb_false_r. cbn [andb].
  assert (Hbad : forall b : bool, (sh_status r <> ONAK_E_OK /\ sh_status r <> ONAK_E_UNSUPPORTED_FEATURE) ->
    (true = false <-> exists r0, Done r = Done r0 /\ (sh_status r0 = ONAK_E_UNSUPPORTED_FEATURE \/
      sh_status r0 = ONAK_E_OK /\ exists h o, sh_hash r0 = Some h /\ sh_sighash r0 = Some o /\
       take 2 h = take 2 (drop (Z.to_nat o) (pkt_data sig))))).
  { intros _ []. split; [done|]. intros (r0 & [= <-] & [?|[? _]]); done. }
  destruct (sh_status r) eqn:Est; try (exists true; split; [done | by apply (Hbad true)]).
  - destruct Hok as [[h Eh] [o Eo]]; [done|]. rewrite Eh, Eo. specialize (Hh h Eh). specialize (Hoff o Eo).
    destruct Hs as (Hg & _ & _). pose proof (sig_good_wf _ Hg) as [Hl _].
    destruct (take2_rd h (pkt_data sig) o) as (h0 & h1 & s0 & s1 & E0 & E1 & E2 & E3 & Heq); [lia | lia | lia |].
    rewrite E0, E2. cbn [mbind outcome_bind].
    assert (Hiff : forall rm, (rm = false <-> h0 = s0 /\ h1 = s1) ->
      (rm = false <-> exists r0, Done r = Done r0 /\ (sh_status r0 = ONAK_E_UNSUPPORTED_FEATURE \/
      sh_status r0 = ONAK_E_OK /\ exists h o, sh_hash r0 = Some h /\ sh_sighash r0 = Some o /\
       take 2 h = take 2 (drop (Z.to_nat o) (pkt_data sig))))).
    { intros rm ->. rewrite <- Heq. split.
      - intros Ht2. exists r. split; [done|]. right. rewrite Est. split; [done|]. eauto.
      - intros (r0 & [= <-] & [?|(_ & h' & o' & ? & ? & ?)]); congruence. }
    destruct (Z.eqb_spec h0 s0) as [->|Hne].
    + rewrite E1, E3. cbn [mbind outcome_bind]. eexists. split; [done|]. apply Hiff.
      destruct (Z.eqb_spec h1 s1); cbn; naive_solver.
    + eexists. split; [done|]. apply Hiff. naive_solver.
  - cbn [read_var mbind outcome_bind]. exists false. split; [done|]. split; [|done]. intros _. exists r. auto.
Qed.

Lemma any_key_verifies_ok ks sig h t :
  Forall (fun k => key_packet_ok (pk_publickey k)) ks -> wf_packet sig -> 64 <= zlen h -> zlen stack = 64 ->
  exists b, any_key_verifies stack ks sig h t = Done b /\
    (b = true <-> exists k, k ∈ ks /\ onak_check_hash_sig (pk_publickey k) sig h t stack = Done ONAK_E_OK).
Proof.
  intros Hks Hs Hh Hst. induction Hks as [|k ks [Hk H64] _ IH]; cbn [any_key_verifies].
  { exists false. split; [done|]. split; [done|]. intros (? & ?%not_elem_of_nil & _). done. }
  destruct (check_hash_sig_done (pk_publickey k) sig h t stack) as [rc E]; [done..|]. rewrite E. cbn [mbind outcome_bind].
  destruct (status_ok rc) eqn:Erc.
  - exists true. split; [done|]. split; [|done]. intros _. exists k. split; [by left|]. rewrite E. by destruct rc.
  - destruct IH as (b & -> & Hb). exists b. split; [done|]. rewrite Hb. split.
    + intros (k' & Hin & E'). exists k'. split; [by right | done].
    + intros (k' & Hin & E'). apply elem_of_cons in Hin as [->|Hin]; [|by exists k'].
      rewrite E in E'. injection E' as ->. done.
Qed.

Lemma sig_kid_info sig : sig_good sig -> exists rc, sig_info sig (Some None) None = Done (rc, Some (Some (sig_kid sig)), None).
Proof.
  intros (_ & _ & _ & kid & t & _ & _ & Hd & _). destruct (Hd None None) as [rc E].
  exists rc. unfold sig_kid. rewrite E. done.
Qed.

(** With verification, a signature stays exactly if it verifies, by the key
    itself if it claims to be a self signature, or by a key of its key id in
    the database. *)
Lemma clean_sighash_verify key id target sig :
  have_crypto = true -> db_readable -> zlen stack = 64 ->
  key_packet_ok (pk_publickey key) -> (forall p, target = Some p -> wf_packet p) -> sig_checkable sig ->
  exists rm self other, clean_sighash dbctx stack key (Some id) target sig true = Done (rm, self, other) /\
    (self = true <-> self_signed key id target sig) /\ (other = true -> other_signed key target sig) /\
    (rm = false <-> self_signed key id target sig \/ other_signed key target sig) /\ (self = true -> rm = false).
Proof.
  intros Hcr Hdb Hst [Hk Hk64] Ht Hs. destruct (sighash_done key target sig Hk Ht Hs) as (r & E & Hoff & Hh & Hok).
  assert (Hv : forall k, verifies_by k key target sig <-> sh_status r = ONAK_E_OK /\ exists h, sh_hash r = Some h /\
    onak_check_hash_sig (pk_publickey k) sig (h ++ stack) (sh_hashtype r) stack = Done ONAK_E_OK).
  { intros k. unfold verifies_by. rewrite E. split.
    - intros (? & h & [= <-] & ? & ? & ?). eauto.
    - intros (? & h & ? & ?). exists r, h. auto. }
  unfold clean_sighash, self_signed, other_signed. rewrite E, Hcr. cbn [mbind outcome_bind andb].
  destruct (decide (sh_status r = ONAK_E_OK)) as [Est|Est].
  2: { exists true, false, false. split; [|split; [|split; [done|split; [|done]]]].
    - destruct (sh_status r); done.
    - split; [done|]. intros [_ [? _]%Hv]. done.
    - split; [done|]. intros [[_ [? _]%Hv] | (k & _ & [? _]%Hv)]; done. }
  rewrite Est. cbn [mbind outcome_bind negb].
  destruct (Hok Est) as [[h Eh] _]. rewrite Eh. specialize (Hh h Eh). unfold verify_sig.
  destruct Hs as (Hg & _ & _). pose proof (sig_good_wf _ Hg) as Hwf.
  destruct (sig_kid_info sig Hg) as [rc ->]. cbn [mbind outcome_bind deref read_var].
  assert (Hz : 64 <= zlen (h ++ stack)) by (rewrite zlen_app; pose proof (zlen_nonneg h); lia).
  assert (Hself : exists self,
    (if sig_kid sig =? id then ret ← onak_check_hash_sig (pk_publickey key) sig (h ++ stack) (sh_hashtype r) stack;
       Done (status_ok ret) else Done false) = Done self /\
    (self = true <-> sig_kid sig = id /\ verifies_by key key target sig)).
  { destruct (Z.eqb_spec (sig_kid sig) id) as [Hid|Hid].
    - destruct (check_hash_sig_done (pk_publickey key) sig (h ++ stack) (sh_hashtype r) stack) as [ret Er]; [done..|].
      rewrite Er. cbn [mbind outcome_bind]. eexists. split; [done|]. split.
      + intros Hret. split; [done|]. apply Hv. split; [done|]. exists h. rewrite Er. by destruct ret.
      + intros (_ & (_ & h' & Eh' & Er')%Hv). rewrite Eh in Eh'. injection Eh' as <-. rewrite Er in Er'. injection Er' as ->. done.
    - exists false. split; [done|]. split; [done|]. by intros []. }
  destruct Hself as (self & -> & Hiff). cbn [mbind outcome_bind].
  destruct (any_key_verifies_ok (if self then [] else (fetch_key_id dbctx (sig_kid sig) false).2) sig (h ++ stack) (sh_hashtype r))
    as (b & -> & Hb); [by destruct self; [constructor | apply Hdb] | done | done | done |].
  cbn [mbind outcome_bind]. exists (negb (self || b)), self, b.
  assert (Hother : b = true <-> self = false /\ exists k, k ∈ (fetch_key_id dbctx (sig_kid sig) false).2 /\ verifies_by k key target sig).
  { destruct self; split.
    - intros (? & ?%not_elem_of_nil & _)%Hb. done.
    - by intros [].
    - intros (k & Hin & Hck)%Hb. split; [done|]. exists k. split; [done|]. apply Hv. eauto.
    - intros (_ & k & Hin & (_ & h' & Eh' & Hck)%Hv). apply Hb. rewrite Eh in Eh'. injection Eh' as <-. eauto. }
  split; [done|]. split; [done|]. split; [naive_solver|]. split; [|by intros ->].
  rewrite <- Hiff. destruct self; cbn [orb negb]; [split; [by left | done]|]. destruct b; cbn [negb].
  - split; [|done]. intros _. right. by apply Hother.
  - split; [done|]. intros [?|?]; [done|]. assert (false = true) by (apply Hother; auto). done.
Qed.

(** ** Lists of signatures *)

Definition sig_accepted (key : openpgp_publickey) (id : Z) (target : option openpgp_packet) (fv : bool)
    (s : openpgp_packet) : bool :=
  match clean_sighash dbctx stack key (Some id) target s fv with Done (rm, _, _) => negb rm | Fault _ => false end.

Definition sig_self (key : openpgp_publickey) (id : Z) (target : option openpgp_packet) (fv : bool)
    (s : openpgp_packet) : bool :=
  match clean_sighash dbctx stack key (Some id) target s fv with Done (_, self, _) => self | Fault _ => false end.

(** What a check can answer in this build. *)
Definition check_possible (fv : bool) : Prop :=
  fv = true -> have_crypto = true /\ db_readable /\ zlen stack = 64.

Lemma clean_sighash_done key id target fv s :
  check_possible fv -> key_packet_ok (pk_publickey key) -> (forall p, target = Some p -> wf_packet p) ->
  sig_checkable s -> exists rm self other, clean_sighash dbctx stack key (Some id) target s fv = Done (rm, self, other).
Proof.
  intros Hc Hk Ht Hs. destruct fv.
  - destruct (Hc eq_refl) as (? & ? & ?).
    destruct (clean_sighash_verify key id target s) as (rm & self & other & -> & _); eauto.
  - destruct (clean_sighash_hash key id target s) as (rm & -> & _); [apply Hk | done | done | eauto].
Qed.

Lemma clean_sighashes_loop_spec key id target fv sigs : forall removed self other,
  check_possible fv -> key_packet_ok (pk_publickey key) -> (forall p, target = Some p -> wf_packet p) ->
  Forall sig_checkable sigs ->
  exists n other', clean_sighashes_loop dbctx stack key (Some id) target sigs fv removed self other =
    Done (List.filter (sig_accepted key id target fv) sigs, n,
          self || existsb (sig_self key id target fv) sigs, other').
Proof.
  induction sigs as [|s sigs IH]; intros removed self other Hc Hk Ht Hs; cbn [clean_sighashes_loop List.filter existsb].
  { exists removed, other. by rewrite orb_false_r. }
  apply Forall_cons in Hs as [Hs Hss].
  destruct (clean_sighash_done key id target fv s Hc Hk Ht Hs) as (rm & sf & ot & E).
  unfold sig_accepted at 1, sig_self at 1. rewrite E. cbn [mbind outcome_bind].
  destruct (IH (if rm then i32 (removed + 1) else removed) (self || sf) (other || ot)) as (n & o' & ->); [done..|].
  cbn [mbind outcome_bind]. exists n, o'. rewrite orb_assoc. by destruct rm.
Qed.

(** ** Lists of signed packets *)

(** Signatures that were checked on a packet, and the packet after it. *)
Definition checked_sp (key : openpgp_publickey) (id : Z) (fv : bool) (sp : openpgp_signedpacket) : openpgp_signedpacket :=
  set_sp_sigs sp (List.filter (sig_accepted key id (Some (sp_packet sp)) fv) (sp_sigs sp)).

Definition sp_stays (key : openpgp_publickey) (id : Z) (fv : bool) (sp : openpgp_signedpacket) : bool :=
  negb fv || existsb (sig_self key id (Some (sp_packet sp)) fv) (sp_sigs sp).

Definition sp_checkable (sp : openpgp_signedpacket) : Prop :=
  wf_packet (sp_packet sp) /\ Forall sig_checkable (sp_sigs sp).

Lemma clean_list_loop_spec key id fv l : forall other removed,
  check_possible fv -> key_packet_ok (pk_publickey key) -> get_keyid key = Done (ONAK_E_OK, Some id) ->
  Forall sp_checkable l ->
  exists n other', clean_list_loop dbctx stack key l fv other removed =
    Done (map (checked_sp key id fv) (List.filter (sp_stays key id fv) l), n, other').
Proof.
  induction l as [|sp l IH]; intros other removed Hc Hk Hid Hl; cbn [clean_list_loop List.filter map]; [eauto|].
  apply Forall_cons in Hl as [[Hp Hs] Hl]. unfold clean_sighashes. rewrite Hid. cbn [mbind outcome_bind].
  destruct (clean_sighashes_loop_spec key id (Some (sp_packet sp)) fv (sp_sigs sp) 0 false other) as (n & o & ->);
    [done | done | by intros p [= <-] | done |].
  cbn [mbind outcome_bind orb]. destruct (IH o (i32 (removed + n))) as (n' & o' & ->); [done..|].
  cbn [mbind outcome_bind]. exists n', o'.
  assert (sp_stays key id fv sp = negb (fv && negb (existsb (sig_self key id (Some (sp_packet sp)) fv) (sp_sigs sp)))) as ->
    by (unfold sp_stays; by destruct fv, (existsb _ _)).
  by destruct (fv && _).
Qed.

Lemma clean_list_sighashes_spec key id fv needother l :
  check_possible fv -> key_packet_ok (pk_publickey key) -> get_keyid key = Done (ONAK_E_OK, Some id) ->
  Forall sp_checkable l ->
  exists r n, clean_list_sighashes dbctx stack key l fv needother = Done (r, n) /\
    (r = map (checked_sp key id fv) (List.filter (sp_stays key id fv) l) \/ needother && fv = true /\ r = []).
Proof.
  intros Hc Hk Hid Hl. unfold clean_list_sighashes.
  destruct (clean_list_loop_spec key id fv l false 0 Hc Hk Hid Hl) as (n & o & ->). cbn [mbind outcome_bind].
  eexists _, n. split; [done|]. destruct (needother && fv); cbn [andb]; [|by left].
  destruct o; cbn [negb]; auto.
Qed.

(** The key after its signatures were checked. *)
Lemma clean_key_signatures_spec key id fv needother :
  check_possible fv -> key_packet_ok (pk_publickey key) -> get_keyid key = Done (ONAK_E_OK, Some id) ->
  Forall sig_checkable (pk_sigs key) -> Forall sp_checkable (pk_uids key) -> Forall sp_checkable (pk_subkeys key) ->
  exists uids n, clean_key_signatures dbctx stack key fv needother = Done (
      mkKey (pk_publickey key) (pk_revoked key) (List.filter (sig_accepted key id None fv) (pk_sigs key)) uids
        (map (checked_sp key id fv) (List.filter (sp_stays key id fv) (pk_subkeys key))), n) /\
    (uids = map (checked_sp key id fv) (List.filter (sp_stays key id fv) (pk_uids key)) \/
     needother && fv = true /\ uids = []).
Proof.
  intros Hc Hk Hid Hs Hu Hsk. unfold clean_key_signatures, clean_sighashes. rewrite Hid. cbn [mbind outcome_bind].
  destruct (clean_sighashes_loop_spec key id None fv (pk_sigs key) 0 false false) as (n & o & ->); [done..|].
  cbn [mbind outcome_bind].
  destruct (clean_list_sighashes_spec (set_pk_sigs key (List.filter (sig_accepted key id None fv) (pk_sigs key)))
    id fv needother (pk_uids key)) as (uids & m & E & Hr); [done..|].
  cbn [pk_uids set_pk_sigs] in *. rewrite E. cbn [mbind outcome_bind].
  destruct (clean_list_sighashes_spec
    (set_pk_uids (set_pk_sigs key (List.filter (sig_accepted key id None fv) (pk_sigs key))) uids)
    id fv false (pk_subkeys key)) as (subs & k & E' & Hr'); [done..|].
  cbn [pk_subkeys set_pk_uids set_pk_sigs] in *. rewrite E'. cbn [mbind outcome_bind].
  destruct Hr' as [-> | [? _]]; [|done].
  eexists uids, _. split; [reflexivity | exact Hr].
Qed.

(** ** What the checks mean *)

(** A packet and what verification leaves of it: its valid signatures, among
    them one of the key itself. *)
Record verified_sp (key : openpgp_publickey) (id : Z) (sp sp' : openpgp_signedpacket) : Prop := {
  vs_packet : sp_packet sp' = sp_packet sp;
  vs_sigs : forall s, s ∈ sp_sigs sp' <-> s ∈ sp_sigs sp /\
    (self_signed key id (Some (sp_packet sp)) s \/ other_signed key (Some (sp_packet sp)) s);
  vs_self : exists s, s ∈ sp_sigs sp' /\ self_signed key id (Some (sp_packet sp)) s
}.

Lemma sig_accepted_verify key id target s :
  check_possible true -> key_packet_ok (pk_publickey key) -> (forall p, target = Some p -> wf_packet p) ->
  sig_checkable s ->
  (sig_accepted key id target true s = true <-> self_signed key id target s \/ other_signed key target s) /\
  (sig_self key id target true s = true <-> self_signed key id target s).
Proof.
  intros Hc Hk Ht Hs. destruct (Hc eq_refl) as (? & ? & ?).
  destruct (clean_sighash_verify key id target s) as (rm & self & other & E & Hself & _ & Hrm & _); [done..|].
  unfold sig_accepted, sig_self. rewrite E, negb_true_iff. auto.
Qed.

Lemma sig_accepted_hash key id target s :
  key_packet_ok (pk_publickey key) -> (forall p, target = Some p -> wf_packet p) -> sig_checkable s ->
  sig_accepted key id target false s = true <-> hash_agrees key target s.
Proof.
  intros Hk Ht Hs. destruct (clean_sighash_hash key id target s) as (rm & E & Hrm); [apply Hk | done | done |].
  unfold sig_accepted. rewrite E, negb_true_iff. done.
Qed.

Lemma filter_sublist_of {A} (f : A -> bool) l : List.filter f l `sublist_of` l.
Proof. induction l as [|x l IH]; cbn; [done|]. case_if; by constructor. Qed.

Lemma elem_of_filter_In {A} (f : A -> bool) l x : x ∈ List.filter f l <-> x ∈ l /\ f x = true.
Proof. by rewrite !list_elem_of_In, List.filter_In. Qed.

Lemma checked_sp_verified key id sp :
  check_possible true -> key_packet_ok (pk_publickey key) -> sp_checkable sp ->
  sp_stays key id true sp = true -> verified_sp key id sp (checked_sp key id true sp).
Proof.
  intros Hc Hk [Hp Hs] Hst. rewrite Forall_forall in Hs.
  assert (Ht : forall p, Some (sp_packet sp) = Some p -> wf_packet p) by (by intros p [= <-]).
  assert (Hsigs : forall s, s ∈ sp_sigs (checked_sp key id true sp) <-> s ∈ sp_sigs sp /\
    (self_signed key id (Some (sp_packet sp)) s \/ other_signed key (Some (sp_packet sp)) s)).
  { intros s. unfold checked_sp. cbn [sp_sigs set_sp_sigs]. rewrite elem_of_filter_In.
    split; intros [Hin Ha]; (split; [done|]); by apply (sig_accepted_verify key id (Some (sp_packet sp)) s Hc Hk Ht (Hs s Hin)). }
  split; [done | exact Hsigs |].
  unfold sp_stays in Hst. cbn [negb orb] in Hst. apply existsb_exists in Hst as (s & Hin & Hself).
  apply list_elem_of_In in Hin. apply (sig_accepted_verify key id (Some (sp_packet sp)) s Hc Hk Ht (Hs s Hin)) in Hself.
  exists s. split; [|done]. apply Hsigs. auto.
Qed.

(** The list after verification against the list before. *)
Lemma checked_list_verified key id l :
  check_possible true -> key_packet_ok (pk_publickey key) -> Forall sp_checkable l ->
  let l' := map (checked_sp key id true) (List.filter (sp_stays key id true) l) in
  (forall sp', sp' ∈ l' -> exists sp, sp ∈ l /\ verified_sp key id sp sp') /\
  (forall sp s, sp ∈ l -> s ∈ sp_sigs sp -> self_signed key id (Some (sp_packet sp)) s ->
     exists sp', sp' ∈ l' /\ verified_sp key id sp sp').
Proof.
  intros Hc Hk Hl l'. rewrite Forall_forall in Hl. split.
  - intros sp' Hin. apply list_elem_of_fmap in Hin as (sp & -> & [Hin Hst]%elem_of_filter_In).
    exists sp. split; [done|]. apply checked_sp_verified; auto.
  - intros sp s Hin Hs Hself. assert (Hst : sp_stays key id true sp = true).
    { unfold sp_stays. cbn [negb orb]. apply existsb_exists. exists s. split; [by apply list_elem_of_In|].
      destruct (Hl sp Hin) as [Hp Hss]. rewrite Forall_forall in Hss.
      apply sig_accepted_verify; [done | done | by intros p [= <-] | auto | done]. }
    exists (checked_sp key id true sp). split; [|apply checked_sp_verified; auto].
    apply list_elem_of_fmap. exists sp. split; [done|]. by apply elem_of_filter_In.
Qed.

End Checks.

(** * Properties of the signature checks *)

(** C4: verifying the signatures of a key, in a build with the crypto
    libraries, keeps exactly the signatures that verify, by the key itself when
    they name it as their signer or by a key with the signer's key id in the
    database, over the digest of exactly the packet they stand on; a user id or
    subkey is left only with a valid signature of the key itself, every subkey
    that has one stays, and so does every user id unless signatures of other
    keys are required. *)
Theorem verify_signatures_correct {HF : Hashes} {BC : BuildConfig} {NT : Nettle} {D} {DB : KeyDb D}
    (dbctx : D) stack key id needother :
  have_crypto = true -> db_readable dbctx -> zlen stack = 64 ->
  key_packet_ok (pk_publickey key) -> get_keyid key = Done (ONAK_E_OK, Some id) ->
  Forall sig_checkable (pk_sigs key) -> Forall sp_checkable (pk_uids key) -> Forall sp_checkable (pk_subkeys key) ->
  exists key' n, clean_key_signatures dbctx stack key true needother = Done (key', n) /\
    pk_publickey key' = pk_publickey key /\
    (forall s, s ∈ pk_sigs key' <-> s ∈ pk_sigs key /\
       (self_signed stack key id None s \/ other_signed dbctx stack key None s)) /\
    (forall sp', sp' ∈ pk_uids key' -> exists sp, sp ∈ pk_uids key /\ verified_sp dbctx stack key id sp sp') /\
    (forall sp', sp' ∈ pk_subkeys key' -> exists sp, sp ∈ pk_subkeys key /\ verified_sp dbctx stack key id sp sp') /\
    (forall sp s, sp ∈ pk_subkeys key -> s ∈ sp_sigs sp -> self_signed stack key id (Some (sp_packet sp)) s ->
       exists sp', sp' ∈ pk_subkeys key' /\ verified_sp dbctx stack key id sp sp') /\
    (needother = false -> forall sp s, sp ∈ pk_uids key -> s ∈ sp_sigs sp ->
       self_signed stack key id (Some (sp_packet sp)) s ->
       exists sp', sp' ∈ pk_uids key' /\ verified_sp dbctx stack key id sp sp').
Proof.
  intros Hcr Hdb Hst Hk Hid Hs Hu Hsk.
  assert (Hc : check_possible dbctx stack true) by (by intros _).
  destruct (clean_key_signatures_spec dbctx stack key id true needother Hc Hk Hid Hs Hu Hsk) as (uids & n & E & Hr).
  eexists _, n. split; [exact E|]. cbn [pk_publickey pk_sigs pk_uids pk_subkeys]. split; [done|].
  destruct (checked_list_verified dbctx stack key id (pk_uids key) Hc Hk Hu) as [U1 U2].
  destruct (checked_list_verified dbctx stack key id (pk_subkeys key) Hc Hk Hsk) as [S1 S2].
  rewrite Forall_forall in Hs.
  split; [|split; [|split; [exact S1 | split; [exact S2|]]]].
  - intros s. rewrite elem_of_filter_In.
    split; intros [Hin Ha]; (split; [done|]); by apply (sig_accepted_verify dbctx stack key id None s Hc Hk ltac:(done) (Hs s Hin)).
  - destruct Hr as [-> | [_ ->]]; [exact U1|]. intros sp' []%not_elem_of_nil.
  - intros ->. destruct Hr as [-> | [? _]]; [exact U2 | done].
Qed.

(** Checking the hashes of the signatures of a key removes no user id and
    no subkey and changes none of them; on each, and on the key itself, exactly
    the signatures stay whose two stored octets are those of the digest of what
    they sign, and the ones whose digest there is no support for. *)
Theorem check_hashes_correct {HF : Hashes} {BC : BuildConfig} {NT : Nettle} {D} {DB : KeyDb D}
    (dbctx : D) stack key id needother :
  key_packet_ok (pk_publickey key) -> get_keyid key = Done (ONAK_E_OK, Some id) ->
  Forall sig_checkable (pk_sigs key) -> Forall sp_checkable (pk_uids key) -> Forall sp_checkable (pk_subkeys key) ->
  exists key' n, clean_key_signatures dbctx stack key false needother = Done (key', n) /\
    let stays target l l' := forall s, s ∈ l' <-> s ∈ l /\ hash_agrees key target s in
    let same sp sp' := sp_packet sp' = sp_packet sp /\ sp_sigs sp' `sublist_of` sp_sigs sp /\
      stays (Some (sp_packet sp)) (sp_sigs sp) (sp_sigs sp') in
    pk_publickey key' = pk_publickey key /\ pk_sigs key' `sublist_of` pk_sigs key /\
    stays None (pk_sigs key) (pk_sigs key') /\
    Forall2 same (pk_uids key) (pk_uids key') /\ Forall2 same (pk_subkeys key) (pk_subkeys key').
Proof.
  intros Hk Hid Hs Hu Hsk.
  assert (Hc : check_possible dbctx stack false) by done.
  destruct (clean_key_signatures_spec dbctx stack key id false needother Hc Hk Hid Hs Hu Hsk) as (uids & n & E & Hr).
  destruct Hr as [-> | [H _]]; [|by rewrite andb_false_r in H].
  eexists _, n. split; [exact E|]. cbv zeta. cbn [pk_publickey pk_sigs pk_uids pk_subkeys]. split; [done|].
  assert (Hstay : forall target l, (forall p, target = Some p -> wf_packet p) -> Forall sig_checkable l -> forall s,
    s ∈ List.filter (sig_accepted dbctx stack key id target false) l <-> s ∈ l /\ hash_agrees key target s).
  { intros target l Ht Hl s. rewrite elem_of_filter_In. rewrite Forall_forall in Hl.
    split; intros [Hin Ha]; (split; [done|]); by apply (sig_accepted_hash dbctx stack key id target s Hk Ht (Hl s Hin)). }
  assert (Hlist : forall l, Forall sp_checkable l -> Forall2 (fun sp sp' =>
    sp_packet sp' = sp_packet sp /\ sp_sigs sp' `sublist_of` sp_sigs sp /\
    forall s, s ∈ sp_sigs sp' <-> s ∈ sp_sigs sp /\ hash_agrees key (Some (sp_packet sp)) s)
    l (map (checked_sp dbctx stack key id false) (List.filter (sp_stays dbctx stack key id false) l))).
  { induction 1 as [|sp l [Hp Hss] _ IH]; [constructor|]. cbn [List.filter]. change (sp_stays dbctx stack key id false sp) with true.
    cbn [map]. constructor; [|done]. split; [done|]. split; [apply filter_sublist_of|].
    apply Hstay; [by intros p [= <-] | done]. }
  split; [apply filter_sublist_of|]. split; [by apply Hstay|]. split; by apply Hlist.
Qed.

(** A key with one user id and a self signature that verifies in the toy
    instances. *)
Definition toy_key_packet : openpgp_packet :=
  mkPacket OPENPGP_PACKET_PUBLICKEY true 51 (encode_pub 4 [0; 0; 0; 1] (PubEdDSA sample_ed_point)).

Definition toy_key_id : Z :=
  match @get_packetid toy_hashes full_build toy_key_packet with Done (_, Some id) => id | _ => 0 end.

Definition toy_sig (type : Z) (target : option openpgp_packet) : openpgp_packet :=
  let key := mkKey toy_key_packet false [] [] [] in
  let s left16 mpis := SigV3 3 type [0; 0; 0; 9] (be_bytes 8 toy_key_id) 22 8 left16 mpis in
  let digest := @hash toy_hashes 8 (signed_octets key target (s [0; 0] [])) in
  let v := be_value sample_ed_point + be_value digest in
  let data := encode_signature (s (take 2 digest) (encode_mpis [v / 2 ^ 256; v mod 2 ^ 256])) in
  mkPacket OPENPGP_PACKET_SIGNATURE true (zlen data) data.

Definition toy_uid : openpgp_signedpacket :=
  let p := mkPacket OPENPGP_PACKET_UID true 3 (str "abc") in mkSigned p [toy_sig 0x13 (Some p)].

Definition toy_key : openpgp_publickey := mkKey toy_key_packet false [] [toy_uid] [].

(** A database without keys. *)
Definition empty_db : KeyDb unit := {|
  starttrans := fun d => (d, true);
  endtrans := fun d => d;
  fetch_key := fun _ _ _ => (0, []);
  fetch_key_id := fun _ _ _ => (0, []);
  fetch_key_fp := fun _ _ _ => (0, []);
  store_key := fun d _ _ _ => (d, 0)
|}.

Lemma sig_checkable_v3 s :
  pkt_tag s = OPENPGP_PACKET_SIGNATURE -> wf_packet s -> (pkt_data s).[0] = Done 3 -> 15 <= pkt_length s < 2 ^ 64 ->
  sig_truncated s = false -> sig_checkable s.
Proof.
  intros Ht Hw H0 Hl Htr. split; [|split; [lia | done]]. split; [done|]. split; [done|]. split; [lia|].
  destruct (sig_info_v3_decodes s 3 Hw H0 (or_intror eq_refl)) as (kid & t & H); [lia|]. eauto.
Qed.

Lemma toy_uid_checkable : sp_checkable toy_uid.
Proof.
  split; [apply (bool_decide_unpack _); vm_compute; exact I|]. apply Forall_singleton, sig_checkable_v3.
  - reflexivity.
  - apply (bool_decide_unpack _). vm_compute. exact I.
  - vm_compute. reflexivity.
  - split; vm_compute; [discriminate | reflexivity].
  - vm_compute. reflexivity.
Qed.

Lemma toy_key_packet_ok : key_packet_ok toy_key_packet.
Proof. split; [apply (bool_decide_unpack _); vm_compute; exact I | vm_compute; reflexivity]. Qed.

Lemma verify_signatures_correct_witness :
  exists key' n sp', @clean_key_signatures toy_hashes full_build toy_nettle unit empty_db tt (replicate 64 7)
      toy_key true false = Done (key', n) /\ sp' ∈ pk_uids key' /\ sp_packet sp' = sp_packet toy_uid.
Proof.
  destruct (@verify_signatures_correct toy_hashes full_build toy_nettle unit empty_db tt (replicate 64 7)
    toy_key toy_key_id false) as (key' & n & E & _ & _ & _ & _ & _ & Hu).
  - reflexivity.
  - intros id. apply Forall_nil_2.
  - reflexivity.
  - exact toy_key_packet_ok.
  - vm_compute. reflexivity.
  - apply Forall_nil_2.
  - apply Forall_singleton, toy_uid_checkable.
  - apply Forall_nil_2.
  - destruct (Hu eq_refl toy_uid (toy_sig 0x13 (Some (sp_packet toy_uid)))) as (sp' & Hin & Hv).
    + left.
    + left.
    + split; [vm_compute; reflexivity|]. eexists _, _.
      split; [vm_compute; reflexivity|]. split; [reflexivity|]. split; [reflexivity|]. vm_compute. reflexivity.
    + exists key', n, sp'. split; [exact E|]. split; [exact Hin|]. apply Hv.
Defined.

Lemma check_hashes_correct_witness :
  exists key' n, @clean_key_signatures toy_hashes full_build toy_nettle unit empty_db tt []
      toy_key false true = Done (key', n) /\ pk_publickey key' = toy_key_packet.
Proof.
  destruct (@check_hashes_correct toy_hashes full_build toy_nettle unit empty_db tt [] toy_key toy_key_id true)
    as (key' & n & E & Hp & _).
  - exact toy_key_packet_ok.
  - vm_compute. reflexivity.
  - apply Forall_nil_2.
  - apply Forall_singleton, toy_uid_checkable.
  - apply Forall_nil_2.
  - exists key', n. split; [exact E | exact Hp].
Defined.
