(* ===== verification/CleanKeys.v ===== *)
(** The cleaning pass as a whole ([cleankeys] of cleankey.c): every step keeps
    the well-formedness the next one needs, and what holds of the keys that
    come out. *)

From Stdlib Require Import String.
From S2P Require Import Prelude OpenPGP Streams KeyId Decode Keys Merge Sighash SigCheck DbCtx Clean CleanFacts.

(** A key of version 4 or later. *)
Definition modern (k : openpgp_publickey) : Prop :=
  exists v, (pkt_data (pk_publickey k)).[0] = Done v /\ 4 <= v.

Section CleanKeys.
Context {HF : Hashes} {BC : BuildConfig} {NT : Nettle} {D : Type} {DB : KeyDb D}.
Context (dbctx : D) (stack : list Z) (config : onak_config).

(** * The invariant of the pass *)

(** A key id can be computed for the packet. *)
Definition has_id (p : openpgp_packet) : Prop := exists rc id, get_packetid p = Done (rc, Some id).

(** The length of the packet fits an [int], as comparing it needs. *)
Definition sp_short (sp : openpgp_signedpacket) : Prop := pkt_length (sp_packet sp) < 2 ^ 31.

Record key_ok (k : openpgp_publickey) : Prop := {
  ko_packet : key_packet_ok (pk_publickey k);
  ko_id : exists id, get_keyid k = Done (ONAK_E_OK, Some id);
  ko_fp : exists r, get_fingerprint (pk_publickey k) = Done r;
  ko_sigs : Forall sig_checkable (pk_sigs k);
  ko_uids : Forall sp_checkable (pk_uids k);
  ko_subkeys : Forall sp_checkable (pk_subkeys k);
  ko_subids : Forall (fun sp => has_id (sp_packet sp)) (pk_subkeys k);
  ko_count : zlen (pk_uids k) < 2 ^ 31;
  ko_short_uids : Forall sp_short (pk_uids k);
  ko_short_subkeys : Forall sp_short (pk_subkeys k)
}.

Lemma zlen_sublist {A} (l k : list A) : l `sublist_of` k -> zlen l <= zlen k.
Proof. intros H. apply sublist_length in H. unfold zlen. lia. Qed.

(** Replacing the user ids by checkable ones, not more of them. *)
Lemma key_ok_uids k l :
  key_ok k -> Forall sp_checkable l -> Forall sp_short l -> zlen l <= zlen (pk_uids k) -> key_ok (set_pk_uids k l).
Proof. intros [] Hl Hs Hz. split; cbn [pk_publickey pk_sigs pk_uids pk_subkeys set_pk_uids]; try done. lia. Qed.

Lemma sp_checkable_good sp : sp_checkable sp -> sp_short sp -> signed_good sp.
Proof. intros [Hp Hs] Hl. split; [by split|]. eapply Forall_impl; [exact Hs|]. by intros s []. Qed.

Lemma sps_checkable_good l : Forall sp_checkable l -> Forall sp_short l -> Forall signed_good l.
Proof.
  intros Hl Hs. pose proof (proj2 (Forall_and _ _) (conj Hl Hs)) as H.
  eapply Forall_impl; [exact H|]. intros sp []. by apply sp_checkable_good.
Qed.

Lemma sp_checkable_readable sp : sp_checkable sp -> sp_readable sp.
Proof.
  intros [Hp Hs]. repeat split; [apply Hp | apply Hp | |]; (eapply Forall_impl; [exact Hs|]).
  - intros s [Hg _]. by apply sig_good_wf.
  - by intros s (_ & ? & _).
Qed.

Lemma sps_readable l : Forall sp_checkable l -> Forall sp_readable l.
Proof. intros Hl. eapply Forall_impl; [exact Hl | apply sp_checkable_readable]. Qed.

Lemma sps_checkable_parts l :
  Forall sp_checkable l <-> Forall (fun sp => wf_packet (sp_packet sp)) l /\
    Forall (fun sp => Forall sig_checkable (sp_sigs sp)) l.
Proof. unfold sp_checkable. by rewrite Forall_and. Qed.

(** * Lists that only lose packets and signatures *)

Inductive shrunk : list openpgp_signedpacket -> list openpgp_signedpacket -> Prop :=
  | shrunk_nil : shrunk [] []
  | shrunk_drop sp l l' : shrunk l l' -> shrunk (sp :: l) l'
  | shrunk_keep sp sp' l l' :
      sp_packet sp' = sp_packet sp -> sp_sigs sp' `sublist_of` sp_sigs sp ->
      shrunk l l' -> shrunk (sp :: l) (sp' :: l').

Lemma shrunk_sublist l l' : l' `sublist_of` l -> shrunk l l'.
Proof. induction 1; by constructor. Qed.

Lemma shrunk_refl l : shrunk l l.
Proof. by apply shrunk_sublist. Qed.

Lemma shrunk_Forall (P : openpgp_signedpacket -> Prop) l l' :
  (forall sp sp', sp_packet sp' = sp_packet sp -> sp_sigs sp' `sublist_of` sp_sigs sp -> P sp -> P sp') ->
  shrunk l l' -> Forall P l -> Forall P l'.
Proof. intros HP. induction 1; intros Hl; [done | |]; apply Forall_cons in Hl as []; eauto. Qed.

Lemma shrunk_ids l l' : shrunk l l' -> map sp_id l' `sublist_of` map sp_id l.
Proof.
  induction 1 as [|sp l l' _ IH|sp sp' l l' Hp _ _ IH]; cbn [map]; [done | by constructor|].
  unfold sp_id at 1 3. rewrite Hp. by constructor.
Qed.

Lemma shrunk_distinct l l' : shrunk l l' -> distinct_sps l -> distinct_sps l'.
Proof. intros H Hd. eapply sublist_NoDup; [exact Hd | by apply shrunk_ids]. Qed.

Lemma shrunk_len l l' : shrunk l l' -> zlen l' <= zlen l.
Proof. induction 1; rewrite ?zlen_cons; lia. Qed.

Lemma shrunk_checkable l l' : shrunk l l' -> Forall sp_checkable l -> Forall sp_checkable l'.
Proof.
  apply shrunk_Forall. intros sp sp' Hp Hs [Hw Hss]. split; [by rewrite Hp | by eapply sublist_Forall].
Qed.

(** A key that only lost user ids, subkeys and signatures. *)
Record shrinks (k k' : openpgp_publickey) : Prop := {
  sh_pub : pk_publickey k' = pk_publickey k;
  sh_sigs : pk_sigs k' `sublist_of` pk_sigs k;
  sh_uids : shrunk (pk_uids k) (pk_uids k');
  sh_subkeys : shrunk (pk_subkeys k) (pk_subkeys k')
}.

Lemma shrinks_ok k k' : shrinks k k' -> key_ok k -> key_ok k'.
Proof.
  intros [Hp Hs Hu Hk] [H1 [id H2] H3 H4 H5 H6 H7 H8 H9 H10]. pose proof (shrunk_len _ _ Hu).
  split; rewrite ?Hp; try done.
  - exists id. unfold get_keyid in *. by rewrite Hp.
  - by eapply sublist_Forall.
  - by eapply shrunk_checkable.
  - by eapply shrunk_checkable.
  - eapply shrunk_Forall; [|exact Hk | exact H7]. by intros sp sp' ->.
  - lia.
  - eapply shrunk_Forall; [|exact Hu | exact H9]. unfold sp_short. by intros sp sp' ->.
  - eapply shrunk_Forall; [|exact Hk | exact H10]. unfold sp_short. by intros sp sp' ->.
Qed.

Lemma shrinks_refl k : shrinks k k.
Proof. split; [done | done | apply shrunk_refl | apply shrunk_refl]. Qed.

Lemma shrinks_uids k l : l `sublist_of` pk_uids k -> shrinks k (set_pk_uids k l).
Proof. intros. split; [done | done | by apply shrunk_sublist | apply shrunk_refl]. Qed.

(** * Signature lists without two entries of one signer *)

Definition signers_distinct (l : list openpgp_packet) : Prop :=
  ForallOrdPairs (fun a b => same_signer a b = false) l.

Lemma signers_distinct_sub l k : l `sublist_of` k -> signers_distinct k -> signers_distinct l.
Proof.
  unfold signers_distinct. induction 1 as [|x l k Hs IH|x l k Hs IH]; intros Hk; inversion Hk; subst; auto.
  constructor; [by eapply sublist_Forall | auto].
Qed.

Lemma signers_distinct_dedupe l r n : dedupe_result l r n -> signers_distinct r.
Proof.
  intros [_ _ Hd _ _]. clear l n. induction r as [|x r IH]; [constructor|]. constructor.
  - apply Forall_forall. intros y (j & Hj)%list_elem_of_lookup. apply (Hd 0%nat (S j)); [lia | done | done].
  - apply IH. intros i j a b Hij Ha Hb. apply (Hd (S i) (S j)); [lia | done | done].
Qed.

(** The signatures of a packet after the steps up to the limits. *)
Definition sps_distinct_signers (l : list openpgp_signedpacket) : Prop :=
  Forall (fun sp => signers_distinct (sp_sigs sp)) l.

Lemma dedupe_sigs_ok l :
  Forall sig_checkable l -> exists r n, dedupe_sigs l = Done (r, n) /\ r `sublist_of` l /\ signers_distinct r.
Proof.
  intros Hl. destruct (dedupe_sigs_good l) as (r & n & E & Hr); [by eapply Forall_impl; [exact Hl | intros ? []]|].
  exists r, n. split; [done|]. split; [apply Hr | by eapply signers_distinct_dedupe].
Qed.

Lemma dedupe_sigs_list_ok l : forall count,
  Forall sp_checkable l ->
  exists l' n, dedupe_sigs_list l count = Done (l', n) /\ shrunk l l' /\ sps_distinct_signers l'.
Proof.
  induction l as [|sp l IH]; intros count Hl; cbn [dedupe_sigs_list].
  { exists [], count. repeat split; constructor. }
  apply Forall_cons in Hl as [[Hp Hs] Hl]. destruct (dedupe_sigs_ok (sp_sigs sp) Hs) as (r & n & -> & Hr & Hd).
  cbn [mbind outcome_bind]. destruct (IH (i32 (count + n)) Hl) as (l' & m & -> & Hl' & Hd').
  cbn [mbind outcome_bind]. eexists _, _. split; [done|]. by split; constructor.
Qed.

(** * The steps *)

(** What is known after the steps before the signature lists are touched. *)
Definition small_packets (policies : Z) (l : list openpgp_signedpacket) : Prop :=
  policy policies ONAK_CLEAN_LARGE_PACKETS = true -> Forall (fun sp => is_large (sp_packet sp) = false) l.

(** At most [n] packets of a tag. *)
Definition at_most (tag n : Z) (l : list openpgp_signedpacket) : Prop := zlen (List.filter (of_tag tag) l) <= n.

Lemma drop_large_spec l : forall d, (drop_large l d).1 `sublist_of` l /\ Forall (fun sp => is_large (sp_packet sp) = false) (drop_large l d).1.
Proof.
  induction l as [|sp l IH]; intros d; cbn [drop_large]; [by split; constructor|]. case_if.
  - destruct (IH (i32 (d + 1))). split; [by constructor | done].
  - destruct (IH d) as [Hs Hf]. destruct (drop_large l d) as [l' n]. cbn in *. by split; constructor.
Qed.

Lemma filter_split_len tag l :
  zlen (List.filter (of_tag tag) l) = zlen (List.filter (active tag) l) + zlen (List.filter (revoked tag) l).
Proof.
  induction l as [|sp l IH]; [done|]. cbn [List.filter]. unfold active at 1, revoked at 1.
  destruct (of_tag tag sp), (is_revoked sp); cbn [negb andb]; rewrite ?zlen_cons; lia.
Qed.

Lemma cap_packet_type_ok k tag max :
  key_ok k -> 2 <= max < 2 ^ 31 ->
  exists l n, cap_packet_type k tag max max = Done (set_pk_uids k l, n) /\ l `sublist_of` pk_uids k /\
    at_most tag (2 * max) l.
Proof.
  intros Hk Hm. destruct (cap_packet_type_spec k tag max) as (l & n & E & Hs & _ & _ & Hr & Ha & _);
    [apply sps_readable, Hk | apply Hk | done |].
  exists l, n. split; [done|]. split; [done|]. unfold at_most. rewrite filter_split_len, Ha, Hr.
  unfold zlen. rewrite length_drop. lia.
Qed.

Lemma cap_sigs_loop_spec tag max l : forall d, 0 < max ->
  let l' := (cap_sigs_loop l tag max d).1 in
  shrunk l l' /\ Forall (fun sp => pkt_tag (sp_packet sp) = tag -> zlen (sp_sigs sp) <= max) l'.
Proof.
  induction l as [|sp l IH]; intros d Hm; cbn [cap_sigs_loop]; [split; constructor|].
  destruct (Z.eqb_spec (pkt_tag (sp_packet sp)) tag) as [Ht|Ht]; cbn [negb].
  - destruct (IH (i32 (d + zlen (drop (Z.to_nat max) (sp_sigs sp)))) Hm) as (H1 & H2).
    destruct (cap_sigs_loop l tag max _) as [l' n]. cbn [fst] in *.
    split; constructor; [done | apply sublist_take | done | | done]. intros _. cbn [sp_sigs set_sp_sigs].
    unfold zlen. rewrite length_take. lia.
  - destruct (IH d Hm) as (H1 & H2). destruct (cap_sigs_loop l tag max d) as [l' n]. cbn [fst] in *.
    by split; constructor.
Qed.

(** What holds of the user ids and is not lost by shrinking. *)
Record uids_limits (policies : Z) (l : list openpgp_signedpacket) : Prop := {
  ul_distinct : distinct_sps l;
  ul_small : small_packets policies l;
  ul_uids : policy policies ONAK_CLEAN_CAP_UIDS = true -> at_most OPENPGP_PACKET_UID (2 * MAX_UIDS_PER_KEY) l;
  ul_uats : policy policies ONAK_CLEAN_CAP_UATS = true -> at_most OPENPGP_PACKET_UAT (2 * MAX_UATS_PER_KEY) l
}.

Lemma shrunk_at_most tag n l l' : shrunk l l' -> at_most tag n l -> at_most tag n l'.
Proof.
  unfold at_most. intros H Hn. etransitivity; [|exact Hn]. clear Hn.
  induction H as [|sp l l' _ IH|sp sp' l l' Hp _ _ IH]; cbn [List.filter]; [done | |].
  - case_if; rewrite ?zlen_cons; lia.
  - assert (of_tag tag sp' = of_tag tag sp) as -> by (unfold of_tag; by rewrite Hp). case_if; rewrite ?zlen_cons; lia.
Qed.

Lemma shrunk_small policies l l' : shrunk l l' -> small_packets policies l -> small_packets policies l'.
Proof. intros H Hl Hp. eapply shrunk_Forall; [|exact H | by apply Hl]. by intros sp sp' ->. Qed.

Lemma shrunk_limits policies l l' : shrunk l l' -> uids_limits policies l -> uids_limits policies l'.
Proof.
  intros H [H1 H2 H3 H4]. split; [by eapply shrunk_distinct | by eapply shrunk_small | |];
    intros Hp; eapply shrunk_at_most; eauto.
Qed.

Lemma shrunk_signers l l' : shrunk l l' -> sps_distinct_signers l -> sps_distinct_signers l'.
Proof. apply shrunk_Forall. intros sp sp' _. apply signers_distinct_sub. Qed.

Lemma shrunk_sig_limit tag max l l' :
  shrunk l l' -> Forall (fun sp => pkt_tag (sp_packet sp) = tag -> zlen (sp_sigs sp) <= max) l ->
  Forall (fun sp => pkt_tag (sp_packet sp) = tag -> zlen (sp_sigs sp) <= max) l'.
Proof.
  apply shrunk_Forall. intros sp sp' Hp Hs H. rewrite Hp. intros Ht. apply zlen_sublist in Hs. specialize (H Ht). lia.
Qed.

(** * The steps on a key *)

Lemma large_step policies k count :
  key_ok k -> exists k' n, clean_step (policy policies ONAK_CLEAN_LARGE_PACKETS)
    (fun k => Done (clean_large_packets k)) k count = Done (k', n) /\ shrinks k k' /\ small_packets policies (pk_uids k').
Proof.
  intros Hk. unfold clean_step, small_packets. case_if.
  - unfold clean_large_packets. destruct (drop_large_spec (pk_uids k) 0) as [Hs Hl].
    destruct (drop_large (pk_uids k) 0) as [l n]. cbn [fst mbind outcome_bind] in *.
    eexists _, _. split; [done|]. split; [by apply shrinks_uids | done].
  - exists k, count. split; [done|]. split; [apply shrinks_refl | done].
Qed.

Lemma deduped_checkable l l' : deduped l l' -> Forall sp_checkable l -> Forall sp_checkable l'.
Proof. intros Hd [H1 H2]%sps_checkable_parts. apply sps_checkable_parts. split; by apply Hd. Qed.

Lemma deduped_len l l' : deduped l l' -> zlen l' <= zlen l.
Proof. intros Hd. pose proof (sublist_length _ _ (dd_sub _ _ Hd)) as H. rewrite !length_map in H. unfold zlen. lia. Qed.

Lemma dedup_uids_step policies k count :
  key_ok k -> small_packets policies (pk_uids k) ->
  exists k' n, clean_step true dedupuids k count = Done (k', n) /\ key_ok k' /\
    pk_publickey k' = pk_publickey k /\ distinct_sps (pk_uids k') /\ small_packets policies (pk_uids k').
Proof.
  intros Hk Hs. unfold clean_step, dedupuids.
  destruct (dedup_packets_good (fun _ => Done tt) (length (pk_uids k)) (pk_uids k) 0) as (l & n & -> & Hd);
    [done | apply sps_checkable_good; apply Hk | by apply Forall_true |].
  cbn [mbind outcome_bind]. eexists _, _. split; [done|].
  split; [apply key_ok_uids; [done | eapply deduped_checkable; [done | apply Hk] | | by apply deduped_len]|].
  { apply (dd_packets _ _ Hd (fun p => pkt_length p < 2 ^ 31)), Hk. }
  split; [done|]. split; [apply Hd|]. intros Hp. apply (dd_packets _ _ Hd (fun p => is_large p = false)). by apply Hs.
Qed.

Lemma dedup_subkeys_step k count :
  key_ok k ->
  exists k' n, clean_step true dedupsubkeys k count = Done (k', n) /\ key_ok k' /\
    pk_publickey k' = pk_publickey k /\ pk_uids k' = pk_uids k /\ distinct_sps (pk_subkeys k').
Proof.
  intros Hk. unfold clean_step, dedupsubkeys.
  destruct (dedup_packets_good (fun p => '(_, id) ← get_packetid p; _ ← read_var id; Done tt)
    (length (pk_subkeys k)) (pk_subkeys k) 0) as (l & n & -> & Hd); [done | apply sps_checkable_good; apply Hk | |].
  { eapply Forall_impl; [exact (ko_subids _ Hk)|]. intros sp (rc & id & E). cbn. by rewrite E. }
  cbn [mbind outcome_bind]. eexists _, _. split; [done|]. pose proof Hk as [H1 H2 H3 H4 H5 H6 H7 H8 H9 H10].
  split; [|split; [done|]; split; [done | apply Hd]].
  split; cbn [pk_publickey pk_sigs pk_uids pk_subkeys set_pk_subkeys]; try done.
  - by eapply deduped_checkable.
  - by apply (dd_packets _ _ Hd has_id).
  - by apply (dd_packets _ _ Hd (fun p => pkt_length p < 2 ^ 31)).
Qed.

Lemma cap_step (flag : bool) k tag max count :
  key_ok k -> 2 <= max < 2 ^ 31 ->
  exists k' n, clean_step flag (fun k => cap_packet_type k tag max max) k count = Done (k', n) /\ shrinks k k' /\
    (flag = true -> at_most tag (2 * max) (pk_uids k')).
Proof.
  intros Hk Hm. unfold clean_step. case_if.
  - destruct (cap_packet_type_ok k tag max Hk Hm) as (l & n & -> & Hs & Ha). cbn [mbind outcome_bind].
    eexists _, _. split; [done|]. split; [by apply shrinks_uids | done].
  - exists k, count. split; [done|]. split; [apply shrinks_refl | done].
Qed.

(** No two signatures of one signer on any list of the key. *)
Definition key_signers (k : openpgp_publickey) : Prop :=
  signers_distinct (pk_sigs k) /\ sps_distinct_signers (pk_uids k) /\ sps_distinct_signers (pk_subkeys k).

Lemma shrinks_signers k k' : shrinks k k' -> key_signers k -> key_signers k'.
Proof.
  intros [_ Hs Hu Hk] (H1 & H2 & H3). split; [by eapply signers_distinct_sub|].
  split; by eapply shrunk_signers.
Qed.

Lemma dedupe_step k count :
  key_ok k -> exists k' n, dedupe_key_sigs k count = Done (k', n) /\ shrinks k k' /\ key_signers k'.
Proof.
  intros Hk. unfold dedupe_key_sigs. destruct (dedupe_sigs_ok (pk_sigs k)) as (r & n & -> & Hr & Hd); [apply Hk|].
  cbn [mbind outcome_bind]. destruct (dedupe_sigs_list_ok (pk_uids k) (i32 (count + n))) as (u & m & -> & Hu & Hdu); [apply Hk|].
  cbn [mbind outcome_bind]. destruct (dedupe_sigs_list_ok (pk_subkeys k) m) as (s & o & -> & Hs & Hds); [apply Hk|].
  cbn [mbind outcome_bind]. eexists _, _. split; [done|]. by split; [split | split].
Qed.

Definition sig_limit (tag max : Z) (l : list openpgp_signedpacket) : Prop :=
  0 < max -> Forall (fun sp => pkt_tag (sp_packet sp) = tag -> zlen (sp_sigs sp) <= max) l.

Lemma cap_sigs_step tag max k count :
  exists k' n, clean_step (0 <? max) (fun k => Done (cap_sigs_per_packet k tag max)) k count = Done (k', n) /\
    shrinks k k' /\ sig_limit tag max (pk_uids k').
Proof.
  unfold clean_step, sig_limit. destruct (Z.ltb_spec 0 max) as [Hm|Hm].
  - unfold cap_sigs_per_packet. rewrite (proj2 (Z.eqb_neq max 0)) by lia.
    destruct (cap_sigs_loop_spec tag max (pk_uids k) 0 Hm) as [Hs Hl].
    destruct (cap_sigs_loop (pk_uids k) tag max 0) as [l n]. cbn [fst mbind outcome_bind] in *.
    eexists _, _. split; [done|]. split; [|done]. split; [done | done | done | apply shrunk_refl].
  - exists k, count. split; [done|]. split; [apply shrinks_refl | lia].
Qed.

Lemma shrunk_checked key id fv l :
  shrunk l (map (checked_sp dbctx stack key id fv) (List.filter (sp_stays dbctx stack key id fv) l)).
Proof.
  induction l as [|sp l IH]; cbn [List.filter map]; [constructor|]. case_if; cbn [map]; [|by constructor].
  constructor; [done | apply filter_sublist_of | done].
Qed.

(** Every user id and every subkey carries a valid signature of the key. *)
Definition key_verified (k : openpgp_publickey) : Prop :=
  forall id, get_keyid k = Done (ONAK_E_OK, Some id) -> forall sp, sp ∈ pk_uids k \/ sp ∈ pk_subkeys k ->
    exists s, s ∈ sp_sigs sp /\ self_signed stack k id (Some (sp_packet sp)) s.

Lemma check_step policies k count :
  check_possible dbctx stack (policy policies ONAK_CLEAN_VERIFY_SIGNATURES) -> key_ok k ->
  exists k' n, clean_step (policy policies (Z.lor ONAK_CLEAN_CHECK_SIGHASH ONAK_CLEAN_VERIFY_SIGNATURES))
    (check_signatures dbctx stack policies) k count = Done (k', n) /\ shrinks k k' /\
    (policy policies ONAK_CLEAN_VERIFY_SIGNATURES = true -> key_verified k').
Proof.
  intros Hc Hk. unfold clean_step. case_if.
  2: { exists k, count. split; [done|]. split; [apply shrinks_refl|]. intros Hv. exfalso. revert Heqb Hv.
       unfold policy. rewrite Z.land_lor_distr_r. rewrite negb_false_iff, Z.eqb_eq, Z.lor_eq_0_iff. intros [_ ->]. done. }
  unfold check_signatures. destruct (ko_id _ Hk) as [id Hid]. destruct (ko_fp _ Hk) as [[rc fp] Hfp]. rewrite Hfp.
  assert (Hno : exists needother, (if policy policies ONAK_CLEAN_NEED_OTHER_SIG
    then '(_, fp) ← Done (rc, fp); Done ((fetch_key dbctx fp false).1 =? 0) else Done false) = Done needother)
    by (case_if; cbn; eauto).
  destruct Hno as [needother ->]. cbn [mbind outcome_bind].
  destruct (clean_key_signatures_spec dbctx stack k id (policy policies ONAK_CLEAN_VERIFY_SIGNATURES) needother)
    as (uids & n & -> & Hr); [done | apply Hk | done | apply Hk | apply Hk | apply Hk |].
  cbn [mbind outcome_bind]. eexists _, _. split; [done|]. split.
  - split; [done | apply filter_sublist_of | | apply shrunk_checked]. cbn [pk_uids].
    destruct Hr as [-> | [_ ->]]; [apply shrunk_checked | by apply shrunk_sublist, sublist_nil_l].
  - intros Hv. rewrite Hv in *. intros id' Hid' sp Hsp.
    assert (Some id' = Some id) as [= ->] by (unfold get_keyid in *; cbn [pk_publickey] in Hid'; congruence).
    assert (Hl : forall l, Forall sp_checkable l -> sp ∈ map (checked_sp dbctx stack k id true) (List.filter (sp_stays dbctx stack k id true) l) ->
      exists s, s ∈ sp_sigs sp /\ self_signed stack k id (Some (sp_packet sp)) s).
    { intros l Hl Hin. destruct (checked_list_verified dbctx stack k id l Hc (ko_packet _ Hk) Hl) as [H _].
      destruct (H sp Hin) as (sp0 & _ & [Hp _ (s & Hs & Hself)]). exists s. by rewrite Hp. }
    cbn [pk_uids pk_subkeys] in Hsp. destruct Hsp as [Hsp|Hsp]; [|by apply (Hl _ (ko_subkeys _ Hk))].
    destruct Hr as [-> | [_ ->]]; [by apply (Hl _ (ko_uids _ Hk)) | by apply not_elem_of_nil in Hsp].
Qed.

(** * A cleaned key *)

Record cleaned (policies : Z) (k : openpgp_publickey) : Prop := {
  cl_ok : key_ok k;
  cl_limits : uids_limits policies (pk_uids k);
  cl_subkeys : distinct_sps (pk_subkeys k);
  cl_signers : key_signers k;
  cl_uid_sigs : sig_limit OPENPGP_PACKET_UID (max_sigs_per_uid config) (pk_uids k);
  cl_uat_sigs : sig_limit OPENPGP_PACKET_UAT (max_sigs_per_uat config) (pk_uids k);
  cl_verified : policy policies ONAK_CLEAN_VERIFY_SIGNATURES = true -> key_verified k
}.

Lemma clean_key_ok policies k count :
  check_possible dbctx stack (policy policies ONAK_CLEAN_VERIFY_SIGNATURES) -> key_ok k ->
  exists k' n, clean_key dbctx stack config policies k count = Done (k', n) /\
    cleaned policies k' /\ pk_publickey k' = pk_publickey k.
Proof.
  intros Hc Hk. unfold clean_key.
  destruct (large_step policies k count Hk) as (k1 & n1 & -> & S1 & L1). cbn [mbind outcome_bind].
  pose proof (shrinks_ok _ _ S1 Hk) as K1.
  destruct (dedup_uids_step policies k1 n1 K1 L1) as (k2 & n2 & -> & K2 & P2 & D2 & L2). cbn [mbind outcome_bind].
  destruct (dedup_subkeys_step k2 n2 K2) as (k3 & n3 & -> & K3 & P3 & U3 & D3). cbn [mbind outcome_bind].
  rewrite <- U3 in D2, L2.
  destruct (cap_step (policy policies ONAK_CLEAN_CAP_UIDS) k3 OPENPGP_PACKET_UID MAX_UIDS_PER_KEY n3)
    as (k4 & n4 & E4 & S4 & A4); [done | done |].
  change (fun k => cap_packet_type k OPENPGP_PACKET_UID MAX_UIDS_PER_KEY MAX_UIDS_PER_KEY) with cap_uids_per_key in E4.
  rewrite E4. cbn [mbind outcome_bind]. pose proof (shrinks_ok _ _ S4 K3) as K4.
  destruct (cap_step (policy policies ONAK_CLEAN_CAP_UATS) k4 OPENPGP_PACKET_UAT MAX_UATS_PER_KEY n4)
    as (k5 & n5 & E5 & S5 & A5); [done | done |].
  change (fun k => cap_packet_type k OPENPGP_PACKET_UAT MAX_UATS_PER_KEY MAX_UATS_PER_KEY) with cap_uats_per_key in E5.
  rewrite E5. cbn [mbind outcome_bind]. pose proof (shrinks_ok _ _ S5 K4) as K5.
  assert (U5 : uids_limits policies (pk_uids k5)).
  { pose proof (sh_uids _ _ S4) as R4. pose proof (sh_uids _ _ S5) as R5.
    split; [eapply shrunk_distinct, shrunk_distinct; eauto | eapply shrunk_small, shrunk_small; eauto | | auto].
    intros H. eapply shrunk_at_most; eauto. }
  assert (D5 : distinct_sps (pk_subkeys k5))
    by (eapply shrunk_distinct; [apply S5|]; eapply shrunk_distinct; [apply S4 | done]).
  destruct (dedupe_step k5 n5 K5) as (k6 & n6 & -> & S6 & G6). cbn [mbind outcome_bind].
  destruct (cap_sigs_step OPENPGP_PACKET_UID (max_sigs_per_uid config) k6 n6) as (k7 & n7 & -> & S7 & M7).
  cbn [mbind outcome_bind].
  destruct (cap_sigs_step OPENPGP_PACKET_UAT (max_sigs_per_uat config) k7 n7) as (k8 & n8 & -> & S8 & M8).
  cbn [mbind outcome_bind]. pose proof (shrinks_ok _ _ S8 (shrinks_ok _ _ S7 (shrinks_ok _ _ S6 K5))) as K8.
  destruct (check_step policies k8 n8 Hc K8) as (k9 & n9 & -> & S9 & V9).
  exists k9, n9. split; [done|]. split.
  - split; [by eapply shrinks_ok | | | | | | done].
    + do 4 (eapply shrunk_limits; [eapply sh_uids; eassumption|]). done.
    + do 4 (eapply shrunk_distinct; [eapply sh_subkeys; eassumption|]). done.
    + do 3 (eapply shrinks_signers; [eassumption|]). done.
    + intros H. do 2 (eapply shrunk_sig_limit; [eapply sh_uids; eassumption|]). by apply M7.
    + intros H. eapply shrunk_sig_limit; [eapply sh_uids; eassumption|]. by apply M8.
  - rewrite (sh_pub _ _ S9), (sh_pub _ _ S8), (sh_pub _ _ S7), (sh_pub _ _ S6), (sh_pub _ _ S5), (sh_pub _ _ S4).
    rewrite P3, P2. apply S1.
Qed.

(** A key that may be given to the pass: one of an old version, of which only
    the first octet is looked at, or one the steps can read. *)
Definition key_input (k : openpgp_publickey) : Prop :=
  exists v, (pkt_data (pk_publickey k)).[0] = Done v /\ (v < 4 \/ key_ok k).

Lemma cleankeys_loop_ok policies ks : forall changed count,
  check_possible dbctx stack (policy policies ONAK_CLEAN_VERIFY_SIGNATURES) -> Forall key_input ks ->
  exists ks' n, cleankeys_loop dbctx stack config policies ks changed count = Done (ks', n) /\
    Forall (fun k => cleaned policies k /\ pk_uids k <> [] /\
      modern k) ks' /\
    map pk_publickey ks' `sublist_of` map pk_publickey ks.
Proof.
  induction ks as [|k ks IH]; intros changed count Hc Hks; cbn [cleankeys_loop].
  { exists [], changed. repeat split; constructor. }
  apply Forall_cons in Hks as [(v & Hv & Hk) Hks]. rewrite Hv. cbn [mbind outcome_bind].
  destruct (Z.ltb_spec v 4).
  { destruct (IH (i32 (changed + 1)) count Hc Hks) as (ks' & n & -> & H1 & H2).
    exists ks', n. split; [done|]. split; [done | by constructor]. }
  destruct Hk as [?|Hk]; [lia|].
  destruct (clean_key_ok policies k count Hc Hk) as (k' & c & -> & Hcl & Hpub). cbn [mbind outcome_bind].
  destruct (IH (if 0 <? c then i32 (changed + 1) else changed) c Hc Hks) as (ks' & n & -> & H1 & H2).
  cbn [mbind outcome_bind]. eexists _, _. split; [done|].
  destruct (pk_uids k') as [|u us] eqn:Eu; [split; [done | by constructor]|].
  split; [constructor; [|done] | cbn [map]; rewrite Hpub; by constructor].
  split; [done|]. split; [by rewrite Eu|]. exists v. rewrite Hpub. auto.
Qed.

End CleanKeys.

(** * Properties *)

(** C3: the cleaning pass terminates without a fault on every list of readable
    keys, for all policies and limits.  What comes out are keys of the input,
    in order, of version 4 or later and with at least one user id; on each, all
    user ids and all subkeys are distinct and no two signatures of one list are
    by the same signer; no user id is larger than its limit, there are at most
    64 of them and 8 user attributes (32 and 4 in each class, revoked or not),
    and none has more signatures than configured, where the policy asks for
    it; and under the verification policy each user id and each subkey carries
    a valid signature of the key. *)
Theorem cleankeys_correct {HF : Hashes} {BC : BuildConfig} {NT : Nettle} {D} {DB : KeyDb D}
    (dbctx : D) stack config policies ks :
  check_possible dbctx stack (policy policies ONAK_CLEAN_VERIFY_SIGNATURES) -> Forall key_input ks ->
  exists ks' n, cleankeys dbctx stack config (Some ks) policies = Done (Some ks', n) /\
    map pk_publickey ks' `sublist_of` map pk_publickey ks /\
    Forall (fun k => cleaned stack config policies k /\ pk_uids k <> [] /\
      modern k) ks'.
Proof.
  intros Hc Hks. unfold cleankeys.
  destruct (cleankeys_loop_ok dbctx stack config policies ks 0 0 Hc Hks) as (ks' & n & -> & H1 & H2).
  exists ks', n. auto.
Qed.

Lemma toy_key_ok : @key_ok toy_hashes full_build toy_key.
Proof.
  split.
  - exact toy_key_packet_ok.
  - exists toy_key_id. vm_compute. reflexivity.
  - eexists. vm_compute. reflexivity.
  - apply Forall_nil_2.
  - apply Forall_singleton, toy_uid_checkable.
  - apply Forall_nil_2.
  - apply Forall_nil_2.
  - vm_compute. reflexivity.
  - apply Forall_singleton. vm_compute. reflexivity.
  - apply Forall_nil_2.
Qed.

Lemma cleankeys_correct_witness :
  exists ks' n, @cleankeys toy_hashes full_build toy_nettle unit empty_db tt (replicate 64 7) (mkConfig 512 512)
      (Some [toy_key; toy_key]) 0xFF = Done (Some ks', n) /\
    map pk_publickey ks' `sublist_of` [toy_key_packet; toy_key_packet].
Proof.
  destruct (@cleankeys_correct toy_hashes full_build toy_nettle unit empty_db tt (replicate 64 7) (mkConfig 512 512)
    0xFF [toy_key; toy_key]) as (ks' & n & E & Hs & _).
  - intros _. split; [reflexivity|]. split; [intros id; apply Forall_nil_2 | reflexivity].
  - repeat constructor; exists 4; (split; [vm_compute; reflexivity | right; exact toy_key_ok]).
  - exists ks', n. split; [exact E | exact Hs].
Defined.

(** The counter of changes is not reset between keys: after a key that was
    changed, a key of version 4 or later is reported as cleaned too, even if
    nothing was done to it. *)
Theorem cleankeys_count_not_reset {HF : Hashes} {BC : BuildConfig} {NT : Nettle} {D} {DB : KeyDb D}
    (dbctx : D) stack config policies k1 k1' k2 c :
  modern k1 -> modern k2 ->
  clean_key dbctx stack config policies k1 0 = Done (k1', c) -> 0 < c ->
  clean_key dbctx stack config policies k2 c = Done (k2, c) ->
  exists ks, cleankeys dbctx stack config (Some [k1; k2]) policies = Done (ks, 2).
Proof.
  intros (v1 & H1 & V1) (v2 & H2 & V2) C1 Hc C2. unfold cleankeys. cbn [cleankeys_loop].
  rewrite H1. cbn [mbind outcome_bind]. rewrite (proj2 (Z.ltb_ge v1 4)) by done.
  rewrite C1. cbn [mbind outcome_bind]. rewrite H2. cbn [mbind outcome_bind]. rewrite (proj2 (Z.ltb_ge v2 4)) by done.
  rewrite C2. cbn [mbind outcome_bind]. rewrite (proj2 (Z.ltb_lt 0 c)) by done. eexists. reflexivity.
Qed.

Lemma cleankeys_count_not_reset_witness :
  let dup := mkKey toy_key_packet false [] [toy_uid; toy_uid] [] in
  exists ks, @cleankeys toy_hashes full_build toy_nettle unit empty_db tt [] (mkConfig 512 512)
    (Some [dup; toy_key]) 0 = Done (ks, 2).
Proof.
  intros dup.
  apply (@cleankeys_count_not_reset toy_hashes full_build toy_nettle unit empty_db tt [] (mkConfig 512 512) 0
    dup toy_key toy_key 1); try (exists 4; split); vm_compute; (reflexivity || discriminate).
Defined.

Definition unsigned_key (p u : openpgp_packet) : openpgp_publickey := mkKey p false [] [mkSigned u []] [].

(** Under the verification policy a version 4 key whose user id has no
    signature is removed from the list, and the pass reports that nothing was
    changed. *)
Theorem unsigned_key_removed_silently {HF : Hashes} {BC : BuildConfig} {NT : Nettle} {D} {DB : KeyDb D}
    (dbctx : D) stack config p u :
  wf_packet p -> (pkt_data p).[0] = Done 4 ->
  cleankeys dbctx stack config (Some [unsigned_key p u]) ONAK_CLEAN_VERIFY_SIGNATURES
    = Done (Some [], 0).
Proof.
  intros Hp H0. unfold unsigned_key. set (k := mkKey p false [] [mkSigned u []] []).
  assert (Hid : exists id, get_keyid k = Done (ONAK_E_OK, Some id)).
  { unfold get_keyid, get_packetid. cbn [pk_publickey k]. rewrite H0. cbn [mbind outcome_bind Z.eqb Pos.eqb orb].
    rewrite get_fingerprint_v4 by done. cbn [mbind outcome_bind]. unfold fingerprint2keyid. cbn [fp_length fp_bytes Z.eqb Pos.eqb].
    rewrite rd_be_8; [eauto | apply hash_bytes | lia | by rewrite hash_size]. }
  destruct Hid as [id Hid].
  assert (Hcap : forall tag max, cap_sigs_per_packet k tag max = (k, 0)).
  { intros tag max. unfold cap_sigs_per_packet. case_if; [done|]. cbn [k pk_uids cap_sigs_loop sp_packet sp_sigs].
    rewrite take_nil, drop_nil. by case_if. }
  assert (Hstep : forall flag tag max, clean_step flag (fun k => Done (cap_sigs_per_packet k tag max)) k 0 = Done (k, 0))
    by (intros; unfold clean_step; rewrite Hcap; by case_if).
  assert (Hchk : check_signatures dbctx stack ONAK_CLEAN_VERIFY_SIGNATURES k = Done (mkKey p false [] [] [], 0)).
  { unfold check_signatures, clean_key_signatures, clean_list_sighashes, clean_sighashes.
    change (policy ONAK_CLEAN_VERIFY_SIGNATURES ONAK_CLEAN_NEED_OTHER_SIG) with false.
    change (policy ONAK_CLEAN_VERIFY_SIGNATURES ONAK_CLEAN_VERIFY_SIGNATURES) with true.
    cbn [mbind outcome_bind]. rewrite Hid. cbn [mbind outcome_bind pk_sigs clean_sighashes_loop].
    assert (Hid' : forall r ss us ks, get_keyid (mkKey p r ss us ks) = Done (ONAK_E_OK, Some id)) by (intros; exact Hid).
    unfold k. unfold set_pk_sigs, set_pk_uids, set_pk_subkeys.
    cbn [clean_list_loop sp_sigs sp_packet pk_publickey pk_revoked pk_uids pk_subkeys pk_sigs clean_sighashes_loop mbind outcome_bind].
    unfold clean_sighashes. rewrite Hid'. reflexivity. }
  unfold cleankeys. cbn [cleankeys_loop pk_publickey k]. rewrite H0. cbn [mbind outcome_bind Z.ltb Z.compare Pos.compare Pos.compare_cont].
  fold k. unfold clean_key.
  change (policy ONAK_CLEAN_VERIFY_SIGNATURES ONAK_CLEAN_LARGE_PACKETS) with false.
  change (policy ONAK_CLEAN_VERIFY_SIGNATURES ONAK_CLEAN_CAP_UIDS) with false.
  change (policy ONAK_CLEAN_VERIFY_SIGNATURES ONAK_CLEAN_CAP_UATS) with false.
  change (policy ONAK_CLEAN_VERIFY_SIGNATURES (Z.lor ONAK_CLEAN_CHECK_SIGHASH ONAK_CLEAN_VERIFY_SIGNATURES)) with true.
  assert (Hf : forall step, clean_step false step k 0 = Done (k, 0)) by done.
  rewrite Hf. cbn [mbind outcome_bind].
  change (clean_step true dedupuids k 0) with (Done (k, 0)). cbn [mbind outcome_bind].
  change (clean_step true dedupsubkeys k 0) with (Done (k, 0)). cbn [mbind outcome_bind].
  rewrite Hf. cbn [mbind outcome_bind]. rewrite Hf. cbn [mbind outcome_bind].
  change (dedupe_key_sigs k 0) with (Done (k, 0)). cbn [mbind outcome_bind].
  rewrite Hstep. cbn [mbind outcome_bind]. rewrite Hstep. cbn [mbind outcome_bind].
  unfold clean_step. rewrite Hchk. reflexivity.
Qed.

Lemma unsigned_key_removed_silently_witness :
  @cleankeys toy_hashes full_build toy_nettle unit empty_db tt (replicate 64 7) (mkConfig 512 512)
    (Some [mkKey toy_key_packet false [] [mkSigned (mkPacket OPENPGP_PACKET_UID true 1 [97]) []] []])
    ONAK_CLEAN_VERIFY_SIGNATURES = Done (Some [], 0).
Proof.
  apply (@unsigned_key_removed_silently toy_hashes full_build toy_nettle unit empty_db tt); [apply toy_key_packet_ok|].
  vm_compute. reflexivity.
Defined.
