(* ===== verification/KeyUpdate.v ===== *)
(** The operations on top of a key database backend (keydb/keydb.c): updating
    the stored keys from incoming ones, and the lookups a backend can borrow.
    They are proved against the interface of DbCtx.v with the laws a backend
    promises ([KeyDbLaws]), which the Berkeley DB backend keeps (Db4Laws.v). *)

From S2P Require Import Prelude OpenPGP Streams KeyId Decode Keys Merge KeyBuffer KeyArray DbCtx.

(** * generic_update_keys *)

Section UpdateKeys.
Context {HF : Hashes} {BC : BuildConfig} {D : Type} {DB : KeyDb D}.

Definition no_difference (k : openpgp_publickey) : bool :=
  match pk_sigs k, pk_uids k, pk_subkeys k with
  | [], [], [] => true
  | _, _, _ => false
  end.

(** The loop: the database, what is left of the list, and the number of new
    keys.  [oldkey] is the list the variable holds between iterations. *)
Fixpoint update_loop (dbctx : D) (keys : list openpgp_publickey) (blacklist : option keyarray)
    (updateonly : bool) (oldkey : list openpgp_publickey) (newkeys : Z)
    : outcome (D * list openpgp_publickey * Z) :=
  match keys with
  | [] => Done (dbctx, [], newkeys)
  | curkey :: keys =>
      '(_, fp) ← get_fingerprint (pk_publickey curkey);
      listed ← match blacklist with None => Done false | Some a => array_find a fp end;
      if (listed : bool) then update_loop dbctx keys blacklist updateonly oldkey newkeys
      else
        let '(dbctx, intrans) := starttrans dbctx in
        let '(ret, found) := fetch_key_fp dbctx fp intrans in
        let oldkey := oldkey ++ found in
        if (ret =? 0) && updateonly then
          '(dbctx, keys, newkeys) ←
            update_loop (endtrans dbctx) keys blacklist updateonly oldkey newkeys;
          Done (dbctx, curkey :: keys, newkeys)
        else
          match oldkey with
          | old :: _ =>
              '(old, curkey, _) ← merge_keys old curkey;
              if no_difference curkey then
                update_loop (endtrans dbctx) keys blacklist updateonly [] newkeys
              else
                let dbctx := (store_key dbctx old intrans true).1 in
                '(dbctx, keys, newkeys) ←
                  update_loop (endtrans dbctx) keys blacklist updateonly [] newkeys;
                Done (dbctx, curkey :: keys, newkeys)
          | [] =>
              let dbctx := (store_key dbctx curkey intrans false).1 in
              '(dbctx, keys, newkeys) ←
                update_loop (endtrans dbctx) keys blacklist updateonly [] (i32 (newkeys + 1));
              Done (dbctx, curkey :: keys, newkeys)
          end
  end.

(** The database, the list of updates, the keys mailed to the peers if any,
    and the result. *)
Definition generic_update_keys (dbctx : D) (keys : list openpgp_publickey)
    (blacklist : option keyarray) (updateonly sendsync : bool)
    : outcome (D * list openpgp_publickey * option (list openpgp_publickey) * Z) :=
  '(dbctx, keys, newkeys) ← update_loop dbctx keys blacklist updateonly [] 0;
  Done (dbctx, keys, match keys with [] => None | _ => if sendsync then Some keys else None end, newkeys).

(** * Lookups *)

(** The key id in a fingerprint, for a backend that stores key ids only. *)
Definition generic_fetch_key_fp (dbctx : D) (fingerprint : openpgp_fingerprint) (intrans : bool)
    : outcome (Z * list openpgp_publickey) :=
  if MAX_FINGERPRINT_LEN <? fp_length fingerprint then Done (0, [])
  else
    keyid ← (if fp_length fingerprint =? 20
             then rd_be (fp_bytes fingerprint) (fp_length fingerprint - 8) 8 0
             else rd_be (fp_bytes fingerprint) 0 8 0);
    Done (fetch_key_id dbctx keyid intrans).

(** A key in the list that a lookup returns: a node that is still allocated,
    or a dangling pointer. *)
Inductive key_node : Type :=
  | Live (k : openpgp_publickey)
  | Freed.

(** The loop over what the backend returned: the position of the key that is
    linked to the result, and the key. *)
Fixpoint select_key (fingerprint : openpgp_fingerprint) (keys : list openpgp_publickey) (i : nat)
    : outcome (option (nat * openpgp_publickey)) :=
  match keys with
  | [] => Done None
  | curkey :: next =>
      '(rc, fp) ← get_fingerprint (pk_publickey curkey);
      if status_ok rc && (fingerprint_cmp fingerprint fp =? 0) then Done (Some (i, curkey))
      else select_key fingerprint next (S i)
  end.

(** The nodes [free_publickey(keys)] releases: those reached from the first
    one, where [next] of the selected one has been cut. *)
Definition released (keys : list openpgp_publickey) (selected : option nat) : list nat :=
  match selected with
  | Some i => seq 0 (S i)
  | None => seq 0 (length keys)
  end.

Definition generic_fetch_key (dbctx : D) (fingerprint : openpgp_fingerprint)
    (publickey : list key_node) (intrans : bool) : outcome (list key_node * Z) :=
  let '(_, keys) := fetch_key_fp dbctx fingerprint intrans in
  r ← select_key fingerprint keys 0;
  Done (match r with
        | Some (i, curkey) =>
            let node := if bool_decide (i ∈ released keys (Some i)) then Freed else Live curkey in
            (publickey ++ [node], 1)
        | None => (publickey, 0)
        end).

(** The first user id of the first key that does not start with a NUL. *)
Fixpoint first_uid (uids : list openpgp_signedpacket) : outcome (option (list Z)) :=
  match uids with
  | [] => Done None
  | u :: uids =>
      let p := sp_packet u in
      if pkt_tag p =? OPENPGP_PACKET_UID then
        s ← snprintf_s 1023 (i32 (pkt_length p)) (pkt_data p);
        match s with
        | [] => first_uid uids
        | _ => Done (Some s)
        end
      else first_uid uids
  end.

Definition generic_keyid2uid (dbctx : D) (keyid : Z) : outcome (option (list Z)) :=
  let '(ret, publickey) := fetch_key_id dbctx keyid false in
  match publickey with
  | k :: _ => if ret =? 0 then Done None else first_uid (pk_uids k)
  | [] => Done None
  end.

End UpdateKeys.

(** * What a backend promises *)

Definition fp_of {HF : Hashes} {BC : BuildConfig} (k : openpgp_publickey) : openpgp_fingerprint :=
  match get_fingerprint (pk_publickey k) with Done (_, fp) => fp | Fault _ => mkFingerprint 0 [] end.

(** The fingerprint is that of one of the subkeys. *)
Definition has_subkey {HF : Hashes} {BC : BuildConfig} (k : openpgp_publickey) (fp : openpgp_fingerprint) : Prop :=
  exists subs sub, keysubkeys k = Done subs /\ sub ∈ default [] subs /\ fp_bytes sub = fp_bytes fp.

(** What keydb.h says of a backend, and what the backends have in common.
    [lawful d t]: the database is in order, inside a transaction or not;
    [stored d fp]: the key whose primary key has the fingerprint; [accepts k]:
    the backend can write and read the key.  A lookup by fingerprint returns the
    number of the keys it finds: the one with the fingerprint, and maybe keys
    that have it as a subkey.  Storing, as an update or for the first time,
    replaces the key with the fingerprint, and what is read back is what the
    packets say ([reparsed]). *)
Class KeyDbLaws {HF : Hashes} {BC : BuildConfig} (D : Type) {DB : KeyDb D} : Type := {
  lawful : D -> bool -> Prop;
  stored : D -> openpgp_fingerprint -> option openpgp_publickey;
  accepts : openpgp_publickey -> Prop;
  law_starttrans d : lawful d false -> exists d', starttrans d = (d', true) /\ lawful d' true /\
    forall fp, stored d' fp = stored d fp;
  law_endtrans d : lawful d true -> lawful (endtrans d) false /\ forall fp, stored (endtrans d) fp = stored d fp;
  law_stored d t fp k : lawful d t -> stored d fp = Some k -> fp_of k = fp;
  law_fetch d t fp : lawful d t -> wf_fp fp -> fp_length fp = 20 \/ fp_length fp = 32 ->
    exists ks, fetch_key_fp d fp t = (zlen ks, ks) /\ NoDup ks /\
      (forall k, stored d fp = Some k -> k ∈ ks) /\
      (forall k, k ∈ ks -> stored d fp = Some k \/ has_subkey k fp /\ exists fp', stored d fp' = Some k);
  law_store d t k u : lawful d t -> accepts k -> u = true \/ stored d (fp_of k) = None ->
    lawful (store_key d k t u).1 t /\
    forall fp, stored (store_key d k t u).1 fp = if bool_decide (fp = fp_of k) then Some (reparsed k) else stored d fp
}.

(** An association list, newest entry first. *)
Definition assoc_db {HF : Hashes} {BC : BuildConfig} : Type := list (openpgp_fingerprint * openpgp_publickey).

Definition assoc_lookup {HF : Hashes} {BC : BuildConfig} (d : assoc_db) (fp : openpgp_fingerprint)
    : option openpgp_publickey :=
  snd <$> List.find (fun e => bool_decide (fp = e.1)) d.

Definition found {A} (o : option A) : Z * list A :=
  match o with Some k => (1, [k]) | None => (0, []) end.

#[global] Instance assoc_keydb {HF : Hashes} {BC : BuildConfig} : KeyDb assoc_db := {|
  starttrans := fun d => (d, true);
  endtrans := fun d => d;
  fetch_key := fun d fp _ => found (assoc_lookup d fp);
  fetch_key_id := fun d id _ =>
    let ks := List.filter (fun k => bool_decide (get_keyid k = Done (ONAK_E_OK, Some id))) (map snd d) in
    (zlen ks, ks);
  fetch_key_fp := fun d fp _ => found (assoc_lookup d fp);
  store_key := fun d k _ _ => ((fp_of k, k) :: d, 0)
|}.

(** * The meaning of an update *)

Section UpdateSpec.
Context {HF : Hashes} {BC : BuildConfig} {D : Type} {DB : KeyDb D} {DL : KeyDbLaws D}.

Definition merged_key (a b : openpgp_publickey) : openpgp_publickey :=
  mkKey (pk_publickey a) (pk_revoked a || pk_revoked b) (pk_sigs a ++ diff_key_sigs (pk_sigs a) (pk_sigs b))
    (merged_list (pk_uids a) (pk_uids b)) (merged_list (pk_subkeys a) (pk_subkeys b)).

Definition key_difference (a b : openpgp_publickey) : openpgp_publickey :=
  mkKey (pk_publickey b) (pk_revoked a || pk_revoked b) (diff_key_sigs (pk_sigs a) (pk_sigs b))
    (diff_list (pk_uids a) (pk_uids b)) (diff_list (pk_subkeys a) (pk_subkeys b)).

(** What is stored under the fingerprint of [k] after [k] came in, and what of
    [k] stays on the list of updates. *)
Definition after_update (updateonly : bool) (old : option openpgp_publickey) (k : openpgp_publickey)
    : option openpgp_publickey :=
  match old with
  | None => if updateonly then None else Some (reparsed k)
  | Some a => Some (if no_difference (key_difference a k) then a else reparsed (merged_key a k))
  end.

(** The key that is handed to the backend on the way. *)
Definition written (updateonly : bool) (old : option openpgp_publickey) (k : openpgp_publickey)
    : option openpgp_publickey :=
  match old with
  | None => if updateonly then None else Some k
  | Some a => if no_difference (key_difference a k) then None else Some (merged_key a k)
  end.

Definition update_of (old : option openpgp_publickey) (k : openpgp_publickey) : option openpgp_publickey :=
  match old with
  | None => Some k
  | Some a => if no_difference (key_difference a k) then None else Some (key_difference a k)
  end.

(** Version 4, or 5 where it is supported, without duplicates, and with
    certifications that decode. *)
Definition updatable (k : openpgp_publickey) : Prop :=
  mergeable k /\ wf_packet (pk_publickey k) /\
  ((pkt_data (pk_publickey k)).[0] = Done 4 \/
   (pkt_data (pk_publickey k)).[0] = Done 5 /\ have_nettle = true).

Lemma updatable_fp k :
  updatable k -> get_fingerprint (pk_publickey k) = Done (ONAK_E_OK, fp_of k) /\ wf_fp (fp_of k) /\
  Forall byte (fp_bytes (fp_of k)) /\ (fp_length (fp_of k) = 20 \/ fp_length (fp_of k) = 32).
Proof.
  intros (_ & Hw & [H0|[H0 Hn]]); unfold fp_of;
    [rewrite get_fingerprint_v4 by done | rewrite get_fingerprint_v5 by done];
    (split; [done|]; split; [apply hash_size|]; split; [apply hash_bytes | cbn; auto]).
Qed.

(** The key id is a function of the fingerprint. *)
Lemma updatable_keyid k : updatable k -> exists id, get_keyid k = Done (ONAK_E_OK, Some id) /\
  fingerprint2keyid (fp_of k) = Done id.
Proof.
  intros Hk. destruct (updatable_fp k Hk) as (Hf & Hw & Hb & Hl). unfold wf_fp in Hw.
  assert (Hid : exists id, fingerprint2keyid (fp_of k) = Done id).
  { unfold fingerprint2keyid. destruct Hl as [Hl|Hl]; rewrite Hl; cbn [Z.eqb Pos.eqb]; rewrite rd_be_8 by (done || lia); eauto. }
  destruct Hid as [id Hid]. exists id. split; [|done]. unfold get_keyid, get_packetid.
  destruct Hk as (_ & _ & [H0|[H0 _]]); rewrite H0; cbn [mbind outcome_bind Z.eqb Pos.eqb orb];
    rewrite Hf; cbn [mbind outcome_bind]; by rewrite Hid.
Qed.

Lemma merge_same_fp a k :
  updatable a -> updatable k -> fp_of a = fp_of k ->
  merge_keys a k = Done (merged_key a k, key_difference a k, 0).
Proof.
  intros Ha Hk Hfp. destruct (updatable_keyid a Ha) as (id & Ia & Fa). destruct (updatable_keyid k Hk) as (id' & Ik & Fk).
  rewrite Hfp, Fk in Fa. injection Fa as ->. apply (merge_keys_good a k id); [apply Ha | apply Hk | done | done].
Qed.

Definition blacklisted (blacklist : option keyarray) (k : openpgp_publickey) : bool :=
  match blacklist with None => false | Some a => bool_decide (fp_of k ∈ elements a) end.

(** The keys of an update that are looked at. *)
Definition accepted (blacklist : option keyarray) (keys : list openpgp_publickey) : list openpgp_publickey :=
  List.filter (fun k => negb (blacklisted blacklist k)) keys.

Definition key_for (fp : openpgp_fingerprint) (keys : list openpgp_publickey) : option openpgp_publickey :=
  List.find (fun k => bool_decide (fp_of k = fp)) keys.

(** The stored keys the incoming ones meet. *)
Definition stored_ok (d : D) (ks : list openpgp_publickey) : Prop :=
  forall k a, k ∈ ks -> stored d (fp_of k) = Some a -> updatable a.

(** The keys that are stored on the way can be. *)
Definition writable (uo : bool) (d : D) (ks : list openpgp_publickey) : Prop :=
  forall k x, k ∈ ks -> written uo (stored d (fp_of k)) k = Some x -> accepts x.

(** No incoming key is a subkey of a key that is stored, or will be. *)
Definition no_clash (uo : bool) (d : D) (ks : list openpgp_publickey) : Prop :=
  forall k, k ∈ ks ->
    (forall fp a, stored d fp = Some a -> ~ has_subkey a (fp_of k)) /\
    (forall k' x, k' ∈ ks -> written uo (stored d (fp_of k')) k' = Some x -> ~ has_subkey x (fp_of k)).

Record update_result (d : D) (ks : list openpgp_publickey) (bl : option keyarray) (uo : bool)
    (d' : D) (upd : list openpgp_publickey) (new : Z) : Prop := {
  ur_list : upd = omap (fun k => update_of (stored d (fp_of k)) k) (accepted bl ks);
  ur_new : new = if uo then 0
    else zlen (List.filter (fun k => bool_decide (stored d (fp_of k) = None)) (accepted bl ks));
  ur_stored : forall fp, stored d' fp =
    match key_for fp (accepted bl ks) with
    | Some k => after_update uo (stored d fp) k
    | None => stored d fp
    end
}.

(** One key in front of the others. *)
Lemma update_result_cons d d1 k ks bl uo d' upd new u :
  blacklisted bl k = false -> fp_of k ∉ map fp_of ks ->
  (forall fp, stored d1 fp = if bool_decide (fp = fp_of k) then after_update uo (stored d fp) k else stored d fp) ->
  update_of (stored d (fp_of k)) k = u ->
  update_result d1 ks bl uo d' upd new ->
  update_result d (k :: ks) bl uo d' (match u with Some x => x :: upd | None => upd end)
    ((if uo then 0 else match stored d (fp_of k) with Some _ => 0 | None => 1 end) + new).
Proof.
  intros Hb Hnin Hd1 Hu [H1 H2 H3].
  assert (Hother : forall x, x ∈ ks -> stored d1 (fp_of x) = stored d (fp_of x)).
  { intros x Hx. rewrite Hd1, bool_decide_eq_false_2; [done|]. intros E. apply Hnin. rewrite <- E.
    apply list_elem_of_fmap. eauto. }
  assert (Hin : forall x, x ∈ accepted bl ks -> x ∈ ks) by (intros x [? _]%list_elem_of_In%List.filter_In; by apply list_elem_of_In).
  assert (Ea : accepted bl (k :: ks) = k :: accepted bl ks) by (unfold accepted; cbn; by rewrite Hb).
  split; rewrite ?Ea.
  - cbn [omap list_omap]. rewrite Hu, H1.
    assert (Eo : omap (fun k => update_of (stored d1 (fp_of k)) k) (accepted bl ks) =
                 omap (fun k => update_of (stored d (fp_of k)) k) (accepted bl ks)).
    { revert Hin. generalize (accepted bl ks) as l. induction l as [|x l IH]; intros Hin; [done|].
      cbn [omap list_omap]. rewrite Hother by (apply Hin; by left). rewrite IH by (intros; apply Hin; by right). done. }
    rewrite Eo. by destruct u.
  - rewrite H2. destruct uo; [done|]. cbn [List.filter].
    assert (Ef : List.filter (fun k => bool_decide (stored d1 (fp_of k) = None)) (accepted bl ks) =
                 List.filter (fun k => bool_decide (stored d (fp_of k) = None)) (accepted bl ks)).
    { apply List.filter_ext_in. intros x Hx%list_elem_of_In. by rewrite Hother by auto. }
    rewrite Ef. case_bool_decide as Es; destruct (stored d (fp_of k)); try done; rewrite ?zlen_cons; lia.
  - intros fp. rewrite H3, Hd1. unfold key_for. cbn [List.find].
    destruct (decide (fp_of k = fp)) as [<-|Hne].
    + rewrite !bool_decide_eq_true_2 by done.
      destruct (List.find _ (accepted bl ks)) as [x|] eqn:E; [|done]. exfalso.
      apply List.find_some in E as [Hx%list_elem_of_In Ex]. case_bool_decide as Hxe; [|done].
      apply Hnin. rewrite <- Hxe. apply list_elem_of_fmap. eauto.
    + rewrite !bool_decide_eq_false_2 by congruence. done.
Qed.

Lemma update_result_skip d k ks bl uo d' upd new :
  blacklisted bl k = true -> update_result d ks bl uo d' upd new -> update_result d (k :: ks) bl uo d' upd new.
Proof.
  intros Hb [H1 H2 H3]. assert (Ea : accepted bl (k :: ks) = accepted bl ks) by (unfold accepted; cbn; by rewrite Hb).
  split; by rewrite Ea.
Qed.

Lemma other_fp k ks x : fp_of k ∉ map fp_of ks -> x ∈ ks -> fp_of x <> fp_of k.
Proof. intros Hnin Hx E. apply Hnin. rewrite <- E. apply list_elem_of_fmap. eauto. Qed.

Lemma stored_ok_tail d d1 k ks :
  fp_of k ∉ map fp_of ks -> (forall fp, fp <> fp_of k -> stored d1 fp = stored d fp) ->
  stored_ok d (k :: ks) -> stored_ok d1 ks.
Proof.
  intros Hnin Hd1 Hok x a Hx Hs. apply (Hok x a); [by right|]. rewrite <- Hd1; [done|]. by apply (other_fp k ks).
Qed.

Lemma writable_tail uo d d1 k ks :
  fp_of k ∉ map fp_of ks -> (forall fp, fp <> fp_of k -> stored d1 fp = stored d fp) ->
  writable uo d (k :: ks) -> writable uo d1 ks.
Proof.
  intros Hnin Hd1 Hw x y Hx. rewrite Hd1 by (by apply (other_fp k ks)). apply Hw. by right.
Qed.

Lemma has_subkey_reparsed k fp : has_subkey (reparsed k) fp <-> has_subkey k fp.
Proof. by destruct k. Qed.

(** What is stored under a fingerprint was there, or was written. *)
Lemma after_update_cases uo old k x :
  after_update uo old k = Some x -> old = Some x \/ exists y, written uo old k = Some y /\ x = reparsed y.
Proof.
  unfold after_update, written. destruct old as [a|].
  - destruct (no_difference _); intros [= <-]; [by left | right; eauto].
  - destruct uo; [done|]. intros [= <-]. right. eauto.
Qed.

Lemma no_clash_tail uo d d1 k ks :
  fp_of k ∉ map fp_of ks ->
  (forall fp, stored d1 fp = if bool_decide (fp = fp_of k) then after_update uo (stored d fp) k else stored d fp) ->
  no_clash uo d (k :: ks) -> no_clash uo d1 ks.
Proof.
  intros Hnin Hd1 Hn x Hx. destruct (Hn x) as [H1 H2]; [by right|]. split.
  - intros fp a. rewrite Hd1. case_bool_decide as E; [|apply H1]. subst fp.
    intros [Ha | (y & Hy & ->)]%after_update_cases; [by apply (H1 (fp_of k))|]. rewrite has_subkey_reparsed.
    apply (H2 k); [by left | done].
  - intros k' y Hk'. rewrite Hd1, bool_decide_eq_false_2 by (by apply (other_fp k ks)). apply H2. by right.
Qed.

(** A lookup when no subkey is in the way. *)
Lemma fetch_primary d t fp :
  lawful d t -> wf_fp fp -> fp_length fp = 20 \/ fp_length fp = 32 ->
  (forall fp' a, stored d fp' = Some a -> ~ has_subkey a fp) ->
  fetch_key_fp d fp t = match stored d fp with Some k => (1, [k]) | None => (0, []) end.
Proof.
  intros Hd Hw Hl Hn. destruct (law_fetch d t fp Hd Hw Hl) as (ks & -> & Hnd & H1 & H2).
  assert (H2' : forall k, k ∈ ks -> stored d fp = Some k).
  { intros k Hk. destruct (H2 k Hk) as [|[Hs [fp' Hf]]]; [done|]. by destruct (Hn fp' k Hf). }
  destruct (stored d fp) as [k|].
  - destruct ks as [|x [|y ks]].
    + specialize (H1 k eq_refl). by apply not_elem_of_nil in H1.
    + pose proof (H2' x ltac:(by left)) as [= ->]. done.
    + pose proof (H2' x ltac:(by left)) as [= ->]. pose proof (H2' y ltac:(right; by left)) as [= ->].
      apply NoDup_cons in Hnd as [Hnd _]. destruct Hnd. by left.
  - destruct ks as [|x ks]; [done|]. discriminate (H2' x ltac:(by left)).
Qed.

Lemma blacklisted_find bl k :
  (forall a, bl = Some a -> wf_array a) -> updatable k ->
  match bl with None => Done false | Some a => array_find a (fp_of k) end = Done (blacklisted bl k).
Proof.
  intros Hbl Hk. destruct bl as [a|]; [|done]. apply array_find_spec; [by apply Hbl | apply updatable_fp, Hk].
Qed.

Lemma update_loop_ok bl uo ks : forall d n,
  (forall a, bl = Some a -> wf_array a) -> Forall updatable ks -> NoDup (map fp_of ks) -> lawful d false ->
  stored_ok d ks -> writable uo d ks -> no_clash uo d ks -> 0 <= n -> n + zlen ks < 2 ^ 31 ->
  exists d' upd m, update_loop d ks bl uo [] n = Done (d', upd, n + m) /\ lawful d' false /\
    update_result d ks bl uo d' upd m.
Proof.
  induction ks as [|k ks IH]; intros d n Hbl Hks Hnd Hd Hok Hwr Hcl Hn Hlt; cbn [update_loop].
  { exists d, [], 0. rewrite Z.add_0_r. split; [done|]. split; [done|]. split; [done | by destruct uo | done]. }
  apply Forall_cons in Hks as [Hk Hks]. cbn [map] in Hnd. apply NoDup_cons in Hnd as [Hnin Hnd].
  rewrite zlen_cons in Hlt. pose proof (zlen_nonneg ks).
  destruct (updatable_fp k Hk) as (Hf & Hwf & _ & Hfl). rewrite Hf. cbn [mbind outcome_bind].
  rewrite blacklisted_find by done. cbn [mbind outcome_bind]. destruct (blacklisted bl k) eqn:Eb.
  { destruct (IH d n) as (d' & upd & m & -> & Hl & Hr); [done | done | done | done | | | | done | lia |].
    - eapply stored_ok_tail; [exact Hnin | done | exact Hok].
    - eapply writable_tail; [exact Hnin | done | exact Hwr].
    - intros x Hx. destruct (Hcl x) as [H1 H2]; [by right|]. split; [done|]. intros k' y Hk'. apply H2. by right.
    - exists d', upd, m. split; [done|]. split; [done|]. by apply update_result_skip. }
  destruct (law_starttrans d Hd) as (d0 & -> & Hl0 & Hd0).
  rewrite fetch_primary; [|done | done | done |].
  2: { intros fp' a. rewrite Hd0. apply (Hcl k). by left. }
  rewrite Hd0. cbn [app].
  assert (Hstep : forall d1 u n1, lawful d1 false ->
    (forall fp, stored d1 fp = if bool_decide (fp = fp_of k) then after_update uo (stored d fp) k else stored d fp) ->
    update_of (stored d (fp_of k)) k = u ->
    n1 = n + (if uo then 0 else match stored d (fp_of k) with Some _ => 0 | None => 1 end) ->
    exists d' upd m, update_loop d1 ks bl uo [] n1 = Done (d', upd, n + m) /\ lawful d' false /\
      update_result d (k :: ks) bl uo d' (match u with Some x => x :: upd | None => upd end) m).
  { intros d1 u n1 Hl1 Hd1 Hu ->.
    assert (Hne : forall fp, fp <> fp_of k -> stored d1 fp = stored d fp)
      by (intros fp Hne; by rewrite Hd1, bool_decide_eq_false_2).
    destruct (IH d1 (n + (if uo then 0 else match stored d (fp_of k) with Some _ => 0 | None => 1 end)))
      as (d' & upd & m & -> & Hl & Hr); [done | done | done | done | | | | destruct uo, (stored d (fp_of k)); lia | destruct uo, (stored d (fp_of k)); lia |].
    - by eapply stored_ok_tail.
    - by eapply writable_tail.
    - by eapply no_clash_tail.
    - eexists d', upd, _. split; [by rewrite <- Z.add_assoc|]. split; [done|]. eapply update_result_cons; eauto. }
  destruct (law_endtrans d0 Hl0) as [Hle Hse].
  assert (Hwk : forall x, written uo (stored d (fp_of k)) k = Some x -> accepts x) by (intros x; apply Hwr; by left).
  unfold written in Hwk. destruct (stored d (fp_of k)) as [a|] eqn:Es.
  - cbn [Z.eqb andb]. pose proof (Hok k a ltac:(by left) Es) as Ha. pose proof (law_stored d false _ a Hd Es) as Hfp.
    rewrite merge_same_fp by done. cbn [mbind outcome_bind]. destruct (no_difference (key_difference a k)) eqn:Ed.
    + destruct (Hstep (endtrans d0) None n) as (d' & upd & m & E & Hl & Hr); [done | | | |].
      * intros fp. rewrite Hse, Hd0. case_bool_decide as Hfe; [|done]. subst fp. rewrite Es. cbn. by rewrite Ed.
      * unfold update_of. by rewrite Ed.
      * destruct uo; lia.
      * exists d', upd, m. auto.
    + assert (Efp : fp_of (merged_key a k) = fp_of k) by (rewrite <- Hfp; done).
      destruct (law_store d0 true (merged_key a k) true Hl0 (Hwk _ eq_refl)) as [Hls Hss]; [by left|].
      destruct (law_endtrans _ Hls) as [Hle' Hse'].
      destruct (Hstep (endtrans (store_key d0 (merged_key a k) true true).1) (Some (key_difference a k)) n) as (d' & upd & m & E & Hl & Hr); [done | | | |].
      * intros fp. rewrite Hse', Hss, Hd0, Efp. case_bool_decide as Hfe; [|done]. subst fp. rewrite Es. cbn. by rewrite Ed.
      * unfold update_of. by rewrite Ed.
      * destruct uo; lia.
      * rewrite E. cbn [mbind outcome_bind]. eexists d', _, m. split; [done|]. split; [done | exact Hr].
  - destruct uo; cbn [Z.eqb andb].
    + destruct (Hstep (endtrans d0) (Some k) n) as (d' & upd & m & E & Hl & Hr); [done | |done | lia |].
      * intros fp. rewrite Hse, Hd0. case_bool_decide as Hfe; [|done]. subst fp. by rewrite Es.
      * rewrite E. cbn [mbind outcome_bind]. eexists d', _, m. split; [done|]. split; [done | exact Hr].
    + rewrite i32_small by lia.
      destruct (law_store d0 true k false Hl0 (Hwk _ eq_refl)) as [Hls Hss]; [right; by rewrite Hd0|].
      destruct (law_endtrans _ Hls) as [Hle' Hse'].
      destruct (Hstep (endtrans (store_key d0 k true false).1) (Some k) (n + 1)) as (d' & upd & m & E & Hl & Hr); [done | |done | lia |].
      * intros fp. rewrite Hse', Hss, Hd0. case_bool_decide as Hfe; [|done]. subst fp. by rewrite Es.
      * rewrite E. cbn [mbind outcome_bind]. eexists d', _, m. split; [done|]. split; [done | exact Hr].
Qed.

(** A key that comes back from a lookup is the one that was asked for. *)
Lemma select_key_ok fp ks : forall i, wf_fp fp -> Forall updatable ks ->
  select_key fp ks i = Done (
    (fun p : nat * openpgp_publickey => (i + p.1, p.2)%nat) <$> list_find (fun k => fp_of k = fp) ks).
Proof.
  induction ks as [|k ks IH]; intros i Hw Hks; [done|]. cbn [select_key list_find].
  apply Forall_cons in Hks as [Hk Hks]. destruct (updatable_fp k Hk) as (Hf & Hwk & _).
  rewrite Hf. cbn [mbind outcome_bind status_ok andb].
  destruct (decide (fp_of k = fp)) as [E|E].
  - rewrite (proj2 (fingerprint_cmp_eq fp (fp_of k) Hw Hwk)) by done. cbn. by rewrite Nat.add_0_r.
  - destruct (Z.eqb_spec (fingerprint_cmp fp (fp_of k)) 0) as [H0|_].
    { apply fingerprint_cmp_eq in H0; [by subst | done | done]. }
    rewrite IH by done. destruct (list_find _ ks) as [[j x]|]; [|done]. cbn. by rewrite Nat.add_succ_r.
Qed.

End UpdateSpec.

(** * Properties *)

(** C5: updating a database from a list of keys with distinct fingerprints, for
    every backend that keeps the laws (that of the Berkeley DB does), ignores the
    blacklisted keys; stores the others under their fingerprints, merged with the
    key that was there and only if they add something; leaves every other stored
    key alone; turns the list into the differences, keys that add nothing being
    removed; and returns how many keys are new.  In update-only mode no new key
    is stored, but it stays on the list.  No incoming key may be a subkey of a key
    that is stored or comes in: the lookup may find that one instead. *)
Theorem update_keys_correct {HF : Hashes} {BC : BuildConfig} {D} {DB : KeyDb D} {DL : KeyDbLaws D}
    (d : D) ks bl updateonly sendsync :
  (forall a, bl = Some a -> wf_array a) -> Forall updatable ks -> NoDup (map fp_of ks) -> zlen ks < 2 ^ 31 ->
  lawful d false -> stored_ok d ks -> writable updateonly d ks -> no_clash updateonly d ks ->
  exists d' upd new, generic_update_keys d ks bl updateonly sendsync =
      Done (d', upd, match upd with [] => None | _ => if sendsync then Some upd else None end, new) /\
    lawful d' false /\ update_result d ks bl updateonly d' upd new.
Proof.
  intros Hbl Hks Hnd Hlt Hd Hok Hwr Hcl. unfold generic_update_keys.
  destruct (update_loop_ok bl updateonly ks d 0) as (d' & upd & m & -> & Hl & Hr); [done | done | done | done | done | done | done | lia | lia |].
  cbn [mbind outcome_bind]. by exists d', upd, m.
Qed.

Lemma merge_a_updatable : @updatable full_build merge_a.
Proof.
  split; [apply merge_a_mergeable|]. split; [apply (bool_decide_unpack _); vm_compute; exact I|]. left. reflexivity.
Qed.

Lemma merge_b_updatable : @updatable full_build merge_b.
Proof.
  split; [apply merge_b_mergeable|]. split; [apply (bool_decide_unpack _); vm_compute; exact I|]. left. reflexivity.
Qed.

(** When the lookup by fingerprint returns another key than the incoming
    one (the interface allows a key that has the fingerprint as a subkey), the
    merge is refused and its result ignored: the other key is stored again,
    marked as revoked if the incoming one is, and the incoming key, which stays
    on the list as an update, is not stored and not counted. *)
Theorem update_keys_other_key {HF : Hashes} {BC : BuildConfig} {D} {DB : KeyDb D}
    (d d0 : D) t k a rest n ida idk updateonly sendsync :
  updatable k -> no_difference k = false ->
  starttrans d = (d0, t) -> fetch_key_fp d0 (fp_of k) t = (n, a :: rest) -> n <> 0 ->
  get_keyid a = Done (ONAK_E_OK, Some ida) -> get_keyid k = Done (ONAK_E_OK, Some idk) -> ida <> idk ->
  let rv := pk_revoked a || pk_revoked k in
  let upd := [set_pk_revoked k rv] in
  generic_update_keys d [k] None updateonly sendsync =
    Done (endtrans (store_key d0 (set_pk_revoked a rv) t true).1, upd, (if sendsync then Some upd else None), 0).
Proof.
  intros Hk Hnd Ht Hf Hn Ia Ik Hne rv upd. unfold generic_update_keys. cbn [update_loop].
  destruct (updatable_fp k Hk) as (Ef & _). rewrite Ef. cbn [mbind outcome_bind]. rewrite Ht, Hf.
  rewrite (proj2 (Z.eqb_neq n 0) Hn). cbn [andb app].
  rewrite (merge_keys_refused a k ida idk) by done. cbn [mbind outcome_bind].
  assert (no_difference (set_pk_revoked k (pk_revoked a || pk_revoked k)) = false) as ->
    by (rewrite <- Hnd; by destruct k).
  done.
Qed.

(** A store that finds keys by their subkeys too. *)
Definition subkey_find {HF : Hashes} {BC : BuildConfig} (d : list openpgp_publickey) (fp : openpgp_fingerprint) : list openpgp_publickey :=
  List.filter (fun k => existsb (fun p => bool_decide (get_fingerprint p = Done (ONAK_E_OK, fp)))
                          (pk_publickey k :: map sp_packet (pk_subkeys k))) d.

Definition subkey_db {HF : Hashes} {BC : BuildConfig} : KeyDb (list openpgp_publickey) := {|
  starttrans := fun d => (d, true);
  endtrans := fun d => d;
  fetch_key := fun d fp _ => (zlen (subkey_find d fp), subkey_find d fp);
  fetch_key_id := fun d id _ => (0, []);
  fetch_key_fp := fun d fp _ => (zlen (subkey_find d fp), subkey_find d fp);
  store_key := fun d k _ _ => (k :: List.filter (fun x => bool_decide (fp_of x <> fp_of k)) d, 0)
|}.

Definition other_primary : openpgp_publickey :=
  mkKey (mkPacket OPENPGP_PACKET_PUBLICKEY true 6 [4; 0; 0; 0; 1; 2]) false [] [] [mkSigned key_packet []].

Lemma update_keys_other_key_witness :
  @generic_update_keys toy_hashes full_build _ (@subkey_db toy_hashes full_build) [other_primary] [merge_b] None false false =
    Done ([set_pk_revoked other_primary true], [merge_b], None, 0).
Proof.
  apply (@update_keys_other_key toy_hashes full_build _ (@subkey_db toy_hashes full_build) [other_primary] [other_primary] true
    merge_b other_primary [] 1
    (be_value (drop 12 (toy_digest OPENPGP_HASH_SHA1 [0x99; 0; 6; 4; 0; 0; 0; 1; 2])))
    (be_value (drop 12 (toy_digest OPENPGP_HASH_SHA1 [0x99; 0; 6; 4; 0; 0; 0; 1; 1]))) false false);
    first [exact merge_b_updatable | vm_compute; congruence].
Defined.

(** The generic lookup of a key by the fingerprint of its primary key finds
    one exactly when the backend returned one that has it; but the node it
    then appends to the caller's list has been freed, with everything before
    it, by the time it returns. *)
Theorem generic_fetch_key_frees_result {HF : Hashes} {BC : BuildConfig} {D} {DB : KeyDb D}
    (d : D) fp publickey intrans :
  wf_fp fp -> Forall updatable (fetch_key_fp d fp intrans).2 ->
  generic_fetch_key d fp publickey intrans = Done (
    if bool_decide (fp ∈ map fp_of (fetch_key_fp d fp intrans).2)
    then (publickey ++ [Freed], 1) else (publickey, 0)).
Proof.
  intros Hw Hks. unfold generic_fetch_key. destruct (fetch_key_fp d fp intrans) as [n ks]. cbn [snd] in *.
  rewrite select_key_ok by done. cbn [mbind outcome_bind]. f_equal.
  destruct (list_find _ ks) as [[i x]|] eqn:E; cbn [fmap option_fmap option_map fst snd].
  - apply list_find_Some in E as (Hi & Hx & _). rewrite !bool_decide_eq_true_2; [done | |].
    + rewrite <- Hx. apply list_elem_of_fmap. exists x. split; [done|]. by eapply list_elem_of_lookup_2.
    + apply elem_of_seq. lia.
  - apply list_find_None in E. rewrite bool_decide_eq_false_2; [done|].
    intros (x & -> & Hx)%list_elem_of_fmap. rewrite Forall_forall in E. by apply (E x).
Qed.

Lemma generic_fetch_key_frees_result_witness :
  let fp := @fp_of toy_hashes full_build merge_a in
  @generic_fetch_key toy_hashes full_build _ (@assoc_keydb toy_hashes full_build) [(fp, merge_a)] fp [] false = Done ([Freed], 1).
Proof.
  intros fp. rewrite (@generic_fetch_key_frees_result toy_hashes full_build _ (@assoc_keydb toy_hashes full_build) [(fp, merge_a)] fp [] false).
  - vm_compute. reflexivity.
  - vm_compute. reflexivity.
  - apply Forall_singleton. exact merge_a_updatable.
Defined.

(** A backend that only knows key ids finds a version 4 or 5 key by its
    fingerprint: the generic lookup asks for exactly the key id that the key
    itself has. *)
Theorem fetch_key_fp_by_keyid {HF : Hashes} {BC : BuildConfig} {D} {DB : KeyDb D} (d : D) k intrans :
  updatable k ->
  exists id, get_keyid k = Done (ONAK_E_OK, Some id) /\
    generic_fetch_key_fp d (fp_of k) intrans = Done (fetch_key_id d id intrans).
Proof.
  intros Hk. destruct (updatable_keyid k Hk) as (id & Hid & Hfp). exists id. split; [done|].
  destruct (updatable_fp k Hk) as (_ & _ & _ & Hl). unfold generic_fetch_key_fp.
  unfold fingerprint2keyid in Hfp. destruct Hl as [Hl|Hl]; rewrite Hl in *;
    cbn [Z.eqb Pos.eqb] in Hfp; change (MAX_FINGERPRINT_LEN <? _) with false;
    cbn [Z.eqb Pos.eqb]; change (20 - 8) with 12; rewrite Hfp; done.
Qed.

Lemma fetch_key_fp_by_keyid_witness :
  let fp := @fp_of toy_hashes full_build merge_a in
  exists id, @get_keyid toy_hashes full_build merge_a = Done (ONAK_E_OK, Some id) /\
    generic_fetch_key_fp (DB := @assoc_keydb toy_hashes full_build) [(fp, merge_a)] fp false =
      Done (fetch_key_id (KeyDb := @assoc_keydb toy_hashes full_build) [(fp, merge_a)] id false).
Proof.
  intros fp. apply (@fetch_key_fp_by_keyid toy_hashes full_build _ (@assoc_keydb toy_hashes full_build) [(fp, merge_a)] merge_a false).
  exact merge_a_updatable.
Defined.
