(* ===== verification/Stats.v ===== *)
(** The graph of signatures between keys: the generic lists of ll.c, the hash
    table of hash.c that owns the nodes, the two functions of keydb/keydb.c that
    fill it from the database, and the searches of stats.c.

    A [struct stats_key *] is an address: the position of the node in
    [st_heap], the nodes in the order they were allocated.  Nodes are shared
    between the table, the lists of other nodes and the work lists of a search,
    which all hold addresses.  [malloc] succeeds. *)

From S2P Require Import Prelude OpenPGP Streams KeyId Decode DbCtx.

(** * Lists (ll.c) *)

(** A list is the list of its objects; a pointer to a node is the list from
    there on. *)
Definition lladd {A} (curll : list A) (object : A) : list A := object :: curll.

Definition lladdend {A} (curll : list A) (object : A) : list A := curll ++ [object].

(** [objectcmp] answers 0 for a match. *)
Fixpoint llfind {A} (curll : list A) (objectcmp : A -> outcome Z) : outcome (list A) :=
  match curll with
  | [] => Done []
  | object :: next =>
      c ← objectcmp object;
      if c =? 0 then Done curll else llfind next objectcmp
  end.

Fixpoint lldel {A} (curll : list A) (objectcmp : A -> outcome Z) : outcome (list A) :=
  match curll with
  | [] => Done []
  | object :: next =>
      c ← objectcmp object;
      if c =? 0 then Done next
      else rest ← lldel next objectcmp; Done (object :: rest)
  end.

Definition llsize {A} (curll : list A) : Z := u64 (zlen curll).

(** * The nodes and the table (stats.h, hash.c) *)

Record stats_key : Type := mkStats {
  sk_keyid : Z;
  sk_colour : Z;
  sk_parent : Z;
  sk_sigs : list nat;
  sk_signs : list nat;
  sk_gotsigs : bool;
  sk_disabled : bool;
  sk_revoked : bool
}.

(** The node [malloc] and [memset] make. *)
Definition new_stats_key (keyid : Z) : stats_key := mkStats keyid 0 0 [] [] false false false.

Definition set_mark (k : stats_key) (colour parent : Z) : stats_key :=
  mkStats (sk_keyid k) colour parent (sk_sigs k) (sk_signs k) (sk_gotsigs k) (sk_disabled k) (sk_revoked k).

Definition set_loaded (k : stats_key) (sigs : list nat) (revoked : bool) : stats_key :=
  mkStats (sk_keyid k) (sk_colour k) (sk_parent k) sigs (sk_signs k) (sk_gotsigs k) (sk_disabled k) revoked.

Definition set_gotsigs (k : stats_key) : stats_key :=
  mkStats (sk_keyid k) (sk_colour k) (sk_parent k) (sk_sigs k) (sk_signs k) true (sk_disabled k) (sk_revoked k).

Definition set_signs (k : stats_key) (signs : list nat) : stats_key :=
  mkStats (sk_keyid k) (sk_colour k) (sk_parent k) (sk_sigs k) signs (sk_gotsigs k) (sk_disabled k) (sk_revoked k).

Definition set_disabled (k : stats_key) : stats_key :=
  mkStats (sk_keyid k) (sk_colour k) (sk_parent k) (sk_sigs k) (sk_signs k) (sk_gotsigs k) true (sk_revoked k).

Definition HASHSIZE : Z := 1024.
Definition HASHMASK : Z := 0x3FF.

Record stats_state : Type := mkState {
  st_heap : list stats_key;
  st_hashtable : list (list nat);
  st_elements : Z
}.

(** Reading and writing through a pointer. *)
Definition node (st : stats_state) (a : nat) : outcome stats_key :=
  match st_heap st !! a with Some k => Done k | None => Fault OutOfBounds end.

Definition modify (st : stats_state) (a : nat) (f : stats_key -> stats_key) : outcome stats_state :=
  k ← node st a;
  Done (mkState (<[a := f k]> (st_heap st)) (st_hashtable st) (st_elements st)).

Definition inithash (st : stats_state) : stats_state :=
  mkState (st_heap st) (replicate (Z.to_nat HASHSIZE) []) 0.

(** Every node is in the table, so that all of them are freed. *)
Definition destroyhash (st : stats_state) : stats_state :=
  mkState [] (replicate (Z.to_nat HASHSIZE) []) 0.

Definition gethashtableentry (st : stats_state) (entry : nat) : outcome (list nat) :=
  match st_hashtable st !! entry with Some l => Done l | None => Fault OutOfBounds end.

Definition slot (keyid : Z) : nat := Z.to_nat (Z.land keyid HASHMASK).

Definition addtohash (st : stats_state) (key : nat) : outcome stats_state :=
  k ← node st key;
  l ← gethashtableentry st (slot (sk_keyid k));
  Done (mkState (st_heap st) (<[slot (sk_keyid k) := lladd l key]> (st_hashtable st))
    (u64 (st_elements st + 1))).

(** The answer of [stats_key_cmp]; the objects in the table are not NULL. *)
Definition stats_key_cmp (st : stats_state) (keyid : Z) (key : nat) : outcome Z :=
  k ← node st key;
  Done (if sk_keyid k =? keyid then 0 else 1).

Definition findinhash (st : stats_state) (keyid : Z) : outcome (option nat) :=
  l ← gethashtableentry st (slot keyid);
  found ← llfind l (stats_key_cmp st keyid);
  Done (head found).

Definition createandaddtohash (st : stats_state) (keyid : Z) : outcome (stats_state * nat) :=
  found ← findinhash st keyid;
  match found with
  | Some a => Done (st, a)
  | None =>
      let a := length (st_heap st) in
      st ← addtohash (mkState (st_heap st ++ [new_stats_key keyid]) (st_hashtable st) (st_elements st)) a;
      Done (st, a)
  end.

Definition hashelements (st : stats_state) : Z := st_elements st.

(** * Filling the graph (keydb.c) *)

Section Graph.
Context {D : Type} {DB : KeyDb D}.

(** The loop over the signatures of one user id. *)
Fixpoint add_sigs (st : stats_state) (cursig : list openpgp_packet) (sigs : list nat)
    : outcome (stats_state * list nat) :=
  match cursig with
  | [] => Done (st, sigs)
  | p :: next =>
      id ← sig_keyid p;
      '(st, a) ← createandaddtohash st id;
      add_sigs st next (lladd sigs a)
  end.

Fixpoint add_uid_sigs (st : stats_state) (uids : list openpgp_signedpacket) (sigs : list nat)
    : outcome (stats_state * list nat) :=
  match uids with
  | [] => Done (st, sigs)
  | u :: next =>
      '(st, sigs) ← add_sigs st (sp_sigs u) sigs;
      add_uid_sigs st next sigs
  end.

(** The signatures, and [*revoked] afterwards. *)
Definition generic_getkeysigs (dbctx : D) (st : stats_state) (keyid : Z) (revoked : bool)
    : outcome (stats_state * list nat * bool) :=
  match (fetch_key_id dbctx keyid false).2 with
  | [] => Done (st, [], revoked)
  | publickey :: _ =>
      '(st, sigs) ← add_uid_sigs st (pk_uids publickey) [];
      Done (st, sigs, pk_revoked publickey)
  end.

(** The loop that enters [key] with its signers. *)
Fixpoint add_signs (st : stats_state) (key : nat) (cursig : list nat) : outcome stats_state :=
  match cursig with
  | [] => Done st
  | signedkey :: next =>
      st ← modify st signedkey (fun k => set_signs k (lladd (sk_signs k) key));
      add_signs st key next
  end.

Definition generic_cached_getkeysigs (dbctx : D) (st : stats_state) (keyid : Z)
    : outcome (stats_state * list nat) :=
  if keyid =? 0 then Done (st, [])
  else
    key ← findinhash st keyid;
    gotsigs ← match key with None => Done false | Some a => k ← node st a; Done (sk_gotsigs k) end;
    '(st, key, missing) ←
      (if (gotsigs : bool) then Done (st, key, false)
       else
         '(st, sigs, revoked) ← generic_getkeysigs dbctx st keyid false;
         match sigs with
         | [] => Done (st, key, true)
         | _ =>
             '(st, a) ← match key with
                         | None => createandaddtohash st keyid
                         | Some a => Done (st, a)
                         end;
             st ← modify st a (fun k => set_loaded k sigs revoked);
             st ← add_signs st a sigs;
             st ← modify st a set_gotsigs;
             Done (st, Some a, false)
         end);
    if (missing : bool) then Done (st, [])
    else
      match key with
      | None => Fault NullDeref
      | Some a => k ← node st a; Done (st, sk_sigs k)
      end.

(** * Searching (stats.c) *)

Fixpoint init_list (st : stats_state) (curkey : list nat) (parent : bool) : outcome stats_state :=
  match curkey with
  | [] => Done st
  | a :: next =>
      st ← modify st a (fun k => set_mark k 0 (if parent then 0 else sk_parent k));
      init_list st next parent
  end.

(** The slots from [loop] on, [n] of them. *)
Fixpoint init_slots (st : stats_state) (loop n : nat) (parent : bool) : outcome stats_state :=
  match n with
  | O => Done st
  | S n =>
      curkey ← gethashtableentry st loop;
      st ← init_list st curkey parent;
      init_slots st (S loop) n parent
  end.

Definition initcolour (st : stats_state) (parent : bool) : outcome stats_state :=
  init_slots st 0 (Z.to_nat HASHSIZE) parent.

(** [cleanup] is the answer of cleanup(), which a signal can make true; it does
    not change during a search here. *)
Variable cleanup : bool.

(** The loop over the signatures of the node [key]: [nextkeys] and [count]
    grow. *)
Fixpoint findpath_sigs (st : stats_state) (have key : nat) (sigs nextkeys : list nat)
    (curdegree count : Z) : outcome (stats_state * list nat * Z) :=
  match sigs with
  | [] => Done (st, nextkeys, count)
  | s :: next =>
      if cleanup then Done (st, nextkeys, count)
      else
        h ← node st have;
        if negb (sk_colour h =? 0) then Done (st, nextkeys, count)
        else
          k ← node st s;
          if negb (sk_disabled k) && negb (sk_revoked k) && (sk_colour k =? 0) then
            p ← node st key;
            st ← modify st s (fun k => set_mark k (i32 curdegree) (sk_keyid p));
            findpath_sigs st have key next (lladd nextkeys s) curdegree (u64 (count + 1))
          else findpath_sigs st have key next nextkeys curdegree count
  end.

Fixpoint findpath_loop (fuel : nat) (dbctx : D) (st : stats_state) (have : nat)
    (keys nextkeys : list nat) (curdegree count : Z) : outcome (stats_state * Z) :=
  if cleanup then Done (st, count)
  else
    match keys with
    | [] => Done (st, count)
    | key :: rest =>
        h ← node st have;
        if negb (sk_colour h =? 0) then Done (st, count)
        else
          match fuel with
          | O => Fault OutOfFuel
          | S fuel =>
              k ← node st key;
              '(st, sigs) ← generic_cached_getkeysigs dbctx st (sk_keyid k);
              '(st, nextkeys, count) ← findpath_sigs st have key sigs nextkeys curdegree count;
              match rest with
              | [] => findpath_loop fuel dbctx st have nextkeys [] (curdegree + 1) count
              | _ => findpath_loop fuel dbctx st have rest nextkeys curdegree count
              end
          end
    end.

Definition findpath (fuel : nat) (dbctx : D) (st : stats_state) (have want : nat)
    : outcome (stats_state * Z) :=
  findpath_loop fuel dbctx st have (lladd [] want) [] 1 0.

(** The walk along the parents: the nodes of the path that is printed. *)
Fixpoint follow_parents (fuel : nat) (st : stats_state) (curkey : option nat) : outcome (list nat) :=
  match curkey with
  | None => Done []
  | Some a =>
      k ← node st a;
      if sk_keyid k =? 0 then Done []
      else
        match fuel with
        | O => Fault OutOfFuel
        | S fuel =>
            next ← findinhash st (sk_parent k);
            rest ← follow_parents fuel st next;
            Done (a :: rest)
        end
  end.

(** The same walk, disabling the nodes between the two ends. *)
Fixpoint disable_path (st : stats_state) (keyinfoa keyinfob : nat) (path : list nat)
    : outcome stats_state :=
  match path with
  | [] => Done st
  | a :: path =>
      st ← (if (a =? keyinfoa)%nat || (a =? keyinfob)%nat then Done st else modify st a set_disabled);
      disable_path st keyinfoa keyinfob path
  end.

(** The outer loop; every path is the list of its key ids. *)
Fixpoint dofindpath_loop (n fuel : nat) (dbctx : D) (st : stats_state) (keyinfoa keyinfob : nat)
    : outcome (stats_state * list (list Z)) :=
  match n with
  | O => Done (st, [])
  | S n =>
      if cleanup then Done (st, [])
      else
        st ← initcolour st true;
        '(st, _) ← findpath fuel dbctx st keyinfoa keyinfob;
        st ← modify st keyinfob (fun k => set_mark k (sk_colour k) 0);
        a ← node st keyinfoa;
        if sk_colour a =? 0 then Done (st, [])
        else
          nodes ← follow_parents fuel st (Some keyinfoa);
          st ← disable_path st keyinfoa keyinfob nodes;
          path ← mapM (fun a => k ← node st a; Done (sk_keyid k)) nodes;
          if sk_colour a =? 1 then Done (st, [path])
          else
            '(st, paths) ← dofindpath_loop n fuel dbctx st keyinfoa keyinfob;
            Done (st, path :: paths)
  end.

(** What is printed: nothing if one of the keys is not known, or up to [count]
    paths. *)
Definition dofindpath (fuel : nat) (dbctx : D) (st : stats_state) (have want count : Z)
    : outcome (stats_state * list (list Z)) :=
  '(st, _) ← generic_cached_getkeysigs dbctx st have;
  '(st, _) ← generic_cached_getkeysigs dbctx st want;
  keyinfoa ← findinhash st have;
  match keyinfoa with
  | None => Done (st, [])
  | Some keyinfoa =>
      keyinfob ← findinhash st want;
      match keyinfob with
      | None => Done (st, [])
      | Some keyinfob => dofindpath_loop (Z.to_nat count) fuel dbctx st keyinfoa keyinfob
      end
  end.

(** The loop over the signatures of [key] in [furthestkey]. *)
Fixpoint furthest_sigs (st : stats_state) (key : nat) (sigs nextll : list nat) (curdegree : Z)
    (max : nat) : outcome (stats_state * list nat * nat) :=
  match sigs with
  | [] => Done (st, nextll, max)
  | s :: next =>
      k ← node st s;
      if sk_colour k =? 0 then
        p ← node st key;
        st ← modify st s (fun k => set_mark k (i32 curdegree) (sk_keyid p));
        furthest_sigs st key next (lladd nextll s) curdegree s
      else furthest_sigs st key next nextll curdegree max
  end.

Fixpoint furthest_loop (fuel : nat) (dbctx : D) (st : stats_state) (curll nextll : list nat)
    (curdegree : Z) (max : nat) : outcome (stats_state * nat) :=
  match curll with
  | [] => Done (st, max)
  | key :: rest =>
      match fuel with
      | O => Fault OutOfFuel
      | S fuel =>
          k ← node st key;
          '(st, sigs) ← generic_cached_getkeysigs dbctx st (sk_keyid k);
          '(st, nextll, max) ← furthest_sigs st key sigs nextll curdegree max;
          match rest with
          | [] => furthest_loop fuel dbctx st nextll [] (u64 (curdegree + 1)) max
          | _ => furthest_loop fuel dbctx st rest nextll curdegree max
          end
      end
  end.

Definition furthestkey (fuel : nat) (dbctx : D) (st : stats_state) (have : option nat)
    : outcome (stats_state * option nat) :=
  match have with
  | None => Done (st, None)
  | Some have =>
      '(st, max) ← furthest_loop fuel dbctx st (lladd [] have) [] 1 have;
      Done (st, Some max)
  end.

End Graph.
