(* ===== verification/StatsFacts.v ===== *)
(** Correctness of the signature graph (Stats.v): the table implements a map
    from key ids to nodes, loading a key enters its signers, and the search
    finds shortest paths. *)

From S2P Require Import Prelude OpenPGP Streams KeyId Decode DbCtx Stats.

(** * The table as a map *)

(** The address [a] is that of the node of the key id [x]. *)
Definition at_ (st : stats_state) (a : nat) (x : Z) : Prop :=
  exists k, st_heap st !! a = Some k /\ sk_keyid k = x.

Definition ids (st : stats_state) : list Z := sk_keyid <$> st_heap st.

(** The node of a key id; a node that does not exist is like a new one. *)
Definition key_of (st : stats_state) (x : Z) : stats_key :=
  default (new_stats_key x) (List.find (fun k => sk_keyid k =? x) (st_heap st)).

(** One node per key id, and every node in the slot of its key id. *)
Record wf_state (st : stats_state) : Prop := {
  ws_ids : NoDup (ids st);
  ws_size : length (st_hashtable st) = Z.to_nat HASHSIZE;
  ws_entry : forall a x, at_ st a x -> exists l, st_hashtable st !! slot x = Some l /\ a ∈ l;
  ws_slot : forall i l a, st_hashtable st !! i = Some l -> a ∈ l -> exists x, at_ st a x /\ slot x = i
}.

(** Nodes stay where they are, and loaded ones stay loaded. *)
Definition evolves (st st' : stats_state) : Prop :=
  wf_state st' /\ (forall a x, at_ st a x -> at_ st' a x) /\
  forall x, sk_gotsigs (key_of st x) = true -> sk_gotsigs (key_of st' x) = true.

Lemma evolves_refl st : wf_state st -> evolves st st.
Proof. by split. Qed.

Lemma evolves_trans st1 st2 st3 : evolves st1 st2 -> evolves st2 st3 -> evolves st1 st3.
Proof. intros (_ & H1 & H1') (W & H2 & H2'). split; auto. Qed.

Lemma evolves_list st st' l xs : evolves st st' -> Forall2 (at_ st) l xs -> Forall2 (at_ st') l xs.
Proof. intros (_ & H & _) Hl. eapply Forall2_impl; [exact Hl | auto]. Qed.

Lemma slot_lt x : (slot x < Z.to_nat HASHSIZE)%nat.
Proof.
  unfold slot, HASHMASK, HASHSIZE. change 0x3FF with (Z.ones 10). rewrite Z.land_ones by lia.
  pose proof (Z.mod_pos_bound x (2 ^ 10)). lia.
Qed.

Lemma slot_entry st x : wf_state st -> exists l, st_hashtable st !! slot x = Some l.
Proof. intros W. apply lookup_lt_is_Some. rewrite (ws_size st W). apply slot_lt. Qed.

Lemma find_unique (l : list stats_key) a k :
  NoDup (map sk_keyid l) -> l !! a = Some k -> List.find (fun y => sk_keyid y =? sk_keyid k) l = Some k.
Proof.
  revert a. induction l as [|y l IH]; intros a Hn Ha; [done|]. cbn [map] in Hn. apply NoDup_cons in Hn as [Hy Hn].
  cbn [List.find]. destruct a as [|a]; cbn in Ha; [injection Ha as ->; by rewrite Z.eqb_refl|].
  destruct (Z.eqb_spec (sk_keyid y) (sk_keyid k)) as [E|]; [|by eapply IH].
  exfalso. apply Hy. rewrite E. apply list_elem_of_fmap. exists k. split; [done | by eapply list_elem_of_lookup_2].
Qed.

Lemma at_node st a x : wf_state st -> at_ st a x -> node st a = Done (key_of st x).
Proof.
  intros W (k & Hk & <-). unfold node, key_of. rewrite Hk. by rewrite (find_unique _ a) by (done || apply W).
Qed.

Lemma at_ids st a x : at_ st a x -> x ∈ ids st.
Proof. intros (k & Hk & <-). apply list_elem_of_fmap. exists k. split; [done | by eapply list_elem_of_lookup_2]. Qed.

Lemma key_of_id st x : sk_keyid (key_of st x) = x.
Proof.
  unfold key_of. destruct (List.find _ _) as [k|] eqn:E; [|done]. apply List.find_some in E as [_ E]. cbn. lia.
Qed.

Lemma key_of_new st x : x ∉ ids st -> key_of st x = new_stats_key x.
Proof.
  intros Hx. unfold key_of. destruct (List.find _ _) as [k|] eqn:E; [|done]. exfalso.
  apply List.find_some in E as [Hin E]. apply Hx. apply list_elem_of_fmap. exists k. split; [lia | by apply list_elem_of_In].
Qed.

Lemma at_unique st a b x : wf_state st -> at_ st a x -> at_ st b x -> a = b.
Proof.
  intros W (k & Hk & Ex) (k' & Hk' & Ex'). eapply NoDup_lookup; [apply (ws_ids st W) | |].
  - unfold ids. rewrite list_lookup_fmap, Hk. cbn. by rewrite Ex.
  - unfold ids. rewrite list_lookup_fmap, Hk'. cbn. by rewrite Ex'.
Qed.

Lemma llfind_slot st x l :
  wf_state st -> (forall a, a ∈ l -> exists y, at_ st a y) ->
  exists r, llfind l (stats_key_cmp st x) = Done r /\
    match head r with
    | Some a => at_ st a x
    | None => forall a, a ∈ l -> ~ at_ st a x
    end.
Proof.
  intros W. induction l as [|a l IH]; intros Hl; cbn [llfind].
  { exists []. split; [done|]. intros a []%not_elem_of_nil. }
  destruct (Hl a) as (y & Hy); [by left|]. 
  assert (stats_key_cmp st x a = Done (if y =? x then 0 else 1)) as ->
    by (unfold stats_key_cmp; rewrite (at_node st a y) by done; cbn [mbind outcome_bind]; by rewrite key_of_id).
  cbn [mbind outcome_bind]. destruct (Z.eqb_spec y x) as [->|Hne]; cbn [Z.eqb]; [by eexists|].
  destruct IH as (r & -> & Hr); [intros b Hb; apply Hl; by right|]. exists r. split; [done|].
  destruct (head r); [done|]. intros b [->|Hb]%elem_of_cons; [|by apply Hr].
  intros (k & Hk & <-). destruct Hy as (k' & Hk' & <-). congruence.
Qed.

Lemma findinhash_spec st x :
  wf_state st -> exists r, findinhash st x = Done r /\
    match r with Some a => at_ st a x | None => x ∉ ids st end.
Proof.
  intros W. destruct (slot_entry st x W) as [l Hl]. unfold findinhash, gethashtableentry. rewrite Hl. cbn [mbind outcome_bind].
  destruct (llfind_slot st x l W) as (r & -> & Hr).
  { intros a Ha. destruct (ws_slot st W _ _ _ Hl Ha) as (y & ? & _). eauto. }
  cbn [mbind outcome_bind]. exists (head r). split; [done|]. destruct (head r); [done|].
  intros (k & -> & Hk)%list_elem_of_fmap. apply list_elem_of_lookup in Hk as [a Ha].
  assert (Hat : at_ st a (sk_keyid k)) by (by exists k).
  destruct (ws_entry st W _ _ Hat) as (l' & Hl' & Hin). rewrite Hl in Hl'. injection Hl' as <-. by apply (Hr a).
Qed.

Lemma at_lookup st a x : at_ st a x <-> ids st !! a = Some x.
Proof.
  unfold at_, ids. rewrite list_lookup_fmap, fmap_Some. naive_solver.
Qed.

Lemma key_of_lookup st a k : NoDup (ids st) -> st_heap st !! a = Some k -> key_of st (sk_keyid k) = k.
Proof. intros Hn Hk. unfold key_of. by rewrite (find_unique _ a). Qed.

Lemma key_of_cases st x : x ∉ ids st \/ exists a, st_heap st !! a = Some (key_of st x) /\ at_ st a x.
Proof.
  destruct (decide (x ∈ ids st)) as [Hin|]; [right | by left]. unfold key_of.
  apply list_elem_of_fmap in Hin as (k & -> & Hk).
  destruct (List.find _ _) as [k'|] eqn:E.
  - apply List.find_some in E as [Hk'%list_elem_of_In E]. apply list_elem_of_lookup in Hk' as [a Ha].
    exists a. split; [done|]. exists k'. split; [done | lia].
  - apply list_elem_of_In in Hk. apply (List.find_none _ _ E) in Hk. by rewrite Z.eqb_refl in Hk.
Qed.

Lemma modify_spec st a x f :
  wf_state st -> at_ st a x ->
  (forall k, sk_keyid (f k) = sk_keyid k /\ (sk_gotsigs k = true -> sk_gotsigs (f k) = true)) ->
  exists st', modify st a f = Done st' /\ evolves st st' /\ ids st' = ids st /\
    forall y, key_of st' y = if y =? x then f (key_of st x) else key_of st y.
Proof.
  intros W Ha Hf'. assert (Hf : forall k, sk_keyid (f k) = sk_keyid k) by apply Hf'. unfold modify. rewrite (at_node st a x) by done. cbn [mbind outcome_bind].
  set (st' := mkState _ _ _). exists st'. split; [done|].
  assert (Hheap : st_heap st !! a = Some (key_of st x)).
  { destruct Ha as (k & Hk & <-). by rewrite Hk, (key_of_lookup st a k) by (done || apply W). }
  assert (Hids : ids st' = ids st).
  { unfold ids, st'. cbn [st_heap]. rewrite list_fmap_insert, Hf. apply list_insert_id. by rewrite list_lookup_fmap, Hheap. }
  assert (Hat : forall b y, at_ st' b y <-> at_ st b y) by (intros b y; by rewrite !at_lookup, Hids).
  assert (W' : wf_state st').
  { destruct W as [W1 W2 W3 W4]. split; [by rewrite Hids | done | |].
    - intros b y Hb%Hat. apply (W3 b y Hb).
    - intros i l b Hl Hb. destruct (W4 i l b Hl Hb) as (y & Hy & <-). exists y. split; [by apply Hat | done]. }
  assert (Hk' : forall y, key_of st' y = if y =? x then f (key_of st x) else key_of st y); cycle 1.
  { split; [|by split]. split; [done|]. split; [intros b y; apply Hat|]. intros y Hy. rewrite Hk'.
    destruct (Z.eqb_spec y x) as [->|]; [by apply Hf' | done]. }
  intros y. destruct (Z.eqb_spec y x) as [->|Hne].
  - assert (Hk : st_heap st' !! a = Some (f (key_of st x))).
    { unfold st'. cbn [st_heap]. apply list_lookup_insert_eq. by eapply lookup_lt_Some. }
    rewrite <- (key_of_lookup st' a _ (ws_ids _ W') Hk). by rewrite Hf, key_of_id.
  - destruct (key_of_cases st y) as [Hy | (b & Hb & Hby)].
    { rewrite !key_of_new by (by rewrite ?Hids). done. }
    assert (Hk : st_heap st' !! b = Some (key_of st y)).
    { unfold st'. cbn [st_heap]. rewrite list_lookup_insert_ne; [done|]. intros <-.
      apply Hne. destruct Hby as (k1 & H1 & <-), Ha as (k2 & H2 & <-). congruence. }
    rewrite <- (key_of_lookup st' b _ (ws_ids _ W') Hk) at 1. by rewrite key_of_id.
Qed.

Lemma createandaddtohash_spec st x :
  wf_state st -> exists st' a, createandaddtohash st x = Done (st', a) /\ evolves st st' /\ at_ st' a x /\
    forall y, key_of st' y = key_of st y.
Proof.
  intros W. unfold createandaddtohash. destruct (findinhash_spec st x W) as (r & -> & Hr). cbn [mbind outcome_bind].
  destruct r as [a|]; [by exists st, a; split_and!; try apply evolves_refl|].
  set (a := length (st_heap st)). set (k := new_stats_key x). unfold addtohash, node. cbn [st_heap].
  rewrite lookup_app_r, Nat.sub_diag by done. cbn [lookup list_lookup mbind outcome_bind sk_keyid k new_stats_key].
  destruct (slot_entry st x W) as [l Hl]. unfold gethashtableentry. cbn [st_hashtable]. rewrite Hl. cbn [mbind outcome_bind].
  set (st' := mkState _ _ _). exists st', a. split; [done|].
  assert (Hids : ids st' = ids st ++ [x]) by (unfold ids, st'; cbn [st_heap]; by rewrite fmap_app).
  assert (Hsub : forall b y, at_ st b y -> at_ st' b y).
  { intros b y. rewrite !at_lookup, Hids. apply lookup_app_l_Some. }
  assert (Ha : at_ st' a x).
  { apply at_lookup. rewrite Hids, lookup_app_r; unfold ids, a; rewrite length_fmap; [by rewrite Nat.sub_diag | done]. }
  assert (W' : wf_state st').
  { destruct W as [W1 W2 W3 W4]. split.
    - rewrite Hids. apply NoDup_app. split; [done|]. split; [|apply NoDup_singleton].
      intros y Hy ->%list_elem_of_singleton. done.
    - unfold st'. cbn [st_hashtable]. by rewrite length_insert.
    - intros b y Hb. unfold st'. cbn [st_hashtable].
      assert (Hcase : at_ st b y \/ (b = a /\ y = x)).
      { revert Hb. rewrite at_lookup, Hids, lookup_app_Some. intros [Hb|[Hge Hb]]; [left; by apply at_lookup|].
        right. apply list_lookup_singleton_Some in Hb as [Hb <-]. split; [|done].
        unfold ids, a in *. rewrite length_fmap in *. lia. }
      destruct (decide (slot y = slot x)) as [E|E].
      + rewrite E, list_lookup_insert_eq by (by eapply lookup_lt_Some). eexists. split; [done|].
        destruct Hcase as [Hold | [-> ->]]; [|by left].
        destruct (W3 b y Hold) as (l' & Hl' & Hin). rewrite E, Hl in Hl'. injection Hl' as <-. by right.
      + rewrite list_lookup_insert_ne by congruence. destruct Hcase as [Hold | [-> ->]]; [by apply W3 | done].
    - intros i l' b Hl' Hb. unfold st' in Hl'. cbn [st_hashtable] in Hl'.
      destruct (decide (i = slot x)) as [->|Hne].
      + rewrite list_lookup_insert_eq in Hl' by (by eapply lookup_lt_Some). injection Hl' as <-.
        apply elem_of_cons in Hb as [->|Hb]; [by exists x|]. destruct (W4 _ _ _ Hl Hb) as (y & ? & ?). eauto.
      + rewrite list_lookup_insert_ne in Hl' by congruence. destruct (W4 _ _ _ Hl' Hb) as (y & ? & ?). eauto. }
  assert (Hk' : forall y, key_of st' y = key_of st y); cycle 1.
  { split; [|by split]. split; [done|]. split; [done|]. intros y. by rewrite Hk'. }
  intros y. destruct (key_of_cases st y) as [Hy | (b & Hb & Hby)].
  - rewrite (key_of_new st y Hy). destruct (decide (y = x)) as [->|Hne].
    + assert (Hk : st_heap st' !! a = Some k) by (unfold st', a; cbn [st_heap]; by rewrite lookup_app_r, Nat.sub_diag by done).
      by rewrite (key_of_lookup st' a k (ws_ids _ W') Hk : key_of st' x = k).
    + apply key_of_new. rewrite Hids, elem_of_app, list_elem_of_singleton. naive_solver.
  - assert (Hk : st_heap st' !! b = Some (key_of st y)) by (unfold st'; cbn [st_heap]; by apply lookup_app_l_Some).
    rewrite <- (key_of_lookup st' b _ (ws_ids _ W') Hk) at 1. by rewrite key_of_id.
Qed.

(** * Loading keys *)

Section Load.
Context {D : Type} {DB : KeyDb D}.
Variable dbctx : D.

Definition key_sigs (k : openpgp_publickey) : list openpgp_packet := concat (map sp_sigs (pk_uids k)).

Definition signer (p : openpgp_packet) : Z := match sig_keyid p with Done id => id | Fault _ => 0 end.

(** The key ids of the signatures on the user ids of a key in the database. *)
Definition signers (x : Z) : list Z :=
  if x =? 0 then []
  else match (fetch_key_id dbctx x false).2 with [] => [] | k :: _ => map signer (key_sigs k) end.

Definition db_revoked (x : Z) : bool :=
  match (fetch_key_id dbctx x false).2 with [] => false | k :: _ => pk_revoked k end.

(** The signatures of the stored keys decode. *)
Definition graph_readable : Prop :=
  forall x k rest, (fetch_key_id dbctx x false).2 = k :: rest ->
    Forall (fun p => exists id, sig_keyid p = Done id) (key_sigs k).

(** A node that says it is loaded has the signers of its key. *)
Definition cached_ok (st : stats_state) : Prop :=
  forall x, sk_gotsigs (key_of st x) = true -> Forall2 (at_ st) (sk_sigs (key_of st x)) (rev (signers x)).

Lemma add_sigs_spec l : forall st sigs xs,
  wf_state st -> Forall (fun p => exists id, sig_keyid p = Done id) l -> Forall2 (at_ st) sigs xs ->
  exists st' sigs', add_sigs st l sigs = Done (st', sigs') /\ evolves st st' /\
    (forall y, key_of st' y = key_of st y) /\ Forall2 (at_ st') sigs' (rev (map signer l) ++ xs).
Proof.
  induction l as [|p l IH]; intros st sigs xs W Hl Hs; cbn [add_sigs].
  { exists st, sigs. split; [done|]. by split; [apply evolves_refl|]. }
  apply Forall_cons in Hl as [[id Hid] Hl]. rewrite Hid. cbn [mbind outcome_bind].
  destruct (createandaddtohash_spec st id W) as (st1 & a & -> & He & Ha & Hk). cbn [mbind outcome_bind].
  unfold lladd. destruct (IH st1 (a :: sigs) (id :: xs)) as (st2 & sigs2 & -> & He2 & Hk2 & Hs2).
  - apply He.
  - done.
  - constructor; [done | by eapply evolves_list].
  - exists st2, sigs2. split; [done|]. split; [by eapply evolves_trans|]. split; [intros y; by rewrite Hk2|].
    cbn [map rev]. rewrite <- app_assoc. unfold signer at 2. by rewrite Hid.
Qed.

Lemma add_uid_sigs_spec uids : forall st sigs xs,
  wf_state st -> Forall (fun p => exists id, sig_keyid p = Done id) (concat (map sp_sigs uids)) -> Forall2 (at_ st) sigs xs ->
  exists st' sigs', add_uid_sigs st uids sigs = Done (st', sigs') /\ evolves st st' /\
    (forall y, key_of st' y = key_of st y) /\ Forall2 (at_ st') sigs' (rev (map signer (concat (map sp_sigs uids))) ++ xs).
Proof.
  induction uids as [|u uids IH]; intros st sigs xs W Hl Hs; cbn [add_uid_sigs].
  { exists st, sigs. split; [done|]. by split; [apply evolves_refl|]. }
  cbn [map concat] in *. apply Forall_app in Hl as [Hu Hl].
  destruct (add_sigs_spec (sp_sigs u) st sigs xs W Hu Hs) as (st1 & s1 & -> & He & Hk & Hs1). cbn [mbind outcome_bind].
  destruct (IH st1 s1 _ (proj1 He) Hl Hs1) as (st2 & s2 & -> & He2 & Hk2 & Hs2).
  exists st2, s2. split; [done|]. split; [by eapply evolves_trans|]. split; [intros y; by rewrite Hk2|].
  by rewrite map_app, rev_app_distr, <- app_assoc.
Qed.

Lemma getkeysigs_spec st x :
  wf_state st -> graph_readable -> x <> 0 ->
  exists st' sigs, generic_getkeysigs dbctx st x false = Done (st', sigs, db_revoked x) /\ evolves st st' /\
    (forall y, key_of st' y = key_of st y) /\ Forall2 (at_ st') sigs (rev (signers x)).
Proof.
  intros W Hg Hx. unfold generic_getkeysigs, signers, db_revoked. rewrite (proj2 (Z.eqb_neq x 0) Hx).
  destruct (fetch_key_id dbctx x false).2 as [|k rest] eqn:E.
  { exists st, []. split; [done|]. split; [by apply evolves_refl|]. split; [done | apply Forall2_nil_2]. }
  destruct (add_uid_sigs_spec (pk_uids k) st [] [] W (Hg x k rest E) (Forall2_nil_2 _ _ _)) as (st' & sigs & -> & He & Hk & Hs).
  cbn [mbind outcome_bind]. exists st', sigs. split; [done|]. split; [done|]. split; [done|]. by rewrite app_nil_r in Hs.
Qed.

(** Everything but the list of signed keys. *)
Definition same_but_signs (k k' : stats_key) : Prop := k' = set_signs k (sk_signs k').

Lemma add_signs_spec a l : forall st xs,
  wf_state st -> Forall2 (at_ st) l xs ->
  exists st', add_signs st a l = Done st' /\ evolves st st' /\ forall y, same_but_signs (key_of st y) (key_of st' y).
Proof.
  induction l as [|s l IH]; intros st xs W Hl; cbn [add_signs].
  { exists st. split; [done|]. split; [by apply evolves_refl|]. intros y. unfold same_but_signs. by destruct (key_of st y). }
  apply Forall2_cons_inv_l in Hl as (x & xs' & Hx & Hl & ->).
  destruct (modify_spec st s x (fun k => set_signs k (lladd (sk_signs k) a)) W Hx) as (st1 & -> & He & _ & Hk); [done|].
  cbn [mbind outcome_bind]. destruct (IH st1 xs' (proj1 He)) as (st2 & -> & He2 & Hk2); [by eapply evolves_list|].
  exists st2. split; [done|]. split; [by eapply evolves_trans|]. intros y. specialize (Hk2 y). unfold same_but_signs in *.
  rewrite Hk2, Hk. destruct (Z.eqb_spec y x) as [->|]; by destruct (key_of st _).
Qed.

(** What loading [x] leaves alone: the marks and flags of every node, except
    that [x] may turn out to be revoked when it is loaded for the first time. *)
Definition same_marks (st st' : stats_state) (x : Z) : Prop :=
  forall y, sk_colour (key_of st' y) = sk_colour (key_of st y) /\ sk_parent (key_of st' y) = sk_parent (key_of st y) /\
    sk_disabled (key_of st' y) = sk_disabled (key_of st y) /\
    (y <> x \/ sk_gotsigs (key_of st x) = true \/ signers x = [] -> sk_revoked (key_of st' y) = sk_revoked (key_of st y)) /\
    (sk_revoked (key_of st' y) = sk_revoked (key_of st y) \/ sk_revoked (key_of st' y) = db_revoked y).

Lemma same_marks_same st st' x : (forall y, key_of st' y = key_of st y) -> same_marks st st' x.
Proof. intros H y. rewrite H. split_and!; auto. Qed.

(** No key is disabled or enabled, and a key becomes or stops being revoked only
    when the database says so. *)
Definition flags_kept (st st' : stats_state) : Prop :=
  forall y, sk_disabled (key_of st' y) = sk_disabled (key_of st y) /\
    (sk_revoked (key_of st' y) = sk_revoked (key_of st y) \/ sk_revoked (key_of st' y) = db_revoked y).

Lemma flags_kept_trans st1 st2 st3 : flags_kept st1 st2 -> flags_kept st2 st3 -> flags_kept st1 st3.
Proof.
  intros H1 H2 y. destruct (H1 y) as [D1 R1], (H2 y) as [D2 R2]. split; [congruence|].
  destruct R2 as [E|]; [rewrite E; done | auto].
Qed.

Lemma flags_kept_same st st' : (forall y, sk_disabled (key_of st' y) = sk_disabled (key_of st y) /\
  sk_revoked (key_of st' y) = sk_revoked (key_of st y)) -> flags_kept st st'.
Proof. intros H y. destruct (H y). auto. Qed.

Lemma same_marks_kept st st' x : same_marks st st' x -> flags_kept st st'.
Proof. intros H y. destruct (H y) as (_ & _ & ? & _ & ?). auto. Qed.

(** The signers of [x] will not be fetched again. *)
Definition loaded (st : stats_state) (x : Z) : Prop := sk_gotsigs (key_of st x) = true \/ signers x = [].

Lemma cached_getkeysigs_spec st x :
  wf_state st -> graph_readable -> cached_ok st ->
  exists st' l, generic_cached_getkeysigs dbctx st x = Done (st', l) /\ evolves st st' /\ cached_ok st' /\
    Forall2 (at_ st') l (rev (signers x)) /\ same_marks st st' x /\ loaded st' x.
Proof.
  intros W Hg Hc. unfold generic_cached_getkeysigs. destruct (Z.eqb_spec x 0) as [->|Hx].
  { exists st, []. split; [done|]. split; [by apply evolves_refl|]. split; [done|].
    split; [apply Forall2_nil_2|]. split; [by apply same_marks_same | by right]. }
  destruct (findinhash_spec st x W) as (r & -> & Hr). cbn [mbind outcome_bind].
  assert (Hgot : match r with None => Done false | Some a => k ← node st a; Done (sk_gotsigs k) end =
    Done (sk_gotsigs (key_of st x))).
  { destruct r as [a|]; [by rewrite (at_node st a x) | by rewrite key_of_new]. }
  rewrite Hgot. cbn [mbind outcome_bind]. destruct (sk_gotsigs (key_of st x)) eqn:Eg; cbn [mbind outcome_bind].
  { destruct r as [a|]; [|by rewrite key_of_new in Eg]. rewrite (at_node st a x) by done. cbn [mbind outcome_bind].
    exists st, (sk_sigs (key_of st x)). split; [done|]. split; [by apply evolves_refl|]. split; [done|].
    split; [by apply Hc|]. split; [by apply same_marks_same | by left]. }
  destruct (getkeysigs_spec st x W Hg Hx) as (st1 & sigs & -> & He1 & Hk1 & Hs1). cbn [mbind outcome_bind].
  destruct sigs as [|s0 sigs0] eqn:Esigs; cbn [mbind outcome_bind].
  { apply Forall2_nil_inv_l in Hs1 as Hnil. exists st1, []. split; [done|]. split; [done|]. split.
    - intros y. rewrite Hk1. intros Hy. eapply evolves_list; [done | by apply Hc].
    - split; [by rewrite Hnil; apply Forall2_nil_2|]. split; [by apply same_marks_same|].
      right. rewrite <- (rev_involutive (signers x)), Hnil. done. }
  assert (Hne0 : sigs <> []) by (by rewrite Esigs). rewrite <- Esigs in *. clear Esigs.
  assert (exists st2 a, match r with None => createandaddtohash st1 x | Some a => Done (st1, a) end = Done (st2, a) /\
    evolves st1 st2 /\ at_ st2 a x /\ forall y, key_of st2 y = key_of st1 y) as (st2 & a & -> & He2 & Ha & Hk2).
  { destruct r as [a|]; [|apply createandaddtohash_spec, He1]. exists st1, a. split; [done|].
    split; [apply evolves_refl, He1|]. split; [by apply He1 | done]. }
  cbn [mbind outcome_bind].
  destruct (modify_spec st2 a x (fun k => set_loaded k sigs (db_revoked x)) (proj1 He2) Ha) as (st3 & -> & He3 & _ & Hk3); [done|].
  cbn [mbind outcome_bind].
  pose proof (evolves_list _ _ _ _ He3 (evolves_list _ _ _ _ He2 Hs1)) as Hs3.
  destruct (add_signs_spec a sigs st3 _ (proj1 He3) Hs3) as (st4 & -> & He4 & Hk4). cbn [mbind outcome_bind].
  assert (Ha4 : at_ st4 a x) by (apply He4, He3, Ha).
  destruct (modify_spec st4 a x set_gotsigs (proj1 He4) Ha4) as (st5 & -> & He5 & _ & Hk5); [done|].
  cbn [mbind outcome_bind]. rewrite (at_node st5 a x) by (apply He5; done). cbn [mbind outcome_bind].
  assert (Hev : evolves st st5) by (eauto using evolves_trans).
  assert (Hk : forall y, exists sg, key_of st5 y = if y =? x then set_gotsigs (set_signs (set_loaded (key_of st x) sigs (db_revoked x)) sg)
                                       else set_signs (key_of st y) sg).
  { intros y. pose proof (Hk4 y) as H4. pose proof (Hk4 x) as H4x. unfold same_but_signs in *. rewrite Hk5.
    rewrite Hk3, !Hk2, !Hk1 in H4. rewrite Hk3, Z.eqb_refl, !Hk2, !Hk1 in H4x.
    revert H4; destruct (Z.eqb_spec y x) as [_|_]; intros H4; eexists; [by rewrite H4x | by rewrite H4]. }
  pose proof (evolves_list _ _ _ _ He5 (evolves_list _ _ _ _ He4 Hs3)) as Hs5.
  assert (Hx5 : sk_sigs (key_of st5 x) = sigs) by (destruct (Hk x) as [sg ->]; by rewrite Z.eqb_refl).
  exists st5, sigs. rewrite Hx5. split; [done|]. split; [done|]. split; [|split; [done|split]].
  - intros y Hy. destruct (decide (y = x)) as [->|Hne]; [by rewrite Hx5|].
    destruct (Hk y) as [sg E]. rewrite (proj2 (Z.eqb_neq y x) Hne) in E. rewrite E in Hy |- *.
    eapply evolves_list; [exact Hev | apply Hc, Hy].
  - intros y. destruct (Hk y) as [sg ->]. destruct (Z.eqb_spec y x) as [->|Hne]; [|cbn; split_and!; auto].
    split_and!; [done.. | | by right]. intros [?|[?|Hnil]]; [done | congruence |]. rewrite Hnil in Hs5. apply Forall2_length in Hs5.
    by destruct sigs.
  - left. destruct (Hk x) as [sg ->]. by rewrite Z.eqb_refl.
Qed.
End Load.

(** * Searching *)

Definition colour (st : stats_state) (x : Z) : Z := sk_colour (key_of st x).
Definition parent (st : stats_state) (x : Z) : Z := sk_parent (key_of st x).

(** The nodes a search may go through. *)
Definition usable (st : stats_state) (x : Z) : Prop :=
  sk_disabled (key_of st x) = false /\ sk_revoked (key_of st x) = false.

Section Search.
Context {D : Type} {DB : KeyDb D}.
Variables (dbctx : D) (st0 : stats_state) (w : Z).

(** [n] signatures lead from [x] to [w]: each key on the way signs the next
    one, and all but [w] itself are usable. *)
Inductive walk : nat -> Z -> Prop :=
  | walk_here : walk 0 w
  | walk_step n y z : walk n y -> z ∈ signers dbctx y -> usable st0 z -> walk (S n) z.

(** The least positive number of signatures. *)
Definition distance (c : nat) (x : Z) : Prop :=
  (1 <= c)%nat /\ walk c x /\ forall m, (1 <= m < c)%nat -> ~ walk m x.

(** The key ids the search can meet. *)
Variable U : list Z.
Hypothesis U_nodup : NoDup U.
Hypothesis U_closed : forall x y, x ∈ U -> y ∈ signers dbctx x -> y ∈ U.
Hypothesis U_size : zlen U < 2 ^ 31.

Definition coloured (st : stats_state) : list Z := List.filter (fun y => negb (colour st y =? 0)) U.

(** The state of a search at depth [d], when the keys [ns] have been found at
    that depth. *)
Record searching (st : stats_state) (d : nat) (ns : list Z) (count : Z) : Prop := {
  se_wf : wf_state st;
  se_cached : cached_ok dbctx st;
  se_colour : forall y, colour st y = 0 \/
    exists c, colour st y = Z.of_nat c /\ (c <= d)%nat /\ distance c y /\ y ∈ U;
  se_before : forall m y, (1 <= m < d)%nat -> walk m y -> colour st y <> 0;
  se_next : forall y, y ∈ ns <-> colour st y = Z.of_nat d;
  se_flags : forall y, colour st y = 0 -> (usable st y <-> usable st0 y);
  se_parent : forall y c, colour st y = Z.of_nat (S c) -> y ∈ signers dbctx (parent st y) /\
    (parent st y = w /\ c = 0%nat \/ colour st (parent st y) = Z.of_nat c /\ (1 <= c)%nat);
  se_count : count = zlen (coloured st);
  se_depth : Z.of_nat d <= count + 1 /\ (ns <> [] -> Z.of_nat d <= count);
  se_kept : flags_kept dbctx st0 st
}.

(** The keys whose signers are looked at at depth [d]. *)
Definition source (st : stats_state) (d : nat) (x : Z) : Prop :=
  d = 1%nat /\ x = w \/ (2 <= d)%nat /\ colour st x = Z.of_nat (d - 1).

Lemma filter_flip (p p' : Z -> bool) y l :
  NoDup l -> y ∈ l -> p y = false -> p' y = true -> (forall z, z <> y -> p' z = p z) ->
  zlen (List.filter p' l) = zlen (List.filter p l) + 1.
Proof.
  intros Hn Hy Hp Hp' Hz. induction l as [|x l IH]; [by apply elem_of_nil in Hy|].
  apply NoDup_cons in Hn as [Hx Hn]. cbn [List.filter]. destruct (decide (x = y)) as [->|Hne].
  - assert (List.filter p' l = List.filter p l) as E
      by (apply List.filter_ext_in; intros z Hin%list_elem_of_In; apply Hz; by intros ->).
    rewrite Hp, Hp', zlen_cons, E. lia.
  - apply elem_of_cons in Hy as [->|Hy]; [done|]. rewrite Hz by done. destruct (p x); rewrite ?zlen_cons, IH by done; lia.
Qed.

Lemma filter_le {A} (p : A -> bool) l : zlen (List.filter p l) <= zlen l.
Proof. pose proof (List.filter_length_le p l). unfold zlen. lia. Qed.

Lemma searching_walk st d ns count x :
  searching st d ns count -> w ∈ U -> source st d x -> walk (d - 1) x /\ x ∈ U.
Proof.
  intros Hs Hw [[-> ->] | [Hd Hc]]; [split; [constructor | done]|].
  destruct (se_colour _ _ _ _ Hs x) as [H0 | (c & Hc' & _ & (_ & Hwk & _) & HU)]; [lia|].
  assert (c = (d - 1)%nat) as <- by lia. done.
Qed.

(** Marking one key that has not been seen. *)
Lemma searching_mark st d ns count x y st' :
  searching st d ns count -> w ∈ U -> (1 <= d)%nat -> source st d x -> y ∈ signers dbctx x ->
  usable st y -> colour st y = 0 -> evolves st st' ->
  (forall z, key_of st' z = if z =? y then set_mark (key_of st y) (Z.of_nat d) x else key_of st z) ->
  searching st' d (y :: ns) (count + 1).
Proof.
  intros Hs Hw Hd Hx Hy Hu H0 He Hk. destruct (searching_walk _ _ _ _ _ Hs Hw Hx) as [Hwk HxU].
  assert (Hcol : forall z, colour st' z = if z =? y then Z.of_nat d else colour st z)
    by (intros z; unfold colour; rewrite Hk; by destruct (z =? y)).
  assert (Hpar : forall z, parent st' z = if z =? y then x else parent st z)
    by (intros z; unfold parent; rewrite Hk; by destruct (z =? y)).
  assert (Hsig : forall z, sk_gotsigs (key_of st' z) = sk_gotsigs (key_of st z) /\ sk_sigs (key_of st' z) = sk_sigs (key_of st z))
    by (intros z; rewrite Hk; by destruct (Z.eqb_spec z y) as [->|]).
  assert (Hdist : distance d y).
  { split; [done|]. split.
    - destruct d; [lia|]. replace (S d - 1)%nat with d in Hwk by lia. econstructor; [exact Hwk | done |].
      by apply (se_flags _ _ _ _ Hs y H0).
    - intros m Hm Hwm. by apply (se_before _ _ _ _ Hs m y Hm Hwm). }
  split.
  - apply He.
  - intros z Hz. destruct (Hsig z) as [Eg Es]. rewrite Eg in Hz. rewrite Es. eapply evolves_list; [exact He|].
    by apply (se_cached _ _ _ _ Hs).
  - intros z. rewrite Hcol. destruct (Z.eqb_spec z y) as [->|]; [|apply (se_colour _ _ _ _ Hs)].
    right. exists d. split; [done|]. split; [done|]. split; [done|]. by eapply U_closed.
  - intros m z Hm Hz. rewrite Hcol. destruct (z =? y); [lia | by apply (se_before _ _ _ _ Hs m)].
  - intros z. rewrite Hcol, elem_of_cons. destruct (Z.eqb_spec z y) as [->|Hne]; [by split; auto|].
    rewrite (se_next _ _ _ _ Hs). naive_solver.
  - intros z. rewrite Hcol. destruct (Z.eqb_spec z y) as [->|Hne]; [lia|]. intros Hz.
    unfold usable. rewrite Hk, (proj2 (Z.eqb_neq z y) Hne). by apply (se_flags _ _ _ _ Hs).
  - intros z c. rewrite Hpar, Hcol. destruct (Z.eqb_spec z y) as [->|Hne].
    + intros Ec. split; [done|]. destruct Hx as [[-> ->] | [Hd2 Hcx]]; [left; split; [done | lia] | right].
      rewrite Hcol. destruct (Z.eqb_spec x y) as [->|]; [lia|]. split; lia.
    + intros Hc. destruct (se_parent _ _ _ _ Hs z c Hc) as [Hin Hp]. split; [done|]. rewrite Hcol.
      destruct (Z.eqb_spec (parent st z) y) as [E|]; [|done]. destruct Hp as [?|[Hp ?]]; [by left|]. rewrite E in Hp. lia.
  - rewrite (se_count _ _ _ _ Hs). symmetry. apply (filter_flip _ _ y); [done | by eapply U_closed | by rewrite H0 | |].
    + rewrite Hcol, Z.eqb_refl. destruct (Z.eqb_spec (Z.of_nat d) 0); [lia | done].
    + intros z Hne. by rewrite Hcol, (proj2 (Z.eqb_neq z y) Hne).
  - destruct (se_depth _ _ _ _ Hs). split; [lia | intros _; lia].
  - eapply flags_kept_trans; [apply (se_kept _ _ _ _ Hs)|]. apply flags_kept_same. intros z. rewrite Hk.
    by destruct (Z.eqb_spec z y) as [->|].
Qed.

(** The loop over the signers of one key. *)
Lemma findpath_sigs_spec have h key x d sigs : forall st ys nextkeys ns count,
  searching st d ns count -> w ∈ U -> (1 <= d)%nat -> source st d x ->
  at_ st have h -> at_ st key x -> Forall2 (at_ st) sigs ys -> Forall2 (at_ st) nextkeys ns ->
  (forall y, y ∈ ys -> y ∈ signers dbctx x) ->
  exists st' nextkeys' ns' count',
    findpath_sigs false st have key sigs nextkeys (Z.of_nat d) count = Done (st', nextkeys', count') /\
    evolves st st' /\ Forall2 (at_ st') nextkeys' ns' /\ searching st' d ns' count' /\
    (forall y, colour st y <> 0 -> colour st' y = colour st y) /\
    (colour st' h <> 0 \/ forall y, y ∈ ys -> usable st0 y -> colour st' y <> 0) /\
    zlen ns' - count' = zlen ns - count.
Proof.
  induction sigs as [|s sigs IH]; intros st ys nextkeys ns count Hs Hw Hd Hx Hh Hkey Hsigs Hnext Hys;
    pose proof (se_wf _ _ _ _ Hs) as W; cbn [findpath_sigs].
  { apply Forall2_nil_inv_l in Hsigs as ->. exists st, nextkeys, ns, count. split; [done|]. split; [by apply evolves_refl|].
    do 3 (split; [done|]). split; [|done]. right. intros y []%not_elem_of_nil. }
  apply Forall2_cons_inv_l in Hsigs as (y & ys' & Hy & Hsigs & ->).
  rewrite (at_node st have h) by done. cbn [mbind outcome_bind]. fold (colour st h).
  destruct (Z.eqb_spec (colour st h) 0) as [Hh0|Hh0]; cbn [negb].
  2: { exists st, nextkeys, ns, count. split; [done|]. split; [by apply evolves_refl|].
       do 3 (split; [done|]). by split; [left|]. }
  rewrite (at_node st s y) by done. cbn [mbind outcome_bind]. fold (colour st y).
  destruct (negb _ && negb _ && _) eqn:Econd.
  - apply andb_true_iff in Econd as [[Hdis Hrev]%andb_true_iff Hcol]. zbool.
    rewrite (at_node st key x) by done. cbn [mbind outcome_bind]. rewrite key_of_id.
    assert (HyU : y ∈ U).
    { eapply U_closed; [|apply Hys; by left]. by apply (searching_walk st d ns count). }
    assert (Hcount : count + 1 <= zlen U).
    { rewrite (se_count _ _ _ _ Hs). unfold coloured.
      rewrite <- (filter_flip (fun z => negb (colour st z =? 0)) (fun z => negb (colour st z =? 0) || (z =? y)) y U);
        [apply filter_le | done | done | by rewrite Hcol | by rewrite Z.eqb_refl, orb_true_r |].
      intros z Hne. by rewrite (proj2 (Z.eqb_neq z y) Hne), orb_false_r. }
    destruct (se_depth _ _ _ _ Hs) as [Hdep _]. pose proof (zlen_nonneg (coloured st)) as Hc0.
    rewrite <- (se_count _ _ _ _ Hs) in Hc0. rewrite i32_small, u64_small by lia.
    destruct (modify_spec st s y (fun k => set_mark k (Z.of_nat d) x) W Hy) as (st1 & -> & He & _ & Hk); [done|].
    cbn [mbind outcome_bind].
    assert (Hs1 : searching st1 d (y :: ns) (count + 1))
      by (eapply searching_mark; eauto; [apply Hys; by left | by split]).
    assert (Hold : forall z, colour st z <> 0 -> colour st1 z = colour st z).
    { intros z Hz. unfold colour. rewrite Hk. destruct (Z.eqb_spec z y) as [->|]; [by unfold colour in Hz | done]. }
    destruct (IH st1 ys' (s :: nextkeys) (y :: ns) (count + 1)) as (st2 & nk & ns2 & c2 & E & He2 & Hn2 & Hs2 & Hkeep & Hdone & Hm);
      [done | done | done | | by apply He | by apply He | by eapply evolves_list | | intros z Hz; apply Hys; by right |].
    { destruct Hx as [?|[Hd2 Hcx]]; [by left | right]. split; [done|]. rewrite Hold; [done | lia]. }
    { constructor; [by apply He | by eapply evolves_list]. }
    unfold lladd. rewrite E. exists st2, nk, ns2, c2. split; [done|]. split; [by eapply evolves_trans|]. split; [done|]. split; [done|].
    split; [intros z Hz; rewrite Hkeep, Hold by (rewrite ?Hold; done); done|].
    split; [|rewrite zlen_cons in Hm; lia]. destruct Hdone as [?|Hdone]; [by left | right].
    intros z [->|Hz]%elem_of_cons; [|by apply Hdone]. intros _.
    assert (Hyc : colour st1 y = Z.of_nat d) by (unfold colour; by rewrite Hk, Z.eqb_refl). rewrite Hkeep by lia. lia.
  - destruct (IH st ys' nextkeys ns count) as (st2 & nk & ns2 & c2 & E & He2 & Hn2 & Hs2 & Hkeep & Hdone & Hm);
      [done | done | done | done | done | done | done | done | intros z Hz; apply Hys; by right |].
    rewrite E. exists st2, nk, ns2, c2. do 5 (split; [done|]). split; [|done].
    destruct Hdone as [?|Hdone]; [by left | right]. intros z [->|Hz]%elem_of_cons; [|by apply Hdone]. intros Hu.
    assert (colour st y <> 0) by (intros H0; apply (se_flags _ _ _ _ Hs y H0) in Hu as [Hu1 Hu2];
      by rewrite Hu1, Hu2, H0 in Econd).
    by rewrite Hkeep.
Qed.

(** All usable signers of a key have been found. *)
Definition closed (st : stats_state) (y : Z) : Prop :=
  forall z, z ∈ signers dbctx y -> usable st0 z -> colour st z <> 0.

(** The next depth. *)
Lemma searching_deeper st d ns count :
  searching st d ns count -> (1 <= d)%nat -> ns <> [] ->
  (forall m y, (m < d)%nat -> walk m y -> closed st y) ->
  searching st (S d) [] count /\
  (forall x, x ∈ ns -> source st (S d) x) /\
  (forall m y, (m < S d)%nat -> walk m y -> y ∈ ns \/ closed st y).
Proof.
  intros Hs Hd Hns Hcl.
  assert (Hd_found : forall y, walk d y -> colour st y <> 0).
  { intros y Hy. inversion Hy as [|n x z Hx Hz Hu]; subst; [lia|]. by apply (Hcl n x); [lia|..]. }
  assert (Hle : forall y c, colour st y = Z.of_nat c -> c <> 0%nat -> (c <= d)%nat /\ walk c y).
  { intros y c Hc Hc0. destruct (se_colour _ _ _ _ Hs y) as [?|(c' & Hc' & Hle & (_ & Hwk & _) & _)]; [lia|].
    assert (c' = c) as -> by lia. done. }
  split; [|split].
  - split; try apply Hs.
    + intros y. destruct (se_colour _ _ _ _ Hs y) as [?|(c & ? & ? & ?)]; [by left | right]. exists c. auto.
    + intros m y Hm Hy. destruct (decide (m = d)) as [->|]; [by apply Hd_found|]. apply (se_before _ _ _ _ Hs m y); [lia | done].
    + intros y. split; [intros []%not_elem_of_nil|]. intros Hc. destruct (Hle y (S d) Hc); lia.
    + destruct (se_depth _ _ _ _ Hs) as [_ H]. specialize (H Hns). split; [lia | done].
  - intros x Hx. right. split; [lia|]. apply (se_next _ _ _ _ Hs) in Hx. rewrite Hx. f_equal. lia.
  - intros m y Hm Hy. destruct (decide (m = d)) as [->|]; [|right; apply (Hcl m y); [lia | done]].
    destruct (se_colour _ _ _ _ Hs y) as [H0|(c & Hc & Hcd & (Hc1 & Hwk & Hmin) & _)].
    { by destruct (Hd_found y Hy). }
    destruct (decide (c = d)) as [->|]; [left; by apply (se_next _ _ _ _ Hs)|]. right. apply (Hcl c y); [lia | done].
Qed.

(** Nothing new at the last depth: everything that can be reached is marked. *)
Lemma searching_end st d count :
  searching st d [] count -> (1 <= d)%nat -> (forall m y, (m < d)%nat -> walk m y -> closed st y) ->
  forall n y, walk (S n) y -> colour st y <> 0.
Proof.
  intros Hs Hd Hcl.
  assert (Hearly : forall n y, walk n y -> exists m, (m < d)%nat /\ walk m y).
  { intros n y Hy. induction Hy as [|n x z Hx (m & Hm & Hxm) Hz Hu]; [exists 0%nat; split; [lia | constructor]|].
    destruct (se_colour _ _ _ _ Hs z) as [H0|(c & Hc & Hcd & (Hc1 & Hwk & _) & _)].
    { by destruct (Hcl m x Hm Hxm z Hz Hu). }
    exists c. split; [|done]. destruct (decide (c = d)) as [->|]; [|lia].
    apply (se_next _ _ _ _ Hs) in Hc. by apply elem_of_nil in Hc. }
  intros n y Hy. inversion Hy as [|n' x z Hx Hz Hu]; subst. destruct (Hearly n x Hx) as (m & Hm & Hxm).
  by apply (Hcl m x).
Qed.

Lemma findpath_stop fuel st have h keys nextkeys dg count :
  wf_state st -> at_ st have h -> colour st h <> 0 ->
  findpath_loop false fuel dbctx st have keys nextkeys dg count = Done (st, count).
Proof.
  intros W Hh Hc. destruct fuel; cbn [findpath_loop]; (destruct keys; [done|]);
    rewrite (at_node st have h) by done; cbn [mbind outcome_bind]; fold (colour st h);
    by destruct (Z.eqb_spec (colour st h) 0).
Qed.

(** Loading keeps a search going: the only flag it can change is that of a key
    that has been marked, or of [w] the first time. *)
Lemma searching_load st d ns count x st' :
  searching st d ns count -> evolves st st' -> cached_ok dbctx st' -> same_marks dbctx st st' x ->
  (colour st x <> 0 \/ sk_gotsigs (key_of st x) = true \/ signers dbctx x = []) ->
  searching st' d ns count /\ forall y, colour st' y = colour st y.
Proof.
  intros Hs He Hc Hm Hx.
  assert (Hcol : forall y, colour st' y = colour st y) by (intros y; apply Hm).
  assert (Hpar : forall y, parent st' y = parent st y) by (intros y; apply Hm).
  split; [|done]. split; try apply Hs; [apply He | done | | | | | | |].
  - intros y. rewrite Hcol. apply Hs.
  - intros m y. rewrite Hcol. apply Hs.
  - intros y. rewrite Hcol. apply Hs.
  - intros y. rewrite Hcol. intros H0. rewrite <- (se_flags _ _ _ _ Hs y H0). unfold usable.
    destruct (Hm y) as (_ & _ & -> & Hr & _). rewrite Hr; [done|].
    destruct Hx as [Hx|Hx]; [left; by intros -> | by right].
  - intros y c. rewrite Hpar, !Hcol. apply Hs.
  - rewrite (se_count _ _ _ _ Hs). f_equal. unfold coloured. apply List.filter_ext. intros y. by rewrite Hcol.
  - eapply flags_kept_trans; [apply (se_kept _ _ _ _ Hs) | by eapply same_marks_kept].
Qed.

(** The result of a search. *)
Definition found (st : stats_state) (h count : Z) : Prop :=
  exists d ns, searching st d ns count /\ (colour st h = 0 -> forall n, ~ walk (S n) h).

Lemma findpath_loop_spec fuel : forall st have h keys xs nextkeys ns d count,
  graph_readable dbctx -> searching st d ns count -> w ∈ U -> (1 <= d)%nat ->
  at_ st have h -> Forall2 (at_ st) keys xs -> Forall2 (at_ st) nextkeys ns -> xs <> [] ->
  (d = 1%nat /\ xs = [w] /\ loaded dbctx st w \/
   (2 <= d)%nat /\ forall x, x ∈ xs -> colour st x = Z.of_nat (d - 1)) ->
  (forall m y, (m < d)%nat -> walk m y -> y ∈ xs \/ closed st y) ->
  zlen xs + zlen ns + (zlen U - count) <= Z.of_nat fuel ->
  exists st' count', findpath_loop false fuel dbctx st have keys nextkeys (Z.of_nat d) count = Done (st', count') /\
    evolves st st' /\ found st' h count'.
Proof.
  induction fuel as [|fuel IH]; intros st have h keys xs nextkeys ns d count Hg Hs Hw Hd Hh Hkeys Hnext Hxs Hsrc Hcl Hfuel;
    pose proof (se_wf _ _ _ _ Hs) as W.
  { exfalso. destruct xs; [done|]. rewrite zlen_cons in Hfuel. pose proof (zlen_nonneg xs). pose proof (zlen_nonneg ns).
    pose proof (filter_le (fun y => negb (colour st y =? 0)) U) as Hle. pose proof (se_count _ _ _ _ Hs) as Hcnt.
    unfold coloured in Hcnt. lia. }
  destruct (decide (colour st h = 0)) as [Hh0|Hh0].
  2: { exists st, count. split; [by eapply findpath_stop|]. split; [by apply evolves_refl|]. by exists d, ns. }
  destruct xs as [|x xs]; [done|]. apply Forall2_cons_inv_r in Hkeys as (key & keys' & Hkey & Hkeys & ->).
  cbn [findpath_loop]. rewrite (at_node st have h) by done. cbn [mbind outcome_bind]. fold (colour st h).
  rewrite Hh0. cbn [Z.eqb negb]. rewrite (at_node st key x) by done. cbn [mbind outcome_bind]. rewrite key_of_id.
  assert (Hsx : source st d x) by (destruct Hsrc as [(-> & [= -> _] & _)|[? Hc]]; [by left | right; split; [done | apply Hc; by left]]).
  destruct (cached_getkeysigs_spec dbctx st x W Hg (se_cached _ _ _ _ Hs)) as (st1 & sigs & -> & He1 & Hc1 & Hsig & Hm1 & _).
  cbn [mbind outcome_bind].
  destruct (searching_load st d ns count x st1 Hs He1 Hc1 Hm1) as [Hs1 Hcol1].
  { destruct Hsrc as [(_ & [= -> _] & ?)|[? Hc]]; [by right | left]. rewrite (Hc x) by (by left). lia. }
  destruct (findpath_sigs_spec have h key x d sigs st1 (rev (signers dbctx x)) nextkeys ns count)
    as (st2 & nk & ns2 & c2 & -> & He2 & Hn2 & Hs2 & Hkeep & Hdone & Hmeas);
    [done | done | done | | by apply He1 | by apply He1 | done | by eapply evolves_list | |].
  { destruct Hsx as [?|[? Hc]]; [by left | right; by rewrite Hcol1]. }
  { intros y. rewrite list_elem_of_In, <- List.in_rev, <- list_elem_of_In. done. }
  cbn [mbind outcome_bind].
  pose proof (evolves_trans _ _ _ He1 He2) as He.
  destruct (decide (colour st2 h = 0)) as [Hh2|Hh2].
  2: { assert (Hw2 : wf_state st2) by apply He2. assert (at_ st2 have h) by (by apply He).
       exists st2, c2. split; [destruct keys'; by eapply findpath_stop|]. split; [done|]. by exists d, ns2. }
  destruct Hdone as [?|Hdone]; [done|].
  assert (Hcolmono : forall y, colour st y <> 0 -> colour st2 y = colour st y)
    by (intros y Hy; rewrite Hkeep, Hcol1 by (by rewrite Hcol1); done).
  assert (Hclosed_mono : forall y, closed st y -> closed st2 y)
    by (intros y Hy z Hz Hu; rewrite Hcolmono by auto; auto).
  assert (Hx2 : closed st2 x).
  { intros z Hz Hu. apply Hdone; [|done]. by rewrite list_elem_of_In, <- List.in_rev, <- list_elem_of_In. }
  assert (Hcl2 : forall m y, (m < d)%nat -> walk m y -> y ∈ xs \/ closed st2 y).
  { intros m y Hm Hy. destruct (Hcl m y Hm Hy) as [[->|Hin]%elem_of_cons|?]; auto. }
  rewrite zlen_cons in Hfuel.
  destruct xs as [|x' xs'].
  - apply Forall2_nil_inv_r in Hkeys as ->.
    assert (Hcl3 : forall m y, (m < d)%nat -> walk m y -> closed st2 y)
      by (intros m y Hm Hy; destruct (Hcl2 m y Hm Hy) as [[]%not_elem_of_nil|?]; done).
    destruct ns2 as [|n0 ns2'] eqn:Ens.
    + apply Forall2_nil_inv_r in Hn2 as ->. exists st2, c2. split; [by destruct fuel|]. split; [done|].
      exists d, []. split; [done|]. intros _ n Hn. by eapply (searching_end st2 d c2).
    + rewrite <- Ens in *. assert (Hne : ns2 <> []) by (by rewrite Ens).
      destruct (searching_deeper st2 d ns2 c2 Hs2 Hd Hne Hcl3) as (Hs3 & Hsrc3 & Hcl4).
      replace (Z.of_nat d + 1) with (Z.of_nat (S d)) by lia.
      destruct (IH st2 have h nk ns2 [] [] (S d) c2) as (st3 & c3 & -> & He3 & Hf3);
        [done | done | done | lia | by apply He | done | by apply Forall2_nil_2 | done | | done | |].
      * right. split; [lia|]. intros y Hy. by destruct (Hsrc3 y Hy) as [[? _]|[_ ?]]; [lia|].
      * rewrite (eq_refl : zlen [] = 0) in *. pose proof (zlen_nonneg ns2). lia.
      * exists st3, c3. split; [done|]. split; [by eapply evolves_trans | done].
  - assert (Hk2 : Forall2 (at_ st2) keys' (x' :: xs')) by (by eapply evolves_list).
    assert (Hmatch : forall k, match keys' with [] => k | _ :: _ =>
      findpath_loop false fuel dbctx st2 have keys' nk (Z.of_nat d) c2 end =
      findpath_loop false fuel dbctx st2 have keys' nk (Z.of_nat d) c2) by (intros k; by destruct keys'; [apply Forall2_nil_cons_inv in Hk2|]).
    rewrite Hmatch.
    destruct (IH st2 have h keys' (x' :: xs') nk ns2 d c2) as (st3 & c3 & -> & He3 & Hf3);
      [done | done | done | done | by apply He | done | done | done | | done | |].
    + destruct Hsrc as [(_ & [=] & _)|[? Hc]]. right. split; [done|]. intros y Hy.
      rewrite Hcolmono; [apply Hc; by right|]. rewrite (Hc y) by (by right). lia.
    + lia.
    + exists st3, c3. split; [done|]. split; [by eapply evolves_trans | done].
Qed.

End Search.

(** * Resetting the marks *)

Definition unmarked (parent : bool) (k : stats_key) : stats_key := set_mark k 0 (if parent then 0 else sk_parent k).

Lemma unmarked_twice p k : unmarked p (unmarked p k) = unmarked p k.
Proof. by destruct p, k. Qed.

Lemma modify_table st a f st' : modify st a f = Done st' -> st_hashtable st' = st_hashtable st.
Proof. unfold modify. destruct (node st a); cbn [mbind outcome_bind]; [by intros [= <-] | done]. Qed.

Lemma init_list_spec p l : forall st, wf_state st -> (forall a, a ∈ l -> exists x, at_ st a x) ->
  exists st', init_list st l p = Done st' /\ evolves st st' /\ ids st' = ids st /\
    st_hashtable st' = st_hashtable st /\
    forall x, key_of st' x = unmarked p (key_of st x) \/
      key_of st' x = key_of st x /\ forall a, a ∈ l -> ~ at_ st a x.
Proof.
  induction l as [|a l IH]; intros st W Hl; cbn [init_list].
  { exists st. split; [done|]. split; [by apply evolves_refl|]. split; [done|]. split; [done|]. intros x. right.
    split; [done|]. intros a []%not_elem_of_nil. }
  destruct (Hl a) as [x Hx]; [by left|].
  destruct (modify_spec st a x (unmarked p) W Hx) as (st1 & E & He & Hi & Hk); [done|].
  assert (Hat : forall b y, at_ st1 b y <-> at_ st b y) by (intros b y; by rewrite !at_lookup, Hi).
  pose proof (modify_table _ _ _ _ E) as Ht. unfold unmarked in E. rewrite E. cbn [mbind outcome_bind].
  destruct (IH st1 (proj1 He)) as (st2 & E2 & He2 & Hi2 & Ht2 & Hk2).
  { intros b Hb. destruct (Hl b) as [y Hy]; [by right|]. exists y. by apply Hat. }
  exists st2. split; [done|]. split; [by eapply evolves_trans|]. split; [by rewrite Hi2|]. split; [by rewrite Ht2|].
  intros y. destruct (Hk2 y) as [->|[-> Hn]]; rewrite Hk; destruct (Z.eqb_spec y x) as [->|Hne].
  - left. apply unmarked_twice.
  - by left.
  - by left.
  - right. split; [done|]. intros b [->|Hb]%elem_of_cons; [|by rewrite <- Hat; apply Hn].
    intros Hb. destruct Hx as (k1 & ? & ?), Hb as (k2 & ? & ?). congruence.
Qed.

Lemma init_slots_spec p n : forall st loop, wf_state st -> (loop + n <= Z.to_nat HASHSIZE)%nat ->
  exists st', init_slots st loop n p = Done st' /\ evolves st st' /\ ids st' = ids st /\
    forall x, key_of st' x = unmarked p (key_of st x) \/
      key_of st' x = key_of st x /\ (x ∈ ids st -> (slot x < loop \/ loop + n <= slot x)%nat).
Proof.
  induction n as [|n IH]; intros st loop W Hle; cbn [init_slots].
  { exists st. split; [done|]. split; [by apply evolves_refl|]. split; [done|]. intros x. right. split; [done | lia]. }
  assert (is_Some (st_hashtable st !! loop)) as [l Hl] by (apply lookup_lt_is_Some; rewrite (ws_size st W); lia).
  unfold gethashtableentry. rewrite Hl. cbn [mbind outcome_bind].
  destruct (init_list_spec p l st W) as (st1 & -> & He & Hi & Ht & Hk).
  { intros a Ha. destruct (ws_slot st W _ _ _ Hl Ha) as (x & ? & _). eauto. }
  cbn [mbind outcome_bind]. destruct (IH st1 (S loop) (proj1 He)) as (st2 & -> & He2 & Hi2 & Hk2); [lia|].
  exists st2. split; [done|]. split; [by eapply evolves_trans|]. split; [by rewrite Hi2|]. intros x.
  destruct (Hk2 x) as [->|[-> Hn]].
  { left. destruct (Hk x) as [->|[-> _]]; [apply unmarked_twice | done]. }
  destruct (Hk x) as [->|[-> Hno]]; [by left | right]. split; [done|]. rewrite Hi in Hn. intros Hx.
  destruct (decide (slot x = loop)) as [E|]; [|specialize (Hn Hx); lia]. exfalso.
  apply list_elem_of_lookup in Hx as [a Ha]. apply at_lookup in Ha as Hat.
  destruct (ws_entry st W a x Hat) as (l' & Hl' & Hin). rewrite E, Hl in Hl'. injection Hl' as <-. by apply (Hno a).
Qed.

Lemma initcolour_spec st p :
  wf_state st -> exists st', initcolour st p = Done st' /\ evolves st st' /\ ids st' = ids st /\
    forall x, key_of st' x = unmarked p (key_of st x).
Proof.
  intros W. destruct (init_slots_spec p (Z.to_nat HASHSIZE) st 0 W) as (st' & E & He & Hi & Hk); [lia|].
  exists st'. split; [exact E|]. split; [done|]. split; [done|]. intros x. destruct (Hk x) as [?|[Ek Hn]]; [done|].
  rewrite Ek. rewrite key_of_new; [by destruct p|]. intros Hx. specialize (Hn Hx). pose proof (slot_lt x). lia.
Qed.
