(* ===== verification/StatsPaths.v ===== *)
(** The paths that are printed (dofindpath of stats.c): following the parents a
    search has left, disabling what lies between the ends, and searching again. *)

From S2P Require Import Prelude OpenPGP Streams KeyId Decode DbCtx Merge Stats StatsFacts.

(** * Paths *)

Section Paths.
Context {D : Type} {DB : KeyDb D}.
Variables (dbctx : D) (w : Z).

(** Each key of the list signs the next one, the last one is [w], and all others
    are usable in the state [st0]. *)
Inductive sig_path (st0 : stats_state) : list Z -> Prop :=
  | path_end : sig_path st0 [w]
  | path_cons x y l : x ∈ signers dbctx y -> usable st0 x -> sig_path st0 (y :: l) -> sig_path st0 (x :: y :: l).

Lemma follow_nothing fuel st : wf_state st ->
  (next ← findinhash st 0; follow_parents fuel st next) = Done [].
Proof.
  intros W. destruct (findinhash_spec st 0 W) as (r & -> & Hr). cbn [mbind outcome_bind]. destruct r as [a|]; [|by destruct fuel].
  destruct fuel; cbn [follow_parents]; rewrite (at_node st a 0) by done; cbn [mbind outcome_bind]; by rewrite key_of_id.
Qed.

(** Following the parents from a marked key leads to [w] in as many steps as
    its mark says, once the parent of [w] is cleared. *)
Lemma follow_parents_spec st0 U st d ns count st' c : forall fuel a y,
  searching dbctx st0 w U st d ns count -> wf_state st' -> w <> 0 -> y <> 0 -> y <> w ->
  (forall a x, at_ st a x -> at_ st' a x) ->
  (forall x, key_of st' x = if x =? w then set_mark (key_of st w) (sk_colour (key_of st w)) 0 else key_of st x) ->
  (forall x, sk_colour (key_of st x) <> 0 -> x ∈ ids st) -> w ∈ ids st ->
  at_ st' a y -> colour st y = Z.of_nat (S c) -> (c + 2 <= fuel)%nat ->
  exists l xs, follow_parents fuel st' (Some a) = Done l /\ Forall2 (at_ st') l (y :: xs) /\
    sig_path st0 (y :: xs) /\ length xs = S c.
Proof.
  induction c as [|c IH]; intros fuel a y Hs W' Hw0 Hy0 Hyw Hat Hk Hids Hwid Ha Hc Hf.
  all: destruct fuel as [|fuel]; [lia|]; cbn [follow_parents]; rewrite (at_node st' a y) by done; cbn [mbind outcome_bind];
    rewrite key_of_id, (proj2 (Z.eqb_neq y 0) Hy0); rewrite (Hk y), (proj2 (Z.eqb_neq y w) Hyw); fold (parent st y).
  all: destruct (se_parent _ _ _ _ _ _ _ _ Hs y _ Hc) as [Hin Hp].
  all: assert (Huy : usable st0 y)
    by (destruct (se_colour _ _ _ _ _ _ _ _ Hs y) as [?|(k & Hk' & _ & (_ & Hwk & _) & _)]; [lia|];
        destruct k; [lia|]; by inversion Hwk).
  all: assert (Hfind : forall p, p ∈ ids st -> exists b, findinhash st' p = Done (Some b) /\ at_ st' b p)
    by (intros p [b Hb]%list_elem_of_lookup; apply at_lookup, Hat in Hb;
        destruct (findinhash_spec st' p W') as ([b'|] & -> & Hr); [eauto | by destruct Hr; eapply at_ids]).
  - destruct Hp as [[Ep _]|[_ ?]]; [|lia]. rewrite Ep in *. destruct (Hfind w Hwid) as (b & -> & Hb). cbn [mbind outcome_bind].
    destruct fuel as [|fuel]; [lia|]. cbn [follow_parents]. rewrite (at_node st' b w) by done. cbn [mbind outcome_bind].
    rewrite key_of_id, (proj2 (Z.eqb_neq w 0) Hw0), (Hk w), Z.eqb_refl. cbn [sk_parent set_mark].
    pose proof (follow_nothing fuel st' W') as Hn. destruct (findinhash st' 0) as [r|]; [|done]. cbn [mbind outcome_bind] in *.
    rewrite Hn. cbn [mbind outcome_bind]. exists [a; b], [w]. split; [done|]. split; [by repeat constructor|].
    split; [constructor; [done | done | constructor] | done].
  - destruct Hp as [[_ ?]|[Hpc _]]; [lia|]. set (p := parent st y) in *.
    assert (Hpw : p <> w).
    { intros E. rewrite E in *. destruct (se_colour _ _ _ _ _ _ _ _ Hs y) as [?|(k & Hk' & _ & (_ & Hwk & Hmin) & _)]; [lia|].
      assert (k = S (S c)) as -> by lia. apply (Hmin 1%nat); [lia|]. inversion Hwk; subst. econstructor; [constructor | done | done]. }
    assert (Hp0 : p <> 0) by (intros E; rewrite E in Hin; by apply elem_of_nil in Hin).
    destruct (Hfind p) as (b & -> & Hb); [apply Hids; unfold colour in Hpc; lia|]. cbn [mbind outcome_bind].
    destruct (IH fuel b p Hs W' Hw0 Hp0 Hpw Hat Hk Hids Hwid Hb Hpc) as (l & xs & -> & Hl & Hpath & Hlen); [lia|].
    cbn [mbind outcome_bind]. exists (a :: l), (p :: xs). split; [done|]. split; [by constructor|]. split; [by constructor|].
    cbn. lia.
Qed.
End Paths.

(** A search from a state without marks. *)
Lemma findpath_spec {D} {DB : KeyDb D} (dbctx : D) st have want h w U fuel :
  graph_readable dbctx -> wf_state st -> cached_ok dbctx st -> (forall x, colour st x = 0) ->
  at_ st have h -> at_ st want w -> loaded dbctx st w ->
  NoDup U -> (forall x y, x ∈ U -> y ∈ signers dbctx x -> y ∈ U) -> zlen U < 2 ^ 31 -> w ∈ U ->
  zlen U + 1 <= Z.of_nat fuel ->
  exists st' count, findpath false fuel dbctx st have want = Done (st', count) /\ evolves st st' /\
    found dbctx st w U st' h count.
Proof.
  intros Hg W Hc H0 Hh Hw Hl Hnd Hcl Hsz HwU Hf. unfold findpath.
  assert (Hs : searching dbctx st w U st 1 [] 0).
  { split; [done | done | by left | lia | | done | | | split; [lia | done] | by apply flags_kept_same].
    - intros y. rewrite H0. split; [intros []%not_elem_of_nil | done].
    - intros y c. rewrite H0. lia.
    - unfold coloured. rewrite (List.filter_ext _ (fun _ => false)) by (intros y; by rewrite H0).
      clear. by induction U. }
  destruct (findpath_loop_spec dbctx st w U Hnd Hcl Hsz fuel st have h [want] [w] [] [] 1 0) as (st' & c & E & He & Hfd);
    [done | done | done | lia | done | by repeat constructor | by apply Forall2_nil_2 | done | by left | | |].
  - intros m y Hm Hy. left. assert (m = 0%nat) as -> by lia. inversion Hy; subst. by left.
  - change (zlen [w]) with 1. change (zlen []) with 0. lia.
  - by exists st', c.
Qed.

(** * Rounds of dofindpath *)

Lemma at_same st a b x y : wf_state st -> at_ st a x -> at_ st b y -> a = b <-> x = y.
Proof.
  intros W (k & Ek & <-) (k' & Ek' & <-). split; [intros ->; congruence|]. intros E.
  apply (NoDup_lookup (ids st) _ _ (sk_keyid k) (ws_ids st W)); unfold ids; rewrite list_lookup_fmap; [by rewrite Ek | rewrite Ek'; cbn; by rewrite E].
Qed.

(** The keys of the path are disabled, but for its ends. *)
Lemma disable_path_spec st a b h w l : forall xs, wf_state st -> at_ st a h -> at_ st b w -> Forall2 (at_ st) l xs ->
  exists st', disable_path st a b l = Done st' /\ evolves st st' /\
    forall x, key_of st' x = if bool_decide (x ∈ xs /\ x <> h /\ x <> w) then set_disabled (key_of st x) else key_of st x.
Proof.
  revert st. induction l as [|n l IH]; intros st xs W Ha Hb Hl; cbn [disable_path].
  { apply Forall2_nil_inv_l in Hl as ->. exists st. split; [done|]. split; [by apply evolves_refl|].
    intros x. rewrite bool_decide_false; [done|]. by intros [?%elem_of_nil _]. }
  apply Forall2_cons_inv_l in Hl as (x & xs' & Hx & Hl & ->).
  assert (exists st1, (if (n =? a)%nat || (n =? b)%nat then Done st else modify st n set_disabled) = Done st1 /\
    evolves st st1 /\ forall y, key_of st1 y = if bool_decide (y = x /\ y <> h /\ y <> w) then set_disabled (key_of st y) else key_of st y)
    as (st1 & -> & He & Hk).
  { pose proof (at_same st n a x h W Hx Ha) as Eh. pose proof (at_same st n b x w W Hx Hb) as Ew.
    destruct (Nat.eqb_spec n a), (Nat.eqb_spec n b); cbn [orb];
      try (exists st; split; [done|]; split; [by apply evolves_refl | intros y; rewrite bool_decide_false; [done | naive_solver]]).
    destruct (modify_spec st n x set_disabled W Hx) as (st1 & -> & He & _ & Hk); [done|]. exists st1. split; [done|]. split; [done|].
    intros y. rewrite Hk. destruct (Z.eqb_spec y x) as [->|]; [rewrite bool_decide_true | rewrite bool_decide_false]; naive_solver. }
  cbn [mbind outcome_bind].
  destruct (IH st1 xs' (proj1 He)) as (st2 & -> & He2 & Hk2); [by apply He | by apply He | by eapply evolves_list |].
  exists st2. split; [done|]. split; [by eapply evolves_trans|]. intros y. rewrite Hk2, Hk.
  destruct (decide (y = x)) as [->|Hne].
  - rewrite (bool_decide_ext (x ∈ x :: xs' /\ x <> h /\ x <> w) (x = x /\ x <> h /\ x <> w)) by set_solver.
    repeat case_bool_decide; done || (exfalso; tauto).
  - rewrite (bool_decide_false (y = x /\ _)) by tauto.
    rewrite (bool_decide_ext (y ∈ x :: xs' /\ y <> h /\ y <> w) (y ∈ xs' /\ y <> h /\ y <> w)) by set_solver. done.
Qed.

Lemma cached_same {D} {DB : KeyDb D} (dbctx : D) st st' :
  evolves st st' -> cached_ok dbctx st ->
  (forall x, sk_gotsigs (key_of st' x) = sk_gotsigs (key_of st x) /\ sk_sigs (key_of st' x) = sk_sigs (key_of st x)) ->
  cached_ok dbctx st' /\ forall x, loaded dbctx st x -> loaded dbctx st' x.
Proof.
  intros He Hc Hk. split.
  - intros x. destruct (Hk x) as [-> ->]. intros Hx. eapply evolves_list; [done | by apply Hc].
  - intros x. unfold loaded. by rewrite (proj1 (Hk x)).
Qed.

Lemma walk_ext {D} {DB : KeyDb D} (dbctx : D) st1 st2 w n x :
  (forall y, usable st1 y -> usable st2 y) -> walk dbctx st1 w n x -> walk dbctx st2 w n x.
Proof. intros Hu Hw. induction Hw; [constructor | econstructor; eauto]. Qed.

Lemma distance_ext {D} {DB : KeyDb D} (dbctx : D) st1 st2 w n x :
  (forall y, usable st1 y <-> usable st2 y) -> distance dbctx st1 w n x -> distance dbctx st2 w n x.
Proof.
  intros Hu (H1 & H2 & H3). split; [done|]. split; [by eapply walk_ext; [apply Hu|]|].
  intros m Hm Hw. apply (H3 m Hm). by eapply walk_ext; [apply Hu|].
Qed.

Lemma sig_path_ext {D} {DB : KeyDb D} (dbctx : D) st1 st2 w p :
  (forall y, usable st1 y -> usable st2 y) -> sig_path dbctx w st1 p -> sig_path dbctx w st2 p.
Proof. intros Hu Hp. induction Hp; constructor; auto. Qed.

Lemma mapM_ids st l xs : wf_state st -> Forall2 (at_ st) l xs ->
  mapM (fun a => k ← node st a; Done (sk_keyid k)) l = Done xs.
Proof.
  intros W. induction 1 as [|a x l xs Ha _ IH]; [done|]. cbn [mapM]. unfold mapM in *. cbn.
  rewrite (at_node st a x) by done. cbn [mbind outcome_bind]. rewrite key_of_id. cbn in IH |- *. by rewrite IH.
Qed.

(** One round: either there is no path, or a shortest one is found and the
    search can go on from a state that is as good. *)
Record round_input {D} {DB : KeyDb D} (dbctx : D) (st : stats_state) (a b : nat) (h w : Z) : Prop := {
  ri_wf : wf_state st;
  ri_cached : cached_ok dbctx st;
  ri_have : at_ st a h;
  ri_want : at_ st b w;
  ri_loaded : loaded dbctx st w
}.

Section Rounds.
Context {D : Type} {DB : KeyDb D}.
Variables (dbctx : D) (h w : Z) (U : list Z) (fuel : nat).
Hypothesis readable : graph_readable dbctx.
Hypothesis ends : h <> w /\ h <> 0 /\ w <> 0.
Hypothesis U_nodup : NoDup U.
Hypothesis U_closed : forall x y, x ∈ U -> y ∈ signers dbctx x -> y ∈ U.
Hypothesis U_size : zlen U < 2 ^ 31.
Hypothesis U_want : w ∈ U.
Hypothesis enough : zlen U + 2 <= Z.of_nat fuel.

Lemma round_input_kept st st' a b :
  round_input dbctx st a b h w -> evolves st st' -> cached_ok dbctx st' -> round_input dbctx st' a b h w.
Proof.
  intros [W Hc Ha Hb Hl] He Hc'. split; [apply He | done | by apply He | by apply He |].
  destruct Hl as [Hl|Hl]; [left; by apply He | by right].
Qed.

(** The search and the walk back of one round. *)
Lemma round_search st a b :
  round_input dbctx st a b h w ->
  exists st3, round_input dbctx st3 a b h w /\ evolves st st3 /\
    (st ← initcolour st true; '(st, _) ← findpath false fuel dbctx st a b; modify st b (fun k => set_mark k (sk_colour k) 0))
      = Done st3 /\
    ((colour st3 h = 0 /\ forall k, ~ walk dbctx st w (S k) h) \/
     exists c l xs, colour st3 h = Z.of_nat c /\ distance dbctx st w c h /\ length xs = c /\
       follow_parents fuel st3 (Some a) = Done l /\ Forall2 (at_ st3) l (h :: xs) /\ sig_path dbctx w st (h :: xs)) /\ flags_kept dbctx st st3.
Proof.
  intros Hin. destruct ends as (Hhw & Hh0 & Hw0). pose proof Hin as [W Hc Ha Hb Hl].
  destruct (initcolour_spec st true W) as (st1 & -> & He1 & _ & Hk1). cbn [mbind outcome_bind].
  destruct (cached_same dbctx st st1 He1 Hc) as [Hc1 Hl1]; [intros x; by rewrite Hk1|].
  assert (Hu : forall y, usable st1 y <-> usable st y) by (intros y; unfold usable; by rewrite Hk1).
  destruct (findpath_spec dbctx st1 a b h w U fuel) as (st2 & cnt & -> & He2 & d & ns & Hs & Hno);
    [done | apply He1 | done | intros x; unfold colour; by rewrite Hk1 | by apply He1 | by apply He1 | by apply Hl1 | done.. | lia |].
  cbn [mbind outcome_bind]. assert (Hb2 : at_ st2 b w) by (by apply He2, He1).
  destruct (modify_spec st2 b w (fun k => set_mark k (sk_colour k) 0) (proj1 He2) Hb2) as (st3 & -> & He3 & _ & Hk3); [done|].
  assert (Hc3 : cached_ok dbctx st3).
  { apply (cached_same dbctx st2 st3 He3 (se_cached _ _ _ _ _ _ _ _ Hs)). intros x. rewrite Hk3.
    by destruct (Z.eqb_spec x w) as [->|]. }
  assert (He : evolves st st3) by eauto using evolves_trans.
  exists st3. split; [by eapply round_input_kept|]. split; [done|]. split; [done|]. split.
  2: { eapply flags_kept_trans; [|eapply flags_kept_trans; [apply (se_kept _ _ _ _ _ _ _ _ Hs)|]]; apply flags_kept_same; intros x;
       [by rewrite Hk1 | rewrite Hk3; by destruct (Z.eqb_spec x w) as [->|]]. }
  assert (Hcol3 : colour st3 h = colour st2 h) by (unfold colour; by rewrite Hk3, (proj2 (Z.eqb_neq h w) Hhw)).
  rewrite Hcol3. destruct (se_colour _ _ _ _ _ _ _ _ Hs h) as [H0|(c & Hcol & Hcd & Hdist & HhU)].
  { left. split; [done|]. intros k Hwk. apply (Hno H0 k). eapply walk_ext; [|exact Hwk]. intros y. apply Hu. }
  right. destruct c as [|c]; [by destruct Hdist as [? _]; lia|].
  destruct (se_depth _ _ _ _ _ _ _ _ Hs) as [Hdep _]. pose proof (se_count _ _ _ _ _ _ _ _ Hs) as Hcnt.
  pose proof (filter_le (fun y => negb (colour st2 y =? 0)) U) as Hle. unfold coloured in Hcnt.
  destruct (follow_parents_spec dbctx w st1 U st2 d ns cnt st3 c fuel a h) as (l & xs & El & Hl3 & Hp & Hlen);
    [done | apply He3 | done | done | done | apply He3 | done | | by eapply at_ids | by apply He | done | lia |].
  { intros x Hx. destruct (decide (x ∈ ids st2)); [done|]. by rewrite key_of_new in Hx. }
  exists (S c), l, xs. split; [done|]. split; [by eapply distance_ext|].
  split_and!; try done. eapply sig_path_ext; [|exact Hp]. intros y. apply Hu.
Qed.

(** A shortest chain of signatures from [h] to [w] over keys usable in [st]. *)
Definition shortest_path (st : stats_state) (p : list Z) : Prop :=
  exists c xs, p = h :: xs /\ sig_path dbctx w st p /\ distance dbctx st w c h /\ length p = S c.

(** The keys that can still be used after the path [p] was found: those inside
    it are disabled, for good, and all others can still be used unless the
    database says that they are revoked. *)
Definition without (st : stats_state) (p : list Z) (st' : stats_state) : Prop :=
  (forall y, y ∈ p -> y <> h -> y <> w -> sk_disabled (key_of st' y) = true) /\
  (forall y, usable st' y -> db_revoked dbctx y = true -> usable st y) /\
  (forall y, usable st y -> db_revoked dbctx y = false -> (y ∈ p -> y = h \/ y = w) -> usable st' y) /\
  (forall y, sk_disabled (key_of st y) = true -> sk_disabled (key_of st' y) = true).

(** What up to [n] rounds find: a shortest path each time, over the keys the
    paths before have left; the search ends when there is none or when the path
    is a single signature. *)
Inductive rounds : nat -> stats_state -> list (list Z) -> Prop :=
  | rounds_over st : rounds 0 st []
  | rounds_none n st : (forall k, ~ walk dbctx st w (S k) h) -> rounds (S n) st []
  | rounds_direct n st p : shortest_path st p -> length p = 2%nat -> rounds (S n) st [p]
  | rounds_path n st p st' ps : shortest_path st p -> length p <> 2%nat -> without st p st' -> rounds n st' ps ->
      rounds (S n) st (p :: ps).

Lemma disabled_without st st3 st4 xs : flags_kept dbctx st st3 ->
  (forall x, key_of st4 x = if bool_decide (x ∈ xs /\ x <> h /\ x <> w) then set_disabled (key_of st3 x) else key_of st3 x) ->
  without st xs st4.
Proof.
  intros Hf Hk. split_and!; intros y; destruct (Hf y) as [Hd Hr]; unfold usable; rewrite Hk; case_bool_decide as Hb.
  - done.
  - tauto.
  - by intros [? _].
  - rewrite Hd. intros [Hdis Hrev] Ht. split; [done|]. destruct Hr as [<- | Hr]; [done | congruence].
  - intros _ _ Hy. tauto.
  - intros [Hdis Hrev] Ht _. rewrite Hd. split; [done|]. destruct Hr as [-> | ->]; done.
  - done.
  - intros H. by rewrite Hd.
Qed.

Lemma dofindpath_loop_spec n : forall st a b,
  round_input dbctx st a b h w ->
  exists st' paths, dofindpath_loop false n fuel dbctx st a b = Done (st', paths) /\ evolves st st' /\ rounds n st paths.
Proof.
  induction n as [|n IH]; intros st a b Hin; cbn [dofindpath_loop].
  { exists st, []. split; [done|]. split; [apply evolves_refl, Hin | constructor]. }
  destruct (round_search st a b Hin) as (st3 & Hin3 & He3 & E & Hres & Hfl).
  destruct (initcolour st true) as [st1|]; [|done]. cbn [mbind outcome_bind] in *.
  destruct (findpath false fuel dbctx st1 a b) as [[st2 cnt]|]; [|done]. cbn [mbind outcome_bind] in *.
  rewrite E. cbn [mbind outcome_bind]. rewrite (at_node st3 a h) by apply Hin3. cbn [mbind outcome_bind].
  fold (colour st3 h). destruct Hres as [[-> Hno]|(c & l & xs & Hc & Hdist & Hlen & -> & Hl & Hp)].
  { exists st3, []. split; [done|]. split; [done|]. by constructor. }
  assert (c <> 0%nat) by (destruct Hdist; lia). rewrite Hc, (proj2 (Z.eqb_neq (Z.of_nat c) 0)) by lia.
  cbn [mbind outcome_bind].
  destruct (disable_path_spec st3 a b h w l (h :: xs) (ri_wf _ _ _ _ _ _ Hin3) (ri_have _ _ _ _ _ _ Hin3) (ri_want _ _ _ _ _ _ Hin3) Hl)
    as (st4 & -> & He4 & Hk4). cbn [mbind outcome_bind].
  rewrite (mapM_ids st4 l (h :: xs)) by (apply He4 || by eapply evolves_list). cbn [mbind outcome_bind].
  assert (Hin4 : round_input dbctx st4 a b h w).
  { eapply round_input_kept; [done | done|]. apply (cached_same dbctx st3 st4 He4 (ri_cached _ _ _ _ _ _ Hin3)).
    intros x. rewrite Hk4. by case_bool_decide. }
  assert (He : evolves st st4) by eauto using evolves_trans.
  assert (Hg : shortest_path st (h :: xs)) by (exists c, xs; cbn; auto).
  destruct (Z.eqb_spec (Z.of_nat c) 1); cbn [mbind outcome_bind].
  - exists st4, [h :: xs]. split; [done|]. split; [done|]. apply rounds_direct; [done | cbn; lia].
  - destruct (IH st4 a b Hin4) as (st5 & paths & -> & He5 & Hps). cbn [mbind outcome_bind].
    exists st5, ((h :: xs) :: paths). split; [done|]. split; [by eapply evolves_trans|].
    apply (rounds_path n st (h :: xs) st4); [done | cbn; lia | by eapply disabled_without | done].
Qed.
End Rounds.

(** * Properties *)

(** The search for a path between two keys, from a state without marks and
    with the target loaded, terminates within one round per key id that can be
    met, and marks the wanted key with the least number of signatures that lead
    from it to the target over usable keys, or not at all if there is no such
    chain; it returns the number of keys it marked. *)
Theorem findpath_shortest {D} {DB : KeyDb D} (dbctx : D) st have want h w U fuel :
  graph_readable dbctx -> wf_state st -> cached_ok dbctx st -> (forall x, colour st x = 0) ->
  at_ st have h -> at_ st want w -> loaded dbctx st w ->
  NoDup U -> (forall x y, x ∈ U -> y ∈ signers dbctx x -> y ∈ U) -> zlen U < 2 ^ 31 -> w ∈ U ->
  zlen U + 1 <= Z.of_nat fuel ->
  exists st' count, findpath false fuel dbctx st have want = Done (st', count) /\
    count = zlen (List.filter (fun y => negb (colour st' y =? 0)) U) /\
    (colour st' h = 0 /\ (forall n, ~ walk dbctx st w (S n) h) \/
     exists c, colour st' h = Z.of_nat c /\ distance dbctx st w c h).
Proof.
  intros Hg W Hc H0 Hh Hw Hl Hnd Hcl Hsz HwU Hf.
  destruct (findpath_spec dbctx st have want h w U fuel) as (st' & cnt & E & He & d & ns & Hs & Hno); try done.
  exists st', cnt. split; [done|]. split; [apply Hs|].
  destruct (se_colour _ _ _ _ _ _ _ _ Hs h) as [?|(c & ? & _ & ? & _)]; [left; auto | right; eauto].
Qed.

(** C20: looking for paths between two keys loads both, and then gives at most as
    many paths as asked for: each is a shortest chain of signatures from the one
    key to the other over the keys that can be used in its round (all but the
    last of its own keys can), and the keys inside it are not used again, while
    every other key that could be used still can unless the database says that
    it is revoked.  It ends early only when there is no such chain or when a path
    is a single signature; there is no path at all only if a key is unknown or
    no chain exists. *)
Theorem dofindpath_correct {D} {DB : KeyDb D} (dbctx : D) st h w U fuel count :
  graph_readable dbctx -> wf_state st -> cached_ok dbctx st ->
  h <> w /\ h <> 0 /\ w <> 0 ->
  NoDup U -> (forall x y, x ∈ U -> y ∈ signers dbctx x -> y ∈ U) -> zlen U < 2 ^ 31 -> w ∈ U ->
  zlen U + 2 <= Z.of_nat fuel ->
  exists st1 st' paths, dofindpath false fuel dbctx st h w count = Done (st', paths) /\
    (forall y, y <> h -> y <> w -> usable st1 y <-> usable st y) /\
    (if bool_decide (h ∈ ids st1 /\ w ∈ ids st1) then rounds dbctx h w (Z.to_nat count) st1 paths else paths = []).
Proof.
  intros Hg W Hc Hends Hnd Hcl Hsz HwU Hf. unfold dofindpath.
  destruct (cached_getkeysigs_spec dbctx st h W Hg Hc) as (sta & la & -> & Hea & Hca & _ & Hma & _). cbn [mbind outcome_bind].
  destruct (cached_getkeysigs_spec dbctx sta w (proj1 Hea) Hg Hca) as (st1 & lb & -> & Heb & Hcb & _ & Hmb & Hlb). cbn [mbind outcome_bind].
  assert (Hu : forall y, y <> h -> y <> w -> usable st1 y <-> usable st y).
  { intros y Hyh Hyw. unfold usable. destruct (Hmb y) as (_ & _ & Hd1 & Hr1 & _), (Hma y) as (_ & _ & Hd2 & Hr2 & _).
    by rewrite Hd1, Hd2, Hr1, Hr2 by auto. }
  exists st1. destruct (findinhash_spec st1 h (proj1 Heb)) as ([a|] & -> & Ha); cbn [mbind outcome_bind].
  2: { exists st1, []. split; [done|]. split; [done|]. by rewrite bool_decide_false by tauto. }
  destruct (findinhash_spec st1 w (proj1 Heb)) as ([b|] & -> & Hb); cbn [mbind outcome_bind].
  2: { exists st1, []. split; [done|]. split; [done|]. by rewrite bool_decide_false by tauto. }
  assert (Hin : round_input dbctx st1 a b h w) by (split; try done; apply Heb).
  destruct (dofindpath_loop_spec dbctx h w U fuel Hg Hends Hnd Hcl Hsz HwU Hf (Z.to_nat count) st1 a b Hin)
    as (st' & paths & -> & _ & Hr).
  exists st', paths. split; [done|]. split; [done|]. rewrite bool_decide_true; [done|]. split; by eapply at_ids.
Qed.

(** Four keys: 3 signs 2, 2 and 4 sign 1. *)
Definition web_key (signers : list Z) : openpgp_publickey :=
  mkKey key_packet false [] [mkSigned (uid_packet 65) (map (v3_sig 0x10 7) signers)] [].

Definition web : list (Z * openpgp_publickey) := [(1, web_key [2; 4]); (2, web_key [3]); (3, web_key [3])].

Definition web_db : KeyDb (list (Z * openpgp_publickey)) := {|
  starttrans := fun d => (d, true);
  endtrans := fun d => d;
  fetch_key := fun d fp _ => (0, []);
  fetch_key_id := fun d id _ =>
    let ks := map snd (List.filter (fun e => e.1 =? id) d) in (zlen ks, ks);
  fetch_key_fp := fun d fp _ => (0, []);
  store_key := fun d k _ _ => (d, 0)
|}.

Definition empty_state : stats_state := inithash (mkState [] [] 0).

Lemma empty_state_wf : wf_state empty_state.
Proof.
  split; [constructor | by vm_compute | |].
  - intros a x (k & Hk & _). by destruct a.
  - intros i l a Hl Ha. apply lookup_replicate in Hl as [-> _]. by apply elem_of_nil in Ha.
Qed.

Lemma empty_state_cached {D} {DB : KeyDb D} (d : D) : cached_ok d empty_state.
Proof. intros x. by rewrite key_of_new by (by intros []%elem_of_nil). Qed.

Lemma web_fetch x : (fetch_key_id (KeyDb := web_db) web x false).2 =
  (if 1 =? x then [web_key [2; 4]] else []) ++ (if 2 =? x then [web_key [3]] else []) ++
  (if 3 =? x then [web_key [3]] else []).
Proof.
  unfold fetch_key_id, web_db. cbn [snd]. unfold web. cbn [List.filter fst].
  by destruct (1 =? x), (2 =? x), (3 =? x).
Qed.

Lemma web_readable : @graph_readable _ web_db web.
Proof.
  intros x k rest. rewrite web_fetch.
  destruct (Z.eqb_spec 1 x), (Z.eqb_spec 2 x), (Z.eqb_spec 3 x); try lia; cbn [app]; intros [= <- <-];
    unfold key_sigs; cbn [web_key pk_uids map sp_sigs concat app];
    repeat (apply Forall_cons; split; [eexists; vm_compute; reflexivity|]); apply Forall_nil_2.
Qed.

Lemma web_closed x y : x ∈ [1; 2; 3; 4] -> y ∈ @signers _ web_db web x -> y ∈ [1; 2; 3; 4].
Proof.
  intros Hx Hy. repeat (apply elem_of_cons in Hx as [->|Hx]; [vm_compute in Hy; set_solver|]). by apply elem_of_nil in Hx.
Qed.

Lemma dofindpath_correct_witness :
  exists st1 st' paths, dofindpath (DB := web_db) false 8 web empty_state 3 1 5 = Done (st', paths) /\
    (if bool_decide (3 ∈ ids st1 /\ 1 ∈ ids st1) then @rounds _ web_db web 3 1 (Z.to_nat 5) st1 paths else paths = []).
Proof.
  destruct (@dofindpath_correct _ web_db web empty_state 3 1 [1; 2; 3; 4] 8 5) as (st1 & st' & paths & E & _ & H).
  - exact web_readable.
  - exact empty_state_wf.
  - apply empty_state_cached.
  - lia.
  - apply (bool_decide_unpack _). vm_compute. exact I.
  - exact web_closed.
  - reflexivity.
  - by left.
  - vm_compute. discriminate.
  - exists st1, st', paths. auto.
Defined.

Lemma findpath_shortest_witness :
  exists st have want st' count, findpath (DB := web_db) false 5 web st have want = Done (st', count) /\
    (colour st' 4 = 0 \/ exists c, colour st' 4 = Z.of_nat c /\ @distance _ web_db web st 1 c 4).
Proof.
  destruct (@cached_getkeysigs_spec _ web_db web empty_state 1 empty_state_wf web_readable (empty_state_cached web))
    as (st & l & _ & He & Hc & Hl & Hm & Hld).
  assert (Hs : @signers _ web_db web 1 = [2; 4]) by (vm_compute; reflexivity). rewrite Hs in Hl.
  destruct Hld as [Hg | Hn]; [|by rewrite Hs in Hn].
  assert (H1 : 1 ∈ ids st) by (destruct (decide (1 ∈ ids st)); [done | by rewrite key_of_new in Hg]).
  apply list_elem_of_lookup in H1 as [want Hw%at_lookup].
  apply Forall2_cons_inv_r in Hl as (have & l' & Hh & _ & ->).
  destruct (@findpath_shortest _ web_db web st have want 4 1 [1; 2; 3; 4] 5) as (st' & count & E & _ & H).
  - exact web_readable.
  - apply He.
  - exact Hc.
  - intros x. unfold colour. destruct (Hm x) as [-> _]. by rewrite key_of_new by (by intros []%elem_of_nil).
  - exact Hh.
  - exact Hw.
  - by left.
  - apply (bool_decide_unpack _). vm_compute. exact I.
  - exact web_closed.
  - reflexivity.
  - by left.
  - vm_compute. discriminate.
  - exists st, have, want, st', count. split; [exact E|]. destruct H as [[? _]|?]; auto.
Defined.

(** A revoked key that has not been loaded before is taken as usable: the flag
    is only known once its own signatures are fetched. *)
Example revoked_key_in_path :
  let d := [(1, web_key [2]); (2, set_pk_revoked (web_key [3]) true); (3, web_key [3])] in
  exists st, dofindpath (DB := web_db) false 8 d empty_state 3 1 1 = Done (st, [[3; 2; 1]]).
Proof. eexists. vm_compute. reflexivity. Qed.
