(* ===== verification/Words.v ===== *)
(** Search words (wordlist.c): the words of a text, and those of the user ids of
    a key.

    The function works in place: it lowers the letters, puts a NUL behind each
    word and collects pointers.  The words lie apart and each ends in a NUL, so
    here they are values. *)

From Stdlib Require Import String.
From S2P Require Import Prelude CLib OpenPGP Decode SksHash Stats.

(** * Characters of the C locale *)

Definition ispunct (c : Z) : bool :=
  ((33 <=? c) && (c <=? 47)) || ((58 <=? c) && (c <=? 64)) ||
  ((91 <=? c) && (c <=? 96)) || ((123 <=? c) && (c <=? 126)).

Definition separator (c : Z) : bool := ispunct c || isspace c.

Definition strcmp (a b : list Z) : Z := lex (c_string a) (c_string b).

(** * Operations *)

(** The first scan, over what satisfies [f]. *)
Fixpoint skip_while (f : Z -> bool) (s : list Z) : list Z :=
  match s with
  | c :: rest => if f c then skip_while f rest else s
  | [] => []
  end.

(** The second scan: the lowered word and what is behind it. *)
Fixpoint scan_word (s : list Z) : list Z * list Z :=
  match s with
  | c :: rest =>
      if negb (separator c) then let '(w, rest) := scan_word rest in (tolower c :: w, rest) else ([], s)
  | [] => ([], [])
  end.

Fixpoint makewordlist_loop (fuel : nat) (wordlist : list (list Z)) (s : list Z) : outcome (list (list Z)) :=
  match s with
  | [] => Done wordlist
  | _ =>
      match fuel with
      | O => Fault OutOfFuel
      | S fuel =>
          let '(w, rest) := scan_word (skip_while separator s) in
          if 1 <? zlen w then
            let rest := drop 1 rest in
            found ← llfind wordlist (fun object => Done (strcmp object w));
            match found with
            | [] => makewordlist_loop fuel (lladdend wordlist w) rest
            | _ => makewordlist_loop fuel wordlist rest
            end
          else makewordlist_loop fuel wordlist rest
      end
  end.

Definition makewordlist (wordlist : list (list Z)) (word : list Z) : outcome (list (list Z)) :=
  makewordlist_loop (S (length word)) wordlist (c_string word).

(** The inner loop of [makewordlistfromkey]. *)
Fixpoint add_words (wordlist words : list (list Z)) : outcome (list (list Z)) :=
  match words with
  | [] => Done wordlist
  | w :: words =>
      found ← llfind wordlist (fun object => Done (strcmp object w));
      match found with
      | [] => add_words (lladd wordlist w) words
      | _ => add_words wordlist words
      end
  end.

Fixpoint add_uids (wordlist uids : list (list Z)) : outcome (list (list Z)) :=
  match uids with
  | [] => Done wordlist
  | uid :: uids =>
      words ← makewordlist [] uid;
      wordlist ← add_words wordlist words;
      add_uids wordlist uids
  end.

Definition makewordlistfromkey (wordlist : list (list Z)) (key : openpgp_publickey) : outcome (list (list Z)) :=
  '(uids, _) ← keyuids key;
  add_uids wordlist (default [] uids).

(** * The words of a text *)

(** The parts between separators. *)
Fixpoint fields (s : list Z) : list (list Z) :=
  match s with
  | [] => [[]]
  | c :: s =>
      if separator c then [] :: fields s
      else match fields s with
           | f :: fs => (c :: f) :: fs
           | [] => [[c]]
           end
  end.

(** Those of at least two characters, in lower case. *)
Definition words_of (s : list Z) : list (list Z) :=
  filter (fun w => (2 <= length w)%nat) (map (map tolower) (fields s)).

(** A new word goes to the end. *)
Definition add_word (wl : list (list Z)) (w : list Z) : list (list Z) :=
  if bool_decide (w ∈ wl) then wl else wl ++ [w].

Definition plain (s : list Z) : Prop := Forall (fun c => separator c = false) s.

Lemma fields_plain m : plain m -> fields m = [m].
Proof. induction 1 as [|c m Hc _ IH]; [done|]. cbn [fields]. by rewrite Hc, IH. Qed.

Lemma fields_sep m c s : plain m -> separator c = true -> fields (m ++ c :: s) = m :: fields s.
Proof.
  intros Hm Hc. induction Hm as [|x m Hx _ IH]; cbn [fields app]; [by rewrite Hc|]. by rewrite Hx, IH.
Qed.

Lemma words_of_skip s : words_of (skip_while separator s) = words_of s.
Proof.
  induction s as [|c s IH]; [done|]. cbn [skip_while]. destruct (separator c) eqn:Ec; [|done].
  rewrite IH. unfold words_of. cbn [fields]. by rewrite Ec.
Qed.

Lemma skip_while_length f s : (length (skip_while f s) <= length s)%nat.
Proof. induction s as [|c s IH]; cbn; [done|]. destruct (f c); cbn; lia. Qed.

(** The scan splits the text behind a word. *)
Lemma scan_word_spec s : exists m rest,
  s = m ++ rest /\ plain m /\ scan_word s = (map tolower m, rest) /\
  match rest with [] => True | c :: _ => separator c = true end.
Proof.
  induction s as [|c s (m & rest & -> & Hm & E & Hr)]; [by exists [], []; split_and!; try constructor|].
  destruct (separator c) eqn:Ec.
  - exists [], (c :: m ++ rest). cbn [scan_word]. rewrite Ec. split_and!; by try constructor.
  - exists (c :: m), rest. cbn [scan_word]. rewrite Ec, E. split_and!; try done. by constructor.
Qed.

Lemma words_of_app m rest :
  plain m -> match rest with [] => True | c :: _ => separator c = true end ->
  words_of (m ++ rest) =
  (if (1 <? zlen m) then [map tolower m] else []) ++ words_of (drop 1 rest).
Proof.
  intros Hm Hr. unfold words_of. destruct rest as [|c rest].
  - rewrite app_nil_r, fields_plain by done. cbn [map drop fields]. rewrite filter_cons, length_map.
    unfold zlen. destruct (Z.ltb_spec 1 (Z.of_nat (length m))).
    + by rewrite decide_True by lia.
    + by rewrite decide_False by lia.
  - rewrite fields_sep by done. cbn [map drop]. rewrite drop_0, filter_cons, length_map.
    unfold zlen. destruct (Z.ltb_spec 1 (Z.of_nat (length m))).
    + by rewrite decide_True by lia.
    + by rewrite decide_False by lia.
Qed.

Lemma words_of_sep rest :
  match rest with [] => True | c :: _ => separator c = true end -> words_of (drop 1 rest) = words_of rest.
Proof. destruct rest as [|c rest]; [done|]. intros Hc. unfold words_of. cbn [fields drop]. by rewrite Hc, drop_0. Qed.

(** * Comparison of words *)

Definition no_nul (w : list Z) : Prop := Forall (fun c => c <> 0) w.

Lemma c_string_no_nul s : no_nul (c_string s).
Proof. induction s as [|c s IH]; cbn; [constructor|]. destruct (Z.eqb_spec c 0); by constructor. Qed.

Lemma c_string_same s : no_nul s -> c_string s = s.
Proof. induction 1 as [|c s Hc _ IH]; cbn; [done|]. destruct (Z.eqb_spec c 0); [done | by rewrite IH]. Qed.

Lemma lex_refl a : lex a a = 0.
Proof. induction a as [|x a IH]; [done|]. cbn. by rewrite Z.ltb_irrefl. Qed.

Lemma strcmp_eq a b : no_nul a -> no_nul b -> strcmp a b = 0 <-> a = b.
Proof.
  intros Ha Hb. unfold strcmp. rewrite !c_string_same by done. split; [apply lex_eq|]. intros ->. apply lex_refl.
Qed.

Lemma llfind_word wl w :
  Forall no_nul wl -> no_nul w ->
  exists r, llfind wl (fun object => Done (strcmp object w)) = Done r /\ (r = [] <-> w ∉ wl).
Proof.
  intros Hwl Hw. induction Hwl as [|x wl Hx Hwl (r & E & Hr)]; cbn [llfind mbind outcome_bind].
  { exists []. split; [done|]. split; [intros _; apply not_elem_of_nil | done]. }
  pose proof (strcmp_eq x w Hx Hw). destruct (Z.eqb_spec (strcmp x w) 0) as [E0|E0].
  - exists (x :: wl). split; [done|]. rewrite not_elem_of_cons. naive_solver.
  - exists r. split; [done|]. rewrite not_elem_of_cons. naive_solver.
Qed.

Lemma no_nul_app a b : no_nul (a ++ b) <-> no_nul a /\ no_nul b.
Proof. apply Forall_app. Qed.

Lemma no_nul_skip f s : no_nul s -> no_nul (skip_while f s).
Proof. induction 1 as [|c s Hc Hs IH]; cbn; [constructor|]. destruct (f c); [done | by constructor]. Qed.

Lemma no_nul_lower m : no_nul m -> no_nul (map tolower m).
Proof.
  intros Hm. apply Forall_map. eapply Forall_impl; [exact Hm|]. intros c Hc. cbn in *. unfold tolower.
  destruct (Z.leb_spec 65 c), (Z.leb_spec c 90); cbn [andb]; lia.
Qed.

Lemma words_of_no_nul s : no_nul s -> Forall no_nul (words_of s).
Proof.
  intros Hs. unfold words_of. apply list.Forall_forall. intros w [_ Hw]%list_elem_of_filter. revert w Hw.
  apply list.Forall_forall. rewrite Forall_map.
  assert (Hf : Forall no_nul (fields s)).
  { induction Hs as [|c s Hc Hs IH]; cbn [fields]; [repeat constructor|].
    destruct (separator c); [by constructor; [constructor|]|].
    destruct IH; repeat constructor; done. }
  eapply Forall_impl; [exact Hf|]. intros m. apply no_nul_lower.
Qed.

(** * Correctness *)

Lemma add_word_no_nul ws : forall wl, Forall no_nul wl -> Forall no_nul ws -> Forall no_nul (foldl add_word wl ws).
Proof.
  induction ws as [|w ws IH]; intros wl Hwl Hws; [done|]. inversion Hws; subst. cbn [foldl]. apply IH; [|done].
  unfold add_word. case_bool_decide; [done|]. apply Forall_app. by repeat constructor.
Qed.

Lemma add_word_found wl w (r : list (list Z)) :
  (r = [] <-> w ∉ wl) -> add_word wl w = match r with [] => lladdend wl w | _ => wl end.
Proof.
  intros Hr. unfold add_word, lladdend. case_bool_decide as Hw; destruct r; try done.
  - exfalso. by apply Hr.
  - exfalso. by apply Hr in Hw.
Qed.

Lemma makewordlist_loop_spec fuel : forall wl s,
  (length s <= fuel)%nat -> Forall no_nul wl -> no_nul s ->
  makewordlist_loop fuel wl s = Done (foldl add_word wl (words_of s)).
Proof.
  induction fuel as [|fuel IH]; intros wl s Hl Hwl Hs; (destruct s as [|c s]; [done|]); [cbn in Hl; lia|].
  cbn [makewordlist_loop]. rewrite <- words_of_skip.
  assert (Hs1 := no_nul_skip separator (c :: s) Hs).
  assert (Hlen := skip_while_length separator (c :: s)).
  assert (Hnext : match skip_while separator (c :: s) with [] => True | x :: _ => separator x = false end).
  { clear. induction (c :: s) as [|x l IH]; cbn; [done|]. destruct (separator x) eqn:E; done. }
  destruct (scan_word_spec (skip_while separator (c :: s))) as (m & rest & Em & Hm & -> & Hr).
  rewrite Em in *. apply no_nul_app in Hs1 as [Hm0 Hr0]. rewrite words_of_app by done.
  rewrite length_app in Hlen. cbn [length] in Hl, Hlen.
  assert (Hlr : (length (drop 1 rest) <= fuel)%nat).
  { rewrite length_drop. lia. }
  assert (no_nul (drop 1 rest)) by by apply Forall_drop.
  unfold zlen. rewrite length_map. destruct (Z.ltb_spec 1 (Z.of_nat (length m))); cbn [app foldl].
  - destruct (llfind_word wl (map tolower m)) as (r & -> & Hr1); [done | by apply no_nul_lower|].
    cbn [mbind outcome_bind]. rewrite (add_word_found wl _ r Hr1).
    destruct r; apply IH; try done. apply Forall_app. split; [done|]. repeat constructor. by apply no_nul_lower.
  - rewrite IH, words_of_sep; [done | done | | done | done].
    destruct rest as [|x rest]; [cbn; lia|]. destruct m as [|y m]; [cbn in Hnext; congruence|].
    cbn [length] in *. lia.
Qed.

(** [makewordlist] adds to the list, in their order and each once, the words
    of the text: the parts between punctuation and spaces that have two
    characters or more, in lower case. *)
Theorem makewordlist_correct wl s :
  Forall no_nul wl -> makewordlist wl s = Done (foldl add_word wl (words_of (c_string s))).
Proof.
  intros Hwl. apply makewordlist_loop_spec; [|done | apply c_string_no_nul].
  assert (length (c_string s) <= length s)%nat; [|lia].
  induction s as [|c s IH]; cbn; [done|]. destruct (c =? 0); cbn; lia.
Qed.

Lemma makewordlist_correct_witness :
  makewordlist [str "ann"] (str "Ann B. Smith <ann@Example.org>") =
  Done [str "ann"; str "smith"; str "example"; str "org"].
Proof. apply (makewordlist_correct [str "ann"] (str "Ann B. Smith <ann@Example.org>")). repeat constructor; done. Defined.
