(* ===== verification/Db4.v ===== *)
(** The Berkeley DB backend (keydb/keydb_db4.c): keys under their fingerprint in
    a number of hash tables, and five indices from words, key ids, SKS hashes
    and subkeys to fingerprints.

    The library is a parameter, [Bdb]: the calls the backend makes on a table,
    with the result codes the library gives.  Its documented behaviour for a
    table that nobody else has locked is [BdbLaws].  Failure to begin or to
    commit a transaction ends the program and is left out. *)

From S2P Require Import Prelude OpenPGP Streams Packets Keys KeyId Decode SksHash KeyBuffer KeyArray Stats Words.

(** * The library *)

(** [T] is the state of a table.  [bdb_get_both] and [bdb_c_del] are the cursor
    operations [c_get(DB_GET_BOTH)] and [c_del] of the record that was found;
    [bdb_dups] the records a cursor gives for [DB_SET] and then [DB_NEXT_DUP],
    [bdb_from] those for [DB_SET] and then [DB_NEXT], and [bdb_all] those for
    [DB_NEXT] from the start. *)
Class Bdb (T : Type) : Type := {
  DB_NOTFOUND : Z;
  DB_LOCK_DEADLOCK : Z;
  DB_BUFFER_SMALL : Z;
  bdb_get : T -> list Z -> Z * list Z;
  bdb_put : T -> list Z -> list Z -> T * Z;
  bdb_del : T -> list Z -> T * Z;
  bdb_cursor : T -> Z;
  bdb_get_both : T -> list Z -> list Z -> Z;
  bdb_c_del : T -> list Z -> list Z -> T * Z;
  bdb_dups : T -> list Z -> list (list Z);
  bdb_from : T -> list Z -> list (list Z * list Z);
  bdb_all : T -> list (list Z * list Z)
}.

(** The tables of [struct onak_db4_dbctx]. *)
Inductive table : Type :=
  | KeyData (i : nat)
  | WordDb
  | Id32Db
  | Id64Db
  | SksHashDb
  | SubkeyDb.

#[global] Instance table_eq_dec : EqDecision table.
Proof. solve_decision. Defined.

(** * State *)

Section Db4.
Context {T : Type} {B : Bdb T} {HF : Hashes} {BC : BuildConfig}.
Variable malloc_ok : Z -> bool.

Record db4 : Type := mkDb4 {
  db_tables : table -> T;
  db_numdbs : Z;
  db_txn : bool
}.

Definition set_table (db : db4) (t : table) (x : T) : db4 :=
  mkDb4 (fun t' => if decide (t' = t) then x else db_tables db t') (db_numdbs db) (db_txn db).

Definition set_txn (db : db4) (txn : bool) : db4 := mkDb4 (db_tables db) (db_numdbs db) txn.

(** Programs over the database. *)
Definition dbM (A : Type) : Type := db4 -> outcome (db4 * A).

#[global] Instance dbM_ret : MRet dbM := fun A a db => Done (db, a).
#[global] Instance dbM_bind : MBind dbM := fun A A' f m db => '(db, a) ← m db; f a db.

Definition lift {A} (m : outcome A) : dbM A := fun db => a ← m; Done (db, a).
Definition when (b : bool) (m : dbM ()) : dbM () := if b then m else mret ().

Definition get (t : table) (k : list Z) : dbM (Z * list Z) := fun db => Done (db, bdb_get (db_tables db t) k).
Definition put (t : table) (k d : list Z) : dbM Z := fun db =>
  let '(x, ret) := bdb_put (db_tables db t) k d in Done (set_table db t x, ret).
Definition del (t : table) (k : list Z) : dbM Z := fun db =>
  let '(x, ret) := bdb_del (db_tables db t) k in Done (set_table db t x, ret).
Definition cursor (t : table) : dbM Z := fun db => Done (db, bdb_cursor (db_tables db t)).

(** A cursor whose creation is not checked is NULL if it failed. *)
Definition use_cursor (t : table) : dbM () := ret ← cursor t; lift (if ret =? 0 then Done () else Fault NullDeref).

(** A record is looked for with [DB_GET_BOTH] and deleted. *)
Definition del_both (t : table) (k d : list Z) : dbM Z := fun db =>
  let ret := bdb_get_both (db_tables db t) k d in
  if ret =? 0 then let '(x, ret) := bdb_c_del (db_tables db t) k d in Done (set_table db t x, ret)
  else Done (db, ret).

(** [get] into a buffer of [MAX_FINGERPRINT_LEN] octets. *)
Definition get_fp (t : table) (k : list Z) : dbM (Z * list Z) :=
  '(ret, data) ← get t k;
  mret (if (ret =? 0) && (MAX_FINGERPRINT_LEN <? zlen data) then (DB_BUFFER_SMALL, []) else (ret, data)).

(** * Transactions *)

Definition db4_starttrans : dbM () := fun db =>
  if db_txn db then Fault AssertFailed else Done (set_txn db true, ()).

Definition db4_endtrans : dbM () := fun db =>
  if db_txn db then Done (set_txn db false, ()) else Fault AssertFailed.

(** [m] in a transaction of its own, or inside the caller's. *)
Definition transaction {A} (intrans : bool) (m : dbM A) : dbM A :=
  _ ← when (negb intrans) db4_starttrans;
  result ← m;
  _ ← when (negb intrans) db4_endtrans;
  mret result.

(** * Lookups *)

(** The table a key is stored in; [fp->fp] is an array of 32 octets, of which
    those behind the fingerprint have no value. *)
Definition keydb_fp (fp : openpgp_fingerprint) : dbM table := fun db =>
  match drop 4 (fp_bytes fp) with
  | a :: b :: c :: d :: _ =>
      if db_numdbs db <=? 0 then Fault OutOfBounds
      else
        let keytrun := Z.lor (Z.shiftl (Z.lor (Z.shiftl (Z.lor (Z.shiftl a 8) b) 8) c) 8) d in
        Done (db, KeyData (Z.to_nat (keytrun mod db_numdbs db)))
  | _ => Fault Uninitialised
  end.

(** Keys are appended to [publickey]. *)
Definition db4_fetch_key_int (fingerprint : openpgp_fingerprint) (publickey : list openpgp_publickey)
    (intrans dosubkey : bool) : dbM (Z * list openpgp_publickey) :=
  transaction intrans
    (t ← keydb_fp fingerprint;
     r ← get t (fp_bytes fingerprint);
     '(ret, data) ←
       (if (r.1 =? DB_NOTFOUND) && dosubkey then
          sub ← get_fp SubkeyDb (fp_bytes fingerprint);
          if sub.1 =? 0 then
            t ← keydb_fp (mkFingerprint (zlen sub.2) sub.2);
            get t sub.2
          else mret sub
        else mret r);
     if ret =? 0 then
       keys ← lift (keys_of_buffer malloc_ok data publickey);
       mret (1, keys)
     else mret (0, publickey)).

Definition db4_fetch_key (fp : openpgp_fingerprint) (publickey : list openpgp_publickey) (intrans : bool) :=
  db4_fetch_key_int fp publickey intrans false.

Definition db4_fetch_key_fp (fp : openpgp_fingerprint) (publickey : list openpgp_publickey) (intrans : bool) :=
  db4_fetch_key_int fp publickey intrans true.

(** The cursor's records, as long as they fit into a fingerprint. *)
Fixpoint fetch_dups (fps : list (list Z)) (publickey : list openpgp_publickey) (numkeys : Z)
    : dbM (Z * list openpgp_publickey) :=
  match fps with
  | [] => mret (numkeys, publickey)
  | fp :: fps =>
      if MAX_FINGERPRINT_LEN <? zlen fp then mret (numkeys, publickey)
      else
        '(n, publickey) ← db4_fetch_key_fp (mkFingerprint (zlen fp) fp) publickey true;
        fetch_dups fps publickey (if n =? 0 then numkeys else i32 (numkeys + 1))
  end.

Definition shortkeyid (keyid : Z) : Z := Z.land keyid 0xFFFFFFFF.

(** The error return leaves the transaction open. *)
Definition db4_fetch_key_id (keyid : Z) (publickey : list openpgp_publickey) (intrans : bool)
    : dbM (Z * list openpgp_publickey) :=
  _ ← when (negb intrans) db4_starttrans;
  let '(t, k) :=
    if keyid <? 0x100000000 then (Id32Db, le_bytes 4 (shortkeyid keyid)) else (Id64Db, le_bytes 8 keyid) in
  ret ← cursor t;
  if negb (ret =? 0) then mret (0, publickey)
  else
    dups ← (fun db => Done (db, bdb_dups (db_tables db t) k));
    result ← fetch_dups dups publickey 0;
    _ ← when (negb intrans) db4_endtrans;
    mret result.

(** The records of a word: those of fingerprints in [keylist] are collected,
    on the first pass all. *)
Fixpoint word_records (records : list (list Z * list Z)) (word : list Z) (firstpass : bool)
    (keylist newkeylist : keyarray) : outcome keyarray :=
  match records with
  | [] => Done newkeylist
  | (k, data) :: records =>
      if bool_decide (k = word) then
        if MAX_FINGERPRINT_LEN <? zlen data then Fault OutOfBounds
        else
          let fp := mkFingerprint (zlen data) data in
          found ← (if firstpass then Done true else array_find keylist fp);
          '(newkeylist, _) ← (if (found : bool) then array_add newkeylist fp else Done (newkeylist, false));
          word_records records word firstpass keylist newkeylist
      else Done newkeylist
  end.

Fixpoint text_words (wordlist : list (list Z)) (firstpass : bool) (keylist : keyarray) : dbM keyarray :=
  match wordlist with
  | [] => mret keylist
  | word :: wordlist =>
      _ ← db4_starttrans;
      ret ← cursor WordDb;
      if negb (ret =? 0) then _ ← db4_endtrans; mret keylist
      else
        records ← (fun db => Done (db, bdb_from (db_tables db WordDb) word));
        keylist ← lift (word_records records word firstpass keylist (mkArray [] 0 0));
        _ ← db4_endtrans;
        text_words wordlist false keylist
  end.

Fixpoint fetch_all (fps : list openpgp_fingerprint) (publickey : list openpgp_publickey) (numkeys : Z)
    : dbM (Z * list openpgp_publickey) :=
  match fps with
  | [] => mret (numkeys, publickey)
  | fp :: fps =>
      '(n, publickey) ← db4_fetch_key_fp fp publickey true;
      fetch_all fps publickey (i32 (numkeys + n))
  end.

Definition db4_fetch_key_text (maxkeys : Z) (search : list Z) (publickey : list openpgp_publickey)
    : dbM (Z * list openpgp_publickey) :=
  wordlist ← lift (makewordlist [] search);
  keylist ← text_words wordlist true (mkArray [] 0 0);
  let count := if u64 maxkeys <? ka_count keylist then u64 maxkeys else ka_count keylist in
  _ ← db4_starttrans;
  result ← fetch_all (take (Z.to_nat count) (ka_keys keylist)) publickey 0;
  _ ← db4_endtrans;
  mret result.

Definition db4_fetch_key_skshash (hash : list Z) (publickey : list openpgp_publickey)
    : dbM (Z * list openpgp_publickey) :=
  ret ← cursor SksHashDb;
  if negb (ret =? 0) then mret (0, publickey)
  else
    '(ret, fp) ← get_fp SksHashDb hash;
    if ret =? 0 then db4_fetch_key_fp (mkFingerprint (zlen fp) fp) publickey false
    else mret (0, publickey).

(** * Deletion *)

(** The result of an operation that failed, other than for a missing record. *)
Definition deadlocked (deadlock : bool) (ret : Z) : bool := deadlock || (ret =? DB_LOCK_DEADLOCK).

Fixpoint delete_words (wordlist : list (list Z)) (fp : list Z) : dbM bool :=
  match wordlist with
  | [] => mret false
  | word :: wordlist =>
      ret ← del_both WordDb word fp;
      if deadlocked false ret then mret true else delete_words wordlist fp
  end.

(** The two key id indices. *)
Definition delete_keyid (keyid : Z) (fp : list Z) (deadlock : bool) : dbM bool :=
  ret ← del_both Id32Db (le_bytes 4 (shortkeyid keyid)) fp;
  ret' ← del_both Id64Db (le_bytes 8 keyid) fp;
  mret (deadlocked (deadlocked deadlock ret) ret').

(** [while (subkeyids != NULL && subkeyids[i].length != 0)] *)
Fixpoint delete_subkeys (subkeyids : list openpgp_fingerprint) (fp : list Z) (deadlock : bool) : dbM bool :=
  match subkeyids with
  | [] => mret deadlock
  | sub :: subkeyids =>
      if fp_length sub =? 0 then mret deadlock
      else
        subkeyid ← lift (fingerprint2keyid sub);
        ret ← del SubkeyDb (fp_bytes sub);
        deadlock ← delete_keyid subkeyid fp (deadlocked deadlock ret);
        delete_subkeys subkeyids fp deadlock
  end.

(** The words of all user ids. *)
Fixpoint uid_words (wordlist : list (list Z)) (uids : list (list Z)) : outcome (list (list Z)) :=
  match uids with
  | [] => Done wordlist
  | uid :: uids => wordlist ← makewordlist wordlist uid; uid_words wordlist uids
  end.

Definition delete_uids (key : openpgp_publickey) (fp : list Z) : dbM bool :=
  '(uids, _) ← lift (keyuids key);
  match uids with
  | None => mret false
  | Some uids =>
      wordlist ← lift (uid_words [] uids);
      _ ← use_cursor WordDb;
      delete_words wordlist fp
  end.

Definition delete_ids (key : openpgp_publickey) (keyid : Z) (fp : list Z) : dbM bool :=
  _ ← use_cursor Id32Db;
  _ ← use_cursor Id64Db;
  deadlock ← delete_keyid keyid fp false;
  subkeyids ← lift (keysubkeys key);
  delete_subkeys (default [] subkeyids) fp deadlock.

(** The last result code, and whether there was a deadlock. *)
Definition delete_skshash (key : openpgp_publickey) (fp : list Z) : dbM (Z * bool) :=
  ret ← cursor SksHashDb;
  if ret =? 0 then
    '(_, hash) ← lift (get_skshash key);
    ret ← del_both SksHashDb hash fp;
    mret (ret, deadlocked false ret)
  else mret (ret, false).

(** The index entries of the key that was found, and its data. *)
Definition delete_found (key : openpgp_publickey) (keyid : Z) (fp : openpgp_fingerprint) : dbM Z :=
  deadlock ← delete_uids key (fp_bytes fp);
  deadlock ← (if (deadlock : bool) then mret true else delete_ids key keyid (fp_bytes fp));
  '(ret, deadlock) ← (if (deadlock : bool) then mret (0, true) else delete_skshash key (fp_bytes fp));
  _ ← (if (deadlock : bool) then mret 0 else t ← keydb_fp fp; del t (fp_bytes fp));
  mret (if (deadlock : bool) then -1 else if ret =? DB_NOTFOUND then 1 else 0).

(** The result, and whether the transaction is ended: the return for a key
    without a key id leaves it open. *)
Definition delete_body (fp : openpgp_fingerprint) : dbM (Z * bool) :=
  '(n, publickey) ← db4_fetch_key_fp fp [] true;
  if n =? 0 then mret (1, true)
  else
    match publickey with
    | [] => lift (Fault NullDeref)
    | key :: _ =>
        '(rc, keyid) ← lift (get_keyid key);
        match rc, keyid with
        | ONAK_E_OK, Some keyid => ret ← delete_found key keyid fp; mret (ret, true)
        | _, _ => mret (1, false)
        end
    end.

Definition db4_delete_key (fp : openpgp_fingerprint) (intrans : bool) : dbM Z :=
  _ ← when (negb intrans) db4_starttrans;
  '(ret, ends) ← delete_body fp;
  _ ← when (negb intrans && ends) db4_endtrans;
  mret ret.

(** * Storing *)

Fixpoint store_words (wordlist : list (list Z)) (fp : list Z) : dbM bool :=
  match wordlist with
  | [] => mret false
  | word :: wordlist =>
      ret ← put WordDb word fp;
      if deadlocked false ret then mret true else store_words wordlist fp
  end.

(** [ret] is the result of storing the key. *)
Definition store_uids (key : openpgp_publickey) (fp : list Z) (ret : Z) : dbM bool :=
  '(uids, _) ← lift (keyuids key);
  match uids with
  | None => mret false
  | Some uids =>
      wordlist ← (if ret =? 0 then lift (uid_words [] uids) else mret []);
      store_words wordlist fp
  end.

Definition store_keyid (keyid : Z) (fp : list Z) : dbM bool :=
  ret ← put Id32Db (le_bytes 4 (shortkeyid keyid)) fp;
  if deadlocked false ret then mret true
  else ret ← put Id64Db (le_bytes 8 keyid) fp; mret (deadlocked false ret).

Fixpoint store_subkeys (subkeyids : list openpgp_fingerprint) (fp : list Z) (deadlock : bool) : dbM bool :=
  match subkeyids with
  | [] => mret deadlock
  | sub :: subkeyids =>
      if fp_length sub =? 0 then mret deadlock
      else
        ret ← put SubkeyDb (fp_bytes sub) fp;
        keyid ← lift (fingerprint2keyid sub);
        ret' ← put Id64Db (le_bytes 8 keyid) fp;
        ret'' ← put Id32Db (le_bytes 4 (shortkeyid keyid)) fp;
        store_subkeys subkeyids fp (deadlocked (deadlocked (deadlocked deadlock ret) ret') ret'')
  end.

(** What is left to do once the key itself is stored. *)
Definition store_indices (key : openpgp_publickey) (keyid : Z) (fp : list Z) (ret : Z) : dbM bool :=
  deadlock ← store_uids key fp ret;
  deadlock ← (if (deadlock : bool) then mret true else store_keyid keyid fp);
  deadlock ← (if (deadlock : bool) then mret true
              else subkeyids ← lift (keysubkeys key); store_subkeys (default [] subkeyids) fp false);
  if (deadlock : bool) then mret true
  else
    '(_, hash) ← lift (get_skshash key);
    ret ← put SksHashDb hash fp;
    mret (deadlocked false ret).

Definition db4_store_key (key : openpgp_publickey) (intrans update : bool) : dbM Z :=
  '(rc, keyid) ← lift (get_keyid key);
  match rc, keyid with
  | ONAK_E_OK, Some keyid =>
      '(rc, fp) ← lift (get_fingerprint (pk_publickey key));
      if negb (status_ok rc) then mret 0
      else
        _ ← when (negb intrans) db4_starttrans;
        ret ← (if update then db4_delete_key fp true else mret 0);
        deadlock ←
          (if update && (ret =? -1) then mret true
           else
             data ← lift (buffer_of_keys [key]);
             t ← keydb_fp fp;
             ret ← put t (fp_bytes fp) data;
             if deadlocked false ret then mret true
             else store_indices key keyid (fp_bytes fp) ret);
        _ ← when (negb intrans) db4_endtrans;
        mret (if (deadlock : bool) then -1 else 0)
  | _, _ => mret 0
  end.

(** * Iteration *)

(** What [iterfunc] is called with, NULL for data without a key. *)
Fixpoint iterate_records (records : list (list Z * list Z)) : outcome (list (option openpgp_publickey)) :=
  match records with
  | [] => Done []
  | (_, data) :: records =>
      keys ← keys_of_buffer malloc_ok data [];
      rest ← iterate_records records;
      Done (head keys :: rest)
  end.

Fixpoint iterate_tables (i n : nat) : dbM (list (option openpgp_publickey)) :=
  match n with
  | O => mret []
  | S n =>
      ret ← cursor (KeyData i);
      keys ← (if ret =? 0 then fun db => keys ← iterate_records (bdb_all (db_tables db (KeyData i))); Done (db, keys)
              else mret []);
      rest ← iterate_tables (S i) n;
      mret (keys ++ rest)
  end.

Definition db4_iterate_keys : dbM (list (option openpgp_publickey) * Z) := fun db =>
  '(db, keys) ← iterate_tables 0 (Z.to_nat (db_numdbs db)) db;
  Done (db, (keys, i32 (zlen keys))).
End Db4.
