(* ===== verification/Db4Facts.v ===== *)
(** The tables of the Berkeley DB backend as a map from fingerprints to keys:
    the invariant that ties the five indices to the stored keys, and what
    lookups, storing and deletion do to the map. *)

From stdpp Require Import gmap.
From S2P Require Import Prelude OpenPGP Streams Packets Keys KeyId Decode SksHash KeyBuffer KeyArray Words Db4.

(** * Occurrences in a list *)

Section Occ.
Context {A : Type} `{EqDecision A}.

Definition occ (x : A) (l : list A) : nat := length (filter (fun y => y = x) l).

Fixpoint remove_first (x : A) (l : list A) : list A :=
  match l with
  | [] => []
  | y :: l => if decide (y = x) then l else y :: remove_first x l
  end.

Lemma occ_nil x : occ x [] = O.
Proof. done. Qed.

Lemma occ_cons x y l : occ x (y :: l) = ((if decide (y = x) then 1 else 0) + occ x l)%nat.
Proof. unfold occ. rewrite filter_cons. by destruct (decide (y = x)). Qed.

Lemma occ_app x l1 l2 : occ x (l1 ++ l2) = (occ x l1 + occ x l2)%nat.
Proof. unfold occ. by rewrite filter_app, length_app. Qed.

Lemma occ_elem x l : x ∈ l <-> (0 < occ x l)%nat.
Proof.
  induction l as [|y l IH]; [rewrite occ_nil; split; [by intros ?%elem_of_nil | lia]|].
  rewrite occ_cons, elem_of_cons, IH. destruct (decide (y = x)); naive_solver lia.
Qed.

Lemma occ_remove x y l : occ y (remove_first x l) = (occ y l - (if decide (y = x) then 1 else 0))%nat.
Proof.
  induction l as [|z l IH]; cbn [remove_first]; [rewrite occ_nil; lia|]. rewrite occ_cons.
  destruct (decide (z = x)) as [-> | Hne].
  - destruct (decide (x = y)), (decide (y = x)); try congruence; lia.
  - rewrite occ_cons, IH. destruct (decide (z = y)), (decide (y = x)); try congruence; lia.
Qed.

Lemma occ_remove_absent x l : x ∉ l -> remove_first x l = l.
Proof.
  induction l as [|z l IH]; [done|]. rewrite not_elem_of_cons. intros [Hz Hl]. cbn.
  destruct (decide (z = x)); [congruence | by rewrite IH].
Qed.

Lemma occ_perm x l1 l2 : l1 ≡ₚ l2 -> occ x l1 = occ x l2.
Proof. intros H. unfold occ. by rewrite H. Qed.
End Occ.

(** * The library's promises *)

(** What the manual says of tables with (unsorted) duplicates and without, as
    long as no one else has locked them and there is room: [quiet].  [recs] are
    the records under a key, in order. *)
Class BdbLaws (T : Type) {B : Bdb T} : Type := {
  quiet : T -> Prop;
  allows_dup : T -> bool;
  recs : T -> list Z -> list (list Z);
  law_codes : DB_NOTFOUND <> 0 /\ DB_LOCK_DEADLOCK <> 0 /\ DB_NOTFOUND <> DB_LOCK_DEADLOCK;
  law_get t k : quiet t ->
    bdb_get t k = match recs t k with [] => (DB_NOTFOUND, []) | d :: _ => (0, d) end;
  law_put t k d : quiet t -> exists t', bdb_put t k d = (t', 0) /\ quiet t' /\ allows_dup t' = allows_dup t /\
    forall k', recs t' k' =
      if decide (k' = k) then if allows_dup t then recs t k ++ [d] else [d] else recs t k';
  law_del t k : quiet t -> exists t', bdb_del t k = (t', match recs t k with [] => DB_NOTFOUND | _ => 0 end) /\
    quiet t' /\ allows_dup t' = allows_dup t /\
    forall k', recs t' k' = if decide (k' = k) then [] else recs t k';
  law_cursor t : quiet t -> bdb_cursor t = 0;
  law_get_both t k d : quiet t -> bdb_get_both t k d = if decide (d ∈ recs t k) then 0 else DB_NOTFOUND;
  law_c_del t k d : quiet t -> d ∈ recs t k -> exists t', bdb_c_del t k d = (t', 0) /\
    quiet t' /\ allows_dup t' = allows_dup t /\
    forall k', recs t' k' = if decide (k' = k) then remove_first d (recs t k) else recs t k';
  law_dups t k : quiet t -> bdb_dups t k = recs t k;
  law_from t k : quiet t -> exists rest, bdb_from t k = map (pair k) (recs t k) ++ rest /\
    match rest with [] => True | (k', _) :: _ => k' <> k end
}.

(** * The tables *)

Section Facts.
Context {T : Type} {B : Bdb T} {L : BdbLaws T} {HF : Hashes} {BC : BuildConfig}.
Variable malloc_ok : Z -> bool.
Abbreviation db4 := (@db4 T).
Abbreviation dbM := (@dbM T).

Definition view (db : db4) (t : table) (k : list Z) : list (list Z) := recs (db_tables db t) k.

(** The tables opened with [DB_DUP]. *)
Definition indexed (t : table) : bool :=
  match t with WordDb | Id32Db | Id64Db => true | _ => false end.

Definition calm (db : db4) : Prop :=
  forall t, quiet (db_tables db t) /\ allows_dup (db_tables db t) = indexed t.

(** Only tables have changed. *)
Definition same_ctx (db db' : db4) : Prop := db_numdbs db' = db_numdbs db /\ db_txn db' = db_txn db.

Lemma dbM_bind_Done {A A'} (m : dbM A) (f : A -> dbM A') db db' a :
  m db = Done (db', a) -> (x ← m; f x) db = f a db'.
Proof. intros E. unfold mbind, dbM_bind. by rewrite E. Qed.

Lemma mret_bind {A A'} (a : A) (f : A -> dbM A') db : (x ← mret a; f x) db = f a db.
Proof. done. Qed.

Lemma lift_bind {A A'} (a : A) (m : outcome A) (f : A -> dbM A') db :
  m = Done a -> (x ← lift m; f x) db = f a db.
Proof. by intros ->. Qed.

Lemma in_trans {A'} (m : dbM ()) (f : () -> dbM A') db : (x ← when (negb true) m; f x) db = f () db.
Proof. done. Qed.

(** The state a program works in, once it is in a transaction. *)
Definition within (intrans : bool) (db : db4) : db4 := if intrans then db else set_txn db true.

Lemma transaction_runs {A} intrans (m : dbM A) db db' a :
  db_txn db = intrans -> m (within intrans db) = Done (within intrans db', a) -> db_txn db' = intrans ->
  transaction intrans m db = Done (db', a).
Proof.
  intros Ht Hm Ht'. unfold transaction. destruct intrans; cbn [negb when within] in *.
  - rewrite mret_bind. by rewrite (dbM_bind_Done _ _ _ _ _ Hm).
  - rewrite (dbM_bind_Done db4_starttrans _ db (set_txn db true) ()) by (unfold db4_starttrans; by rewrite Ht).
    rewrite (dbM_bind_Done _ _ _ _ _ Hm). unfold mbind, dbM_bind, db4_endtrans. cbn.
    do 2 f_equal. destruct db'. cbn in *. by subst.
Qed.

Lemma calm_set db t x :
  calm db -> quiet x -> allows_dup x = indexed t -> calm (set_table db t x).
Proof. intros H Hq Hd t'. cbn. destruct (decide (t' = t)) as [-> |]; [done | apply H]. Qed.

Lemma view_set db t x t' k :
  view (set_table db t x) t' k = if decide (t' = t) then recs x k else view db t' k.
Proof. unfold view. cbn. by destruct (decide (t' = t)). Qed.

Lemma view_set_at db t x k v t' k' :
  (forall k', recs x k' = if decide (k' = k) then v else recs (db_tables db t) k') ->
  view (set_table db t x) t' k' = if decide (t' = t /\ k' = k) then v else view db t' k'.
Proof.
  intros Hr. rewrite view_set. destruct (decide (t' = t)) as [-> |]; [|by rewrite decide_False by naive_solver].
  rewrite Hr. destruct (decide (k' = k)) as [-> |]; [by rewrite decide_True | by rewrite decide_False by naive_solver].
Qed.

Lemma get_runs db t k :
  calm db -> get t k db = Done (db, match view db t k with [] => (DB_NOTFOUND, []) | d :: _ => (0, d) end).
Proof. intros H. unfold get. by rewrite law_get by apply H. Qed.

Lemma cursor_runs db t : calm db -> cursor t db = Done (db, 0).
Proof. intros H. unfold cursor. by rewrite law_cursor by apply H. Qed.

Lemma use_cursor_runs db t : calm db -> use_cursor t db = Done (db, ()).
Proof. intros H. unfold use_cursor. by rewrite (dbM_bind_Done _ _ _ _ _ (cursor_runs db t H)). Qed.

Lemma put_runs db t k d :
  calm db -> exists db', put t k d db = Done (db', 0) /\ calm db' /\ same_ctx db db' /\
    forall t' k', view db' t' k' =
      if decide (t' = t /\ k' = k) then if indexed t then view db t k ++ [d] else [d] else view db t' k'.
Proof.
  intros H. destruct (H t) as [Hq Hd]. destruct (law_put _ k d Hq) as (x & E & Hq' & Hd' & Hr).
  exists (set_table db t x). unfold put. rewrite E. split; [done|]. split; [apply calm_set; [done | done | congruence]|].
  split; [done|]. intros t' k'. rewrite <- Hd. by apply view_set_at.
Qed.

Lemma del_runs db t k :
  calm db -> exists db' ret, del t k db = Done (db', ret) /\ (ret = 0 \/ ret = DB_NOTFOUND) /\
    calm db' /\ same_ctx db db' /\
    forall t' k', view db' t' k' = if decide (t' = t /\ k' = k) then [] else view db t' k'.
Proof.
  intros H. destruct (H t) as [Hq Hd]. destruct (law_del _ k Hq) as (x & E & Hq' & Hd' & Hr).
  exists (set_table db t x). eexists. unfold del. rewrite E. split; [done|].
  split; [destruct (recs (db_tables db t) k); auto|]. split; [apply calm_set; [done | done | congruence]|].
  split; [done|]. intros t' k'. by apply view_set_at.
Qed.

Lemma del_both_runs db t k d :
  calm db -> exists db', del_both t k d db = Done (db', if decide (d ∈ view db t k) then 0 else DB_NOTFOUND) /\
    calm db' /\ same_ctx db db' /\
    forall t' k', view db' t' k' = if decide (t' = t /\ k' = k) then remove_first d (view db t k) else view db t' k'.
Proof.
  intros H. destruct (H t) as [Hq Hd]. unfold del_both. rewrite law_get_both by done.
  change (recs (db_tables db t) k) with (view db t k).
  destruct (decide (d ∈ view db t k)) as [Hin | Hn].
  - destruct (law_c_del _ k d Hq Hin) as (x & E & Hq' & Hd' & Hr). rewrite E. cbn [Z.eqb].
    exists (set_table db t x). split; [done|]. split; [apply calm_set; [done | done | congruence]|]. split; [done|].
    intros t' k'. by apply view_set_at.
  - destruct law_codes as (Hnf & _). destruct (Z.eqb_spec DB_NOTFOUND 0); [done|].
    exists db. split; [done|]. split; [done|]. split; [done|]. intros t' k'.
    destruct (decide (t' = t /\ k' = k)) as [[-> ->] |]; [by rewrite occ_remove_absent | done].
Qed.

(** * Changes of the indices *)

(** Records with the data [fp] are added under the entries [es], and the
    subkeys [subs] are mapped to it. *)
Record stored_as (es : list (table * list Z)) (subs : list (list Z)) (fp : list Z) (db db' : db4) : Prop := {
  sa_calm : calm db';
  sa_ctx : same_ctx db db';
  sa_index t k d : indexed t = true ->
    occ d (view db' t k) = (occ d (view db t k) + (if decide (d = fp) then occ (t, k) es else 0))%nat;
  sa_subkey k : view db' SubkeyDb k = if decide (k ∈ subs) then [fp] else view db SubkeyDb k;
  sa_other t k : indexed t = false -> t <> SubkeyDb -> view db' t k = view db t k
}.

Record removed_as (es : list (table * list Z)) (subs : list (list Z)) (fp : list Z) (db db' : db4) : Prop := {
  ra_calm : calm db';
  ra_ctx : same_ctx db db';
  ra_index t k d : indexed t = true ->
    occ d (view db' t k) = (occ d (view db t k) - (if decide (d = fp) then occ (t, k) es else 0))%nat;
  ra_subkey k : view db' SubkeyDb k = if decide (k ∈ subs) then [] else view db SubkeyDb k;
  ra_other t k : indexed t = false -> t <> SubkeyDb -> view db' t k = view db t k
}.

Lemma same_ctx_trans db1 db2 db3 : same_ctx db1 db2 -> same_ctx db2 db3 -> same_ctx db1 db3.
Proof. intros [] []. split; congruence. Qed.

Lemma stored_as_nil fp db : calm db -> stored_as [] [] fp db db.
Proof. intros H. constructor; try done. intros. rewrite occ_nil. destruct (decide _); lia. Qed.

Lemma removed_as_nil fp db : calm db -> removed_as [] [] fp db db.
Proof. intros H. constructor; try done. intros. rewrite occ_nil. destruct (decide _); lia. Qed.

Lemma stored_as_app es1 es2 subs1 subs2 fp db1 db2 db3 :
  stored_as es1 subs1 fp db1 db2 -> stored_as es2 subs2 fp db2 db3 -> stored_as (es1 ++ es2) (subs1 ++ subs2) fp db1 db3.
Proof.
  intros H1 H2. constructor.
  - apply H2.
  - eapply same_ctx_trans; [apply H1 | apply H2].
  - intros t k d Ht. rewrite (sa_index _ _ _ _ _ H2), (sa_index _ _ _ _ _ H1), occ_app by done.
    destruct (decide _); lia.
  - intros k. rewrite (sa_subkey _ _ _ _ _ H2), (sa_subkey _ _ _ _ _ H1).
    destruct (decide (k ∈ subs2)), (decide (k ∈ subs1)), (decide (k ∈ subs1 ++ subs2)); set_solver.
  - intros t k Ht Hs. by rewrite (sa_other _ _ _ _ _ H2), (sa_other _ _ _ _ _ H1).
Qed.

Lemma removed_as_app es1 es2 subs1 subs2 fp db1 db2 db3 :
  removed_as es1 subs1 fp db1 db2 -> removed_as es2 subs2 fp db2 db3 -> removed_as (es1 ++ es2) (subs1 ++ subs2) fp db1 db3.
Proof.
  intros H1 H2. constructor.
  - apply H2.
  - eapply same_ctx_trans; [apply H1 | apply H2].
  - intros t k d Ht. rewrite (ra_index _ _ _ _ _ H2), (ra_index _ _ _ _ _ H1), occ_app by done.
    destruct (decide _); lia.
  - intros k. rewrite (ra_subkey _ _ _ _ _ H2), (ra_subkey _ _ _ _ _ H1).
    destruct (decide (k ∈ subs2)), (decide (k ∈ subs1)), (decide (k ∈ subs1 ++ subs2)); set_solver.
  - intros t k Ht Hs. by rewrite (ra_other _ _ _ _ _ H2), (ra_other _ _ _ _ _ H1).
Qed.

Lemma stored_as_perm es es' subs fp db db' : es ≡ₚ es' -> stored_as es subs fp db db' -> stored_as es' subs fp db db'.
Proof. intros He H. constructor; try apply H. intros. by rewrite <- (occ_perm _ _ _ He), (sa_index _ _ _ _ _ H). Qed.

(** The single operations. *)
Lemma put_indexed db t k fp :
  calm db -> indexed t = true -> exists db', put t k fp db = Done (db', 0) /\ stored_as [(t, k)] [] fp db db'.
Proof.
  intros H Ht. destruct (put_runs db t k fp H) as (db' & E & Hc & Hs & Hv). rewrite Ht in Hv.
  exists db'. split; [done|]. constructor; try done.
  - intros t' k' d Ht'. rewrite Hv, occ_cons, occ_nil.
    destruct (decide (t' = t /\ k' = k)) as [[-> ->] | Hne].
    + rewrite occ_app, occ_cons, occ_nil. repeat case_decide; try congruence; lia.
    + repeat case_decide; naive_solver lia.
  - intros k'. rewrite Hv. by rewrite decide_False by (intros [<- _]; done).
  - intros t' k' Ht' _. rewrite Hv. by rewrite decide_False by (intros [-> _]; congruence).
Qed.

Lemma del_indexed db t k fp :
  calm db -> indexed t = true -> exists db' ret, del_both t k fp db = Done (db', ret) /\
    deadlocked false ret = false /\ removed_as [(t, k)] [] fp db db'.
Proof.
  intros H Ht. destruct (del_both_runs db t k fp H) as (db' & E & Hc & Hs & Hv).
  exists db'. eexists. split; [exact E|]. split.
  { unfold deadlocked. cbn [orb]. destruct law_codes as (_ & Hd0 & Hd1). apply Z.eqb_neq.
    destruct (decide _); congruence. }
  constructor; try done.
  - intros t' k' d Ht'. rewrite Hv, occ_cons, occ_nil.
    destruct (decide (t' = t /\ k' = k)) as [[-> ->] | Hne].
    + rewrite occ_remove. repeat case_decide; try congruence; lia.
    + repeat case_decide; naive_solver lia.
  - intros k'. rewrite Hv. by rewrite decide_False by (intros [<- _]; done).
  - intros t' k' Ht' _. rewrite Hv. by rewrite decide_False by (intros [-> _]; congruence).
Qed.

Lemma put_subkey db k fp :
  calm db -> exists db', put SubkeyDb k fp db = Done (db', 0) /\ stored_as [] [k] fp db db'.
Proof.
  intros H. destruct (put_runs db SubkeyDb k fp H) as (db' & E & Hc & Hs & Hv). cbn [indexed] in Hv.
  exists db'. split; [done|]. constructor; try done.
  - intros t k' d Ht. rewrite Hv, occ_nil, decide_False by (intros [-> _]; done). destruct (decide _); lia.
  - intros k'. rewrite Hv. destruct (decide (k' ∈ [k])) as [->%list_elem_of_singleton | Hn].
    + by rewrite decide_True.
    + rewrite decide_False; [done|]. intros [_ ->]. apply Hn. by left.
  - intros t k' _ Ht. rewrite Hv. by rewrite decide_False by naive_solver.
Qed.

Lemma del_subkey db k fp :
  calm db -> exists db' ret, del SubkeyDb k db = Done (db', ret) /\
    deadlocked false ret = false /\ removed_as [] [k] fp db db'.
Proof.
  intros H. destruct (del_runs db SubkeyDb k H) as (db' & ret & E & Hret & Hc & Hs & Hv).
  exists db', ret. split; [done|]. split.
  { unfold deadlocked. cbn [orb]. destruct law_codes as (_ & Hd0 & Hd1). apply Z.eqb_neq. destruct Hret; congruence. }
  constructor; try done.
  - intros t k' d Ht. rewrite Hv, occ_nil, decide_False by (intros [-> _]; done). destruct (decide _); lia.
  - intros k'. rewrite Hv. destruct (decide (k' ∈ [k])) as [->%list_elem_of_singleton | Hn].
    + by rewrite decide_True.
    + rewrite decide_False; [done|]. intros [_ ->]. apply Hn. by left.
  - intros t k' _ Ht. rewrite Hv. by rewrite decide_False by naive_solver.
Qed.

(** Runs the first operation of a sequence. *)
Ltac runs E := rewrite (dbM_bind_Done _ _ _ _ _ E).

Lemma deadlocked_false d ret : deadlocked false ret = false -> deadlocked d ret = d.
Proof. unfold deadlocked. cbn [orb]. intros ->. by destruct d. Qed.

Lemma deadlocked_0 d : deadlocked d 0 = d.
Proof. apply deadlocked_false. unfold deadlocked. apply Z.eqb_neq. destruct law_codes. naive_solver. Qed.

Definition word_entries (words : list (list Z)) : list (table * list Z) := map (pair WordDb) words.

Definition id_entries (keyid : Z) : list (table * list Z) :=
  [(Id32Db, le_bytes 4 (shortkeyid keyid)); (Id64Db, le_bytes 8 keyid)].

Lemma store_words_runs words fp : forall db,
  calm db -> exists db', store_words words fp db = Done (db', false) /\ stored_as (word_entries words) [] fp db db'.
Proof.
  induction words as [|w words IH]; intros db H; cbn [store_words]; [by exists db; split; [|apply stored_as_nil]|].
  destruct (put_indexed db WordDb w fp H eq_refl) as (db1 & E1 & H1). runs E1. rewrite deadlocked_0.
  destruct (IH db1 (sa_calm _ _ _ _ _ H1)) as (db2 & E2 & H2). exists db2. split; [done|].
  exact (stored_as_app _ _ _ _ _ _ _ _ H1 H2).
Qed.

Lemma delete_words_runs words fp : forall db,
  calm db -> exists db', delete_words words fp db = Done (db', false) /\ removed_as (word_entries words) [] fp db db'.
Proof.
  induction words as [|w words IH]; intros db H; cbn [delete_words]; [by exists db; split; [|apply removed_as_nil]|].
  destruct (del_indexed db WordDb w fp H eq_refl) as (db1 & ret & E1 & Hr & H1). runs E1. rewrite Hr.
  destruct (IH db1 (ra_calm _ _ _ _ _ H1)) as (db2 & E2 & H2). exists db2. split; [done|].
  exact (removed_as_app _ _ _ _ _ _ _ _ H1 H2).
Qed.

Lemma store_keyid_runs keyid fp db :
  calm db -> exists db', store_keyid keyid fp db = Done (db', false) /\ stored_as (id_entries keyid) [] fp db db'.
Proof.
  intros H. unfold store_keyid.
  destruct (put_indexed db Id32Db (le_bytes 4 (shortkeyid keyid)) fp H eq_refl) as (db1 & E1 & H1). runs E1.
  rewrite deadlocked_0.
  destruct (put_indexed db1 Id64Db (le_bytes 8 keyid) fp (sa_calm _ _ _ _ _ H1) eq_refl) as (db2 & E2 & H2). runs E2.
  rewrite deadlocked_0. exists db2. split; [done|]. exact (stored_as_app _ _ _ _ _ _ _ _ H1 H2).
Qed.

Lemma delete_keyid_runs keyid fp dl db :
  calm db -> exists db', delete_keyid keyid fp dl db = Done (db', dl) /\ removed_as (id_entries keyid) [] fp db db'.
Proof.
  intros H. unfold delete_keyid.
  destruct (del_indexed db Id32Db (le_bytes 4 (shortkeyid keyid)) fp H eq_refl) as (db1 & r1 & E1 & D1 & H1). runs E1.
  destruct (del_indexed db1 Id64Db (le_bytes 8 keyid) fp (ra_calm _ _ _ _ _ H1) eq_refl) as (db2 & r2 & E2 & D2 & H2).
  runs E2. rewrite !deadlocked_false by done. exists db2. split; [done|].
  exact (removed_as_app _ _ _ _ _ _ _ _ H1 H2).
Qed.

(** The subkeys in front of the terminator, with their key ids. *)
Inductive live_subkeys : list openpgp_fingerprint -> list (list Z * Z) -> Prop :=
  | live_nil : live_subkeys [] []
  | live_end sub l : fp_length sub = 0 -> live_subkeys (sub :: l) []
  | live_cons sub l keyid subs : fp_length sub <> 0 -> fingerprint2keyid sub = Done keyid -> live_subkeys l subs ->
      live_subkeys (sub :: l) ((fp_bytes sub, keyid) :: subs).

Definition sub_entries (subs : list (list Z * Z)) : list (table * list Z) := concat (map (fun s => id_entries s.2) subs).

Lemma store_subkeys_runs l subs fp dl : live_subkeys l subs -> forall db,
  calm db -> exists db', store_subkeys l fp dl db = Done (db', dl) /\
    stored_as (sub_entries subs) (map fst subs) fp db db'.
Proof.
  induction 1 as [|sub l Hl|sub l keyid subs Hl Hk _ IH]; intros db H; cbn [store_subkeys].
  - by exists db; split; [|apply stored_as_nil].
  - rewrite Hl. by exists db; split; [|apply stored_as_nil].
  - destruct (Z.eqb_spec (fp_length sub) 0); [done|].
    destruct (put_subkey db (fp_bytes sub) fp H) as (db1 & E1 & H1). runs E1. rewrite Hk.
    destruct (put_indexed db1 Id64Db (le_bytes 8 keyid) fp (sa_calm _ _ _ _ _ H1) eq_refl) as (db2 & E2 & H2).
    destruct (put_indexed db2 Id32Db (le_bytes 4 (shortkeyid keyid)) fp (sa_calm _ _ _ _ _ H2) eq_refl) as (db3 & E3 & H3).
    rewrite (lift_bind keyid) by done. runs E2. runs E3. rewrite !deadlocked_0.
    destruct (IH db3 (sa_calm _ _ _ _ _ H3)) as (db4 & E4 & H4). exists db4. split; [done|].
    pose proof (stored_as_app _ _ _ _ _ _ _ _ (stored_as_app _ _ _ _ _ _ _ _ H1 (stored_as_app _ _ _ _ _ _ _ _ H2 H3)) H4) as H5.
    eapply stored_as_perm; [|exact H5]. cbn. apply perm_swap.
Qed.

Lemma delete_subkeys_runs l subs fp dl : live_subkeys l subs -> forall db,
  calm db -> exists db', delete_subkeys l fp dl db = Done (db', dl) /\
    removed_as (sub_entries subs) (map fst subs) fp db db'.
Proof.
  induction 1 as [|sub l Hl|sub l keyid subs Hl Hk _ IH]; intros db H; cbn [delete_subkeys].
  - by exists db; split; [|apply removed_as_nil].
  - rewrite Hl. by exists db; split; [|apply removed_as_nil].
  - destruct (Z.eqb_spec (fp_length sub) 0); [done|]. rewrite Hk.
    rewrite (lift_bind keyid) by done.
    destruct (del_subkey db (fp_bytes sub) fp H) as (db1 & r1 & E1 & D1 & H1). runs E1.
    rewrite deadlocked_false by done.
    destruct (delete_keyid_runs keyid fp dl db1 (ra_calm _ _ _ _ _ H1)) as (db2 & E2 & H2). runs E2.
    destruct (IH db2 (ra_calm _ _ _ _ _ H2)) as (db3 & E3 & H3). exists db3. split; [done|].
    exact (removed_as_app _ _ _ _ _ _ _ _ (removed_as_app _ _ _ _ _ _ _ _ H1 H2) H3).
Qed.

(** * The abstract database *)

(** What the backend computes from a key. *)
Record key_facts : Type := mkFacts {
  kf_fp : list Z;
  kf_keyid : Z;
  kf_words : list (list Z);
  kf_subs : list (list Z * Z);
  kf_hash : list Z
}.

Definition fp_of (b : list Z) : openpgp_fingerprint := mkFingerprint (zlen b) b.

(** The key decodes to these facts, and can be written and read. *)
Record describes (key : openpgp_publickey) (f : key_facts) : Prop := {
  de_keyid : get_keyid key = Done (ONAK_E_OK, Some (kf_keyid f));
  de_fp : get_fingerprint (pk_publickey key) = Done (ONAK_E_OK, fp_of (kf_fp f));
  de_fp_length : 8 <= zlen (kf_fp f) <= MAX_FINGERPRINT_LEN;
  de_words : exists uids primary, keyuids key = Done (uids, primary) /\
    uid_words [] (default [] uids) = Done (kf_words f);
  de_subs : exists subs, keysubkeys key = Done subs /\ live_subkeys (default [] subs) (kf_subs f);
  de_hash : get_skshash key = Done (ONAK_E_OK, kf_hash f);
  de_storable : storable malloc_ok [key]
}.

(** The records of a key in the indices with duplicates. *)
Definition entries (f : key_facts) : list (table * list Z) :=
  word_entries (kf_words f) ++ id_entries (kf_keyid f) ++ sub_entries (kf_subs f).

(** The shard of a fingerprint among [n]. *)
Definition shard (n : Z) (b : list Z) : nat :=
  match drop 4 b with
  | b1 :: b2 :: b3 :: b4 :: _ =>
      Z.to_nat (Z.lor (Z.shiftl (Z.lor (Z.shiftl (Z.lor (Z.shiftl b1 8) b2) 8) b3) 8) b4 mod n)
  | _ => O
  end.

(** The keys as they are read back, by fingerprint. *)
Abbreviation keymap := (gmap (list Z) (openpgp_publickey * key_facts)).

(** The key tables hold exactly the keys, each in its shard; the words and key
    ids of the keys, and only they, are indexed, as often as they occur in the
    key; the subkey and SKS hash tables only point to keys that have the subkey
    or the hash (two keys with the same subkey share one record). *)
Record consistent (db : db4) (keys : keymap) : Prop := {
  co_calm : calm db;
  co_numdbs : 0 < db_numdbs db;
  co_keys fp k f : keys !! fp = Some (k, f) -> describes k f /\ kf_fp f = fp /\ reparsed k = k;
  co_data i fp : view db (KeyData i) fp =
    match keys !! fp with
    | Some (k, _) => if decide (i = shard (db_numdbs db) fp) then [encode_packets (key_packets k)] else []
    | None => []
    end;
  co_index t x fp : indexed t = true ->
    occ fp (view db t x) = match keys !! fp with Some (_, f) => occ (t, x) (entries f) | None => O end;
  co_subkey s : view db SubkeyDb s = [] \/ exists fp k f, view db SubkeyDb s = [fp] /\
    keys !! fp = Some (k, f) /\ s ∈ map fst (kf_subs f);
  co_hash h : view db SksHashDb h = [] \/ exists fp k f, view db SksHashDb h = [fp] /\
    keys !! fp = Some (k, f) /\ h = kf_hash f
}.

(** Nothing depends on the transaction. *)
Lemma consistent_txn db keys b : consistent db keys -> consistent (set_txn db b) keys.
Proof. intros []. by constructor. Qed.

Lemma set_txn_same (db : db4) : set_txn db (db_txn db) = db.
Proof. by destruct db. Qed.

(** * Lookups *)

Lemma keydb_fp_runs (db : db4) b :
  0 < db_numdbs db -> 8 <= zlen b -> keydb_fp (fp_of b) db = Done (db, KeyData (shard (db_numdbs db) b)).
Proof.
  intros Hn Hb. unfold keydb_fp, shard, fp_of. cbn [fp_bytes].
  do 8 (destruct b as [|? b]; [by vm_compute in Hb; destruct Hb|]). cbn [drop].
  destruct (Z.leb_spec (db_numdbs db) 0); [lia | done].
Qed.

(** The key a lookup by fingerprint finds, over the subkey table if asked. *)
Definition found_by (db : db4) (keys : keymap) (dosubkey : bool) (b : list Z) : option openpgp_publickey :=
  match keys !! b with
  | Some (k, _) => Some k
  | None =>
      if dosubkey then
        match view db SubkeyDb b with
        | fp :: _ => fst <$> keys !! fp
        | [] => None
        end
      else None
  end.

Lemma key_data_read keys fp k f prev :
  (forall fp k f, keys !! fp = Some (k, f) -> describes k f /\ kf_fp f = fp /\ reparsed k = k) ->
  (keys : keymap) !! fp = Some (k, f) ->
  keys_of_buffer malloc_ok (encode_packets (key_packets k)) prev = Done (prev ++ [k]).
Proof.
  intros Hk Hf. destruct (Hk _ _ _ Hf) as (Hd & _ & Hr).
  pose proof (keys_of_buffer_ok malloc_ok [k] prev (de_storable _ _ Hd)) as E.
  unfold keys_packets in E. cbn [map concat] in E. by rewrite app_nil_r, Hr in E.
Qed.

Lemma co_fp_length db keys fp k f : consistent db keys -> keys !! fp = Some (k, f) -> 8 <= zlen fp <= MAX_FINGERPRINT_LEN.
Proof. intros H E. destruct (co_keys _ _ H _ _ _ E) as (Hd & <- & _). apply Hd. Qed.

Lemma get_data_runs db keys b :
  consistent db keys ->
  get (KeyData (shard (db_numdbs db) b)) b db =
  Done (db, match keys !! b with Some (k, _) => (0, encode_packets (key_packets k)) | None => (DB_NOTFOUND, []) end).
Proof.
  intros H. rewrite get_runs by apply H. rewrite (co_data _ _ H). destruct (keys !! b) as [[k f]|]; [|done].
  by rewrite decide_True.
Qed.

Lemma get_fp_runs db t b :
  calm db -> match view db t b with [] => True | d :: _ => zlen d <= MAX_FINGERPRINT_LEN end ->
  get_fp t b db = Done (db, match view db t b with [] => (DB_NOTFOUND, []) | d :: _ => (0, d) end).
Proof.
  intros H Hd. unfold get_fp. runs (get_runs db t b H). destruct (view db t b) as [|d l].
  - destruct law_codes as (Hn & _). destruct (Z.eqb_spec DB_NOTFOUND 0); [done|]. done.
  - cbn [fst snd]. destruct (Z.ltb_spec MAX_FINGERPRINT_LEN (zlen d)); [lia|]. done.
Qed.

Lemma consistent_within db keys intrans : consistent db keys -> consistent (within intrans db) keys.
Proof. destruct intrans; [done | apply consistent_txn]. Qed.

(** A lookup by fingerprint, in its own transaction or in the caller's. *)
Lemma fetch_key_int_runs db keys b prev intrans dosubkey :
  consistent db keys -> db_txn db = intrans -> 8 <= zlen b ->
  db4_fetch_key_int malloc_ok (fp_of b) prev intrans dosubkey db =
  Done (db, match found_by db keys dosubkey b with Some k => (1, prev ++ [k]) | None => (0, prev) end).
Proof.
  intros H0 Ht Hb. destruct law_codes as (Hnf & _). unfold db4_fetch_key_int.
  apply transaction_runs; [done | | done].
  change (found_by db) with (found_by (set_txn db true)).
  replace (found_by (set_txn db true)) with (found_by (within intrans db)) by by destruct intrans.
  assert (H := consistent_within db keys intrans H0). clear H0 Ht. revert H. generalize (within intrans db).
  clear db. intros db H.
  runs (keydb_fp_runs db b (co_numdbs _ _ H) Hb). cbn [fp_bytes fp_of]. runs (get_data_runs db keys b H).
  erewrite (dbM_bind_Done _ _ db db (match found_by db keys dosubkey b with
    Some k => (0, encode_packets (key_packets k)) | None => (DB_NOTFOUND, []) end)).
  - destruct (found_by db keys dosubkey b) as [k|] eqn:Ef; [|by destruct (Z.eqb_spec DB_NOTFOUND 0)].
    assert (exists fp f, keys !! fp = Some (k, f)) as (fp & f & Ek).
    { unfold found_by in Ef. destruct (keys !! b) as [[k' f]|] eqn:E; [by simplify_eq; exists b, f|].
      destruct dosubkey; [|done]. destruct (view db SubkeyDb b) as [|fp l]; [done|].
      destruct (keys !! fp) as [[k' f]|] eqn:E'; [by simplify_eq/=; exists fp, f | done]. }
    cbn [Z.eqb]. by rewrite (lift_bind _ _ _ _ (key_data_read keys fp k f prev (co_keys _ _ H) Ek)).
  - unfold found_by. destruct (keys !! b) as [[k f]|] eqn:Ek; cbn [fst].
    { destruct (Z.eqb_spec 0 DB_NOTFOUND) as [E|]; [congruence | done]. }
    rewrite Z.eqb_refl. destruct dosubkey; [|done]. cbn [andb].
    destruct (co_subkey _ _ H b) as [Ev | (fp & k & f & Ev & Ef & _)]; rewrite Ev.
    + runs (get_fp_runs db SubkeyDb b (co_calm _ _ H) ltac:(by rewrite Ev)). rewrite Ev. cbn [fst snd].
      by destruct (Z.eqb_spec DB_NOTFOUND 0).
    + pose proof (co_fp_length _ _ _ _ _ H Ef).
      runs (get_fp_runs db SubkeyDb b (co_calm _ _ H) ltac:(rewrite Ev; lia)). rewrite Ev. cbn [fst snd Z.eqb].
      runs (keydb_fp_runs db fp (co_numdbs _ _ H) ltac:(lia)). rewrite (get_data_runs db keys fp H). by rewrite Ef.
Qed.

(** * Deletion *)

Lemma delete_uids_runs key f fp db :
  describes key f -> calm db ->
  exists db', delete_uids key fp db = Done (db', false) /\ removed_as (word_entries (kf_words f)) [] fp db db'.
Proof.
  intros Hd H. destruct (de_words _ _ Hd) as (uids & primary & Eu & Ew). unfold delete_uids.
  rewrite (lift_bind _ _ _ _ Eu). destruct uids as [uids|]; cbn [default] in Ew.
  - rewrite (lift_bind _ _ _ _ Ew). runs (use_cursor_runs db WordDb H). by apply delete_words_runs.
  - injection Ew as <-. exists db. split; [done | by apply removed_as_nil].
Qed.

Lemma delete_ids_runs key f fp db :
  describes key f -> calm db ->
  exists db', delete_ids key (kf_keyid f) fp db = Done (db', false) /\
    removed_as (id_entries (kf_keyid f) ++ sub_entries (kf_subs f)) (map fst (kf_subs f)) fp db db'.
Proof.
  intros Hd H. destruct (de_subs _ _ Hd) as (subs & Es & Hl). unfold delete_ids.
  runs (use_cursor_runs db Id32Db H). runs (use_cursor_runs db Id64Db H).
  destruct (delete_keyid_runs (kf_keyid f) fp false db H) as (db1 & E1 & H1). runs E1.
  rewrite (lift_bind _ _ _ _ Es).
  destruct (delete_subkeys_runs _ _ fp false Hl db1 (ra_calm _ _ _ _ _ H1)) as (db2 & E2 & H2).
  exists db2. split; [done|]. exact (removed_as_app _ _ _ _ _ _ _ _ H1 H2).
Qed.

(** The tables after a key's records with the data [fp] are gone. *)
Record deleted (f : key_facts) (fp : list Z) (db db' : db4) : Prop := {
  dl_calm : calm db';
  dl_ctx : same_ctx db db';
  dl_index t k d : indexed t = true ->
    occ d (view db' t k) = (occ d (view db t k) - (if decide (d = fp) then occ (t, k) (entries f) else 0))%nat;
  dl_subkey k : view db' SubkeyDb k = if decide (k ∈ map fst (kf_subs f)) then [] else view db SubkeyDb k;
  dl_hash h : view db' SksHashDb h =
    if decide (h = kf_hash f) then remove_first fp (view db SksHashDb h) else view db SksHashDb h;
  dl_data i k : view db' (KeyData i) k =
    if decide (i = shard (db_numdbs db) fp /\ k = fp) then [] else view db (KeyData i) k
}.

Lemma delete_found_runs key f b db :
  describes key f -> calm db -> 0 < db_numdbs db -> 8 <= zlen b ->
  exists db', delete_found key (kf_keyid f) (fp_of b) db =
    Done (db', if decide (b ∈ view db SksHashDb (kf_hash f)) then 0 else 1) /\ deleted f b db db'.
Proof.
  intros Hd H Hn Hb. unfold delete_found. cbn [fp_bytes fp_of].
  destruct (delete_uids_runs key f b db Hd H) as (db1 & E1 & H1). runs E1.
  destruct (delete_ids_runs key f b db1 Hd (ra_calm _ _ _ _ _ H1)) as (db2 & E2 & H2). runs E2.
  pose proof (removed_as_app _ _ _ _ _ _ _ _ H1 H2) as H12. cbn [app] in H12. change (_ ++ _ ++ _) with (entries f) in H12.
  assert (Hc2 := ra_calm _ _ _ _ _ H2).
  destruct (del_both_runs db2 SksHashDb (kf_hash f) b Hc2) as (db3 & E3 & Hc3 & Hs3 & Hv3).
  assert (Hctx3 := same_ctx_trans _ _ _ (ra_ctx _ _ _ _ _ H12) Hs3).
  destruct (del_runs db3 (KeyData (shard (db_numdbs db) b)) b Hc3) as (db4 & r4 & E4 & _ & Hc4 & Hs4 & Hv4).
  erewrite (dbM_bind_Done _ _ db2 db3 (if decide (b ∈ view db SksHashDb (kf_hash f)) then 0 else DB_NOTFOUND, false)).
  2: { unfold delete_skshash. runs (cursor_runs db2 SksHashDb Hc2). cbn [Z.eqb].
       rewrite (lift_bind _ _ _ _ (de_hash _ _ Hd)). runs E3. rewrite (ra_other _ _ _ _ _ H12) by done.
       destruct law_codes as (Hnf & Hdl & Hne).
       destruct (decide (b ∈ view db SksHashDb (kf_hash f))); [by rewrite deadlocked_0|].
       unfold deadlocked. cbn [orb]. by destruct (Z.eqb_spec DB_NOTFOUND DB_LOCK_DEADLOCK). }
  erewrite (dbM_bind_Done _ _ db3 db4 r4).
  2: { runs (keydb_fp_runs db3 b ltac:(rewrite (proj1 Hctx3); done) Hb). rewrite (proj1 Hctx3). exact E4. }
  exists db4. split.
  { destruct law_codes as (Hnf & _). unfold mret, dbM_ret.
    destruct (decide (b ∈ view db SksHashDb (kf_hash f))); [by destruct (Z.eqb_spec 0 DB_NOTFOUND)|].
    by destruct (Z.eqb_spec DB_NOTFOUND DB_NOTFOUND). }
  constructor.
  - done.
  - by eapply same_ctx_trans.
  - intros t k d Ht. rewrite Hv4, Hv3, !decide_False by (intros [-> _]; done). by apply (ra_index _ _ _ _ _ H12).
  - intros k. rewrite Hv4, Hv3, !decide_False by (intros [? _]; done). apply (ra_subkey _ _ _ _ _ H12).
  - intros h. rewrite Hv4, Hv3, decide_False by (intros [? _]; done). rewrite !(ra_other _ _ _ _ _ H12) by done.
    destruct (decide (h = kf_hash f)) as [-> |]; [by rewrite decide_True | by rewrite decide_False by naive_solver].
  - intros i k. rewrite Hv4, Hv3. rewrite (decide_False (P := _ /\ k = kf_hash f)) by (intros [? _]; done).
    rewrite (ra_other _ _ _ _ _ H12) by done.
    destruct (decide (i = _ /\ k = b)) as [[-> ->]|]; [by rewrite decide_True | by rewrite decide_False by naive_solver].
Qed.

(** The records found over [fp0] are those of a key stored under [b], or [b] is
    not stored itself: then nothing but subkey records goes away. *)
Lemma deleted_consistent db db' keys fp0 k f b :
  consistent db keys -> keys !! fp0 = Some (k, f) -> fp0 = b \/ keys !! b = None -> deleted f b db db' ->
  consistent db' (delete b keys).
Proof.
  intros H Ek Hb D.
  assert (Hold : forall f' k', keys !! b = Some (k', f') -> f' = f).
  { intros f' k' E. destruct Hb as [-> | Hb]; congruence. }
  constructor.
  - apply D.
  - rewrite (proj1 (dl_ctx _ _ _ _ D)). apply H.
  - intros fp k' f' E. apply lookup_delete_Some in E as [_ E]. by apply (co_keys _ _ H).
  - intros i fp. rewrite (dl_data _ _ _ _ D), (co_data _ _ H), (proj1 (dl_ctx _ _ _ _ D)).
    destruct (decide (fp = b)) as [-> |].
    + rewrite lookup_delete_eq. destruct (decide (i = _ /\ b = b)); [done|].
      destruct (keys !! b) as [[? ?]|]; [|done]. by rewrite decide_False by naive_solver.
    + rewrite lookup_delete_ne by done. by rewrite decide_False by naive_solver.
  - intros t x fp Ht. rewrite (dl_index _ _ _ _ D), (co_index _ _ H) by done.
    destruct (decide (fp = b)) as [-> |].
    + rewrite lookup_delete_eq. destruct (keys !! b) as [[k' f']|] eqn:E; [|lia].
      rewrite (Hold _ _ eq_refl). lia.
    + rewrite lookup_delete_ne by done. lia.
  - intros s. rewrite (dl_subkey _ _ _ _ D). destruct (decide (s ∈ _)) as [|Hs]; [by left|].
    destruct (co_subkey _ _ H s) as [E | (fp & k' & f' & E & E' & Hin)]; [by left|]. right.
    exists fp, k', f'. split; [done|]. split; [|done]. rewrite lookup_delete_ne; [done|].
    intros ->. by rewrite (Hold _ _ E') in Hin.
  - intros h. rewrite (dl_hash _ _ _ _ D). destruct (co_hash _ _ H h) as [E | (fp & k' & f' & E & E' & Hh)]; rewrite E.
    { left. by destruct (decide _). }
    destruct (decide (fp = b)) as [-> | Hne].
    + left. rewrite (Hold _ _ E') in Hh. rewrite decide_True by done. cbn. by rewrite decide_True.
    + right. exists fp, k', f'. rewrite lookup_delete_ne by done. split; [|done].
      destruct (decide _); [|done]. cbn. by rewrite decide_False.
Qed.

(** The key a deletion finds: the one with the fingerprint, or else the one the
    subkey table points to. *)
Definition found_facts (db : db4) (keys : keymap) (b : list Z) : option key_facts :=
  match keys !! b with
  | Some (_, f) => Some f
  | None => match view db SubkeyDb b with fp :: _ => snd <$> keys !! fp | [] => None end
  end.

Lemma found_by_some db keys b k :
  consistent db keys -> found_by db keys true b = Some k ->
  exists fp0 f, keys !! fp0 = Some (k, f) /\ (fp0 = b \/ keys !! b = None) /\ found_facts db keys b = Some f.
Proof.
  intros H. unfold found_by, found_facts. destruct (keys !! b) as [[k' f]|] eqn:E; [intros; simplify_eq; eauto 6|].
  destruct (view db SubkeyDb b) as [|fp l]; [done|]. destruct (keys !! fp) as [[k' f]|] eqn:E'; [|done].
  intros. simplify_eq/=. exists fp, f. auto.
Qed.

Lemma found_by_none db keys b : found_by db keys true b = None -> keys !! b = None /\ found_facts db keys b = None.
Proof.
  unfold found_by, found_facts. destruct (keys !! b) as [[k' f]|]; [done|]. intros E. split; [done|].
  destruct (view db SubkeyDb b) as [|fp l]; [done|]. by destruct (keys !! fp) as [[k' f]|].
Qed.

(** What goes from the tables that hold one record per subkey and per hash: the
    records of all subkeys of the key that was found, and that of its hash if
    it is the key's own. *)
Definition records_after (db : db4) (keys : keymap) (b : list Z) (db' : db4) : Prop :=
  (forall s, view db' SubkeyDb s =
    if decide (s ∈ from_option (fun f => map fst (kf_subs f)) [] (found_facts db keys b)) then [] else view db SubkeyDb s) /\
  (forall h, view db' SksHashDb h =
    if decide (Some h = kf_hash <$> (snd <$> keys !! b)) then remove_first b (view db SksHashDb h) else view db SksHashDb h).

Lemma deleted_records db db' keys fp0 k f b :
  consistent db keys -> keys !! fp0 = Some (k, f) -> (fp0 = b \/ keys !! b = None) -> found_facts db keys b = Some f ->
  deleted f b db db' -> records_after db keys b db'.
Proof.
  intros H Ek Hb Hf D. split.
  - intros s. rewrite (dl_subkey _ _ _ _ D), Hf. done.
  - intros h. rewrite (dl_hash _ _ _ _ D). destruct (keys !! b) as [[k' f']|] eqn:E; cbn [fmap option_fmap option_map snd].
    + destruct Hb as [-> |]; [|done]. simplify_eq. destruct (decide (h = kf_hash f)) as [-> |]; [by rewrite decide_True|].
      by rewrite decide_False by congruence.
    + rewrite (decide_False (P := Some h = None)) by done. destruct (decide (h = kf_hash f)) as [-> |]; [|done].
      apply occ_remove_absent. destruct (co_hash _ _ H (kf_hash f)) as [Ev | (fp & k1 & f1 & Ev & E1 & _)];
        rewrite Ev; [apply not_elem_of_nil|]. intros ->%list_elem_of_singleton. congruence.
Qed.

Lemma delete_body_runs db keys b :
  consistent db keys -> db_txn db = true -> 8 <= zlen b ->
  exists db' ret, delete_body malloc_ok (fp_of b) db = Done (db', (ret, true)) /\
    consistent db' (delete b keys) /\ same_ctx db db' /\ ret <> -1 /\ records_after db keys b db' /\
    ret = match keys !! b with Some (_, f) => if decide (b ∈ view db SksHashDb (kf_hash f)) then 0 else 1 | None => 1 end.
Proof.
  intros H Ht Hb. unfold delete_body, db4_fetch_key_fp.
  runs (fetch_key_int_runs db keys b [] true true H Ht Hb).
  destruct (found_by db keys true b) as [k|] eqn:Ef; cbn [app Z.eqb].
  - destruct (found_by_some db keys b k H Ef) as (fp0 & f & Ek & Hfp & Hff).
    destruct (co_keys _ _ H _ _ _ Ek) as (Hd & Hf & _).
    rewrite (lift_bind _ _ _ _ (de_keyid _ _ Hd)).
    destruct (delete_found_runs k f b db Hd (co_calm _ _ H) (co_numdbs _ _ H) Hb) as (db' & E & D). runs E.
    exists db'. eexists. split; [done|]. split; [by eapply deleted_consistent|]. split; [apply D|].
    split; [by destruct (decide _)|]. split; [by eapply deleted_records|]. destruct (keys !! b) as [[k' f']|] eqn:E'.
    + destruct Hfp as [-> |]; [|done]. by simplify_eq.
    + rewrite decide_False; [done|]. destruct (co_hash _ _ H (kf_hash f)) as [Ev | (fp & k1 & f1 & Ev & E1 & _)];
        rewrite Ev; [apply not_elem_of_nil|]. intros ->%list_elem_of_singleton. congruence.
  - exists db, 1. destruct (found_by_none db keys b Ef) as [Eb Eff]. unfold records_after. rewrite Eff, Eb, delete_id by done.
    split_and!; done || (intros s; cbn; by rewrite decide_False by apply not_elem_of_nil).
Qed.

Lemma txn_runs {A} intrans (m : dbM (A * bool)) db db1 a :
  db_txn db = intrans -> m (within intrans db) = Done (db1, (a, true)) -> db_txn db1 = true ->
  (_ ← when (negb intrans) db4_starttrans;
   '(ret, ends) ← m;
   _ ← when (negb intrans && ends) db4_endtrans;
   mret ret) db = Done (set_txn db1 intrans, a).
Proof.
  intros Ht Hm Ht1. destruct intrans; cbn [negb when within andb] in *.
  - rewrite mret_bind. rewrite (dbM_bind_Done _ _ _ _ _ Hm). unfold mbind, dbM_bind, mret, dbM_ret. cbn.
    do 2 f_equal. destruct db1. cbn in *. by subst.
  - rewrite (dbM_bind_Done db4_starttrans _ db (set_txn db true) ()) by (unfold db4_starttrans; by rewrite Ht).
    rewrite (dbM_bind_Done _ _ _ _ _ Hm). unfold mbind, dbM_bind, db4_endtrans. cbn. by rewrite Ht1.
Qed.

(** Deleting the key with a fingerprint. *)
Lemma delete_key_runs db keys b intrans :
  consistent db keys -> db_txn db = intrans -> 8 <= zlen b ->
  exists db' ret, db4_delete_key malloc_ok (fp_of b) intrans db = Done (db', ret) /\
    consistent db' (delete b keys) /\ same_ctx db db' /\ ret <> -1 /\ records_after db keys b db' /\
    ret = match keys !! b with Some (_, f) => if decide (b ∈ view db SksHashDb (kf_hash f)) then 0 else 1 | None => 1 end.
Proof.
  intros H Ht Hb.
  destruct (delete_body_runs (within intrans db) keys b) as (db1 & ret & E & H1 & Hs1 & Hr & Hrec & Hk);
    [by apply consistent_within | by destruct intrans | done |].
  exists (set_txn db1 intrans), ret. unfold db4_delete_key.
  rewrite (txn_runs intrans _ db db1 ret Ht E) by (rewrite (proj2 Hs1); by destruct intrans).
  split; [done|]. split; [by apply consistent_txn|].
  split; [split; [cbn; rewrite (proj1 Hs1); by destruct intrans | done]|]. split; [done|].
  split; [by destruct intrans|]. rewrite Hk. by destruct intrans.
Qed.

(** * Storing *)

Lemma describes_reparsed key f : describes key f -> describes (reparsed key) f.
Proof.
  intros Hd. destruct key as [p r s u ks]. destruct Hd as [H1 H2 H3 H4 H5 H6 Hs].
  constructor; [exact H1 | exact H2 | exact H3 | exact H4 | exact H5 | exact H6 |].
  destruct Hs as [Hw Ht Hsr He Hv Hm Hz Hc].
  rewrite Forall_singleton in Hw, Ht, Hsr. constructor;
    [apply Forall_singleton; exact Hw | apply Forall_singleton; exact Ht | apply Forall_singleton; exact Hsr
    | exact He | exact Hv | exact Hm | exact Hz | exact Hc].
Qed.

Lemma reparsed_twice key : reparsed (reparsed key) = reparsed key.
Proof. by destruct key. Qed.

(** The tables with a key's records added. *)
Record inserted (key : openpgp_publickey) (f : key_facts) (db db' : db4) : Prop := {
  is_calm : calm db';
  is_ctx : same_ctx db db';
  is_index t k d : indexed t = true ->
    occ d (view db' t k) = (occ d (view db t k) + (if decide (d = kf_fp f) then occ (t, k) (entries f) else 0))%nat;
  is_subkey k : view db' SubkeyDb k = if decide (k ∈ map fst (kf_subs f)) then [kf_fp f] else view db SubkeyDb k;
  is_hash h : view db' SksHashDb h = if decide (h = kf_hash f) then [kf_fp f] else view db SksHashDb h;
  is_data i k : view db' (KeyData i) k =
    if decide (i = shard (db_numdbs db) (kf_fp f) /\ k = kf_fp f) then [encode_packets (key_packets key)]
    else view db (KeyData i) k
}.

Lemma store_uids_runs key f fp db :
  describes key f -> calm db ->
  exists db', store_uids key fp 0 db = Done (db', false) /\ stored_as (word_entries (kf_words f)) [] fp db db'.
Proof.
  intros Hd H. destruct (de_words _ _ Hd) as (uids & primary & Eu & Ew). unfold store_uids.
  rewrite (lift_bind _ _ _ _ Eu). destruct uids as [uids|]; cbn [default] in Ew.
  - cbn [Z.eqb]. rewrite (lift_bind _ _ _ _ Ew). by apply store_words_runs.
  - injection Ew as <-. exists db. split; [done | by apply stored_as_nil].
Qed.

Lemma store_indices_runs key f fp db :
  describes key f -> calm db ->
  exists db1 db', store_indices key (kf_keyid f) fp 0 db = Done (db', false) /\
    stored_as (entries f) (map fst (kf_subs f)) fp db db1 /\ calm db' /\ same_ctx db1 db' /\
    forall t k, view db' t k = if decide (t = SksHashDb /\ k = kf_hash f) then [fp] else view db1 t k.
Proof.
  intros Hd H. destruct (de_subs _ _ Hd) as (subs & Es & Hl). unfold store_indices.
  destruct (store_uids_runs key f fp db Hd H) as (db1 & E1 & H1). runs E1.
  destruct (store_keyid_runs (kf_keyid f) fp db1 (sa_calm _ _ _ _ _ H1)) as (db2 & E2 & H2). runs E2.
  destruct (store_subkeys_runs _ _ fp false Hl db2 (sa_calm _ _ _ _ _ H2)) as (db3 & E3 & H3).
  erewrite (dbM_bind_Done _ _ db2 db3 false) by (rewrite (lift_bind _ _ _ _ Es); exact E3).
  rewrite (lift_bind _ _ _ _ (de_hash _ _ Hd)).
  destruct (put_runs db3 SksHashDb (kf_hash f) fp (sa_calm _ _ _ _ _ H3)) as (db4 & E4 & Hc4 & Hs4 & Hv4). runs E4.
  rewrite deadlocked_0. exists db3, db4. split; [done|]. split; [|done].
  exact (stored_as_app _ _ _ _ _ _ _ _ H1 (stored_as_app _ _ _ _ _ _ _ _ H2 H3)).
Qed.

(** The key's data, then its index entries. *)
Lemma store_data_runs key f db :
  describes key f -> calm db -> 0 < db_numdbs db ->
  exists db', (data ← lift (buffer_of_keys [key]);
    t ← keydb_fp (fp_of (kf_fp f));
    ret ← put t (kf_fp f) data;
    if deadlocked false ret then mret true else store_indices key (kf_keyid f) (kf_fp f) ret) db = Done (db', false) /\
    inserted key f db db'.
Proof.
  intros Hd H Hn. rewrite (lift_bind _ _ _ _ (buffer_of_keys_ok malloc_ok [key] (de_storable _ _ Hd))).
  runs (keydb_fp_runs db (kf_fp f) Hn (proj1 (de_fp_length _ _ Hd))).
  destruct (put_runs db (KeyData (shard (db_numdbs db) (kf_fp f))) (kf_fp f) (encode_packets (keys_packets [key])) H)
    as (db1 & E1 & Hc1 & Hs1 & Hv1). runs E1. rewrite deadlocked_0. cbn [indexed] in Hv1.
  unfold keys_packets in Hv1. cbn [map concat] in Hv1. rewrite app_nil_r in Hv1.
  destruct (store_indices_runs key f (kf_fp f) db1 Hd Hc1) as (db2 & db3 & E3 & H2 & Hc3 & Hs3 & Hv3).
  exists db3. split; [done|]. constructor.
  - done.
  - eapply same_ctx_trans; [exact Hs1|]. eapply same_ctx_trans; [apply H2 | done].
  - intros t k d Ht. rewrite Hv3, decide_False by (intros [-> _]; done). rewrite (sa_index _ _ _ _ _ H2) by done.
    by rewrite Hv1, decide_False by (intros [-> _]; done).
  - intros k. rewrite Hv3, decide_False by (intros [? _]; done). rewrite (sa_subkey _ _ _ _ _ H2).
    by rewrite Hv1, (decide_False (P := _ /\ k = kf_fp f)) by (intros [? _]; done).
  - intros h. rewrite Hv3. rewrite (sa_other _ _ _ _ _ H2) by done.
    rewrite Hv1, (decide_False (P := _ /\ h = kf_fp f)) by (intros [? _]; done).
    destruct (decide (h = kf_hash f)); [by rewrite decide_True | by rewrite decide_False by naive_solver].
  - intros i k. rewrite Hv3, decide_False by (intros [? _]; done). rewrite (sa_other _ _ _ _ _ H2) by done.
    rewrite Hv1. destruct (decide (i = _ /\ k = kf_fp f)) as [[-> ->]|];
      [by rewrite decide_True | by rewrite decide_False by naive_solver].
Qed.

Lemma inserted_consistent db db' keys key f :
  consistent db keys -> keys !! kf_fp f = None -> describes key f -> inserted key f db db' ->
  consistent db' (<[kf_fp f := (reparsed key, f)]> keys).
Proof.
  intros H Hnew Hd I. constructor.
  - apply I.
  - rewrite (proj1 (is_ctx _ _ _ _ I)). apply H.
  - intros fp k' f' E. apply lookup_insert_Some in E as [[<- [= <- <-]] | [_ E]].
    + split; [by apply describes_reparsed|]. split; [done | apply reparsed_twice].
    + by apply (co_keys _ _ H).
  - intros i fp. rewrite (is_data _ _ _ _ I), (co_data _ _ H), (proj1 (is_ctx _ _ _ _ I)).
    destruct (decide (fp = kf_fp f)) as [-> |].
    + rewrite lookup_insert_eq, Hnew. destruct (decide (i = shard (db_numdbs db) (kf_fp f))).
      * by rewrite decide_True by done.
      * by rewrite decide_False by naive_solver.
    + rewrite lookup_insert_ne by done. by rewrite decide_False by naive_solver.
  - intros t x fp Ht. rewrite (is_index _ _ _ _ I), (co_index _ _ H) by done.
    destruct (decide (fp = kf_fp f)) as [-> |].
    + by rewrite lookup_insert_eq, Hnew.
    + rewrite lookup_insert_ne by done. lia.
  - intros s. rewrite (is_subkey _ _ _ _ I). destruct (decide (s ∈ _)) as [Hs|Hs].
    + right. exists (kf_fp f), (reparsed key), f. by rewrite lookup_insert_eq.
    + destruct (co_subkey _ _ H s) as [E | (fp & k' & f' & E & E' & Hin)]; [by left|]. right.
      exists fp, k', f'. by rewrite lookup_insert_ne by congruence.
  - intros h. rewrite (is_hash _ _ _ _ I). destruct (decide (h = kf_hash f)) as [-> |].
    + right. exists (kf_fp f), (reparsed key), f. by rewrite lookup_insert_eq.
    + destruct (co_hash _ _ H h) as [E | (fp & k' & f' & E & E' & Hh)]; [by left|]. right.
      exists fp, k', f'. by rewrite lookup_insert_ne by congruence.
Qed.

(** Storing a key. *)
Lemma store_key_runs db keys key f intrans update :
  consistent db keys -> db_txn db = intrans -> describes key f ->
  update = true \/ keys !! kf_fp f = None ->
  exists db', db4_store_key malloc_ok key intrans update db = Done (db', 0) /\ db_txn db' = intrans /\
    consistent db' (<[kf_fp f := (reparsed key, f)]> keys).
Proof.
  intros H Ht Hd Hu. unfold db4_store_key. rewrite (lift_bind _ _ _ _ (de_keyid _ _ Hd)).
  rewrite (lift_bind _ _ _ _ (de_fp _ _ Hd)). cbn [status_ok negb fp_bytes fp_of].
  assert (Hdel : exists db1 ret, (if update then db4_delete_key malloc_ok (fp_of (kf_fp f)) true else mret 0)
      (within intrans db) = Done (db1, ret) /\ ret <> -1 /\ consistent db1 (delete (kf_fp f) keys) /\ db_txn db1 = true).
  { destruct update.
    - destruct (delete_key_runs (within intrans db) keys (kf_fp f) true) as (db1 & ret & E & H1 & Hs & Hr & _ & _);
        [by apply consistent_within | by destruct intrans | apply Hd |].
      exists db1, ret. split; [done|]. split; [done|]. split; [done|]. rewrite (proj2 Hs). by destruct intrans.
    - exists (within intrans db), 0. rewrite delete_id by naive_solver.
      split; [done|]. split; [done|]. split; [by apply consistent_within | by destruct intrans]. }
  destruct Hdel as (db1 & ret & E1 & Hret & H1 & Ht1).
  destruct (store_data_runs key f db1 Hd (co_calm _ _ H1) (co_numdbs _ _ H1)) as (db2 & E2 & I).
  assert (H2 := inserted_consistent _ _ _ _ _ H1 (lookup_delete_eq keys (kf_fp f)) Hd I).
  rewrite insert_delete_eq in H2.
  assert (Ht2 : db_txn db2 = true) by (by rewrite (proj2 (is_ctx _ _ _ _ I))).
  exists (set_txn db2 intrans). split; [|split; [done | by apply consistent_txn]].
  erewrite (dbM_bind_Done _ _ db (within intrans db) ()).
  2: { destruct intrans; [done|]. cbn [negb when within]. unfold db4_starttrans. by rewrite Ht. }
  runs E1. erewrite (dbM_bind_Done _ _ db1 db2 false).
  2: { rewrite (proj2 (Z.eqb_neq ret (-1))), andb_false_r by done. exact E2. }
  destruct intrans; cbn [negb when].
  - rewrite mret_bind. unfold mret, dbM_ret. do 2 f_equal. destruct db2. cbn in *. by subst.
  - unfold mbind, dbM_bind, db4_endtrans. by rewrite Ht2.
Qed.

(** * Properties *)

(** C6: [db4_store_key] refines the insertion into a map from fingerprints to
    keys: as an update, or for a key that is not there yet, it succeeds, leaves
    the transaction as it was, and the tables represent the map with the key
    under its fingerprint -- the old version with all its words and key ids is
    gone, and the indices have exactly the entries of the stored keys. *)
Theorem db4_store_key_refines db keys key f intrans update :
  consistent db keys -> db_txn db = intrans -> describes key f ->
  update = true \/ keys !! kf_fp f = None ->
  exists db', db4_store_key malloc_ok key intrans update db = Done (db', 0) /\ db_txn db' = intrans /\
    consistent db' (<[kf_fp f := (reparsed key, f)]> keys).
Proof. apply store_key_runs. Qed.

(** C14: [db4_delete_key] refines the removal from the map: of the tables with
    the keys, the words and the key ids exactly the records of the key with the
    fingerprint are gone; of the SKS hash table its own record; and of the subkey
    table the records under its subkeys, also where they point to another key
    that has the same subkey.  A fingerprint that is only one of a subkey takes
    the records of all subkeys of the key the subkey table points to, and nothing
    else.  The result is 0 if there was a key with the fingerprint (and its SKS
    hash was indexed), and 1 otherwise. *)
Theorem db4_delete_key_refines db keys b intrans :
  consistent db keys -> db_txn db = intrans -> 8 <= zlen b ->
  exists db' ret, db4_delete_key malloc_ok (fp_of b) intrans db = Done (db', ret) /\ db_txn db' = intrans /\
    consistent db' (delete b keys) /\ records_after db keys b db' /\
    ret = match keys !! b with
          | Some (_, f) => if decide (b ∈ view db SksHashDb (kf_hash f)) then 0 else 1
          | None => 1
          end.
Proof.
  intros H Ht Hb. destruct (delete_key_runs db keys b intrans H Ht Hb) as (db' & ret & E & H' & [_ Hs] & _ & Hrec & Hr).
  exists db', ret. split; [done|]. split; [congruence|]. done.
Qed.
End Facts.
