(* ===== verification/Db4Lookup.v ===== *)
(** The lookups of the Berkeley DB backend over the map of keys that the tables
    represent: by key id, by text and by SKS hash. *)

From stdpp Require Import gmap.
From S2P Require Import Prelude OpenPGP Streams Packets Keys KeyId Decode SksHash KeyBuffer KeyArray Words Db4 Db4Facts.

(** * Arrays that grow *)

(** The allocation is at most twice what is used. *)
Definition snug (a : keyarray) : Prop := ka_size a <= Z.max 16 (2 * ka_count a).

Lemma array_add_snug a fp a' b :
  array_add a fp = Done (a', b) -> wf_array a -> snug a -> snug a' /\ ka_count a <= ka_count a' <= ka_count a + 1.
Proof.
  unfold array_add, snug. intros H (_ & Hc & Hs & _) Hb. apply bind_Done in H as ([found pos] & _ & H).
  destruct found; [injection H as <- <-; lia|].
  destruct (Z.eqb_spec (ka_size a) 0).
  { apply bind_Done in H as (keys & _ & H). injection H as <- <-. cbn [ka_size ka_count]. lia. }
  destruct (Z.leb_spec (ka_size a) (ka_count a)); apply bind_Done in H as (keys & _ & H); injection H as <- <-;
    cbn [ka_size ka_count]; rewrite !u64_small by lia; lia.
Qed.

(** Adding a fingerprint as a set operation. *)
Lemma array_add_set a fp :
  wf_array a -> snug a -> wf_fp fp -> ka_count a < 2 ^ 28 ->
  exists a' b, array_add a fp = Done (a', b) /\ wf_array a' /\ snug a' /\ ka_count a' <= ka_count a + 1 /\
    forall x, x ∈ elements a' <-> x = fp \/ x ∈ elements a.
Proof.
  intros Hw Hs Hf Hc. destruct (array_add_spec a fp Hw Hf) as (a' & b & E & Hw' & Hb & Hp & _).
  { unfold snug in Hs. lia. }
  destruct (array_add_snug _ _ _ _ E Hw Hs) as [Hs' Hc']. exists a', b. split; [done|]. split; [done|]. split; [done|].
  split; [lia|]. intros x. rewrite Hp, Hb. case_bool_decide; cbn [negb]; set_solver.
Qed.

Definition empty_array : keyarray := mkArray [] 0 0.

Lemma empty_array_wf : wf_array empty_array /\ snug empty_array.
Proof. split; [|unfold snug; cbn; lia]. split_and!; try done; try (cbn; lia). Qed.

Section Lookup.
Context {T : Type} {B : Bdb T} {L : BdbLaws T} {HF : Hashes} {BC : BuildConfig}.
Variable malloc_ok : Z -> bool.
Abbreviation db4 := (@db4 T).
Abbreviation keymap := (gmap (list Z) (openpgp_publickey * key_facts)).
Abbreviation consistent := (consistent malloc_ok).

(** * Records that name stored keys *)

(** The keys under a list of fingerprints. *)
Definition keys_at (keys : keymap) (fps : list (list Z)) : list openpgp_publickey :=
  omap (fun fp => fst <$> keys !! fp) fps.

Lemma index_stored (db : db4) keys t x fp :
  consistent db keys -> indexed t = true -> fp ∈ view db t x ->
  exists k f, keys !! fp = Some (k, f) /\ (t, x) ∈ entries f /\ 8 <= zlen fp <= MAX_FINGERPRINT_LEN.
Proof.
  intros H Ht Hin. apply occ_elem in Hin. rewrite (co_index _ _ _ H) in Hin by done.
  destruct (keys !! fp) as [[k f]|] eqn:E; [|lia]. exists k, f. split; [done|]. split; [by apply occ_elem|].
  by eapply co_fp_length.
Qed.

Lemma i32_succ x y : i32 (i32 x + y) = i32 (x + y).
Proof.
  unfold i32. f_equal.
  replace ((x + 2 ^ 31) mod 2 ^ 32 - 2 ^ 31 + y + 2 ^ 31) with ((x + 2 ^ 31) mod 2 ^ 32 + y) by lia.
  rewrite Zplus_mod_idemp_l. f_equal. lia.
Qed.

Lemma found_stored (db : db4) (keys : keymap) fp k f : keys !! fp = Some (k, f) -> found_by db keys true fp = Some k.
Proof. unfold found_by. by intros ->. Qed.

(** The loop over the duplicates of a key id. *)
Lemma fetch_dups_runs (db : db4) keys fps : forall prev n,
  consistent db keys -> db_txn db = true ->
  Forall (fun fp => is_Some (keys !! fp) /\ 8 <= zlen fp <= MAX_FINGERPRINT_LEN) fps ->
  fetch_dups malloc_ok fps prev (i32 n) db = Done (db, (i32 (n + zlen fps), prev ++ keys_at keys fps)).
Proof.
  induction fps as [|fp fps IH]; intros prev n H Ht Hf; cbn [fetch_dups].
  - by rewrite zlen_nil, Z.add_0_r, app_nil_r.
  - apply Forall_cons in Hf as [([[k f] E] & Hl) Hf].
    destruct (Z.ltb_spec MAX_FINGERPRINT_LEN (zlen fp)); [lia|].
    unfold db4_fetch_key_fp. change (mkFingerprint (zlen fp) fp) with (fp_of fp).
    rewrite (dbM_bind_Done _ _ _ _ _ (fetch_key_int_runs malloc_ok db keys fp prev true true H Ht ltac:(lia))).
    rewrite (found_stored _ _ _ _ _ E). cbn [Z.eqb]. rewrite i32_succ, IH by done.
    rewrite zlen_cons, <- app_assoc. unfold keys_at. cbn [omap list_omap]. rewrite E. cbn.
    by replace (n + (1 + zlen fps)) with (n + 1 + zlen fps) by lia.
Qed.

(** The table and the octets a key id is looked up with. *)
Definition keyid_entry (keyid : Z) : table * list Z :=
  if keyid <? 0x100000000 then (Id32Db, le_bytes 4 (shortkeyid keyid)) else (Id64Db, le_bytes 8 keyid).

(** The ids of a key: its own and those of its subkeys. *)
Definition keyids (f : key_facts) : list Z := kf_keyid f :: map snd (kf_subs f).

Lemma entries_split f : entries f = word_entries (kf_words f) ++ concat (map id_entries (keyids f)).
Proof. unfold entries, keyids, sub_entries. cbn [map concat]. by rewrite map_map. Qed.

Lemma occ_words t x ws : t <> WordDb -> occ (t, x) (word_entries ws) = O.
Proof.
  intros Ht. induction ws as [|w ws IH]; [done|]. unfold word_entries in *. cbn [map].
  by rewrite occ_cons, IH, decide_False by congruence.
Qed.

Lemma occ_ids32 x l : occ (Id32Db, x) (concat (map id_entries l)) = occ x (map (fun i => le_bytes 4 (shortkeyid i)) l).
Proof.
  induction l as [|i l IH]; [done|]. cbn [map concat id_entries app]. rewrite !occ_cons, IH.
  repeat case_decide; simplify_eq; lia.
Qed.

Lemma occ_ids64 x l : occ (Id64Db, x) (concat (map id_entries l)) = occ x (map (le_bytes 8) l).
Proof.
  induction l as [|i l IH]; [done|]. cbn [map concat id_entries app]. rewrite !occ_cons, IH.
  repeat case_decide; simplify_eq; lia.
Qed.

(** How often a key has an id: its own and those of its subkeys, compared in
    their last 32 bits if the id has no more. *)
Definition times_keyid (keyid : Z) (f : key_facts) : nat :=
  if keyid <? 0x100000000 then occ (le_bytes 4 (shortkeyid keyid)) (map (fun i => le_bytes 4 (shortkeyid i)) (keyids f))
  else occ (le_bytes 8 keyid) (map (le_bytes 8) (keyids f)).

Lemma entries_keyid f keyid : occ (keyid_entry keyid) (entries f) = times_keyid keyid f.
Proof.
  rewrite entries_split, occ_app. unfold keyid_entry, times_keyid.
  destruct (keyid <? 0x100000000); rewrite occ_words by done; [apply occ_ids32 | apply occ_ids64].
Qed.

(** A lookup by key id returns each stored key as often as the id is the id
    of the key or of one of its subkeys -- short ids compare with the last 32
    bits -- and no other key; the result is their number. *)
Theorem db4_fetch_key_id_correct (db : db4) keys keyid prev intrans :
  consistent db keys -> db_txn db = intrans ->
  exists fps, db4_fetch_key_id malloc_ok keyid prev intrans db =
      Done (db, (i32 (zlen fps), prev ++ keys_at keys fps)) /\
    forall fp, occ fp fps = match keys !! fp with Some (_, f) => times_keyid keyid f | None => O end.
Proof.
  intros H Ht. set (t := (keyid_entry keyid).1). set (x := (keyid_entry keyid).2).
  assert (Hix : indexed t = true) by (unfold t, keyid_entry; by destruct (keyid <? _)).
  exists (view db t x). split.
  2: { intros fp. rewrite (co_index _ _ _ H) by done. destruct (keys !! fp) as [[k f]|]; [|done].
       unfold t, x. by rewrite <- surjective_pairing, entries_keyid. }
  assert (H1 := consistent_within malloc_ok db keys intrans H).
  assert (Hv : view (within intrans db) t x = view db t x) by by destruct intrans.
  unfold db4_fetch_key_id. erewrite (dbM_bind_Done _ _ db (within intrans db) ()).
  2: { destruct intrans; [done|]. cbn [negb when within]. unfold db4_starttrans. by rewrite Ht. }
  change (if keyid <? 0x100000000 then _ else _) with (keyid_entry keyid). rewrite (surjective_pairing (keyid_entry keyid)).
  fold t x. rewrite (dbM_bind_Done _ _ _ _ _ (cursor_runs _ t (co_calm _ _ _ H1))). cbn [Z.eqb negb].
  erewrite (dbM_bind_Done _ _ _ (within intrans db) (view db t x)).
  2: { rewrite law_dups by apply (co_calm _ _ _ H1). by destruct intrans. }
  change 0 with (i32 0) at 1. erewrite dbM_bind_Done.
  2: { apply fetch_dups_runs; [exact H1 | by destruct intrans |]. apply list.Forall_forall. intros fp Hin.
       rewrite <- Hv in Hin. destruct (index_stored _ keys t x fp H1 Hix Hin) as (k & f & E & _ & Hl). eauto. }
  rewrite Z.add_0_l. destruct intrans; cbn [negb when within] in *; [done|].
  unfold mbind, dbM_bind, db4_endtrans, mret, dbM_ret. cbn. do 2 f_equal. destruct db. cbn in *. by subst.
Qed.

(** A lookup by SKS hash returns the one key the hash is indexed for, whose
    hash it is, or none. *)
Theorem db4_fetch_key_skshash_correct (db : db4) keys h prev :
  consistent db keys -> db_txn db = false ->
  match view db SksHashDb h with
  | [] => db4_fetch_key_skshash malloc_ok h prev db = Done (db, (0, prev))
  | fp :: _ => exists k f, keys !! fp = Some (k, f) /\ kf_hash f = h /\
      db4_fetch_key_skshash malloc_ok h prev db = Done (db, (1, prev ++ [k]))
  end.
Proof.
  intros H Ht. unfold db4_fetch_key_skshash.
  rewrite (dbM_bind_Done _ _ _ _ _ (cursor_runs db SksHashDb (co_calm _ _ _ H))). cbn [Z.eqb negb].
  destruct (co_hash _ _ _ H h) as [Ev | (fp & k & f & Ev & E & ->)]; rewrite Ev.
  - rewrite (dbM_bind_Done _ _ _ _ _ (get_fp_runs db SksHashDb h (co_calm _ _ _ H) ltac:(by rewrite Ev))), Ev.
    destruct law_codes as (Hn & _). by destruct (Z.eqb_spec DB_NOTFOUND 0).
  - exists k, f. split; [done|]. split; [done|]. assert (Hl := co_fp_length _ _ _ _ _ _ H E).
    rewrite (dbM_bind_Done _ _ _ _ _ (get_fp_runs db SksHashDb _ (co_calm _ _ _ H) ltac:(rewrite Ev; lia))), Ev.
    cbn [Z.eqb]. change (mkFingerprint (zlen fp) fp) with (fp_of fp). unfold db4_fetch_key_fp.
    rewrite (fetch_key_int_runs malloc_ok db keys fp prev false true H Ht) by lia.
    by rewrite (found_stored _ _ _ _ _ E).
Qed.

(** * Text *)

(** The array holds a subset of the fingerprints [fps]. *)
Definition holds (a : keyarray) (P : list Z -> Prop) : Prop :=
  wf_array a /\ snug a /\ forall x, x ∈ elements a <-> exists b, x = fp_of b /\ P b.

Lemma fp_of_wf b : wf_fp (fp_of b).
Proof. done. Qed.

#[local] Instance fp_of_inj : Inj (=) (=) fp_of.
Proof. intros a b [= _ E]. done. Qed.

(** The test for the words seen before. *)
Lemma array_find_holds keylist Q first fp :
  (first = false -> holds keylist Q) ->
  exists found, (if first then Done true else array_find keylist (fp_of fp)) = Done found /\
    (found = true <-> first = true \/ Q fp).
Proof.
  intros Hk. destruct first; [by exists true; split; [|tauto]|]. destruct (Hk eq_refl) as (Hw & _ & Hx).
  rewrite (array_find_spec keylist (fp_of fp) Hw (fp_of_wf fp)). eexists. split; [done|].
  rewrite bool_decide_eq_true, Hx. split.
  - intros (b & E & Hb). apply (inj fp_of) in E as ->. auto.
  - intros [|]; [done|]. eauto.
Qed.

Lemma array_add_holds new P (found : bool) fp :
  holds new P -> ka_count new < 2 ^ 28 ->
  exists new' b, (if found then array_add new (fp_of fp) else Done (new, false)) = Done (new', b) /\
    ka_count new' <= ka_count new + 1 /\ holds new' (fun b => P b \/ (b = fp /\ found = true)).
Proof.
  intros (Hw & Hs & Hx) Hc. destruct found.
  - destruct (array_add_set new (fp_of fp) Hw Hs (fp_of_wf fp) Hc) as (a' & b & E & Hw' & Hs' & Hc' & Hx').
    exists a', b. split; [done|]. split; [done|]. split; [done|]. split; [done|]. intros x. rewrite Hx', Hx.
    split; [intros [-> | (b' & -> & Hb')]; eauto 6|]. intros (b' & -> & [Hb' | [-> _]]); [right; eauto | by left].
  - exists new, false. split; [done|]. split; [lia|]. split; [done|]. split; [done|]. intros x. rewrite Hx.
    split; [intros (b' & -> & Hb'); eauto|]. intros (b' & -> & [Hb' | [-> ?]]); [eauto | done].
Qed.

Lemma word_records_runs recs w first keylist rest Q : forall new P,
  (first = false -> holds keylist Q) ->
  match rest with [] => True | (k, _) :: _ => k <> w end ->
  Forall (fun fp => zlen fp <= MAX_FINGERPRINT_LEN) recs ->
  holds new P -> ka_count new + zlen recs < 2 ^ 28 ->
  exists a, word_records (map (pair w) recs ++ rest) w first keylist new = Done a /\
    holds a (fun b => P b \/ (b ∈ recs /\ (first = true \/ Q b))).
Proof.
  induction recs as [|fp recs IH]; intros new P Hk Hrest Hl Hnew Hc; cbn [map app].
  - exists new. split.
    + destruct rest as [|[k d] rest]; [done|]. cbn [word_records]. by rewrite bool_decide_false.
    + destruct Hnew as (? & ? & Hx). split; [done|]. split; [done|]. intros x. rewrite Hx.
      split; intros (b & -> & Hb); exists b; [auto|]. split; [done|].
      destruct Hb as [? | [?%elem_of_nil _]]; done.
  - apply Forall_cons in Hl as [Hfp Hl]. rewrite zlen_cons in Hc. pose proof (zlen_nonneg recs).
    cbn [word_records]. rewrite bool_decide_true by done.
    destruct (Z.ltb_spec MAX_FINGERPRINT_LEN (zlen fp)); [lia|]. change (mkFingerprint (zlen fp) fp) with (fp_of fp).
    destruct (array_find_holds keylist Q first fp Hk) as (found & -> & Hq). cbn [mbind outcome_bind].
    destruct (array_add_holds new P found fp Hnew ltac:(lia)) as (new' & b & -> & Hc' & Hnew'). cbn [mbind outcome_bind].
    destruct (IH new' _ Hk Hrest Hl Hnew' ltac:(lia)) as (a & E & Hw & Hs & Hx). exists a. split; [done|].
    split; [done|]. split; [done|]. intros x. rewrite Hx.
    split; intros (b' & -> & Hb'); exists b'; (split; [done|]); rewrite elem_of_cons in *; naive_solver.
Qed.

(** The pass over the words of a search. *)
Lemma text_words_runs (db : db4) keys words : forall first keylist Q,
  consistent db keys -> db_txn db = false -> (forall w, zlen (view db WordDb w) < 2 ^ 28) ->
  (first = false -> holds keylist Q) -> words <> [] \/ first = false ->
  exists a, text_words words first keylist db = Done (db, a) /\
    holds a (fun b => (first = true \/ Q b) /\ forall w, w ∈ words -> b ∈ view db WordDb w).
Proof.
  induction words as [|w words IH]; intros first keylist Q H Ht Hsmall Hk Hne; cbn [text_words].
  { destruct Hne as [|Hf]; [done|]. destruct (Hk Hf) as (Hw & Hs & Hx). exists keylist. split; [done|].
    split; [done|]. split; [done|]. intros x. rewrite Hx.
    split; intros (b & -> & Hb); exists b; (split; [done|]); [|destruct Hb as [[|] _]; congruence].
    split; [auto | by intros w ?%elem_of_nil]. }
  set (db1 := set_txn db true). assert (H1 : consistent db1 keys) by by apply consistent_txn.
  rewrite (dbM_bind_Done db4_starttrans _ db db1 ()) by (unfold db4_starttrans; by rewrite Ht).
  rewrite (dbM_bind_Done _ _ _ _ _ (cursor_runs db1 WordDb (co_calm _ _ _ H1))). cbn [Z.eqb negb].
  destruct (law_from _ w (proj1 (co_calm _ _ _ H1 WordDb))) as (rest & Ef & Hrest).
  rewrite (dbM_bind_Done _ _ db1 db1 (map (pair w) (view db WordDb w) ++ rest)) by (by rewrite Ef).
  destruct (word_records_runs (view db WordDb w) w first keylist rest Q empty_array (fun _ => False))
    as (a & E & Ha); [done | done | | | |].
  { apply list.Forall_forall. intros fp Hin. destruct (index_stored db keys WordDb w fp H eq_refl Hin) as (? & ? & _ & _ & ?). lia. }
  { destruct empty_array_wf. split; [done|]. split; [done|]. intros x. split; [by intros ?%elem_of_nil | by intros (? & _ & ?)]. }
  { cbn. apply Hsmall. }
  rewrite (lift_bind _ _ _ _ E).
  rewrite (dbM_bind_Done db4_endtrans _ db1 db ()).
  2: { unfold db4_endtrans, db1. cbn. do 2 f_equal. destruct db. cbn in *. by subst. }
  destruct (IH false a _ H Ht Hsmall (fun _ => Ha) (or_intror eq_refl)) as (a' & E' & Hw' & Hs' & Hx').
  exists a'. split; [done|]. split; [done|]. split; [done|]. intros x. rewrite Hx'.
  split; intros (b & -> & Hb); exists b; (split; [done|]).
  - destruct Hb as [[? | [? | [Hin Hor]]] Hall]; try done. split; [done|]. intros w' [-> |]%elem_of_cons; auto.
  - destruct Hb as [Hor Hall]. split; [right; right|]; set_solver.
Qed.

Lemma fetch_all_runs (db : db4) keys fps : forall prev n,
  consistent db keys -> db_txn db = true ->
  Forall (fun fp => is_Some (keys !! fp) /\ 8 <= zlen fp <= MAX_FINGERPRINT_LEN) fps ->
  fetch_all malloc_ok (map fp_of fps) prev (i32 n) db = Done (db, (i32 (n + zlen fps), prev ++ keys_at keys fps)).
Proof.
  induction fps as [|fp fps IH]; intros prev n H Ht Hf; cbn [fetch_all map].
  - by rewrite zlen_nil, Z.add_0_r, app_nil_r.
  - apply Forall_cons in Hf as [([[k f] E] & Hl) Hf]. unfold db4_fetch_key_fp.
    rewrite (dbM_bind_Done _ _ _ _ _ (fetch_key_int_runs malloc_ok db keys fp prev true true H Ht ltac:(lia))).
    rewrite (found_stored _ _ _ _ _ E). rewrite i32_succ, IH by done.
    rewrite zlen_cons, <- app_assoc. unfold keys_at. cbn [omap list_omap]. rewrite E. cbn.
    by replace (n + (1 + zlen fps)) with (n + 1 + zlen fps) by lia.
Qed.

(** An array of fingerprints as a list of octet strings. *)
Lemma holds_list a P : holds a P -> exists fps, elements a = map fp_of fps /\ NoDup fps /\ forall b, b ∈ fps <-> P b.
Proof.
  intros (Hw & Hs & Hx). exists (map fp_bytes (elements a)).
  assert (He : elements a = map fp_of (map fp_bytes (elements a))).
  { rewrite map_map. symmetry. transitivity (map (fun x => x) (elements a)); [|apply map_id].
    apply map_ext_in. intros x Hin. apply list_elem_of_In in Hin. apply Hx in Hin as (b & -> & _). done. }
  split; [done|]. split.
  - apply (NoDup_fmap_1 fp_of). change (fp_of <$> _) with (map fp_of (map fp_bytes (elements a))). rewrite <- He.
    apply NoDup_alt. intros i j x Hi Hj. destruct Hw as (_ & _ & _ & _ & Hsort).
    assert (Hwf : wf_fp x). { apply list_elem_of_lookup_2, Hx in Hi as (b & -> & _). apply fp_of_wf. }
    pose proof (fingerprint_cmp_opp x x Hwf Hwf). unfold sorted_fps, fp_lt in Hsort.
    destruct (lt_eq_lt_dec i j) as [[Hlt | ->] | Hlt]; [|done|].
    + pose proof (Hsort i j x x Hlt Hi Hj). lia.
    + pose proof (Hsort j i x x Hlt Hj Hi). lia.
  - intros b. transitivity (fp_of b ∈ elements a).
    + rewrite He at 2. change (map fp_of ?l) with (fp_of <$> l). by rewrite (list_elem_of_fmap_inj fp_of).
    + rewrite Hx. split; [intros (b' & E%(inj fp_of) & Hb'); by subst | eauto].
Qed.

Lemma add_words_elem ws : forall wl w, w ∈ foldl add_word wl ws <-> w ∈ wl \/ w ∈ ws.
Proof.
  induction ws as [|v ws IH]; intros wl w; cbn [foldl]; [set_solver|]. rewrite IH. unfold add_word.
  case_bool_decide; set_solver.
Qed.

(** What a search text asks for. *)
Definition matches (keys : keymap) (search : list Z) (fp : list Z) : Prop :=
  words_of (c_string search) <> [] /\ exists k f, keys !! fp = Some (k, f) /\
    forall w, w ∈ words_of (c_string search) -> w ∈ kf_words f.

Lemma elem_word_entries f w : (WordDb, w) ∈ entries f <-> w ∈ kf_words f.
Proof.
  rewrite entries_split. rewrite elem_of_app. unfold word_entries. split.
  - intros [Hin | Hin].
    + apply list_elem_of_fmap in Hin as (v & [= ->] & Hin). done.
    + apply list_elem_of_In, in_concat in Hin as (l & (i & <- & _)%in_map_iff & Hl). cbn in Hl. naive_solver.
  - intros Hin. left. apply list_elem_of_fmap. eauto.
Qed.

Lemma view_words (db : db4) keys w fp :
  consistent db keys -> fp ∈ view db WordDb w <-> exists k f, keys !! fp = Some (k, f) /\ w ∈ kf_words f.
Proof.
  intros H. rewrite occ_elem, (co_index _ _ _ H) by done. destruct (keys !! fp) as [[k f]|].
  - rewrite <- occ_elem, elem_word_entries. naive_solver.
  - split; [lia | naive_solver].
Qed.

(** The fingerprints the words of a search have in common. *)
Lemma text_list (db : db4) keys search :
  consistent db keys -> db_txn db = false -> (forall w, zlen (view db WordDb w) < 2 ^ 28) ->
  exists words a, makewordlist [] search = Done words /\ text_words words true empty_array db = Done (db, a) /\
    holds a (matches keys search).
Proof.
  intros H Ht Hsmall. rewrite makewordlist_correct by constructor.
  remember (foldl add_word [] (words_of (c_string search))) as words eqn:Ewords. exists words.
  assert (Hmem : forall w, w ∈ words <-> w ∈ words_of (c_string search)).
  { intros w. rewrite Ewords, add_words_elem. set_solver. }
  clear Ewords.
  destruct (decide (words = [])) as [E | Hne].
  - assert (words_of (c_string search) = []) as Ew by (apply elem_of_nil_inv; intros w Hw; apply Hmem in Hw; rewrite E in Hw; set_solver).
    exists empty_array. rewrite E. split; [done|]. split; [done|]. destruct empty_array_wf. split; [done|]. split; [done|].
    intros x. split; [by intros ?%elem_of_nil | by intros (? & _ & ? & _)].
  - destruct (text_words_runs db keys words true empty_array (fun _ => True) H Ht Hsmall) as (a & E & Hw & Hs & Hx);
      [done | by left |].
    exists a. split; [done|]. split; [done|]. split; [done|]. split; [done|]. intros x. rewrite Hx.
    destruct words as [|w0 words]; [done|].
    assert (w0 ∈ words_of (c_string search)) as Hw0 by (apply Hmem; left).
    split; intros (b & -> & Hb); exists b; (split; [done|]).
    + split; [intros E'; rewrite E' in Hw0; by apply elem_of_nil in Hw0|].
      destruct Hb as [_ Hb]. destruct (proj1 (view_words db keys w0 b H) (Hb w0 ltac:(left))) as (k & f & Ek & _).
      exists k, f. split; [done|]. intros w Hw1%Hmem. apply Hb in Hw1. apply (view_words db keys w b H) in Hw1. naive_solver.
    + destruct Hb as (_ & k & f & Ek & Hall). split; [by left|]. intros w Hw1%Hmem.
      apply (view_words db keys w b H). eauto.
Qed.

(** C15: a text search returns the keys whose user ids contain every word of the
    search (words of two letters or more, regardless of case), each once, and
    at most [maxkeys] of them; a search without words finds nothing. *)
Theorem db4_fetch_key_text_correct (db : db4) keys maxkeys search prev :
  consistent db keys -> db_txn db = false -> (forall w, zlen (view db WordDb w) < 2 ^ 28) ->
  0 <= maxkeys < 2 ^ 31 ->
  exists fps, NoDup fps /\ (forall fp, fp ∈ fps <-> matches keys search fp) /\
    db4_fetch_key_text malloc_ok maxkeys search prev db =
    Done (db, (i32 (zlen (take (Z.to_nat maxkeys) fps)), prev ++ keys_at keys (take (Z.to_nat maxkeys) fps))).
Proof.
  intros H Ht Hsmall Hm. destruct (text_list db keys search H Ht Hsmall) as (words & a & Ew & Ea & Ha).
  destruct (holds_list a _ Ha) as (fps & Ef & Hnd & Hfps). exists fps. split; [done|]. split; [done|].
  destruct Ha as (Hw & _ & _). assert (Hc := zlen_elements a Hw). destruct Hw as (_ & Hcnt & _).
  rewrite Ef in Hc. unfold zlen in Hc. rewrite length_map in Hc.
  unfold db4_fetch_key_text. rewrite (lift_bind _ _ _ _ Ew). change (mkArray [] 0 0) with empty_array.
  rewrite (dbM_bind_Done _ _ _ _ _ Ea). rewrite u64_small by lia.
  rewrite (dbM_bind_Done db4_starttrans _ db (set_txn db true) ()) by (unfold db4_starttrans; by rewrite Ht).
  assert (Htake : take (Z.to_nat (if maxkeys <? ka_count a then maxkeys else ka_count a)) (ka_keys a) =
    map fp_of (take (Z.to_nat maxkeys) fps)).
  { rewrite <- firstn_map, <- Ef. unfold elements. rewrite take_take. f_equal.
    destruct (Z.ltb_spec maxkeys (ka_count a)); lia. }
  rewrite Htake. change 0 with (i32 0) at 1. erewrite dbM_bind_Done.
  2: { apply fetch_all_runs; [by apply consistent_txn | done |]. apply Forall_take, list.Forall_forall.
       intros fp (_ & k & f & Ek & _)%Hfps. split; [eauto|]. by eapply co_fp_length. }
  rewrite Z.add_0_l. unfold mbind, dbM_bind, db4_endtrans, mret, dbM_ret. cbn. do 2 f_equal.
  destruct db. cbn in *. by subst.
Qed.

(** A lookup by fingerprint returns the key that has it, or with
    [db4_fetch_key_fp] the key the subkey table names for it, and leaves the
    database and the transaction as they were. *)
Theorem db4_fetch_key_correct (db : db4) keys b prev intrans :
  consistent db keys -> db_txn db = intrans -> 8 <= zlen b ->
  db4_fetch_key malloc_ok (fp_of b) prev intrans db =
    Done (db, match keys !! b with Some (k, _) => (1, prev ++ [k]) | None => (0, prev) end) /\
  db4_fetch_key_fp malloc_ok (fp_of b) prev intrans db =
    Done (db, match found_by db keys true b with Some k => (1, prev ++ [k]) | None => (0, prev) end).
Proof.
  intros H Ht Hb. unfold db4_fetch_key, db4_fetch_key_fp. rewrite !(fetch_key_int_runs malloc_ok db keys) by done.
  split; [|done]. unfold found_by. by destruct (keys !! b) as [[? ?]|].
Qed.

(** Deleting a key by the fingerprint of one of its subkeys fails, and still
    drops the records of all its subkeys: the key stays, but can no longer be
    found by the fingerprint it was found by before. *)
Theorem db4_delete_by_subkey (db : db4) keys s k prev :
  consistent db keys -> db_txn db = false -> 8 <= zlen s ->
  keys !! s = None -> found_by db keys true s = Some k ->
  exists db', db4_delete_key malloc_ok (fp_of s) false db = Done (db', 1) /\ consistent db' keys /\
    db4_fetch_key_fp malloc_ok (fp_of s) prev false db = Done (db, (1, prev ++ [k])) /\
    db4_fetch_key_fp malloc_ok (fp_of s) prev false db' = Done (db', (0, prev)).
Proof.
  intros H Ht Hs Hn Hf.
  assert (Hsub : exists fp0 f, keys !! fp0 = Some (k, f) /\ s ∈ map fst (kf_subs f)).
  { unfold found_by in Hf. rewrite Hn in Hf. destruct (co_subkey _ _ _ H s) as [E | (fp0 & k' & f & E & Ek & Hin)];
      rewrite E in Hf; [done|]. rewrite Ek in Hf. simplify_eq/=. eauto. }
  destruct Hsub as (fp0 & f & Ek & Hin). destruct (co_keys _ _ _ H _ _ _ Ek) as (Hd & _ & _).
  set (db1 := set_txn db true). assert (H1 : consistent db1 keys) by by apply consistent_txn.
  destruct (delete_found_runs malloc_ok k f s db1 Hd (co_calm _ _ _ H1) (co_numdbs _ _ _ H1) Hs) as (db2 & E2 & D).
  assert (H2 := deleted_consistent malloc_ok _ _ _ _ _ _ _ H1 Ek (or_intror Hn) D). rewrite delete_id in H2 by done.
  exists (set_txn db2 false).
  assert (Hnot : s ∉ view db1 SksHashDb (kf_hash f)).
  { destruct (co_hash _ _ _ H1 (kf_hash f)) as [Ev | (fp & k1 & f1 & Ev & E1 & _)]; rewrite Ev;
      [apply not_elem_of_nil|]. intros ->%list_elem_of_singleton. congruence. }
  split; [|split; [by apply consistent_txn|]].
  - unfold db4_delete_key. apply txn_runs; [done | | rewrite (proj2 (dl_ctx _ _ _ _ D)); done].
    unfold delete_body, db4_fetch_key_fp. cbn [within]. fold db1.
    rewrite (dbM_bind_Done _ _ _ _ _ (fetch_key_int_runs malloc_ok db1 keys s [] true true H1 eq_refl Hs)).
    change (found_by db1 keys true s) with (found_by db keys true s). rewrite Hf. cbn [app Z.eqb].
    rewrite (lift_bind _ _ _ _ (de_keyid _ _ _ Hd)). rewrite (dbM_bind_Done _ _ _ _ _ E2).
    by rewrite decide_False.
  - unfold db4_fetch_key_fp. rewrite (fetch_key_int_runs malloc_ok db keys) by done. rewrite Hf. split; [done|].
    rewrite (fetch_key_int_runs malloc_ok (set_txn db2 false) keys) by (done || by apply consistent_txn).
    unfold found_by. rewrite Hn. change (view (set_txn db2 false) SubkeyDb s) with (view db2 SubkeyDb s).
    by rewrite (dl_subkey _ _ _ _ D), decide_True.
Qed.
End Lookup.
