(* ===== verification/Db4Example.v ===== *)
(** A concrete table library and a small database: the laws of [BdbLaws] can
    hold, and the theorems about the Berkeley DB backend apply to tables that
    are built with the backend's own operations. *)

From stdpp Require Import gmap strings.
From S2P Require Import Prelude OpenPGP Streams Packets Keys KeyId Decode SksHash KeyBuffer KeyArray Words Db4 Db4Facts Db4Lookup.

(** A table with or without duplicates. *)
Record toy_table : Type := mkTable {
  tt_dup : bool;
  tt_recs : gmap (list Z) (list (list Z))
}.

Definition toy_recs (t : toy_table) (k : list Z) : list (list Z) := default [] (tt_recs t !! k).

Definition toy_set (t : toy_table) (k : list Z) (l : list (list Z)) : toy_table :=
  mkTable (tt_dup t) (<[k := l]> (tt_recs t)).

#[global] Instance toy_bdb : Bdb toy_table := {|
  DB_NOTFOUND := -30988;
  DB_LOCK_DEADLOCK := -30993;
  DB_BUFFER_SMALL := -30999;
  bdb_get t k := match toy_recs t k with [] => (-30988, []) | d :: _ => (0, d) end;
  bdb_put t k d := (toy_set t k (if tt_dup t then toy_recs t k ++ [d] else [d]), 0);
  bdb_del t k := (toy_set t k [], match toy_recs t k with [] => -30988 | _ => 0 end);
  bdb_cursor _ := 0;
  bdb_get_both t k d := if decide (d ∈ toy_recs t k) then 0 else -30988;
  bdb_c_del t k d := (toy_set t k (remove_first d (toy_recs t k)), 0);
  bdb_dups t k := toy_recs t k;
  bdb_from t k := map (pair k) (toy_recs t k);
  bdb_all t := concat (map (fun '(k, l) => map (pair k) l) (map_to_list (tt_recs t)))
|}.

Lemma toy_recs_set t k l k' : toy_recs (toy_set t k l) k' = if decide (k' = k) then l else toy_recs t k'.
Proof.
  unfold toy_recs, toy_set. cbn. destruct (decide (k' = k)) as [-> |].
  - by rewrite lookup_insert_eq.
  - by rewrite lookup_insert_ne.
Qed.

#[global] Instance toy_laws : BdbLaws toy_table.
Proof.
  refine {| quiet _ := True; allows_dup := tt_dup; recs := toy_recs |}.
  - done.
  - done.
  - intros t k d _. eexists. split; [done|]. split; [done|]. split; [done|]. intros k'. apply toy_recs_set.
  - intros t k _. eexists. split; [done|]. split; [done|]. split; [done|]. intros k'. apply toy_recs_set.
  - done.
  - done.
  - intros t k d _ _. eexists. split; [done|]. split; [done|]. split; [done|]. intros k'. apply toy_recs_set.
  - done.
  - intros t k _. exists []. by rewrite app_nil_r.
Defined.

#[local] Existing Instance toy_hashes.
#[local] Existing Instance full_build.

Definition anything (_ : Z) : bool := true.

(** The database after initialisation. *)
Definition fresh : @db4 toy_table := mkDb4 (fun t => mkTable (indexed t) ∅) 16 false.

Lemma fresh_consistent : consistent anything fresh ∅.
Proof. constructor; try done; intros; by left. Qed.

Definition facts_of (key : openpgp_publickey) : option key_facts :=
  match get_keyid key, get_fingerprint (pk_publickey key), keyuids key, keysubkeys key, get_skshash key with
  | Done (_, Some keyid), Done (_, fp), Done (uids, _), Done subs, Done (_, h) =>
      match uid_words [] (default [] uids) with
      | Done words =>
          Some (mkFacts (fp_bytes fp) keyid words
            (omap (fun s => match fingerprint2keyid s with
                            | Done i => if fp_length s =? 0 then None else Some (fp_bytes s, i)
                            | Fault _ => None
                            end) (default [] subs)) h)
      | Fault _ => None
      end
  | _, _, _, _, _ => None
  end.

(** A key with a user id and a subkey. *)
Definition alice : openpgp_publickey :=
  mkKey (mkPacket OPENPGP_PACKET_PUBLICKEY true 6 [4; 0; 0; 0; 1; 1]) false []
    [mkSigned (mkPacket OPENPGP_PACKET_UID false 21 (str "Alice <a@example.org>")) []]
    [mkSigned (mkPacket OPENPGP_PACKET_PUBLICSUBKEY true 7 [4; 0; 0; 0; 2; 1; 9]) []].

Definition alice_facts : key_facts := default (mkFacts [] 0 [] [] []) (facts_of alice).

Lemma alice_described : describes anything alice alice_facts.
Proof.
  constructor.
  - vm_compute. reflexivity.
  - vm_compute. reflexivity.
  - vm_compute. split; discriminate.
  - exists (Some [str "Alice <a@example.org>"]), (Some (str "Alice <a@example.org>")). vm_compute. done.
  - eexists. split; [vm_compute; reflexivity|]. cbn [default id].
    apply live_cons; [done | vm_compute; reflexivity |]. by apply live_end.
  - vm_compute. reflexivity.
  - constructor; try (apply (bool_decide_unpack _); vm_compute; exact I); vm_compute; reflexivity.
Qed.

Definition the_fp : list Z := kf_fp alice_facts.
Definition sub_fp : list Z := fst (default ([], 0) (head (kf_subs alice_facts))).

(** The database with the key in it. *)
Definition stored : @db4 toy_table :=
  match db4_store_key anything alice false false fresh with Done (db, _) => db | Fault _ => fresh end.

Definition one_key : gmap (list Z) (openpgp_publickey * key_facts) := 
  <[kf_fp alice_facts := (reparsed alice, alice_facts)]> ∅.

Lemma db4_store_key_refines_witness :
  exists db', db4_store_key anything alice false false fresh = Done (db', 0) /\ db_txn db' = false /\
    consistent anything db' (<[kf_fp alice_facts := (reparsed alice, alice_facts)]> ∅).
Proof.
  apply (db4_store_key_refines anything fresh ∅ alice alice_facts false false).
  - exact fresh_consistent.
  - reflexivity.
  - exact alice_described.
  - right. reflexivity.
Defined.

Lemma stored_consistent : consistent anything stored one_key /\ db_txn stored = false.
Proof.
  destruct (store_key_runs anything fresh ∅ alice alice_facts false false) as (db' & E & Ht & H);
    [exact fresh_consistent | done | exact alice_described | by right |].
  unfold stored. rewrite E. split; [exact H | exact Ht].
Qed.

Lemma db4_delete_key_refines_witness :
  exists db' ret, db4_delete_key anything (fp_of the_fp) false stored = Done (db', ret) /\ db_txn db' = false /\
    consistent anything db' (delete the_fp one_key) /\ records_after stored one_key the_fp db' /\
    ret = match one_key !! the_fp with
          | Some (_, f) => if decide (the_fp ∈ view stored SksHashDb (kf_hash f)) then 0 else 1
          | None => 1
          end.
Proof.
  apply (db4_delete_key_refines anything stored one_key the_fp false).
  - apply stored_consistent.
  - apply stored_consistent.
  - vm_compute. discriminate.
Defined.

Lemma db4_fetch_key_id_correct_witness :
  exists fps, db4_fetch_key_id anything (kf_keyid alice_facts) [] false stored =
      Done (stored, (i32 (zlen fps), [] ++ keys_at one_key fps)) /\
    forall fp, occ fp fps = match one_key !! fp with
                            | Some (_, f) => times_keyid (kf_keyid alice_facts) f
                            | None => O
                            end.
Proof.
  apply (db4_fetch_key_id_correct anything stored one_key (kf_keyid alice_facts) [] false); apply stored_consistent.
Defined.

Lemma db4_fetch_key_skshash_correct_witness :
  match view stored SksHashDb (kf_hash alice_facts) with
  | [] => db4_fetch_key_skshash anything (kf_hash alice_facts) [] stored = Done (stored, (0, []))
  | fp :: _ => exists k f, one_key !! fp = Some (k, f) /\ kf_hash f = kf_hash alice_facts /\
      db4_fetch_key_skshash anything (kf_hash alice_facts) [] stored = Done (stored, (1, [] ++ [k]))
  end.
Proof.
  apply (db4_fetch_key_skshash_correct anything stored one_key (kf_hash alice_facts) []); apply stored_consistent.
Defined.

Lemma occ_all (x : list Z) l : (forall y, y ∈ l -> y = x) -> length l = occ x l.
Proof.
  induction l as [|y l IH]; intros Hl; [done|]. rewrite occ_cons, decide_True by (apply Hl; left).
  cbn [length]. rewrite IH by (intros z Hz; apply Hl; by right). done.
Qed.

(** The words of the example have few records. *)
Lemma stored_small w : zlen (view stored WordDb w) < 2 ^ 28.
Proof.
  destruct stored_consistent as [H _].
  assert (Hx : forall fp, fp ∈ view stored WordDb w -> fp = the_fp).
  { intros fp (k & f & E & _)%(view_words anything stored one_key w fp H). unfold one_key in E.
    apply lookup_insert_Some in E as [[<- _] | [_ E]]; [done | by rewrite lookup_empty in E]. }
  assert (Hc : (occ the_fp (view stored WordDb w) <= length (entries alice_facts))%nat).
  { rewrite (co_index _ _ _ H) by done. unfold one_key. rewrite lookup_insert_eq.
    unfold occ. apply length_filter. }
  assert (Hl : length (view stored WordDb w) = occ the_fp (view stored WordDb w)).
  { by apply occ_all. }
  unfold zlen. rewrite Hl. assert (length (entries alice_facts) = 7)%nat by (vm_compute; reflexivity). lia.
Qed.

Lemma db4_fetch_key_text_correct_witness :
  exists fps, NoDup fps /\ (forall fp, fp ∈ fps <-> matches one_key (str "ALICE example") fp) /\
    db4_fetch_key_text anything 128 (str "ALICE example") [] stored =
    Done (stored, (i32 (zlen (take (Z.to_nat 128) fps)), [] ++ keys_at one_key (take (Z.to_nat 128) fps))).
Proof.
  apply (db4_fetch_key_text_correct anything stored one_key 128 (str "ALICE example") []).
  - apply stored_consistent.
  - apply stored_consistent.
  - exact stored_small.
  - lia.
Defined.

Lemma db4_fetch_key_correct_witness :
  db4_fetch_key anything (fp_of the_fp) [] false stored =
    Done (stored, match one_key !! the_fp with Some (k, _) => (1, [] ++ [k]) | None => (0, []) end) /\
  db4_fetch_key_fp anything (fp_of the_fp) [] false stored =
    Done (stored, match found_by stored one_key true the_fp with Some k => (1, [] ++ [k]) | None => (0, []) end).
Proof.
  apply (db4_fetch_key_correct anything stored one_key the_fp [] false).
  - apply stored_consistent.
  - apply stored_consistent.
  - vm_compute. discriminate.
Defined.

Lemma db4_delete_by_subkey_witness :
  exists db', db4_delete_key anything (fp_of sub_fp) false stored = Done (db', 1) /\ consistent anything db' one_key /\
    db4_fetch_key_fp anything (fp_of sub_fp) [] false stored = Done (stored, (1, [] ++ [reparsed alice])) /\
    db4_fetch_key_fp anything (fp_of sub_fp) [] false db' = Done (db', (0, [])).
Proof.
  apply (db4_delete_by_subkey anything stored one_key sub_fp (reparsed alice) []).
  - apply stored_consistent.
  - apply stored_consistent.
  - vm_compute. discriminate.
  - vm_compute. reflexivity.
  - vm_compute. reflexivity.
Defined.

(** What the lookups of the example answer. *)
Example stored_answers :
  (snd <$> match db4_fetch_key_text anything 128 (str "ALICE example") [] stored with Done r => Some r | Fault _ => None end)
    = Some (1, [alice]) /\
  (snd <$> match db4_fetch_key_text anything 128 (str "Alice Bob") [] stored with Done r => Some r | Fault _ => None end)
    = Some (0, []).
Proof. vm_compute. done. Qed.
