(* ===== verification/Db4Laws.v ===== *)
(** The Berkeley DB backend (Db4.v) as a key database in the sense of DbCtx.v,
    and the proof that it keeps the laws the generic operations rely on
    ([KeyDbLaws] of KeyUpdate.v): as long as the tables are consistent. *)

From stdpp Require Import gmap strings.
From S2P Require Import Prelude OpenPGP Streams Packets Keys KeyId Decode SksHash KeyBuffer KeyArray Words Db4 Db4Facts Db4Lookup Db4Example.
From S2P Require Import Merge DbCtx KeyUpdate.

Section Laws.
Context {T : Type} {B : Bdb T} {L : BdbLaws T} {HF : Hashes} {BC : BuildConfig}.
Variable malloc_ok : Z -> bool.
Abbreviation db4 := (@db4 T).

(** An operation of the backend, with the value for a program that has come to
    an end. *)
Definition run {A} (m : @dbM T A) (db : db4) (stopped : A) : db4 * A :=
  match m db with Done r => r | Fault _ => (db, stopped) end.

(** The methods that [keydb_db4_init] puts into the context. *)
Definition db4_keydb : KeyDb db4 := {|
  starttrans := fun db => ((run db4_starttrans db ()).1, true);
  endtrans := fun db => (run db4_endtrans db ()).1;
  fetch_key := fun db fp t => (run (db4_fetch_key malloc_ok fp [] t) db (0, [])).2;
  fetch_key_id := fun db id t => (run (db4_fetch_key_id malloc_ok id [] t) db (0, [])).2;
  fetch_key_fp := fun db fp t => (run (db4_fetch_key_fp malloc_ok fp [] t) db (0, [])).2;
  store_key := fun db k t u => run (db4_store_key malloc_ok k t u) db 0
|}.

#[local] Existing Instance db4_keydb.

(** The key in the table of its shard. *)
Definition db4_stored (db : db4) (fp : openpgp_fingerprint) : option openpgp_publickey :=
  if decide (wf_fp fp) then
    match view db (KeyData (shard (db_numdbs db) (fp_bytes fp))) (fp_bytes fp) with
    | data :: _ => match keys_of_buffer malloc_ok data [] with Done (k :: _) => Some k | _ => None end
    | [] => None
    end
  else None.

Definition db4_lawful (db : db4) (t : bool) : Prop := (exists keys, consistent malloc_ok db keys) /\ db_txn db = t.

Definition db4_accepts (k : openpgp_publickey) : Prop := exists f, describes malloc_ok k f.

Lemma wf_fp_bytes fp : wf_fp fp -> fp = Db4Facts.fp_of (fp_bytes fp).
Proof. destruct fp as [n b]. unfold wf_fp, Db4Facts.fp_of. cbn. by intros ->. Qed.

(** In consistent tables it is the key of the map. *)
Lemma db4_stored_map db keys fp :
  consistent malloc_ok db keys -> db4_stored db fp = if decide (wf_fp fp) then fst <$> keys !! fp_bytes fp else None.
Proof.
  intros H. unfold db4_stored. destruct (decide (wf_fp fp)); [|done]. rewrite (co_data _ _ _ H).
  destruct (keys !! fp_bytes fp) as [[k f]|] eqn:E; [|done]. rewrite decide_True by done.
  by rewrite (key_data_read malloc_ok keys (fp_bytes fp) k f [] (co_keys _ _ _ H) E).
Qed.

Lemma described_fp k f : describes malloc_ok k f -> fp_of k = Db4Facts.fp_of (kf_fp f).
Proof. intros Hd. unfold fp_of. by rewrite (de_fp _ _ _ Hd). Qed.

Lemma db4_stored_txn db fp t : db4_stored (set_txn db t) fp = db4_stored db fp.
Proof. done. Qed.

Lemma db4_law_stored db t fp k : db4_lawful db t -> db4_stored db fp = Some k -> fp_of k = fp.
Proof.
  intros [[keys H] _] Hs. rewrite (db4_stored_map db keys) in Hs by done. destruct (decide (wf_fp fp)) as [Hw|]; [|done].
  destruct (keys !! fp_bytes fp) as [[k' f]|] eqn:E; [|done]. injection Hs as <-.
  destruct (co_keys _ _ _ H _ _ _ E) as (Hd & Hf & _). rewrite (described_fp k' f Hd), Hf. symmetry. by apply wf_fp_bytes.
Qed.

(** The subkeys of a described key. *)
Lemma live_subkeys_elem l subs b : live_subkeys l subs -> b ∈ map fst subs -> exists sub, sub ∈ l /\ fp_bytes sub = b.
Proof.
  induction 1 as [|sub l Hl|sub l keyid subs Hl Hk _ IH]; cbn [map]; [intros []%not_elem_of_nil | intros []%not_elem_of_nil |].
  intros [->|Hb]%elem_of_cons; [exists sub; split; [by left | done]|].
  destruct (IH Hb) as (x & Hx & <-). exists x. split; [by right | done].
Qed.

Lemma described_subkey k f fp : describes malloc_ok k f -> fp_bytes fp ∈ map fst (kf_subs f) -> has_subkey k fp.
Proof.
  intros Hd Hb. destruct (de_subs _ _ _ Hd) as (subs & E & Hl). destruct (live_subkeys_elem _ _ _ Hl Hb) as (sub & Hs & Hf).
  by exists subs, sub.
Qed.

Lemma stored_as_primary db keys b k f :
  consistent malloc_ok db keys -> keys !! b = Some (k, f) -> db4_stored db (Db4Facts.fp_of b) = Some k.
Proof.
  intros H E. rewrite (db4_stored_map db keys) by done. rewrite decide_True by done. cbn. by rewrite E.
Qed.

Lemma db4_law_fetch db t fp :
  db4_lawful db t -> wf_fp fp -> fp_length fp = 20 \/ fp_length fp = 32 ->
  exists ks, fetch_key_fp db fp t = (zlen ks, ks) /\ NoDup ks /\
    (forall k, db4_stored db fp = Some k -> k ∈ ks) /\
    (forall k, k ∈ ks -> db4_stored db fp = Some k \/ has_subkey k fp /\ exists fp', db4_stored db fp' = Some k).
Proof.
  intros [[keys H] Ht] Hw Hl. pose proof (wf_fp_bytes fp Hw) as Ef. unfold wf_fp in Hw.
  assert (Hb : 8 <= zlen (fp_bytes fp)) by lia.
  assert (E : fetch_key_fp db fp t =
    match found_by db keys true (fp_bytes fp) with Some k => (1, [k]) | None => (0, []) end).
  { cbn [fetch_key_fp db4_keydb]. unfold run, db4_fetch_key_fp. rewrite Ef.
    rewrite (fetch_key_int_runs malloc_ok db keys _ [] t true H Ht Hb). by destruct (found_by _ _ _ _). }
  rewrite (db4_stored_map db keys fp H), decide_True by done. rewrite E. unfold found_by.
  destruct (keys !! fp_bytes fp) as [[k f]|] eqn:Ek.
  { exists [k]. split; [done|]. split; [apply NoDup_singleton|]. split; intros x.
    - intros [= <-]. by left.
    - intros ->%list_elem_of_singleton. by left. }
  destruct (co_subkey _ _ _ H (fp_bytes fp)) as [-> | (fp' & k & f & -> & E' & Hin)].
  { exists []. split; [done|]. split; [constructor|]. split; [done|]. by intros k []%not_elem_of_nil. }
  rewrite E'. exists [k]. split; [done|]. split; [apply NoDup_singleton|]. split; [done|].
  intros x ->%list_elem_of_singleton. right. destruct (co_keys _ _ _ H _ _ _ E') as (Hd & _).
  split; [by eapply described_subkey|]. exists (Db4Facts.fp_of fp'). by eapply stored_as_primary.
Qed.

Lemma db4_law_store db t k u :
  db4_lawful db t -> db4_accepts k -> u = true \/ db4_stored db (fp_of k) = None ->
  db4_lawful (store_key db k t u).1 t /\
  forall fp, db4_stored (store_key db k t u).1 fp = if bool_decide (fp = fp_of k) then Some (reparsed k) else db4_stored db fp.
Proof.
  intros [[keys H] Ht] [f Hd] Hu. rewrite (described_fp k f Hd) in *.
  assert (Hu' : u = true \/ keys !! kf_fp f = None).
  { destruct Hu as [|Hu]; [by left|]. right. rewrite (db4_stored_map db keys), decide_True in Hu by done. cbn in Hu.
    by destruct (keys !! kf_fp f) as [[? ?]|]. }
  destruct (store_key_runs malloc_ok db keys k f t u H Ht Hd Hu') as (db' & E & Ht' & H').
  cbn [store_key db4_keydb]. unfold run. rewrite E. cbn [fst]. split; [by split; [eexists|]|].
  intros fp. rewrite (db4_stored_map _ _ fp H'), (db4_stored_map db keys fp H). case_bool_decide as Efp.
  - subst fp. rewrite decide_True by done. cbn [fp_bytes Db4Facts.fp_of]. by rewrite lookup_insert_eq.
  - destruct (decide (wf_fp fp)) as [Hw|]; [|done]. rewrite lookup_insert_ne; [done|].
    intros Eb. apply Efp. rewrite Eb. by apply wf_fp_bytes.
Qed.

(** The laws. *)
#[global] Instance db4_keydb_laws : KeyDbLaws db4.
Proof.
  refine {| lawful := db4_lawful; stored := db4_stored; accepts := db4_accepts |}.
  - intros db [[keys H] Ht]. exists (set_txn db true). cbn [starttrans db4_keydb]. unfold run, db4_starttrans. rewrite Ht.
    split; [done|]. split; [|done]. split; [exists keys; by apply consistent_txn | done].
  - intros db [[keys H] Ht]. cbn [endtrans db4_keydb]. unfold run, db4_endtrans. rewrite Ht.
    split; [|done]. split; [exists keys; by apply consistent_txn | done].
  - exact db4_law_stored.
  - exact db4_law_fetch.
  - exact db4_law_store.
Defined.
End Laws.

(** * An update of a database with one key *)

#[local] Existing Instance toy_hashes.
#[local] Existing Instance full_build.

(** The key of the example comes in again, with another user id. *)
Definition alice_again : openpgp_publickey :=
  mkKey (pk_publickey alice) false []
    [mkSigned (mkPacket OPENPGP_PACKET_UID false 4 (str "Ally")) [v3_sig 0x10 1 7]] [].

Definition alice_merged : openpgp_publickey := merged_key alice alice_again.

Lemma alice_updatable : updatable alice /\ updatable alice_again.
Proof.
  assert (Hsp : forall sp, small_packet (sp_packet sp) -> sp_sigs sp = [] \/ sp_sigs sp = [v3_sig 0x10 1 7] -> signed_good sp).
  { intros sp Hp Hs. split; [done|]. destruct Hs as [-> | ->]; [constructor|]. apply Forall_singleton, v3_sig_good. unfold byte. lia. }
  assert (Hsm : forall p, bool_decide (small_packet p) = true -> small_packet p) by (intros p H; by apply (bool_decide_eq_true _)).
  split; (split; [|split; [apply (bool_decide_unpack _); vm_compute; exact I | left; reflexivity]]).
  - split; [apply Forall_nil_2|]. split; [apply Forall_singleton, Hsp; [apply Hsm; vm_compute; reflexivity | by left]|].
    split; [apply NoDup_singleton|]. split; [apply Forall_singleton, Hsp; [apply Hsm; vm_compute; reflexivity | by left]|].
    apply NoDup_singleton.
  - split; [apply Forall_nil_2|]. split; [apply Forall_singleton, Hsp; [apply Hsm; vm_compute; reflexivity | by right]|].
    split; [apply NoDup_singleton|]. split; [apply Forall_nil_2 | apply NoDup_nil_2].
Qed.

Lemma alice_merged_described : describes anything alice_merged (default (mkFacts [] 0 [] [] []) (facts_of alice_merged)).
Proof.
  constructor.
  - vm_compute. reflexivity.
  - vm_compute. reflexivity.
  - vm_compute. split; discriminate.
  - eexists _, _. split; vm_compute; reflexivity.
  - eexists. split; [vm_compute; reflexivity|]. cbn [default id].
    apply live_cons; [done | vm_compute; reflexivity |]. by apply live_end.
  - vm_compute. reflexivity.
  - constructor; try (apply (bool_decide_unpack _); vm_compute; exact I); vm_compute; reflexivity.
Qed.

Lemma alice_no_subkey k : pk_subkeys k = pk_subkeys alice -> ~ has_subkey k (fp_of alice_again).
Proof.
  intros E (subs & sub & Hs & Hin & Hf). unfold keysubkeys in Hs. rewrite E in Hs. vm_compute in Hs. injection Hs as <-.
  vm_compute in Hf. cbn [default id] in Hin. rewrite !elem_of_cons, elem_of_nil in Hin.
  destruct Hin as [-> | [-> | []]]; discriminate Hf.
Qed.

Lemma update_keys_correct_witness :
  exists d' upd new,
    generic_update_keys (DB := db4_keydb anything) Db4Example.stored [alice_again] None false true =
      Done (d', upd, match upd with [] => None | _ => Some upd end, new) /\
    db4_stored anything d' (fp_of alice_again) = Some alice_merged.
Proof.
  assert (Hd : db4_lawful anything Db4Example.stored false).
  { destruct stored_consistent as [H Ht]. split; [by exists one_key | done]. }
  assert (Hs : forall fp a, db4_stored anything Db4Example.stored fp = Some a -> a = alice).
  { intros fp a. rewrite (db4_stored_map anything _ one_key fp (proj1 stored_consistent)).
    destruct (decide (wf_fp fp)); [|done]. unfold one_key. destruct (decide (kf_fp alice_facts = fp_bytes fp)) as [E|E].
    - rewrite <- E, lookup_insert_eq. intros [= <-]. vm_compute. reflexivity.
    - rewrite lookup_insert_ne, lookup_empty by done. done. }
  assert (Hold : db4_stored anything Db4Example.stored (fp_of alice_again) = Some alice) by (vm_compute; reflexivity).
  destruct (update_keys_correct (DL := db4_keydb_laws anything) Db4Example.stored [alice_again] None false true)
    as (d' & upd & new & E & _ & Hr).
  - discriminate.
  - apply Forall_singleton, alice_updatable.
  - apply NoDup_singleton.
  - vm_compute. reflexivity.
  - exact Hd.
  - intros k a _ Ha. apply Hs in Ha as ->. apply alice_updatable.
  - intros k x ->%list_elem_of_singleton. change (stored ?d ?fp) with (db4_stored anything d fp). rewrite Hold.
    intros Hw. vm_compute in Hw. injection Hw as <-. eexists. exact alice_merged_described.
  - intros k ->%list_elem_of_singleton. split.
    + intros fp a Ha. apply Hs in Ha as ->. by apply alice_no_subkey.
    + intros k' x ->%list_elem_of_singleton. change (stored ?d ?fp) with (db4_stored anything d fp). rewrite Hold.
      intros Hw. apply alice_no_subkey. vm_compute in Hw. injection Hw as <-. vm_compute. reflexivity.
  - exists d', upd, new. split; [exact E|]. pose proof (ur_stored _ _ _ _ _ _ _ Hr (fp_of alice_again)) as Hu.
    change (stored ?d ?fp) with (db4_stored anything d fp) in Hu. rewrite Hu, Hold. vm_compute. reflexivity.
Defined.
