(* ===== verification/Process.v ===== *)
(** Two processes that talk over a stream socket: programs as trees of the
    reads and writes they do, the network between them as two queues of octets
    that large messages go through in pieces, all interleavings as a step
    relation, and a proof method for protocols of messages. *)

From S2P Require Import Prelude.

(** * Programs *)

(** [Write bs k] is [write(fd, bs, |bs|)] with its result for [k]; [Read n k] is
    [read(fd, buf, n)], which gives [None] for an error, no octets at the end of
    the stream, and otherwise at most [n] octets. *)
Inductive proc (A : Type) : Type :=
  | Return (a : A)
  | Crash (f : fault)
  | Write (bs : list Z) (k : Z -> proc A)
  | Read (n : Z) (k : option (list Z) -> proc A).
Arguments Return {A} a.
Arguments Crash {A} f.
Arguments Write {A} bs k.
Arguments Read {A} n k.

#[global] Instance proc_ret : MRet proc := @Return.

(** [f] after [p]. *)
Section Then.
Context {A B : Type} (f : A -> proc B).

Fixpoint and_then (p : proc A) : proc B :=
  match p with
  | Return a => f a
  | Crash e => Crash e
  | Write bs k => Write bs (fun r => and_then (k r))
  | Read n k => Read n (fun r => and_then (k r))
  end.
End Then.

#[global] Instance proc_bind : MBind proc := @and_then.

(** A computation without communication. *)
Definition pure {A} (m : outcome A) : proc A :=
  match m with Done a => Return a | Fault f => Crash f end.

(** Nothing happens for a length of 0. *)
Definition write (bs : list Z) : proc Z :=
  match bs with [] => Return 0 | _ => Write bs Return end.
Definition read (n : Z) : proc (option (list Z)) :=
  if n =? 0 then Return (Some []) else Read n Return.

(** * The network *)

Record network (A B : Type) : Type := mkNet {
  left_proc : proc A;
  right_proc : proc B;
  to_right : list Z;
  to_left : list Z
}.
Arguments mkNet {A B} left_proc right_proc to_right to_left.
Arguments left_proc {A B} _.
Arguments right_proc {A B} _.
Arguments to_right {A B} _.
Arguments to_left {A B} _.

(** The queues are of unknown size, and the writer waits when one is full: a
    write of at most [whole] octets arrives at once, a larger one in any
    number of pieces of any size, between which the other side may run.  A read
    waits until there is something in the queue, and takes as much as it
    asked for or as there is; one that asks for more than [whole] octets may be
    given any part of what there is. *)
Section Network.
Variable whole : Z.

Definition read_part (n : Z) (q bs rest : list Z) : Prop :=
  q = bs ++ rest /\ bs <> [] /\ zlen bs <= n /\ (zlen bs = n \/ rest = [] \/ whole < n).

Inductive step {A B} : network A B -> network A B -> Prop :=
  | left_writes bs k r q q' :
      step (mkNet (Write bs k) r q q') (mkNet (k (zlen bs)) r (q ++ bs) q')
  | left_writes_part b1 b2 k r q q' :
      b1 <> [] -> b2 <> [] -> whole < zlen (b1 ++ b2) ->
      step (mkNet (Write (b1 ++ b2) k) r q q')
           (mkNet (Write b2 (fun _ => k (zlen (b1 ++ b2)))) r (q ++ b1) q')
  | right_writes l bs k q q' :
      step (mkNet l (Write bs k) q q') (mkNet l (k (zlen bs)) q (q' ++ bs))
  | right_writes_part l b1 b2 k q q' :
      b1 <> [] -> b2 <> [] -> whole < zlen (b1 ++ b2) ->
      step (mkNet l (Write (b1 ++ b2) k) q q')
           (mkNet l (Write b2 (fun _ => k (zlen (b1 ++ b2)))) q (q' ++ b1))
  | left_reads n k r q q' bs rest :
      read_part n q' bs rest ->
      step (mkNet (Read n k) r q q') (mkNet (k (Some bs)) r q rest)
  | right_reads l n k q q' bs rest :
      read_part n q bs rest ->
      step (mkNet l (Read n k) q q') (mkNet l (k (Some bs)) rest q').

Inductive steps {A B} : nat -> network A B -> network A B -> Prop :=
  | steps_refl c : steps 0 c c
  | steps_step n c1 c2 c3 : step c1 c2 -> steps n c2 c3 -> steps (S n) c1 c3.

Definition start {A B} (l : proc A) (r : proc B) : network A B := mkNet l r [] [].

(** * Protocols *)

(** [takes w bs p p']: a program [p] that is sent [bs] comes to [p'], for every
    way in which the octets may be cut into pieces; with [w] they come in one. *)
Inductive takes {A} (w : bool) : list Z -> proc A -> proc A -> Prop :=
  | takes_end p : takes w [] p p
  | takes_read bs k p' :
      bs <> [] ->
      (forall b1 b2, bs = b1 ++ b2 -> b1 <> [] -> (w = true -> b2 = []) -> takes w b2 (k (Some b1)) p') ->
      takes w bs (Read (zlen bs) k) p'.

(** A message: whether its reader has to get it in one piece, and its octets. *)
Definition message : Type := bool * list Z.

Definition sound_message (m : message) : Prop := m.2 <> [] /\ (m.1 = true -> zlen m.2 <= whole).

(** The two programs exchange messages of [n] octets altogether, each written by
    one side and read by the other, and end in results related by [Q]. *)
Inductive speaks {A B} (Q : A -> B -> Prop) : nat -> proc A -> proc B -> Prop :=
  | speaks_done a b : Q a b -> speaks Q 0 (Return a) (Return b)
  | speaks_right n w bs kl r r' :
      sound_message (w, bs) -> takes w bs r r' -> speaks Q n (kl (zlen bs)) r' ->
      speaks Q (length bs + n) (Write bs kl) r
  | speaks_left n w bs l l' kr :
      sound_message (w, bs) -> takes w bs l l' -> speaks Q n l' (kr (zlen bs)) ->
      speaks Q (length bs + n) l (Write bs kr).

Lemma takes_bind {A B} w bs (f : A -> proc B) p p' :
  takes w bs p p' -> takes w bs (and_then f p) (and_then f p').
Proof. induction 1; cbn [and_then]; constructor; auto. Qed.

(** A reader that is sent something is at a read of that many octets. *)
Lemma takes_inv {A} w bs (p p' : proc A) :
  takes w bs p p' -> bs <> [] ->
  exists k, p = Read (zlen bs) k /\
    forall b1 b2, bs = b1 ++ b2 -> b1 <> [] -> (w = true -> b2 = []) -> takes w b2 (k (Some b1)) p'.
Proof. intros H Hne. inversion H; subst; [done | eauto]. Qed.

(** A program that has to read the messages [ms] before it is at [p']. *)
Inductive behind {A} : list message -> proc A -> proc A -> Prop :=
  | behind_nil p : behind [] p p
  | behind_cons w m ms p p1 p' :
      sound_message (w, m) -> takes w m p p1 -> behind ms p1 p' -> behind ((w, m) :: ms) p p'.

Lemma behind_snoc {A} ms w m (p p1 p' : proc A) :
  sound_message (w, m) -> behind ms p p1 -> takes w m p1 p' -> behind (ms ++ [(w, m)]) p p'.
Proof. intros Hm H Ht. induction H; cbn [app]; econstructor; eauto; constructor. Qed.

(** What is in the queue and, of a message that its writer is at, outside of it
    ([rest]): together the messages that are to be read.  A message that is to
    be read in one piece is in the queue as a whole. *)
Inductive transit : list Z -> list Z -> list message -> Prop :=
  | transit_none : transit [] [] []
  | transit_in w m ms q rest : transit q rest ms -> transit (m ++ q) rest ((w, m) :: ms)
  | transit_part q rest : rest <> [] -> transit q rest [(false, q ++ rest)].

Lemma transit_idle q rest : transit q rest [] -> q = [] /\ rest = [].
Proof. by inversion 1. Qed.

(** The writer begins with a message, *)
Lemma transit_begin q ms w b1 b2 :
  transit q [] ms -> (w = true -> b2 = []) -> transit (q ++ b1) b2 (ms ++ [(w, b1 ++ b2)]).
Proof.
  intros H Hw. remember [] as rest eqn:E. induction H as [|w' m ms q rest H IH|q rest Hne]; subst; [| |done].
  - destruct b2 as [|x b2]; [rewrite app_nil_r, <- (app_nil_r ([] ++ b1)); apply transit_in, transit_none|].
    destruct w; [by specialize (Hw eq_refl)|]. by apply transit_part.
  - rewrite <- app_assoc. apply transit_in, IH; done.
Qed.

(** and goes on with it. *)
Lemma transit_go_on q b1 b2 ms : b1 <> [] -> transit q (b1 ++ b2) ms -> transit (q ++ b1) b2 ms.
Proof.
  intros Hb H. remember (b1 ++ b2) as rest eqn:E. induction H as [|w m ms q rest H IH|q rest Hne]; subst.
  - by destruct b1.
  - rewrite <- app_assoc. apply transit_in; auto.
  - rewrite app_assoc. destruct b2 as [|x b2]; [|by apply transit_part].
    rewrite app_nil_r, <- (app_nil_r (q ++ b1)) at 1. apply transit_in, transit_none.
Qed.

(** The messages when [m] of the first one is left. *)
Definition remaining (w : bool) (m : list Z) (ms : list message) : list message :=
  match m with [] => ms | _ => (w, m) :: ms end.

(** A read gets a part of the first message, all of it where it has to. *)
Lemma transit_read q rest w m ms bs q' :
  transit q rest ((w, m) :: ms) -> sound_message (w, m) -> read_part (zlen m) q bs q' ->
  exists m', m = bs ++ m' /\ (w = true -> m' = []) /\ transit q' rest (remaining w m' ms).
Proof.
  intros H [_ Hw] (-> & Hbs & Hle & Hcut). cbn [snd fst] in Hw. inversion H as [|? ? ? q ? H' E|q ? Hne]; subst.
  - apply app_eq_inv in E as [(m' & -> & ->) | (m' & -> & ->)].
    + exists m'. split; [done|]. rewrite zlen_app in *. split.
      * intros ->. specialize (Hw eq_refl). destruct m' as [|x m']; [done|]. rewrite zlen_cons in *.
        pose proof (zlen_nonneg m'). destruct Hcut as [Hc | [Hc | Hc]]; [lia | by destruct q | lia].
      * destruct m'; [done | by apply transit_in].
    + rewrite zlen_app in Hle. destruct m' as [|x m']; [|rewrite zlen_cons in Hle; pose proof (zlen_nonneg m'); lia].
      exists []. by rewrite !app_nil_r.
  - exists (q' ++ rest). rewrite app_assoc. split; [done|]. split; [done|].
    destruct (q' ++ rest) eqn:E; [by destruct q', rest|]. cbn [remaining]. rewrite <- E. by apply transit_part.
Qed.

(** The side that is ahead comes to [p'] when it has written [rest]. *)
Definition writing {A} (rest : list Z) (p p' : proc A) : Prop :=
  match rest with
  | [] => p = p'
  | _ => exists k, p = Write rest k /\ k (zlen rest) = p'
  end.

(** The states a conversation goes through: the left side may be ahead of the
    right one; [N] bounds the steps that are left, twice for each octet that is
    to be written and once for each that is to be read. *)
Definition leading {A B} (Q : A -> B -> Prop) (N : nat) (c : network A B) : Prop :=
  exists n rest ms l r,
    writing rest (left_proc c) l /\ speaks Q n l r /\ behind ms (right_proc c) r /\
    transit (to_right c) rest ms /\ to_left c = [] /\ N = (2 * (n + length rest) + length (to_right c))%nat.

(** The network seen from the other side. *)
Definition mirror {A B} (c : network A B) : network B A :=
  mkNet (right_proc c) (left_proc c) (to_left c) (to_right c).

Definition underway {A B} (Q : A -> B -> Prop) (N : nat) (c : network A B) : Prop :=
  leading Q N c \/ leading (flip Q) N (mirror c).

Lemma step_mirror {A B} (c c' : network A B) : step c c' -> step (mirror c) (mirror c').
Proof. destruct 1; by constructor. Qed.

Lemma speaks_mirror {A B} (Q : A -> B -> Prop) n l r : speaks Q n l r -> speaks (flip Q) n r l.
Proof. induction 1; econstructor; eauto. Qed.

Lemma underway_mirror {A B} (Q : A -> B -> Prop) N (c : network A B) : underway (flip Q) N (mirror c) -> underway Q N c.
Proof. by intros [H | H]; [right | left]; destruct c. Qed.

(** When all has been read, either side may go on. *)
Lemma leading_idle {A B} (Q : A -> B -> Prop) N (c : network A B) bs k :
  leading Q N c -> right_proc c = Write bs k -> leading (flip Q) N (mirror c).
Proof.
  intros (n & rest & ms & l & r & Hw & Hsp & Hb & Ht & Hl & ->) E. destruct c as [pl pr q q']. cbn in *. subst.
  inversion Hb as [|w m ms' p p1 p' [Hm _] Htk]; subst.
  - apply transit_idle in Ht as [-> ->]. cbn in Hw. subst. exists n, [], [], (Write bs k), l.
    split_and!; try done; [by apply speaks_mirror | constructor | constructor].
  - by destruct (takes_inv _ _ _ _ Htk Hm) as (k' & ? & _).
Qed.

(** The left side writes [b1] of the [b1 ++ b2] it is at. *)
Lemma leading_writes {A B} (Q : A -> B -> Prop) N (l l' : proc A) (r : proc B) q q' b1 b2 k :
  leading Q N (mkNet l r q q') -> l = Write (b1 ++ b2) k -> b1 <> [] \/ b2 = [] -> (b2 <> [] -> whole < zlen (b1 ++ b2)) ->
  writing b2 l' (k (zlen (b1 ++ b2))) ->
  exists N', leading Q N' (mkNet l' r (q ++ b1) q') /\ (N' < N)%nat.
Proof.
  intros (n & rest & ms & l0 & r0 & Hw & Hsp & Hb & Ht & Hl & ->) -> Hb1 Hb2 Hl'. cbn in *. subst q'.
  destruct rest as [|x rest0] eqn:Er; cbn [writing] in Hw.
  - subst l0. inversion Hsp as [|n' w bs kl r1 r' Hm Htk Hsp'|n' w bs l1 l2 kr [Hm _] Htk Hsp']; subst.
    2: { destruct (takes_inv _ _ _ _ Htk Hm) as (k' & E & _). done. }
    assert (b1 <> []) by (destruct Hb1 as [?| ->]; [done|]; destruct Hm as [Hm _]; by rewrite app_nil_r in Hm).
    eexists. split; [exists n', b2, (ms ++ [(w, b1 ++ b2)]), (k (zlen (b1 ++ b2))), r'; split_and!; try done|].
    + by eapply behind_snoc.
    + apply transit_begin; [done|]. intros ->. destruct b2; [done|]. destruct Hm as [_ Hm]. cbn [fst snd] in Hm.
      specialize (Hm eq_refl). specialize (Hb2 ltac:(done)). lia.
    + destruct b1; [done|]. cbn. rewrite ?length_app. cbn. rewrite ?length_app. lia.
  - rewrite <- Er in *. destruct Hw as (k' & E & Ek). injection E as E <-. rewrite <- E in Ek. subst l0.
    assert (b1 <> []) by (destruct Hb1 as [?| ->]; [done|]; rewrite app_nil_r in E; congruence).
    eexists. split; [exists n, b2, ms, (k (zlen (b1 ++ b2))), r0; split_and!; try done|].
    + apply transit_go_on; [done|]. by rewrite E.
    + rewrite <- E. destruct b1; [done|]. cbn. rewrite ?length_app. cbn. rewrite ?length_app. lia.
Qed.

(** The right side reads. *)
Lemma leading_reads {A B} (Q : A -> B -> Prop) N (l : proc A) (k : option (list Z) -> proc B) n q q' bs rest :
  leading Q N (mkNet l (Read n k) q q') -> read_part n q bs rest ->
  exists N', leading Q N' (mkNet l (k (Some bs)) rest q') /\ (N' < N)%nat.
Proof.
  intros (m & rest' & ms & l0 & r0 & Hw & Hsp & Hb & Ht & Hl & ->) Hp. cbn in *.
  inversion Hb as [|w msg ms' p p1 p' Hm Htk Hb']; subst.
  - apply transit_idle in Ht as [-> ->]. destruct Hp as (E & Hne & _). by destruct bs.
  - destruct (takes_inv _ _ _ _ Htk (proj1 Hm)) as (k' & E & Hk). injection E as -> <-.
    destruct (transit_read _ _ _ _ _ _ _ Ht Hm Hp) as (m' & E' & Hone & Ht').
    destruct Hp as (-> & Hne & _). specialize (Hk bs m' E' Hne Hone).
    eexists. split; [exists m, rest', (remaining w m' ms'), l0, r0; split_and!; try done|].
    + destruct m' as [|x m2]; cbn [remaining]; [by inversion Hk; subst|].
      econstructor; [|done..]. split; [done|]. intros Hw1. specialize (Hone Hw1). done.
    + destruct bs; [done|]. cbn. rewrite ?length_app. lia.
Qed.

Lemma leading_step {A B} (Q : A -> B -> Prop) N (c c' : network A B) :
  leading Q N c -> step c c' -> exists N', underway Q N' c' /\ (N' < N)%nat.
Proof.
  intros Hu Hs. destruct Hs as [bs k r q q' | b1 b2 k r q q' H1 H2 H3 | l bs k q q' | l b1 b2 k q q' H1 H2 H3
    | n k r q q' bs rest Hp | l n k q q' bs rest Hp].
  - destruct (leading_writes Q N _ (k (zlen bs)) r q q' bs [] k Hu) as (N' & Hu' & HN);
      rewrite ?app_nil_r; try done; [by right | exists N'; split; [by left | done]].
  - destruct (leading_writes Q N _ (Write b2 (fun _ => k (zlen (b1 ++ b2)))) r q q' b1 b2 k Hu) as (N' & Hu' & HN);
      try done; [by left | destruct b2; [done | by eexists] | exists N'; split; [by left | done]].
  - apply leading_idle with (bs := bs) (k := k) in Hu; [|done].
    destruct (leading_writes (flip Q) N _ (k (zlen bs)) l q' q bs [] k Hu) as (N' & Hu' & HN);
      rewrite ?app_nil_r; try done; [by right | exists N'; split; [by right | done]].
  - apply leading_idle with (bs := b1 ++ b2) (k := k) in Hu; [|done].
    destruct (leading_writes (flip Q) N _ (Write b2 (fun _ => k (zlen (b1 ++ b2)))) l q' q b1 b2 k Hu) as (N' & Hu' & HN);
      try done; [by left | destruct b2; [done | by eexists] | exists N'; split; [by right | done]].
  - destruct Hu as (? & ? & ? & ? & ? & _ & _ & _ & _ & Hl & _), Hp as (E & Hne & _). cbn in Hl. subst. by destruct bs.
  - destruct (leading_reads Q N l k n q q' bs rest Hu Hp) as (N' & Hu' & HN). exists N'. split; [by left | done].
Qed.

Lemma underway_step {A B} (Q : A -> B -> Prop) N (c c' : network A B) :
  underway Q N c -> step c c' -> exists N', underway Q N' c' /\ (N' < N)%nat.
Proof.
  intros [Hu | Hu] Hs; [by eapply leading_step|].
  destruct (leading_step _ _ _ _ Hu (step_mirror _ _ Hs)) as (N' & Hu' & HN). exists N'. split; [by apply underway_mirror | done].
Qed.

(** A state that cannot go on is the end of the conversation. *)
Definition finished {A B} (Q : A -> B -> Prop) (c : network A B) : Prop :=
  exists a b, Q a b /\ c = mkNet (Return a) (Return b) [] [].

Lemma read_some n q : 0 < n -> q <> [] -> exists bs rest, read_part n q bs rest.
Proof.
  intros Hn Hq. exists (take (Z.to_nat n) q), (drop (Z.to_nat n) q). unfold read_part. rewrite take_drop.
  split; [done|]. unfold zlen. rewrite length_take. destruct q as [|x q]; [done|]. split; [by destruct (Z.to_nat n) eqn:E; [lia|]|].
  split; [lia|]. destruct (decide (Z.to_nat n <= length (x :: q)))%nat; [left; lia|].
  right. left. apply drop_ge. lia.
Qed.

Lemma leading_progress {A B} (Q : A -> B -> Prop) N (c : network A B) :
  leading Q N c -> finished Q c \/ exists c', step c c'.
Proof.
  destruct c as [pl pr q q']. intros (n & rest & ms & l & r & Hw & Hsp & Hb & Ht & Hl & _). cbn in *. subst.
  destruct rest as [|x rest]; [|destruct Hw as (k & -> & _); right; eexists; constructor]. cbn in Hw. subst.
  inversion Hb as [|w m ms' p p1 p' [Hm Hw] Htk]; subst.
  - apply transit_idle in Ht as [-> _]. inversion Hsp; subst; [by left; eexists _, _ | |]; right; eexists; constructor.
  - destruct (takes_inv _ _ _ _ Htk Hm) as (k & -> & _). right. cbn [snd] in Hm.
    destruct (read_some (zlen m) q) as (bs & rest & Hp); [by apply zlen_pos | | eexists; by constructor].
    inversion Ht; subst; [by destruct m | done].
Qed.

Lemma underway_progress {A B} (Q : A -> B -> Prop) N (c : network A B) :
  underway Q N c -> finished Q c \/ exists c', step c c'.
Proof.
  intros [Hu | Hu]; [by eapply leading_progress|].
  destruct (leading_progress _ _ _ Hu) as [(b & a & HQ & E) | (c' & Hs)].
  - left. exists a, b. split; [done|]. destruct c. cbn in E. injection E as -> -> -> ->. done.
  - right. exists (mirror c'). apply step_mirror in Hs. by destruct c.
Qed.

Lemma underway_steps {A B} (Q : A -> B -> Prop) k (c c' : network A B) : steps k c c' -> forall N,
  underway Q N c -> exists N', underway Q N' c' /\ (k + N' <= N)%nat.
Proof.
  induction 1 as [c | k c1 c2 c3 H12 _ IH]; intros N Hu; [by exists N|].
  destruct (underway_step Q N c1 c2 Hu H12) as (N2 & Hu2 & Hlt).
  destruct (IH N2 Hu2) as (N3 & Hu3 & Hle). exists N3. split; [done | lia].
Qed.

(** All executions of a protocol of [n] octets are at most [2 n] steps long,
    and those that cannot go on have ended as they should. *)
Lemma speaks_sound {A B} (Q : A -> B -> Prop) n l r k (c : network A B) :
  speaks Q n l r -> steps k (start l r) c ->
  (k <= 2 * n)%nat /\ (finished Q c \/ exists c', step c c').
Proof.
  intros Hsp Hs. assert (Hu : underway Q (2 * n) (start l r)).
  { left. exists n, [], [], l, r. split_and!; try done; [constructor | constructor | cbn; lia]. }
  destruct (underway_steps Q k _ _ Hs (2 * n) Hu) as (N' & Hu' & Hle).
  split; [lia | by eapply underway_progress].
Qed.
End Network.

(** * One side alone *)

(** A program on a stream whose octets have all arrived and whose other end is
    closed for writing: the result and what it wrote. *)
Fixpoint feed {A} (p : proc A) (input : list Z) : outcome A * list Z :=
  match p with
  | Return a => (Done a, [])
  | Crash f => (Fault f, [])
  | Write bs k => let '(r, out) := feed (k (zlen bs)) input in (r, bs ++ out)
  | Read n k => feed (k (Some (take (Z.to_nat n) input))) (drop (Z.to_nat n) input)
  end.
