(* ===== verification/Keyd.v ===== *)
(** The key daemon (keydb/keyd.c) and the database backend that talks to it
    (keydb/keydb_keyd.c), as two programs over a socket (Process.v).

    Numbers go over the socket as they are in memory: little endian, with
    8 octets for [size_t] and [ssize_t]. *)

From S2P Require Import Prelude OpenPGP Streams Packets Keys KeyId Marshal KeyBuffer DbCtx Process.

(** * Commands (keyd.h) *)

Definition KEYD_CMD_UNKNOWN : Z := 0.
Definition KEYD_CMD_VERSION : Z := 1.
Definition KEYD_CMD_GET_ID : Z := 2.
Definition KEYD_CMD_STORE : Z := 3.
Definition KEYD_CMD_DELETE : Z := 4.
Definition KEYD_CMD_GET_TEXT : Z := 5.
Definition KEYD_CMD_GETFULLKEYID : Z := 6.
Definition KEYD_CMD_KEYITER : Z := 7.
Definition KEYD_CMD_CLOSE : Z := 8.
Definition KEYD_CMD_QUIT : Z := 9.
Definition KEYD_CMD_STATS : Z := 10.
Definition KEYD_CMD_GET_SKSHASH : Z := 11.
Definition KEYD_CMD_GET_FP : Z := 12.
Definition KEYD_CMD_UPDATE : Z := 13.
Definition KEYD_CMD_GET : Z := 14.
Definition KEYD_CMD_LAST : Z := 15.

Definition KEYD_REPLY_OK : Z := 0.
Definition KEYD_REPLY_UNKNOWN_CMD : Z := 1.
Definition keyd_version : Z := 5.

(** [read(fd, &x, n) == n]: the number, if it came whole. *)
Definition number_of (n : Z) (r : option (list Z)) : option Z :=
  match r with Some bs => if zlen bs =? n then Some (le_value bs) else None | None => None end.

Definition read_number (n : Z) : proc (option Z) := r ← read n; Return (number_of n r).

(** [struct openpgp_fingerprint] in memory; the octets behind the fingerprint
    are not specified. *)
Definition fingerprint_memory (fp : openpgp_fingerprint) : list Z :=
  le_bytes 8 (fp_length fp) ++ fp_bytes fp ++
  replicate (Z.to_nat MAX_FINGERPRINT_LEN - length (fp_bytes fp)) 0.

Definition sizeof_fingerprint : Z := 8 + MAX_FINGERPRINT_LEN.

Definition fingerprint_of_memory (bs : list Z) : openpgp_fingerprint :=
  let length := le_value (take 8 bs) in
  mkFingerprint length (take (Z.to_nat length) (drop 8 bs)).

(** * Keys on the socket *)

Section Keyd.
Context {HF : Hashes} {BC : BuildConfig}.
Variable malloc_ok : Z -> bool.

(** [while (bytes >= 0 && count < size)]: [got] has been read; [None] after a
    read that failed.  At the end of the stream [read] returns 0 for ever. *)
Fixpoint read_all (fuel : nat) (size : Z) (got : list Z) : proc (option (list Z)) :=
  if zlen got <? size then
    match fuel with
    | O => Crash OutOfFuel
    | S fuel =>
        r ← read (size - zlen got);
        match r with
        | Some bs => read_all fuel size (got ++ bs)
        | None => Return None
        end
    end
  else Return (Some got).

(** A buffer of [size] octets is allocated and filled; without memory [read]
    fails. *)
Definition read_buffer (fuel : nat) (size : Z) : proc (option (list Z)) :=
  if malloc_ok size then read_all fuel size [] else Return None.

(** * The daemon (keyd.c) *)

Definition keyd_write_key (key : list openpgp_publickey) : proc bool :=
  data ← pure (buffer_of_keys key);
  written ← write (le_bytes 8 (zlen data));
  if written =? 0 then Return false
  else
    written ← write data;
    Return (written =? zlen data).

Definition keyd_write_reply (reply : Z) : proc bool :=
  written ← write (le_bytes 4 reply);
  Return (written =? 4).

Definition keyd_write_size (size : Z) : proc bool :=
  written ← write (le_bytes 8 size);
  Return (written =? 8).

Record keyd_stats : Type := mkKeydStats {
  ks_started : Z;
  ks_connects : Z;
  ks_command_stats : list Z
}.

Context {D : Type} {DB : KeyDb D} {DM : KeyDbMore D}.

Record keyd_state : Type := mkKeyd {
  kd_db : D;
  kd_stats : keyd_stats;
  kd_cleanup : bool
}.

Definition set_db (st : keyd_state) (d : D) : keyd_state := mkKeyd d (kd_stats st) (kd_cleanup st).

(** [stats->command_stats[cmd]++] *)
Definition count_command (st : keyd_state) (cmd : Z) : keyd_state :=
  let i := Z.to_nat (if cmd <? KEYD_CMD_LAST then cmd else KEYD_CMD_UNKNOWN) in
  let s := kd_stats st in
  mkKeyd (kd_db st)
    (mkKeydStats (ks_started s) (ks_connects s) (alter (fun n => u32 (n + 1)) i (ks_command_stats s)))
    (kd_cleanup st).

(** The keys a lookup found, or a size of 0; the result is [ret]. *)
Definition send_keys (keys : list openpgp_publickey) : proc Z :=
  match keys with
  | [] => ok ← keyd_write_size 0; Return (if (ok : bool) then 0 else 1)
  | _ => _ ← keyd_write_key keys; Return 0
  end.

(** [read(fd, &bytes, 1)], where [bytes] holds 4 before, and the fingerprint;
    [None] where [ret] becomes 1. *)
Definition read_fingerprint : proc (option openpgp_fingerprint) :=
  r ← read 1;
  match r with
  | Some [bytes] =>
      if MAX_FINGERPRINT_LEN <? bytes then Return None
      else
        r ← read bytes;
        Return (match r with
                | Some fp => if zlen fp =? bytes then Some (mkFingerprint bytes fp) else None
                | None => None
                end)
  | _ => Return None
  end.

Definition do_version : proc Z :=
  written ← write (le_bytes 4 4);
  if negb (written =? 4) then Return 1
  else
    written ← write (le_bytes 4 keyd_version);
    Return (if written =? 4 then 0 else 1).

Definition do_get (st : keyd_state) (fetch : openpgp_fingerprint -> Z * list openpgp_publickey) : proc Z :=
  fp ← read_fingerprint;
  match fp with
  | None => Return 1
  | Some fp => send_keys (fetch fp).2
  end.

Definition do_get_id (st : keyd_state) : proc Z :=
  keyid ← read_number 8;
  match keyid with
  | None => Return 1
  | Some keyid => send_keys (fetch_key_id (kd_db st) keyid false).2
  end.

(** For a count of -1 nothing is allocated and the buffer is read into without
    a limit; for the other negative ones [malloc] fails and [read] after it.
    The text ends at its first NUL. *)
Definition do_get_text (st : keyd_state) : proc Z :=
  count ← read_number 8;
  match count with
  | None => Return 1
  | Some count =>
      let count := i64 count in
      if count =? -1 then Crash OutOfBounds
      else if (count <? 0) || negb (malloc_ok (count + 1)) then Return 1
      else
        search ← read count;
        match search with
        | Some search =>
            if zlen search =? count then send_keys (fetch_key_text (kd_db st) (c_string search)).2
            else Return 1
        | None => Return 1
        end
  end.

Definition do_store (fuel : nat) (st : keyd_state) (update : bool) : proc (keyd_state * Z) :=
  size ← read_number 8;
  match size with
  | None => Return (st, 1)
  | Some size =>
      if 0 <? size then
        data ← read_buffer fuel size;
        match data with
        | None => Return (st, 1)
        | Some data =>
            keys ← pure (keys_of_buffer malloc_ok data []);
            match keys with
            | [] => Crash NullDeref
            | key :: _ => Return (set_db st (store_key (kd_db st) key false update).1, 0)
            end
        end
      else Return (st, 0)
  end.

Definition do_delete (st : keyd_state) : proc (keyd_state * Z) :=
  r ← read sizeof_fingerprint;
  Return (match r with
          | Some bs =>
              if zlen bs =? sizeof_fingerprint
              then (set_db st (delete_key (kd_db st) (fingerprint_of_memory bs) false).1, 0)
              else (st, 1)
          | None => (st, 1)
          end).

(** [iteratefunc] for each key. *)
Fixpoint iterate_write (keys : list openpgp_publickey) : proc () :=
  match keys with
  | [] => Return ()
  | key :: keys =>
      _ ← pure (get_keyid key);
      _ ← keyd_write_key [key];
      iterate_write keys
  end.

Definition do_iterate (st : keyd_state) : proc Z :=
  _ ← iterate_write (iterate_keys (kd_db st));
  ok ← keyd_write_size 0;
  Return (if (ok : bool) then 0 else 1).

Definition stats_memory (s : keyd_stats) : list Z :=
  le_bytes 8 (ks_started s) ++ le_bytes 4 (ks_connects s) ++ concat (map (le_bytes 4) (ks_command_stats s)).

Definition do_stats (st : keyd_state) : proc Z :=
  let memory := stats_memory (kd_stats st) in
  written ← write (le_bytes 4 (zlen memory));
  if negb (written =? 4) then Return 1
  else
    written ← write memory;
    Return (if written =? zlen memory then 0 else 1).

Definition do_get_skshash (st : keyd_state) : proc Z :=
  r ← read SKSHASH_LEN;
  match r with
  | Some hash =>
      if zlen hash =? SKSHASH_LEN then send_keys (fetch_key_skshash (kd_db st) hash).2 else Return 1
  | None => Return 1
  end.

(** A command whose first step is the OK reply. *)
Definition replied (st : keyd_state) (k : proc (keyd_state * Z)) : proc (keyd_state * Z) :=
  ok ← keyd_write_reply KEYD_REPLY_OK;
  if (ok : bool) then k else Return (st, 1).

(** Handlers that leave the state alone. *)
Definition keeping (st : keyd_state) (p : proc Z) : proc (keyd_state * Z) :=
  ret ← p; Return (st, ret).

(** One command of a client; 1 if its connection is to be closed. *)
Definition sock_do (fuel : nat) (st : keyd_state) : proc (keyd_state * Z) :=
  cmd ← read_number 4;
  match cmd with
  | None => Return (st, 1)
  | Some cmd =>
      let st := count_command st cmd in
      if cmd =? KEYD_CMD_VERSION then replied st (keeping st do_version)
      else if cmd =? KEYD_CMD_GET then
        replied st (keeping st (do_get st (fun fp => fetch_key (kd_db st) fp false)))
      else if cmd =? KEYD_CMD_GET_ID then replied st (keeping st (do_get_id st))
      else if cmd =? KEYD_CMD_GET_FP then
        replied st (keeping st (do_get st (fun fp => fetch_key_fp (kd_db st) fp false)))
      else if cmd =? KEYD_CMD_GET_TEXT then replied st (keeping st (do_get_text st))
      else if (cmd =? KEYD_CMD_STORE) || (cmd =? KEYD_CMD_UPDATE) then
        replied st (do_store fuel st (cmd =? KEYD_CMD_UPDATE))
      else if cmd =? KEYD_CMD_DELETE then replied st (do_delete st)
      else if cmd =? KEYD_CMD_KEYITER then replied st (keeping st (do_iterate st))
      else if cmd =? KEYD_CMD_CLOSE then
        _ ← keyd_write_reply KEYD_REPLY_OK; Return (st, 1)
      else if cmd =? KEYD_CMD_QUIT then
        _ ← keyd_write_reply KEYD_REPLY_OK; Return (mkKeyd (kd_db st) (kd_stats st) true, 1)
      else if cmd =? KEYD_CMD_STATS then replied st (keeping st (do_stats st))
      else if cmd =? KEYD_CMD_GET_SKSHASH then replied st (keeping st (do_get_skshash st))
      else
        ok ← keyd_write_reply KEYD_REPLY_UNKNOWN_CMD;
        Return (st, if (ok : bool) then 0 else 1)
  end.

(** * The client (keydb_keyd.c) *)

Definition keyd_send_cmd (cmd : Z) : proc bool :=
  bytes ← write (le_bytes 4 cmd);
  if negb (bytes =? 4) then Return false
  else
    reply ← read_number 4;
    Return (match reply with Some reply => reply =? KEYD_REPLY_OK | None => false end).

(** The buffer that is received, from reading its size on: the keys and
    [count].  A size or a buffer that did not come is used all the same. *)
Definition receive_keys (fuel : nat) : proc (list openpgp_publickey * Z) :=
  size ← read_number 8;
  match size with
  | None => Crash Uninitialised
  | Some size =>
      if 0 <? size then
        data ← read_buffer fuel size;
        match data with
        | None => Crash Uninitialised
        | Some data =>
            keys ← pure (keys_of_buffer malloc_ok data []);
            Return (keys, zlen data)
        end
      else Return ([], 0)
  end.

(** [return (count > 0) ? 1 : 0] *)
Definition found_some (r : list openpgp_publickey * Z) : Z * list openpgp_publickey :=
  (if 0 <? r.2 then 1 else 0, r.1).

Definition keyd_fetch_by_fp (fuel : nat) (cmd : Z) (fp : openpgp_fingerprint)
    : proc (Z * list openpgp_publickey) :=
  if MAX_FINGERPRINT_LEN <? fp_length fp then Return (0, [])
  else
    ok ← keyd_send_cmd cmd;
    if (ok : bool) then
      let size := u8 (fp_length fp) in
      _ ← write [size];
      bytes ← pure (memcpy_from (fp_bytes fp) 0 size);
      _ ← write bytes;
      r ← receive_keys fuel;
      Return (found_some r)
    else Return (0, []).

Definition keyd_fetch_key (fuel : nat) (fp : openpgp_fingerprint) : proc (Z * list openpgp_publickey) :=
  keyd_fetch_by_fp fuel KEYD_CMD_GET fp.

Definition keyd_fetch_key_fp (fuel : nat) (fp : openpgp_fingerprint) : proc (Z * list openpgp_publickey) :=
  keyd_fetch_by_fp fuel KEYD_CMD_GET_FP fp.

Definition keyd_fetch_key_id (fuel : nat) (keyid : Z) : proc (Z * list openpgp_publickey) :=
  ok ← keyd_send_cmd KEYD_CMD_GET_ID;
  if (ok : bool) then
    _ ← write (le_bytes 8 keyid);
    r ← receive_keys fuel;
    Return (found_some r)
  else Return (0, []).

Definition keyd_delete_key (fp : openpgp_fingerprint) : proc Z :=
  ok ← keyd_send_cmd KEYD_CMD_DELETE;
  if (ok : bool) then _ ← write (fingerprint_memory fp); Return 0
  else Return 0.

Definition keyd_store_key (publickey : openpgp_publickey) (update : bool) : proc Z :=
  '(rc, _) ← pure (get_keyid publickey);
  if negb (status_ok rc) then Return 0
  else
    ok ← keyd_send_cmd (if update then KEYD_CMD_UPDATE else KEYD_CMD_STORE);
    if (ok : bool) then
      data ← pure (buffer_of_keys [publickey]);
      _ ← write (le_bytes 8 (zlen data));
      _ ← write data;
      Return 0
    else Return 0.

Definition keyd_fetch_key_text (fuel : nat) (search : list Z) : proc (Z * list openpgp_publickey) :=
  ok ← keyd_send_cmd KEYD_CMD_GET_TEXT;
  if (ok : bool) then
    _ ← write (le_bytes 8 (zlen search));
    _ ← write search;
    r ← receive_keys fuel;
    Return (found_some r)
  else Return (0, []).

Definition keyd_fetch_key_skshash (fuel : nat) (hash : list Z) : proc (Z * list openpgp_publickey) :=
  ok ← keyd_send_cmd KEYD_CMD_GET_SKSHASH;
  if (ok : bool) then
    _ ← write hash;
    r ← receive_keys fuel;
    Return (found_some r)
  else Return (0, []).

(** The keys [iterfunc] is called with, and their number: the first of each
    buffer, if there is one.  [size] is the size of the next buffer, and [n]
    bounds the number of buffers.  The size after a buffer is 0 before it is
    read. *)
Fixpoint receive_iterated (n fuel : nat) (size numkeys : Z) : proc (list openpgp_publickey * Z) :=
  if 0 <? size then
    match n with
    | O => Crash OutOfFuel
    | S n =>
        data ← read_buffer fuel size;
        match data with
        | None => Crash Uninitialised
        | Some data =>
            keys ← pure (keys_of_buffer malloc_ok data []);
            r ← read 8;
            '(rest, numkeys) ← receive_iterated n fuel (le_value (default [] r)) (i32 (numkeys + 1));
            Return (option_list (head keys) ++ rest, numkeys)
        end
    end
  else Return ([], numkeys).

Definition keyd_iterate_keys (n fuel : nat) : proc (list openpgp_publickey * Z) :=
  ok ← keyd_send_cmd KEYD_CMD_KEYITER;
  if (ok : bool) then
    size ← read_number 8;
    match size with
    | None => Crash Uninitialised
    | Some size => receive_iterated n fuel size 0
    end
  else Return ([], 0).

(** [keydb_keyd_init] once it is connected; [None] where it exits. *)
Definition keydb_keyd_init : proc (option ()) :=
  written ← write (le_bytes 4 KEYD_CMD_VERSION);
  if negb (written =? 4) then Return (Some ())
  else
    reply ← read_number 4;
    if bool_decide (reply = Some KEYD_REPLY_OK) then
      size ← read_number 4;
      if bool_decide (size = Some 4) then
        version ← read_number 4;
        Return (match version with Some _ => Some () | None => None end)
      else Return None
    else Return (Some ()).

(** The end of a session. *)
Definition keyd_cleanupdb : proc () :=
  _ ← write (le_bytes 4 KEYD_CMD_CLOSE);
  _ ← read_number 4;
  Return ().

End Keyd.
