(* ===== verification/KeydFacts.v ===== *)
(** A session of a client with the key daemon, over the socket: for every order
    in which the two processes run, the client gets what the daemon's database
    would have given it. *)

From S2P Require Import Prelude OpenPGP Streams Packets Armor Keys KeyId Marshal KeyBuffer Words DbCtx Process Keyd.

(** * Exchanges *)

(** A socket that delivers writes of up to [whole] octets at once, enough for the
    numbers and fingerprints of the protocol, which are read by a single
    [read]. *)
Section Socket.
Variable whole : Z.
Hypothesis whole_enough : sizeof_fingerprint <= whole.



Section Agree.
Context {A B : Type} (Q : A -> B -> Prop).





End Agree.




Lemma write_ne bs : bs <> [] -> write bs = Write bs Return.
Proof. by destruct bs. Qed.

Lemma read_ne n : n <> 0 -> read n = Read n Return.
Proof. intros. unfold read. by destruct (Z.eqb_spec n 0). Qed.

Lemma le_bytes_ne n x : (0 < n)%nat -> le_bytes n x <> [].
Proof. by destruct n; [lia|]. Qed.

Lemma read_all_ne fuel size :
  0 < size -> read_all (S fuel) size [] =
  Read size (fun r => match r with Some bs => read_all fuel size bs | None => Return None end).
Proof.
  intros. cbn [read_all]. rewrite zlen_nil, Z.sub_0_r. destruct (Z.ltb_spec 0 size); [|lia].
  by rewrite read_ne by lia.
Qed.

Lemma read_all_full fuel bs : read_all fuel (zlen bs) bs = Return (Some bs).
Proof. destruct fuel; cbn [read_all]; by rewrite Z.ltb_irrefl. Qed.


Lemma read_number_ne n : n <> 0 -> read_number n = Read n (fun r => Return (number_of n r)).
Proof. intros. unfold read_number. by rewrite read_ne. Qed.

Lemma number_of_4 x : 0 <= x < 2 ^ 32 -> number_of 4 (Some (le_bytes 4 x)) = Some x.
Proof. intros. unfold number_of. rewrite zlen_le_bytes, le_value_bytes; done. Qed.

Lemma number_of_8 x : 0 <= x < 2 ^ 64 -> number_of 8 (Some (le_bytes 8 x)) = Some x.
Proof. intros. unfold number_of. rewrite zlen_le_bytes, le_value_bytes; done. Qed.

(** One message is exchanged: the next write of one side is read by the other. *)
Ltac normal_proc :=
  unfold keyd_write_size, keyd_write_reply, keyd_send_cmd;
  cbn [mbind proc_bind and_then pure mret proc_ret];
  rewrite ?write_ne, ?read_ne, ?read_number_ne by (done || lia || by apply le_bytes_ne; lia);
  cbn [mbind proc_bind and_then pure mret proc_ret].


(** * Keys as octets *)

Section KeydFacts.
Context {HF : Hashes} {BC : BuildConfig}.
Variable malloc_ok : Z -> bool.







(** * Requests and answers *)

Inductive request : Type :=
  | FetchKey (fp : openpgp_fingerprint)
  | FetchKeyFp (fp : openpgp_fingerprint)
  | FetchKeyId (keyid : Z)
  | FetchKeyText (search : list Z)
  | FetchKeySkshash (hash : list Z)
  | StoreKey (key : openpgp_publickey) (update : bool)
  | DeleteKey (fp : openpgp_fingerprint)
  | IterateKeys.

Inductive answer : Type :=
  | Found (r : Z * list openpgp_publickey)
  | Status (r : Z)
  | Iterated (r : list openpgp_publickey * Z).


Context {D : Type} {DB : KeyDb D} {DM : KeyDbMore D}.

(** The same call of the daemon's database, in the daemon's terms: a lookup
    answers 1 for any number of keys, updates answer 0. *)
Definition found (r : Z * list openpgp_publickey) : answer :=
  Found (match r.2 with [] => 0 | _ => 1 end, map reparsed r.2).

Definition direct (d : D) (req : request) : D * answer :=
  match req with
  | FetchKey fp => (d, found (fetch_key d fp false))
  | FetchKeyFp fp => (d, found (fetch_key_fp d fp false))
  | FetchKeyId keyid => (d, found (fetch_key_id d keyid false))
  | FetchKeyText search => (d, found (fetch_key_text d search))
  | FetchKeySkshash hash => (d, found (fetch_key_skshash d hash))
  | StoreKey key update => ((store_key d (reparsed key) false update).1, Status 0)
  | DeleteKey fp => ((delete_key d fp false).1, Status 0)
  | IterateKeys => (d, Iterated (map reparsed (iterate_keys d), zlen (iterate_keys d)))
  end.

















(** * Sessions *)




(** The requests as direct calls of the database. *)
Fixpoint run_direct (d : D) (reqs : list request) : D * list answer :=
  match reqs with
  | [] => (d, [])
  | req :: reqs =>
      let r := direct d req in
      let rest := run_direct r.1 reqs in
      (rest.1, r.2 :: rest.2)
  end.






(** * A client that breaks off *)

Lemma feed_read_all fuel size got : zlen got < size -> feed (read_all fuel size got) [] = (Fault OutOfFuel, []).
Proof.
  revert got. induction fuel as [|fuel IH]; intros got Hg; cbn [read_all];
    (destruct (Z.ltb_spec (zlen got) size); [|lia]); [done|].
  normal_proc. cbn [feed]. rewrite take_nil, drop_nil, app_nil_r. by apply IH.
Qed.

Lemma feed_read_4 {A} x (k : option Z -> proc A) rest :
  0 <= x < 2 ^ 32 -> feed (n ← read_number 4; k n) (le_bytes 4 x ++ rest) = feed (k (Some x)) rest.
Proof.
  intros. normal_proc. cbn [feed].
  rewrite take_app_length', drop_app_length', number_of_4 by (done || by rewrite length_le_bytes). done.
Qed.

Lemma feed_read_8 {A} x (k : option Z -> proc A) rest :
  0 <= x < 2 ^ 64 -> feed (n ← read_number 8; k n) (le_bytes 8 x ++ rest) = feed (k (Some x)) rest.
Proof.
  intros. normal_proc. cbn [feed].
  rewrite take_app_length', drop_app_length', number_of_8 by (done || by rewrite length_le_bytes). done.
Qed.

Lemma feed_bind {A B} (f : A -> proc B) p input e out :
  feed p input = (Fault e, out) -> feed (and_then f p) input = (Fault e, out).
Proof.
  revert input out. induction p as [a|e'|bs k IH|n k IH]; intros input out; cbn [feed and_then]; intros H.
  - done.
  - by injection H as -> ->.
  - destruct (feed (k (zlen bs)) input) as [r o] eqn:E. injection H as -> <-. by rewrite (IH _ _ _ E).
  - by apply IH.
Qed.

Lemma feed_replied (st : keyd_state (D := D)) k input e :
  feed k input = (Fault e, []) -> feed (replied st k) input = (Fault e, le_bytes 4 KEYD_REPLY_OK).
Proof.
  intros E. unfold replied. normal_proc. cbn [feed]. rewrite zlen_le_bytes.
  change (Z.of_nat 4 =? 4) with true. cbv iota. by rewrite E, app_nil_r.
Qed.

Lemma feed_store_eof fuel st (update : bool) size data :
  zlen data < size < 2 ^ 64 -> malloc_ok size = true ->
  feed (do_store malloc_ok fuel st update) (le_bytes 8 size ++ data) = (Fault OutOfFuel, []).
Proof.
  intros Hlen Hm. pose proof (zlen_nonneg data). unfold do_store. rewrite feed_read_8 by lia.
  destruct (Z.ltb_spec 0 size); [|lia]. apply feed_bind. unfold read_buffer. rewrite Hm.
  destruct fuel as [|fuel]; [cbn [read_all]; rewrite zlen_nil; by destruct (Z.ltb_spec 0 size); [|lia]|].
  rewrite read_all_ne by lia. cbn [feed].
  rewrite firstn_all2, skipn_all2 by (unfold zlen in *; lia). apply feed_read_all. lia.
Qed.

(** C40: the loop of [KEYD_CMD_STORE] that reads the key treats the end of the
    stream like progress: when a client announces [size] octets and closes the
    connection after fewer, the daemon answers OK and then reads for ever, for
    no number of iterations does the command end. *)
Theorem store_eof_diverges fuel st (update : bool) size data :
  zlen data < size < 2 ^ 64 -> malloc_ok size = true ->
  feed (sock_do malloc_ok fuel st)
    (le_bytes 4 (if update then KEYD_CMD_UPDATE else KEYD_CMD_STORE) ++ le_bytes 8 size ++ data) =
  (Fault OutOfFuel, le_bytes 4 KEYD_REPLY_OK).
Proof.
  intros Hlen Hm. unfold sock_do. destruct update; (rewrite feed_read_4 by done); cbn [Z.eqb Pos.eqb orb];
    by apply feed_replied, feed_store_eof.
Qed.

(** [KEYD_CMD_STORE] does not look at what it has parsed: octets that hold
    no key make it call [store_key] with a null pointer. *)
Theorem store_without_key_crashes fuel st (update : bool) data :
  0 < zlen data < 2 ^ 64 -> malloc_ok (zlen data) = true -> keys_of_buffer malloc_ok data [] = Done [] ->
  feed (sock_do malloc_ok (S fuel) st)
    (le_bytes 4 (if update then KEYD_CMD_UPDATE else KEYD_CMD_STORE) ++ le_bytes 8 (zlen data) ++ data) =
  (Fault NullDeref, le_bytes 4 KEYD_REPLY_OK).
Proof.
  intros Hlen Hm Hk. unfold sock_do.
  assert (Hd : forall st u, feed (do_store malloc_ok (S fuel) st u) (le_bytes 8 (zlen data) ++ data) = (Fault NullDeref, [])).
  { intros st' u. unfold do_store. rewrite feed_read_8 by lia. destruct (Z.ltb_spec 0 (zlen data)); [|lia].
    unfold read_buffer. rewrite Hm, read_all_ne by lia. cbn [mbind proc_bind and_then feed].
    rewrite firstn_all2, skipn_all2 by (unfold zlen; lia). rewrite read_all_full. cbn [mbind proc_bind and_then].
    by rewrite Hk. }
  destruct update; (rewrite feed_read_4 by done); cbn [Z.eqb Pos.eqb orb];
    by apply feed_replied.
Qed.
End KeydFacts.
End Socket.

(** * Examples *)

(** A database that is a list of keys, each lookup giving all of them. *)
Section ListDb.
#[local] Instance list_db : KeyDb (list openpgp_publickey) := {|
  starttrans d := (d, true);
  endtrans d := d;
  fetch_key d _ _ := (zlen d, d);
  fetch_key_id d _ _ := (zlen d, d);
  fetch_key_fp d _ _ := (zlen d, d);
  store_key d k _ _ := (d ++ [k], 0)
|}.

#[local] Instance list_db_more : KeyDbMore (list openpgp_publickey) := {|
  fetch_key_text d _ := (zlen d, d);
  fetch_key_skshash d _ := (zlen d, d);
  delete_key d _ _ := ([], 0);
  iterate_keys d := d
|}.

#[local] Instance list_hashes : Hashes := toy_hashes.
#[local] Instance list_build : BuildConfig := full_build.

Definition list_keyd (d : list openpgp_publickey) : keyd_state := mkKeyd d (mkKeydStats 0 0 (replicate 15 0)) false.

Definition list_requests : list request :=
  [FetchKeyId 7; StoreKey sample_key false; FetchKeyText [65; 66]; IterateKeys;
   DeleteKey (mkFingerprint 2 [1; 2]); FetchKey (mkFingerprint 2 [1; 2])].





(** The daemon's octets for a client that stores 3 of 10 octets. *)
Lemma store_eof_diverges_witness :
  feed (sock_do (fun _ => true) 5 (list_keyd [])) [3; 0; 0; 0; 10; 0; 0; 0; 0; 0; 0; 0; 1; 2; 3] =
  (Fault OutOfFuel, [0; 0; 0; 0]).
Proof. apply (store_eof_diverges (fun _ => true) 5 (list_keyd []) false 10 [1; 2; 3]); vm_compute; done. Defined.

(** A user id alone. *)
Lemma store_without_key_crashes_witness :
  feed (sock_do (fun _ => true) 5 (list_keyd [])) [3; 0; 0; 0; 4; 0; 0; 0; 0; 0; 0; 0; 0xb4; 2; 65; 66] =
  (Fault NullDeref, [0; 0; 0; 0]).
Proof.
  apply (store_without_key_crashes (fun _ => true) 4 (list_keyd []) false [0xb4; 2; 65; 66]); vm_compute; done.
Defined.

(** What the session of the example answers. *)
Example list_answers :
  run_direct [] list_requests =
  ([], [Found (0, []); Status 0; Found (1, [reparsed sample_key]); Iterated ([reparsed sample_key], 1);
        Status 0; Found (0, [])]).
Proof. vm_compute. reflexivity. Qed.
End ListDb.
