(* ===== verification/KeydLoop.v ===== *)
(** The main loop of the key daemon (keydb/keyd.c): the table of clients, the
    set of descriptors it polls, and how the two correspond. *)

From S2P Require Import Prelude.

Definition MAX_CLIENTS : Z := 16.

Section MainLoop.
(** The rest of the daemon: [sock_do] and the closing of the connection when it
    returns 1, and [sock_accept]; the descriptor of the listening socket. *)
Context {S : Type}.
Variable sock_do : S -> Z -> S * bool.
Variable sock_accept : S -> S * Z.
Variable fd : Z.

Record main_loop : Type := mkLoop {
  lp_state : S;
  lp_clients : list Z;
  lp_rfds : list Z;
  lp_fdcount : Z
}.

(** [poll]: [revents] of the [MAX_CLIENTS] entries, 0 behind [fdcount]. *)
Definition poll (ready : Z -> bool) (l : main_loop) : list bool :=
  let polled := take (Z.to_nat (lp_fdcount l)) (lp_rfds l) in
  map ready polled ++ replicate (Z.to_nat MAX_CLIENTS - length polled) false.

(** The loop over the existing clients. *)
Fixpoint handle_clients (st : S) (clients : list Z) (revents : list bool) (curfd : Z) : outcome (S * list Z) :=
  match clients with
  | [] => Done (st, [])
  | c :: cs =>
      if c =? -1 then
        '(st, cs) ← handle_clients st cs revents curfd;
        Done (st, c :: cs)
      else
        match revents !! Z.to_nat (curfd + 1) with
        | None => Fault OutOfBounds
        | Some pollin =>
            let '(st, c) :=
              if (pollin : bool) then let '(st, ret) := sock_do st c in (st, if ret then -1 else c) else (st, c) in
            '(st, cs) ← handle_clients st cs revents (curfd + 1);
            Done (st, c :: cs)
        end
  end.

(** A new connection gets the first free slot, if there is one. *)
Definition accept_client (st : S) (clients : list Z) : S * list Z :=
  match list_find (fun c => c = -1) clients with
  | Some (i, _) => let '(st, srv) := sock_accept st in (st, <[i := srv]> clients)
  | None => (st, clients)
  end.

(** The clients' entries of [rfds]. *)
Fixpoint add_clients (clients : list Z) (rfds : list Z) (fdcount : Z) : outcome (list Z * Z) :=
  match clients with
  | [] => Done (rfds, fdcount)
  | c :: cs =>
      if c =? -1 then add_clients cs rfds fdcount
      else if fdcount <? MAX_CLIENTS then add_clients cs (<[Z.to_nat fdcount := c]> rfds) (fdcount + 1)
      else Fault OutOfBounds
  end.

Definition poll_set (clients : list Z) : outcome (list Z * Z) :=
  add_clients clients (<[0%nat := fd]> (replicate (Z.to_nat MAX_CLIENTS) 0)) 1.

(** Before the loop: no client. *)
Definition main_init (st : S) : main_loop :=
  mkLoop st (replicate (Z.to_nat MAX_CLIENTS) (-1)) (<[0%nat := fd]> (replicate (Z.to_nat MAX_CLIENTS) 0)) 1.

(** One iteration, after [poll] found the descriptors [ready]. *)
Definition main_round (ready : Z -> bool) (l : main_loop) : outcome main_loop :=
  let revents := poll ready l in
  '(st, clients) ← handle_clients (lp_state l) (lp_clients l) revents 0;
  let '(st, clients) := if default false (revents !! 0%nat) then accept_client st clients else (st, clients) in
  '(rfds, fdcount) ← poll_set clients;
  Done (mkLoop st clients rfds fdcount).

(** * The correspondence *)

Definition connected (clients : list Z) : list Z := filter (fun c => c <> -1) clients.

(** 16 slots, and the polled descriptors are the listening socket and the
    connected clients, in the order of their slots. *)
Record wf_loop (l : main_loop) : Prop := {
  wf_slots : length (lp_clients l) = Z.to_nat MAX_CLIENTS;
  wf_rfds : length (lp_rfds l) = Z.to_nat MAX_CLIENTS;
  wf_fdcount : lp_fdcount l = 1 + zlen (connected (lp_clients l));
  wf_polled : take (Z.to_nat (lp_fdcount l)) (lp_rfds l) = fd :: connected (lp_clients l)
}.

(** Each connected client that is ready is served once, in the order of the
    slots. *)
Fixpoint serve_ready (ready : Z -> bool) (st : S) (clients : list Z) : S * list Z :=
  match clients with
  | [] => (st, [])
  | c :: cs =>
      let '(st, c) :=
        if negb (c =? -1) && ready c then let '(st, ret) := sock_do st c in (st, if ret then -1 else c) else (st, c) in
      let '(st, cs) := serve_ready ready st cs in
      (st, c :: cs)
  end.

Lemma handle_clients_spec ready clients : forall st revents curfd,
  0 <= curfd ->
  take (length (connected clients)) (drop (Z.to_nat (curfd + 1)) revents) = map ready (connected clients) ->
  handle_clients st clients revents curfd = Done (serve_ready ready st clients).
Proof.
  induction clients as [|c cs IH]; intros st revents curfd Hc Hr; cbn [handle_clients serve_ready]; [done|].
  unfold connected in *. rewrite filter_cons in Hr. destruct (Z.eqb_spec c (-1)) as [-> | Hne]; cbn [negb andb].
  - rewrite decide_False in Hr by lia. rewrite (IH st revents curfd) by done. cbn [mbind outcome_bind].
    by destruct (serve_ready ready st cs).
  - rewrite decide_True in Hr by done. cbn [length map] in Hr.
    destruct (drop (Z.to_nat (curfd + 1)) revents) as [|r rs] eqn:Ed; [done|]. cbn [take] in Hr. injection Hr as -> Hr.
    assert (revents !! Z.to_nat (curfd + 1) = Some (ready c)) as ->.
    { rewrite <- (Nat.add_0_r (Z.to_nat (curfd + 1))), <- lookup_drop, Ed. done. }
    assert (Hd : drop (Z.to_nat (curfd + 1 + 1)) revents = rs).
    { replace (Z.to_nat (curfd + 1 + 1)) with (Z.to_nat (curfd + 1) + 1)%nat by lia.
      rewrite <- drop_drop, Ed. done. }
    destruct (if ready c then _ else _) as [st1 c1].
    rewrite (IH st1 revents (curfd + 1)) by (rewrite ?Hd; first [done | lia]). cbn [mbind outcome_bind].
    by destruct (serve_ready ready st1 cs).
Qed.

Lemma add_clients_spec clients : forall rfds fdcount,
  length rfds = Z.to_nat MAX_CLIENTS -> 0 <= fdcount ->
  fdcount + zlen (connected clients) <= MAX_CLIENTS ->
  exists rfds', add_clients clients rfds fdcount = Done (rfds', fdcount + zlen (connected clients)) /\
    length rfds' = Z.to_nat MAX_CLIENTS /\
    take (Z.to_nat (fdcount + zlen (connected clients))) rfds' = take (Z.to_nat fdcount) rfds ++ connected clients.
Proof.
  unfold connected, MAX_CLIENTS.
  induction clients as [|c cs IH]; intros rfds fdcount Hl H0 Hn; cbn [add_clients].
  - change (filter (fun c => c <> -1) (@nil Z)) with (@nil Z) in *. rewrite zlen_nil, Z.add_0_r, app_nil_r. by exists rfds.
  - rewrite filter_cons in *. destruct (Z.eqb_spec c (-1)) as [-> | Hne].
    + rewrite decide_False in * by lia. by apply IH.
    + rewrite decide_True in * by done. rewrite zlen_cons in *. pose proof (zlen_nonneg (filter (fun c => c <> -1) cs)).
      destruct (Z.ltb_spec fdcount MAX_CLIENTS); [|unfold MAX_CLIENTS in *; lia].
      destruct (IH (<[Z.to_nat fdcount := c]> rfds) (fdcount + 1)) as (rfds' & E & Hl' & Ht);
        [by rewrite length_insert | lia | lia |].
      exists rfds'. rewrite E. split; [do 2 f_equal; lia|]. split; [done|].
      rewrite Z.add_assoc, Ht. replace (Z.to_nat (fdcount + 1)) with (Datatypes.S (Z.to_nat fdcount)) by lia.
      rewrite (take_S_r _ _ c) by (apply list_lookup_insert_eq; lia).
      rewrite take_insert_ge by lia. by rewrite <- app_assoc.
Qed.

Lemma add_clients_overflow clients : forall rfds fdcount,
  0 <= fdcount -> MAX_CLIENTS < fdcount + zlen (connected clients) -> fdcount <= MAX_CLIENTS ->
  add_clients clients rfds fdcount = Fault OutOfBounds.
Proof.
  unfold connected, MAX_CLIENTS.
  induction clients as [|c cs IH]; intros rfds fdcount H0 Hn Hm; cbn [add_clients].
  - change (filter (fun c => c <> -1) (@nil Z)) with (@nil Z) in Hn. rewrite zlen_nil in Hn. lia.
  - rewrite filter_cons in *. destruct (Z.eqb_spec c (-1)) as [-> | Hne].
    + rewrite decide_False in * by lia. by apply IH.
    + rewrite decide_True in * by done. rewrite zlen_cons in *.
      destruct (Z.ltb_spec fdcount MAX_CLIENTS); [apply IH; unfold MAX_CLIENTS in *; lia | done].
Qed.

Lemma serve_ready_length ready clients : forall st, length (serve_ready ready st clients).2 = length clients.
Proof.
  induction clients as [|c cs IH]; intros st; cbn [serve_ready]; [done|].
  destruct (if negb _ && _ then _ else _) as [st1 c1]. specialize (IH st1).
  destruct (serve_ready ready st1 cs). cbn in *. by rewrite IH.
Qed.

Lemma accept_client_length st clients : length (accept_client st clients).2 = length clients.
Proof.
  unfold accept_client. destruct (list_find _ clients) as [[i c]|]; [|done].
  destruct (sock_accept st). cbn. apply length_insert.
Qed.

Lemma connected_length clients : zlen (connected clients) <= zlen clients.
Proof. unfold zlen, connected. pose proof (length_filter (fun c => c <> -1) clients). lia. Qed.

(** The table of clients after an iteration. *)
Definition next_clients (ready : Z -> bool) (l : main_loop) : S * list Z :=
  let '(st, clients) := serve_ready ready (lp_state l) (lp_clients l) in
  if ready fd then accept_client st clients else (st, clients).

Lemma next_clients_length ready l : wf_loop l -> length (next_clients ready l).2 = Z.to_nat MAX_CLIENTS.
Proof.
  intros Hw. unfold next_clients. pose proof (serve_ready_length ready (lp_clients l) (lp_state l)) as Hl.
  destruct (serve_ready ready (lp_state l) (lp_clients l)) as [st cs]. cbn in Hl.
  destruct (ready fd); [rewrite accept_client_length|]; cbn; rewrite Hl; apply Hw.
Qed.

Lemma main_round_reduces ready l :
  wf_loop l ->
  main_round ready l =
  '(rfds, fdcount) ← poll_set (next_clients ready l).2;
  Done (mkLoop (next_clients ready l).1 (next_clients ready l).2 rfds fdcount).
Proof.
  intros [Hs Hr Hf Hp]. unfold main_round, poll. rewrite Hp. cbn [map app].
  rewrite (handle_clients_spec ready); [| lia |].
  2: { change (Z.to_nat (0 + 1)) with 1%nat. cbn [drop]. rewrite ?drop_0, <- (length_map ready (connected (lp_clients l))). apply take_app_length. }
  unfold next_clients. cbn [mbind outcome_bind lookup list_lookup default id].
  destruct (serve_ready ready (lp_state l) (lp_clients l)) as [st cs]. cbn.
  by destruct (ready fd); [destruct (accept_client st cs)|].
Qed.

(** C22: an iteration of the daemon's main loop serves each connected client that
    has sent something once, in the order of the slots, then gives a new
    connection the first free slot, and polls exactly the listening socket and
    the connected clients afterwards -- as long as at most 15 of the 16 slots
    are taken.  With 16 clients the set of descriptors is written behind the
    end of [rfds], which has no room for the listening socket. *)
Theorem main_round_spec ready l :
  wf_loop l ->
  (zlen (connected (next_clients ready l).2) < MAX_CLIENTS ->
   exists l', main_round ready l = Done l' /\ wf_loop l' /\
     (lp_state l', lp_clients l') = next_clients ready l) /\
  (zlen (connected (next_clients ready l).2) = MAX_CLIENTS -> main_round ready l = Fault OutOfBounds).
Proof.
  intros Hw. rewrite main_round_reduces by done. pose proof (next_clients_length ready l Hw) as Hl.
  destruct (next_clients ready l) as [st cs]. cbn [fst snd] in *. unfold poll_set. split; intros Hn.
  - destruct (add_clients_spec cs (<[0%nat := fd]> (replicate (Z.to_nat MAX_CLIENTS) 0)) 1)
      as (rfds & -> & Hl' & Ht); [by rewrite length_insert, length_replicate | lia | lia |].
    cbn [mbind outcome_bind]. eexists. split; [done|]. split; [|done]. by constructor.
  - by rewrite add_clients_overflow by (unfold MAX_CLIENTS in *; lia).
Qed.

Lemma main_init_wf st : wf_loop (main_init st).
Proof. constructor; reflexivity. Qed.
End MainLoop.

(** 15 clients are connected and a 16th comes. *)
Definition crowded (slots : nat) : main_loop :=
  match poll_set 3 (seqZ 4 (Z.of_nat slots) ++ replicate (16 - slots) (-1)) with
  | Done (rfds, fdcount) => mkLoop 0 (seqZ 4 (Z.of_nat slots) ++ replicate (16 - slots) (-1)) rfds fdcount
  | Fault _ => main_init 3 0
  end.

Definition toy_do (st fd : Z) : Z * bool := (st + 1, fd =? 5).
Definition toy_accept (st : Z) : Z * Z := (st, 77).

Lemma main_round_spec_witness :
  (exists l', main_round toy_do toy_accept 3 (fun fd => fd <? 7) (crowded 15) = Done l' /\ wf_loop 3 l' /\
     (lp_state l', lp_clients l') = next_clients toy_do toy_accept 3 (fun fd => fd <? 7) (crowded 15)) /\
  main_round toy_do toy_accept 3 (fun fd => fd =? 3) (crowded 15) = Fault OutOfBounds.
Proof.
  assert (Hw : wf_loop 3 (crowded 15)) by (constructor; vm_compute; reflexivity).
  split.
  - apply (main_round_spec toy_do toy_accept 3 (fun fd => fd <? 7) (crowded 15) Hw). vm_compute. reflexivity.
  - apply (main_round_spec toy_do toy_accept 3 (fun fd => fd =? 3) (crowded 15) Hw). vm_compute. reflexivity.
Defined.
