(* ===== verification/Cgi.v ===== *)
(** CGI parameters (cgi/getcgi.c): the unescaping of a URL in place, and the
    splitting of the input into names and values.

    Strings are buffers of octets with their terminating NUL; a buffer from
    [strdup] ends with it.  [char] is signed. *)

From Stdlib Require Import String.
From S2P Require Import Prelude CLib.

(** * Unescaping *)

Definition s8 (c : Z) : Z := (c + 128) mod 256 - 128.

(** The value of a digit as an [int]. *)
Definition digit_value (c : Z) : Z :=
  if s8 65 <=? s8 c then Z.land (s8 c) 0xdf - 65 + 10 else s8 c - 48.

(** [x2c(what)], an octet. *)
Definition x2c (a b : Z) : Z := u8 (s8 (s8 (digit_value a) * 16) + digit_value b).

Definition chr_percent : Z := 37.

(** [url[i] = v] *)
Definition wr (url : list Z) (i v : Z) : outcome (list Z) :=
  if (0 <=? i) && (i <? zlen url) then Done (<[Z.to_nat i := v]> url) else Fault OutOfBounds.

(** [for (i=0, j=0; url[j]; ++i, ++j, --left)] and the final NUL. *)
Fixpoint unescape_loop (fuel : nat) (url : list Z) (i j left : Z) : outcome (list Z) :=
  c ← url.[j];
  if c =? 0 then wr url i 0
  else
    match fuel with
    | O => Fault OutOfFuel
    | S fuel =>
        url ← wr url i c;
        if (c =? chr_percent) && (2 <=? left) then
          a ← url.[j + 1];
          b ← url.[j + 2];
          url ← wr url i (x2c a b);
          unescape_loop fuel url (i + 1) (j + 3) (left - 3)
        else unescape_loop fuel url (i + 1) (j + 1) (left - 1)
    end.

Definition unescape_url (url : list Z) : outcome (list Z) :=
  unescape_loop (length url) url 0 0 (zlen (c_string url)).

(** * Splitting *)

Definition plus_sign : Z := 43.
Definition chr_space : Z := 32.
Definition chr_amp : Z := 38.
Definition chr_equals : Z := 61.

(** [unescape_url] of a copy of a string. *)
Definition unescaped (s : list Z) : outcome (list Z) :=
  url ← unescape_url (s ++ [0]);
  Done (c_string url).

(** [strchr(pair, '=')]: the name and the value; without one the value is
    empty. *)
Definition name_value (nvpair : list Z) : outcome (list Z * list Z) :=
  let '(name, value) := split_at chr_equals nvpair in
  value ← unescaped value;
  name ← unescaped name;
  Done (name, value).

Fixpoint name_values (pairs : list (list Z)) : outcome (list (list Z * list Z)) :=
  match pairs with
  | [] => Done []
  | nvpair :: pairs =>
      nv ← name_value nvpair;
      rest ← name_values pairs;
      Done (nv :: rest)
  end.

(** The part of [getcgivars] behind the input, a string. *)
Definition parse_cgiinput (cgiinput : list Z) : outcome (list (list Z * list Z)) :=
  let s := map (fun c => if c =? plus_sign then chr_space else c) cgiinput in
  pairs ← strtok_all (S (length s)) chr_amp s;
  name_values pairs.

(** * The characters a URL stands for *)

(** [None] for an escape that the end of the string cuts after one digit. *)
Fixpoint decode (s : list Z) : option (list Z) :=
  match s with
  | [] => Some []
  | c :: rest =>
      if c =? chr_percent then
        match rest with
        | [] => Some [c]
        | [_] => None
        | a :: b :: rest => cons (x2c a b) <$> decode rest
        end
      else cons c <$> decode rest
  end.

Lemma rd_at url j (x : Z) l : 0 <= j -> drop (Z.to_nat j) url = x :: l -> url.[j] = Done x.
Proof.
  intros Hj Hd. unfold rd. destruct (Z.ltb_spec j 0); [lia|].
  by rewrite <- (Nat.add_0_r (Z.to_nat j)), <- lookup_drop, Hd.
Qed.

Lemma rd_behind_end url j : 0 <= j -> drop (Z.to_nat j) url = [] -> url.[j] = Fault OutOfBounds.
Proof.
  intros Hj Hd. unfold rd. destruct (Z.ltb_spec j 0); [lia|].
  by rewrite <- (Nat.add_0_r (Z.to_nat j)), <- lookup_drop, Hd.
Qed.

Lemma drop_next {A} (l : list A) j x r : 0 <= j -> drop (Z.to_nat j) l = x :: r -> drop (Z.to_nat (j + 1)) l = r.
Proof.
  intros Hj Hd. replace (Z.to_nat (j + 1)) with (Z.to_nat j + 1)%nat by lia. by rewrite <- drop_drop, Hd.
Qed.

(** Writing at or in front of the place that is read. *)
Lemma wr_behind url i j v d r :
  0 <= i <= j -> take (Z.to_nat i) url = d -> drop (Z.to_nat j) url = r -> r <> [] ->
  exists url', wr url i v = Done url' /\ take (Z.to_nat i) url' = d /\ take (Z.to_nat (i + 1)) url' = d ++ [v] /\
    drop (Z.to_nat (j + 1)) url' = drop (Z.to_nat (j + 1)) url /\ length url' = length url.
Proof.
  intros Hi Hd Hr Hne.
  assert (Hlt : (Z.to_nat j < length url)%nat).
  { destruct (Nat.le_gt_cases (length url) (Z.to_nat j)); [|done]. by rewrite drop_ge in Hr by done. }
  unfold wr. rewrite (proj2 (Z.leb_le 0 i)), (proj2 (Z.ltb_lt i (zlen url))) by (unfold zlen; lia). cbn [andb].
  eexists. split; [done|]. split; [by rewrite take_insert_ge by lia|]. split; [|split; [|apply length_insert]].
  - replace (Z.to_nat (i + 1)) with (S (Z.to_nat i)) by lia.
    rewrite (take_S_r _ _ v) by (apply list_lookup_insert_eq; lia). by rewrite take_insert_ge, Hd by lia.
  - apply drop_insert_lt. lia.
Qed.

(** [r] is a buffer with [d] and the decoded string in front, ended by a NUL;
    without a decoding, a fault. *)
Definition leaves (d : list Z) (r : outcome (list Z)) (dec : option (list Z)) : Prop :=
  match dec with
  | Some t => exists url tail, r = Done url /\ url = d ++ t ++ 0 :: tail
  | None => r = Fault OutOfBounds
  end.

Lemma leaves_cons d x r dec : leaves (d ++ [x]) r dec -> leaves d r (cons x <$> dec).
Proof.
  destruct dec as [t|]; [|done]. intros (url & tail & -> & ->). exists (d ++ x :: t ++ 0 :: tail), tail.
  by rewrite <- app_assoc.
Qed.

Lemma unescape_end fuel url i j d left :
  0 <= i <= j -> take (Z.to_nat i) url = d -> drop (Z.to_nat j) url = [0] ->
  leaves d (unescape_loop fuel url i j left) (Some []).
Proof.
  intros Hij Hd Hr. destruct (wr_behind url i j 0 d _ Hij Hd Hr ltac:(done)) as (url' & E & _ & Ht & _).
  exists url', (drop (Z.to_nat (i + 1)) url'). split.
  - destruct fuel; cbn [unescape_loop]; by rewrite (rd_at url j 0 [] ltac:(lia) Hr).
  - rewrite <- (take_drop (Z.to_nat (i + 1)) url') at 1. by rewrite Ht, <- app_assoc.
Qed.

(** A complete escape. *)
Lemma unescape_step url i j d a b rest :
  0 <= i <= j -> take (Z.to_nat i) url = d -> drop (Z.to_nat (j + 1)) url = a :: b :: rest ->
  exists url', url.[j + 1] = Done a /\ url.[j + 2] = Done b /\ wr url i (x2c a b) = Done url' /\
    take (Z.to_nat (i + 1)) url' = d ++ [x2c a b] /\ drop (Z.to_nat (j + 3)) url' = rest.
Proof.
  intros Hij Hd Hr. assert (Hr2 : drop (Z.to_nat (j + 2)) url = b :: rest).
  { replace (j + 2) with (j + 1 + 1) by lia. eapply drop_next; [lia | exact Hr]. }
  destruct (wr_behind url i (j + 2) (x2c a b) d _ ltac:(lia) Hd Hr2 ltac:(done)) as (url' & E & _ & Ht & Hd' & _).
  exists url'. split; [by eapply rd_at; [lia|]|]. split; [by eapply rd_at; [lia|]|].
  split; [done|]. split; [done|]. replace (j + 3) with (j + 2 + 1) by lia. rewrite Hd'.
  eapply drop_next; [lia | exact Hr2].
Qed.

Lemma unescape_loop_spec n : forall s fuel url i j d,
  (length s <= n)%nat -> (length s <= fuel)%nat -> Forall (fun c => c <> 0) s ->
  0 <= i <= j -> take (Z.to_nat i) url = d -> drop (Z.to_nat j) url = s ++ [0] ->
  leaves d (unescape_loop fuel url i j (zlen s)) (decode s).
Proof.
  induction n as [|n IH]; intros s fuel url i j d Hn Hf Hs Hij Hd Hr; destruct s as [|c s]; cbn [length] in *;
    try lia; [by apply unescape_end | by apply unescape_end |].
  destruct fuel as [|fuel]; [lia|]. inversion Hs as [|? ? Hc Hs']; subst. cbn [app] in Hr.
  destruct (wr_behind url i j c _ _ Hij eq_refl Hr ltac:(done)) as (url1 & E1 & Ht0 & Ht1 & Hd1 & Hl1).
  assert (Hd2 : drop (Z.to_nat (j + 1)) url = s ++ [0]) by (eapply drop_next; [lia | exact Hr]).
  rewrite Hd2 in Hd1. rewrite zlen_cons.
  cbn [unescape_loop decode]. rewrite (rd_at url j _ _ ltac:(lia) Hr). cbn [mbind outcome_bind].
  destruct (Z.eqb_spec c 0); [done|]. rewrite E1. cbn [mbind outcome_bind].
  assert (Hplain : leaves (take (Z.to_nat i) url) (unescape_loop fuel url1 (i + 1) (j + 1) (1 + zlen s - 1))
    (cons c <$> decode s)).
  { replace (1 + zlen s - 1) with (zlen s) by lia. apply leaves_cons, IH; try done; lia. }
  destruct (Z.eqb_spec c chr_percent) as [-> |]; cbn [andb]; [|done].
  destruct s as [|a [|b rest]]; [done | |]; rewrite !zlen_cons in *; cbn [app] in *.
  - destruct (unescape_step url1 i j _ a 0 [] Hij Ht0 Hd1) as (url2 & Ea & Eb & E2 & _ & Hd3).
    change (2 <=? 1 + (1 + zlen [])) with true. cbv iota. rewrite Ea, Eb. cbn [mbind outcome_bind]. rewrite E2.
    cbn [mbind outcome_bind leaves]. destruct fuel; cbn [unescape_loop]; by rewrite (rd_behind_end url2 (j + 3)) by (done || lia).
  - destruct (unescape_step url1 i j _ a b (rest ++ [0]) Hij Ht0 Hd1) as (url2 & Ea & Eb & E2 & Ht2 & Hd3).
    pose proof (zlen_nonneg rest). destruct (Z.leb_spec 2 (1 + (1 + (1 + zlen rest)))); [|lia].
    rewrite Ea, Eb. cbn [mbind outcome_bind]. rewrite E2. cbn [mbind outcome_bind].
    replace (1 + (1 + (1 + zlen rest)) - 3) with (zlen rest) by lia. cbn [length] in *.
    inversion Hs' as [|? ? _ Hs1]; inversion Hs1; subst. apply leaves_cons, IH; try done; lia.
Qed.

Lemma c_string_end s tail : Forall (fun c => c <> 0) s -> c_string (s ++ 0 :: tail) = s.
Proof. induction 1 as [|c s Hc _ IH]; [done|]. cbn. destruct (Z.eqb_spec c 0); [done | by rewrite IH]. Qed.

Lemma unescape_spec s :
  Forall (fun c => c <> 0) s -> leaves [] (unescape_url (s ++ [0])) (decode s).
Proof.
  intros Hs. unfold unescape_url. rewrite c_string_end by done.
  apply (unescape_loop_spec (length s)); try done. rewrite length_app. lia.
Qed.

(** Unescaping a URL in place gives the decoded string, except for a URL that
    ends in a percent sign and one digit: then the loop steps over the
    terminating NUL and reads behind the end of the buffer. *)
Theorem unescape_url_correct s :
  Forall (fun c => c <> 0) s ->
  match decode s with
  | Some t => exists tail, unescape_url (s ++ [0]) = Done (t ++ 0 :: tail)
  | None => unescape_url (s ++ [0]) = Fault OutOfBounds
  end.
Proof.
  intros Hs. pose proof (unescape_spec s Hs) as H. unfold leaves in H.
  destruct (decode s); [|done]. destruct H as (url & tail & -> & ->). by exists tail.
Qed.

Lemma unescape_url_correct_witness :
  (exists tail, unescape_url [97; 37; 52; 49; 0] = Done ([97; 65] ++ 0 :: tail)) /\
  unescape_url [97; 37; 52; 0] = Fault OutOfBounds.
Proof.
  split.
  - apply (unescape_url_correct [97; 37; 52; 49]). repeat constructor; done.
  - apply (unescape_url_correct [97; 37; 52]). repeat constructor; done.
Defined.

(** * Forms *)

(** What a browser sends for names and values. *)
Definition form_digit (d : Z) : Z := if d <? 10 then 48 + d else 55 + d.

Definition alnum (c : Z) : bool :=
  ((48 <=? c) && (c <=? 57)) || ((65 <=? c) && (c <=? 90)) || ((97 <=? c) && (c <=? 122)).

Definition escape (c : Z) : list Z :=
  if alnum c then [c] else [chr_percent; form_digit (c / 16); form_digit (c mod 16)].

Definition escape_all (s : list Z) : list Z := concat (map escape s).

Definition form_pair (nv : list Z * list Z) : list Z := escape_all nv.1 ++ chr_equals :: escape_all nv.2.

Definition form (pairs : list (list Z * list Z)) : list Z := joined chr_amp (map form_pair pairs).

Definition text (s : list Z) : Prop := Forall (fun c => 0 < c < 256) s.

(** The characters of an escaped text. *)
Definition escaped_char (c : Z) : bool := alnum c || (c =? chr_percent).

Lemma escape_spec c rest : 0 < c < 256 ->
  decode (escape c ++ rest) = cons c <$> decode rest /\ Forall (fun x => escaped_char x = true) (escape c).
Proof.
  intros Hc. assert (Hall : forallb (fun c => if alnum c then negb (c =? chr_percent) else
    (x2c (form_digit (c / 16)) (form_digit (c mod 16)) =? c) &&
    alnum (form_digit (c / 16)) && alnum (form_digit (c mod 16))) (seqZ 1 255) = true) by (vm_compute; reflexivity).
  rewrite forallb_forall in Hall. specialize (Hall c). rewrite <- list_elem_of_In, elem_of_seqZ in Hall.
  specialize (Hall ltac:(lia)). unfold escape, escaped_char. destruct (alnum c) eqn:Ea.
  - cbn [app decode]. destruct (c =? chr_percent); [done|]. split; [done|]. repeat constructor. by rewrite Ea.
  - apply andb_prop in Hall as [[Hx H1]%andb_prop H2]. apply Z.eqb_eq in Hx. cbn [app decode].
    change (chr_percent =? chr_percent) with true. cbv iota. rewrite Hx. split; [done|].
    repeat constructor; by rewrite ?H1, ?H2.
Qed.

Lemma escape_all_spec s : text s -> decode (escape_all s) = Some s /\ Forall (fun x => escaped_char x = true) (escape_all s).
Proof.
  induction 1 as [|c s Hc _ [IH1 IH2]]; [by split; constructor|]. unfold escape_all in *. cbn [map concat].
  destruct (escape_spec c (concat (map escape s)) Hc) as [E1 E2]. rewrite E1, IH1. split; [done|]. by apply Forall_app.
Qed.

Lemma unescaped_escape s : text s -> unescaped (escape_all s) = Done s.
Proof.
  intros Hs. destruct (escape_all_spec s Hs) as [E1 E2]. unfold unescaped.
  pose proof (unescape_spec (escape_all s)) as H. rewrite E1 in H. destruct H as (url & tail & -> & ->).
  - eapply Forall_impl; [exact E2|]. cbn. by intros c Hc ->.
  - cbn [mbind outcome_bind app]. rewrite c_string_end; [done|]. eapply Forall_impl; [exact Hs|]. cbn. lia.
Qed.

Lemma escaped_ne c x : escaped_char c = true -> escaped_char x = false -> c <> x.
Proof. congruence. Qed.

Lemma name_value_form nv : text nv.1 -> text nv.2 -> name_value (form_pair nv) = Done nv.
Proof.
  intros H1 H2. unfold name_value, form_pair. rewrite split_at_spec.
  - rewrite !unescaped_escape by done. by destruct nv.
  - eapply Forall_impl; [apply escape_all_spec, H1|]. intros c Hc. by apply escaped_ne.
Qed.

Lemma form_pair_chars nv x :
  text nv.1 -> text nv.2 -> escaped_char x = false -> x <> chr_equals -> Forall (fun c => c <> x) (form_pair nv).
Proof.
  intros H1 H2 Hx Hne. unfold form_pair. apply Forall_app. split; [|constructor; [done|]];
    (eapply Forall_impl; [by apply escape_all_spec|]; intros c Hc; by apply escaped_ne).
Qed.

Definition text_pair (nv : list Z * list Z) : Prop := text nv.1 /\ text nv.2.

Lemma strtok_form pairs fuel :
  Forall text_pair pairs -> (length pairs < fuel)%nat ->
  strtok_all fuel chr_amp (form pairs) = Done (map form_pair pairs).
Proof.
  intros Hp Hf. apply strtok_joined; [|by rewrite length_map]. apply Forall_map. eapply Forall_impl; [exact Hp|].
  intros nv [H1 H2]. split; [unfold form_pair; by destruct (escape_all nv.1) | by apply form_pair_chars].
Qed.

Lemma name_values_form pairs : Forall text_pair pairs -> name_values (map form_pair pairs) = Done pairs.
Proof.
  induction 1 as [|nv pairs [H1 H2] _ IH]; [done|]. cbn [map name_values].
  by rewrite name_value_form, IH by done.
Qed.

Lemma form_chars pairs x :
  Forall text_pair pairs -> escaped_char x = false -> x <> chr_equals -> x <> chr_amp -> Forall (fun c => c <> x) (form pairs).
Proof.
  intros Hp Hx He Ha. destruct Hp as [|nv pairs [H1 H2] Hp]; [constructor|]. unfold form. cbn [joined map]. apply Forall_app.
  split; [by apply form_pair_chars|]. apply Forall_concat, Forall_map, Forall_map. eapply Forall_impl; [exact Hp|].
  intros nv' [H1' H2']. constructor; [done|]. by apply form_pair_chars.
Qed.

Lemma form_no_plus pairs :
  Forall text_pair pairs -> map (fun c => if c =? plus_sign then chr_space else c) (form pairs) = form pairs.
Proof.
  intros Hp. assert (Hf : Forall (fun c => c <> plus_sign) (form pairs)) by by apply form_chars.
  induction Hf as [|c l Hc _ IH]; [done|]. cbn. rewrite IH. by destruct (Z.eqb_spec c plus_sign).
Qed.

Lemma form_length pairs : (length pairs <= length (form pairs))%nat.
Proof.
  assert (Hl : forall nv, (1 <= length (form_pair nv))%nat).
  { intros nv. unfold form_pair. rewrite length_app. cbn [length]. lia. }
  destruct pairs as [|nv pairs]; [done|]. unfold form. cbn [joined map length]. rewrite length_app. specialize (Hl nv).
  induction pairs as [|nv2 pairs IH]; cbn [map concat length app] in *; [lia|]. rewrite length_app. lia.
Qed.

Lemma parse_form pairs : Forall text_pair pairs -> parse_cgiinput (form pairs) = Done pairs.
Proof.
  intros Hp. unfold parse_cgiinput. rewrite form_no_plus by done. pose proof (form_length pairs).
  rewrite strtok_form by (done || lia). cbn [mbind outcome_bind]. by apply name_values_form.
Qed.

(** Names and values that were sent as a form -- escaped, joined by equals
    signs and ampersands -- come back from the CGI input as they were. *)
Theorem cgi_form_roundtrip pairs : Forall text_pair pairs -> parse_cgiinput (form pairs) = Done pairs.
Proof. apply parse_form. Qed.

Lemma cgi_form_roundtrip_witness :
  let pairs := [(str "search", str "a+b & c=d%4"); (str "x", [])] in parse_cgiinput (form pairs) = Done pairs.
Proof.
  intros pairs. apply (cgi_form_roundtrip pairs). repeat constructor; cbn; lia.
Defined.
