(* ===== verification/Photo.v ===== *)
(** Photo ids (photoid.c): the image in the n-th user attribute of a key. *)

From S2P Require Import Prelude OpenPGP Streams Decode Marshal.

(** The subpacket length at the start of the attribute, and the offset behind
    it. *)
Definition photo_length (data : list Z) : outcome (Z * Z) :=
  l ← data.[0];
  if l <? 192 then Done (l, 1)
  else if l <? 255 then
    b ← data.[1];
    Done (u64 (u64 (Z.shiftl (l - 192) 8) + b + 192), 2)
  else
    l ← rd_be data 1 4 0;
    Done (l, 5).

(** [data[j] == 0x10 && data[j+1] == 0 && data[j+2] == 1 && data[j+3] == 1] *)
Definition image_header (data : list Z) (j : Z) : outcome bool :=
  a ← data.[j];
  if negb (a =? 0x10) then Done false
  else
    b ← data.[j + 1];
    if negb (b =? 0) then Done false
    else
      c ← data.[j + 2];
      if negb (c =? 1) then Done false
      else d ← data.[j + 3]; Done (d =? 1).

(** The photo is the data from an offset on, and its length. *)
Definition packet_photo (packet : openpgp_packet) : outcome (onak_status_t * option (list Z * Z)) :=
  let data := pkt_data packet in
  if pkt_length packet <? 17 then Done (ONAK_E_INVALID_PKT, None)
  else
    '(length, j) ← photo_length data;
    if length <? 17 then Done (ONAK_E_INVALID_PKT, None)
    else if pkt_length packet - j <? length then Done (ONAK_E_INVALID_PKT, None)
    else
      t ← data.[j];
      if negb (t =? 1) then Done (ONAK_E_INVALID_PKT, None)
      else
        ok ← image_header data (j + 1);
        if negb ok then Done (ONAK_E_INVALID_PKT, None)
        else Done (ONAK_E_OK, Some (drop (Z.to_nat (j + 17)) data, length - 17)).

Fixpoint photo_loop (curuid : list openpgp_signedpacket) (i index : Z) : outcome (onak_status_t * option (list Z * Z)) :=
  match curuid with
  | [] => Done (ONAK_E_NOT_FOUND, None)
  | u :: next =>
      if index <? i then Done (ONAK_E_NOT_FOUND, None)
      else if pkt_tag (sp_packet u) =? OPENPGP_PACKET_UAT then
        if i =? index then packet_photo (sp_packet u) else photo_loop next (i + 1) index
      else photo_loop next i index
  end.

Definition getphoto (key : openpgp_publickey) (index : Z) : outcome (onak_status_t * option (list Z * Z)) :=
  photo_loop (pk_uids key) 0 index.

(** * The attribute that is looked at *)

Definition is_attribute (u : openpgp_signedpacket) : Prop := pkt_tag (sp_packet u) = OPENPGP_PACKET_UAT.

Lemma photo_loop_spec uids : forall i index,
  0 <= i ->
  photo_loop uids i index =
  match (if index <? i then None else filter is_attribute uids !! Z.to_nat (index - i)) with
  | Some u => packet_photo (sp_packet u)
  | None => Done (ONAK_E_NOT_FOUND, None)
  end.
Proof.
  induction uids as [|u uids IH]; intros i index Hi; cbn [photo_loop]; [by destruct (index <? i)|].
  destruct (Z.ltb_spec index i); [done|]. rewrite filter_cons. unfold is_attribute at 1.
  destruct (Z.eqb_spec (pkt_tag (sp_packet u)) OPENPGP_PACKET_UAT) as [Ht|Ht].
  - rewrite decide_True by done. destruct (Z.eqb_spec i index) as [-> |].
    + by rewrite Z.sub_diag.
    + rewrite IH by lia. destruct (Z.ltb_spec index (i + 1)); [lia|].
      by replace (Z.to_nat (index - i)) with (S (Z.to_nat (index - (i + 1)))) by lia.
  - rewrite decide_False by done. rewrite IH by lia. by destruct (Z.ltb_spec index i); [lia|].
Qed.

(** * Bounds *)


Lemma photo_length_ok data :
  Forall byte data -> 17 <= zlen data -> exists l j, photo_length data = Done (l, j) /\ 0 <= l /\ (j = 1 \/ j = 2 \/ j = 5).
Proof.
  intros Hb Hl. unfold photo_length. destruct (rd_ok_byte data 0 Hb) as (x & -> & Hx); [lia|].
  cbn [mbind outcome_bind]. unfold byte in Hx. destruct (x <? 192); [eauto 6 with lia|].
  destruct (x <? 255).
  - destruct (rd_ok_byte data 1 Hb) as (y & -> & Hy); [lia|]. cbn [mbind outcome_bind].
    eexists _, 2. split; [done|]. unfold u64. split; [apply Z.mod_pos_bound; lia | auto].
  - rewrite (rd_be_value data 1 4 0 0) by (done || lia). cbn [mbind outcome_bind]. eexists _, 5. split; [done|].
    split; [|auto]. apply (be_value_bound (take 4 (drop (Z.to_nat 1) data))). by apply Forall_take, Forall_drop.
Qed.

Lemma image_header_ok data j : 0 <= j -> j + 4 <= zlen data -> exists b, image_header data j = Done b.
Proof.
  intros Hj Hl. unfold image_header.
  destruct (rd_ok data j) as [a ->]; [lia|]. cbn [mbind outcome_bind]. destruct (negb _); [eauto|].
  destruct (rd_ok data (j + 1)) as [b ->]; [lia|]. cbn [mbind outcome_bind]. destruct (negb _); [eauto|].
  destruct (rd_ok data (j + 2)) as [c ->]; [lia|]. cbn [mbind outcome_bind]. destruct (negb _); [eauto|].
  destruct (rd_ok data (j + 3)) as [d ->]; [lia|]. cbn [mbind outcome_bind]. eauto.
Qed.

(** A result that can be used: the photo has as many octets as its length
    says. *)
Definition photo_valid (r : onak_status_t * option (list Z * Z)) : Prop :=
  match r with
  | (rc, Some (photo, length)) => rc = ONAK_E_OK /\ 0 <= length <= zlen photo
  | (rc, None) => rc <> ONAK_E_OK
  end.

Lemma packet_photo_ok p : wf_packet p -> exists r, packet_photo p = Done r /\ photo_valid r.
Proof.
  intros [Hl Hb]. unfold packet_photo. rewrite Hl. destruct (Z.ltb_spec (zlen (pkt_data p)) 17); [by eexists|].
  destruct (photo_length_ok (pkt_data p) Hb) as (l & j & -> & Hl0 & Hj); [done|]. cbn [mbind outcome_bind].
  destruct (Z.ltb_spec l 17); [by eexists|]. destruct (Z.ltb_spec (zlen (pkt_data p) - j) l); [by eexists|].
  destruct (rd_ok (pkt_data p) j) as [t ->]; [lia|]. cbn [mbind outcome_bind]. destruct (negb (t =? 1)); [by eexists|].
  destruct (image_header_ok (pkt_data p) (j + 1)) as [ok ->]; [lia | lia |]. cbn [mbind outcome_bind].
  destruct (negb ok); [by eexists|]. eexists. split; [done|]. split; [done|]. unfold zlen in *. rewrite length_drop. lia.
Qed.

(** Whatever stands in the user attributes of a key, [getphoto] reads inside
    their packets, and a photo it returns has the length it returns. *)
Theorem getphoto_safe key index :
  wf_key key -> exists r, getphoto key index = Done r /\ photo_valid r.
Proof.
  intros (_ & _ & Hu & _). unfold getphoto. rewrite photo_loop_spec by done.
  destruct (if index <? 0 then _ else _) as [u|] eqn:E; [|by eexists].
  apply packet_photo_ok. destruct (index <? 0); [done|].
  apply list_elem_of_lookup_2, list_elem_of_filter in E as [_ Hin]. rewrite list.Forall_forall in Hu. by apply Hu.
Qed.

(** * Images *)

Lemma photo_length_encode n rest :
  0 <= n < 2 ^ 32 -> Forall byte rest ->
  photo_length (sub_length_octets n ++ rest) = Done (n, zlen (sub_length_octets n)).
Proof.
  intros Hn Hb. unfold photo_length, sub_length_octets. destruct (Z.ltb_spec n 192).
  { cbn [app]. rewrite rd_cons_0. cbn [mbind outcome_bind]. by destruct (Z.ltb_spec n 192); [|lia]. }
  destruct (Z.ltb_spec n 8384).
  { cbn [app]. rewrite rd_cons_0, rd_cons_1. cbn [mbind outcome_bind].
    set (q := (n - 192) / 256). assert (Hq : 0 <= q < 32 /\ (n - 192) mod 256 = n - 192 - 256 * q)
      by (unfold q; split; Z.div_mod_to_equations; lia).
    destruct (Z.ltb_spec (q + 192) 192), (Z.ltb_spec (q + 192) 255); try lia.
    rewrite (proj2 Hq), shiftl_8, (u64_small ((q + 192 - 192) * 256)), u64_small by lia. do 2 f_equal. lia. }
  cbn [app]. rewrite rd_cons_0. cbn [mbind outcome_bind Z.ltb Z.compare Pos.compare Pos.compare_cont].
  assert (Hh : Forall byte (htonl_bytes n)) by (unfold htonl_bytes; repeat constructor; apply u8_byte).
  rewrite (rd_be_value _ 1 4 0 0);
    [| constructor; [done | by apply Forall_app] | lia | rewrite zlen_cons, zlen_app; pose proof (zlen_nonneg rest);
       change (zlen (htonl_bytes n)) with 4; lia | done | lia].
  cbn [mbind outcome_bind]. do 2 f_equal.
  change (drop (Z.to_nat 1) (255 :: htonl_bytes n ++ rest)) with (htonl_bytes n ++ rest).
  rewrite take_app_length' by done. by apply be_value_htonl.
Qed.

(** An image attribute: the length of the subpacket, its type, the image header
    (version 1, encoding JPEG, 12 reserved octets) and the image. *)
Definition image_attribute (image rest : list Z) : list Z :=
  sub_length_octets (17 + zlen image) ++ [1; 0x10; 0; 1; 1] ++ replicate 12 0 ++ image ++ rest.

Lemma packet_photo_image p image rest :
  wf_packet p -> pkt_data p = image_attribute image rest -> zlen image < 2 ^ 31 ->
  packet_photo p = Done (ONAK_E_OK, Some (image ++ rest, zlen image)).
Proof.
  intros [Hl Hb] Hd Hi. pose proof (zlen_nonneg image). pose proof (zlen_nonneg rest).
  unfold packet_photo. rewrite Hl, Hd in *. unfold image_attribute in *.
  set (lo := sub_length_octets (17 + zlen image)) in *. set (body := [1; 0x10; 0; 1; 1] ++ replicate 12 0 ++ image ++ rest) in *.
  assert (Hbody : zlen body = 17 + zlen image + zlen rest) by (unfold body; rewrite !zlen_app; change (zlen [1; 16; 0; 1; 1]) with 5; change (zlen (replicate 12 0)) with 12; lia).
  assert (Hlo := zlen_nonneg lo). rewrite zlen_app.
  destruct (Z.ltb_spec (zlen lo + zlen body) 17); [lia|].
  apply Forall_app in Hb as [_ Hb].
  assert (Elen : photo_length (lo ++ body) = Done (17 + zlen image, zlen lo)) by (apply photo_length_encode; done || lia).
  rewrite Elen. cbn [mbind outcome_bind].
  destruct (Z.ltb_spec (17 + zlen image) 17); [lia|].
  destruct (Z.ltb_spec (zlen lo + zlen body - zlen lo) (17 + zlen image)); [lia|].
  assert (Hrd : forall i x, 0 <= i -> body.[i] = Done x -> (lo ++ body).[zlen lo + i] = Done x).
  { intros i x Hi0 E. rewrite rd_app_r by lia. by replace (zlen lo + i - zlen lo) with i by lia. }
  pose proof (Hrd 0 1 ltac:(lia) eq_refl) as E0. rewrite Z.add_0_r in E0. rewrite E0. cbn [mbind outcome_bind Z.eqb Pos.eqb negb].
  unfold image_header. replace (zlen lo + 1 + 1) with (zlen lo + 2) by lia.
  replace (zlen lo + 1 + 2) with (zlen lo + 3) by lia. replace (zlen lo + 1 + 3) with (zlen lo + 4) by lia.
  rewrite (Hrd 1 0x10), (Hrd 2 0), (Hrd 3 1), (Hrd 4 1) by done. cbn [mbind outcome_bind Z.eqb Pos.eqb negb].
  do 4 f_equal; [|lia]. replace (Z.to_nat (zlen lo + 17)) with (length lo + 17)%nat by (unfold zlen in *; lia).
  by rewrite <- drop_drop, drop_app_length.
Qed.

(** The photo with index [n] is the image in the [n]-th user attribute of the
    key, whatever user ids stand between the attributes. *)
Theorem getphoto_image key index u image rest :
  wf_key key -> 0 <= index -> filter is_attribute (pk_uids key) !! Z.to_nat index = Some u ->
  pkt_data (sp_packet u) = image_attribute image rest -> zlen image < 2 ^ 31 ->
  getphoto key index = Done (ONAK_E_OK, Some (image ++ rest, zlen image)).
Proof.
  intros (_ & _ & Hu & _) Hi E Hd Hl. unfold getphoto. rewrite photo_loop_spec by done.
  destruct (Z.ltb_spec index 0); [lia|]. rewrite Z.sub_0_r, E. apply packet_photo_image; [|done | done].
  apply list_elem_of_lookup_2, list_elem_of_filter in E as [_ Hin]. rewrite list.Forall_forall in Hu. by apply Hu.
Qed.

Definition photo_key : openpgp_publickey :=
  let att := image_attribute [255; 216; 255; 217] [] in
  mkKey (mkPacket OPENPGP_PACKET_PUBLICKEY true 1 [4]) false []
    [mkSigned (mkPacket OPENPGP_PACKET_UID true 1 [65]) [];
     mkSigned (mkPacket OPENPGP_PACKET_UAT true (zlen att) att) []] [].

Lemma photo_key_wf : wf_key photo_key.
Proof. apply (bool_decide_unpack _). vm_compute. exact I. Qed.

Lemma getphoto_safe_witness : exists r, getphoto photo_key 1 = Done r /\ photo_valid r.
Proof. apply (getphoto_safe photo_key 1 photo_key_wf). Defined.

Lemma getphoto_image_witness :
  getphoto photo_key 0 = Done (ONAK_E_OK, Some ([255; 216; 255; 217] ++ [], zlen [255; 216; 255; 217])).
Proof.
  eapply (getphoto_image photo_key 0 _ [255; 216; 255; 217] []).
  - exact photo_key_wf.
  - done.
  - reflexivity.
  - reflexivity.
  - reflexivity.
Defined.
