(* ===== verification/Conf.v ===== *)
(** The runtime configuration (onak-conf.c): reading a file of either style into
    the global variables, and writing it.

    Strings are octets without NUL; a [char] pointer that may be NULL is an
    [option].  The environment and the files are arguments.  The pointer
    [config.backend] is a position in the list of backends, counted from its
    end, since the list grows at its head.  What is logged is left out. *)

From Stdlib Require Import String.
From S2P Require Import Prelude CLib OpenPGP KeyId KeyArray Clean Stats.

(** * State *)

Record onak_db_config : Type := mkDbConfig {
  db_name : option (list Z);
  db_type : option (list Z);
  db_location : option (list Z);
  db_hostname : option (list Z);
  db_username : option (list Z);
  db_password : option (list Z)
}.

Definition set_db_name (v : option (list Z)) (b : onak_db_config) : onak_db_config :=
  mkDbConfig v (db_type b) (db_location b) (db_hostname b) (db_username b) (db_password b).

Definition set_db_type (v : option (list Z)) (b : onak_db_config) : onak_db_config :=
  mkDbConfig (db_name b) v (db_location b) (db_hostname b) (db_username b) (db_password b).

Definition set_db_location (v : option (list Z)) (b : onak_db_config) : onak_db_config :=
  mkDbConfig (db_name b) (db_type b) v (db_hostname b) (db_username b) (db_password b).

Definition set_db_hostname (v : option (list Z)) (b : onak_db_config) : onak_db_config :=
  mkDbConfig (db_name b) (db_type b) (db_location b) v (db_username b) (db_password b).

Definition set_db_username (v : option (list Z)) (b : onak_db_config) : onak_db_config :=
  mkDbConfig (db_name b) (db_type b) (db_location b) (db_hostname b) v (db_password b).

Definition set_db_password (v : option (list Z)) (b : onak_db_config) : onak_db_config :=
  mkDbConfig (db_name b) (db_type b) (db_location b) (db_hostname b) (db_username b) v.

Record configuration : Type := mkConfiguration {
  cf_maxkeys : Z;
  cf_thissite : option (list Z);
  cf_adminemail : option (list Z);
  cf_mta : option (list Z);
  cf_server_contact : option (list Z);
  cf_syncsites : list (list Z);
  cf_logfile : option (list Z);
  cf_use_keyd : bool;
  cf_sock_dir : option (list Z);
  cf_backends : list onak_db_config;
  cf_backend : option nat;
  cf_db_backend : option (list Z);
  cf_backends_dir : option (list Z);
  cf_blacklist : keyarray;
  cf_clean_policies : Z;
  cf_limits : onak_config;
  cf_template_dir : option (list Z);
  cf_bin_dir : option (list Z);
  cf_mail_dir : option (list Z)
}.

Definition set_maxkeys (v : Z) (c : configuration) : configuration :=
    mkConfiguration v (cf_thissite c) (cf_adminemail c) (cf_mta c) (cf_server_contact c) (cf_syncsites c)
    (cf_logfile c) (cf_use_keyd c) (cf_sock_dir c) (cf_backends c) (cf_backend c) (cf_db_backend c)
    (cf_backends_dir c) (cf_blacklist c) (cf_clean_policies c) (cf_limits c) (cf_template_dir c) (cf_bin_dir c)
    (cf_mail_dir c).

Definition set_thissite (v : option (list Z)) (c : configuration) : configuration :=
    mkConfiguration (cf_maxkeys c) v (cf_adminemail c) (cf_mta c) (cf_server_contact c) (cf_syncsites c)
    (cf_logfile c) (cf_use_keyd c) (cf_sock_dir c) (cf_backends c) (cf_backend c) (cf_db_backend c)
    (cf_backends_dir c) (cf_blacklist c) (cf_clean_policies c) (cf_limits c) (cf_template_dir c) (cf_bin_dir c)
    (cf_mail_dir c).

Definition set_adminemail (v : option (list Z)) (c : configuration) : configuration :=
    mkConfiguration (cf_maxkeys c) (cf_thissite c) v (cf_mta c) (cf_server_contact c) (cf_syncsites c) (cf_logfile
    c) (cf_use_keyd c) (cf_sock_dir c) (cf_backends c) (cf_backend c) (cf_db_backend c) (cf_backends_dir c)
    (cf_blacklist c) (cf_clean_policies c) (cf_limits c) (cf_template_dir c) (cf_bin_dir c) (cf_mail_dir c).

Definition set_mta (v : option (list Z)) (c : configuration) : configuration :=
    mkConfiguration (cf_maxkeys c) (cf_thissite c) (cf_adminemail c) v (cf_server_contact c) (cf_syncsites c)
    (cf_logfile c) (cf_use_keyd c) (cf_sock_dir c) (cf_backends c) (cf_backend c) (cf_db_backend c)
    (cf_backends_dir c) (cf_blacklist c) (cf_clean_policies c) (cf_limits c) (cf_template_dir c) (cf_bin_dir c)
    (cf_mail_dir c).

Definition set_server_contact (v : option (list Z)) (c : configuration) : configuration :=
    mkConfiguration (cf_maxkeys c) (cf_thissite c) (cf_adminemail c) (cf_mta c) v (cf_syncsites c) (cf_logfile c)
    (cf_use_keyd c) (cf_sock_dir c) (cf_backends c) (cf_backend c) (cf_db_backend c) (cf_backends_dir c)
    (cf_blacklist c) (cf_clean_policies c) (cf_limits c) (cf_template_dir c) (cf_bin_dir c) (cf_mail_dir c).

Definition set_syncsites (v : list (list Z)) (c : configuration) : configuration :=
    mkConfiguration (cf_maxkeys c) (cf_thissite c) (cf_adminemail c) (cf_mta c) (cf_server_contact c) v
    (cf_logfile c) (cf_use_keyd c) (cf_sock_dir c) (cf_backends c) (cf_backend c) (cf_db_backend c)
    (cf_backends_dir c) (cf_blacklist c) (cf_clean_policies c) (cf_limits c) (cf_template_dir c) (cf_bin_dir c)
    (cf_mail_dir c).

Definition set_logfile (v : option (list Z)) (c : configuration) : configuration :=
    mkConfiguration (cf_maxkeys c) (cf_thissite c) (cf_adminemail c) (cf_mta c) (cf_server_contact c)
    (cf_syncsites c) v (cf_use_keyd c) (cf_sock_dir c) (cf_backends c) (cf_backend c) (cf_db_backend c)
    (cf_backends_dir c) (cf_blacklist c) (cf_clean_policies c) (cf_limits c) (cf_template_dir c) (cf_bin_dir c)
    (cf_mail_dir c).

Definition set_use_keyd (v : bool) (c : configuration) : configuration :=
    mkConfiguration (cf_maxkeys c) (cf_thissite c) (cf_adminemail c) (cf_mta c) (cf_server_contact c)
    (cf_syncsites c) (cf_logfile c) v (cf_sock_dir c) (cf_backends c) (cf_backend c) (cf_db_backend c)
    (cf_backends_dir c) (cf_blacklist c) (cf_clean_policies c) (cf_limits c) (cf_template_dir c) (cf_bin_dir c)
    (cf_mail_dir c).

Definition set_sock_dir (v : option (list Z)) (c : configuration) : configuration :=
    mkConfiguration (cf_maxkeys c) (cf_thissite c) (cf_adminemail c) (cf_mta c) (cf_server_contact c)
    (cf_syncsites c) (cf_logfile c) (cf_use_keyd c) v (cf_backends c) (cf_backend c) (cf_db_backend c)
    (cf_backends_dir c) (cf_blacklist c) (cf_clean_policies c) (cf_limits c) (cf_template_dir c) (cf_bin_dir c)
    (cf_mail_dir c).

Definition set_backends (v : list onak_db_config) (c : configuration) : configuration :=
    mkConfiguration (cf_maxkeys c) (cf_thissite c) (cf_adminemail c) (cf_mta c) (cf_server_contact c)
    (cf_syncsites c) (cf_logfile c) (cf_use_keyd c) (cf_sock_dir c) v (cf_backend c) (cf_db_backend c)
    (cf_backends_dir c) (cf_blacklist c) (cf_clean_policies c) (cf_limits c) (cf_template_dir c) (cf_bin_dir c)
    (cf_mail_dir c).

Definition set_backend (v : option nat) (c : configuration) : configuration :=
    mkConfiguration (cf_maxkeys c) (cf_thissite c) (cf_adminemail c) (cf_mta c) (cf_server_contact c)
    (cf_syncsites c) (cf_logfile c) (cf_use_keyd c) (cf_sock_dir c) (cf_backends c) v (cf_db_backend c)
    (cf_backends_dir c) (cf_blacklist c) (cf_clean_policies c) (cf_limits c) (cf_template_dir c) (cf_bin_dir c)
    (cf_mail_dir c).

Definition set_db_backend (v : option (list Z)) (c : configuration) : configuration :=
    mkConfiguration (cf_maxkeys c) (cf_thissite c) (cf_adminemail c) (cf_mta c) (cf_server_contact c)
    (cf_syncsites c) (cf_logfile c) (cf_use_keyd c) (cf_sock_dir c) (cf_backends c) (cf_backend c) v
    (cf_backends_dir c) (cf_blacklist c) (cf_clean_policies c) (cf_limits c) (cf_template_dir c) (cf_bin_dir c)
    (cf_mail_dir c).

Definition set_backends_dir (v : option (list Z)) (c : configuration) : configuration :=
    mkConfiguration (cf_maxkeys c) (cf_thissite c) (cf_adminemail c) (cf_mta c) (cf_server_contact c)
    (cf_syncsites c) (cf_logfile c) (cf_use_keyd c) (cf_sock_dir c) (cf_backends c) (cf_backend c) (cf_db_backend
    c) v (cf_blacklist c) (cf_clean_policies c) (cf_limits c) (cf_template_dir c) (cf_bin_dir c) (cf_mail_dir c).

Definition set_blacklist (v : keyarray) (c : configuration) : configuration :=
    mkConfiguration (cf_maxkeys c) (cf_thissite c) (cf_adminemail c) (cf_mta c) (cf_server_contact c)
    (cf_syncsites c) (cf_logfile c) (cf_use_keyd c) (cf_sock_dir c) (cf_backends c) (cf_backend c) (cf_db_backend
    c) (cf_backends_dir c) v (cf_clean_policies c) (cf_limits c) (cf_template_dir c) (cf_bin_dir c) (cf_mail_dir
    c).

Definition set_clean_policies (v : Z) (c : configuration) : configuration :=
    mkConfiguration (cf_maxkeys c) (cf_thissite c) (cf_adminemail c) (cf_mta c) (cf_server_contact c)
    (cf_syncsites c) (cf_logfile c) (cf_use_keyd c) (cf_sock_dir c) (cf_backends c) (cf_backend c) (cf_db_backend
    c) (cf_backends_dir c) (cf_blacklist c) v (cf_limits c) (cf_template_dir c) (cf_bin_dir c) (cf_mail_dir c).

Definition set_limits (v : onak_config) (c : configuration) : configuration :=
    mkConfiguration (cf_maxkeys c) (cf_thissite c) (cf_adminemail c) (cf_mta c) (cf_server_contact c)
    (cf_syncsites c) (cf_logfile c) (cf_use_keyd c) (cf_sock_dir c) (cf_backends c) (cf_backend c) (cf_db_backend
    c) (cf_backends_dir c) (cf_blacklist c) (cf_clean_policies c) v (cf_template_dir c) (cf_bin_dir c)
    (cf_mail_dir c).

Definition set_template_dir (v : option (list Z)) (c : configuration) : configuration :=
    mkConfiguration (cf_maxkeys c) (cf_thissite c) (cf_adminemail c) (cf_mta c) (cf_server_contact c)
    (cf_syncsites c) (cf_logfile c) (cf_use_keyd c) (cf_sock_dir c) (cf_backends c) (cf_backend c) (cf_db_backend
    c) (cf_backends_dir c) (cf_blacklist c) (cf_clean_policies c) (cf_limits c) v (cf_bin_dir c) (cf_mail_dir c).

Definition set_bin_dir (v : option (list Z)) (c : configuration) : configuration :=
    mkConfiguration (cf_maxkeys c) (cf_thissite c) (cf_adminemail c) (cf_mta c) (cf_server_contact c)
    (cf_syncsites c) (cf_logfile c) (cf_use_keyd c) (cf_sock_dir c) (cf_backends c) (cf_backend c) (cf_db_backend
    c) (cf_backends_dir c) (cf_blacklist c) (cf_clean_policies c) (cf_limits c) (cf_template_dir c) v (cf_mail_dir
    c).

Definition set_mail_dir (v : option (list Z)) (c : configuration) : configuration :=
    mkConfiguration (cf_maxkeys c) (cf_thissite c) (cf_adminemail c) (cf_mta c) (cf_server_contact c)
    (cf_syncsites c) (cf_logfile c) (cf_use_keyd c) (cf_sock_dir c) (cf_backends c) (cf_backend c) (cf_db_backend
    c) (cf_backends_dir c) (cf_blacklist c) (cf_clean_policies c) (cf_limits c) (cf_template_dir c) (cf_bin_dir c)
    v.

(** The variables of the file and the threshold of log.c. *)
Record conf_state : Type := mkConf {
  config : configuration;
  section : list Z;      (* the static buffer of parseconfigline *)
  logthres : Z
}.

Definition with_config (f : configuration -> configuration) (st : conf_state) : conf_state :=
  mkConf (f (config st)) (section st) (logthres st).

Definition setlogthreshold (v : Z) (st : conf_state) : conf_state := mkConf (config st) (section st) v.

Definition default_config : configuration :=
  mkConfiguration 128 None None None None [] None false None [] None None None (mkArray [] 0 0)
    (Z.lor ONAK_CLEAN_CHECK_SIGHASH (Z.lor ONAK_CLEAN_CAP_UIDS ONAK_CLEAN_CAP_UATS)) (mkConfig 512 512) None None None.

(** The state of a program that starts; 3 is [LOGTHING_NOTICE]. *)
Definition initial : conf_state := mkConf default_config (replicate 32 0) 3.

(** * Parsing a line *)

(** The position of a backend in the list. *)
Fixpoint find_db_backend_config (backends : list onak_db_config) (name : list Z) (i : nat) : outcome (option nat) :=
  match backends with
  | [] => Done None
  | b :: next =>
      match db_name b with
      | None => Fault NullDeref
      | Some n => if streq name n then Done (Some i) else find_db_backend_config next name (S i)
      end
  end.

Definition parsebool (s : list Z) (fallback : bool) : bool :=
  if caseeq s (str "false") || caseeq s (str "no") || caseeq s (str "0") then false
  else if caseeq s (str "true") || caseeq s (str "yes") || caseeq s (str "1") then true
  else fallback.

(** [config.clean_policies |= flag] or [&= ~flag]. *)
Definition set_policy (flag : Z) (value : list Z) (c : configuration) : configuration :=
  set_clean_policies
    (if parsebool value (policy (cf_clean_policies c) flag) then Z.lor (cf_clean_policies c) flag
     else Z.ldiff (cf_clean_policies c) flag) c.

Definition add_syncsite (site : list Z) (c : configuration) : configuration :=
  set_syncsites (lladd (cf_syncsites c) site) c.

(** An assignment through [config.backend]. *)
Definition modify_backend (f : onak_db_config -> onak_db_config) (st : conf_state) : outcome conf_state :=
  let bs := cf_backends (config st) in
  match cf_backend (config st) with
  | None => Fault NullDeref
  | Some n => Done (with_config (set_backends (alter f (length bs - 1 - n)%nat bs)) st)
  end.

(** The number of characters of a keyword, and what is behind it. *)
Definition after (keyword : string) (line : list Z) : list Z := drop (String.length keyword) line.

Definition has (line : list Z) (keyword : string) : bool := starts (str keyword) line.

Definition parseoldconfigline (st : conf_state) (line : list Z) : outcome (conf_state * bool) :=
  let keep (f : configuration -> configuration) := Done (with_config f st, true) in
  let backend f := st ← modify_backend f st; Done (st, true) in
  let ignored := Done (st, true) in
  match line with
  | [] => ignored
  | c :: _ =>
      if c =? 35 then ignored
      else if has line "db_dir " then backend (set_db_location (Some (after "db_dir " line)))
      else if has line "debug " then ignored
      else if has line "default_language " then ignored
      else if has line "mail_delivery_client " then keep (set_mta (Some (after "mail_delivery_client " line)))
      else if has line "maintainer_email " then keep (set_adminemail (Some (after "maintainer_email " line)))
      else if has line "mail_intro_file " then ignored
      else if has line "help_dir " then ignored
      else if has line "max_last " then ignored
      else if has line "max_reply_keys " then keep (set_maxkeys (atoi (after "max_reply_keys " line)))
      else if has line "pg_dbhost " then backend (set_db_hostname (Some (after "pg_dbhost " line)))
      else if has line "pg_dbname " then backend (set_db_location (Some (after "pg_dbname " line)))
      else if has line "pg_dbuser " then backend (set_db_username (Some (after "pg_dbuser " line)))
      else if has line "pg_dbpass " then backend (set_db_password (Some (after "pg_dbpass " line)))
      else if has line "syncsite " then keep (add_syncsite (after "syncsite " line))
      else if has line "logfile " then keep (set_logfile (Some (after "logfile " line)))
      else if has line "loglevel " then Done (setlogthreshold (atoi (after "loglevel " line)) st, true)
      else if has line "this_site " then keep (set_thissite (Some (after "this_site " line)))
      else if has line "socket_name " || has line "www_port " then ignored
      else if has line "pks_bin_dir " then keep (set_bin_dir (Some (after "pks_bin_dir " line)))
      else if has line "mail_dir " then keep (set_mail_dir (Some (after "mail_dir " line)))
      else if has line "db_backend " then
        let v := Some (after "db_backend " line) in
        st ← modify_backend (fun b => set_db_name v (set_db_type v b)) st;
        Done (with_config (set_db_backend v) st, true)
      else if has line "backends_dir " then keep (set_backends_dir (Some (after "backends_dir " line)))
      else if has line "use_keyd " then
        keep (fun c => set_use_keyd (parsebool (after "use_keyd " line) (cf_use_keyd c)) c)
      else if has line "sock_dir " then keep (set_sock_dir (Some (after "sock_dir " line)))
      else if has line "check_sighash " then keep (set_policy ONAK_CLEAN_CHECK_SIGHASH (after "check_sighash " line))
      else Done (st, false)
  end.

(** [strncpy(dst, src, n)] for a string [src]. *)
Definition strncpy (dst src : list Z) (n : nat) : outcome (list Z) :=
  if (n <=? length dst)%nat then Done (take n (src ++ replicate n 0) ++ drop n dst) else Fault OutOfBounds.

(** The string in a buffer; reading it runs over the end if no NUL is there. *)
Definition buffer_string (buf : list Z) : outcome (list Z) :=
  if bool_decide (0 ∈ buf) then Done (c_string buf) else Fault OutOfBounds.

Definition parse_section (st : conf_state) (line : list Z) : outcome (conf_state * bool) :=
  let len := length line in
  if negb (bool_decide (last line = Some 93)) then Done (st, false)
  else if (32 <? len)%nat then Done (st, false)
  else
    section ← strncpy (section st) (drop 1 (take (len - 1) line)) len;
    Done (mkConf (config st) section (logthres st), true).

(** The part of [parseconfigline] for a backend section. *)
Definition parse_backend (st : conf_state) (bname name value : list Z) : outcome conf_state :=
  pos ← find_db_backend_config (cf_backends (config st)) bname 0;
  let '(bs, i) := match pos with
                  | Some i => (cf_backends (config st), i)
                  | None => (lladd (cf_backends (config st)) (mkDbConfig (Some bname) None None None None None), 0%nat)
                  end in
  let f := if streq name (str "type") then set_db_type (Some value)
           else if streq name (str "location") then set_db_location (Some value)
           else if streq name (str "hostname") then set_db_hostname (Some value)
           else if streq name (str "username") then set_db_username (Some value)
           else if streq name (str "password") then set_db_password (Some value)
           else id in
  Done (with_config (set_backends (alter f i bs)) st).

Section ReadConfig.
Context {BC : BuildConfig}.
Context (getenv files : list Z -> option (list Z)) (CONFIGDIR : list Z).

Definition MATCH (sect name : list Z) (s n : string) : bool := streq sect (str s) && streq name (str n).

(** The part for the other sections. *)
Definition parse_setting (st : conf_state) (sect name value : list Z) : outcome (conf_state * bool) :=
  let keep (f : configuration -> configuration) := Done (with_config f st, true) in
  if MATCH sect name "main" "backend" then keep (set_db_backend (Some value))
  else if MATCH sect name "main" "backends_dir" then keep (set_backends_dir (Some value))
  else if MATCH sect name "main" "template_dir" then keep (set_template_dir (Some value))
  else if MATCH sect name "main" "logfile" then keep (set_logfile (Some value))
  else if MATCH sect name "main" "loglevel" then Done (setlogthreshold (atoi value) st, true)
  else if MATCH sect name "main" "use_keyd" then keep (fun c => set_use_keyd (parsebool value (cf_use_keyd c)) c)
  else if MATCH sect name "main" "sock_dir" then keep (set_sock_dir (Some value))
  else if MATCH sect name "main" "max_reply_keys" then keep (set_maxkeys (atoi value))
  else if MATCH sect name "main" "server_contact" then keep (set_server_contact (Some value))
  else if MATCH sect name "mail" "maintainer_email" then keep (set_adminemail (Some value))
  else if MATCH sect name "mail" "mail_dir" then keep (set_mail_dir (Some value))
  else if MATCH sect name "mail" "mta" then keep (set_mta (Some value))
  else if MATCH sect name "mail" "bin_dir" then keep (set_bin_dir (Some value))
  else if MATCH sect name "mail" "this_site" then keep (set_thissite (Some value))
  else if MATCH sect name "mail" "syncsite" then keep (add_syncsite value)
  else if MATCH sect name "verification" "blacklist" then
    '(array, _) ← array_load (cf_blacklist (config st)) (files value);
    keep (set_blacklist array)
  else if MATCH sect name "verification" "drop_v3" then Done (st, true)
  else if MATCH sect name "verification" "check_sighash" then keep (set_policy ONAK_CLEAN_CHECK_SIGHASH value)
  else if MATCH sect name "verification" "check_packet_size" then keep (set_policy ONAK_CLEAN_LARGE_PACKETS value)
  else if MATCH sect name "verification" "cap_uids_per_key" then keep (set_policy ONAK_CLEAN_CAP_UIDS value)
  else if MATCH sect name "verification" "cap_uats_per_key" then keep (set_policy ONAK_CLEAN_CAP_UATS value)
  else if MATCH sect name "verification" "max_sigs_per_uid" then
    keep (fun c => set_limits (mkConfig (atoi value) (max_sigs_per_uat (cf_limits c))) c)
  else if MATCH sect name "verification" "max_sigs_per_uat" then
    keep (fun c => set_limits (mkConfig (max_sigs_per_uid (cf_limits c)) (atoi value)) c)
  else if MATCH sect name "verification" "require_other_sig" then
    keep (if have_crypto then set_policy ONAK_CLEAN_NEED_OTHER_SIG value else id)
  else if MATCH sect name "verification" "update_only" then keep (set_policy ONAK_CLEAN_UPDATE_ONLY value)
  else if MATCH sect name "verification" "verify_signatures" then
    keep (if have_crypto then set_policy ONAK_CLEAN_VERIFY_SIGNATURES value else id)
  else Done (st, false).

Definition parseconfigline (st : conf_state) (line : list Z) : outcome (conf_state * bool) :=
  match line with
  | [] => Done (st, true)
  | c :: _ =>
      if (c =? 35) || (c =? 59) then Done (st, true)
      else if c =? 91 then parse_section st line
      else if bool_decide (61 ∈ line) then
        let '(name, value) := split_at 61 line in
        sect ← buffer_string (section st);
        if starts (str "backend:") sect then
          st ← parse_backend st (after "backend:" sect) name value;
          Done (st, true)
        else parse_setting st sect name value
      else Done (st, false)
  end.

(** * Reading a file *)

Definition strip (line : list Z) : list Z := skip_space (strip_right (c_string line)).

(** [while (!feof(conffile))] *)
Fixpoint config_loop (fuel : nat) (oldstyle : bool) (st : conf_state) (curline rest : list Z) (eof : bool)
    : outcome conf_state :=
  if eof then Done st
  else
    match fuel with
    | O => Fault OutOfFuel
    | S fuel =>
        '(st, _) ← (if oldstyle then parseoldconfigline else parseconfigline) st (strip curline);
        let '(curline, rest, eof) := fgets 1022 rest in
        config_loop fuel oldstyle st curline rest eof
    end.

(** The two files in a directory: what was opened, and whether it is of the old
    style. *)
Definition open_dir (dir : list Z) : option (list Z) * bool :=
  match files (dir ++ str "onak.conf") with
  | Some f => (Some f, true)
  | None => (files (dir ++ str "onak.ini"), false)
  end.

Definition open_config (configfile : option (list Z)) : outcome (option (list Z) * bool) :=
  match configfile with
  | None =>
      let conffile :=
        match getenv (str "XDG_CONFIG_HOME") with
        | Some dir => open_dir (dir ++ str "/")
        | None =>
            match getenv (str "HOME") with
            | Some dir => open_dir (dir ++ str "/.config/")
            | None => (None, false)
            end
        end in
      Done (match conffile with (None, _) => open_dir (CONFIGDIR ++ str "/") | _ => conffile end)
  | Some name =>
      if (length name <? 5)%nat then Fault OutOfBounds
      else Done (files name, streq (drop (length name - 5) name) (str ".conf"))
  end.

(** The backend that is used, after a file of the new style. *)
Definition select_backend (st : conf_state) (db_backend : list Z) : outcome conf_state :=
  let bs := cf_backends (config st) in
  pos ← find_db_backend_config bs db_backend 0;
  Done (with_config (set_backend ((fun i => (length bs - 1 - i)%nat) <$> pos)) st).

(** A file that was opened. *)
Definition read_file (oldstyle : bool) (content : list Z) (st : conf_state) : outcome conf_state :=
  let '(curline, rest, eof) := fgets 1022 content in
  match curline with
  | [] => Done st
  | _ =>
      let st := if oldstyle
                then with_config (fun c => set_backend (Some 0%nat)
                       (set_backends (lladd [] (mkDbConfig None None None None None None)) c)) st
                else st in
      st ← config_loop (length content) oldstyle st curline rest eof;
      match cf_db_backend (config st) with
      | None => Done st
      | Some name => if oldstyle then Done st else select_backend st name
      end
  end.

Definition readconfig (configfile : option (list Z)) (st : conf_state) : outcome conf_state :=
  '(conffile, oldstyle) ← open_config configfile;
  match conffile with
  | Some content => read_file oldstyle content st
  | None => Done st
  end.

End ReadConfig.

(** * Writing *)

Definition write_line (s : string) (v : list Z) : list Z := str s ++ 61 :: v ++ [10].

Definition WRITE_IF_NOT_NULL (c : option (list Z)) (s : string) : list Z :=
  match c with Some v => write_line s v | None => [] end.

Definition WRITE_BOOL (c : bool) (s : string) : list Z := write_line s (str (if c then "true" else "false")).

(** ["[%s]\n"] *)
Definition write_section (s : list Z) : list Z := 91 :: s ++ [93; 10].

Definition write_backend (b : onak_db_config) : outcome (list Z) :=
  match db_name b with
  | None => Fault NullDeref
  | Some name =>
      Done (10 :: write_section (str "backend:" ++ name) ++
        WRITE_IF_NOT_NULL (db_type b) "type" ++
        WRITE_IF_NOT_NULL (db_location b) "location" ++
        WRITE_IF_NOT_NULL (db_hostname b) "hostname" ++
        WRITE_IF_NOT_NULL (db_username b) "username" ++
        WRITE_IF_NOT_NULL (db_password b) "password")
  end.

Fixpoint write_backends (bs : list onak_db_config) : outcome (list Z) :=
  match bs with
  | [] => Done []
  | b :: bs => t ← write_backend b; rest ← write_backends bs; Done (t ++ rest)
  end.

(** [config.backend->name] *)
Definition backend_name (c : configuration) : outcome (option (list Z)) :=
  match cf_backend c with
  | None => Fault NullDeref
  | Some n => match rev (cf_backends c) !! n with Some b => Done (db_name b) | None => Fault NullDeref end
  end.

Definition write_main (name : option (list Z)) (st : conf_state) : list Z :=
  let c := config st in
  WRITE_IF_NOT_NULL name "backend" ++
  WRITE_IF_NOT_NULL (cf_backends_dir c) "backends_dir" ++
  WRITE_IF_NOT_NULL (cf_template_dir c) "template_dir" ++
  WRITE_IF_NOT_NULL (cf_logfile c) "logfile" ++
  write_line "loglevel" (decimal (logthres st)) ++
  WRITE_BOOL (cf_use_keyd c) "use_keyd" ++
  WRITE_IF_NOT_NULL (cf_sock_dir c) "sock_dir" ++
  write_line "max_reply_keys" (decimal (cf_maxkeys c)) ++
  WRITE_IF_NOT_NULL (cf_server_contact c) "server_contact" ++ [10].

Definition write_verification (c : configuration) : list Z :=
  WRITE_BOOL (policy (cf_clean_policies c) ONAK_CLEAN_CHECK_SIGHASH) "check_sighash" ++
  WRITE_BOOL (policy (cf_clean_policies c) ONAK_CLEAN_CAP_UIDS) "cap_uids_per_key" ++
  WRITE_BOOL (policy (cf_clean_policies c) ONAK_CLEAN_CAP_UATS) "cap_uats_per_key" ++
  write_line "max_sigs_per_uid" (decimal (max_sigs_per_uid (cf_limits c))) ++
  write_line "max_sigs_per_uat" (decimal (max_sigs_per_uat (cf_limits c))) ++ [10].

Definition write_mail (c : configuration) : list Z :=
  WRITE_IF_NOT_NULL (cf_adminemail c) "maintainer_email" ++
  WRITE_IF_NOT_NULL (cf_mail_dir c) "mail_dir" ++
  WRITE_IF_NOT_NULL (cf_mta c) "mta" ++
  WRITE_IF_NOT_NULL (cf_bin_dir c) "bin_dir" ++
  WRITE_IF_NOT_NULL (cf_thissite c) "this_site" ++
  concat (map (write_line "syncsite") (cf_syncsites c)).

(** What is written to the file or to the standard output. *)
Definition writeconfig (st : conf_state) : outcome (list Z) :=
  let c := config st in
  name ← backend_name c;
  bs ← write_backends (cf_backends c);
  Done (write_section (str "main") ++ write_main name st ++
    write_section (str "verification") ++ write_verification c ++
    write_section (str "mail") ++ write_mail c ++ bs).

(** * Releasing *)

(** [cleanupconfig]: every pointer that is freed is cleared; [config.backend]
    keeps pointing to a freed backend. *)
Definition cleanupconfig (st : conf_state) : conf_state :=
  let c := config st in
  mkConf (mkConfiguration (cf_maxkeys c) None None None None [] None (cf_use_keyd c) None [] (cf_backend c) None None
    (if ka_count (cf_blacklist c) =? 0 then cf_blacklist c else array_free (cf_blacklist c))
    (cf_clean_policies c) (cf_limits c) None None None) (section st) (logthres st).
