(* ===== verification/ConfFacts.v ===== *)
(** The configuration file: what was written is read back, every file is read
    without a fault, and what the last line needs. *)

From Stdlib Require Import String.
From S2P Require Import Prelude CLib OpenPGP KeyId KeyArray SigCheck Clean Stats Conf.

(** * Lines *)

Lemma c_string_id s : (0 ∉ s) -> forall rest, c_string (s ++ rest) = s ++ c_string rest.
Proof.
  induction s as [|c s IH]; intros Hs rest; [done|]. apply not_elem_of_cons in Hs as [Hc Hs]. cbn.
  destruct (Z.eqb_spec c 0); [congruence | by rewrite IH].
Qed.

Lemma strip_right_snoc s c : isspace c = true -> strip_right (s ++ [c]) = strip_right s.
Proof. intros Hc. induction s as [|x s IH]; cbn; [by rewrite Hc | by rewrite IH]. Qed.

Lemma strip_right_id s c : isspace c = false -> strip_right (s ++ [c]) = s ++ [c].
Proof. intros Hc. induction s as [|x s IH]; cbn; [by rewrite Hc|]. rewrite IH. by destruct s. Qed.

(** A line of the file that [strip] leaves alone. *)
Definition solid (l : list Z) : Prop :=
  (0 ∉ l) /\ (10 ∉ l) /\ (length l <= 1021)%nat /\ l <> [] /\
  (forall c, head l = Some c -> isspace c = false) /\ (forall c, last l = Some c -> isspace c = false).

Lemma strip_solid l : solid l -> strip (l ++ [10]) = l.
Proof.
  intros (H0 & _ & _ & Hne & Hh & Hl). unfold strip. rewrite c_string_id by done. change (c_string [10]) with [10].
  rewrite strip_right_snoc by done. destruct l as [|x l _] using rev_ind; [done|].
  rewrite strip_right_id by (apply Hl; by rewrite last_snoc).
  destruct (l ++ [x]) as [|c r]; [done|]. cbn. by rewrite Hh.
Qed.

Section Reads.
Context {BC : BuildConfig} (files : list Z -> option (list Z)).

(** The loop from a file position on. *)
Definition resume (fuel : nat) (st : conf_state) (content : list Z) : outcome conf_state :=
  let '(curline, rest, eof) := fgets 1022 content in config_loop files fuel false st curline rest eof.

(** [text] takes the state [st] to [st']. *)
Definition reads (st : conf_state) (text : list Z) (st' : conf_state) : Prop :=
  exists k, (k <= length text)%nat /\ forall fuel rest, resume (k + fuel) st (text ++ rest) = resume fuel st' rest.

Lemma reads_nil st : reads st [] st.
Proof. exists 0%nat. split; [done|]. intros. done. Qed.

Lemma reads_app st1 t1 st2 t2 st3 : reads st1 t1 st2 -> reads st2 t2 st3 -> reads st1 (t1 ++ t2) st3.
Proof.
  intros (k1 & H1 & E1) (k2 & H2 & E2). exists (k1 + k2)%nat. split; [rewrite length_app; lia|].
  intros fuel rest. by rewrite <- app_assoc, <- Nat.add_assoc, E1, E2.
Qed.

Lemma reads_line st l st' b :
  (10 ∉ l) -> (length l <= 1021)%nat -> parseconfigline files st (strip (l ++ [10])) = Done (st', b) ->
  reads st (l ++ [10]) st'.
Proof.
  intros Hl Hn E. exists 1%nat. rewrite length_app. split; [cbn; lia|]. intros fuel rest. unfold resume at 1.
  rewrite <- app_assoc. cbn [app]. rewrite fgets_line by (lia || (apply Forall_forall; intros ? ? ->; done)).
  cbn [Nat.add config_loop]. rewrite E. done.
Qed.

Lemma reads_solid st l st' b :
  solid l -> parseconfigline files st l = Done (st', b) -> reads st (l ++ [10]) st'.
Proof. intros Hl E. eapply reads_line; [apply Hl | apply Hl | by rewrite strip_solid]. Qed.

Lemma reads_blank st : reads st [10] st.
Proof. apply (reads_line st [] st true); [apply not_elem_of_nil | cbn; lia | done]. Qed.

(** * Sections *)

(** The name in the static buffer. *)
Definition in_section (buf s : list Z) : Prop := length buf = 32%nat /\ buffer_string buf = Done s.

(** The name of a section that fits. *)
Definition section_ok (s : list Z) : Prop := (0 ∉ s) /\ (10 ∉ s) /\ (length s <= 30)%nat.

Lemma reads_section c buf lt s :
  section_ok s -> length buf = 32%nat ->
  exists buf', in_section buf' s /\ reads (mkConf c buf lt) (write_section s) (mkConf c buf' lt).
Proof.
  intros (H0 & H10 & Hl) Hb. set (len := (length s + 2)%nat).
  exists (take len (s ++ replicate len 0) ++ drop len buf). split.
  - split; [rewrite length_app, length_take, length_drop, length_app, length_replicate; lia|].
    rewrite take_app_ge by lia. rewrite take_replicate, <- app_assoc.
    replace ((len - length s) `min` len)%nat with 2%nat by lia. cbn [replicate app]. unfold buffer_string.
    rewrite bool_decide_eq_true_2, c_string_id by (done || (apply elem_of_app; right; by left)).
    cbn. by rewrite app_nil_r.
  - replace (write_section s) with ((91 :: s ++ [93]) ++ [10]) by (unfold write_section; cbn; by rewrite <- app_assoc).
    apply (reads_solid _ _ _ true).
    + repeat split; rewrite ?not_elem_of_cons, ?not_elem_of_app, ?list_elem_of_singleton; try done.
      * cbn. rewrite length_app. cbn. lia.
      * by intros c' [= <-].
      * change (91 :: s ++ [93]) with ((91 :: s) ++ [93]). rewrite last_snoc. by intros c' [= <-].
    + cbn [parseconfigline]. change (91 =? 35) with false. change (91 =? 59) with false. change (91 =? 91) with true.
      cbn [orb]. unfold parse_section. change (91 :: s ++ [93]) with ((91 :: s) ++ [93]). rewrite last_snoc.
      rewrite bool_decide_eq_true_2 by done. cbn [negb]. rewrite length_app. cbn [length].
      destruct (Nat.ltb_spec 32 (S (length s) + 1)); [lia|]. cbn [Conf.section].
      replace (S (length s) + 1)%nat with len by lia.
      rewrite take_app_le by (cbn; lia). replace (len - 1)%nat with (S (length s)) by lia. cbn [firstn drop].
      rewrite firstn_all. unfold strncpy. rewrite (proj2 (Nat.leb_le len (length buf))) by lia. done.
Qed.

(** * Settings *)

(** A value that survives. *)
Definition value_ok (v : list Z) : Prop :=
  (0 ∉ v) /\ (10 ∉ v) /\ (length v <= 1000)%nat /\ (forall c, last v = Some c -> isspace c = false).

(** A name of the file format. *)
Definition name_ok (n : list Z) : Prop :=
  Forall (fun c => 95 <= c <= 122) n /\ n <> [] /\ (length n <= 20)%nat.

Lemma setting_solid n v : name_ok n -> value_ok v -> solid (n ++ 61 :: v).
Proof.
  intros (Hn & Hne & Hl) (H0 & H10 & Hv & Hs). rewrite Forall_forall in Hn. repeat split.
  - rewrite not_elem_of_app, not_elem_of_cons. split; [|done]. intros H. apply Hn in H. lia.
  - rewrite not_elem_of_app, not_elem_of_cons. split; [|done]. intros H. apply Hn in H. lia.
  - rewrite length_app. cbn. lia.
  - by destruct n.
  - destruct n as [|c n]; [done|]. intros c' [= <-]. specialize (Hn c ltac:(by left)). unfold isspace.
    by destruct (Z.eqb_spec c 32), (Z.leb_spec 9 c), (Z.leb_spec c 13); try lia.
  - intros c Hc. destruct v as [|x v] using rev_ind.
    + rewrite last_snoc in Hc. by injection Hc as <-.
    + rewrite app_comm_cons, app_assoc, last_snoc in Hc. injection Hc as <-. apply Hs. by rewrite last_snoc.
Qed.

Lemma split_name n v : name_ok n -> split_at 61 (n ++ 61 :: v) = (n, v).
Proof. intros (Hn & _). apply split_at_spec. eapply Forall_impl; [exact Hn|]. cbn. lia. Qed.

(** A line with a name and a value up to the sections. *)
Lemma parse_named st n v :
  name_ok n -> parseconfigline files st (n ++ 61 :: v) =
    sect ← buffer_string (section st);
    if starts (str "backend:") sect then
      st ← parse_backend st (after "backend:" sect) n v; Done (st, true)
    else parse_setting files st sect n v.
Proof.
  intros Hn.
  pose proof (split_name n v Hn) as Hs. destruct Hn as (Hn & Hne & _). destruct n as [|c n]; [done|].
  apply Forall_cons in Hn as [Hc _]. cbn [app parseconfigline] in *.
  destruct (Z.eqb_spec c 35), (Z.eqb_spec c 59), (Z.eqb_spec c 91); try lia. cbn [orb].
  rewrite bool_decide_eq_true_2 by (apply elem_of_cons; right; apply elem_of_app; right; by left).
  by rewrite Hs.
Qed.

Lemma reads_setting c buf lt sect (s : string) v st' b :
  in_section buf sect -> starts (str "backend:") sect = false -> name_ok (str s) -> value_ok v ->
  parse_setting files (mkConf c buf lt) sect (str s) v = Done (st', b) ->
  reads (mkConf c buf lt) (write_line s v) st'.
Proof.
  intros [_ Hb] Hs Hn Hv E. unfold write_line. replace (str s ++ 61 :: v ++ [10]) with ((str s ++ 61 :: v) ++ [10]) by (by rewrite <- app_assoc).
  apply (reads_solid _ _ _ b); [by apply setting_solid|]. rewrite parse_named by done. cbn [section]. rewrite Hb. cbn [mbind outcome_bind].
  by rewrite Hs.
Qed.

End Reads.

(** * The blocks of a written file *)

#[global] Instance name_ok_dec n : Decision (name_ok n).
Proof. unfold name_ok. apply _. Defined.

Definition optional_ok (o : option (list Z)) : Prop := forall v, o = Some v -> value_ok v.

Definition int_ok (x : Z) : Prop := - 2 ^ 31 <= x < 2 ^ 31.

Lemma dec_ok x : int_ok x -> value_ok (decimal x).
Proof.
  intros Hx. unfold int_ok in Hx. unfold decimal.
  assert (Hd : forall y, 0 <= y <= 2 ^ 31 -> Forall (fun c => isdigit c = true) (dec_digits 10 y []) /\ dec_digits 10 y [] <> [] /\ (length (dec_digits 10 y []) <= 10)%nat).
  { intros y Hy. destruct (dec_digits_value 10 y []) as (_ & H1 & H2); [lia | lia | done |]. split; [done|]. split; [done|].
    assert (Hlen : forall n z acc, (length (dec_digits n z acc) <= n + length acc)%nat).
    { induction n as [|n IH]; intros z acc; cbn [dec_digits]; [lia|]. case_if; cbn; [lia|].
      specialize (IH (z / 10) ((48 + z mod 10) :: acc)). cbn in IH. lia. }
    exact (Hlen 10%nat y []). }
  assert (Hg : forall l, Forall (fun c => isdigit c = true \/ c = 45) l -> (length l <= 11)%nat -> value_ok l).
  { intros l Hl Hn. rewrite Forall_forall in Hl.
    assert (Hc : forall c, c ∈ l -> 45 <= c <= 57).
    { intros c [H| ->]%Hl; [unfold isdigit in H; zbool|]; lia. }
    split; [intros H%Hc; lia|]. split; [intros H%Hc; lia|]. split; [lia|]. intros c Hlast.
    apply last_Some_elem_of in Hlast. specialize (Hc c Hlast). unfold isspace.
    by destruct (Z.eqb_spec c 32), (Z.leb_spec 9 c), (Z.leb_spec c 13); try lia. }
  destruct (Z.ltb_spec x 0).
  - destruct (Hd (- x)) as (H1 & _ & H3); [lia|]. apply Hg; [|cbn [length]; lia]. constructor; [by right|].
    eapply Forall_impl; [exact H1|]. by left.
  - destruct (Hd x) as (H1 & _ & H3); [lia|]. apply Hg; [|lia]. eapply Forall_impl; [exact H1|]. by left.
Qed.

Lemma bool_ok (b : bool) : value_ok (str (if b then "true" else "false")).
Proof.
  destruct b; (repeat split; [by apply (bool_decide_unpack _); vm_compute.. | cbn; lia | by intros c [= <-]]).
Qed.

Lemma parsebool_written (b fallback : bool) : parsebool (str (if b then "true" else "false")) fallback = b.
Proof. by destruct b. Qed.

Section Blocks.
Context {BC : BuildConfig} (files : list Z -> option (list Z)).

Lemma reads_optional c buf lt sect (s : string) o (set : option (list Z) -> configuration -> configuration) :
  in_section buf sect -> starts (str "backend:") sect = false -> name_ok (str s) -> optional_ok o ->
  (forall v, parse_setting files (mkConf c buf lt) sect (str s) v = Done (mkConf (set (Some v) c) buf lt, true)) ->
  set None c = c ->
  reads files (mkConf c buf lt) (WRITE_IF_NOT_NULL o s) (mkConf (set o c) buf lt).
Proof.
  intros Hb Hs Hn Ho Hset Hnone. destruct o as [v|]; cbn [WRITE_IF_NOT_NULL].
  - eapply reads_setting; [exact Hb | done | done | by apply Ho | apply Hset].
  - rewrite Hnone. apply reads_nil.
Qed.

(** Proves the side conditions of a line with a fixed name. *)
Ltac line := first [eassumption | reflexivity | by apply (bool_decide_unpack _); vm_compute
                   | apply bool_ok | apply dec_ok; assumption | intros; reflexivity].

Definition main_config (name : option (list Z)) (c : configuration) (to : configuration) : configuration :=
  set_server_contact (cf_server_contact c) (set_maxkeys (cf_maxkeys c) (set_sock_dir (cf_sock_dir c)
    (set_use_keyd (cf_use_keyd c) (set_logfile (cf_logfile c) (set_template_dir (cf_template_dir c)
      (set_backends_dir (cf_backends_dir c) (set_db_backend name to))))))).

Lemma reads_main name c buf buf' lt :
  in_section buf (str "main") -> optional_ok name -> optional_ok (cf_backends_dir c) ->
  optional_ok (cf_template_dir c) -> optional_ok (cf_logfile c) -> optional_ok (cf_sock_dir c) ->
  optional_ok (cf_server_contact c) -> int_ok lt -> int_ok (cf_maxkeys c) ->
  reads files (mkConf default_config buf 3) (write_main name (mkConf c buf' lt))
    (mkConf (main_config name c default_config) buf lt).
Proof.
  intros Hb. intros. unfold write_main. cbn [config logthres].
  eapply reads_app; [eapply (reads_optional _ _ _ (str "main") _ _ set_db_backend); line|].
  eapply reads_app; [eapply (reads_optional _ _ _ (str "main") _ _ set_backends_dir); line|].
  eapply reads_app; [eapply (reads_optional _ _ _ (str "main") _ _ set_template_dir); line|].
  eapply reads_app; [eapply (reads_optional _ _ _ (str "main") _ _ set_logfile); line|].
  eapply reads_app; [eapply (reads_setting _ _ _ _ (str "main")); line|]. rewrite atoi_dec by done.
  eapply reads_app; [eapply (reads_setting _ _ _ _ (str "main")); line|].
  unfold with_config; cbn [config section logthres]. rewrite parsebool_written.
  eapply reads_app; [eapply (reads_optional _ _ _ (str "main") _ _ set_sock_dir); line|].
  eapply reads_app; [eapply (reads_setting _ _ _ _ (str "main")); line|]. rewrite atoi_dec by done.
  eapply reads_app; [eapply (reads_optional _ _ _ (str "main") _ _ set_server_contact); line|].
  apply reads_blank.
Qed.

(** The policies that are written. *)
Definition written_policies : Z := Z.lor ONAK_CLEAN_CHECK_SIGHASH (Z.lor ONAK_CLEAN_CAP_UIDS ONAK_CLEAN_CAP_UATS).

Lemma policy_bit p i : 0 <= i -> policy p (Z.shiftl 1 i) = Z.testbit p i.
Proof.
  intros Hi. unfold policy. rewrite Z.shiftl_1_l. destruct (Z.testbit p i) eqn:E.
  - apply negb_true_iff, Z.eqb_neq. intros H. assert (Z.testbit (Z.land p (2 ^ i)) i = true) as X
      by (by rewrite Z.land_spec, E, Z.pow2_bits_true). rewrite H, Z.bits_0 in X. done.
  - apply negb_false_iff, Z.eqb_eq. apply Z.bits_inj'. intros n Hn. rewrite Z.land_spec, Z.bits_0, Z.pow2_bits_eqb by done.
    destruct (Z.eqb_spec i n) as [<-|]; [by rewrite E | apply andb_false_r].
Qed.

Lemma set_flag_bits p (i : Z) (b : bool) n : 0 <= i -> 0 <= n ->
  Z.testbit (if b then Z.lor p (Z.shiftl 1 i) else Z.ldiff p (Z.shiftl 1 i)) n = if i =? n then b else Z.testbit p n.
Proof.
  intros Hi Hn. rewrite Z.shiftl_1_l. destruct b; rewrite ?Z.lor_spec, ?Z.ldiff_spec, Z.pow2_bits_eqb by done;
    destruct (i =? n); cbn; by rewrite ?orb_true_r, ?orb_false_r, ?andb_false_r, ?andb_true_r.
Qed.

(** The three policies of the file, set one after the other. *)
Lemma policies_restored p :
  let set flag q := if policy p flag then Z.lor q flag else Z.ldiff q flag in
  set ONAK_CLEAN_CAP_UATS (set ONAK_CLEAN_CAP_UIDS (set ONAK_CLEAN_CHECK_SIGHASH (cf_clean_policies default_config)))
    = Z.land p written_policies.
Proof.
  cbv zeta. unfold ONAK_CLEAN_CAP_UATS, ONAK_CLEAN_CAP_UIDS, ONAK_CLEAN_CHECK_SIGHASH. rewrite !policy_bit by done.
  apply Z.bits_inj'. intros n Hn. rewrite !set_flag_bits, Z.land_spec by done.
  unfold written_policies, ONAK_CLEAN_CAP_UATS, ONAK_CLEAN_CAP_UIDS, ONAK_CLEAN_CHECK_SIGHASH.
  change (cf_clean_policies default_config) with (Z.lor (Z.shiftl 1 0) (Z.lor (Z.shiftl 1 6) (Z.shiftl 1 7))).
  rewrite !Z.lor_spec, !Z.shiftl_1_l, !Z.pow2_bits_eqb by done.
  destruct (Z.eqb_spec 7 n) as [<-|]; [by rewrite andb_true_r|].
  destruct (Z.eqb_spec 6 n) as [<-|]; [by rewrite andb_true_r|].
  destruct (Z.eqb_spec 0 n) as [<-|]; [by rewrite andb_true_r|]. by rewrite andb_false_r.
Qed.

Definition verification_config (c to : configuration) : configuration :=
  set_limits (cf_limits c) (set_clean_policies (Z.land (cf_clean_policies c) written_policies) to).

Lemma reads_verification c to buf lt :
  in_section buf (str "verification") -> cf_clean_policies to = cf_clean_policies default_config ->
  int_ok (max_sigs_per_uid (cf_limits c)) -> int_ok (max_sigs_per_uat (cf_limits c)) ->
  reads files (mkConf to buf lt) (write_verification c) (mkConf (verification_config c to) buf lt).
Proof.
  intros Hb Hp. intros. unfold write_verification, WRITE_BOOL.
  eapply reads_app; [eapply (reads_setting _ _ _ _ (str "verification")); line|].
  eapply reads_app; [eapply (reads_setting _ _ _ _ (str "verification")); line|].
  eapply reads_app; [eapply (reads_setting _ _ _ _ (str "verification")); line|].
  eapply reads_app; [eapply (reads_setting _ _ _ _ (str "verification")); line|].
  eapply reads_app; [eapply (reads_setting _ _ _ _ (str "verification")); line|].
  rewrite !atoi_dec by done. unfold verification_config. rewrite <- policies_restored, <- Hp. unfold set_policy.
  unfold with_config; cbn [config section logthres]. rewrite !parsebool_written. cbn. destruct (cf_limits c). apply reads_blank.
Qed.

Definition mail_config (c to : configuration) : configuration :=
  set_syncsites (rev (cf_syncsites c) ++ cf_syncsites to) (set_thissite (cf_thissite c) (set_bin_dir (cf_bin_dir c)
    (set_mta (cf_mta c) (set_mail_dir (cf_mail_dir c) (set_adminemail (cf_adminemail c) to))))).

Lemma reads_syncsites sites : forall to buf lt,
  in_section buf (str "mail") -> Forall value_ok sites ->
  reads files (mkConf to buf lt) (concat (map (write_line "syncsite") sites))
    (mkConf (set_syncsites (rev sites ++ cf_syncsites to) to) buf lt).
Proof.
  induction sites as [|s sites IH]; intros to buf lt Hb Hs; cbn [map concat rev].
  - destruct to. apply reads_nil.
  - apply Forall_cons in Hs as [Hv Hs].
    eapply reads_app; [eapply (reads_setting _ _ _ _ (str "mail")); line|].
    rewrite <- app_assoc. cbn [app]. by apply (IH (add_syncsite s to)).
Qed.

Lemma reads_mail c to buf lt :
  in_section buf (str "mail") -> mail_config default_config to = to ->
  optional_ok (cf_adminemail c) -> optional_ok (cf_mail_dir c) -> optional_ok (cf_mta c) ->
  optional_ok (cf_bin_dir c) -> optional_ok (cf_thissite c) -> Forall value_ok (cf_syncsites c) ->
  reads files (mkConf to buf lt) (write_mail c) (mkConf (mail_config c to) buf lt).
Proof.
  intros Hb Hd. intros. unfold write_mail.
  destruct to as [mk ts ae mt sc ss lf uk sd bs be db bd bl cp li td bi md]. injection Hd as <- <- <- <- <-.
  eapply reads_app; [eapply (reads_optional _ _ _ (str "mail") _ _ set_adminemail); line|].
  eapply reads_app; [eapply (reads_optional _ _ _ (str "mail") _ _ set_mail_dir); line|].
  eapply reads_app; [eapply (reads_optional _ _ _ (str "mail") _ _ set_mta); line|].
  eapply reads_app; [eapply (reads_optional _ _ _ (str "mail") _ _ set_bin_dir); line|].
  eapply reads_app; [eapply (reads_optional _ _ _ (str "mail") _ _ set_thissite); line|].
  by apply reads_syncsites.
Qed.

(** A backend without any setting has no line in the file. *)
Definition no_settings (b : onak_db_config) : bool :=
  match b with mkDbConfig _ None None None None None => true | _ => false end.

(** The list after the lines of [b] so far. *)
Definition entered (b : onak_db_config) (old : list onak_db_config) : list onak_db_config :=
  if no_settings b then old else b :: old.

(** The backends have names, and [name] is none of them. *)
Definition fresh_name (name : list Z) (bs : list onak_db_config) : Prop :=
  Forall (fun b => exists n, db_name b = Some n /\ n <> name) bs.

Lemma find_fresh name bs : forall i, fresh_name name bs -> find_db_backend_config bs name i = Done None.
Proof.
  induction bs as [|b bs IH]; intros i Hf; [done|]. apply Forall_cons in Hf as [(n & E & Hne) Hf]. cbn. rewrite E.
  unfold streq. rewrite bool_decide_eq_false_2 by congruence. by apply IH.
Qed.

Lemma find_here name b bs i : db_name b = Some name -> find_db_backend_config (b :: bs) name i = Done (Some i).
Proof. intros E. cbn. rewrite E. unfold streq. by rewrite bool_decide_eq_true_2. Qed.

Lemma parse_backend_spec st b old name s v f :
  cf_backends (config st) = entered b old -> db_name b = Some name -> fresh_name name old ->
  (if streq s (str "type") then set_db_type (Some v)
   else if streq s (str "location") then set_db_location (Some v)
   else if streq s (str "hostname") then set_db_hostname (Some v)
   else if streq s (str "username") then set_db_username (Some v)
   else if streq s (str "password") then set_db_password (Some v) else id) = f ->
  parse_backend st name s v = Done (with_config (set_backends (f b :: old)) st).
Proof.
  intros Hb Hn Hf <-. unfold parse_backend. rewrite Hb. unfold entered. destruct (no_settings b) eqn:E.
  - rewrite find_fresh by done. cbn [mbind outcome_bind]. unfold lladd.
    destruct b as [bn [?|] [?|] [?|] [?|] [?|]]; try discriminate E. cbn in Hn. subst. done.
  - rewrite find_here by done. done.
Qed.

Lemma reads_backend_line to buf lt b old name (s : string) o (set : option (list Z) -> onak_db_config -> onak_db_config) :
  in_section buf (str "backend:" ++ name) -> db_name b = Some name -> fresh_name name old -> name_ok (str s) -> optional_ok o ->
  (forall v, parse_backend (mkConf (set_backends (entered b old) to) buf lt) name (str s) v =
     Done (mkConf (set_backends (set (Some v) b :: old) to) buf lt)) ->
  (forall v, no_settings (set (Some v) b) = false) -> set None b = b ->
  reads files (mkConf (set_backends (entered b old) to) buf lt) (WRITE_IF_NOT_NULL o s)
    (mkConf (set_backends (entered (set o b) old) to) buf lt).
Proof.
  intros [_ Hs] Hb Hf Hn Ho Hp Hbl Hnone. destruct o as [v|]; cbn [WRITE_IF_NOT_NULL].
  - unfold write_line. replace (str s ++ 61 :: v ++ [10]) with ((str s ++ 61 :: v) ++ [10]) by (by rewrite <- app_assoc).
    apply (reads_solid _ _ _ _ true); [by apply setting_solid, Ho|]. rewrite parse_named by done. cbn [section].
    rewrite Hs. cbn [mbind outcome_bind]. change (starts (str "backend:") (str "backend:" ++ name)) with true.
    change (after "backend:" (str "backend:" ++ name)) with name. cbv iota. rewrite Hp.
    unfold entered at 1. by rewrite Hbl.
  - rewrite Hnone. apply reads_nil.
Qed.

(** A backend the file can hold. *)
Record backend_ok (b : onak_db_config) : Prop := {
  bo_name : exists n, db_name b = Some n /\ section_ok (str "backend:" ++ n);
  bo_set : no_settings b = false;
  bo_type : optional_ok (db_type b);
  bo_location : optional_ok (db_location b);
  bo_hostname : optional_ok (db_hostname b);
  bo_username : optional_ok (db_username b);
  bo_password : optional_ok (db_password b)
}.

(** The same for a line of a backend. *)
Ltac field := first [eassumption | reflexivity | by apply (bool_decide_unpack _); vm_compute
                    | by intros; apply parse_backend_spec
                    | intros; repeat match goal with o : option (list Z) |- _ => destruct o end; reflexivity].

Lemma reads_backend to buf lt b old :
  length buf = 32%nat -> backend_ok b -> (forall n, db_name b = Some n -> fresh_name n old) ->
  exists text buf', write_backend b = Done text /\ length buf' = 32%nat /\
    reads files (mkConf (set_backends old to) buf lt) text (mkConf (set_backends (b :: old) to) buf' lt).
Proof.
  intros Hl [(n & En & Hn) Hset H1 H2 H3 H4 H5] Hf. specialize (Hf n En).
  destruct (reads_section files (set_backends old to) buf lt (str "backend:" ++ n) Hn Hl) as (buf' & Hb & Hr).
  unfold write_backend. rewrite En. eexists _, buf'. split; [done|]. split; [apply Hb|].
  destruct b as [bn ty lo ho us pa]. cbn [db_name db_type db_location db_hostname db_username db_password] in *. subst bn.
  eapply (reads_app _ _ [10]); [apply reads_blank|]. eapply reads_app; [exact Hr|].
  replace (mkDbConfig (Some n) ty lo ho us pa :: old) with (entered (mkDbConfig (Some n) ty lo ho us pa) old)
    by (unfold entered; by rewrite Hset).
  change old with (entered (mkDbConfig (Some n) None None None None None) old) at 1.
  eapply reads_app; [apply (reads_backend_line to buf' lt _ old n "type" ty set_db_type); field|].
  eapply reads_app; [apply (reads_backend_line to buf' lt _ old n "location" lo set_db_location); field|].
  eapply reads_app; [apply (reads_backend_line to buf' lt _ old n "hostname" ho set_db_hostname); field|].
  eapply reads_app; [apply (reads_backend_line to buf' lt _ old n "username" us set_db_username); field|].
  apply (reads_backend_line to buf' lt (mkDbConfig (Some n) ty lo ho us None) old n "password" pa set_db_password); field.
Qed.

Lemma reads_backends bs : forall to buf lt old,
  length buf = 32%nat -> Forall backend_ok bs -> NoDup (map db_name (rev bs ++ old)) -> Forall backend_ok old ->
  exists text buf', write_backends bs = Done text /\ length buf' = 32%nat /\
    reads files (mkConf (set_backends old to) buf lt) text (mkConf (set_backends (rev bs ++ old) to) buf' lt).
Proof.
  induction bs as [|b bs IH]; intros to buf lt old Hl Hbs Hnd Hold; cbn [write_backends rev app].
  { exists [], buf. repeat split; [done|]. apply reads_nil. }
  apply Forall_cons in Hbs as [Hb Hbs]. cbn [rev] in Hnd. rewrite <- app_assoc in Hnd. cbn [app] in Hnd.
  destruct (reads_backend to buf lt b old Hl Hb) as (t1 & buf1 & -> & Hl1 & R1).
  { intros n En. apply Forall_forall. intros x Hx. rewrite Forall_forall in Hold.
    destruct (bo_name x (Hold x Hx)) as (m & Em & _). exists m. split; [done|]. intros ->.
    rewrite map_app in Hnd. apply NoDup_app in Hnd as (_ & _ & Hnd). cbn [map] in Hnd. apply NoDup_cons in Hnd as [Hnin _].
    apply Hnin. rewrite En, <- Em. apply list_elem_of_fmap. eauto. }
  destruct (IH to buf1 lt (b :: old) Hl1 Hbs Hnd) as (t2 & buf2 & -> & Hl2 & R2); [by constructor|].
  cbn [mbind outcome_bind]. exists (t1 ++ t2), buf2. split; [done|]. split; [done|].
  rewrite <- app_assoc. by eapply reads_app.
Qed.

End Blocks.

(** * Properties *)

(** A configuration that a file can hold: strings without newlines that do not
    end in white space and fit into a line, backends with distinct names that
    fit into the buffer of the section and have a setting, one of them
    selected. *)
Record writable (st : conf_state) : Prop := {
  wr_strings : Forall optional_ok [cf_thissite (config st); cf_adminemail (config st); cf_mta (config st);
    cf_server_contact (config st); cf_logfile (config st); cf_sock_dir (config st); cf_backends_dir (config st);
    cf_template_dir (config st); cf_bin_dir (config st); cf_mail_dir (config st)];
  wr_numbers : Forall int_ok [logthres st; cf_maxkeys (config st); max_sigs_per_uid (cf_limits (config st));
    max_sigs_per_uat (cf_limits (config st))];
  wr_syncsites : Forall value_ok (cf_syncsites (config st));
  wr_backends : Forall backend_ok (cf_backends (config st));
  wr_names : NoDup (map db_name (cf_backends (config st)));
  wr_backend : exists n b, cf_backend (config st) = Some n /\ rev (cf_backends (config st)) !! n = Some b /\
    optional_ok (db_name b)
}.

(** What is read from the file of a configuration: the lists of sites and
    backends come in reverse, only the policies for digests and for the numbers
    of user ids and user attributes are there, and no blacklist. *)
Definition restored (name : option (list Z)) (c : configuration) : configuration :=
  mkConfiguration (cf_maxkeys c) (cf_thissite c) (cf_adminemail c) (cf_mta c) (cf_server_contact c)
    (rev (cf_syncsites c)) (cf_logfile c) (cf_use_keyd c) (cf_sock_dir c) (rev (cf_backends c))
    ((fun n => (length (cf_backends c) - 1 - n)%nat) <$> cf_backend c) name (cf_backends_dir c) (mkArray [] 0 0)
    (Z.land (cf_clean_policies c) written_policies) (cf_limits c) (cf_template_dir c) (cf_bin_dir c) (cf_mail_dir c).

Lemma find_position bs : forall i n b name,
  NoDup (map db_name bs) -> Forall backend_ok bs -> bs !! n = Some b -> db_name b = Some name ->
  find_db_backend_config bs name i = Done (Some (i + n)%nat).
Proof.
  induction bs as [|x bs IH]; intros i n b name Hnd Hok Hn Hb; [done|].
  cbn [map] in Hnd. apply NoDup_cons in Hnd as [Hnin Hnd]. apply Forall_cons in Hok as [Hx Hok].
  destruct n as [|n]; [injection Hn as ->; rewrite find_here by done; by rewrite Nat.add_0_r|].
  cbn [lookup list_lookup] in Hn. destruct (bo_name x Hx) as (m & Em & _). cbn [find_db_backend_config]. rewrite Em.
  unfold streq. rewrite bool_decide_eq_false_2.
  - rewrite (IH (S i) n b name) by done. do 2 f_equal. lia.
  - intros ->. apply Hnin. rewrite Em, <- Hb. apply list_elem_of_fmap. eauto using list_elem_of_lookup_2.
Qed.

Lemma reads_all {BC : BuildConfig} files st text st' : reads files st text st' -> resume files (length text) st text = Done st'.
Proof.
  intros (k & Hk & E). specialize (E (length text - k)%nat []). rewrite app_nil_r in E.
  replace (k + (length text - k))%nat with (length text) in E by lia. rewrite E. unfold resume. cbn [fgets].
  by destruct (length text - k)%nat.
Qed.

Lemma fgets_cons n c t : exists l r e, fgets (S n) (c :: t) = (c :: l, r, e).
Proof. cbn [fgets]. case_if; [eauto|]. destruct (fgets n t) as [[l r] e]. eauto. Qed.

Lemma read_file_resume {BC : BuildConfig} files st c t :
  read_file files false (c :: t) st =
    st ← resume files (length (c :: t)) st (c :: t);
    match cf_db_backend (config st) with None => Done st | Some name => select_backend st name end.
Proof.
  unfold read_file, resume. by destruct (fgets_cons 1021 c t) as (l & r & e & ->).
Qed.

(** The file as a whole. *)
Lemma reads_written {BC : BuildConfig} files st name :
  writable st -> backend_name (config st) = Done name -> optional_ok name ->
  exists text buf, writeconfig st = Done text /\ text <> [] /\
    reads files initial text
      (mkConf (set_backend None (restored name (config st))) buf (logthres st)).
Proof.
  intros [Hs Hi Hsy Hbs Hnd _] En Hno. destruct st as [c sec lt]. cbn [config logthres] in *.
  repeat (apply Forall_cons in Hs as [? Hs]). repeat (apply Forall_cons in Hi as [? Hi]).
  destruct (reads_section files default_config (replicate 32 0) 3 (str "main")) as (b1 & Hb1 & R1);
    [by apply (bool_decide_unpack _); vm_compute | done |].
  pose proof (reads_main files name c b1 sec lt Hb1) as R2.
  set (c2 := main_config name c default_config) in *.
  destruct (reads_section files c2 b1 lt (str "verification")) as (b3 & Hb3 & R3);
    [by apply (bool_decide_unpack _); vm_compute | apply Hb1 |].
  pose proof (reads_verification files c c2 b3 lt Hb3 eq_refl) as R4. set (c4 := verification_config c c2) in *.
  destruct (reads_section files c4 b3 lt (str "mail")) as (b5 & Hb5 & R5);
    [by apply (bool_decide_unpack _); vm_compute | apply Hb3 |].
  pose proof (reads_mail files c c4 b5 lt Hb5 eq_refl) as R6. set (c6 := mail_config c c4) in *.
  destruct (reads_backends files (cf_backends c) c6 b5 lt []) as (tb & b7 & Et & Hb7 & R7);
    [apply Hb5 | done | | constructor |].
  { by rewrite app_nil_r, <- Permutation_rev. }
  eexists _, b7. unfold writeconfig. cbn [config]. rewrite En, Et. cbn [mbind outcome_bind]. split; [reflexivity|]. split; [done|].
  eapply reads_app; [exact R1|]. eapply reads_app; [by apply R2|]. eapply reads_app; [exact R3|].
  eapply reads_app; [by apply R4|]. eapply reads_app; [exact R5|]. eapply reads_app; [by apply R6|].
  rewrite app_nil_r in R7. unfold restored. rewrite <- (app_nil_r (rev (cf_syncsites c))). exact R7.
Qed.

(** C18: a written configuration is read back: every string, number and switch
    that is written, the sites and the backends (in reverse), the selected
    backend; of the policies only three are in the file, so signature
    verification, packet size limits and the others are off afterwards. *)
Theorem config_roundtrip {BC : BuildConfig} st :
  writable st ->
  exists text name, writeconfig st = Done text /\
    forall getenv files CONFIGDIR file, files file = Some text -> (5 <= length file)%nat ->
      drop (length file - 5) file <> str ".conf" ->
      exists buf, readconfig getenv files CONFIGDIR (Some file) initial =
        Done (mkConf (restored name (config st)) buf (logthres st)).
Proof.
  intros Hw. pose proof Hw as [_ _ _ Hbs Hnd (n & b & Hn & Hb & Hbo)]. set (c := config st) in *.
  assert (En : backend_name c = Done (db_name b)) by (unfold backend_name; by rewrite Hn, Hb).
  assert (Hin : b ∈ cf_backends c).
  { rewrite (Permutation_rev (cf_backends c)). by eapply list_elem_of_lookup_2. }
  assert (exists name, db_name b = Some name) as [name Ename].
  { rewrite Forall_forall in Hbs. destruct (bo_name b (Hbs b Hin)) as (m & Em & _). eauto. }
  destruct (reads_written (fun _ => None) st (db_name b) Hw En Hbo) as (text & _ & Et & _ & _).
  exists text, (db_name b). split; [done|]. intros getenv files CONFIGDIR file Hf Hl Hext.
  destruct (reads_written files st (db_name b) Hw En Hbo) as (text' & buf & Et' & Hne & Hr).
  assert (text' = text) as -> by congruence. exists buf. unfold readconfig, open_config.
  destruct (Nat.ltb_spec (length file) 5); [lia|]. cbn [mbind outcome_bind]. rewrite Hf.
  unfold streq. rewrite bool_decide_eq_false_2 by done. destruct text as [|x t]; [done|].
  rewrite read_file_resume, (reads_all files initial _ _ Hr). cbn [mbind outcome_bind config restored set_backend cf_db_backend].
  rewrite Ename. unfold select_backend. cbn [config set_backend restored cf_backends]. fold c.
  rewrite (find_position (rev (cf_backends c)) 0 n b name) by
    (done || (rewrite <- Permutation_rev; done) || (by rewrite map_rev, <- Permutation_rev)).
  cbn [mbind outcome_bind]. rewrite length_rev. unfold with_config, restored. rewrite Hn. reflexivity.
Qed.

(** A configuration with two backends and signature verification. *)
Definition sample_conf : conf_state :=
  let b1 := mkDbConfig (Some (str "defaultdb4")) (Some (str "db4")) (Some (str "/var/lib/onak")) None None None in
  let b2 := mkDbConfig (Some (str "backup")) (Some (str "fs")) None None None (Some (str "a=b")) in
  mkConf (mkConfiguration (-1) None (Some (str "Admin <a@example.org>")) None (Some []) [str "x"; str "y"] None true None
    [b1; b2] (Some 1%nat) (Some (str "defaultdb4")) (Some (str "/usr lib")) (mkArray [] 0 0)
    (Z.lor ONAK_CLEAN_VERIFY_SIGNATURES ONAK_CLEAN_CAP_UIDS) (mkConfig 3 0) None None None) (replicate 32 0) 6.

Lemma sample_conf_writable : writable sample_conf.
Proof.
  assert (Hv : forall s : string, bool_decide (0 ∉ str s) && bool_decide (10 ∉ str s) && (length (str s) <=? 1000)%nat &&
    match last (str s) with Some c => negb (isspace c) | None => true end = true -> value_ok (str s)).
  { intros s H. apply andb_prop in H as [[[H1%bool_decide_eq_true H2%bool_decide_eq_true]%andb_prop H3%Nat.leb_le]%andb_prop H4].
    split; [done|]. split; [done|]. split; [done|]. intros c Hc. rewrite Hc in H4. by apply negb_true_iff in H4. }
  assert (Hn : optional_ok None) by done.
  assert (Hs : forall s, value_ok s -> optional_ok (Some s)) by (intros s H v [= <-]; done).
  split; cbn [config sample_conf cf_thissite cf_adminemail cf_mta cf_server_contact cf_logfile cf_sock_dir cf_backends_dir
    cf_template_dir cf_bin_dir cf_mail_dir cf_syncsites cf_backends cf_backend].
  - repeat apply Forall_cons_2; try apply Forall_nil_2; try exact Hn; apply Hs; (apply (Hv ""%string) || apply Hv); vm_compute; reflexivity.
  - by repeat apply Forall_cons_2; try apply Forall_nil_2.
  - repeat apply Forall_cons_2; try apply Forall_nil_2; apply Hv; vm_compute; reflexivity.
  - repeat apply Forall_cons_2; try apply Forall_nil_2; (split; try exact Hn; try reflexivity; try (eexists; split; [reflexivity | by apply (bool_decide_unpack _); vm_compute]);
      apply Hs, Hv; vm_compute; reflexivity).
  - by apply (bool_decide_unpack _); vm_compute.
  - eexists _, _. split; [reflexivity|]. split; [reflexivity|]. apply Hs, Hv; vm_compute; reflexivity.
Qed.

Lemma config_roundtrip_witness :
  exists text name buf, writeconfig sample_conf = Done text /\
    @readconfig full_build (fun _ => None) (fun _ => Some text) [] (Some (str "a.ini")) initial =
      Done (mkConf (restored name (config sample_conf)) buf 6).
Proof.
  destruct (@config_roundtrip full_build sample_conf sample_conf_writable) as (text & name & Ew & Er).
  destruct (Er (fun _ => None) (fun _ => Some text) [] (str "a.ini")) as [buf Eb]; [reflexivity | cbn; lia | done |].
  exists text, name, buf. split; [exact Ew | exact Eb].
Defined.

(** * The last line *)

(** Reading a line from a text that ends in a newline, whatever comes behind
    it. *)
Lemma fgets_behind n : forall t l, t <> [] -> last t = Some 10 ->
  exists line rest, fgets (S n) t = (line, rest, false) /\ fgets (S n) (t ++ l) = (line, rest ++ l, false) /\
    (rest = [] \/ last rest = Some 10) /\ (length rest < length t)%nat.
Proof.
  induction n as [|n IH]; intros t l Hne Hl; destruct t as [|c t]; try done.
  - cbn [fgets app]. destruct (Z.eqb_spec c 10) as [-> |Hc]; (eexists _, t; split; [done|]; split; [done|]; split; [|cbn; lia]);
      (destruct t as [|c' t]; [by left | right; by rewrite <- Hl]).
  - cbn [app]. change (fgets (S (S n)) (c :: ?s)) with
      (if c =? 10 then ([c], s, false) else let '(line, rest, eof) := fgets (S n) s in (c :: line, rest, eof)).
    destruct (Z.eqb_spec c 10) as [-> |Hc].
    + eexists _, t. split; [done|]. split; [done|]. split; [|cbn; lia]. destruct t as [|c' t]; [by left | right; by rewrite <- Hl].
    + destruct t as [|c' t]; [cbn in Hl; congruence|].
      destruct (IH (c' :: t) l) as (line & rest & E1 & E2 & Hr & Hlen); [done | by rewrite <- Hl |].
      rewrite E1, E2. eexists _, rest. split; [done|]. split; [done|]. split; [done | cbn in *; lia].
Qed.

Section LastLine.
Context {BC : BuildConfig} (files : list Z -> option (list Z)).

(** The loop from a file position on, for either style. *)
Definition go (old : bool) (fuel : nat) (st : conf_state) (s : list Z) : outcome conf_state :=
  let '(line, rest, eof) := fgets 1022 s in config_loop files fuel old st line rest eof.

Lemma config_loop_behind old l : (10 ∉ l) -> (length l < 1022)%nat -> forall n t f1 f2 st,
  (length t <= n)%nat -> (length t <= f1)%nat -> (length t <= f2)%nat -> (t = [] \/ last t = Some 10) ->
  go old f1 st (t ++ l) = go old f2 st t.
Proof.
  intros Hl Hlen. induction n as [|n IH]; intros t f1 f2 st Hn H1 H2 Ht; unfold go.
  - destruct t; [|cbn in Hn; lia]. cbn [app]. rewrite fgets_last by (lia || (apply Forall_forall; intros ? ? ->; done)).
    change (fgets 1022 []) with (@nil Z, @nil Z, true). by destruct f1, f2.
  - destruct t as [|c t].
    { apply (IH [] f1 f2 st); [cbn; lia | cbn; lia | cbn; lia | by left]. }
    destruct (fgets_behind 1021 (c :: t) l) as (line & rest & -> & -> & Hr & Hlr); [done | by destruct Ht |].
    cbn [length] in *. destruct f1 as [|f1], f2 as [|f2]; try lia. cbn [config_loop].
    destruct ((if old then parseoldconfigline else parseconfigline files) st (strip line)) as [[st' b]|f]; [|done].
    cbn [mbind outcome_bind]. apply (IH rest); (lia || done).
Qed.

(** A last line without a newline is not read: the configuration is the same
    as without that line. *)
Theorem config_last_line_ignored old t l st :
  t <> [] -> last t = Some 10 -> (10 ∉ l) -> (length l < 1022)%nat ->
  read_file files old (t ++ l) st = read_file files old t st.
Proof.
  intros Hne Ht Hl Hlen. unfold read_file.
  set (st0 := if old then _ else st).
  pose proof (config_loop_behind old l Hl Hlen (length t) t (length (t ++ l)) (length t) st0) as E.
  unfold go in E. destruct (fgets_behind 1021 t l Hne Ht) as (line & rest & E1 & E2 & _). rewrite E1, E2 in *.
  destruct line; [done|]. rewrite E; [done | lia | rewrite length_app; lia | lia | by right].
Qed.

End LastLine.

Lemma config_last_line_ignored_witness :
  let t := str "[main]" ++ [10] in
  @read_file full_build (fun _ => None) false (t ++ str "use_keyd=true") initial =
  @read_file full_build (fun _ => None) false t initial.
Proof.
  intros t. apply (@config_last_line_ignored full_build (fun _ => None) false t (str "use_keyd=true") initial);
    [done | done | by apply (bool_decide_unpack _); vm_compute | cbn; lia].
Defined.

(** * Every file can be read *)

Section Safe.
Context {BC : BuildConfig} (getenv files : list Z -> option (list Z)) (CONFIGDIR : list Z).

(** Loading a blacklist goes through from the arrays of [P] and stays there. *)
Context (P : keyarray -> Prop).
Hypothesis load_ok : forall a v, P a -> exists a' b, array_load a (files v) = Done (a', b) /\ P a'.

(** The section is a string inside its buffer and every backend has a name. *)
Record conf_ok (st : conf_state) : Prop := {
  co_section : length (section st) = 32%nat /\ 0 ∈ section st;
  co_names : Forall (fun b => is_Some (db_name b)) (cf_backends (config st));
  co_blacklist : P (cf_blacklist (config st))
}.

Lemma find_ok bs name : forall i, Forall (fun b => is_Some (db_name b)) bs ->
  exists r, find_db_backend_config bs name i = Done r /\ forall j, r = Some j -> (i <= j < i + length bs)%nat.
Proof.
  induction bs as [|b bs IH]; intros i Hb; cbn; [by exists None|]. apply Forall_cons in Hb as [[n ->] Hb].
  destruct (streq name n).
  - exists (Some i). split; [done|]. intros j [= <-]. lia.
  - destruct (IH (S i) Hb) as (r & -> & Hr). exists r. split; [done|]. intros j ->. specialize (Hr j eq_refl). lia.
Qed.

Lemma parse_setting_ok st sect name value :
  conf_ok st -> exists st' b, parse_setting files st sect name value = Done (st', b) /\ conf_ok st'.
Proof.
  intros Hok. pose proof Hok as [H1 H2 H3].
  assert (Hkeep : forall f : configuration -> configuration,
    cf_backends (f (config st)) = cf_backends (config st) -> cf_blacklist (f (config st)) = cf_blacklist (config st) ->
    exists st' b, @Done (conf_state * bool) (with_config f st, true) = Done (st', b) /\ conf_ok st').
  { intros f Ef Eb. eexists _, _. split; [done|]. split; cbn; [done | by rewrite Ef | by rewrite Eb]. }
  unfold parse_setting.
  repeat match goal with
  | |- context [if MATCH ?a ?b ?c ?d then _ else _] => destruct (MATCH a b c d); [first [by apply Hkeep
      | by eexists _, _; split; [reflexivity | split]
      | by destruct have_crypto; apply Hkeep
      | destruct (load_ok (cf_blacklist (config st)) value H3) as (a' & b' & -> & Ha); cbn [mbind outcome_bind];
        eexists _, _; split; [reflexivity | by split] ] |]
  end.
  eexists _, _. split; [reflexivity | done].
Qed.

Lemma buffer_string_ok st : conf_ok st -> exists s, buffer_string (section st) = Done s.
Proof. intros [[_ H] _ _]. unfold buffer_string. rewrite bool_decide_eq_true_2 by done. eauto. Qed.

Lemma parse_section_ok st line :
  conf_ok st -> exists st' b, parse_section st line = Done (st', b) /\ conf_ok st'.
Proof.
  intros Hok. pose proof Hok as [[Hl _] H2 H3]. unfold parse_section.
  case_bool_decide as Hlast; cbn [negb]; [|eauto]. destruct (Nat.ltb_spec 32 (length line)); [eauto|].
  unfold strncpy. rewrite (proj2 (Nat.leb_le (length line) (length (section st)))) by lia. cbn [mbind outcome_bind].
  eexists _, _. split; [done|]. split; [|done | done]. cbn [section].
  assert (Hpos : (0 < length line)%nat) by (destruct line; [done | cbn; lia]). split.
  - rewrite length_app, length_take, length_drop, length_app, length_replicate. lia.
  - apply elem_of_app. left. apply list_elem_of_lookup. exists (length line - 1)%nat.
    rewrite lookup_take_lt, lookup_app_r by (rewrite ?length_drop, ?length_take; lia).
    rewrite lookup_replicate_2; [done|]. rewrite length_drop, length_take. lia.
Qed.

Lemma parse_backend_ok st bname name value :
  conf_ok st -> exists st', parse_backend st bname name value = Done st' /\ conf_ok st'.
Proof.
  intros Hok. pose proof Hok as [H1 H2 H3]. unfold parse_backend.
  destruct (find_ok (cf_backends (config st)) bname 0 H2) as (r & -> & _). cbn [mbind outcome_bind].
  set (f := if streq name (str "type") then _ else _).
  assert (Hf : forall b, is_Some (db_name b) -> is_Some (db_name (f b))) by (intros b Hb; unfold f; by repeat case_if).
  destruct r as [i|]; (eexists; split; [done|]; split; [done | | done]); cbn [with_config config set_backends cf_backends];
    apply Forall_alter; try done; try (by intros; apply Hf). by constructor.
Qed.

Lemma parseconfigline_ok st line :
  conf_ok st -> exists st' b, parseconfigline files st line = Done (st', b) /\ conf_ok st'.
Proof.
  intros Hok. unfold parseconfigline. destruct line as [|c l]; [eauto|]. destruct (_ || _); [eauto|].
  destruct (c =? 91); [by apply parse_section_ok|]. case_bool_decide; [|eauto].
  destruct (split_at 61 (c :: l)) as [name value]. destruct (buffer_string_ok st Hok) as [s ->]. cbn [mbind outcome_bind].
  destruct (starts _ s); [|by apply parse_setting_ok].
  destruct (parse_backend_ok st (after "backend:" s) name value Hok) as (st' & -> & Hok'). cbn [mbind outcome_bind]. eauto.
Qed.

(** The state while a file of the old style is read: one backend, and it is
    selected. *)
Definition old_ok (st : conf_state) : Prop :=
  cf_backend (config st) = Some 0%nat /\ length (cf_backends (config st)) = 1%nat.

Lemma modify_backend_ok st f : old_ok st -> exists st', modify_backend f st = Done st' /\ old_ok st'.
Proof.
  intros [H1 H2]. unfold modify_backend. rewrite H1. eexists. split; [done|]. split; [done|].
  cbn. by rewrite length_alter.
Qed.

Lemma parseoldconfigline_ok st line :
  old_ok st -> exists st' b, parseoldconfigline st line = Done (st', b) /\ old_ok st'.
Proof.
  intros Hok. unfold parseoldconfigline. destruct line as [|c l]; [eauto|]. destruct (c =? 35); [eauto|].
  repeat match goal with
  | |- context [if has ?a ?b || has ?a ?b' then _ else _] => destruct (has a b || has a b'); [by eauto|]
  | |- context [if has ?a ?b then _ else _] => destruct (has a b); [first [by eauto
      | match goal with |- context [modify_backend ?f st] =>
          destruct (modify_backend_ok st f Hok) as (st' & -> & Hok') end; cbn [mbind outcome_bind];
        by eexists _, _; split; [reflexivity|] ] |]
  end. eauto.
Qed.

Lemma config_loop_ok (old : bool) (I : conf_state -> Prop) :
  (forall st line, I st -> exists st' b, (if old then parseoldconfigline else parseconfigline files) st line = Done (st', b) /\ I st') ->
  forall fuel st line rest eof, I st -> (eof = true \/ (length rest < fuel)%nat) ->
  exists st', config_loop files fuel old st line rest eof = Done st' /\ I st'.
Proof.
  intros HI. induction fuel as [|fuel IH]; intros st line rest eof Hst Hf; destruct eof; cbn [config_loop]; eauto.
  - destruct Hf; [done | lia].
  - destruct Hf as [|Hf]; [done|]. destruct (HI st (strip line) Hst) as (st' & b & -> & Hst'). cbn [mbind outcome_bind].
    pose proof (fgets_rest 1021 rest) as Hr. destruct rest as [|c rest]; [by apply IH; [|left]|].
    destruct (fgets 1022 (c :: rest)) as [[line' rest'] eof']. cbn [fst snd length] in *. apply IH; [done|]. right. lia.
Qed.

Lemma read_file_ok old content st :
  conf_ok st -> exists st', read_file files old content st = Done st' /\ (old = false -> conf_ok st').
Proof.
  intros Hok. unfold read_file. destruct content as [|c t].
  { exists st. split; [done | by intros _]. }
  pose proof (fgets_rest 1021 (c :: t)) as Hr. destruct (fgets_cons 1021 c t) as (l & r & e & E). rewrite E in *.
  cbn [fst snd length] in Hr. destruct old.
  - destruct (config_loop_ok true old_ok parseoldconfigline_ok (length (c :: t))
      (with_config (fun c => set_backend (Some 0%nat) (set_backends (lladd [] (mkDbConfig None None None None None None)) c)) st)
      (c :: l) r e) as (st' & -> & _); [done | right; cbn; lia |].
    cbn [mbind outcome_bind]. destruct (cf_db_backend (config st')); by eexists.
  - destruct (config_loop_ok false conf_ok parseconfigline_ok (length (c :: t)) st (c :: l) r e) as (st' & -> & Hok');
      [done | right; cbn; lia |].
    cbn [mbind outcome_bind]. destruct (cf_db_backend (config st')) as [name|]; [|by exists st'].
    unfold select_backend. destruct (find_ok (cf_backends (config st')) name 0 (co_names _ Hok')) as (pos & -> & _).
    cbn [mbind outcome_bind]. eexists. split; [done|]. intros _. destruct Hok'. by split.
Qed.

End Safe.

(** The files that exist are among [paths], and they are not larger than 2^28
    octets together. *)
Definition small_files (files : list Z -> option (list Z)) (paths : list (list Z)) : Prop :=
  (forall path, is_Some (files path) -> path ∈ paths) /\
  zlen (concat (map (fun path => default [] (files path)) paths)) < 2 ^ 28.

Lemma small_files_load files paths : small_files files paths ->
  let U := concat (map (fun path => file_fps (default [] (files path))) paths) in
  zlen U < 2 ^ 28 /\ forall a v, array_of U a -> exists a' b, array_load a (files v) = Done (a', b) /\ array_of U a'.
Proof.
  intros [Hin Hs] U. assert (HU : zlen U < 2 ^ 28).
  { eapply Z.le_lt_trans; [|exact Hs]. unfold U. clear. induction paths as [|p ps IH]; [done|]. cbn [map concat].
    rewrite !zlen_app. pose proof (file_fps_length (default [] (files p))). lia. }
  split; [done|]. intros a v Ha. apply array_load_ok; [done | done |]. intros s fp E Hfp. unfold U.
  apply list_elem_of_In, in_concat. exists (file_fps s). split; [|by apply list_elem_of_In].
  apply in_map_iff. exists v. rewrite E. split; [done|]. apply list_elem_of_In, Hin. by rewrite E.
Qed.

(** C19: whatever stands in the configuration file, of either style and wherever
    it is found, and in the files of fingerprints it names, reading it ends
    without a fault: the name of a section stays in its buffer, every backend has
    a name, and the blacklist stays a sorted array within its allocation.  The
    one exception is a file that is given by a name of less than five
    characters. *)
Theorem readconfig_safe {BC : BuildConfig} getenv files CONFIGDIR configfile paths :
  small_files files paths ->
  match configfile with
  | Some name => (length name < 5)%nat
  | None => False
  end /\ readconfig getenv files CONFIGDIR configfile initial = Fault OutOfBounds \/
  exists st, readconfig getenv files CONFIGDIR configfile initial = Done st.
Proof.
  intros Hs. destruct (small_files_load files paths Hs) as [_ Hload]. set (U := concat _) in Hload. unfold readconfig.
  assert (Hgo : forall p : option (list Z) * bool, exists st, (let '(conffile, old) := p in match conffile with
    | Some content => read_file files old content initial | None => Done initial end) = Done st).
  { intros [[content|] old]; [|eauto]. destruct (read_file_ok files (array_of U) Hload old content initial) as (st & -> & _); [|eauto].
    split; [|constructor | apply array_of_empty]. split; [done|]. by left. }
  destruct configfile as [name|]; cbn [open_config].
  - destruct (Nat.ltb_spec (length name) 5); [by left | right].
    apply (Hgo (files name, streq (drop (length name - 5) name) (str ".conf"))).
  - right. cbn [mbind outcome_bind]. apply Hgo.
Qed.

(** A configuration that names a blacklist. *)
Definition two_files (name : list Z) : option (list Z) :=
  if bool_decide (name = str "/etc/onak.ini") then Some (str "[verification]" ++ 10 :: str "blacklist=/b" ++ [10])
  else if bool_decide (name = str "/b") then Some (replicate 40 65 ++ [10; 35; 10; 66; 10]) else None.

Lemma readconfig_safe_witness :
  exists st, @readconfig full_build (fun _ => None) two_files (str "/etc") None initial = Done st.
Proof.
  destruct (@readconfig_safe full_build (fun _ => None) two_files (str "/etc") None [str "/etc/onak.ini"; str "/b"])
    as [[[] _]|H]; [|exact H].
  split; [|vm_compute; reflexivity]. intros path [s Hs]. unfold two_files in Hs.
  destruct (decide (path = str "/etc/onak.ini")) as [-> | H1]; [by left|]. rewrite bool_decide_false in Hs by done.
  destruct (decide (path = str "/b")) as [-> | H2]; [by right; left|]. by rewrite bool_decide_false in Hs.
Defined.
