(* ===== verification/Stacked.v ===== *)
(** Stacks of databases (keydb/keydb_stacked.c): the first backend takes the
    writes, lookups go down the stack until one answers, and what is found is
    cleaned and stored in the first backend.

    A stack is the list of the contexts [config.dbinit] returned, NULL for a
    backend that could not be opened.  Lookups return the nodes of the list the
    caller gets, since the cleaning pass may free the first one. *)

From Stdlib Require Import String.
From S2P Require Import Prelude CLib OpenPGP Streams KeyId Decode Keys Merge KeyArray Sighash SigCheck DbCtx Clean CleanFacts.
From S2P Require Import CleanKeys KeyUpdate Stats Conf.

(** The static variables of a program that uses the stack, as far as the code
    reads them: the [stack] memory behind the digest buffers and the limits and
    policies of the configuration. *)
Section Stacked.
Context {HF : Hashes} {BC : BuildConfig} {NT : Nettle} {D : Type} {DB : KeyDb D} {DM : KeyDbMore D}.
Context (stack : list Z) (config : onak_config) (clean_policies : Z).

Record onak_stacked_dbctx : Type := mkStacked {
  backends : list (option D);
  store_on_fallback_flag : bool
}.

(** [privctx->backends->object], with its methods. *)
Definition first_backend (ctx : onak_stacked_dbctx) : outcome D :=
  match backends ctx with
  | Some b :: _ => Done b
  | _ => Fault NullDeref
  end.

Definition set_first (ctx : onak_stacked_dbctx) (b : D) : onak_stacked_dbctx :=
  mkStacked (Some b :: drop 1 (backends ctx)) (store_on_fallback_flag ctx).

(** * Operations on the first backend *)

Definition stacked_starttrans (ctx : onak_stacked_dbctx) : outcome (onak_stacked_dbctx * bool) :=
  b ← first_backend ctx;
  let '(b, r) := starttrans b in
  Done (set_first ctx b, r).

Definition stacked_endtrans (ctx : onak_stacked_dbctx) : outcome onak_stacked_dbctx :=
  b ← first_backend ctx;
  Done (set_first ctx (endtrans b)).

Definition stacked_store_key (ctx : onak_stacked_dbctx) (publickey : openpgp_publickey) (intrans update : bool)
    : outcome (onak_stacked_dbctx * Z) :=
  b ← first_backend ctx;
  let '(b, r) := store_key b publickey intrans update in
  Done (set_first ctx b, r).

Definition stacked_delete_key (ctx : onak_stacked_dbctx) (fp : openpgp_fingerprint) (intrans : bool)
    : outcome (onak_stacked_dbctx * Z) :=
  b ← first_backend ctx;
  let '(b, r) := delete_key b fp intrans in
  Done (set_first ctx b, r).

(** [update_keys] of the backend, which is the generic one. *)
Definition stacked_update_keys (ctx : onak_stacked_dbctx) (keys : list openpgp_publickey) (blacklist : option keyarray)
    (updateonly sendsync : bool)
    : outcome (onak_stacked_dbctx * list openpgp_publickey * option (list openpgp_publickey) * Z) :=
  b ← first_backend ctx;
  '(b, keys, mailed, r) ← generic_update_keys b keys blacklist updateonly sendsync;
  Done (set_first ctx b, keys, mailed, r).

Definition stacked_iterate_keys (ctx : onak_stacked_dbctx) : outcome (list openpgp_publickey) :=
  b ← first_backend ctx;
  Done (iterate_keys b).

(** * Walking the stack *)

(** The loop over the keys. *)
Fixpoint store_keys (b : D) (keys : list openpgp_publickey) (intrans : bool) : D :=
  match keys with
  | [] => b
  | curkey :: next => store_keys (store_key b curkey intrans false).1 next intrans
  end.

(** The list the caller of [cleankeys] on a copy of its pointer is left with:
    the nodes are changed in place, but a first node that was removed is
    freed. *)
Definition caller_list (b : D) (keys cleaned : list openpgp_publickey) : outcome (list key_node) :=
  match keys with
  | [] => Done []
  | first :: _ =>
      '(kept, _) ← cleankeys b stack config (Some [first]) clean_policies;
      Done (match kept with
            | Some [] => [Freed]
            | _ => map Live cleaned
            end)
  end.

Definition store_on_fallback (ctx : onak_stacked_dbctx) (publickey : list openpgp_publickey) (intrans : bool)
    : outcome (onak_stacked_dbctx * list key_node) :=
  b ← first_backend ctx;
  '(cleaned, _) ← cleankeys b stack config (Some publickey) clean_policies;
  let cleaned := default [] cleaned in
  nodes ← caller_list b publickey cleaned;
  Done (set_first ctx (store_keys b cleaned intrans), nodes).

(** The loop: the result, the list, and the position of [cur]. *)
Fixpoint walk_stack (bs : list (option D)) (fetch : D -> Z * list openpgp_publickey) (publickey : list openpgp_publickey)
    (cur : nat) : outcome (Z * list openpgp_publickey * nat) :=
  match bs with
  | [] => Done (0, publickey, cur)
  | None :: _ => Fault NullDeref
  | Some b :: bs =>
      let '(res, keys) := fetch b in
      if res =? 0 then walk_stack bs fetch (publickey ++ keys) (S cur)
      else Done (res, publickey ++ keys, S cur)
  end.

(** The body that the five lookups have in common, for a list that is empty. *)
Definition stacked_lookup (ctx : onak_stacked_dbctx) (fetch : D -> Z * list openpgp_publickey) (intrans : bool)
    : outcome (onak_stacked_dbctx * list key_node * Z) :=
  '(res, publickey, cur) ← walk_stack (backends ctx) fetch [] 0;
  if store_on_fallback_flag ctx && negb (cur =? 0)%nat then
    '(ctx, nodes) ← store_on_fallback ctx publickey intrans;
    Done (ctx, nodes, res)
  else Done (ctx, map Live publickey, res).

Definition stacked_fetch_key (ctx : onak_stacked_dbctx) (fingerprint : openpgp_fingerprint) (intrans : bool)
    : outcome (onak_stacked_dbctx * list key_node * Z) :=
  stacked_lookup ctx (fun b => fetch_key b fingerprint intrans) intrans.

Definition stacked_fetch_key_fp (ctx : onak_stacked_dbctx) (fingerprint : openpgp_fingerprint) (intrans : bool)
    : outcome (onak_stacked_dbctx * list key_node * Z) :=
  stacked_lookup ctx (fun b => fetch_key_fp b fingerprint intrans) intrans.

Definition stacked_fetch_key_id (ctx : onak_stacked_dbctx) (keyid : Z) (intrans : bool)
    : outcome (onak_stacked_dbctx * list key_node * Z) :=
  stacked_lookup ctx (fun b => fetch_key_id b keyid intrans) intrans.

Definition stacked_fetch_key_text (ctx : onak_stacked_dbctx) (search : list Z)
    : outcome (onak_stacked_dbctx * list key_node * Z) :=
  stacked_lookup ctx (fun b => fetch_key_text b search) false.

Definition stacked_fetch_key_skshash (ctx : onak_stacked_dbctx) (hash : list Z)
    : outcome (onak_stacked_dbctx * list key_node * Z) :=
  stacked_lookup ctx (fun b => fetch_key_skshash b hash) false.

(** * Falling back to the generic functions *)

(** The first key of a list that was looked up. *)
Definition head_key (nodes : list key_node) : outcome (option openpgp_publickey) :=
  match nodes with
  | [] => Done None
  | Live k :: _ => Done (Some k)
  | Freed :: _ => Fault UseAfterFree
  end.

(** [generic_getkeysigs] on the stack. *)
Definition stacked_getkeysigs (ctx : onak_stacked_dbctx) (st : stats_state) (keyid : Z) (revoked : bool)
    : outcome (onak_stacked_dbctx * stats_state * list nat * bool) :=
  b ← first_backend ctx;
  '(st, res, revoked) ← generic_getkeysigs b st keyid revoked;
  match res with
  | [] =>
      '(ctx, nodes, _) ← stacked_fetch_key_id ctx keyid false;
      publickey ← head_key nodes;
      match publickey with
      | None => Done (ctx, st, [], revoked)
      | Some k =>
          '(st, sigs) ← add_uid_sigs st (pk_uids k) [];
          Done (ctx, st, sigs, pk_revoked k)
      end
  | _ => Done (ctx, st, res, revoked)
  end.

(** [generic_cached_getkeysigs] on the stack, for a key that has not been
    loaded. *)
Definition cached_from_stack (ctx : onak_stacked_dbctx) (st : stats_state) (keyid : Z) (key : option nat)
    : outcome (onak_stacked_dbctx * stats_state * list nat) :=
  '(ctx, st, sigs, revoked) ← stacked_getkeysigs ctx st keyid false;
  match sigs with
  | [] => Done (ctx, st, [])
  | _ =>
      '(st, a) ← match key with None => createandaddtohash st keyid | Some a => Done (st, a) end;
      st ← modify st a (fun k => set_loaded k sigs revoked);
      st ← add_signs st a sigs;
      st ← modify st a set_gotsigs;
      k ← node st a;
      Done (ctx, st, sk_sigs k)
  end.

(** The first backend has its answer from [generic_cached_getkeysigs]. *)
Definition stacked_cached_getkeysigs (ctx : onak_stacked_dbctx) (st : stats_state) (keyid : Z)
    : outcome (onak_stacked_dbctx * stats_state * list nat) :=
  b ← first_backend ctx;
  '(st, res) ← generic_cached_getkeysigs b st keyid;
  match res with
  | [] =>
      if keyid =? 0 then Done (ctx, st, [])
      else
        key ← findinhash st keyid;
        gotsigs ← match key with None => Done false | Some a => k ← node st a; Done (sk_gotsigs k) end;
        if (gotsigs : bool) then
          match key with None => Fault NullDeref | Some a => k ← node st a; Done (ctx, st, sk_sigs k) end
        else cached_from_stack ctx st keyid key
  | _ => Done (ctx, st, res)
  end.

(** Every backend is released; one that could not be opened has no methods. *)
Fixpoint stacked_cleanupdb (bs : list (option D)) : outcome () :=
  match bs with
  | [] => Done ()
  | None :: _ => Fault NullDeref
  | Some _ :: bs => stacked_cleanupdb bs
  end.

(** [generic_keyid2uid] on the stack. *)
Definition stacked_keyid2uid (ctx : onak_stacked_dbctx) (keyid : Z) : outcome (onak_stacked_dbctx * option (list Z)) :=
  b ← first_backend ctx;
  res ← generic_keyid2uid b keyid;
  match res with
  | Some _ => Done (ctx, res)
  | None =>
      '(ctx, nodes, ret) ← stacked_fetch_key_id ctx keyid false;
      if ret =? 0 then Done (ctx, None)
      else
        publickey ← head_key nodes;
        match publickey with
        | None => Done (ctx, None)
        | Some k => uid ← first_uid (pk_uids k); Done (ctx, uid)
        end
  end.

(** * Opening *)

(** What [keydb_stacked_init] returns: NULL, a context without methods, or a
    stack. *)
Inductive stacked_context : Type :=
  | NoContext
  | WithoutMethods
  | Stack (ctx : onak_stacked_dbctx).

Fixpoint load_backends (names : list (list Z)) (configs : list onak_db_config) (dbinit : onak_db_config -> option D)
    (bs : list (option D)) : outcome (option (list (option D))) :=
  match names with
  | [] => Done (Some bs)
  | backend_name :: names =>
      pos ← find_db_backend_config configs backend_name 0;
      match pos ≫= fun i => configs !! i with
      | None => Done None
      | Some backend_cfg => load_backends names configs dbinit (lladdend bs (dbinit backend_cfg))
      end
  end.

(** [strtok_r] ends the first name with a NUL in the configured string. *)
Definition after_strtok (location : list Z) : list Z :=
  let rest := skip_char 58 location in
  take (length location - length rest) location ++ (split_at 58 rest).1.

(** The context, and the configuration that was handed in. *)
Definition keydb_stacked_init (configs : list onak_db_config) (dbinit : onak_db_config -> option D)
    (dbcfg : option onak_db_config) : outcome (stacked_context * option onak_db_config) :=
  match dbcfg with
  | None => Done (NoContext, None)
  | Some cfg =>
      match db_location cfg with
      | None => Fault NullDeref
      | Some location =>
          names ← strtok_all (S (length location)) 58 location;
          bs ← load_backends names configs dbinit [];
          Done (match bs with
                | None => NoContext
                | Some [] => WithoutMethods
                | Some bs => Stack (mkStacked bs true)
                end, Some (set_db_location (Some (after_strtok location)) cfg))
      end
  end.

End Stacked.

(** * Properties *)

Section StackedFacts.
Context {HF : Hashes} {BC : BuildConfig} {NT : Nettle} {D : Type} {DB : KeyDb D}.
Context (stack : list Z) (config : onak_config) (clean_policies : Z).

(** The keys that a stack finds: those of the first backend that finds any. *)
Fixpoint overlay (bs : list D) (fetch : D -> Z * list openpgp_publickey) : list openpgp_publickey :=
  match bs with
  | [] => []
  | b :: bs => match (fetch b).2 with [] => overlay bs fetch | ks => ks end
  end.

(** A lookup returns the number of the keys it finds. *)
Definition counts (fetch : D -> Z * list openpgp_publickey) (b : D) : Prop := (fetch b).1 = zlen (fetch b).2.

Lemma walk_overlay bs fetch : Forall (counts fetch) bs -> forall cur,
  exists n, walk_stack (map Some bs) fetch [] cur = Done (zlen (overlay bs fetch), overlay bs fetch, n) /\ (bs <> [] -> (0 < n)%nat).
Proof.
  induction 1 as [|b bs Hb _ IH]; intros cur; cbn [map walk_stack overlay]; [by exists cur|]. unfold counts in Hb.
  destruct (fetch b) as [res ks]. cbn [fst snd] in *. subst res. destruct ks as [|k ks].
  - destruct (IH (S cur)) as (n & E & Hn). exists n. split; [exact E|]. intros _. destruct bs; [|by apply Hn].
    cbn in E. injection E as <-. lia.
  - rewrite zlen_cons. pose proof (zlen_nonneg ks). rewrite (proj2 (Z.eqb_neq (1 + zlen ks) 0)) by lia.
    exists (S cur). split; [done | lia].
Qed.

Lemma store_keys_foldl (b : D) keys intrans :
  store_keys b keys intrans = foldl (fun b k => (store_key b k intrans false).1) b keys.
Proof. revert b. induction keys as [|k keys IH]; intros b; [done|]. cbn. apply IH. Qed.

(** C16: a lookup by fingerprint in a stack of open databases answers with the
    keys of the first one that finds any -- the one with the fingerprint, or
    those that have it as a subkey -- after they were cleaned, and returns their
    number before that.  The cleaned keys are stored, in order and as new ones, in
    the first database -- also when they were found there -- and nothing else
    changes.  If the first key does not survive the cleaning the caller gets a
    pointer to it after it was freed, and nothing of the rest. *)
Theorem stacked_fetch_key_fp_correct b0 bs fp intrans :
  let fetch b := fetch_key_fp b fp intrans in
  let ks := overlay (b0 :: bs) fetch in
  check_possible b0 stack (policy clean_policies ONAK_CLEAN_VERIFY_SIGNATURES) ->
  Forall (counts fetch) (b0 :: bs) -> Forall key_input ks ->
  exists kept n nodes,
    cleankeys b0 stack config (Some ks) clean_policies = Done (Some kept, n) /\
    Forall (cleaned stack config clean_policies) kept /\
    map pk_publickey kept `sublist_of` map pk_publickey ks /\
    stacked_fetch_key_fp stack config clean_policies (mkStacked (map Some (b0 :: bs)) true) fp intrans =
      Done (mkStacked (map Some (foldl (fun b k => (store_key b k intrans false).1) b0 kept :: bs)) true, nodes, zlen ks) /\
    match ks with
    | [] => nodes = []
    | first :: _ => exists alone m, cleankeys b0 stack config (Some [first]) clean_policies = Done (Some alone, m) /\
        nodes = match alone with [] => [Freed] | _ => map Live kept end
    end.
Proof.
  intros fetch ks Hc Hn Hin. unfold stacked_fetch_key_fp, stacked_lookup. cbn [backends]. fold fetch.
  destruct (walk_overlay (b0 :: bs) fetch Hn 0) as (cur & -> & Hcur). specialize (Hcur ltac:(done)). fold ks. cbn [mbind outcome_bind].
  cbn [store_on_fallback_flag andb]. destruct (Nat.eqb_spec cur 0) as [|_]; [lia|]. cbn [negb].
  unfold store_on_fallback, first_backend. cbn [backends map mbind outcome_bind].
  destruct (cleankeys_loop_ok b0 stack config clean_policies ks 0 0 Hc Hin) as (kept & n & E & Hf & Hs).
  assert (Ek : cleankeys b0 stack config (Some ks) clean_policies = Done (Some kept, n)) by (unfold cleankeys; by rewrite E).
  rewrite Ek. cbn [mbind outcome_bind from_option id].
  assert (Hcl : Forall (cleaned stack config clean_policies) kept) by (eapply Forall_impl; [exact Hf|]; by intros k [? _]).
  destruct ks as [|first rest] eqn:Eks; cbn [caller_list mbind outcome_bind].
  { exists kept, n, []. rewrite store_keys_foldl. done. }
  apply Forall_cons in Hin as [H1 _].
  destruct (cleankeys_loop_ok b0 stack config clean_policies [first] 0 0 Hc) as (alone & m & E1 & _); [by apply Forall_singleton|].
  assert (Ea : cleankeys b0 stack config (Some [first]) clean_policies = Done (Some alone, m)) by (unfold cleankeys; by rewrite E1).
  rewrite Ea. cbn [mbind outcome_bind]. rewrite store_keys_foldl.
  eexists kept, n, _. do 3 (split; [done|]). split; [done|]. exists alone, m. split; [done|]. by destruct alone.
Qed.

End StackedFacts.

(** A key in the second database is copied to the first; one of an old version
    is lost. *)
Lemma stacked_fetch_key_fp_correct_witness :
  let fp := mkFingerprint 20 (replicate 20 1) in
  let lookup := @stacked_fetch_key_fp toy_hashes full_build toy_nettle (@assoc_db toy_hashes full_build)
    (@assoc_keydb toy_hashes full_build) (replicate 64 7) (mkConfig 512 512) 0 in
  let old_key := mkKey (mkPacket OPENPGP_PACKET_PUBLICKEY true 1 [3]) false [] [] [] in
  (exists b0' k', lookup (mkStacked [Some []; Some [(fp, toy_key)]] true) fp false =
    Done (mkStacked [Some b0'; Some [(fp, toy_key)]] true, [Live k'], 1)) /\
  lookup (mkStacked [Some []; Some [(fp, old_key)]] true) fp false =
    Done (mkStacked [Some []; Some [(fp, old_key)]] true, [Freed], 1).
Proof.
  intros fp lookup old_key.
  pose proof (fun bs => @stacked_fetch_key_fp_correct toy_hashes full_build toy_nettle (@assoc_db toy_hashes full_build)
    (@assoc_keydb toy_hashes full_build) (replicate 64 7) (mkConfig 512 512) 0 [] bs fp false) as H. cbn zeta in H. split.
  - specialize (H [[(fp, toy_key)]]). match type of H with context [overlay ?l ?g] => change (overlay l g) with [toy_key] in H end.
    destruct H as (kept & n & nodes & E & _ & _ & H & alone & m & E1 & Hn).
    + done.
    + repeat (apply Forall_cons; split); try apply Forall_nil_2; vm_compute; reflexivity.
    + apply Forall_singleton. exists 4. split; [vm_compute; reflexivity | right; exact toy_key_ok].
    + vm_compute in E. injection E as <- <-. vm_compute in E1. injection E1 as <- <-. subst nodes. eexists _, _. exact H.
  - specialize (H [[(fp, old_key)]]). match type of H with context [overlay ?l ?g] => change (overlay l g) with [old_key] in H end.
    destruct H as (kept & n & nodes & E & _ & _ & H & alone & m & E1 & Hn).
    + done.
    + repeat (apply Forall_cons; split); try apply Forall_nil_2; vm_compute; reflexivity.
    + apply Forall_singleton. exists 3. split; [vm_compute; reflexivity | left; reflexivity].
    + vm_compute in E. injection E as <- <-. vm_compute in E1. injection E1 as <- <-. subst nodes. exact H.
Defined.

(** * Opening a stack *)

(** The configuration of a name. *)
Definition config_named (configs : list onak_db_config) (name : list Z) (cfg : onak_db_config) : Prop :=
  exists i, find_db_backend_config configs name 0 = Done (Some i) /\ configs !! i = Some cfg.

Lemma load_backends_named {D} names configs (dbinit : onak_db_config -> option D) : forall cfgs bs,
  Forall2 (config_named configs) names cfgs ->
  load_backends names configs dbinit bs = Done (Some (bs ++ map dbinit cfgs)).
Proof.
  induction names as [|n names IH]; intros cfgs bs H; inversion H as [|? cfg ? cfgs' (i & E & Ei) Hf]; subst; cbn [load_backends map].
  - by rewrite app_nil_r.
  - rewrite E. cbn [mbind outcome_bind]. cbn. rewrite Ei. unfold lladdend. rewrite (IH cfgs') by done.
    by rewrite <- app_assoc.
Qed.

(** A stack is opened in the order of the names in its location; the location
    is cut to the first name on the way, so that opening the stack again with
    the same configuration gives the first database alone. *)
Theorem keydb_stacked_init_correct {D} configs (dbinit : onak_db_config -> option D) cfg n1 names c1 cfgs :
  db_location cfg = Some (joined 58 (n1 :: names)) ->
  Forall (fun t => t <> [] /\ Forall (fun c => c <> 58) t) (n1 :: names) ->
  Forall2 (config_named configs) (n1 :: names) (c1 :: cfgs) ->
  exists cfg', keydb_stacked_init configs dbinit (Some cfg) =
      Done (Stack (mkStacked (map dbinit (c1 :: cfgs)) true), Some cfg') /\
    db_location cfg' = Some n1 /\
    keydb_stacked_init configs dbinit (Some cfg') = Done (Stack (mkStacked [dbinit c1] true), Some cfg').
Proof.
  intros Hl Ht Hc. exists (set_db_location (Some n1) cfg). apply Forall_cons in Ht as Ht'. destruct Ht' as [[Hne Hn1] Htl].
  assert (Hlen : (length (n1 :: names) < S (length (joined 58 (n1 :: names))))%nat).
  { cbn [joined]. rewrite length_app. assert (0 < length n1)%nat by (destruct n1; [done | cbn; lia]).
    clear -H. induction names as [|n names IH]; cbn in *; rewrite ?length_app; lia. }
  assert (Hafter : forall ns, after_strtok (joined 58 (n1 :: ns)) = n1).
  { intros ns. unfold after_strtok. cbn [joined]. rewrite skip_char_ne by done. rewrite Nat.sub_diag. cbn [take app].
    destruct ns as [|n ns]; cbn [map concat app]; [by rewrite app_nil_r, split_at_none | by rewrite split_at_spec]. }
  unfold keydb_stacked_init. rewrite Hl. cbn [set_db_location db_location].
  rewrite strtok_joined by done. cbn [mbind outcome_bind]. rewrite (load_backends_named _ _ _ (c1 :: cfgs)) by done.
  cbn [mbind outcome_bind app map]. rewrite Hafter. split; [done|]. split; [done|].
  pose proof (strtok_joined 58 [n1] (S (length n1))) as E1. pose proof (Hafter []) as E2. cbn [joined map concat] in E1, E2.
  rewrite app_nil_r in E1, E2. assert (0 < length n1)%nat by (destruct n1; [done | cbn; lia]).
  rewrite E1; [|by apply Forall_singleton | cbn; lia]. cbn [mbind outcome_bind].
  rewrite (load_backends_named _ _ _ [c1]); [by rewrite E2|]. inversion Hc; subst. by constructor.
Qed.

Lemma keydb_stacked_init_correct_witness :
  let a := mkDbConfig (Some (str "a")) None None None None None in
  let b := mkDbConfig (Some (str "b")) None None None None None in
  exists cfg', keydb_stacked_init [a; b] (fun c => db_name c)
      (Some (mkDbConfig None None (Some (str "b:a")) None None None)) =
      Done (Stack (mkStacked [Some (str "b"); Some (str "a")] true), Some cfg') /\
    db_location cfg' = Some (str "b") /\
    keydb_stacked_init [a; b] (fun c => db_name c) (Some cfg') = Done (Stack (mkStacked [Some (str "b")] true), Some cfg').
Proof.
  intros a b. apply (keydb_stacked_init_correct [a; b] (fun c => db_name c)
    (mkDbConfig None None (Some (str "b:a")) None None None) (str "b") [str "a"] b [a]).
  - reflexivity.
  - repeat constructor; done.
  - repeat constructor; eexists; split; reflexivity.
Defined.
