(* ===== verification/FileSystem.v ===== *)
(** The part of a POSIX file system that the file backend uses: names that are
    hard links to files, directories, and the octets of files.

    A path is the list of its components below the directory of the database.
    The order in which a directory is listed is left open: [Listing] is any
    function that lists what is there. *)

From stdpp Require Import gmap.
From S2P Require Import Prelude.

Abbreviation path := (list (list Z)).

Record filesystem : Type := mkFs {
  fs_names : gmap path nat;       (* which file a name stands for *)
  fs_inodes : gmap nat (list Z);  (* what is in a file *)
  fs_dirs : gset path
}.

Definition parent (p : path) : path := take (length p - 1) p.

(** A component may have up to 255 octets. *)
Definition fits (p : path) : bool :=
  match last p with Some n => (length n <=? 255)%nat | None => false end.

(** A new name can be made here. *)
Definition can_create (fs : filesystem) (p : path) : bool :=
  bool_decide (parent p ∈ fs_dirs fs) && fits p && bool_decide (p ∉ fs_dirs fs) && bool_decide (fs_names fs !! p = None).

Definition mkdir (fs : filesystem) (p : path) : filesystem :=
  if can_create fs p then mkFs (fs_names fs) (fs_inodes fs) ({[p]} ∪ fs_dirs fs) else fs.

(** What is read from a name. *)
Definition contents (fs : filesystem) (p : path) : option (list Z) := fs_names fs !! p ≫= fun i => fs_inodes fs !! i.

(** [open(p, O_WRONLY | O_TRUNC)] and [open(p, O_WRONLY | O_CREAT)]: the file. *)
Definition open_trunc (fs : filesystem) (p : path) : option (filesystem * nat) :=
  i ← fs_names fs !! p;
  Some (mkFs (fs_names fs) (<[i := []]> (fs_inodes fs)) (fs_dirs fs), i).

Definition open_creat (fs : filesystem) (p : path) : option (filesystem * nat) :=
  match fs_names fs !! p with
  | Some i => Some (fs, i)
  | None =>
      if can_create fs p then
        let i := fresh (dom (fs_inodes fs)) in
        Some (mkFs (<[p := i]> (fs_names fs)) (<[i := []]> (fs_inodes fs)) (fs_dirs fs), i)
      else None
  end.

(** Writing from the start of a file. *)
Definition write_start (fs : filesystem) (i : nat) (data : list Z) : filesystem :=
  mkFs (fs_names fs) (alter (fun old => data ++ drop (length data) old) i (fs_inodes fs)) (fs_dirs fs).

(** [link(old, new)], whose result is not looked at. *)
Definition link (fs : filesystem) (old new : path) : filesystem :=
  match fs_names fs !! old with
  | Some i => if can_create fs new then mkFs (<[new := i]> (fs_names fs)) (fs_inodes fs) (fs_dirs fs) else fs
  | None => fs
  end.

Definition unlink (fs : filesystem) (p : path) : filesystem :=
  mkFs (delete p (fs_names fs)) (fs_inodes fs) (fs_dirs fs).

(** [opendir] and [readdir]: the names in a directory, [None] if there is no such
    directory. *)
Class Listing : Type := {
  readdir : filesystem -> path -> option (list (list Z));
  readdir_spec : forall fs d,
    match readdir fs d with
    | Some names => d ∈ fs_dirs fs /\ forall n, n ∈ names <-> d ++ [n] ∈ fs_dirs fs \/ is_Some (fs_names fs !! (d ++ [n]))
    | None => d ∉ fs_dirs fs
    end
}.

(** * Adding links *)

Section Adding.
Context (i : nat).

(** From [fs] to [fs'] the names [ps] were made for the file [i], where they were
    free, and directories. *)
Record adds (ps : list path) (fs fs' : filesystem) : Prop := {
  ad_names : forall p, fs_names fs' !! p =
    if bool_decide (p ∈ ps) then Some (default i (fs_names fs !! p)) else fs_names fs !! p;
  ad_inodes : fs_inodes fs' = fs_inodes fs;
  ad_dirs : fs_dirs fs ⊆ fs_dirs fs'
}.

Lemma adds_nil fs : adds [] fs fs.
Proof. by split. Qed.

Lemma adds_app ps qs fs fs' fs'' : adds ps fs fs' -> adds qs fs' fs'' -> adds (ps ++ qs) fs fs''.
Proof.
  intros [N1 I1 D1] [N2 I2 D2]. split; [|by rewrite I2 | set_solver]. intros p. rewrite N2, N1.
  destruct (decide (p ∈ ps)), (decide (p ∈ qs)).
  - rewrite !bool_decide_eq_true_2 by set_solver. done.
  - rewrite (bool_decide_eq_false_2 (p ∈ qs)), !bool_decide_eq_true_2 by set_solver. done.
  - rewrite (bool_decide_eq_true_2 (p ∈ qs)), (bool_decide_eq_false_2 (p ∈ ps)), bool_decide_eq_true_2 by set_solver. done.
  - rewrite !bool_decide_eq_false_2 by set_solver. done.
Qed.

Lemma adds_keeps ps fs fs' p j : adds ps fs fs' -> fs_names fs !! p = Some j -> fs_names fs' !! p = Some j.
Proof. intros [N _ _] E. rewrite N, E. by case_bool_decide. Qed.

Lemma mkdir_adds fs p : adds [] fs (mkdir fs p).
Proof. unfold mkdir. case_if; split; cbn; [done | done | set_solver | done | done | done]. Qed.

Lemma link_adds fs old new :
  fs_names fs !! old = Some i -> parent new ∈ fs_dirs fs -> fits new = true -> (new ∉ fs_dirs fs) ->
  adds [new] fs (link fs old new).
Proof.
  intros Ho Hp Hf Hd. unfold link. rewrite Ho. unfold can_create.
  rewrite (bool_decide_eq_true_2 (parent new ∈ _)), Hf, (bool_decide_eq_true_2 (new ∉ _)) by done. cbn [andb].
  case_bool_decide as Hn; (split; cbn; [|done | done]); intros p.
  - case_bool_decide as Hin; [apply list_elem_of_singleton in Hin as ->; by rewrite lookup_insert_eq, Hn|].
    apply not_elem_of_cons in Hin as [Hin _]. by rewrite lookup_insert_ne.
  - case_bool_decide as Hin; [|done]. apply list_elem_of_singleton in Hin as ->. by destruct (fs_names fs !! new).
Qed.

End Adding.

(** * A listing *)

Lemma parent_last p n : last p = Some n -> p = parent p ++ [n].
Proof.
  destruct p as [|x p _] using rev_ind; [done|]. rewrite last_snoc. intros [= ->]. unfold parent.
  rewrite length_app. cbn [length]. by rewrite Nat.add_sub, take_app_length.
Qed.

(** The name of a path in a directory. *)
Definition name_in (d p : path) : option (list Z) := if bool_decide (parent p = d) then last p else None.

Lemma name_in_spec d p n : name_in d p = Some n <-> p = d ++ [n].
Proof.
  unfold name_in. case_bool_decide as H.
  - split; [intros E; rewrite (parent_last p n E) at 1; by rewrite H | intros ->; apply last_snoc].
  - split; [done|]. intros ->. exfalso. apply H. unfold parent. rewrite length_app. cbn [length].
    by rewrite Nat.add_sub, take_app_length.
Qed.

Definition list_dir (fs : filesystem) (d : path) : option (list (list Z)) :=
  if bool_decide (d ∈ fs_dirs fs)
  then Some (omap (name_in d) (elements (fs_dirs fs)) ++ omap (name_in d) (elements (dom (fs_names fs))))
  else None.

Definition any_listing : Listing.
Proof.
  refine {| readdir := list_dir |}. intros fs d. unfold list_dir. case_bool_decide as Hd; [|done]. split; [done|].
  intros n. rewrite elem_of_app, !list_elem_of_omap. setoid_rewrite name_in_spec. setoid_rewrite elem_of_elements.
  rewrite <- elem_of_dom. naive_solver.
Defined.
