(* ===== verification/FsDb.v ===== *)
(** The file backend (keydb/keydb_fs.c) and the reading of key files
    (key-store.c): a key is a file, and the indices by word, subkey and SKS hash
    are hard links to it.

    The lock of a transaction is one on an extra file; no operation looks at
    whether it was got, so the operations here leave it out. *)

From Stdlib Require Import String.
From stdpp Require Import gmap.
From S2P Require Import Prelude CLib OpenPGP Streams Packets Armor Keys KeyId Decode SksHash KeyBuffer Stats Words FileSystem.

(** * Files as streams (charfuncs.c) *)

(** What is left of a file that is read, and what was written to one. *)
Record file_in : Type := mkIn { in_rest : list Z }.
Record file_out : Type := mkOut { out_written : list Z }.

#[global] Instance file_fetchchar : Source file_in := fun f count =>
  Done (mkIn (drop (Z.to_nat count) (in_rest f)), take (Z.to_nat count) (in_rest f), Z.min count (zlen (in_rest f))).

#[global] Instance file_putchar : Sink file_out := fun f c => Done (mkOut (out_written f ++ c)).

(** * Paths *)

(** [strtoull(s, NULL, 16)] for a name of hexadecimal digits. *)
Definition strtoull (s : list Z) : Z :=
  Z.min (2 ^ 64 - 1) (foldl (fun acc c => acc * 16 + hexdigit c) 0 s).

Definition FNV_offset_basis : Z := 2166136261.
Definition FNV_mixing_prime : Z := 16777619.

Definition calchash (word : list Z) : Z :=
  let h := foldl (fun h c => Z.lxor (u32 (h * FNV_mixing_prime)) c) FNV_offset_basis word in
  if h =? 0 then 1 else h.

(** The directory of a 32-bit number below [what]. *)
Definition hashdir (what : list Z) (keyid : Z) : path :=
  [what; hexn 2 (Z.shiftr keyid 24); hexn 2 (Z.shiftr keyid 16); hexn 8 keyid].

Definition keydir (keyid : Z) : path := hashdir (str "key") keyid.
Definition keypath (keyid : Z) : path := keydir keyid ++ [hexn 16 keyid].
Definition worddir (word : list Z) (hash : Z) : path := hashdir (str "words") hash ++ [word].
Definition wordpath (word : list Z) (hash keyid : Z) : path := worddir word hash ++ [hexn 16 keyid].
Definition subkeydir (subkey : Z) : path := hashdir (str "subkeys") subkey.
Definition subkeypath (subkey : Z) : path := subkeydir subkey ++ [hexn 16 subkey].
Definition skshashpath (hash : list Z) : path :=
  [str "skshash"; hex_of_bytes true (take 1 hash); hex_of_bytes true (take 1 (drop 1 hash));
   hex_of_bytes true (take 4 hash); hex_of_bytes true (take 12 (drop 4 hash))].

Definition prove_path_to (fs : filesystem) (keyid : Z) (what : list Z) : filesystem :=
  let d := hashdir what keyid in
  mkdir (mkdir (mkdir (mkdir fs (take 1 d)) (take 2 d)) (take 3 d)) d.

(** * Locking *)

(** [fcntl i] is whether attempt [i] gets the lock. *)
Fixpoint try_lock (fcntl : nat -> bool) (remaining i : nat) : bool :=
  fcntl i || match remaining with O => false | S remaining => try_lock fcntl remaining (S i) end.

Definition fs_starttrans (fcntl : nat -> bool) : bool := try_lock fcntl 20 0.

Section FsDb.
Context {HF : Hashes} {BC : BuildConfig} {LS : Listing}.
Variable malloc_ok : Z -> bool.

(** * Reading *)

Definition onak_read_openpgp_file (fs : filesystem) (file : path) : outcome (onak_status_t * list openpgp_packet) :=
  if bool_decide (file ∈ fs_dirs fs) then Done (ONAK_E_IO_ERROR, [])
  else
    match contents fs file with
    | None => Done (ONAK_E_NOT_FOUND, [])
    | Some [] => Done (ONAK_E_IO_ERROR, [])
    | Some (c :: data) =>
        if negb (Z.land c 0x80 =? 0) then
          '(_, res, packets) ← read_openpgp_stream malloc_ok (S (length (c :: data))) (mkIn (c :: data)) (Some []) 0;
          Done (res, default [] packets)
        else
          '(_, packets) ← dearmor_openpgp_stream (S (length (c :: data))) malloc_ok (mkIn (c :: data)) [];
          Done (ONAK_E_OK, packets)
    end.

(** The keys of a file appended to [publickey], and whether it was read. *)
Definition read_key_file (fs : filesystem) (file : path) (publickey : list openpgp_publickey)
    : outcome (onak_status_t * list openpgp_publickey) :=
  '(res, packets) ← onak_read_openpgp_file fs file;
  if status_ok res then '(publickey, _) ← parse_keys packets publickey; Done (res, publickey)
  else Done (res, publickey).

(** The first name of a directory that does not start with a dot. *)
Definition first_entry (fs : filesystem) (d : path) : Z :=
  match readdir fs d with
  | None => 0
  | Some names =>
      match List.find (fun n => negb (bool_decide (head n = Some 46))) names with
      | Some n => strtoull n
      | None => 0
      end
  end.

Definition fs_getfullkeyid (fs : filesystem) (keyid : Z) : Z :=
  let ret := first_entry fs (keydir keyid) in
  if ret =? 0 then first_entry fs (subkeydir keyid) else ret.

Definition fs_fetch_key_id (fs : filesystem) (keyid : Z) (publickey : list openpgp_publickey)
    : outcome (list openpgp_publickey * Z) :=
  let keyid := if Z.shiftr keyid 32 =? 0 then fs_getfullkeyid fs keyid else keyid in
  '(res, keys) ← read_key_file fs (keypath keyid) publickey;
  '(res, keys) ← (if bool_decide (res = ONAK_E_NOT_FOUND) then read_key_file fs (subkeypath keyid) publickey
                  else Done (res, keys));
  Done (keys, if status_ok res then 1 else 0).

Definition fs_fetch_key_skshash (fs : filesystem) (hash : list Z) (publickey : list openpgp_publickey)
    : outcome (list openpgp_publickey * Z) :=
  '(res, keys) ← read_key_file fs (skshashpath hash) publickey;
  Done (keys, if status_ok res then 1 else 0).

(** * Storing *)

Fixpoint link_words (fs : filesystem) (file : path) (wl : list (list Z)) (keyid : Z) : filesystem :=
  match wl with
  | [] => fs
  | word :: wl =>
      let hash := calchash word in
      let fs := prove_path_to fs hash (str "words") in
      let fs := mkdir fs (worddir word hash) in
      link_words (link fs file (wordpath word hash keyid)) file wl keyid
  end.

Fixpoint link_subkeys (fs : filesystem) (file : path) (subkeyids : list openpgp_fingerprint) : outcome filesystem :=
  match subkeyids with
  | [] => Done fs
  | sub :: subkeyids =>
      if fp_length sub =? 0 then Done fs
      else
        keyid ← fingerprint2keyid sub;
        let fs := prove_path_to fs keyid (str "subkeys") in
        let fs := mkdir fs (subkeydir keyid) in
        link_subkeys (link fs file (subkeypath keyid)) file subkeyids
  end.

(** The number [hash[0] .. hash[3]] stand for. *)
Definition hashid (hash : list Z) : Z := be_value (take 4 hash).

Definition link_indices (fs : filesystem) (file : path) (publickey : openpgp_publickey) (keyid : Z) : outcome filesystem :=
  wordlist ← makewordlistfromkey [] publickey;
  let fs := link_words fs file wordlist keyid in
  subkeyids ← keysubkeys publickey;
  fs ← link_subkeys fs file (default [] subkeyids);
  '(_, hash) ← get_skshash publickey;
  let fs := prove_path_to fs (hashid hash) (str "skshash") in
  Done (link fs file (skshashpath hash)).

Definition fs_store_key (fs : filesystem) (publickey : openpgp_publickey) (update : bool) : outcome (filesystem * Z) :=
  '(rc, keyid) ← get_keyid publickey;
  match rc, keyid with
  | ONAK_E_OK, Some keyid =>
      let fs := prove_path_to fs keyid (str "key") in
      let file := keypath keyid in
      match (if update then open_trunc else open_creat) fs file with
      | None => Done (fs, 0)
      | Some (fs, i) =>
          packets ← flatten_publickey [publickey] [];
          '(f, _) ← write_openpgp_stream (mkOut []) packets;
          fs ← link_indices (write_start fs i (out_written f)) file publickey keyid;
          Done (fs, 1)
      end
  | _, _ => Done (fs, 0)
  end.

(** * Deleting *)

Fixpoint unlink_words (fs : filesystem) (wl : list (list Z)) (keyid : Z) : filesystem :=
  match wl with
  | [] => fs
  | word :: wl =>
      let hash := calchash word in
      unlink_words (unlink (prove_path_to fs hash (str "words")) (wordpath word hash keyid)) wl keyid
  end.

Fixpoint unlink_subkeys (fs : filesystem) (subkeyids : list openpgp_fingerprint) : outcome filesystem :=
  match subkeyids with
  | [] => Done fs
  | sub :: subkeyids =>
      if fp_length sub =? 0 then Done fs
      else
        keyid ← fingerprint2keyid sub;
        unlink_subkeys (unlink (prove_path_to fs keyid (str "subkeys")) (subkeypath keyid)) subkeyids
  end.

(** The links of the key that was found; NULL if the file held none. *)
Definition unlink_indices (fs : filesystem) (pk : list openpgp_publickey) (keyid : Z) : outcome filesystem :=
  match pk with
  | [] => Fault NullDeref
  | pk :: _ =>
      wordlist ← makewordlistfromkey [] pk;
      let fs := unlink_words fs wordlist keyid in
      subkeyids ← keysubkeys pk;
      fs ← unlink_subkeys fs (default [] subkeyids);
      '(_, hash) ← get_skshash pk;
      Done (unlink fs (skshashpath hash))
  end.

Definition fs_delete_key (fs : filesystem) (fp : openpgp_fingerprint) : outcome (filesystem * Z) :=
  keyid ← fingerprint2keyid fp;
  if keyid =? 0 then Done (fs, 1)
  else
    '(pk, ret) ← fs_fetch_key_id fs keyid [];
    fs ← (if ret =? 0 then Done fs else unlink_indices fs pk keyid);
    Done (unlink fs (keypath keyid), 1).

(** * Searching *)

(** The names in the directory of a word, the last one first, those on [mct] if
    there is such a list. *)
Definition internal_get_key_by_word (fs : filesystem) (word : list Z) (mct : option (list (list Z))) : list (list Z) :=
  match readdir fs (worddir word (calchash word)) with
  | None => []
  | Some names =>
      rev (List.filter (fun n => negb (bool_decide (head n = Some 46)) &&
        match mct with None => true | Some l => bool_decide (n ∈ l) end) names)
  end.

(** The keys that are left after the other words; empty as soon as a word has
    none. *)
Fixpoint keys_of_words (fs : filesystem) (wl keylist : list (list Z)) : list (list Z) :=
  match wl, keylist with
  | _, [] => []
  | [], _ => keylist
  | word :: wl, _ => keys_of_words fs wl (internal_get_key_by_word fs word (Some keylist))
  end.

Fixpoint add_keys (fs : filesystem) (keylist : list (list Z)) (maxkeys addedkeys : Z) (publickey : list openpgp_publickey)
    : outcome (list openpgp_publickey * Z) :=
  match keylist with
  | [] => Done (publickey, addedkeys)
  | name :: keylist =>
      '(publickey, n) ← fs_fetch_key_id fs (strtoull name) publickey;
      let addedkeys := addedkeys + n in
      if maxkeys <=? addedkeys then Done (publickey, addedkeys)
      else add_keys fs keylist maxkeys addedkeys publickey
  end.

(** A text without words makes the code read the first element of an empty
    list. *)
Definition fs_fetch_key_text (fs : filesystem) (maxkeys : Z) (search : list Z) (publickey : list openpgp_publickey)
    : outcome (list openpgp_publickey * Z) :=
  wordlist ← makewordlist [] search;
  match wordlist with
  | [] => Fault NullDeref
  | word :: wl =>
      let keylist := keys_of_words fs wl (internal_get_key_by_word fs word None) in
      add_keys fs keylist maxkeys 0 publickey
  end.

End FsDb.
