(* ===== verification/FsDbFacts.v ===== *)
(** The file backend: what storing a key does to the files and links, and that
    what was stored is found by key id, subkey and SKS hash. *)

From Stdlib Require Import String.
From stdpp Require Import gmap.
From S2P Require Import Prelude CLib OpenPGP Streams Packets Armor Keys KeyId Decode SksHash KeyBuffer Stats Words FileSystem FsDb.

(** * Files keep their promises as streams *)

Definition in_file (f : file_in) (bs : list Z) : Prop := in_rest f = bs.
Definition out_file (f : file_out) (bs : list Z) : Prop := out_written f = bs.

#[global] Instance file_delivers : Delivers in_file.
Proof.
  split.
  - intros [r] xs ys E. unfold in_file in E. cbn in E. subst r. exists (mkIn ys). unfold getchar, file_fetchchar. cbn [in_rest].
    rewrite zlen_app, Z.min_l by (pose proof (zlen_nonneg ys); lia). unfold zlen. rewrite Nat2Z.id.
    by rewrite take_app_length, drop_app_length.
  - intros [r] bs n E Hn Hm. unfold in_file in E. cbn in E. subst r. unfold getchar, file_fetchchar. cbn [in_rest].
    pose proof (zlen_nonneg bs). eexists _, _, _. split; [done|]. rewrite Z.min_r by lia. lia.
Qed.

#[global] Instance file_accepts lim : Accepts out_file lim.
Proof. intros [w] xs ys E _ _. unfold out_file in E. cbn in E. subst w. by exists (mkOut (xs ++ ys)). Qed.

(** * The shape of the tree *)

(** The directories are at most four levels deep, five below [words]; the files
    are where the backend puts them. *)
Definition dir_shape (p : path) : Prop := (length p <= 4)%nat \/ length p = 5%nat /\ head p = Some (str "words").
Definition file_shape (p : path) : Prop := length p = 6%nat \/ length p = 5%nat /\ head p <> Some (str "words").

Record layout (fs : filesystem) : Prop := {
  la_root : [] ∈ fs_dirs fs;
  la_dirs : forall p, p ∈ fs_dirs fs -> dir_shape p /\ (p <> [] -> fits p = true);
  la_files : forall p i, fs_names fs !! p = Some i -> file_shape p /\ is_Some (fs_inodes fs !! i)
}.

Lemma shapes_differ p : dir_shape p -> file_shape p -> False.
Proof. intros [?|[? ?]] [?|[? ?]]; (lia || congruence). Qed.

Lemma file_not_dir fs p : layout fs -> file_shape p -> p ∉ fs_dirs fs.
Proof. intros L Hp Hd. apply (la_dirs fs L) in Hd as [Hd _]. by eapply shapes_differ. Qed.

Lemma mkdir_layout fs p :
  layout fs -> dir_shape p -> fits p = true -> parent p ∈ fs_dirs fs ->
  layout (mkdir fs p) /\ p ∈ fs_dirs (mkdir fs p) /\ adds 0 [] fs (mkdir fs p).
Proof.
  intros L Hs Hf Hp. split; [|split; [|apply mkdir_adds]].
  - unfold mkdir. case_if; [|done]. destruct L as [R D F]. split; cbn [fs_dirs fs_names fs_inodes]; [set_solver | | done].
    intros q [->%elem_of_singleton|Hq]%elem_of_union; [done | by apply D].
  - unfold mkdir, can_create. rewrite bool_decide_eq_true_2, Hf by done. cbn [andb].
    case_bool_decide as Hin; cbn [andb]; [|by destruct (decide (p ∈ fs_dirs fs))].
    rewrite bool_decide_eq_true_2; [set_solver|]. destruct (fs_names fs !! p) as [i|] eqn:E; [|done].
    destruct (la_files fs L p i E). exfalso. by eapply shapes_differ.
Qed.

Lemma length_hexn n : forall x, length (hexn n x) = n.
Proof. induction n as [|n IH]; intros x; cbn; [done|]. rewrite length_app, IH. cbn. lia. Qed.

(** Making the directory of a number. *)
Lemma prove_path_layout fs what keyid :
  layout fs -> (length what <= 255)%nat ->
  layout (prove_path_to fs keyid what) /\ hashdir what keyid ∈ fs_dirs (prove_path_to fs keyid what) /\
  adds 0 [] fs (prove_path_to fs keyid what).
Proof.
  intros L Hw. unfold prove_path_to. unfold hashdir. cbn [firstn].
  set (a := hexn 2 (Z.shiftr keyid 24)). set (b := hexn 2 (Z.shiftr keyid 16)). set (c := hexn 8 keyid).
  assert (Hn : length a = 2%nat /\ length b = 2%nat /\ length c = 8%nat) by (unfold a, b, c; by rewrite !length_hexn).
  clearbody a b c.
  destruct (mkdir_layout fs [what]) as (L1 & P1 & A1); [done | by left; cbn; lia | cbn; by apply Nat.leb_le | apply L |].
  destruct (mkdir_layout (mkdir fs [what]) [what; a]) as (L2 & P2 & A2);
    [done | by left; cbn; lia | cbn; apply Nat.leb_le; lia | done |].
  destruct (mkdir_layout (mkdir (mkdir fs [what]) [what; a]) [what; a; b]) as (L3 & P3 & A3);
    [done | by left; cbn; lia | cbn; apply Nat.leb_le; lia | done |].
  destruct (mkdir_layout (mkdir (mkdir (mkdir fs [what]) [what; a]) [what; a; b]) [what; a; b; c]) as (L4 & P4 & A4);
    [done | by left; cbn; lia | cbn; apply Nat.leb_le; lia | done |].
  split; [done|]. split; [done|]. exact (adds_app _ _ _ _ _ _ (adds_app _ _ _ _ _ _ (adds_app _ _ _ _ _ _ A1 A2) A3) A4).
Qed.

(** Names that only directories were added for. *)
Lemma adds_dirs i fs fs' : adds 0 [] fs fs' -> adds i [] fs fs'.
Proof. intros [N I D]. split; [|done | done]. intros p. rewrite N. by rewrite !bool_decide_eq_false_2 by apply not_elem_of_nil. Qed.

Lemma link_layout i fs old new :
  layout fs -> fs_names fs !! old = Some i -> file_shape new -> fits new = true -> parent new ∈ fs_dirs fs ->
  layout (link fs old new) /\ adds i [new] fs (link fs old new).
Proof.
  intros L Ho Hs Hf Hp. split; [|apply link_adds; try done; by apply file_not_dir].
  unfold link. rewrite Ho. case_if; [|done]. destruct L as [R D F]. split; cbn [fs_dirs fs_names fs_inodes]; [done | done |].
  intros p j. destruct (decide (p = new)) as [->|]; [|rewrite lookup_insert_ne by done; apply F].
  rewrite lookup_insert_eq. intros [= <-]. split; [done | by apply (F old i)].
Qed.

(** * Linking *)

(** The links of the words of a key. *)
Definition word_paths (wl : list (list Z)) (keyid : Z) : list path :=
  concat (map (fun w => if (length w <=? 255)%nat then [wordpath w (calchash w) keyid] else []) wl).

Lemma link_words_spec i file keyid wl : forall fs,
  layout fs -> fs_names fs !! file = Some i ->
  layout (link_words fs file wl keyid) /\ adds i (word_paths wl keyid) fs (link_words fs file wl keyid).
Proof.
  induction wl as [|w wl IH]; intros fs L Hf; cbn [link_words]; [by split; [|apply adds_nil]|].
  destruct (prove_path_layout fs (str "words") (calchash w) L) as (L1 & D1 & A1); [cbn; lia|].
  apply (adds_dirs i) in A1. set (fs1 := prove_path_to fs (calchash w) (str "words")) in *.
  pose proof (adds_keeps _ _ _ _ _ _ A1 Hf) as Hf1.
  change (word_paths (w :: wl) keyid) with
    ((if (length w <=? 255)%nat then [wordpath w (calchash w) keyid] else []) ++ word_paths wl keyid).
  destruct (Nat.leb_spec (length w) 255) as [Hw|Hw].
  - destruct (mkdir_layout fs1 (worddir w (calchash w))) as (L2 & D2 & A2);
      [done | by right | cbn; by apply Nat.leb_le | done |]. apply (adds_dirs i) in A2.
    pose proof (adds_keeps _ _ _ _ _ _ A2 Hf1) as Hf2.
    destruct (link_layout i (mkdir fs1 (worddir w (calchash w))) file (wordpath w (calchash w) keyid)) as (L3 & A3);
      [done | done | by left | done | done |].
    destruct (IH _ L3 (adds_keeps _ _ _ _ _ _ A3 Hf2)) as (L4 & A4). split; [done|].
    exact (adds_app _ _ _ _ _ _ (adds_app _ _ _ _ _ _ (adds_app _ _ _ _ _ _ A1 A2) A3) A4).
  - assert (Hlong : fits (worddir w (calchash w)) = false) by (cbn; by apply Nat.leb_gt).
    assert (mkdir fs1 (worddir w (calchash w)) = fs1) as ->.
    { unfold mkdir, can_create. by rewrite Hlong, andb_false_r. }
    assert (link fs1 file (wordpath w (calchash w) keyid) = fs1) as ->.
    { unfold link, can_create. rewrite Hf1, bool_decide_eq_false_2; [done|].
      intros Hd. apply (la_dirs fs1 L1) in Hd as [_ Hd]. specialize (Hd ltac:(done)).
      change (parent (wordpath w (calchash w) keyid)) with (worddir w (calchash w)) in Hd. congruence. }
    destruct (IH fs1 L1 Hf1) as (L4 & A4). split; [done|]. exact (adds_app _ _ _ _ _ _ A1 A4).
Qed.

Lemma mkdir_exists fs p : p ∈ fs_dirs fs -> mkdir fs p = fs.
Proof. intros Hp. unfold mkdir, can_create. rewrite (bool_decide_eq_false_2 (p ∉ _)) by (intros H; by apply H). by rewrite andb_false_r. Qed.

(** The key ids of the subkeys in front of the terminator. *)
Inductive live_ids : list openpgp_fingerprint -> list Z -> Prop :=
  | ids_nil : live_ids [] []
  | ids_end sub l : fp_length sub = 0 -> live_ids (sub :: l) []
  | ids_cons sub l keyid ids : fp_length sub <> 0 -> fingerprint2keyid sub = Done keyid -> live_ids l ids ->
      live_ids (sub :: l) (keyid :: ids).

Lemma link_subkeys_spec i file subs ids : live_ids subs ids -> forall fs,
  layout fs -> fs_names fs !! file = Some i ->
  exists fs', link_subkeys fs file subs = Done fs' /\ layout fs' /\ adds i (map subkeypath ids) fs fs'.
Proof.
  induction 1 as [|sub l Hl|sub l keyid ids Hl Hk _ IH]; intros fs L Hf; cbn [link_subkeys].
  - exists fs. by split; [|split; [|apply adds_nil]].
  - rewrite Hl. exists fs. by split; [|split; [|apply adds_nil]].
  - destruct (Z.eqb_spec (fp_length sub) 0); [done|]. rewrite Hk. cbn [mbind outcome_bind].
    destruct (prove_path_layout fs (str "subkeys") keyid L) as (L1 & D1 & A1); [cbn; lia|]. apply (adds_dirs i) in A1.
    rewrite mkdir_exists by done. pose proof (adds_keeps _ _ _ _ _ _ A1 Hf) as Hf1.
    destruct (link_layout i _ file (subkeypath keyid) L1 Hf1) as (L3 & A3); [by right | done | done |].
    destruct (IH _ L3 (adds_keeps _ _ _ _ _ _ A3 Hf1)) as (fs' & E & L4 & A4). exists fs'. split; [done|]. split; [done|].
    exact (adds_app _ _ _ _ _ _ (adds_app _ _ _ _ _ _ A1 A3) A4).
Qed.

(** * The directory of an SKS hash *)

Lemma hexn_byte n x b : byte b -> hexn (S (S n)) (x * 256 + b) = hexn n x ++ hex_of_bytes true [b].
Proof.
  intros Hb. unfold byte in Hb. cbn [hexn]. rewrite <- app_assoc. cbn [app].
  replace ((x * 256 + b) / 16 / 16) with x by (Z.div_mod_to_equations; lia).
  unfold hex_of_bytes. cbn [map concat app].
  replace ((x * 256 + b) / 16 mod 16) with (b / 16) by (Z.div_mod_to_equations; lia).
  replace ((x * 256 + b) mod 16) with (b mod 16) by (Z.div_mod_to_equations; lia). done.
Qed.

Lemma hex_of_bytes_app a b : hex_of_bytes true (a ++ b) = hex_of_bytes true a ++ hex_of_bytes true b.
Proof. unfold hex_of_bytes. by rewrite map_app, concat_app. Qed.

Lemma skshash_parent hash : Forall byte hash -> (4 <= length hash)%nat ->
  parent (skshashpath hash) = hashdir (str "skshash") (hashid hash).
Proof.
  intros Hb Hl. destruct hash as [|a [|b [|c [|d t]]]]; try (cbn in Hl; lia).
  repeat (apply Forall_cons in Hb as [? Hb]). unfold skshashpath, hashdir, hashid, parent, be_value.
  cbn [length Nat.sub firstn drop]. rewrite take_0. cbn [foldl]. rewrite !Z.shiftr_div_pow2 by lia.
  assert (E1 : ((((0 * 256 + a) * 256 + b) * 256 + c) * 256 + d) / 2 ^ 24 = 0 * 256 + a) by (unfold byte in *; Z.div_mod_to_equations; lia).
  assert (E2 : ((((0 * 256 + a) * 256 + b) * 256 + c) * 256 + d) / 2 ^ 16 = (0 * 256 + a) * 256 + b) by (unfold byte in *; Z.div_mod_to_equations; lia).
  rewrite E1, E2, !hexn_byte by done.
  change ([a; b; c; d]) with (((([] ++ [a]) ++ [b]) ++ [c]) ++ [d]). rewrite !hex_of_bytes_app. done.
Qed.

(** * Storing a key *)

Section StoreKey.
Context {HF : Hashes} {BC : BuildConfig} {LS : Listing}.
Variable malloc_ok : Z -> bool.

(** What the backend computes from a key. *)
Record fs_facts (key : openpgp_publickey) (keyid : Z) (words : list (list Z)) (ids hash : list Z) : Prop := {
  ff_keyid : get_keyid key = Done (ONAK_E_OK, Some keyid);
  ff_words : makewordlistfromkey [] key = Done words;
  ff_subs : exists subs, keysubkeys key = Done subs /\ live_ids (default [] subs) ids;
  ff_hash : get_skshash key = Done (ONAK_E_OK, hash);
  ff_storable : storable malloc_ok [key]
}.

(** The names a key gets. *)
Definition key_paths (keyid : Z) (words : list (list Z)) (ids hash : list Z) : list path :=
  word_paths words keyid ++ map subkeypath ids ++ [skshashpath hash].

Lemma skshash_bytes key hash :
  get_skshash key = Done (ONAK_E_OK, hash) -> Forall byte hash /\ length hash = 16%nat.
Proof.
  unfold get_skshash. intros E. inv_done. split; [apply hash_bytes|].
  pose proof (hash_size OPENPGP_HASH_MD5 x1) as Hs. unfold zlen in Hs. cbn in Hs. lia.
Qed.

Lemma link_indices_spec i fs key keyid words ids hash :
  fs_facts key keyid words ids hash -> layout fs -> fs_names fs !! keypath keyid = Some i ->
  exists fs', link_indices fs (keypath keyid) key keyid = Done fs' /\ layout fs' /\
    adds i (key_paths keyid words ids hash) fs fs'.
Proof.
  intros [_ Hw (subs & Hs & Hids) Hh _] L Hf. unfold link_indices. rewrite Hw. cbn [mbind outcome_bind].
  destruct (link_words_spec i (keypath keyid) keyid words fs L Hf) as (L1 & A1). rewrite Hs. cbn [mbind outcome_bind].
  pose proof (adds_keeps _ _ _ _ _ _ A1 Hf) as Hf1.
  destruct (link_subkeys_spec i (keypath keyid) _ ids Hids _ L1 Hf1) as (fs2 & -> & L2 & A2). cbn [mbind outcome_bind].
  pose proof (adds_keeps _ _ _ _ _ _ A2 Hf1) as Hf2. rewrite Hh. cbn [mbind outcome_bind].
  destruct (skshash_bytes key hash Hh) as [Hb Hl].
  destruct (prove_path_layout fs2 (str "skshash") (hashid hash) L2) as (L3 & D3 & A3); [cbn; lia|].
  apply (adds_dirs i) in A3. pose proof (adds_keeps _ _ _ _ _ _ A3 Hf2) as Hf3.
  destruct (link_layout i _ (keypath keyid) (skshashpath hash) L3 Hf3) as (L4 & A4); [by right | | by rewrite skshash_parent by (done || lia) |].
  { unfold fits, skshashpath. cbn [last]. apply Nat.leb_le. pose proof (zlen_hex true (take 12 (drop 4 hash))) as Hz.
    unfold zlen in Hz. rewrite length_take, length_drop in Hz. lia. }
  eexists. split; [done|]. split; [done|]. unfold key_paths.
  exact (adds_app _ _ _ _ _ _ A1 (adds_app _ _ _ _ _ _ A2 (adds_app _ _ _ _ _ _ A3 A4))).
Qed.

(** Opening the file of a key. *)
Lemma open_spec (update : bool) fs keyid :
  layout fs -> keydir keyid ∈ fs_dirs fs -> (update = true -> is_Some (fs_names fs !! keypath keyid)) ->
  exists fs' i, (if update then open_trunc else open_creat) fs (keypath keyid) = Some (fs', i) /\ layout fs' /\
    fs_names fs' = <[keypath keyid := i]> (fs_names fs) /\
    fs_inodes fs' = <[i := if update then [] else default [] (contents fs (keypath keyid))]> (fs_inodes fs) /\
    match fs_names fs !! keypath keyid with Some j => i = j | None => fs_inodes fs !! i = None end.
Proof.
  intros L Hd Hu. set (p := keypath keyid) in *. unfold contents.
  destruct (fs_names fs !! p) as [i|] eqn:E.
  - destruct (la_files fs L p i E) as [Hs [c Hc]]. cbn [mbind option_bind]. rewrite Hc. cbn [default]. destruct update.
    + unfold open_trunc. rewrite E. cbn. eexists _, i. split; [done|]. cbn [fs_names fs_inodes fs_dirs].
      split; [|split; [by rewrite insert_id | done]]. destruct L as [R D F]. split; [done | done|]. cbn. intros q j Hq. destruct (F q j Hq) as [Hqs Hqi]. split; [done|].
      destruct (decide (i = j)) as [<-|]; [by rewrite lookup_insert_eq | by rewrite lookup_insert_ne].
    + unfold open_creat. rewrite E. exists fs, i. split; [done|]. split; [done|]. by rewrite !insert_id.
  - destruct update; [by destruct (Hu eq_refl)|]. unfold open_creat. rewrite E.
    assert (can_create fs p = true) as ->.
    { unfold can_create. rewrite !bool_decide_eq_true_2; [done | done | by apply file_not_dir; [|right] | done]. }
    set (i := fresh (dom (fs_inodes fs))). assert (Hi : fs_inodes fs !! i = None)
      by (apply not_elem_of_dom, is_fresh). eexists _, i. split; [done|]. cbn. split; [|done].
    destruct L as [R D F]. split; [done | done|]. cbn. intros q j. destruct (decide (q = p)) as [->|Hq].
    + rewrite lookup_insert_eq. intros [= <-]. split; [by right | by rewrite lookup_insert_eq].
    + rewrite lookup_insert_ne by done. intros Hj. destruct (F q j Hj) as [Hqs Hqi]. split; [done|].
      destruct (decide (i = j)) as [<-|]; [by rewrite lookup_insert_eq | by rewrite lookup_insert_ne].
Qed.

Lemma write_layout fs i data : layout fs -> layout (write_start fs i data).
Proof.
  intros [R D F]. split; [done | done|]. cbn. intros p j Hj. destruct (F p j Hj) as [Hs Hi]. split; [done|].
  by apply lookup_alter_is_Some.
Qed.

(** The octets of a key in its file. *)
Definition key_octets (key : openpgp_publickey) : list Z := encode_packets (keys_packets [key]).

Lemma write_key key : storable malloc_ok [key] ->
  (packets ← flatten_publickey [key] []; write_openpgp_stream (mkOut []) packets) = Done (mkOut (key_octets key), ONAK_E_OK).
Proof.
  intros S. rewrite flatten_publickey_wf by apply S. cbn [mbind outcome_bind app].
  destruct (write_spec (W := out_file) (lim := 2 ^ 62) (keys_packets [key]) (mkOut []) []) as ([w] & E & Hw);
    [done | apply S | rewrite zlen_nil; pose proof (storable_size _ _ S); lia |].
  unfold out_file in Hw. cbn in Hw. subst w. exact E.
Qed.

Lemma fs_store_key_runs fs key keyid words ids hash (update : bool) :
  fs_facts key keyid words ids hash -> layout fs ->
  (update = true -> is_Some (fs_names fs !! keypath keyid)) ->
  let octets := key_octets key in
  let old := if update then [] else default [] (contents fs (keypath keyid)) in
  exists fs' i, fs_store_key fs key update = Done (fs', 1) /\ layout fs' /\
    fs_inodes fs' = <[i := octets ++ drop (length octets) old]> (fs_inodes fs) /\
    (forall p, fs_names fs' !! p =
       if bool_decide (p ∈ keypath keyid :: key_paths keyid words ids hash) then Some (default i (fs_names fs !! p))
       else fs_names fs !! p) /\
    match fs_names fs !! keypath keyid with Some j => i = j | None => fs_inodes fs !! i = None end.
Proof.
  intros Hk L Hu octets old. pose proof Hk as [Hid _ _ _ Hst]. unfold fs_store_key. rewrite Hid. cbn [mbind outcome_bind].
  destruct (prove_path_layout fs (str "key") keyid L) as (L1 & D1 & A1); [cbn; lia|].
  set (fs1 := prove_path_to fs keyid (str "key")) in *.
  assert (N1 : forall p, fs_names fs1 !! p = fs_names fs !! p)
    by (intros p; rewrite (ad_names _ _ _ _ A1); by rewrite bool_decide_eq_false_2 by apply not_elem_of_nil).
  destruct (open_spec update fs1 keyid L1 D1) as (fs2 & i & -> & L2 & N2 & I2 & Hi); [by rewrite N1|].
  pose proof (write_key key Hst) as Ew. destruct (flatten_publickey [key] []) as [ps|]; cbn [mbind outcome_bind] in Ew |- *; [|discriminate Ew].
  rewrite Ew. cbn [mbind outcome_bind out_written]. fold octets.
  destruct (link_indices_spec i (write_start fs2 i octets) key keyid words ids hash Hk) as (fs3 & -> & L3 & A3);
    [by apply write_layout | cbn; by rewrite N2, lookup_insert_eq |].
  cbn [mbind outcome_bind]. exists fs3, i. split; [done|]. split; [done|]. split; [|split].
  - rewrite (ad_inodes _ _ _ _ A3). cbn. rewrite I2, (ad_inodes _ _ _ _ A1).
    rewrite alter_insert_eq. unfold old, contents. by rewrite N1, (ad_inodes _ _ _ _ A1).
  - intros p. rewrite (ad_names _ _ _ _ A3). cbn [fs_names write_start]. rewrite N2, <- (N1 p).
    destruct (decide (p = keypath keyid)) as [->|Hne].
    + rewrite lookup_insert_eq, (bool_decide_eq_true_2 (_ ∈ _ :: _)) by (by left).
      rewrite N1 in *. destruct (fs_names fs !! keypath keyid) as [j|]; [subst j|]; by case_bool_decide.
    + rewrite lookup_insert_ne by done. case_bool_decide as Hin.
      * by rewrite bool_decide_eq_true_2 by (by right).
      * rewrite bool_decide_eq_false_2; [done|]. intros [E|E]%elem_of_cons; [exact (Hne E) | exact (Hin E)].
  - rewrite N1, (ad_inodes _ _ _ _ A1) in Hi. exact Hi.
Qed.

(** Storing a key in the file backend, in a tree of files it made: the key's
    file -- the one that was there or a new one -- starts with the octets of the
    key, followed by what an old file had behind them unless it is an update;
    the key gets the names for its words, subkeys and SKS hash, where they are
    free; no other file and no other name changes, in particular not the names
    for words the key had before. *)
Theorem fs_store_key_correct fs key keyid words ids hash (update : bool) :
  fs_facts key keyid words ids hash -> layout fs ->
  (update = true -> is_Some (fs_names fs !! keypath keyid)) ->
  let octets := key_octets key in
  let old := if update then [] else default [] (contents fs (keypath keyid)) in
  exists fs' i, fs_store_key fs key update = Done (fs', 1) /\ layout fs' /\
    fs_inodes fs' = <[i := octets ++ drop (length octets) old]> (fs_inodes fs) /\
    (forall p, fs_names fs' !! p =
       if bool_decide (p ∈ keypath keyid :: key_paths keyid words ids hash) then Some (default i (fs_names fs !! p))
       else fs_names fs !! p) /\
    match fs_names fs !! keypath keyid with Some j => i = j | None => fs_inodes fs !! i = None end.
Proof. apply fs_store_key_runs. Qed.

(** * Finding a key *)

Lemma tag_octet_high p : encodable p -> negb (Z.land (tag_octet p) 0x80 =? 0) = true.
Proof.
  intros H. destruct (tag_octet_decode malloc_ok p H) as (H7 & _). apply negb_true_iff, Z.eqb_neq. intros E.
  pose proof (f_equal (fun z => Z.testbit z 7) E) as T. cbn beta in T. change 0x80 with (2 ^ 7) in T.
  rewrite Z.land_spec, H7, Z.pow2_bits_true, Z.bits_0 in T by lia. discriminate T.
Qed.

Lemma read_key_file_ok fs p key prev :
  storable malloc_ok [key] -> contents fs p = Some (key_octets key) -> (p ∉ fs_dirs fs) ->
  read_key_file malloc_ok fs p prev = Done (ONAK_E_OK, prev ++ [reparsed key]).
Proof.
  intros S Hc Hd. unfold read_key_file, onak_read_openpgp_file. rewrite bool_decide_eq_false_2, Hc by done.
  pose proof (storable_encodable _ _ S) as He. pose proof (encode_packets_count (keys_packets [key])) as Hn.
  assert (exists q qs, keys_packets [key] = q :: qs) as (q & qs & Eq) by (by eexists _, _).
  destruct (read_stream_spec (R := in_file) malloc_ok (keys_packets [key]) (mkIn (key_octets key))
    (Datatypes.S (length (key_octets key))) []) as (s' & Er); try apply S; [done | unfold key_octets; lia |].
  assert (Ho : key_octets key = tag_octet q :: (length_octets q ++ pkt_data q) ++ encode_packets qs)
    by (unfold key_octets; by rewrite Eq, encode_packets_cons).
  rewrite Ho in *. rewrite Eq in He. apply Forall_cons in He as [Hq _]. rewrite tag_octet_high by done.
  rewrite Er. cbn [mbind outcome_bind default status_ok app id]. by rewrite parse_keys_append by apply S.
Qed.

Lemma read_key_file_missing fs p prev :
  fs_names fs !! p = None -> (p ∉ fs_dirs fs) -> read_key_file malloc_ok fs p prev = Done (ONAK_E_NOT_FOUND, prev).
Proof.
  intros Hn Hd. unfold read_key_file, onak_read_openpgp_file, contents. by rewrite bool_decide_eq_false_2, Hn by done.
Qed.

Lemma fetch_id_found fs id p key prev :
  storable malloc_ok [key] -> layout fs -> 2 ^ 32 <= id ->
  (p = keypath id \/ p = subkeypath id /\ fs_names fs !! keypath id = None) -> contents fs p = Some (key_octets key) ->
  fs_fetch_key_id malloc_ok fs id prev = Done (prev ++ [reparsed key], 1).
Proof.
  intros S L Hid Hp Hc. unfold fs_fetch_key_id. rewrite Z.shiftr_div_pow2 by lia.
  assert (0 < id / 2 ^ 32) by (apply Z.div_str_pos; lia). destruct (Z.eqb_spec (id / 2 ^ 32) 0); [lia|].
  assert (Hdir : keypath id ∉ fs_dirs fs) by (apply file_not_dir; [done | by right]).
  destruct Hp as [-> | [-> Hn]].
  - rewrite (read_key_file_ok _ _ _ _ S Hc Hdir). done.
  - rewrite (read_key_file_missing fs (keypath id)) by done. cbn [mbind outcome_bind]. rewrite bool_decide_eq_true_2 by done.
    rewrite (read_key_file_ok _ (subkeypath id) _ _ S Hc); [done|]. apply file_not_dir; [done | by right].
Qed.

(** * Paths of different keys *)

Lemma hexn_inj n : forall x y, 0 <= x < 16 ^ Z.of_nat n -> 0 <= y < 16 ^ Z.of_nat n -> hexn n x = hexn n y -> x = y.
Proof.
  induction n as [|n IH]; intros x y Hx Hy E; [change (16 ^ Z.of_nat 0) with 1 in *; lia|].
  rewrite Nat2Z.inj_succ, Z.pow_succ_r in Hx, Hy by lia. cbn [hexn] in E. apply app_inj_tail in E as [E1 E2].
  apply (f_equal hexdigit) in E2. rewrite !hexdigit_hex_digit in E2 by (apply Z.mod_pos_bound; lia).
  apply IH in E1; [|split; [apply Z.div_pos | apply Z.div_lt_upper_bound]; lia..].
  pose proof (Z.div_mod x 16). pose proof (Z.div_mod y 16). lia.
Qed.

Definition id64 (x : Z) : Prop := 0 <= x < 2 ^ 64.

Lemma hexn_16_inj x y : id64 x -> id64 y -> hexn 16 x = hexn 16 y -> x = y.
Proof. apply (hexn_inj 16). Qed.

Lemma word_paths_in p wl keyid : p ∈ word_paths wl keyid -> exists w, p = wordpath w (calchash w) keyid.
Proof.
  induction wl as [|w wl IH]; [by intros ?%not_elem_of_nil|]. unfold word_paths. cbn [map concat].
  intros [H|H]%elem_of_app; [|by apply IH]. destruct (length w <=? 255)%nat; [apply list_elem_of_singleton in H; eauto | by apply not_elem_of_nil in H].
Qed.

(** The names of a key other than its file. *)
Lemma key_paths_head keyid words ids hash p :
  p ∈ key_paths keyid words ids hash -> head p <> Some (str "key").
Proof.
  unfold key_paths. rewrite !elem_of_app, list_elem_of_fmap, list_elem_of_singleton.
  by intros [(w & ->)%word_paths_in|[(x & -> & _)| ->]].
Qed.

Lemma subkeypath_in keyid words ids hash id :
  id64 id -> Forall id64 ids -> subkeypath id ∈ key_paths keyid words ids hash -> id ∈ ids.
Proof.
  intros Hid Hids. unfold key_paths. rewrite !elem_of_app, list_elem_of_fmap, list_elem_of_singleton.
  intros [(w & E)%word_paths_in|[(x & E & Hx)|E]]; [done | | done].
  assert (id = x) as ->; [|done]. apply hexn_16_inj; [done | rewrite Forall_forall in Hids; by apply Hids|].
  apply (f_equal last) in E. unfold subkeypath in E. rewrite !last_snoc in E. exact (inj Some _ _ E).
Qed.

(** Other names are untouched by a new file and its links. *)
Lemma contents_other fs fs' i octets (ps : list path) p :
  layout fs -> fs_inodes fs !! i = None -> fs_inodes fs' = <[i := octets]> (fs_inodes fs) ->
  (forall q, fs_names fs' !! q = if bool_decide (q ∈ ps) then Some (default i (fs_names fs !! q)) else fs_names fs !! q) ->
  (p ∉ ps) -> contents fs' p = contents fs p.
Proof.
  intros L Hi HI HN Hp. unfold contents. rewrite HN, bool_decide_eq_false_2 by done.
  destruct (fs_names fs !! p) as [j|] eqn:E; [|done]. cbn [mbind option_bind]. rewrite HI, lookup_insert_ne; [done|].
  intros <-. destruct (la_files fs L p i E) as [_ [c Hc]]. congruence.
Qed.

Lemma read_key_file_same fs fs' p prev :
  layout fs -> layout fs' -> file_shape p -> contents fs' p = contents fs p ->
  read_key_file malloc_ok fs' p prev = read_key_file malloc_ok fs p prev.
Proof.
  intros L L' Hs Hc. unfold read_key_file, onak_read_openpgp_file. rewrite Hc.
  by rewrite !bool_decide_eq_false_2 by (by apply file_not_dir).
Qed.

(** C17: a new key that was stored in the file backend is found by its key id, by
    the key ids of its subkeys and by its SKS hash, where these names were free,
    and every other key id finds what it found before. *)
Theorem fs_store_fetch fs key keyid words ids hash :
  fs_facts key keyid words ids hash -> layout fs -> fs_names fs !! keypath keyid = None ->
  2 ^ 32 <= keyid -> id64 keyid -> Forall id64 ids ->
  exists fs', fs_store_key fs key false = Done (fs', 1) /\ layout fs' /\
    fs_fetch_key_id malloc_ok fs' keyid [] = Done ([reparsed key], 1) /\
    (fs_names fs !! skshashpath hash = None ->
       fs_fetch_key_skshash malloc_ok fs' hash [] = Done ([reparsed key], 1)) /\
    (forall id, id ∈ ids -> 2 ^ 32 <= id -> id <> keyid -> fs_names fs !! keypath id = None ->
       fs_names fs !! subkeypath id = None -> fs_fetch_key_id malloc_ok fs' id [] = Done ([reparsed key], 1)) /\
    (forall id, id64 id -> 2 ^ 32 <= id -> id <> keyid -> (id ∉ ids) ->
       fs_fetch_key_id malloc_ok fs' id [] = fs_fetch_key_id malloc_ok fs id []).
Proof.
  intros Hk L Hnew Hbig H64 Hids. pose proof (ff_storable _ _ _ _ _ Hk) as S.
  destruct (fs_store_key_runs fs key keyid words ids hash false Hk L ltac:(done)) as (fs' & i & E & L' & HI & HN & Hi).
  rewrite Hnew in Hi. assert (Hc0 : contents fs (keypath keyid) = None) by (unfold contents; by rewrite Hnew).
  rewrite Hc0 in HI. cbn [default] in HI. rewrite drop_nil, app_nil_r in HI.
  assert (Hnewc : forall p, p ∈ keypath keyid :: key_paths keyid words ids hash -> fs_names fs !! p = None ->
    contents fs' p = Some (key_octets key)).
  { intros p Hp Hf. unfold contents. rewrite HN, bool_decide_eq_true_2, Hf by done. cbn [default mbind option_bind].
    by rewrite HI, lookup_insert_eq. }
  assert (Hkp : forall id, id64 id -> id <> keyid -> keypath id ∉ keypath keyid :: key_paths keyid words ids hash).
  { intros id Hid Hne. rewrite not_elem_of_cons. split; [|intros H; by apply key_paths_head in H].
    intros Hp. apply Hne, hexn_16_inj; [done | done |]. apply (f_equal last) in Hp. unfold keypath in Hp.
    rewrite !last_snoc in Hp. exact (inj Some _ _ Hp). }
  exists fs'. split; [done|]. split; [done|]. split; [|split; [|split]].
  - apply (fetch_id_found fs' keyid (keypath keyid) key []); [done | done | done | by left | apply Hnewc; [by left | done]].
  - intros Hf. unfold fs_fetch_key_skshash. rewrite (read_key_file_ok fs' _ key [] S); [done | |].
    + apply Hnewc; [|done]. right. unfold key_paths. rewrite !elem_of_app. right. right. by left.
    + apply file_not_dir; [done | by right].
  - intros id Hin Hid Hne Hf1 Hf2. rewrite Forall_forall in Hids.
    apply (fetch_id_found fs' id (subkeypath id) key []); [done | done | done | right; split; [done|] | apply Hnewc; [|done]].
    + rewrite HN, bool_decide_eq_false_2; [done|]. by apply Hkp; [apply Hids|].
    + right. unfold key_paths. rewrite !elem_of_app. right. left. apply list_elem_of_fmap. eauto.
  - intros id Hid Hbig' Hne Hnin. unfold fs_fetch_key_id. rewrite Z.shiftr_div_pow2 by lia.
    assert (0 < id / 2 ^ 32) by (apply Z.div_str_pos; lia). destruct (Z.eqb_spec (id / 2 ^ 32) 0); [lia|].
    rewrite (read_key_file_same fs fs' (keypath id)), (read_key_file_same fs fs' (subkeypath id)); try done; try (by right).
    + eapply contents_other; [done | done | exact HI | exact HN |]. rewrite not_elem_of_cons. split; [done|].
      intros Hin. by apply Hnin, (subkeypath_in _ _ _ _ _ Hid Hids Hin).
    + eapply contents_other; [done | done | exact HI | exact HN |]. by apply Hkp.
Qed.

End StoreKey.
