(* ===== verification/FileDb.v ===== *)
(** The flat file backend (keydb/keydb_file.c): one file per key, named after the
    low half of the key id. *)

From Stdlib Require Import String.
From stdpp Require Import gmap.
From S2P Require Import Prelude CLib OpenPGP Streams Packets Armor Keys KeyId Decode SksHash KeyBuffer Stats Words FileSystem FsDb.
From S2P Require Import FsDbFacts.

(** * Operations *)

(** ["%X"]: no zeros in front, but at least one digit. *)
Fixpoint skip_zeros (s : list Z) : list Z :=
  match s with
  | [c] => [c]
  | c :: rest => if c =? 48 then skip_zeros rest else s
  | [] => []
  end.

Definition keyfile (keyid : Z) : path := [str "0x" ++ skip_zeros (hexn 8 (Z.land keyid 0xFFFFFFFF))].

(** [open(p, O_WRONLY | O_CREAT | O_TRUNC)] *)
Definition open_new (fs : filesystem) (p : path) : option (filesystem * nat) :=
  '(fs, i) ← open_creat fs p;
  Some (mkFs (fs_names fs) (<[i := []]> (fs_inodes fs)) (fs_dirs fs), i).

Section FileDb.
Context {HF : Hashes} {BC : BuildConfig}.
Variable malloc_ok : Z -> bool.

Definition file_fetch_key_id (fs : filesystem) (keyid : Z) (publickey : list openpgp_publickey)
    : outcome (list openpgp_publickey * Z) :=
  '(res, keys) ← read_key_file malloc_ok fs (keyfile keyid) publickey;
  Done (keys, if status_ok res then 1 else 0).

Definition file_store_key (fs : filesystem) (publickey : openpgp_publickey) : outcome (filesystem * Z) :=
  '(rc, keyid) ← get_keyid publickey;
  match rc, keyid with
  | ONAK_E_OK, Some keyid =>
      match open_new fs (keyfile keyid) with
      | None => Done (fs, 0)
      | Some (fs, i) =>
          packets ← flatten_publickey [publickey] [];
          '(f, _) ← write_openpgp_stream (mkOut []) packets;
          Done (write_start fs i (out_written f), 1)
      end
  | _, _ => Done (fs, 0)
  end.

(** 0 if there was a file to unlink. *)
Definition file_delete_key (fs : filesystem) (fp : openpgp_fingerprint) : outcome (filesystem * Z) :=
  keyid ← fingerprint2keyid fp;
  let p := keyfile keyid in
  Done (unlink fs p, match fs_names fs !! p with Some _ => 0 | None => -1 end).

(** What [iterfunc] is called with, and the number of files. *)
Fixpoint iterate_files (fs : filesystem) (names : list (list Z)) (numkeys : Z)
    : outcome (list (list openpgp_publickey) * Z) :=
  match names with
  | [] => Done ([], numkeys)
  | name :: names =>
      if starts (str "0x") name then
        '(res, keys) ← read_key_file malloc_ok fs [name] [];
        '(rest, numkeys) ← iterate_files fs names (numkeys + 1);
        Done (if status_ok res then keys :: rest else rest, numkeys)
      else iterate_files fs names numkeys
  end.

Definition file_iterate_keys {LS : Listing} (fs : filesystem) : outcome (list (list openpgp_publickey) * Z) :=
  match readdir fs [] with
  | None => Done ([], 0)
  | Some names => iterate_files fs names 0
  end.

(** * The file of a key *)

(** Files in the directory itself, no directories, and no links. *)
Record flat (fs : filesystem) : Prop := {
  fl_dirs : fs_dirs fs = {[ [] ]};
  fl_inodes : forall p i, fs_names fs !! p = Some i -> is_Some (fs_inodes fs !! i);
  fl_single : forall p q i, fs_names fs !! p = Some i -> fs_names fs !! q = Some i -> p = q
}.

Lemma length_skip_zeros s : (length (skip_zeros s) <= length s)%nat.
Proof.
  induction s as [|c s IH]; [done|]. cbn [skip_zeros]. destruct s as [|d s]; [done|]. case_if; cbn [length] in *; lia.
Qed.

Lemma keyfile_create fs keyid : flat fs -> fs_names fs !! keyfile keyid = None -> can_create fs (keyfile keyid) = true.
Proof.
  intros F Hn. unfold can_create. rewrite (fl_dirs fs F). rewrite !bool_decide_eq_true_2; [|done | set_solver | set_solver].
  rewrite andb_true_r. cbn [andb]. unfold fits, keyfile. cbn [last]. rewrite andb_true_r. apply Nat.leb_le. rewrite length_app.
  pose proof (length_skip_zeros (hexn 8 (Z.land keyid 0xFFFFFFFF))) as H. rewrite length_hexn in H.
  change (length (str "0x")) with 2%nat. lia.
Qed.

(** The file is the old one, emptied, or a new one. *)
Lemma open_new_spec fs keyid :
  flat fs -> exists fs' i, open_new fs (keyfile keyid) = Some (fs', i) /\ flat fs' /\
    fs_names fs' = <[keyfile keyid := i]> (fs_names fs) /\ fs_inodes fs' = <[i := []]> (fs_inodes fs) /\
    forall p, fs_names fs !! p = Some i -> p = keyfile keyid.
Proof.
  intros F. pose proof F as [FD FI FS]. unfold open_new, open_creat. destruct (fs_names fs !! keyfile keyid) as [i|] eqn:E.
  - cbn [mbind option_bind]. eexists _, i. split; [done|]. cbn [fs_names fs_inodes fs_dirs].
    split; [|split; [by rewrite insert_id | split; [done | eauto]]].
    split; cbn; [done | | done]. intros q j Hj. destruct (decide (i = j)) as [<-|];
      [by rewrite lookup_insert_eq | rewrite lookup_insert_ne by done; by eapply FI].
  - rewrite keyfile_create by done. set (i := fresh (dom (fs_inodes fs))).
    assert (Hi : fs_inodes fs !! i = None) by (apply not_elem_of_dom, is_fresh).
    assert (Hfree : forall p, fs_names fs !! p = Some i -> False) by (intros p H; destruct (FI p i H); congruence).
    cbn [mbind option_bind]. eexists _, i. split; [done|]. cbn [fs_names fs_inodes fs_dirs]. rewrite insert_insert_eq. split; [|split; [done | split; [done | naive_solver]]].
    split; cbn [fs_names fs_inodes fs_dirs]; [done | |].
    + intros q j. destruct (decide (i = j)) as [<-|Hij]; [by rewrite lookup_insert_eq|].
      rewrite (lookup_insert_ne (fs_inodes fs)) by done.
      destruct (decide (keyfile keyid = q)) as [<-|]; [rewrite lookup_insert_eq; congruence|].
      rewrite lookup_insert_ne by done. apply FI.
    + intros p q j. destruct (decide (keyfile keyid = p)) as [<-|], (decide (keyfile keyid = q)) as [<-|]; [done | | |];
        rewrite ?lookup_insert_eq, ?lookup_insert_ne by done; [intros [= <-] H | intros H [= <-] |]; [naive_solver..|apply FS].
Qed.

(** The number a name stands for. *)
Definition hexval (s : list Z) : Z := foldl (fun acc c => acc * 16 + hexdigit c) 0 s.

Lemma hexval_hexn n : forall x, 0 <= x < 16 ^ Z.of_nat n -> hexval (hexn n x) = x.
Proof.
  induction n as [|n IH]; intros x Hx; [change (16 ^ Z.of_nat 0) with 1 in Hx; cbn; lia|].
  rewrite Nat2Z.inj_succ, Z.pow_succ_r in Hx by lia. unfold hexval in *. cbn [hexn]. rewrite foldl_app_end, IH.
  - rewrite hexdigit_hex_digit by (apply Z.mod_pos_bound; lia). pose proof (Z.div_mod x 16). lia.
  - split; [apply Z.div_pos | apply Z.div_lt_upper_bound]; lia.
Qed.

Lemma hexval_skip s : hexval (skip_zeros s) = hexval s.
Proof.
  induction s as [|c s IH]; [done|]. cbn [skip_zeros]. destruct s as [|d s]; [done|].
  destruct (Z.eqb_spec c 48) as [-> |]; [|done]. rewrite IH. done.
Qed.

Lemma land_32 x : 0 <= Z.land x 0xFFFFFFFF < 16 ^ Z.of_nat 8.
Proof. change 0xFFFFFFFF with (Z.ones 32). rewrite Z.land_ones by lia. by apply Z.mod_pos_bound. Qed.

Lemma keyfile_eq a b : keyfile a = keyfile b <-> Z.land a 0xFFFFFFFF = Z.land b 0xFFFFFFFF.
Proof.
  split; [|unfold keyfile; by intros ->]. intros E.
  apply (f_equal (fun p : path => hexval (drop 2 (default [] (head p))))) in E.
  change (hexval (skip_zeros (hexn 8 (Z.land a 0xFFFFFFFF))) = hexval (skip_zeros (hexn 8 (Z.land b 0xFFFFFFFF)))) in E.
  rewrite !hexval_skip, !hexval_hexn in E by apply land_32. exact E.
Qed.

(** A key that is stored in the flat file backend is what every lookup finds
    whose key id has the same low 32 bits, whether it is the key that was asked
    for or not; a key that was there under such an id is gone.  Lookups of other
    ids find what they found before. *)
Theorem file_store_fetch fs key keyid :
  flat fs -> get_keyid key = Done (ONAK_E_OK, Some keyid) -> storable malloc_ok [key] ->
  exists fs', file_store_key fs key = Done (fs', 1) /\ flat fs' /\
    forall id, file_fetch_key_id fs' id [] =
      if bool_decide (Z.land id 0xFFFFFFFF = Z.land keyid 0xFFFFFFFF) then Done ([reparsed key], 1) else file_fetch_key_id fs id [].
Proof.
  intros F Hid S. unfold file_store_key. rewrite Hid. cbn [mbind outcome_bind].
  destruct (open_new_spec fs keyid F) as (fs1 & i & -> & F1 & N1 & I1 & Hi).
  pose proof (write_key malloc_ok key S) as Ew.
  destruct (flatten_publickey [key] []) as [ps|]; cbn [mbind outcome_bind] in Ew |- *; [|discriminate Ew].
  rewrite Ew. cbn [mbind outcome_bind out_written]. set (fs2 := write_start fs1 i (key_octets key)).
  assert (I2 : fs_inodes fs2 = <[i := key_octets key]> (fs_inodes fs)).
  { cbn. rewrite I1, alter_insert_eq. by rewrite drop_nil, app_nil_r. }
  assert (Hd : forall id, keyfile id ∉ fs_dirs fs2) by (intros id; cbn; rewrite (fl_dirs fs1 F1); set_solver).
  exists fs2. split; [done|]. split.
  - destruct F1 as [FD FI FS]. split; [done | | done]. cbn. intros p j Hj. apply lookup_alter_is_Some. by eapply FI.
  - intros id. unfold file_fetch_key_id. rewrite <- (bool_decide_ext _ _ (keyfile_eq id keyid)). case_bool_decide as Hf.
    + rewrite (read_key_file_ok malloc_ok fs2 (keyfile id) key []); [done | done | | done].
      unfold contents. cbn [fs_names fs2 write_start]. rewrite Hf, N1, lookup_insert_eq. cbn [mbind option_bind].
      by rewrite I2, lookup_insert_eq.
    + assert (contents fs2 (keyfile id) = contents fs (keyfile id)) as Hc.
      { unfold contents. cbn [fs_names fs2 write_start]. rewrite N1, lookup_insert_ne by congruence.
        destruct (fs_names fs !! keyfile id) as [j|] eqn:Ej; [|done]. cbn [mbind option_bind].
        rewrite I2, lookup_insert_ne; [done|]. intros <-. by apply Hi in Ej. }
      unfold read_key_file, onak_read_openpgp_file. rewrite Hc.
      rewrite (bool_decide_eq_false_2 (_ ∈ fs_dirs fs2)), (bool_decide_eq_false_2 (_ ∈ fs_dirs fs)); [done | | done].
      rewrite (fl_dirs fs F). set_solver.
Qed.

End FileDb.
