(* ===== verification/FsDbExample.v ===== *)
(** The file backends with one key in them. *)

From Stdlib Require Import String.
From stdpp Require Import gmap.
From S2P Require Import Prelude CLib OpenPGP Streams Packets Armor Keys KeyId Decode SksHash KeyBuffer Stats Words FileSystem FsDb.
From S2P Require Import FsDbFacts FileDb Db4 Db4Facts Db4Example.

#[local] Existing Instances toy_hashes full_build.

(** An empty directory. *)
Definition empty_fs : filesystem := mkFs ∅ ∅ {[ [] ]}.

Lemma empty_layout : layout empty_fs.
Proof.
  split; cbn; [set_solver | |].
  - intros p ->%elem_of_singleton. split; [left; cbn; lia | done].
  - intros p i. by rewrite lookup_empty.
Qed.

Definition alice_id : Z := kf_keyid alice_facts.
Definition alice_ids : list Z := map snd (kf_subs alice_facts).
Definition alice_words : list (list Z) := match makewordlistfromkey [] alice with Done w => w | Fault _ => [] end.

Lemma alice_fs_facts : fs_facts anything alice alice_id alice_words alice_ids (kf_hash alice_facts).
Proof.
  split.
  - apply alice_described.
  - vm_compute. reflexivity.
  - eexists. split; [vm_compute; reflexivity|]. cbn [default id].
    apply ids_cons; [done | vm_compute; reflexivity |]. by apply ids_end.
  - apply alice_described.
  - apply alice_described.
Qed.

Lemma fs_store_key_correct_witness :
  exists fs' i, fs_store_key empty_fs alice false = Done (fs', 1) /\
    fs_inodes fs' = <[i := key_octets alice]> ∅ /\ fs_names fs' !! skshashpath (kf_hash alice_facts) = Some i.
Proof.
  destruct (fs_store_key_correct anything empty_fs alice alice_id alice_words alice_ids (kf_hash alice_facts) false
    alice_fs_facts empty_layout ltac:(done)) as (fs' & i & E & _ & HI & HN & _).
  exists fs', i. split; [exact E|]. split; [exact HI|].
  rewrite HN, bool_decide_eq_true_2; [reflexivity|]. right. unfold key_paths. rewrite !elem_of_app. right. right. by left.
Defined.

Lemma fs_store_fetch_witness :
  exists fs', fs_store_key empty_fs alice false = Done (fs', 1) /\
    fs_fetch_key_id (LS := any_listing) anything fs' alice_id [] = Done ([reparsed alice], 1) /\
    fs_fetch_key_skshash anything fs' (kf_hash alice_facts) [] = Done ([reparsed alice], 1).
Proof.
  destruct (fs_store_fetch (LS := any_listing) anything empty_fs alice alice_id alice_words alice_ids (kf_hash alice_facts))
    as (fs' & E & _ & H1 & H2 & _).
  - exact alice_fs_facts.
  - exact empty_layout.
  - reflexivity.
  - vm_compute. discriminate.
  - vm_compute. split; [discriminate | reflexivity].
  - repeat constructor; vm_compute; (discriminate || reflexivity).
  - exists fs'. split; [exact E|]. split; [exact H1 | apply H2; reflexivity].
Defined.

Lemma empty_flat : flat empty_fs.
Proof. split; cbn; [done | |]; intros p; intros; by rewrite lookup_empty in *. Qed.

(** The key is found under a key id that differs in its upper half. *)
Lemma file_store_fetch_witness :
  exists fs', file_store_key empty_fs alice = Done (fs', 1) /\
    file_fetch_key_id anything fs' (alice_id mod 2 ^ 32) [] = Done ([reparsed alice], 1).
Proof.
  destruct (file_store_fetch anything empty_fs alice alice_id empty_flat) as (fs' & E & _ & H).
  - apply alice_described.
  - apply alice_described.
  - exists fs'. split; [exact E|]. rewrite H, bool_decide_eq_true_2; [reflexivity | vm_compute; reflexivity].
Defined.
