(* ===== verification/Template.v ===== *)
(** The template engine (template.c): values, lookup of names, escaping, and the
    renderer, which works on offsets into the text of the template.

    Strings are octets without their NUL; the text of a template in memory is
    the string and its NUL, and every access to it is checked.  Allocation does
    not fail, so that no value in a list or a map is NULL. *)

From Stdlib Require Import String.
From S2P Require Import Prelude CLib Streams.

(** * Values (template.h) *)

#[warnings="-register-all"]
Inductive tmpl_value : Type :=
  | TMPL_NULL
  | TMPL_BOOL (b : bool)
  | TMPL_INT (i : Z)
  | TMPL_STRING (s : list Z)
  | TMPL_LIST (items : list tmpl_value)
  | TMPL_MAP (pairs : list (list Z * tmpl_value)).

(** A [char *] that may be NULL. *)
Definition tmpl_string_n (s : option (list Z)) (n : Z) : outcome tmpl_value :=
  match s with
  | None => Done TMPL_NULL
  | Some s => copy ← memcpy_from s 0 n; Done (TMPL_STRING copy)
  end.

Definition tmpl_string (s : option (list Z)) : outcome tmpl_value :=
  match s with
  | None => Done TMPL_NULL
  | Some t => tmpl_string_n s (zlen (c_string t))
  end.

Definition tmpl_string_take (s : option (list Z)) : tmpl_value :=
  match s with
  | None => TMPL_NULL
  | Some s => TMPL_STRING (c_string s)
  end.

(** The item is released when the value is not a list. *)
Definition tmpl_list_append (list item : tmpl_value) : tmpl_value :=
  match list with
  | TMPL_LIST items => TMPL_LIST (items ++ [item])
  | v => v
  end.

Fixpoint map_set (pairs : list (list Z * tmpl_value)) (key : list Z) (value : tmpl_value)
    : list (list Z * tmpl_value) :=
  match pairs with
  | [] => [(key, value)]
  | (k, v) :: pairs => if streq k key then (k, value) :: pairs else (k, v) :: map_set pairs key value
  end.

Definition tmpl_map_set (map : tmpl_value) (key : list Z) (value : tmpl_value) : tmpl_value :=
  match map with
  | TMPL_MAP pairs => TMPL_MAP (map_set pairs key value)
  | v => v
  end.

(** * Names *)

(** [memchr(s, c, |s|)], as an index. *)
Fixpoint memchr (c : Z) (s : list Z) : option nat :=
  match s with
  | [] => None
  | x :: s => if x =? c then Some 0%nat else S <$> memchr c s
  end.

(** [strncmp(k, key, klen) == 0 && k[klen] == '\0'] for a [key] without NUL. *)
Definition key_matches (k key : list Z) : outcome bool :=
  if starts key k then c ← (k ++ [0]).[zlen key]; Done (c =? 0) else Done false.

Fixpoint get_pair (pairs : list (list Z * tmpl_value)) (key : list Z) : outcome (option tmpl_value) :=
  match pairs with
  | [] => Done None
  | (k, v) :: pairs =>
      hit ← key_matches k key;
      if (hit : bool) then Done (Some v) else get_pair pairs key
  end.

Definition map_get (map : option tmpl_value) (key : list Z) : outcome (option tmpl_value) :=
  match map with
  | Some (TMPL_MAP pairs) => get_pair pairs key
  | _ => Done None
  end.

(** [for (f = frame; f != NULL; f = f->parent)]; a frame is the list of values
    from the innermost outwards. *)
Fixpoint find_frame (frame : list (option tmpl_value)) (key : list Z) : outcome (option tmpl_value) :=
  match frame with
  | [] => Done None
  | value :: parent =>
      cur ← map_get value key;
      match cur with
      | Some _ => Done cur
      | None => find_frame parent key
      end
  end.

(** [while (dot != NULL)]; [rest] is what follows the dot. *)
Fixpoint walk_path (fuel : nat) (cur : tmpl_value) (rest : option (list Z)) : outcome (option tmpl_value) :=
  match rest with
  | None => Done (Some cur)
  | Some seg =>
      match fuel with
      | O => Fault OutOfFuel
      | S fuel =>
          let next := memchr 46 seg in
          let seglen := match next with Some n => n | None => length seg end in
          v ← map_get (Some cur) (take seglen seg);
          match v with
          | None => Done None
          | Some v => walk_path fuel v ((fun n => drop (S n) seg) <$> next)
          end
      end
  end.

Definition lookup (frame : list (option tmpl_value)) (name : list Z) : outcome (option tmpl_value) :=
  if bool_decide (name = [46]) then Done (match frame with [] => None | value :: _ => value end)
  else
    let dot := memchr 46 name in
    let first_len := match dot with Some n => n | None => length name end in
    cur ← find_frame frame (take first_len name);
    match cur with
    | None => Done None
    | Some v => walk_path (S (length name)) v ((fun n => drop (S n) name) <$> dot)
    end.

Definition truthy (v : option tmpl_value) : bool :=
  match v with
  | None | Some TMPL_NULL => false
  | Some (TMPL_BOOL b) => b
  | Some (TMPL_INT i) => negb (i =? 0)
  | Some (TMPL_STRING s) => 0 <? zlen s
  | Some (TMPL_LIST items) => 0 <? zlen items
  | Some (TMPL_MAP _) => true
  end.

(** * Output *)

(** The entity for a character that has one. *)
Definition entity (c : Z) : option (list Z) :=
  if c =? 60 then Some (str "&lt;")
  else if c =? 62 then Some (str "&gt;")
  else if c =? 38 then Some (str "&amp;")
  else if c =? 34 then Some (str "&quot;")
  else if c =? 39 then Some (str "&#39;")
  else None.

(** [while (go(p)) p++;] *)
Fixpoint advance (fuel : nat) (go : Z -> outcome bool) (p : Z) : outcome Z :=
  b ← go p;
  if (b : bool) then
    match fuel with
    | O => Fault OutOfFuel
    | S fuel => advance fuel go (p + 1)
    end
  else Done p.

Definition blank (c : Z) : bool := (c =? 32) || (c =? 9).

(** [p[0] == c && p[1] == c] *)
Definition twice (m : list Z) (c p : Z) : outcome bool :=
  c0 ← m.[p];
  if c0 =? c then c1 ← m.[p + 1]; Done (c1 =? c) else Done false.

(** [p[0] == c && p[1] == c && p[2] == c] *)
Definition thrice (m : list Z) (c p : Z) : outcome bool :=
  b ← twice m c p;
  if (b : bool) then c2 ← m.[p + 2]; Done (c2 =? c) else Done false.

(** [*p == ' ' || *p == '\t'] *)
Definition at_blank (m : list Z) (p : Z) : outcome bool := c ← m.[p]; Done (blank c).

(** * The end of a section *)

Section Scan.
Context (m : list Z).
Let F := length m.

(** [while ( *p != '\0' && !closed(p)) p++; if ( *p != '\0') p += n;] *)
Definition skip_tag (closed : Z -> outcome bool) (n p : Z) : outcome Z :=
  p ← advance F (fun p => c ← m.[p]; if c =? 0 then Done false else b ← closed p; Done (negb b)) p;
  c ← m.[p];
  Done (if c =? 0 then p else p + n).

(** One turn of the loop: the offset of the closing tag, or the new offset and
    depth. *)
Definition section_step (name : list Z) (depth p : Z) : outcome (Z + Z * Z) :=
  open ← twice m 123 p;
  if negb open then Done (inr (p + 1, depth))
  else
    let open := p in
    p ← advance F (at_blank m) (p + 2);
    tag ← m.[p];
    if (tag =? 35) || (tag =? 94) || (tag =? 47) then
      p ← advance F (at_blank m) (p + 1);
      let tname := p in
      p ← advance F (fun p => c ← m.[p]; Done (negb ((c =? 125) || blank c || (c =? 0)))) p;
      let tnlen := p - tname in
      p ← advance F (at_blank m) p;
      closed ← twice m 125 p;
      if (closed : bool) then
        same ← (if tnlen =? zlen name
                then t ← memcpy_from m tname tnlen; Done (bool_decide (t = name))
                else Done false);
        if (same : bool) then
          if tag =? 47 then
            if depth - 1 =? 0 then Done (inl open) else Done (inr (p + 2, depth - 1))
          else Done (inr (p + 2, i32 (depth + 1)))
        else Done (inr (p + 2, depth))
      else Done (inr (p, depth))
    else if tag =? 33 then p ← skip_tag (twice m 125) 2 p; Done (inr (p, depth))
    else if tag =? 123 then p ← skip_tag (thrice m 125) 3 (p + 1); Done (inr (p, depth))
    else p ← skip_tag (twice m 125) 2 p; Done (inr (p, depth)).

(** [while ( *p != '\0')] *)
Fixpoint section_loop (fuel : nat) (name : list Z) (depth p : Z) : outcome (option Z) :=
  c ← m.[p];
  if c =? 0 then Done None
  else
    match fuel with
    | O => Fault OutOfFuel
    | S fuel =>
        r ← section_step name depth p;
        match r with
        | inl open => Done (Some open)
        | inr (p, depth) => section_loop fuel name depth p
        end
    end.

Definition find_section_end (body : Z) (name : list Z) : outcome (option Z) :=
  section_loop F name 1 body.

(** * Tags *)

(** [while (p < end && !(p[0] == '}' && p[1] == '}')) p++; if (p < end) p += 2;] *)
Definition skip_close (end_ p : Z) : outcome Z :=
  p ← advance F (fun p => if p <? end_ then b ← twice m 125 p; Done (negb b) else Done false) p;
  Done (if p <? end_ then p + 2 else p).

(** [while (p < end && ( *p == ' ' || *p == '\t')) p++;] *)
Definition skip_blank (end_ p : Z) : outcome Z :=
  advance F (fun p => if p <? end_ then at_blank m p else Done false) p.

(** The name of a tag, and the offset behind it and the blanks after it. *)
Definition tag_name (end_ p : Z) : outcome (list Z * Z) :=
  p ← skip_blank end_ p;
  let name := p in
  p ← advance F (fun p => if p <? end_ then c ← m.[p]; Done (negb (blank c || (c =? 125) || (c =? 0)))
                         else Done false) p;
  n ← memcpy_from m name (p - name);
  p ← skip_blank end_ p;
  Done (n, p).

(** Behind the closing braces; [None] for a malformed tag. *)
Definition tag_close (raw : bool) (end_ p : Z) : outcome (option Z) :=
  if raw then
    if end_ <=? p + 2 then Done None
    else b ← thrice m 125 p; Done (if (b : bool) then Some (p + 3) else None)
  else
    if end_ <=? p + 1 then Done None
    else b ← twice m 125 p; Done (if (b : bool) then Some (p + 2) else None).

End Scan.

(** * Rendering

    [out s c] is the callback: its new context and what it returned. *)
Section Render.
Context {S : Type} (out : S -> Z -> S * Z).

Fixpoint emit_str (s : list Z) (ctx : S) : S * Z :=
  match s with
  | [] => (ctx, 0)
  | c :: s => let '(ctx, rc) := out ctx c in if rc <? 0 then (ctx, rc) else emit_str s ctx
  end.

Fixpoint emit_escaped (s : list Z) (ctx : S) : S * Z :=
  match s with
  | [] => (ctx, 0)
  | c :: s =>
      let '(ctx, rc) := match entity c with
                        | None => out ctx c
                        | Some rep => emit_str rep ctx
                        end in
      if rc <? 0 then (ctx, rc) else emit_escaped s ctx
  end.

Definition emit_value (v : option tmpl_value) (escape : bool) (ctx : S) : S * Z :=
  match v with
  | Some (TMPL_BOOL b) => emit_str (if b then str "true" else str "false") ctx
  | Some (TMPL_INT i) => emit_str (decimal64 i) ctx
  | Some (TMPL_STRING s) => if escape then emit_escaped s ctx else emit_str s ctx
  | None | Some TMPL_NULL | Some (TMPL_LIST _) | Some (TMPL_MAP _) => (ctx, 0)
  end.

(** The items of a list, one after the other. *)
Fixpoint render_items (render : option tmpl_value -> S -> outcome (S * Z)) (items : list tmpl_value) (ctx : S)
    : outcome (S * Z) :=
  match items with
  | [] => Done (ctx, 0)
  | item :: items =>
      '(ctx, rc) ← render (Some item) ctx;
      if rc <? 0 then Done (ctx, rc) else render_items render items ctx
  end.

(** [render v] renders the body with [v] as the innermost frame. *)
Definition render_section (render : option tmpl_value -> S -> outcome (S * Z)) (value : option tmpl_value)
    (inverted : bool) (ctx : S) : outcome (S * Z) :=
  let tval := truthy value in
  if inverted then if tval then Done (ctx, 0) else render value ctx
  else if negb tval then Done (ctx, 0)
  else match value with
       | Some (TMPL_LIST items) => render_items render items ctx
       | _ => render value ctx
       end.

Fixpoint render_range (fuel : nat) (m : list Z) (p end_ : Z) (frame : list (option tmpl_value)) (ctx : S)
    : outcome (S * Z) :=
  match fuel with
  | O => Fault OutOfFuel
  | Datatypes.S fuel =>
      if p <? end_ then
        c ← m.[p];
        if c =? 0 then Done (ctx, 0)
        else
          open ← twice m 123 p;
          if negb open then
            let '(ctx, rc) := out ctx c in
            if rc <? 0 then Done (ctx, rc) else render_range fuel m (p + 1) end_ frame ctx
          else
            p ← skip_blank m end_ (p + 2);
            if end_ <=? p then Done (ctx, 0)
            else
              tag_kind ← m.[p];
              if (tag_kind =? 47) || (tag_kind =? 33) then
                p ← skip_close m end_ p;
                render_range fuel m p end_ frame ctx
              else
                let raw := tag_kind =? 123 in
                let is_section := (tag_kind =? 35) || (tag_kind =? 94) in
                let inverted := tag_kind =? 94 in
                '(name, p) ← tag_name m end_ (if raw || is_section then p + 1 else p);
                closed ← tag_close m raw end_ p;
                match closed with
                | None => Done (ctx, -1)
                | Some p =>
                    value ← lookup frame name;
                    if is_section then
                      body_end ← find_section_end m p name;
                      match body_end with
                      | None => Done (ctx, -1)
                      | Some body_end =>
                          '(ctx, rc) ← render_section
                            (fun v => render_range fuel m p body_end (v :: frame)) value inverted ctx;
                          if rc <? 0 then Done (ctx, rc)
                          else
                            p ← skip_close m end_ body_end;
                            render_range fuel m p end_ frame ctx
                      end
                    else
                      let '(ctx, rc) := emit_value value (negb raw) ctx in
                      if rc <? 0 then Done (ctx, rc) else render_range fuel m p end_ frame ctx
                end
      else Done (ctx, 0)
  end.

Definition tmpl_render (template : option (list Z)) (root : tmpl_value) (ctx : S) : outcome (S * Z) :=
  match template with
  | None => Done (ctx, -1)
  | Some t => render_range (Datatypes.S (length t)) (t ++ [0]) 0 (zlen t) [Some root] ctx
  end.

End Render.

(** * Loading

    [file path] is what the file holds, or [None] when it cannot be read. *)
Definition tmpl_load_file (file : list Z -> option (list Z)) (path : option (list Z)) : option (list Z) :=
  match path with
  | None => None
  | Some path => c_string <$> file path
  end.

Definition tmpl_load_named (file : list Z -> option (list Z)) (template_dir : option (list Z)) (templatedir : list Z)
    (name : option (list Z)) : option (list Z) :=
  match name with
  | None => None
  | Some name =>
      if bool_decide (47 ∈ name) then None
      else
        let dir := match template_dir with
                   | Some (c :: d) => c :: d
                   | _ => templatedir
                   end in
        tmpl_load_file file (Some (dir ++ [47] ++ name))
  end.
