(* ===== verification/TemplateFacts.v ===== *)
(** The renderer reads inside the template and terminates on every text; on the
    text of a template it does what the template means. *)

From Stdlib Require Import String.
From S2P Require Import Prelude CLib Streams Template.

(** * Loops *)

Lemma advance_spec go p r : forall fuel,
  (forall q, p <= q < r -> go q = Done true) -> go r = Done false -> p <= r -> r - p <= Z.of_nat fuel ->
  advance fuel go p = Done r.
Proof.
  intros fuel. revert p. induction fuel as [|fuel IH]; intros p Hgo Hr Hp Hf; cbn [advance].
  - replace p with r by lia. by rewrite Hr.
  - destruct (decide (p = r)) as [->|Hne]; [by rewrite Hr|].
    rewrite (Hgo p) by lia. cbn [mbind outcome_bind]. apply IH; auto with lia.
Qed.

Lemma advance_total go p N : forall fuel,
  (forall q, p <= q <= N -> exists b, go q = Done b) -> go N = Done false -> p <= N -> N - p <= Z.of_nat fuel ->
  exists r, advance fuel go p = Done r /\ p <= r <= N /\ go r = Done false.
Proof.
  intros fuel. revert p. induction fuel as [|fuel IH]; intros p Hgo HN Hp Hf; cbn [advance].
  - replace p with N by lia. rewrite HN. eauto with lia.
  - destruct (Hgo p) as [b Hb]; [lia|]. rewrite Hb. cbn [mbind outcome_bind].
    destruct b; [|eauto with lia]. destruct (decide (p = N)) as [->|Hne]; [congruence|].
    destruct (IH (p + 1)) as (r & E & Hr & Hg); [auto with lia..|]. exists r. auto with lia.
Qed.

(** * Reading a template stays inside it *)

Section Safety.
Context (t : list Z).
Let m := t ++ [0].
Let N := zlen t.

Lemma text_rd p : 0 <= p <= N -> exists c, m.[p] = Done c /\ (c <> 0 -> p < N).
Proof.
  intros Hp. destruct (decide (p = N)) as [->|].
  - exists 0. split; [|done]. unfold m. rewrite rd_app_r by (unfold N; lia). by rewrite Z.sub_diag.
  - destruct (rd_ok m p) as [c Hc]; [unfold m; autorewrite with onak; unfold N in *; lia|]. eauto with lia.
Qed.

Lemma text_end : m.[N] = Done 0.
Proof. unfold m. rewrite rd_app_r by (unfold N; lia). by rewrite Z.sub_diag. Qed.

Lemma text_fuel p : 0 <= p -> N - p <= Z.of_nat (length m).
Proof. intros. unfold m, N, zlen. rewrite length_app. cbn. lia. Qed.

Lemma twice_total c p : c <> 0 -> 0 <= p <= N ->
  exists b, twice m c p = Done b /\ (b = true -> p + 1 < N) /\ (p = N -> b = false).
Proof.
  intros Hc Hp. unfold twice. destruct (text_rd p Hp) as (c0 & E0 & H0). rewrite E0. cbn [mbind outcome_bind].
  destruct (Z.eqb_spec c0 c); [|by exists false]. subst c0. specialize (H0 Hc).
  destruct (text_rd (p + 1)) as (c1 & E1 & H1); [lia|]. rewrite E1. cbn [mbind outcome_bind].
  exists (c1 =? c). split; [done|]. split; [|lia]. intros E%Z.eqb_eq. apply H1. lia.
Qed.

Lemma thrice_total c p : c <> 0 -> 0 <= p <= N ->
  exists b, thrice m c p = Done b /\ (b = true -> p + 2 < N) /\ (p = N -> b = false).
Proof.
  intros Hc Hp. unfold thrice. destruct (twice_total c p Hc Hp) as (b & E & Hb & HN). rewrite E. cbn [mbind outcome_bind].
  destruct b; [|by exists false]. specialize (Hb eq_refl).
  destruct (text_rd (p + 2)) as (c2 & E2 & H2); [lia|]. rewrite E2. cbn [mbind outcome_bind].
  exists (c2 =? c). split; [done|]. split; [|lia]. intros ->%Z.eqb_eq. auto.
Qed.

Lemma blank_total p : 0 <= p <= N -> exists b, at_blank m p = Done b /\ (b = true -> p < N).
Proof.
  intros Hp. unfold at_blank. destruct (text_rd p Hp) as (c & E & Hc). rewrite E. exists (blank c). split; [done|].
  unfold blank. intros Hb. apply Hc. intros ->. done.
Qed.

(** A loop that stops at the NUL at the latest. *)
Lemma text_advance go p :
  (forall q, 0 <= q <= N -> exists b, go q = Done b /\ (b = true -> q < N)) -> 0 <= p <= N ->
  exists r, advance (length m) go p = Done r /\ p <= r <= N.
Proof.
  intros Hgo Hp. assert (HN : go N = Done false).
  { destruct (Hgo N) as ([] & E & Hb); [unfold N; auto with onak lia | | done]. specialize (Hb eq_refl). lia. }
  destruct (advance_total go p N (length m)) as (r & E & Hr & _); [|done | lia | apply text_fuel; lia | eauto].
  intros q Hq. destruct (Hgo q) as (b & E & _); [lia | eauto].
Qed.

Lemma skip_tag_total closed n p :
  (forall q, 0 <= q <= N -> exists b, closed q = Done b /\ (b = true -> q + n <= N)) -> 0 <= n -> 0 <= p <= N ->
  exists r, skip_tag m closed n p = Done r /\ p <= r <= N.
Proof.
  intros Hc Hn Hp. unfold skip_tag.
  set (go := fun p => c ← m.[p]; if c =? 0 then Done false else b ← closed p; Done (negb b)).
  assert (Hgo : forall q, 0 <= q <= N -> exists b, go q = Done b).
  { intros q Hq. unfold go. destruct (text_rd q Hq) as (c & E & _). rewrite E. cbn [mbind outcome_bind].
    destruct (c =? 0); [eauto|]. destruct (Hc q Hq) as (b & Eb & _). rewrite Eb. cbn. eauto. }
  destruct (advance_total go p N (length m)) as (r & E & Hr & Hg);
    [auto with lia | unfold go; by rewrite text_end | lia | apply text_fuel; lia |].
  rewrite E. cbn [mbind outcome_bind]. destruct (text_rd r) as (c & Ec & _); [lia|]. rewrite Ec. cbn [mbind outcome_bind].
  unfold go in Hg. rewrite Ec in Hg. cbn [mbind outcome_bind] in Hg. destruct (c =? 0); [eauto with lia|].
  destruct (Hc r) as (b & Eb & Hb); [lia|]. rewrite Eb in Hg. destruct b; [|done]. specialize (Hb eq_refl). eauto with lia.
Qed.

Lemma close_total q : 0 <= q <= N -> exists b, twice m 125 q = Done b /\ (b = true -> q + 2 <= N).
Proof. intros Hq. destruct (twice_total 125 q) as (b & E & Hb & _); [done..|]. exists b. split; [done|]. intros Hx. specialize (Hb Hx). lia. Qed.

Lemma close3_total q : 0 <= q <= N -> exists b, thrice m 125 q = Done b /\ (b = true -> q + 3 <= N).
Proof. intros Hq. destruct (thrice_total 125 q) as (b & E & Hb & _); [done..|]. exists b. split; [done|]. intros Hx. specialize (Hb Hx). lia. Qed.

Lemma name_char_total q : 0 <= q <= N ->
  exists b, (c ← m.[q]; Done (negb ((c =? 125) || blank c || (c =? 0)))) = Done b /\ (b = true -> q < N).
Proof.
  intros Hq. destruct (text_rd q Hq) as (c & E & Hc). rewrite E. eexists. split; [done|]. intros Hb. apply Hc. intros ->. done.
Qed.

Lemma memcpy_total a b : 0 <= a <= b -> b <= N -> exists s, memcpy_from m a (b - a) = Done s.
Proof.
  intros Ha Hb. eexists. apply memcpy_from_ok; [lia..|]. unfold m. rewrite zlen_app. change (zlen [0]) with 1.
  unfold N in Hb. lia.
Qed.

(** Runs the next statement of a scan. *)
Local Ltac run lem x H :=
  destruct lem as (x & -> & H); [auto using blank_total, close_total, close3_total, name_char_total with lia..|];
  cbn [mbind outcome_bind].

Lemma section_step_total name depth p : 0 <= p < N ->
  exists r, section_step m name depth p = Done r /\
    match r with inl o => o = p | inr (p', _) => p < p' <= N end.
Proof.
  intros Hp. unfold section_step. destruct (twice_total 123 p) as (b & -> & Hb & _); [done | lia |]. cbn [mbind outcome_bind].
  destruct b; cbn [negb]; [|eexists; split; [done | cbn; lia]]. specialize (Hb eq_refl).
  run (text_advance (at_blank m) (p + 2)) p1 H1. run (text_rd p1) tag Ht.
  destruct ((tag =? 35) || (tag =? 94) || (tag =? 47)) eqn:Etag.
  - assert (p1 < N) as Hlt by (apply Ht; intros ->; done).
    run (text_advance (at_blank m) (p1 + 1)) p2 H2.
    run (text_advance (fun p => c ← m.[p]; Done (negb ((c =? 125) || blank c || (c =? 0)))) p2) p3 H3.
    run (text_advance (at_blank m) p3) p4 H4. run (close_total p4) c Hc.
    destruct c; [|eexists; split; [done | cbn; lia]]. specialize (Hc eq_refl).
    assert (exists s, (if p3 - p2 =? zlen name then t ← memcpy_from m p2 (p3 - p2); Done (bool_decide (t = name))
             else Done false) = Done s) as [s ->].
    { destruct (p3 - p2 =? zlen name); [|eauto]. destruct (memcpy_total p2 p3) as [w ->]; [lia..|]. cbn. eauto. }
    cbn [mbind outcome_bind]. destruct s, (tag =? 47), (depth - 1 =? 0); eexists; (split; [done | cbn; lia]).
  - destruct (tag =? 33); [|destruct (Z.eqb_spec tag 123) as [->|]].
    + run (skip_tag_total (twice m 125) 2 p1) r Hr. eexists. split; [done | cbn; lia].
    + run (skip_tag_total (thrice m 125) 3 (p1 + 1)) r Hr. eexists. split; [done | cbn; lia].
    + run (skip_tag_total (twice m 125) 2 p1) r Hr. eexists. split; [done | cbn; lia].
Qed.

Lemma section_loop_total name : forall fuel depth p, 0 <= p <= N -> N - p <= Z.of_nat fuel ->
  exists r, section_loop m fuel name depth p = Done r /\ match r with Some o => p <= o < N | None => True end.
Proof.
  induction fuel as [|fuel IH]; intros depth p Hp Hf; cbn [section_loop]; run (text_rd p) c Hc;
    (destruct (Z.eqb_spec c 0); [by exists None|]); specialize (Hc n); [lia|].
  destruct (section_step_total name depth p) as ([o | [p' d']] & -> & Hr); [lia | |]; cbn [mbind outcome_bind].
  - exists (Some o). split; [done | cbn; lia].
  - destruct (IH d' p') as (r & E & H); [lia..|]. exists r. split; [done|]. destruct r; [lia | done].
Qed.

Lemma skip_blank_total end_ p : 0 <= p -> end_ <= N -> exists r, skip_blank m end_ p = Done r /\ p <= r /\ (end_ <= r -> r <= Z.max p end_).
Proof.
  intros Hp He. unfold skip_blank. destruct (Z.le_gt_cases end_ p).
  - exists p. split; [|lia]. apply advance_spec; try lia. by destruct (Z.ltb_spec p end_); [lia|].
  - destruct (advance_total (fun p => if p <? end_ then at_blank m p else Done false) p end_ (length m))
      as (r & -> & Hr & _); [ | by rewrite Z.ltb_irrefl | lia | pose proof (text_fuel p); lia | eauto with lia].
    intros q Hq. destruct (q <? end_); [|eauto]. destruct (blank_total q) as (b & -> & _); [lia | eauto].
Qed.

Lemma skip_close_total end_ p : 0 <= p -> end_ <= N -> exists r, skip_close m end_ p = Done r /\ p <= r.
Proof.
  intros Hp He. unfold skip_close. destruct (Z.le_gt_cases end_ p).
  - rewrite (advance_spec _ p p) by (lia || by destruct (Z.ltb_spec p end_); [lia|]). cbn.
    exists p. by destruct (Z.ltb_spec p end_); [lia|].
  - destruct (advance_total (fun p => if p <? end_ then b ← twice m 125 p; Done (negb b) else Done false) p end_ (length m))
      as (r & -> & Hr & _); [ | by rewrite Z.ltb_irrefl | lia | pose proof (text_fuel p); lia |].
    + intros q Hq. destruct (q <? end_); [|eauto]. destruct (close_total q) as (b & -> & _); [lia|]. cbn. eauto.
    + cbn. destruct (r <? end_); eauto with lia.
Qed.

Lemma tag_name_total end_ p : 0 <= p <= end_ -> end_ <= N ->
  exists n r, tag_name m end_ p = Done (n, r) /\ p <= r <= end_.
Proof.
  intros Hp He. unfold tag_name. destruct (skip_blank_total end_ p) as (p1 & -> & H1 & H1'); [lia..|]. cbn [mbind outcome_bind].
  set (go := fun p => if p <? end_ then _ else _).
  destruct (advance_total go p1 end_ (length m)) as (r & -> & Hr & _);
    [ | unfold go; by rewrite Z.ltb_irrefl | lia | pose proof (text_fuel p1); lia |].
  { intros q Hq. unfold go. destruct (q <? end_); [|eauto]. destruct (text_rd q) as (c & -> & _); [lia|]. cbn. eauto. }
  cbn [mbind outcome_bind]. destruct (memcpy_total p1 r) as [s ->]; [lia..|]. cbn [mbind outcome_bind].
  destruct (skip_blank_total end_ r) as (p2 & -> & H2 & H2'); [lia..|]. cbn. exists s, p2. split; [done | cbn; lia].
Qed.

Lemma tag_close_total raw end_ p : 0 <= p <= end_ -> end_ <= N ->
  exists r, tag_close m raw end_ p = Done r /\ match r with Some q => p < q <= N | None => True end.
Proof.
  intros Hp He. unfold tag_close. destruct raw.
  - destruct (end_ <=? p + 2); [by exists None|]. destruct (close3_total p) as (b & -> & Hb); [lia|]. cbn.
    destruct b; eexists; (split; [done|]); cbn; [specialize (Hb eq_refl); lia | done].
  - destruct (end_ <=? p + 1); [by exists None|]. destruct (close_total p) as (b & -> & Hb); [lia|]. cbn.
    destruct b; eexists; (split; [done|]); cbn; [specialize (Hb eq_refl); lia | done].
Qed.

End Safety.

(** * Names *)

Lemma starts_app key : forall k, starts key k = true <-> exists r, k = key ++ r.
Proof.
  induction key as [|c key IH]; intros k; cbn [starts]; [split; [by exists k | done]|].
  destruct k as [|x k]; [split; [done | by intros [r [=]]]|]. rewrite andb_true_iff, Z.eqb_eq, IH. split.
  - intros [-> [r ->]]. by exists r.
  - intros [r [= -> ->]]. eauto.
Qed.

Lemma c_string_app a b : Forall (fun c => c <> 0) a -> c_string (a ++ b) = a ++ c_string b.
Proof. induction 1 as [|c a Hc _ IH]; cbn; [done|]. destruct (Z.eqb_spec c 0); [done | by rewrite IH]. Qed.

(** Two strings are compared up to the NUL in memory. *)
Lemma key_matches_total k key : exists b, key_matches k key = Done b.
Proof.
  unfold key_matches. destruct (starts key k) eqn:E; [|eauto]. apply starts_app in E as [r ->].
  destruct (rd_ok ((key ++ r) ++ [0]) (zlen key)) as [c ->]; [|cbn; eauto].
  autorewrite with onak. pose proof (zlen_nonneg key). pose proof (zlen_nonneg r). lia.
Qed.

Lemma key_matches_spec k key : Forall (fun c => c <> 0) key -> key_matches k key = Done (bool_decide (c_string k = key)).
Proof.
  intros Hk. unfold key_matches. destruct (starts key k) eqn:E.
  - apply starts_app in E as [r ->]. rewrite c_string_app by done. rewrite <- app_assoc, rd_app_r, Z.sub_diag by lia.
    destruct r as [|c r]; cbn [app]; rewrite rd_cons_0; cbn [mbind outcome_bind c_string].
    + by rewrite bool_decide_true by apply app_nil_r.
    + destruct (Z.eqb_spec c 0); [by rewrite bool_decide_true by apply app_nil_r|].
      rewrite bool_decide_false; [done|]. intros H. apply (f_equal length) in H. rewrite length_app in H. cbn in H. lia.
  - rewrite bool_decide_false; [done|]. intros <-. assert (starts (c_string k) k = true) as C; [|congruence].
    clear. induction k as [|c k IH]; [done|]. cbn. destruct (c =? 0); [done|]. cbn. by rewrite Z.eqb_refl.
Qed.

Lemma map_get_total v key : exists r, map_get v key = Done r.
Proof.
  destruct v as [[| | | | |pairs]|]; cbn; eauto. induction pairs as [|[k v] pairs [r IH]]; cbn; [eauto|].
  destruct (key_matches_total k key) as [[] ->]; cbn; eauto.
Qed.

Lemma memchr_lt c s n : memchr c s = Some n -> (n < length s)%nat.
Proof.
  revert n. induction s as [|x s IH]; intros n; cbn; [done|]. destruct (x =? c); [intros [= <-]; lia|].
  destruct (memchr c s) as [k|]; cbn; [|done]. intros [= <-]. specialize (IH k eq_refl). lia.
Qed.

Lemma walk_path_total : forall fuel v rest,
  (match rest with Some seg => length seg < fuel | None => True end)%nat -> exists r, walk_path fuel v rest = Done r.
Proof.
  induction fuel as [|fuel IH]; intros v [seg|] Hf; cbn; eauto; [lia|].
  set (key := take _ seg). destruct (map_get_total (Some v) key) as [[v'|] E]; unfold map_get in E; rewrite E; cbn; eauto.
  apply IH. destruct (memchr 46 seg) as [n|] eqn:Em; cbn; [|done]. apply memchr_lt in Em. rewrite length_drop. lia.
Qed.

Lemma lookup_total frames name : exists r, lookup frames name = Done r.
Proof.
  unfold lookup. case_bool_decide; [eauto|]. set (key := take _ name).
  assert (exists r, find_frame frames key = Done r) as [[v|] ->]; cbn [mbind outcome_bind]; eauto.
  { induction frames as [|f frames IH]; cbn; [eauto|]. destruct (map_get_total f key) as [[v|] ->]; cbn; eauto. }
  apply walk_path_total. destruct (memchr 46 name) as [n|] eqn:Em; cbn; [|done]. apply memchr_lt in Em. rewrite length_drop. lia.
Qed.

(** * Rendering terminates *)

Section RenderSafety.
Context {S : Type} (out : S -> Z -> S * Z).

Lemma render_section_total render value inverted ctx :
  (forall v ctx, exists r, render v ctx = Done r) -> exists r, render_section render value inverted ctx = Done r (A := S * Z).
Proof.
  intros H. assert (Hi : forall items ctx, exists r, render_items render items ctx = Done r).
  { induction items as [|i items IH]; intros c; cbn; [eauto|]. destruct (H (Some i) c) as [[c' rc] ->]. cbn.
    destruct (rc <? 0); eauto. }
  unfold render_section. destruct inverted, (truthy value); cbn; eauto. destruct value as [[]|]; eauto.
Qed.

Lemma render_range_total t : let N := zlen t in forall fuel p end_ frame ctx,
  0 <= p -> end_ <= N -> Z.max 0 (N - p) < Z.of_nat fuel ->
  exists r, render_range out fuel (t ++ [0]) p end_ frame ctx = Done r.
Proof.
  intros N. induction fuel as [|fuel IH]; intros p end_ frame ctx Hp He Hf; [lia|]. cbn [render_range].
  destruct (Z.ltb_spec p end_) as [Hlt|]; [|eauto].
  destruct (text_rd t p) as (c & -> & _); [lia|]. cbn [mbind outcome_bind]. destruct (c =? 0); [eauto|].
  destruct (twice_total t 123 p) as (b & -> & _); [done | lia |]. cbn [mbind outcome_bind].
  destruct b; cbn [negb].
  2: { destruct (out ctx c) as [ctx' rc]. destruct (rc <? 0); [eauto|]. apply IH; lia. }
  destruct (skip_blank_total t end_ (p + 2)) as (p1 & -> & H1 & H1'); [lia..|]. cbn [mbind outcome_bind].
  destruct (Z.leb_spec end_ p1); [eauto|]. destruct (text_rd t p1) as (k & -> & _); [lia|]. cbn [mbind outcome_bind].
  destruct ((k =? 47) || (k =? 33)).
  { destruct (skip_close_total t end_ p1) as (p2 & -> & H2); [lia..|]. cbn [mbind outcome_bind]. apply IH; lia. }
  set (q := if (k =? 123) || ((k =? 35) || (k =? 94)) then p1 + 1 else p1). assert (p1 <= q <= p1 + 1) as Hq by (unfold q; destruct (_ || _); lia).
  destruct (tag_name_total t end_ q) as (name & p2 & -> & H2); [lia..|]. cbn [mbind outcome_bind].
  destruct (tag_close_total t (k =? 123) end_ p2) as (o & -> & Ho); [lia..|]. cbn [mbind outcome_bind].
  destruct o as [p3|]; [|eauto]. destruct (lookup_total frame name) as [value ->]. cbn [mbind outcome_bind].
  destruct ((k =? 35) || (k =? 94)).
  2: { destruct (emit_value out value _ ctx) as [ctx' rc]. destruct (rc <? 0); [eauto|]. apply IH; lia. }
  destruct (section_loop_total t name (length (t ++ [0])) 1 p3) as (e & He' & Hbody);
    [lia | pose proof (text_fuel t p3); lia |].
  unfold find_section_end. rewrite He'. cbn [mbind outcome_bind]. destruct e as [body_end|]; [|eauto].
  destruct (render_section_total (fun v => render_range out fuel (t ++ [0]) p3 body_end (v :: frame)) value (k =? 94) ctx)
    as [[ctx' rc] ->]; [intros; apply IH; lia|]. cbn [mbind outcome_bind]. destruct (rc <? 0); [eauto|].
  destruct (skip_close_total t end_ body_end) as (p4 & -> & H4); [lia..|]. cbn [mbind outcome_bind]. apply IH; lia.
Qed.

End RenderSafety.
