(* ===== verification/TemplateSem.v ===== *)
(** What a template means, apart from how its text is scanned: a tree of texts,
    comments, variables and sections, its text ([print_nodes]) and the octets it
    stands for in a context ([meaning]).  Rendering the text gives the meaning. *)

From Stdlib Require Import String.
From stdpp Require Import relations.
From S2P Require Import Prelude CLib Streams Template TemplateFacts.

(** * Templates *)

Inductive name : Type :=
  | Here                              (* "." *)
  | Path (segs : list (list Z)).      (* a.b.c *)

#[warnings="-register-all"]
Inductive node : Type :=
  | Text (s : list Z)
  | Comment (s : list Z)
  | Var (raw : bool) (n : name)
  | Section_ (inverted : bool) (n : name) (body : list node).

Definition name_text (n : name) : list Z := match n with Here => [46] | Path segs => joined 46 segs end.

Fixpoint print_node (d : node) : list Z :=
  match d with
  | Text s => s
  | Comment s => [123; 123; 33] ++ s ++ [125; 125]
  | Var false n => [123; 123] ++ name_text n ++ [125; 125]
  | Var true n => [123; 123; 123] ++ name_text n ++ [125; 125; 125]
  | Section_ inverted n body =>
      [123; 123; if inverted then 94 else 35] ++ name_text n ++ [125; 125] ++
      concat (map print_node body) ++ [123; 123; 47] ++ name_text n ++ [125; 125]
  end.

Definition print_nodes (nodes : list node) : list Z := concat (map print_node nodes).

(** No [c] is followed by another, and the last character is not [c]. *)
Fixpoint plain (c : Z) (s : list Z) : bool :=
  match s with
  | [] => true
  | x :: s' =>
      (negb (x =? c) || match s' with [] => false | y :: _ => negb (y =? c) end) && plain c s'
  end.

Definition name_char (c : Z) : Prop := c <> 0 /\ c <> 32 /\ c <> 9 /\ c <> 125.

Definition seg_ok (s : list Z) : Prop := s <> [] /\ Forall (fun c => name_char c /\ c <> 46) s.

(** A name does not look like another kind of tag. *)
Definition name_ok (n : name) : Prop :=
  match n with
  | Here => True
  | Path segs => segs <> [] /\ Forall seg_ok segs /\
      match name_text n with
      | c :: _ => ~ (c = 35 \/ c = 94 \/ c = 47 \/ c = 33 \/ c = 123)
      | [] => False
      end
  end.

Fixpoint node_ok (d : node) : Prop :=
  match d with
  | Text s => Forall (fun c => c <> 0) s /\ plain 123 s = true
  | Comment s => Forall (fun c => c <> 0) s /\ plain 125 s = true
  | Var _ n => name_ok n
  | Section_ _ n body => name_ok n /\ fold_right (fun d P => node_ok d /\ P) True body
  end.

(** * Meaning *)

(** The member of a map, if the value is a map and has one. *)
Fixpoint assoc (pairs : list (list Z * tmpl_value)) (key : list Z) : option tmpl_value :=
  match pairs with
  | [] => None
  | (k, v) :: pairs => if bool_decide (c_string k = key) then Some v else assoc pairs key
  end.

Definition member (v : option tmpl_value) (key : list Z) : option tmpl_value :=
  match v with
  | Some (TMPL_MAP pairs) => assoc pairs key
  | _ => None
  end.

Fixpoint innermost (frames : list (option tmpl_value)) (key : list Z) : option tmpl_value :=
  match frames with
  | [] => None
  | f :: frames => match member f key with Some v => Some v | None => innermost frames key end
  end.

Definition resolve (frames : list (option tmpl_value)) (n : name) : option tmpl_value :=
  match n with
  | Here => match frames with [] => None | f :: _ => f end
  | Path [] => None
  | Path (s :: segs) => foldl member (innermost frames s) segs
  end.

Definition escape (s : list Z) : list Z :=
  concat (map (fun c => match entity c with Some rep => rep | None => [c] end) s).

Definition value_text (v : option tmpl_value) (raw : bool) : list Z :=
  match v with
  | Some (TMPL_BOOL b) => if b then str "true" else str "false"
  | Some (TMPL_INT i) => decimal64 i
  | Some (TMPL_STRING s) => if raw then s else escape s
  | _ => []
  end.

(** The values with which the body of a section is rendered. *)
Definition section_values (inverted : bool) (v : option tmpl_value) : list (option tmpl_value) :=
  if inverted then if truthy v then [] else [v]
  else if truthy v then match v with Some (TMPL_LIST items) => map Some items | _ => [v] end
  else [].

Fixpoint meaning (frames : list (option tmpl_value)) (d : node) : list Z :=
  match d with
  | Text s => s
  | Comment _ => []
  | Var raw n => value_text (resolve frames n) raw
  | Section_ inverted n body =>
      concat (map (fun v => concat (map (meaning (v :: frames)) body)) (section_values inverted (resolve frames n)))
  end.

Definition meanings (frames : list (option tmpl_value)) (nodes : list node) : list Z :=
  concat (map (meaning frames) nodes).

(** Induction over templates. *)
Lemma node_ind' (P : node -> Prop) :
  (forall s, P (Text s)) -> (forall s, P (Comment s)) -> (forall raw n, P (Var raw n)) ->
  (forall inverted n body, Forall P body -> P (Section_ inverted n body)) -> forall d, P d.
Proof.
  intros Ht Hc Hv Hs. fix IH 1. intros [s | s | raw n | inverted n body]; [apply Ht | apply Hc | apply Hv | apply Hs].
  induction body as [|d body IHb]; constructor; [apply IH | apply IHb].
Qed.

(** * Text in memory *)

Fixpoint holds (m : list Z) (p : Z) (s : list Z) : Prop :=
  match s with
  | [] => 0 <= p <= zlen m
  | c :: s => m.[p] = Done c /\ holds m (p + 1) s
  end.

Lemma holds_range m s : forall p, holds m p s -> 0 <= p /\ p + zlen s <= zlen m.
Proof.
  induction s as [|c s IH]; intros p; cbn [holds]; [change (zlen (@nil Z)) with 0; lia|]. rewrite zlen_cons.
  intros [Hc Hs]. apply rd_Done_inv in Hc. specialize (IH _ Hs). lia.
Qed.

Lemma holds_app m a b : forall p, holds m p (a ++ b) <-> holds m p a /\ holds m (p + zlen a) b.
Proof.
  induction a as [|c a IH]; intros p; cbn [holds app].
  - change (zlen (@nil Z)) with 0. rewrite Z.add_0_r. split; [|tauto]. intros H. split; [|done]. apply holds_range in H.
    pose proof (zlen_nonneg b). lia.
  - rewrite IH, zlen_cons. replace (p + 1 + zlen a) with (p + (1 + zlen a)) by lia. tauto.
Qed.

Lemma holds_all s : forall pre post, holds (pre ++ s ++ post) (zlen pre) s.
Proof.
  induction s as [|c s IH]; intros pre post; cbn [holds].
  - rewrite zlen_app. pose proof (zlen_nonneg pre). pose proof (zlen_nonneg ([] ++ post)). lia.
  - split.
    + rewrite rd_app_r, Z.sub_diag by lia. apply rd_cons_0.
    + specialize (IH (pre ++ [c]) post). rewrite zlen_app in IH. change (zlen [c]) with 1 in IH. by rewrite <- app_assoc in IH.
Qed.

Lemma holds_memcpy m s : forall p, holds m p s -> memcpy_from m p (zlen s) = Done s.
Proof.
  intros p H. pose proof (holds_range _ _ _ H). rewrite memcpy_from_ok by auto with onak lia. f_equal.
  unfold zlen at 1. rewrite Nat2Z.id. revert p H H0. induction s as [|c s IH]; intros p H Hr; [done|].
  cbn [holds] in H. destruct H as [Hc Hs]. apply rd_Done in Hc as [Hp Hc]. rewrite (drop_S _ _ _ Hc).
  cbn [length firstn]. f_equal. specialize (IH _ Hs). rewrite zlen_cons in Hr.
  replace (Z.to_nat (p + 1)) with (S (Z.to_nat p)) in IH by lia. apply IH. lia.
Qed.

(** A loop over a string. *)
Lemma advance_over go fuel (s : list Z) p :
  (forall pre c post, s = pre ++ c :: post -> go (p + zlen pre) = Done true) -> go (p + zlen s) = Done false ->
  zlen s <= Z.of_nat fuel -> advance fuel go p = Done (p + zlen s).
Proof.
  intros Hs He Hf. pose proof (zlen_nonneg s). apply advance_spec; [|done | lia | lia]. intros q Hq.
  destruct (lookup_lt_is_Some_2 s (Z.to_nat (q - p))) as [c Hc]; [unfold zlen in *; lia|].
  pose proof (take_drop_middle _ _ _ Hc) as Es. symmetry in Es. specialize (Hs _ _ _ Es).
  unfold zlen in Hs. rewrite length_take in Hs. replace q with (p + Z.of_nat (Z.to_nat (q - p) `min` length s)); [done|].
  apply lookup_lt_Some in Hc. lia.
Qed.

(** * Names *)

Lemma map_get_spec v key : Forall (fun c => c <> 0) key -> map_get v key = Done (member v key).
Proof.
  intros Hk. destruct v as [[| | | | |pairs]|]; cbn; try done. induction pairs as [|[k v] pairs IH]; cbn; [done|].
  rewrite key_matches_spec by done. cbn. by destruct (bool_decide _).
Qed.

Lemma find_frame_spec frames key : Forall (fun c => c <> 0) key -> find_frame frames key = Done (innermost frames key).
Proof.
  intros Hk. induction frames as [|f frames IH]; cbn; [done|]. rewrite map_get_spec by done. cbn. by destruct (member f key).
Qed.

Lemma memchr_none c s : Forall (fun x => x <> c) s -> memchr c s = None.
Proof. induction 1 as [|x s Hx _ IH]; cbn; [done|]. destruct (Z.eqb_spec x c); [done | by rewrite IH]. Qed.

Lemma memchr_app c s rest : Forall (fun x => x <> c) s -> memchr c (s ++ c :: rest) = Some (length s).
Proof. induction 1 as [|x s Hx _ IH]; cbn; [by rewrite Z.eqb_refl|]. destruct (Z.eqb_spec x c); [done | by rewrite IH]. Qed.

Lemma seg_ok_chars s : seg_ok s -> Forall (fun c => c <> 46) s /\ Forall (fun c => c <> 0) s.
Proof. intros [_ H]. split; (eapply Forall_impl; [exact H|]); unfold name_char; cbn; tauto. Qed.

(** A path is cut at its dots. *)
Lemma joined_split s segs : seg_ok s ->
  let text := joined 46 (s :: segs) in
  let n := match memchr 46 text with Some n => n | None => length text end in
  take n text = s /\ (fun n => drop (S n) text) <$> memchr 46 text = match segs with [] => None | _ => Some (joined 46 segs) end.
Proof.
  intros Hs. apply seg_ok_chars in Hs as [Hs _]. cbn [joined]. destruct segs as [|s2 segs]; cbn [map concat joined app].
  - rewrite app_nil_r, memchr_none by done. split; [by apply take_ge | done].
  - rewrite memchr_app by done. split; [by rewrite take_app_length|]. cbn. f_equal.
    rewrite drop_app_ge by lia. by replace (S (length s) - length s)%nat with 1%nat by lia.
Qed.

Lemma foldl_member_none segs : foldl member None segs = None.
Proof. by induction segs. Qed.

Lemma joined_length s segs : Forall seg_ok (s :: segs) -> (length (s :: segs) <= length (joined 46 (s :: segs)))%nat.
Proof.
  revert s. induction segs as [|s2 segs IH]; intros s H.
  - cbn. rewrite app_nil_r. apply Forall_inv in H as [Hne _]. destruct s; cbn; [done | lia].
  - apply Forall_cons in H as [_ H]. specialize (IH s2 H). cbn in *. rewrite !length_app in *. cbn. rewrite length_app. lia.
Qed.

Lemma walk_path_spec segs : forall s fuel v, Forall seg_ok (s :: segs) -> (length segs < fuel)%nat ->
  walk_path fuel v (Some (joined 46 (s :: segs))) = Done (foldl member (Some v) (s :: segs)).
Proof.
  induction segs as [|s2 segs IH]; intros s fuel v Hs Hf; (destruct fuel as [|fuel]; [cbn in Hf; lia|]);
    apply Forall_cons in Hs as [Hs Hr]; cbn [walk_path].
  - destruct (joined_split s [] Hs) as [-> ->]. rewrite map_get_spec by by apply seg_ok_chars.
    cbn [mbind outcome_bind foldl]. by destruct (member (Some v) s), fuel.
  - destruct (joined_split s (s2 :: segs) Hs) as [-> ->]. rewrite map_get_spec by by apply seg_ok_chars.
    cbn [mbind outcome_bind]. change (foldl member (Some v) (s :: ?l)) with (foldl member (member (Some v) s) l).
    destruct (member (Some v) s) as [v'|]; [apply IH; [done | cbn in Hf; lia] | by rewrite foldl_member_none].
Qed.

Lemma lookup_spec frames n : name_ok n -> lookup frames (name_text n) = Done (resolve frames n).
Proof.
  unfold lookup. destruct n as [|segs]; [done|]. intros (Hne & Hs & _). destruct segs as [|s segs]; [done|].
  pose proof (joined_length s segs Hs) as Hl.
  assert (Hs1 : seg_ok s) by by apply Forall_inv in Hs.
  rewrite bool_decide_false.
  2: { cbn [name_text joined]. apply seg_ok_chars in Hs1 as [Hd _]. apply Forall_inv in Hs as [Hs _].
       destruct s as [|c s]; [done|]. apply Forall_inv in Hd. cbn. congruence. }
  cbn [name_text] in *. destruct (joined_split s segs Hs1) as [-> ->]. rewrite find_frame_spec by by apply seg_ok_chars.
  cbn [mbind outcome_bind resolve]. destruct (innermost frames s) as [v|]; [|by rewrite foldl_member_none].
  destruct segs as [|s2 segs]; [done|]. apply Forall_cons in Hs as [_ Hs].
  apply walk_path_spec; [done|]. cbn [length] in *. lia.
Qed.

(** * Tags *)

Definition text_char (c : Z) : Prop := c <> 0.

Lemma name_chars n : name_ok n -> Forall name_char (name_text n) /\ name_text n <> [].
Proof.
  destruct n as [|segs]; [intros _; split; [by repeat constructor | done]|]. intros (Hne & Hs & Hh). cbn [name_text] in *.
  split; [|by destruct (joined 46 segs)]. clear Hh Hne. destruct segs as [|s segs]; [constructor|]. cbn [joined].
  apply Forall_cons in Hs as [Hs Hr]. apply Forall_app. split.
  - destruct Hs as [_ Hs]. eapply Forall_impl; [exact Hs|]. cbn. tauto.
  - induction Hr as [|s2 segs Hs2 _ IH]; cbn; [constructor|]. constructor; [by repeat split|]. apply Forall_app. split; [|done].
    destruct Hs2 as [_ Hs2]. eapply Forall_impl; [exact Hs2|]. cbn. tauto.
Qed.

(** What the tests of the scanners say at a character of a name. *)
Lemma name_char_tests c : name_char c ->
  blank c = false /\ (c =? 125) = false /\ (c =? 0) = false.
Proof.
  intros (H0 & H32 & H9 & H125). unfold blank.
  by destruct (Z.eqb_spec c 32), (Z.eqb_spec c 9), (Z.eqb_spec c 125), (Z.eqb_spec c 0).
Qed.

Section Tags.
Context (m : list Z).

Lemma holds_mid s p pre c post : holds m p s -> s = pre ++ c :: post -> m.[p + zlen pre] = Done c.
Proof. intros H ->. apply holds_app in H as [_ H]. apply H. Qed.

Lemma holds_fuel s p : holds m p s -> zlen s <= Z.of_nat (length m).
Proof. intros H. apply holds_range in H. unfold zlen in *. lia. Qed.

Lemma twice_holds c p s : holds m p (c :: c :: s) -> twice m c p = Done true.
Proof. intros (E0 & E1 & _). unfold twice. rewrite E0. cbn. rewrite Z.eqb_refl, E1. cbn. by rewrite Z.eqb_refl. Qed.

Lemma thrice_holds c p s : holds m p (c :: c :: c :: s) -> thrice m c p = Done true.
Proof.
  intros H. unfold thrice. rewrite (twice_holds c p (c :: s)) by done. destruct H as (_ & _ & E & _). cbn.
  replace (p + 2) with (p + 1 + 1) by lia. rewrite E. cbn. by rewrite Z.eqb_refl.
Qed.

Lemma twice_other c x p : m.[p] = Done x -> x <> c -> twice m c p = Done false.
Proof. intros E Hx. unfold twice. rewrite E. cbn. by destruct (Z.eqb_spec x c). Qed.

Lemma twice_plain c p pre x post rest : holds m p ((pre ++ x :: post) ++ rest) -> plain c (pre ++ x :: post) = true ->
  twice m c (p + zlen pre) = Done false.
Proof.
  intros H Hp. assert (Hx : plain c (x :: post) = true).
  { clear H. induction pre as [|y pre IH]; [done|]. cbn [app plain] in Hp. apply andb_prop in Hp as [_ Hp]. auto. }
  cbn [plain] in Hx. apply andb_prop in Hx as [Hx _]. rewrite <- app_assoc in H. apply holds_app in H as [_ H].
  destruct H as [E H]. unfold twice. rewrite E. cbn. destruct (Z.eqb_spec x c); [|done]. cbn in Hx.
  destruct post as [|y post]; [done|]. destruct H as [E1 _]. rewrite E1. cbn. by destruct (y =? c).
Qed.

(** The loops that look for the end of a tag. *)
Lemma skip_tag_comment p s rest : Forall text_char s -> plain 125 s = true -> holds m p (s ++ 125 :: 125 :: rest) ->
  skip_tag m (twice m 125) 2 p = Done (p + zlen s + 2).
Proof.
  intros Hc Hp H. pose proof (proj1 (holds_app _ _ _ _) H) as [Hs He]. unfold skip_tag.
  rewrite (advance_over _ (length m) s p); [| | |by eapply holds_fuel].
  - cbn [mbind outcome_bind]. destruct He as [E _]. by rewrite E.
  - intros pre c post Es. rewrite (holds_mid s p pre c post Hs Es). cbn.
    rewrite Es in Hc. apply Forall_app in Hc as [_ Hc]. apply Forall_inv in Hc. destruct (Z.eqb_spec c 0); [done|].
    subst s. by rewrite (twice_plain 125 p pre c post (125 :: 125 :: rest)).
  - rewrite (twice_holds 125 _ rest) by done. destruct He as [E _]. by rewrite E.
Qed.

Lemma skip_tag_raw p s rest : Forall name_char s -> holds m p (s ++ 125 :: 125 :: 125 :: rest) ->
  skip_tag m (thrice m 125) 3 p = Done (p + zlen s + 3).
Proof.
  intros Hc H. pose proof (proj1 (holds_app _ _ _ _) H) as [Hs He]. unfold skip_tag.
  rewrite (advance_over _ (length m) s p); [| | |by eapply holds_fuel].
  - cbn [mbind outcome_bind]. destruct He as [E _]. by rewrite E.
  - intros pre c post Es. pose proof (holds_mid s p pre c post Hs Es) as E. rewrite E. cbn.
    rewrite Es in Hc. apply Forall_app in Hc as [_ Hc]. apply Forall_inv in Hc as (H0 & _ & _ & H125).
    destruct (Z.eqb_spec c 0); [done|]. unfold thrice. by rewrite (twice_other 125 c).
  - rewrite (thrice_holds 125 _ rest) by done. destruct He as [E _]. by rewrite E.
Qed.

Lemma names_plain s : Forall name_char s -> Forall text_char s /\ plain 125 s = true.
Proof.
  induction 1 as [|c s (H0 & _ & _ & Hc) _ [IH1 IH2]]; [done|]. split; [by constructor|]. cbn [plain].
  destruct (Z.eqb_spec c 125); [done | by rewrite IH2].
Qed.

Lemma skip_close_holds end_ p s rest : plain 125 s = true -> holds m p (s ++ 125 :: 125 :: rest) ->
  p + zlen s + 2 <= end_ -> skip_close m end_ p = Done (p + zlen s + 2).
Proof.
  intros Hp H Hend. pose proof (proj1 (holds_app _ _ _ _) H) as [Hs He]. unfold skip_close.
  rewrite (advance_over _ (length m) s p); [| | |by eapply holds_fuel].
  - cbn [mbind outcome_bind]. by rewrite (proj2 (Z.ltb_lt _ _)) by lia.
  - intros pre c post Es. assert (zlen pre < zlen s) by (rewrite Es, zlen_app, zlen_cons; pose proof (zlen_nonneg post); lia).
    rewrite (proj2 (Z.ltb_lt _ _)) by lia. subst s. by rewrite (twice_plain 125 p pre c post (125 :: 125 :: rest)).
  - rewrite (proj2 (Z.ltb_lt _ _)) by lia. by rewrite (twice_holds 125 _ rest).
Qed.

Lemma skip_blank_none end_ p c : m.[p] = Done c -> blank c = false -> skip_blank m end_ p = Done p.
Proof.
  intros E Hb. apply advance_spec; try lia. destruct (p <? end_); [|done]. unfold at_blank. rewrite E. cbn [mbind outcome_bind]. by rewrite Hb.
Qed.

Lemma advance_blank_none fuel p c : m.[p] = Done c -> blank c = false -> advance fuel (at_blank m) p = Done p.
Proof. intros E Hb. apply advance_spec; try lia. unfold at_blank. rewrite E. cbn [mbind outcome_bind]. by rewrite Hb. Qed.

Lemma tag_name_holds end_ p s rest : Forall name_char s -> holds m p (s ++ 125 :: rest) -> p + zlen s < end_ ->
  tag_name m end_ p = Done (s, p + zlen s).
Proof.
  intros Hc H Hend. pose proof (proj1 (holds_app _ _ _ _) H) as [Hs He]. destruct He as [E _]. unfold tag_name.
  rewrite (skip_blank_none end_ p (match s with [] => 125 | c :: _ => c end)).
  2: { destruct s; [|by destruct Hs]. change (zlen (@nil Z)) with 0 in E. by rewrite Z.add_0_r in E. }
  2: { destruct Hc as [|c s Hc _]; [done | by apply name_char_tests]. }
  cbn [mbind outcome_bind]. rewrite (advance_over _ (length m) s p); [| | |by eapply holds_fuel].
  - cbn [mbind outcome_bind]. replace (p + zlen s - p) with (zlen s) by lia. rewrite holds_memcpy by done.
    cbn [mbind outcome_bind]. by rewrite (skip_blank_none end_ _ 125).
  - intros pre c post Es. assert (zlen pre < zlen s) by (rewrite Es, zlen_app, zlen_cons; pose proof (zlen_nonneg post); lia).
    rewrite (proj2 (Z.ltb_lt _ _)) by lia. rewrite (holds_mid s p pre c post Hs Es). cbn [mbind outcome_bind]. rewrite Es in Hc.
    apply Forall_app in Hc as [_ Hc]. apply Forall_inv in Hc. by destruct (name_char_tests c Hc) as (-> & -> & ->).
  - rewrite (proj2 (Z.ltb_lt _ _)) by lia. by rewrite E.
Qed.

End Tags.

(** * The end of a section *)

Lemma name_head n : name_ok n -> exists c s, name_text n = c :: s /\ name_char c /\
  (c =? 35) = false /\ (c =? 94) = false /\ (c =? 47) = false /\ (c =? 33) = false /\ (c =? 123) = false.
Proof.
  intros H. destruct (name_chars n H) as [Hc Hne]. destruct (name_text n) as [|c s] eqn:E; [done|]. exists c, s.
  apply Forall_inv in Hc. split; [done|]. split; [done|]. destruct n as [|segs]; cbn [name_ok name_text] in *.
  - injection E as <- <-. done.
  - destruct H as (_ & _ & H). rewrite E in H.
    destruct (Z.eqb_spec c 35), (Z.eqb_spec c 94), (Z.eqb_spec c 47), (Z.eqb_spec c 33), (Z.eqb_spec c 123); tauto.
Qed.

Lemma body_ok body : fold_right (fun d P => node_ok d /\ P) True body <-> Forall node_ok body.
Proof. induction body as [|d body IH]; cbn; [split; constructor|]. by rewrite Forall_cons, IH. Qed.

(** The end of a step at a section tag. *)
Definition after_tag (nm s : list Z) (tag depth p q : Z) : Z + Z * Z :=
  if bool_decide (s = nm) then
    if tag =? 47 then if depth - 1 =? 0 then inl p else inr (q, depth - 1) else inr (q, i32 (depth + 1))
  else inr (q, depth).

Section Scanning.
Context (m : list Z) (nm : list Z).

Lemma section_step_tag tag s p rest depth : tag = 35 \/ tag = 94 \/ tag = 47 -> Forall name_char s -> s <> [] ->
  holds m p ([123; 123; tag] ++ s ++ [125; 125] ++ rest) ->
  section_step m nm depth p = Done (after_tag nm s tag depth p (p + zlen s + 5)).
Proof.
  intros Htag Hc Hne H. pose proof H as Hopen. cbn [app] in Hopen. apply holds_app in H as [(_ & _ & Et & _) H].
  change (zlen [123; 123; tag]) with 3 in H. apply holds_app in H as [Hs He].
  unfold section_step. rewrite (twice_holds m 123 p _ Hopen). cbn [mbind outcome_bind negb].
  replace (p + 1 + 1) with (p + 2) in Et by lia.
  rewrite (advance_blank_none m _ (p + 2) tag) by (done || by destruct Htag as [-> | [-> | ->]]).
  cbn [mbind outcome_bind]. rewrite Et. cbn [mbind outcome_bind].
  replace ((tag =? 35) || (tag =? 94) || (tag =? 47)) with true by (by destruct Htag as [-> | [-> | ->]]).
  replace (p + 2 + 1) with (p + 3) by lia.
  destruct s as [|c s]; [done|]. pose proof Hc as Hc1. apply Forall_inv in Hc1.
  rewrite (advance_blank_none m _ (p + 3) c) by (apply Hs || by apply name_char_tests). cbn [mbind outcome_bind].
  set (w := c :: s) in *. destruct He as (E1 & E2 & He).
  rewrite (advance_over _ (length m) w (p + 3)); [| | |by eapply holds_fuel].
  - cbn [mbind outcome_bind]. rewrite (advance_blank_none m _ _ 125) by done. cbn [mbind outcome_bind].
    rewrite (twice_holds m 125 (p + 3 + zlen w) rest) by done. cbn [mbind outcome_bind].
    replace (p + 3 + zlen w - (p + 3)) with (zlen w) by lia. unfold after_tag.
    replace (p + 3 + zlen w + 2) with (p + zlen w + 5) by lia.
    destruct (Z.eqb_spec (zlen w) (zlen nm)) as [El|El].
    + rewrite holds_memcpy by done. cbn [mbind outcome_bind]. case_bool_decide; [|done]. by destruct (tag =? 47), (depth - 1 =? 0).
    + cbn [mbind outcome_bind]. rewrite bool_decide_false; [done | congruence].
  - intros pre x post Es. rewrite (holds_mid m w (p + 3) pre x post Hs Es). cbn [mbind outcome_bind].
    rewrite Es in Hc. apply Forall_app in Hc as [_ Hc]. apply Forall_inv in Hc. by destruct (name_char_tests x Hc) as (-> & -> & ->).
  - by rewrite E1.
Qed.

(** One turn of the loop that does not end it. *)
Definition scan (a b : Z * Z) : Prop :=
  (exists c, m.[a.1] = Done c /\ c <> 0) /\ section_step m nm a.2 a.1 = Done (inr b).

Lemma scan_text s : forall p depth, Forall text_char s -> plain 123 s = true -> holds m p s ->
  rtc scan (p, depth) (p + zlen s, depth).
Proof.
  induction s as [|c s IH]; intros p depth Hc Hp H.
  { change (zlen (@nil Z)) with 0. rewrite Z.add_0_r. constructor. }
  pose proof H as [E Hs]. apply Forall_cons in Hc as [Hc0 Hc]. eapply (rtc_l _ _ (p + 1, depth)).
  - split; [by exists c|]. unfold section_step. cbn [fst snd].
    assert (Ht : twice m 123 p = Done false).
    { pose proof (twice_plain m 123 p [] c s []) as Ht. change (zlen (@nil Z)) with 0 in Ht. rewrite Z.add_0_r in Ht.
      apply Ht; [by rewrite app_nil_r | done]. }
    by rewrite Ht.
  - cbn [plain] in Hp. apply andb_prop in Hp as [_ Hp]. specialize (IH (p + 1) depth Hc Hp Hs).
    rewrite zlen_cons. by replace (p + (1 + zlen s)) with (p + 1 + zlen s) by lia.
Qed.

(** A comment or a variable. *)
Lemma scan_open tag p s : holds m p ([123; 123; tag] ++ s) -> blank tag = false ->
  (tag =? 35) || (tag =? 94) || (tag =? 47) = false -> forall depth q,
  (if tag =? 33 then skip_tag m (twice m 125) 2 (p + 2)
   else if tag =? 123 then skip_tag m (thrice m 125) 3 (p + 2 + 1) else skip_tag m (twice m 125) 2 (p + 2)) = Done q ->
  rtc scan (p, depth) (q, depth).
Proof.
  intros H Hb Ht depth q Eq. apply rtc_once. split; [exists 123; split; [apply H | done]|].
  unfold section_step. cbn [fst snd]. rewrite (twice_holds m 123 p _ H). cbn [mbind outcome_bind negb].
  cbn [app holds] in H. replace (p + 1 + 1) with (p + 2) in H by lia. destruct H as (_ & _ & Et & _).
  rewrite (advance_blank_none m _ (p + 2) tag) by done. cbn [mbind outcome_bind]. rewrite Et. cbn [mbind outcome_bind].
  rewrite Ht. destruct (tag =? 33); [by rewrite Eq|]. by destruct (tag =? 123); rewrite Eq.
Qed.

(** The scan passes over a text and comes out at the depth it went in with. *)
Definition passes (s : list Z) : Prop := forall p depth, holds m p s ->
  1 <= depth -> depth + zlen s < 2 ^ 31 -> rtc scan (p, depth) (p + zlen s, depth).

Lemma scan_list nodes : Forall (fun d => passes (print_node d)) nodes -> passes (print_nodes nodes).
Proof.
  unfold print_nodes. induction 1 as [|d nodes Hd _ IH]; intros p depth H H1 H2; cbn [map concat] in *.
  - change (zlen (@nil Z)) with 0. rewrite Z.add_0_r. constructor.
  - apply holds_app in H as [Ha Hr]. rewrite zlen_app in H2 |- *.
    pose proof (zlen_nonneg (print_node d)). pose proof (zlen_nonneg (concat (map print_node nodes))).
    etrans; [apply Hd; auto with lia|]. rewrite Z.add_assoc. apply IH; auto with lia.
Qed.

Lemma scan_node d : node_ok d -> passes (print_node d).
Proof.
  induction d as [s | s | raw n | inverted n body IH] using node_ind'; cbn [print_node node_ok]; intros Hok p depth H Hd Hlen.
  - destruct Hok. by apply scan_text.
  - destruct Hok as [Hc Hp]. apply (scan_open 33 p (s ++ [125; 125])); [done..|]. cbn [Z.eqb]. cbn [app] in H.
    destruct H as (_ & _ & H). replace (p + 1 + 1) with (p + 2) in H by lia.
    change (33 :: s ++ [125; 125]) with ((33 :: s) ++ [125; 125]) in H.
    change (33 =? 33) with true. rewrite (skip_tag_comment m (p + 2) (33 :: s) []).
    + f_equal. autorewrite with onak. lia.
    + by constructor.
    + cbn [plain]. by rewrite Hp.
    + done.
  - destruct (name_chars n Hok) as [Hc _]. destruct raw.
    + apply (scan_open 123 p (name_text n ++ [125; 125; 125])); [done..|]. change (123 =? 33) with false. change (123 =? 123) with true.
      apply holds_app in H as [_ H]. change (zlen [123; 123; 123]) with 3 in H. replace (p + 2 + 1) with (p + 3) by lia.
      rewrite (skip_tag_raw m (p + 3) (name_text n) []) by done. f_equal. autorewrite with onak. lia.
    + destruct (name_head n Hok) as (c & s & E & Hn & H1 & H2 & H3 & H4 & H5). rewrite E in *.
      apply (scan_open c p (s ++ [125; 125])); [done | by apply name_char_tests | by rewrite H1, H2, H3 |].
      rewrite H4, H5. destruct (names_plain _ Hc) as [Ht Hp]. apply holds_app in H as [_ H].
      change (zlen [123; 123]) with 2 in H. rewrite (skip_tag_comment m (p + 2) (c :: s) []) by done.
      f_equal. autorewrite with onak. lia.
  - destruct Hok as [Hn Hb]. destruct (name_chars n Hn) as [Hc Hne]. set (w := name_text n) in *.
    set (B := concat (map print_node body)) in *.
    assert (Hbody : forall p depth, holds m p B -> 1 <= depth -> depth + zlen B < 2 ^ 31 -> rtc scan (p, depth) (p + zlen B, depth)).
    { apply scan_list. rewrite body_ok in Hb. clear -IH Hb. induction Hb; inversion IH; constructor; auto. }
    set (tag := if inverted then 94 else 35) in *.
    assert (Htag : tag = 35 \/ tag = 94) by (unfold tag; destruct inverted; auto).
    pose proof H as Hall. apply holds_app in H as [_ H]. change (zlen [123; 123; tag]) with 3 in H.
    apply holds_app in H as [_ H]. apply holds_app in H as [_ H]. change (zlen [125; 125]) with 2 in H.
    apply holds_app in H as [HB Hclose]. autorewrite with onak in Hlen |- *.
    pose proof (zlen_nonneg w). pose proof (zlen_nonneg B).
    set (depth' := if bool_decide (w = nm) then depth + 1 else depth).
    assert (Hd' : 1 <= depth' <= depth + 1) by (unfold depth'; case_bool_decide; lia).
    eapply (rtc_l _ _ (p + zlen w + 5, depth')).
    { split; [exists 123; split; [apply Hall | done]|]. cbn [fst snd].
      rewrite (section_step_tag tag w p (B ++ [123; 123; 47] ++ w ++ [125; 125])) by (tauto || done).
      unfold after_tag, depth'. case_bool_decide; [|done]. destruct (Z.eqb_spec tag 47); [lia|]. by rewrite i32_small by lia. }
    replace (p + 3 + zlen w + 2) with (p + zlen w + 5) in * by lia.
    etrans; [apply Hbody; auto with lia|].
    apply rtc_once. split; [exists 123; split; [apply Hclose | done]|]. cbn [fst snd].
    rewrite (section_step_tag 47 w _ []) by (tauto || by rewrite ?app_nil_r).
    unfold after_tag, depth'. change (47 =? 47) with true. case_bool_decide.
    + destruct (Z.eqb_spec (depth + 1 - 1) 0); [lia|]. do 3 f_equal; lia.
    + do 3 f_equal; lia.
Qed.

End Scanning.

Lemma scan_loop t nm a b : rtc (scan (t ++ [0]) nm) a b -> forall fuel,
  0 <= a.1 <= zlen t -> zlen t - a.1 <= Z.of_nat fuel ->
  exists fuel', a.1 <= b.1 <= zlen t /\ zlen t - b.1 <= Z.of_nat fuel' /\
    section_loop (t ++ [0]) fuel nm a.2 a.1 = section_loop (t ++ [0]) fuel' nm b.2 b.1.
Proof.
  induction 1 as [a | [p d] [p' d'] b [(c & E & Hc) Hstep] _ IH]; intros fuel Ha Hf; cbn [fst snd] in *.
  { exists fuel. auto with lia. }
  destruct (text_rd t p) as (c' & E' & Hlt); [lia|]. rewrite E in E'. injection E' as <-. specialize (Hlt Hc).
  destruct (section_step_total t nm d p) as (r & Er & Hr); [lia|]. rewrite Er in Hstep. injection Hstep as ->.
  destruct fuel as [|fuel]; [lia|]. destruct (IH fuel) as (fuel' & Hb & Hf' & Eq); [lia..|].
  exists fuel'. split; [lia|]. split; [done|]. rewrite <- Eq. cbn [section_loop]. rewrite E. cbn [mbind outcome_bind].
  destruct (Z.eqb_spec c 0); [done|]. by rewrite Er.
Qed.

Lemma find_section_end_holds t body n p rest : Forall node_ok body -> name_ok n -> zlen (print_nodes body) < 2 ^ 31 - 1 ->
  holds (t ++ [0]) p (print_nodes body ++ [123; 123; 47] ++ name_text n ++ [125; 125] ++ rest) ->
  find_section_end (t ++ [0]) p (name_text n) = Done (Some (p + zlen (print_nodes body))).
Proof.
  intros Hb Hn Hlen H. pose proof (holds_range _ _ _ H) as Hr. autorewrite with onak in Hr.
  pose proof (zlen_nonneg (print_nodes body)). pose proof (zlen_nonneg (name_text n)). pose proof (zlen_nonneg rest).
  apply holds_app in H as [HB Hc]. destruct (name_chars n Hn) as [Hch Hne].
  assert (Hs : rtc (scan (t ++ [0]) (name_text n)) (p, 1) (p + zlen (print_nodes body), 1)).
  { apply scan_list; [|done..|lia]. eapply Forall_impl; [exact Hb|]. intros d. apply scan_node. }
  unfold find_section_end. destruct (scan_loop t _ _ _ Hs (length (t ++ [0]))) as (fuel & Hq & Hf & E);
    cbn [fst snd] in *; [lia | apply text_fuel; lia |]. rewrite E.
  destruct fuel as [|fuel]; [lia|]. cbn [section_loop]. pose proof Hc as [Eo _]. rewrite Eo. cbn [mbind outcome_bind].
  change (123 =? 0) with false. cbv iota.
  rewrite (section_step_tag (t ++ [0]) (name_text n) 47 (name_text n) _ rest) by (tauto || done).
  unfold after_tag. by rewrite bool_decide_true.
Qed.

(** * Output *)

Section Output.
Context {S : Type} (out : S -> Z -> S * Z).

(** Puts [r] behind what gave [(ctx, rc)], unless that was aborted. *)
Definition andthen {A} (r : S * Z) (stop : S * Z -> A) (go : S -> A) : A := if r.2 <? 0 then stop r else go r.1.

Lemma emit_str_app a b : forall ctx, emit_str out (a ++ b) ctx = andthen (emit_str out a ctx) id (emit_str out b).
Proof.
  unfold andthen. induction a as [|c a IH]; intros ctx; cbn; [done|]. destruct (out ctx c) as [ctx' rc].
  destruct (rc <? 0) eqn:E; cbn; [by rewrite E | apply IH].
Qed.

(** The result is negative or 0. *)
Lemma emit_str_sign s : forall ctx, ((emit_str out s ctx).2 <? 0) = false -> (emit_str out s ctx).2 = 0.
Proof.
  induction s as [|x s IH]; intros c; cbn; [done|]. destruct (out c x) as [c' rc].
  destruct (rc <? 0) eqn:E; [cbn; congruence | apply IH].
Qed.

Lemma emit_then_end s ctx : andthen (emit_str out s ctx) Done (fun ctx => Done (ctx, 0)) = Done (emit_str out s ctx).
Proof.
  unfold andthen. pose proof (emit_str_sign s ctx) as H. destruct (emit_str out s ctx) as [c rc]. cbn in *.
  destruct (rc <? 0); [done | by rewrite H].
Qed.

Lemma emit_escaped_spec s : forall ctx, emit_escaped out s ctx = emit_str out (escape s) ctx.
Proof.
  unfold escape. induction s as [|c s IH]; intros ctx; cbn [map concat emit_escaped]; [done|]. rewrite emit_str_app. unfold andthen.
  destruct (entity c) as [rep|].
  - destruct (emit_str out rep ctx) as [ctx' rc]. cbn. by destruct (rc <? 0).
  - cbn [emit_str]. destruct (out ctx c) as [ctx' rc]. destruct (rc <? 0) eqn:E; cbn; [by rewrite E | done].
Qed.

Lemma emit_value_spec v raw ctx : emit_value out v (negb raw) ctx = emit_str out (value_text v raw) ctx.
Proof. destruct v as [[| | | s | |]|]; try done. destruct raw; [done | apply emit_escaped_spec]. Qed.

End Output.

(** * Rendering gives the meaning *)

Section Rendering.
Context {S : Type} (out : S -> Z -> S * Z) (t : list Z) (Hsize : zlen t < 2 ^ 31 - 1).
Let m := t ++ [0].

(** Rendering puts out the meaning of a node and goes on behind it. *)
Definition renders (text : list Z) (sem : list (option tmpl_value) -> list Z) : Prop :=
  forall fuel (k : nat) p end_ frame ctx,
  holds m p text -> p + zlen text <= end_ -> zlen text + Z.of_nat k < Z.of_nat fuel ->
  exists fuel', (k < fuel')%nat /\ render_range out fuel m p end_ frame ctx =
    andthen (emit_str out (sem frame) ctx) Done (render_range out fuel' m (p + zlen text) end_ frame).

Lemma renders_nil : renders [] (fun _ => []).
Proof.
  intros fuel k p end_ frame ctx _ _ Hf. change (zlen (@nil Z)) with 0 in *. exists fuel. split; [lia|].
  rewrite Z.add_0_r. done.
Qed.

Lemma renders_app a b f g : renders a f -> renders b g -> renders (a ++ b) (fun frame => f frame ++ g frame).
Proof.
  intros Ha Hb fuel k p end_ frame ctx H He Hf. apply holds_app in H as [H1 H2]. rewrite zlen_app in *.
  pose proof (zlen_nonneg a). pose proof (zlen_nonneg b).
  destruct (Ha fuel (length b + k)%nat p end_ frame ctx H1) as (f1 & Hf1 & ->); [lia | unfold zlen in *; lia |].
  rewrite emit_str_app. destruct (emit_str out (f frame) ctx) as [ctx' rc]. unfold andthen at 1 3. cbn [fst snd].
  destruct (rc <? 0) eqn:E.
  - exists f1. split; [lia|]. unfold andthen. cbn. by rewrite E.
  - destruct (Hb f1 k (p + zlen a) end_ frame ctx' H2) as (f2 & Hf2 & ->); [lia | unfold zlen in *; lia |].
    exists f2. by rewrite Z.add_assoc.
Qed.

Lemma renders_concat {A} (l : list A) text sem :
  Forall (fun d => renders (text d) (fun frame => sem frame d)) l ->
  renders (concat (map text l)) (fun frame => concat (map (sem frame) l)).
Proof.
  induction 1 as [|d l Hd _ IH]; cbn; [apply renders_nil|].
  exact (renders_app _ _ _ _ Hd IH).
Qed.

Lemma renders_text s : Forall text_char s -> plain 123 s = true -> renders s (fun _ => s).
Proof.
  induction s as [|c s IH]; intros Hc Hp; [apply renders_nil|].
  apply Forall_cons in Hc as [Hc0 Hc]. pose proof Hp as Hp'. cbn [plain] in Hp'. apply andb_prop in Hp' as [_ Hp'].
  specialize (IH Hc Hp'). intros fuel k p end_ frame ctx H He Hf. rewrite zlen_cons in *. pose proof (zlen_nonneg s).
  assert (Ht : twice m 123 p = Done false).
  { pose proof (twice_plain m 123 p [] c s []) as Ht. change (zlen (@nil Z)) with 0 in Ht. rewrite Z.add_0_r in Ht.
    apply Ht; [by rewrite app_nil_r | done]. }
  destruct H as [Ec Hs]. destruct fuel as [|fuel]; [lia|]. cbn [render_range emit_str].
  rewrite (proj2 (Z.ltb_lt _ _)) by lia. rewrite Ec. cbn [mbind outcome_bind]. destruct (Z.eqb_spec c 0); [done|].
  rewrite Ht. cbn [mbind outcome_bind negb]. destruct (out ctx c) as [ctx' rc]. destruct (rc <? 0) eqn:E.
  - exists (Datatypes.S k). split; [lia|]. unfold andthen. cbn. by rewrite E.
  - destruct (IH fuel k (p + 1) end_ frame ctx' Hs) as (f & Hf' & ->); [lia..|]. exists f. split; [done|].
    by replace (p + (1 + zlen s)) with (p + 1 + zlen s) by lia.
Qed.

(** The beginning of a turn at a tag. *)
Lemma render_tag fuel p end_ frame ctx kind s : holds m p ([123; 123; kind] ++ s) -> blank kind = false -> p + 2 < end_ ->
  render_range out (Datatypes.S fuel) m p end_ frame ctx =
  if (kind =? 47) || (kind =? 33) then p ← skip_close m end_ (p + 2); render_range out fuel m p end_ frame ctx
  else
    '(name, p) ← tag_name m end_ (if (kind =? 123) || ((kind =? 35) || (kind =? 94)) then p + 2 + 1 else p + 2);
    closed ← tag_close m (kind =? 123) end_ p;
    match closed with
    | None => Done (ctx, -1)
    | Some p =>
        value ← lookup frame name;
        if (kind =? 35) || (kind =? 94) then
          body_end ← find_section_end m p name;
          match body_end with
          | None => Done (ctx, -1)
          | Some body_end =>
              '(ctx, rc) ← render_section (fun v => render_range out fuel m p body_end (v :: frame)) value (kind =? 94) ctx;
              if rc <? 0 then Done (ctx, rc)
              else p ← skip_close m end_ body_end; render_range out fuel m p end_ frame ctx
          end
        else
          let '(ctx, rc) := emit_value out value (negb (kind =? 123)) ctx in
          if rc <? 0 then Done (ctx, rc) else render_range out fuel m p end_ frame ctx
    end.
Proof.
  intros H Hb He. cbn [render_range]. rewrite (proj2 (Z.ltb_lt _ _)) by lia.
  pose proof H as (E0 & _ & Ek & _). replace (p + 1 + 1) with (p + 2) in Ek by lia.
  rewrite E0. cbn [mbind outcome_bind]. change (123 =? 0) with false. cbv iota.
  rewrite (twice_holds m 123 p _ H). cbn [mbind outcome_bind negb].
  rewrite (skip_blank_none m end_ (p + 2) kind) by done. cbn [mbind outcome_bind].
  rewrite (proj2 (Z.leb_gt _ _)) by lia. by rewrite Ek.
Qed.

Lemma renders_comment s : Forall text_char s -> plain 125 s = true -> renders (print_node (Comment s)) (fun _ => []).
Proof.
  intros Hc Hp fuel k p end_ frame ctx H He Hf. cbn [print_node] in *. autorewrite with onak in He, Hf.
  pose proof (zlen_nonneg s). destruct fuel as [|fuel]; [lia|]. exists fuel. split; [lia|].
  rewrite (render_tag fuel p end_ frame ctx 33 _ H) by (done || lia). change ((33 =? 47) || (33 =? 33)) with true. cbv iota.
  destruct H as (_ & _ & H). replace (p + 1 + 1) with (p + 2) in H by lia.
  rewrite (skip_close_holds m end_ (p + 2) (33 :: s) []) by (cbn [plain]; rewrite ?Hp; autorewrite with onak; done || lia).
  cbn [mbind outcome_bind emit_str]. unfold andthen. cbn [fst snd]. f_equal. autorewrite with onak. lia.
Qed.

(** A tag with a name. *)
Lemma tag_close_var end_ p rest : holds m p ([125; 125] ++ rest) -> p + 2 <= end_ -> tag_close m false end_ p = Done (Some (p + 2)).
Proof. intros H He. unfold tag_close. rewrite (proj2 (Z.leb_gt _ _)) by lia. by rewrite (twice_holds m 125 p rest). Qed.

Lemma tag_close_raw end_ p rest : holds m p ([125; 125; 125] ++ rest) -> p + 3 <= end_ -> tag_close m true end_ p = Done (Some (p + 3)).
Proof. intros H He. unfold tag_close. rewrite (proj2 (Z.leb_gt _ _)) by lia. by rewrite (thrice_holds m 125 p rest). Qed.

Lemma renders_var raw n : name_ok n -> renders (print_node (Var raw n)) (fun frame => meaning frame (Var raw n)).
Proof.
  intros Hn fuel k p end_ frame ctx H He Hf. destruct (name_chars n Hn) as [Hc _]. pose proof (zlen_nonneg (name_text n)).
  cbn [meaning]. destruct raw; cbn [print_node] in *; autorewrite with onak in He, Hf; (destruct fuel as [|fuel]; [lia|]);
    exists fuel; (split; [lia|]).
  - rewrite (render_tag fuel p end_ frame ctx 123 _ H) by (done || lia).
    change ((123 =? 47) || (123 =? 33)) with false. change ((123 =? 123) || _) with true. cbv iota.
    apply holds_app in H as [_ H]. change (zlen [123; 123; 123]) with 3 in H. replace (p + 2 + 1) with (p + 3) by lia.
    rewrite (tag_name_holds m end_ (p + 3) (name_text n) [125; 125]) by (done || lia). cbn [mbind outcome_bind].
    apply holds_app in H as [_ H]. change (123 =? 123) with true.
    rewrite (tag_close_raw end_ _ []) by (done || lia). cbn [mbind outcome_bind]. rewrite lookup_spec by done.
    cbn [mbind outcome_bind]. change ((123 =? 35) || (123 =? 94)) with false. cbv iota.
    rewrite (emit_value_spec out _ true). destruct (emit_str out _ ctx) as [ctx' rc]. unfold andthen. cbn [fst snd].
    destruct (rc <? 0); [done|]. f_equal. autorewrite with onak. lia.
  - destruct (name_head n Hn) as (c & s & E & Hcc & H1 & H2 & H3 & H4 & H5). pose proof H as H'. rewrite E in H'.
    rewrite (render_tag fuel p end_ frame ctx c (s ++ [125; 125]) H') by (lia || by apply name_char_tests).
    rewrite H1, H2, H3, H4, H5. cbn [orb negb]. cbv iota.
    apply holds_app in H as [_ H]. change (zlen [123; 123]) with 2 in H.
    rewrite (tag_name_holds m end_ (p + 2) (name_text n) [125]) by (done || lia). cbn [mbind outcome_bind].
    apply holds_app in H as [_ H].
    rewrite (tag_close_var end_ _ []) by (done || lia). cbn [mbind outcome_bind]. rewrite lookup_spec by done.
    cbn [mbind outcome_bind]. rewrite (emit_value_spec out _ false ctx : emit_value out _ true ctx = _).
    destruct (emit_str out _ ctx) as [ctx' rc]. unfold andthen. cbn [fst snd].
    destruct (rc <? 0); [done|]. f_equal. autorewrite with onak. lia.
Qed.

(** The values of a section, one after the other. *)
Lemma render_section_spec (render : option tmpl_value -> S -> outcome (S * Z)) sem v inverted ctx :
  (forall w ctx, render w ctx = Done (emit_str out (sem w) ctx)) ->
  render_section render v inverted ctx = Done (emit_str out (concat (map sem (section_values inverted v))) ctx).
Proof.
  intros H. assert (Hi : forall items ctx, render_items render items ctx = Done (emit_str out (concat (map sem (map Some items))) ctx)).
  { induction items as [|i items IH]; intros c; cbn [map concat render_items]; [done|]. rewrite H, emit_str_app. unfold andthen.
    cbn [mbind outcome_bind]. destruct (emit_str out _ c) as [c' rc]. cbn. by destruct (rc <? 0). }
  assert (H1 : forall w, concat (map sem [w]) = sem w) by (intros; apply app_nil_r).
  unfold render_section, section_values. destruct inverted, (truthy v); cbn [negb]; rewrite ?H1; try done.
  destruct v as [[]|]; rewrite ?H1; auto.
Qed.

Lemma renders_section inverted n body : name_ok n -> Forall node_ok body ->
  renders (print_nodes body) (fun frame => meanings frame body) ->
  renders (print_node (Section_ inverted n body)) (fun frame => meaning frame (Section_ inverted n body)).
Proof.
  intros Hn Hb IH fuel k p end_ frame ctx H He Hf. destruct (name_chars n Hn) as [Hc _].
  pose proof (zlen_nonneg (name_text n)). cbn [print_node] in *. fold (print_nodes body) in *. set (w := name_text n) in *.
  pose proof (zlen_nonneg (print_nodes body)). set (kind := if inverted then 94 else 35) in *.
  autorewrite with onak in He, Hf. destruct fuel as [|fuel]; [lia|]. exists fuel. split; [lia|].
  rewrite (render_tag fuel p end_ frame ctx kind _ H) by (done || lia || by (unfold kind; destruct inverted)).
  replace ((kind =? 47) || (kind =? 33)) with false by (by unfold kind; destruct inverted).
  replace (kind =? 123) with false by (by unfold kind; destruct inverted).
  replace ((kind =? 35) || (kind =? 94)) with true by (by unfold kind; destruct inverted).
  replace (kind =? 94) with inverted by (by unfold kind; destruct inverted). cbn [orb].
  pose proof (holds_range _ _ _ H) as Hr. autorewrite with onak in Hr.
  apply holds_app in H as [_ H]. change (zlen [123; 123; kind]) with 3 in H. replace (p + 2 + 1) with (p + 3) by lia.
  rewrite (tag_name_holds m end_ (p + 3) w _ Hc H) by lia. cbn [mbind outcome_bind]. apply holds_app in H as [_ H].
  rewrite (tag_close_var end_ _ _ H) by lia. cbn [mbind outcome_bind]. rewrite (lookup_spec frame n Hn : lookup frame w = _).
  cbn [mbind outcome_bind]. apply holds_app in H as [_ H]. change (zlen [125; 125]) with 2 in H.
  set (b := p + 3 + zlen w + 2) in *.
  assert (Hm : zlen m = zlen t + 1) by (unfold m; rewrite zlen_app; done).
  assert (Hend : find_section_end m b w = Done (Some (b + zlen (print_nodes body)))).
  { apply (find_section_end_holds t body n b []); [done | done | lia | by rewrite app_nil_r]. }
  rewrite Hend. cbn [mbind outcome_bind].
  set (e := b + zlen (print_nodes body)) in *. pose proof H as Hbody. apply holds_app in Hbody as [Hbody Hclose].
  rewrite (render_section_spec _ (fun v => meanings (v :: frame) body)).
  2: { intros v c. destruct (IH fuel 0%nat b e (v :: frame) c) as (f & Hf' & ->); [done | lia | lia |].
       fold e. destruct f as [|f]; [lia|]. cbn [render_range]. rewrite Z.ltb_irrefl. apply emit_then_end. }
  cbn [mbind outcome_bind meaning]. change (fun v : option tmpl_value => meanings (v :: frame) body)
    with (fun v : option tmpl_value => concat (map (meaning (v :: frame)) body)).
  destruct (emit_str out _ ctx) as [ctx' rc]. unfold andthen. cbn [fst snd]. destruct (rc <? 0); [done|].
  fold e in Hclose. rewrite (skip_close_holds m end_ e ([123; 123; 47] ++ w) []).
  - cbn [mbind outcome_bind]. f_equal. unfold e, b. autorewrite with onak. lia.
  - destruct (names_plain _ Hc) as [_ Hp]. cbn [app plain]. by rewrite Hp.
  - by rewrite <- app_assoc.
  - autorewrite with onak. unfold e, b. lia.
Qed.

Lemma renders_node d : node_ok d -> renders (print_node d) (fun frame => meaning frame d).
Proof.
  induction d as [s | s | raw n | inverted n body IH] using node_ind'; cbn [node_ok].
  - intros [??]. by apply renders_text.
  - intros [??]. by apply renders_comment.
  - apply renders_var.
  - intros [Hn Hb]. rewrite body_ok in Hb. apply renders_section; [done..|]. apply renders_concat.
    clear -IH Hb. induction Hb; inversion IH; constructor; auto.
Qed.

End Rendering.

(** * Properties *)

Lemma render_nodes {S} (out : S -> Z -> S * Z) nodes root ctx :
  Forall node_ok nodes -> zlen (print_nodes nodes) < 2 ^ 31 - 1 ->
  tmpl_render out (Some (print_nodes nodes)) root ctx = Done (emit_str out (meanings [Some root] nodes) ctx).
Proof.
  intros Hok Hlen. unfold tmpl_render. set (t := print_nodes nodes) in *.
  destruct (renders_concat out t nodes print_node meaning) with (fuel := Datatypes.S (length t)) (k := 0%nat) (p := 0)
    (end_ := zlen t) (frame := [Some root]) (ctx := ctx) as (f & Hf & ->).
  - eapply Forall_impl; [exact Hok|]. intros d. by apply renders_node.
  - exact (holds_all t [] [0]).
  - done.
  - unfold zlen. fold (print_nodes nodes). fold t. lia.
  - fold (print_nodes nodes). fold t. destruct f as [|f]; [lia|]. cbn [render_range]. rewrite Z.ltb_irrefl. apply emit_then_end.
Qed.

(** C25: Rendering the text of a template puts out what the template means in its
    context: text as it is, variables escaped unless they are raw, sections once
    per item of a list, once for another true value and not for a false one,
    inverted sections the other way round, and comments as nothing; names are
    looked up from the innermost value outwards.  If the output aborts, nothing
    more is put out and its result is returned. *)
Theorem tmpl_render_meaning {S} (out : S -> Z -> S * Z) nodes root ctx :
  Forall node_ok nodes -> zlen (print_nodes nodes) < 2 ^ 31 - 1 ->
  tmpl_render out (Some (print_nodes nodes)) root ctx = Done (emit_str out (meanings [Some root] nodes) ctx).
Proof. apply render_nodes. Qed.

(** Rendering any text as a template, in any context and with any output, runs
    to its end without reading outside the text. *)
Theorem tmpl_render_safe {S} (out : S -> Z -> S * Z) template root ctx :
  exists r, tmpl_render out template root ctx = Done r.
Proof.
  destruct template as [t|]; [|cbn; eauto]. apply render_range_total; unfold zlen; lia.
Qed.

(** The characters with a meaning in HTML. *)
Definition markup (c : Z) : Prop := c = 60 \/ c = 62 \/ c = 34 \/ c = 39.

(** The character an entity at the front of a text stands for, and its length. *)
Definition take_entity (s : list Z) : option (Z * nat) :=
  if starts (str "&lt;") s then Some (60, 4%nat)
  else if starts (str "&gt;") s then Some (62, 4%nat)
  else if starts (str "&amp;") s then Some (38, 5%nat)
  else if starts (str "&quot;") s then Some (34, 6%nat)
  else if starts (str "&#39;") s then Some (39, 5%nat)
  else None.

(** How a browser reads character data. *)
Fixpoint unescape (fuel : nat) (s : list Z) : list Z :=
  match fuel, s with
  | O, _ | _, [] => []
  | Datatypes.S fuel, c :: rest =>
      match take_entity s with
      | Some (x, n) => x :: unescape fuel (drop n s)
      | None => c :: unescape fuel rest
      end
  end.

Lemma unescape_entity c rep rest fuel : entity c = Some rep ->
  unescape (Datatypes.S fuel) (rep ++ rest) = c :: unescape fuel rest.
Proof.
  unfold entity. 
  destruct (Z.eqb_spec c 60), (Z.eqb_spec c 62), (Z.eqb_spec c 38), (Z.eqb_spec c 34), (Z.eqb_spec c 39);
    intros [= <-]; by subst c.
Qed.

Lemma unescape_char c rest fuel : entity c = None -> unescape (Datatypes.S fuel) (c :: rest) = c :: unescape fuel rest.
Proof.
  intros H. assert (Hs : forall w, starts (38 :: w) (c :: rest) = false).
  { intros w. cbn [starts]. by destruct (Z.eqb_spec 38 c) as [<-|]. }
  assert (He : take_entity (c :: rest) = None).
  { unfold take_entity. change (str "&lt;") with (38 :: drop 1 (str "&lt;")). change (str "&gt;") with (38 :: drop 1 (str "&gt;")).
    change (str "&amp;") with (38 :: drop 1 (str "&amp;")). change (str "&quot;") with (38 :: drop 1 (str "&quot;")).
    change (str "&#39;") with (38 :: drop 1 (str "&#39;")). by rewrite !Hs. }
  cbn [unescape]. by rewrite He.
Qed.

(** C26: An escaped variable cannot open or close a tag or a quoted attribute, and
    what a browser shows for it is the value: the text put out for a string holds
    none of the characters < > and the two quotes, and reading its entities gives
    the string back. *)
Theorem emit_escaped_correct {S} (out : S -> Z -> S * Z) s ctx :
  exists text, emit_escaped out s ctx = emit_str out text ctx /\
    Forall (fun c => ~ markup c) text /\ unescape (length s) text = s.
Proof.
  exists (escape s). split; [apply emit_escaped_spec|]. unfold escape. induction s as [|c s [IH1 IH2]]; [done|].
  cbn [map concat length]. destruct (entity c) as [rep|] eqn:E.
  - rewrite (unescape_entity c rep) by done. rewrite IH2. split; [|done]. apply Forall_app. split; [|done].
    unfold entity in E. destruct (c =? 60), (c =? 62), (c =? 38), (c =? 34), (c =? 39);
      try discriminate; injection E as <-; unfold markup; repeat constructor; cbn; lia.
  - cbn [app]. rewrite unescape_char by done. rewrite IH2. split; [|done]. constructor; [|done].
    intros [-> | [-> | [-> | ->]]]; done.
Qed.
