(* ===== verification/TemplateExample.v ===== *)
(** The standalone exerciser of the template engine (tmpl-render.c) with the
    sample template of the test suite. *)

From Stdlib Require Import String.
From S2P Require Import Prelude CLib Streams Template TemplateFacts TemplateSem.

(** Characters on standard output, the last one first. *)
Definition tmpl_putc_stdout (ctx : list Z) (c : Z) : list Z * Z := (c :: ctx, c).

(** [tmpl_map_set(m, key, tmpl_string(s))] *)
Definition set_string (m : tmpl_value) (key s : string) : outcome tmpl_value :=
  v ← tmpl_string (Some (str s ++ [0])); Done (tmpl_map_set m (str key) v).

Definition set_bool (m : tmpl_value) (key : string) (b : bool) : tmpl_value := tmpl_map_set m (str key) (TMPL_BOOL b).

Definition make_context : outcome tmpl_value :=
  let root := TMPL_MAP [] in
  let opts := TMPL_MAP [] in
  let keys := TMPL_LIST [] in
  let opts := set_bool opts "html" true in
  let opts := set_bool opts "verbose" false in
  let opts := set_bool opts "fingerprint" false in
  let opts := set_bool opts "skshash" false in
  let root := tmpl_map_set root (str "opts") opts in
  let k := TMPL_MAP [] in
  k ← set_string k "bits_padded" " 4096";
  k ← set_string k "algo_char" "R";
  k ← set_string k "keyid_hex16" "0E3A94C3E83002DA";
  k ← set_string k "date_str" "2008/06/03";
  let k := set_bool k "revoked" false in
  let k := set_bool k "has_primary_uid" true in
  k ← set_string k "primary_uid" "Jonathan McDowell <noodles@earth.li>";
  let uids := TMPL_LIST [] in
  uid ← set_string (TMPL_MAP []) "text" "Other UID with <markup>";
  let uids := tmpl_list_append uids uid in
  uid ← set_string (TMPL_MAP []) "text" "More UID";
  let uids := tmpl_list_append uids uid in
  let k := tmpl_map_set k (str "other_uids") uids in
  let keys := tmpl_list_append keys k in
  Done (tmpl_map_set root (str "keys") keys).

(** [main(argc, argv)]: the exit code and what was printed, in order. *)
Definition main (file : list Z -> option (list Z)) (args : list (list Z)) : outcome (list Z * Z) :=
  match args with
  | [path] =>
      match tmpl_load_file file (Some path) with
      | None => Done ([], 1)
      | Some source =>
          root ← make_context;
          '(out, rc) ← tmpl_render tmpl_putc_stdout (Some source) root [];
          Done (rev out, if rc <? 0 then 1 else 0)
      end
  | _ => Done ([], 2)
  end.

(** * The sample template *)

Definition path (segs : list string) : name := Path (map str segs).
Definition var (x : string) : node := Var false (path [x]).
Definition text (s : string) : node := Text (str s).

(** Inside [{{#opts.html}}]. *)
Definition if_html (body : list node) : node := Section_ false (path ["opts"; "html"]%string) body.

(** [<a href="lookup?op=OP&search=0x{{keyid_hex16}}">] *)
Definition anchor (op : string) : list node :=
  [Text (str "<a href=" ++ [34] ++ str "lookup?op=" ++ str op ++ str "&search=0x"); var "keyid_hex16"; Text [34; 62]].

Definition sample_template : list node :=
  [ if_html [Text (str "<pre>" ++ [10])];
    Text (str "Type   bits/keyID    Date       User ID" ++ [10]);
    Section_ false (path ["keys"]%string)
      [ text "pub  "; var "bits_padded"; var "algo_char"; text "/"; if_html (anchor "get"); text "0x";
        var "keyid_hex16"; if_html [text "</a>"]; text " "; var "date_str"; text " ";
        Section_ false (path ["has_primary_uid"]%string)
          [if_html (anchor "vindex"); var "primary_uid"; if_html [text "</a>"]];
        Section_ false (path ["revoked"]%string) [text " *** REVOKED ***"]; Text [10];
        Section_ false (path ["other_uids"]%string)
          [ text "                                "; if_html (anchor "vindex"); var "text"; if_html [text "</a>"]; Text [10] ]
      ];
    if_html [Text (str "</pre>" ++ [10])] ].

(** What the sample template means in the context of the exerciser. *)
Definition sample_output : list Z :=
  let a op := str "<a href=" ++ [34] ++ str "lookup?op=" ++ str op ++ str "&search=0x0E3A94C3E83002DA" ++ [34; 62] in
  str "<pre>" ++ [10] ++ str "Type   bits/keyID    Date       User ID" ++ [10] ++
  str "pub   4096R/" ++ a "get"%string ++ str "0x0E3A94C3E83002DA</a> 2008/06/03 " ++
  a "vindex"%string ++ str "Jonathan McDowell &lt;noodles@earth.li&gt;</a>" ++ [10] ++
  str "                                " ++ a "vindex"%string ++ str "Other UID with &lt;markup&gt;</a>" ++ [10] ++
  str "                                " ++ a "vindex"%string ++ str "More UID</a>" ++ [10] ++
  str "</pre>" ++ [10].

Lemma sample_ok : Forall node_ok sample_template.
Proof.
  unfold sample_template. repeat constructor; try done; try (intros H; vm_compute in H; naive_solver).
Qed.

(** The exerciser prints the page the test expects. *)
Lemma sample_main : main (fun _ => Some (print_nodes sample_template)) [str "sample-template.html"] = Done (sample_output, 0).
Proof. vm_compute. reflexivity. Qed.

Lemma tmpl_render_meaning_witness : exists root, make_context = Done root /\
  tmpl_render tmpl_putc_stdout (Some (print_nodes sample_template)) root [] =
    Done (emit_str tmpl_putc_stdout (meanings [Some root] sample_template) []) /\
  meanings [Some root] sample_template = sample_output.
Proof.
  eexists. split; [vm_compute; reflexivity|]. split; [|vm_compute; reflexivity].
  apply tmpl_render_meaning; [exact sample_ok | vm_compute; reflexivity].
Defined.
