(* ===== verification/Aged.v ===== *)
(** Expired and old keys (aged.c): durations, creation and expiration times, and
    the commands that list, dump and delete the keys that are too old. *)

From Stdlib Require Import String.
From S2P Require Import Prelude CLib OpenPGP Streams Packets Armor Keys KeyId Decode KeyUpdate DbCtx.

(** * Times *)

Definition parse_age_string (s : option (list Z)) : Z :=
  match s with
  | None | Some [] => 0
  | Some s =>
      let '(val, end_) := strtol s in
      if (val <=? 0) || bool_decide (end_ = s) then 0
      else
        match end_ with
        | [] => i64 (i64 (val * 365) * 86400)
        | c :: _ =>
            if (c =? 121) || (c =? 89) then i64 (i64 (val * 365) * 86400)
            else if (c =? 100) || (c =? 68) then i64 (val * 86400)
            else if (c =? 104) || (c =? 72) then i64 (val * 3600)
            else if (c =? 115) || (c =? 83) then val
            else 0
        end
  end.

Definition key_creation_time (key : openpgp_publickey) : outcome Z :=
  if pkt_length (pk_publickey key) <? 5 then Done 0 else rd_be (pkt_data (pk_publickey key)) 1 4 0.

(** The length of the subpacket at [offset] and where it begins; [None] when the
    length does not fit into the area. *)
Definition keyexpiry_sublen (data : list Z) (sub_len offset : Z) : outcome (option (Z * Z)) :=
  l ← data.[offset];
  let offset := offset + 1 in
  if (191 <? l) && (l <? 255) then
    b ← data.[offset]; Done (Some (Z.shiftl (l - 192) 8 + b + 192, offset + 1))
  else if l =? 255 then
    if sub_len <? offset + 4 then Done None
    else n ← rd_be data offset 4 0; Done (Some (n, offset + 4))
  else Done (Some (l, offset)).

(** [while (offset + 2 < sub_len)] on the area [data]. *)
Fixpoint keyexpiry_loop (fuel : nat) (data : list Z) (sub_len offset : Z) : outcome Z :=
  if offset + 2 <? sub_len then
    match fuel with
    | O => Fault OutOfFuel
    | S fuel =>
        r ← keyexpiry_sublen data sub_len offset;
        match r with
        | None => Done 0
        | Some (packet_len, offset) =>
            if (packet_len =? 0) || (u64 (sub_len - offset) <? packet_len) then Done 0
            else
              t ← data.[offset];
              if (Z.land t 0x7f =? OPENPGP_SIGSUB_KEYEXPIRY) && (5 <=? packet_len)
              then rd_be data (offset + 1) 4 0
              else keyexpiry_loop fuel data sub_len (offset + packet_len)
        end
    end
  else Done 0.

Definition find_keyexpiry_in_sig (sig : openpgp_packet) : outcome Z :=
  if pkt_length sig <? 6 then Done 0
  else
    v ← (pkt_data sig).[0];
    if negb ((v =? 4) || (v =? 5)) then Done 0
    else
      let data := drop 4 (pkt_data sig) in
      let data_len := pkt_length sig - 4 in
      if data_len <? 2 then Done 0
      else
        h ← data.[0];
        l ← data.[1];
        let sub_len := Z.shiftl h 8 + l + 2 in
        if data_len <? sub_len then Done 0 else keyexpiry_loop (length data) data sub_len 2.

(** The signatures of one user id. *)
Fixpoint latest_in_sigs (creation : Z) (sigs : list openpgp_packet) (latest : Z) : outcome Z :=
  match sigs with
  | [] => Done latest
  | sig :: sigs =>
      expiry_offset ← find_keyexpiry_in_sig sig;
      if expiry_offset =? 0 then latest_in_sigs creation sigs latest
      else
        let candidate := creation + expiry_offset in
        latest_in_sigs creation sigs (if latest <? candidate then candidate else latest)
  end.

Fixpoint latest_in_uids (creation : Z) (uids : list openpgp_signedpacket) (latest : Z) : outcome Z :=
  match uids with
  | [] => Done latest
  | uid :: uids => latest ← latest_in_sigs creation (sp_sigs uid) latest; latest_in_uids creation uids latest
  end.

Definition key_expiration_time (key : openpgp_publickey) : outcome Z :=
  let data := pkt_data (pk_publickey key) in
  let length := pkt_length (pk_publickey key) in
  if length <? 5 then Done 0
  else
    creation ← key_creation_time key;
    if creation =? 0 then Done 0
    else
      v ← data.[0];
      if (v =? 2) || (v =? 3) then
        if length <? 7 then Done 0
        else
          h ← data.[5];
          l ← data.[6];
          let days := (Z.shiftl h 8 + l) mod 2 ^ 16 in
          Done (if days =? 0 then 0 else creation + days * 86400)
      else latest_in_uids creation (pk_uids key) 0.

Definition key_is_aged_or_expired (key : openpgp_publickey) (now max_age : Z) : outcome bool :=
  creation ← key_creation_time key;
  if creation =? 0 then Done false
  else if (0 <? max_age) && (i64 (creation + max_age) <? now) then Done true
  else
    expiration ← key_expiration_time key;
    Done (negb (expiration =? 0) && (expiration <? now)).

(** * The commands *)

Record aged_walk_ctx : Type := mkWalk { wk_now : Z; wk_max_age : Z; wk_count : Z; wk_errors : Z }.

Section Commands.
Context {HF : Hashes} {BC : BuildConfig}.

Definition walk_count (w : aged_walk_ctx) : aged_walk_ctx :=
  mkWalk (wk_now w) (wk_max_age w) (i32 (wk_count w + 1)) (wk_errors w).

Definition walk_error (w : aged_walk_ctx) : aged_walk_ctx :=
  mkWalk (wk_now w) (wk_max_age w) (wk_count w) (i32 (wk_errors w + 1)).

Definition print_fingerprint (fp : openpgp_fingerprint) : outcome (list Z) :=
  bs ← memcpy_from (fp_bytes fp) 0 (fp_length fp); Done (hex_of_bytes true bs ++ [10]).

(** The callback's context and what it printed. *)
Definition aged_list_cb (ctx : aged_walk_ctx * list Z) (key : openpgp_publickey) : outcome (aged_walk_ctx * list Z) :=
  let '(state, printed) := ctx in
  aged ← key_is_aged_or_expired key (wk_now state) (wk_max_age state);
  if negb aged then Done (state, printed)
  else
    '(rc, fp) ← get_fingerprint (pk_publickey key);
    if negb (status_ok rc) then Done (walk_error state, printed)
    else line ← print_fingerprint fp; Done (walk_count state, printed ++ line).

(** Standard output is a [Sink]. *)
Definition aged_dump_cb {S} `{Sink S} (binary : bool) (ctx : aged_walk_ctx * S) (key : openpgp_publickey)
    : outcome (aged_walk_ctx * S) :=
  let '(state, stdout) := ctx in
  aged ← key_is_aged_or_expired key (wk_now state) (wk_max_age state);
  if negb aged then Done (state, stdout)
  else
    packets ← flatten_publickey [key] [];
    stdout ← (if binary then '(s, _) ← write_openpgp_stream stdout packets; Done s
              else armor_openpgp_stream stdout packets);
    Done (walk_count state, stdout).

(** The array of fingerprints, whose capacity is doubled when it is full. *)
Definition aged_collect_cb (ctx : aged_walk_ctx * list openpgp_fingerprint * Z) (key : openpgp_publickey)
    : outcome (aged_walk_ctx * list openpgp_fingerprint * Z) :=
  let '(state, fps, capacity) := ctx in
  aged ← key_is_aged_or_expired key (wk_now state) (wk_max_age state);
  if negb aged then Done (state, fps, capacity)
  else
    '(rc, fp) ← get_fingerprint (pk_publickey key);
    if negb (status_ok rc) then Done (walk_error state, fps, capacity)
    else
      let capacity := if capacity <=? u64 (wk_count state)
                      then if capacity =? 0 then 32 else u64 (capacity * 2) else capacity in
      if (0 <=? wk_count state) && (wk_count state <? capacity)
      then Done (walk_count state, take (Z.to_nat (wk_count state)) fps ++ [fp], capacity)
      else Fault OutOfBounds.

(** [iterate_keys] with a callback. *)
Fixpoint foldM {A} (f : A -> openpgp_publickey -> outcome A) (a : A) (keys : list openpgp_publickey) : outcome A :=
  match keys with
  | [] => Done a
  | key :: keys => a ← f a key; foldM f a keys
  end.

Context {D : Type} {DB : KeyDb D} {DM : KeyDbMore D}.

Definition onak_cmd_aged (dbctx : option D) (now max_age : Z) : outcome (list Z * Z) :=
  match dbctx with
  | None => Done ([], 0)
  | Some dbctx =>
      '(state, printed) ← foldM aged_list_cb (mkWalk now max_age 0 0, []) (iterate_keys dbctx);
      Done (printed, wk_count state)
  end.

Definition onak_cmd_dump_aged {S} `{Sink S} (dbctx : option D) (stdout : S) (now max_age : Z) (binary : bool)
    : outcome (S * Z) :=
  match dbctx with
  | None => Done (stdout, 0)
  | Some dbctx =>
      '(state, stdout) ← foldM (aged_dump_cb binary) (mkWalk now max_age 0 0, stdout) (iterate_keys dbctx);
      Done (stdout, wk_count state)
  end.

(** [for (i = 0; i < ctx.base.count; i++)] *)
Fixpoint delete_loop (dbctx : D) (fps : list openpgp_fingerprint) (deleted : Z) : D * Z :=
  match fps with
  | [] => (dbctx, deleted)
  | fp :: fps =>
      let '(dbctx, rc) := delete_key dbctx fp false in
      delete_loop dbctx fps (if rc =? 0 then i32 (deleted + 1) else deleted)
  end.

Definition onak_cmd_clean_aged (dbctx : D) (now max_age : Z) : outcome (D * Z) :=
  '(state, fps, _) ← foldM aged_collect_cb (mkWalk now max_age 0 0, [], 0) (iterate_keys dbctx);
  Done (delete_loop dbctx (take (Z.to_nat (wk_count state)) fps) 0).

End Commands.
