(* ===== verification/AgedFacts.v ===== *)
(** Expiration times read what the signatures declare; the commands act on
    exactly the keys that are too old. *)

From Stdlib Require Import String.
From S2P Require Import Prelude CLib OpenPGP Streams Packets Armor Keys KeyId Decode Marshal KeyUpdate DbCtx Aged.

(** * The subpackets of a signature *)

Lemma rd_be_4 d o : Forall byte d -> 0 <= o -> o + 4 <= zlen d ->
  exists x, rd_be d o 4 0 = Done x /\ 0 <= x < 2 ^ 32.
Proof.
  intros Hd Ho Hl. rewrite (rd_be_value d o 4 0 0) by (done || lia). eexists. split; [done|].
  change (foldl _ 0 ?l) with (be_value l).
  pose proof (be_value_bound (take 4 (drop (Z.to_nat o) d))) as H. unfold zlen in *.
  rewrite length_take, length_drop in H. replace (4 `min` (length d - Z.to_nat o))%nat with 4%nat in H by lia.
  apply H. by apply Forall_take, Forall_drop.
Qed.

Lemma sublen_total data sub_len offset : Forall byte data -> sub_len <= zlen data -> 0 <= offset -> offset + 2 < sub_len ->
  exists r, keyexpiry_sublen data sub_len offset = Done r /\
    match r with Some (n, o) => 0 <= n < 2 ^ 33 /\ offset < o <= sub_len | None => True end.
Proof.
  intros Hd Hl Ho Hlt. unfold keyexpiry_sublen.
  destruct (rd_ok_byte data offset Hd) as (l & -> & Hb); [lia|]. cbn [mbind outcome_bind]. unfold byte in Hb.
  destruct (Z.ltb_spec 191 l), (Z.ltb_spec l 255); cbn [andb].
  - destruct (rd_ok_byte data (offset + 1) Hd) as (b & -> & Hb'); [lia|]. cbn [mbind outcome_bind]. eexists. split; [done|]. cbv beta iota.
    unfold byte in Hb'. rewrite shiftl_8. lia.
  - destruct (Z.eqb_spec l 255); [|eexists; split; [done|]; cbn; lia].
    destruct (Z.ltb_spec sub_len (offset + 1 + 4)); [by exists None|].
    destruct (rd_be_4 data (offset + 1) Hd) as (n & -> & Hn); [lia..|]. cbn [mbind outcome_bind]. eexists. split; [done|]. cbv beta iota. lia.
  - destruct (Z.eqb_spec l 255); [lia|]. eexists; split; [done|]; cbn; lia.
  - lia.
Qed.

Lemma keyexpiry_loop_total data sub_len : Forall byte data -> sub_len <= zlen data -> sub_len < 2 ^ 32 ->
  forall fuel offset, 0 <= offset -> sub_len - offset <= Z.of_nat fuel ->
  exists r, keyexpiry_loop fuel data sub_len offset = Done r /\ 0 <= r < 2 ^ 32.
Proof.
  intros Hd Hl H32. induction fuel as [|fuel IH]; intros offset Ho Hf; cbn [keyexpiry_loop];
    (destruct (Z.ltb_spec (offset + 2) sub_len); [|exists 0; auto with lia]); [lia|].
  destruct (sublen_total data sub_len offset) as (r & -> & Hr); [done..|].
  cbn [mbind outcome_bind]. destruct r as [[n o]|]; [|exists 0; auto with lia].
  rewrite u64_small by lia. destruct (Z.eqb_spec n 0); cbn [orb]; [exists 0; auto with lia|].
  destruct (Z.ltb_spec (sub_len - o) n); [exists 0; auto with lia|].
  destruct (rd_ok data o) as [t ->]; [lia|]. cbn [mbind outcome_bind].
  destruct (_ && (5 <=? n)) eqn:E; [|apply IH; lia]. zbool. apply rd_be_4; [done | lia | lia].
Qed.

(** The value of the first expiration subpacket. *)
Fixpoint declared (l : list subpacket) : Z :=
  match l with
  | [] => 0
  | s :: l => if (sub_type s =? OPENPGP_SIGSUB_KEYEXPIRY) && (4 <=? zlen (sub_body s)) then be_value (take 4 (sub_body s))
              else declared l
  end.

Definition sub_wf (s : subpacket) : Prop := 0 <= sub_type s < 128 /\ Forall byte (sub_body s).

Lemma sublen_encode pre n rest sub_len : 1 <= n -> zlen pre + zlen (sub_length_octets n) + n <= sub_len -> sub_len < 2 ^ 17 ->
  keyexpiry_sublen (pre ++ sub_length_octets n ++ rest) sub_len (zlen pre) = Done (Some (n, zlen pre + zlen (sub_length_octets n))).
Proof.
  intros Hn Hl H17. pose proof (zlen_nonneg pre). revert Hl.
  unfold keyexpiry_sublen, sub_length_octets. destruct (Z.ltb_spec n 192); [intros Hl|].
  { cbn [app]. rewrite rd_mid. cbn [mbind outcome_bind].
    destruct (Z.ltb_spec 191 n), (Z.ltb_spec n 255), (Z.eqb_spec n 255); try lia; done. }
  destruct (Z.ltb_spec n 8384); intros Hl.
  - cbn [app]. change (zlen [_; _]) with 2 in *. rewrite rd_mid. cbn [mbind outcome_bind].
    set (q := (n - 192) / 256). assert (Hq : 0 <= q < 32 /\ (n - 192) mod 256 = n - 192 - 256 * q)
      by (unfold q; split; Z.div_mod_to_equations; lia). rewrite (proj2 Hq).
    destruct (Z.ltb_spec 191 (q + 192)), (Z.ltb_spec (q + 192) 255); try lia. cbn [andb].
    change (pre ++ q + 192 :: ?x :: rest) with (pre ++ [q + 192] ++ x :: rest). rewrite app_assoc.
    rewrite rd_mid' by (rewrite zlen_app; done). cbn [mbind outcome_bind]. rewrite shiftl_8. do 3 f_equal; lia.
  - change (zlen (255 :: htonl_bytes n)) with 5 in *. cbn [app]. rewrite rd_mid. cbn [mbind outcome_bind].
    change ((191 <? 255) && (255 <? 255)) with false. change (255 =? 255) with true. cbv iota.
    destruct (Z.ltb_spec sub_len (zlen pre + 1 + 4)); [lia|].
    change (pre ++ 255 :: htonl_bytes n ++ rest) with (pre ++ [255] ++ (htonl_bytes n ++ rest)). rewrite app_assoc.
    rewrite rd_be_mid by (apply htonl_bytes_byte || done || lia || (rewrite zlen_app; done)).
    cbn [mbind outcome_bind]. rewrite be_value_htonl by lia. do 3 f_equal. lia.
Qed.

(** The loop finds what the subpackets declare. *)
Lemma keyexpiry_loop_encode l : forall pre post fuel, Forall sub_wf l -> zlen pre + zlen (encode_subs l) < 2 ^ 17 ->
  (length l <= fuel)%nat ->
  keyexpiry_loop fuel (pre ++ encode_subs l ++ post) (zlen pre + zlen (encode_subs l)) (zlen pre) = Done (declared l).
Proof.
  induction l as [|s l IH]; intros pre post fuel Hok H17 Hf.
  { change (zlen (encode_subs [])) with 0. destruct fuel; cbn [keyexpiry_loop];
      by (destruct (Z.ltb_spec (zlen pre + 2) (zlen pre + 0)); [lia|]). }
  apply Forall_cons in Hok as [[Ht Hb] Hok]. destruct fuel as [|fuel]; [cbn in Hf; lia|]. cbn [length] in Hf.
  rewrite encode_subs_cons, zlen_app, zlen_encode_sub in *.
  pose proof (zlen_nonneg pre). pose proof (zlen_nonneg (sub_body s)). pose proof (zlen_nonneg (encode_subs l)).
  set (n := 1 + zlen (sub_body s)) in *. pose proof (zlen_sub_length_octets n) as Hlo.
  set (tot := zlen pre + (zlen (sub_length_octets n) + 1 + zlen (sub_body s) + zlen (encode_subs l))) in *.
  cbn [keyexpiry_loop declared]. destruct (Z.ltb_spec (zlen pre + 2) tot) as [Hlt|Hge].
  2: { unfold tot in Hge. assert (Hs0 : zlen (sub_body s) = 0) by lia.
       replace (4 <=? zlen (sub_body s)) with false by (rewrite Hs0; done). rewrite andb_false_r.
       destruct l as [|s' l]; [done|]. rewrite encode_subs_cons, zlen_app, zlen_encode_sub in Hge.
       pose proof (zlen_sub_length_octets (1 + zlen (sub_body s'))). pose proof (zlen_nonneg (sub_body s')).
       pose proof (zlen_nonneg (encode_subs l)). lia. }
  unfold encode_sub. rewrite <- !app_assoc. fold n. set (c := sub_type s + _). cbn [app].
  rewrite sublen_encode by (unfold tot in *; lia). cbn [mbind outcome_bind].
  set (o := zlen pre + zlen (sub_length_octets n)). rewrite u64_small by (unfold tot, o in *; lia).
  destruct (Z.eqb_spec n 0); [lia|]. destruct (Z.ltb_spec (tot - o) n); [unfold tot, o, n in *; lia|]. cbn [orb].
  rewrite app_assoc, rd_mid' by (unfold o; by rewrite zlen_app). cbn [mbind outcome_bind].
  assert (Hc : Z.land c 127 = sub_type s).
  { unfold c. destruct (type_octet_bits (sub_type s) (sub_critical s) Ht) as [E _]. exact E. }
  rewrite Hc. replace (5 <=? n) with (4 <=? zlen (sub_body s)) by (unfold n; destruct (Z.leb_spec 4 (zlen (sub_body s))), (Z.leb_spec 5 (1 + zlen (sub_body s))); lia || done).
  destruct (_ && _) eqn:E; zbool.
  - change (?a ++ c :: ?r) with (a ++ [c] ++ r). rewrite app_assoc.
    replace (sub_body s ++ encode_subs l ++ post) with (take 4 (sub_body s) ++ (drop 4 (sub_body s) ++ encode_subs l ++ post))
      by (by rewrite app_assoc, take_drop). rewrite rd_be_mid.
    + done.
    + by apply Forall_take.
    + rewrite length_take. unfold zlen in *. lia.
    + lia.
    + rewrite !zlen_app. unfold o. done.
  - specialize (IH (pre ++ encode_sub s) post fuel Hok). rewrite zlen_app, zlen_encode_sub in IH. fold n in IH.
    rewrite <- IH by (unfold tot in *; lia). unfold encode_sub. fold n c. rewrite <- !app_assoc. cbn [app].
    f_equal; unfold tot, o, n; lia.
Qed.

(** * Expiration of a key *)

(** A version 4 or 5 signature with the hashed subpackets [l]. *)
Definition has_subpackets (sig : openpgp_packet) (l : list subpacket) : Prop :=
  wf_packet sig /\ Forall sub_wf l /\ zlen (encode_subs l) < 65536 /\
  exists v ty pk h rest, (v = 4 \/ v = 5) /\ pkt_data sig = [v; ty; pk; h] ++ encode_area l ++ rest.

Lemma find_keyexpiry_encode sig l : has_subpackets sig l -> find_keyexpiry_in_sig sig = Done (declared l).
Proof.
  intros ([Hl _] & Hok & H16 & v & ty & pk & h & rest & Hv & Hd). unfold find_keyexpiry_in_sig.
  pose proof (f_equal zlen Hd) as Hz. rewrite !zlen_app, zlen_encode_area in Hz. change (zlen [v; ty; pk; h]) with 4 in Hz.
  pose proof (zlen_nonneg (encode_subs l)). pose proof (zlen_nonneg rest). rewrite Hl.
  destruct (Z.ltb_spec (zlen (pkt_data sig)) 6); [lia|]. rewrite Hd at 1. cbn [app]. rewrite rd_cons_0. cbn [mbind outcome_bind].
  replace (negb ((v =? 4) || (v =? 5))) with false by (by destruct Hv as [-> | ->]).
  destruct (Z.ltb_spec (zlen (pkt_data sig) - 4) 2); [lia|].
  set (data := drop 4 (pkt_data sig)). set (n := zlen (encode_subs l)) in *.
  assert (Hdata : data = [n / 256; n mod 256] ++ encode_subs l ++ rest) by (unfold data; by rewrite Hd).
  assert (E0 : data.[0] = Done (n / 256)) by by rewrite Hdata.
  assert (E1 : data.[1] = Done (n mod 256)) by by rewrite Hdata.
  rewrite E0. cbn [mbind outcome_bind]. rewrite E1. cbn [mbind outcome_bind].
  rewrite shiftl_8. replace (n / 256 * 256 + n mod 256 + 2) with (2 + n) by (Z.div_mod_to_equations; lia).
  destruct (Z.ltb_spec (zlen (pkt_data sig) - 4) (2 + n)); [lia|].
  pose proof (keyexpiry_loop_encode l [n / 256; n mod 256] rest (length data) Hok) as E.
  change (zlen [_; _]) with 2 in E. fold n in E. rewrite <- Hdata in E. apply E; [lia|].
  rewrite Hdata, !length_app. pose proof (encode_subs_count l). lia.
Qed.

(** A signature that declares the expiration [x]: version 4 and 5 signatures do
    so in their hashed subpackets, those of other versions cannot. *)
Definition declares (sig : openpgp_packet) (x : Z) : Prop :=
  (exists l, has_subpackets sig l /\ x = declared l) \/
  (exists v rest, wf_packet sig /\ pkt_data sig = v :: rest /\ v <> 4 /\ v <> 5 /\ x = 0).

Lemma find_keyexpiry_declares sig x : declares sig x -> find_keyexpiry_in_sig sig = Done x.
Proof.
  intros [(l & Hl & ->) | (v & rest & _ & Hd & H4 & H5 & ->)]; [by apply find_keyexpiry_encode|].
  unfold find_keyexpiry_in_sig. rewrite Hd. destruct (pkt_length sig <? 6); [done|]. rewrite rd_cons_0. cbn [mbind outcome_bind].
  by destruct (Z.eqb_spec v 4), (Z.eqb_spec v 5).
Qed.

(** The time a signature declares, or 0. *)
Definition declared_time (creation x : Z) : Z := if x =? 0 then 0 else creation + x.

Definition key_sigs (key : openpgp_publickey) : list openpgp_packet := concat (map sp_sigs (pk_uids key)).

Lemma latest_in_sigs_spec creation (decl : openpgp_packet -> Z) sigs : forall latest,
  Forall (fun s => declares s (decl s)) sigs -> 0 <= latest -> 
  latest_in_sigs creation sigs latest = Done (foldl (fun m s => Z.max m (declared_time creation (decl s))) latest sigs).
Proof.
  induction sigs as [|s sigs IH]; intros latest Hs Hl; cbn [latest_in_sigs foldl]; [done|].
  apply Forall_cons in Hs as [Hs Hr]. rewrite (find_keyexpiry_declares s (decl s)) by done. cbn [mbind outcome_bind].
  unfold declared_time at 2. destruct (decl s =? 0); [rewrite Z.max_l by lia; auto|].
  rewrite IH; [|done|destruct (Z.ltb_spec latest (creation + decl s)); lia].
  do 2 f_equal. destruct (Z.ltb_spec latest (creation + decl s)); lia.
Qed.

Lemma foldl_max_le {A} (f : A -> Z) l : forall m, m <= foldl (fun m s => Z.max m (f s)) m l.
Proof. induction l as [|x l IH]; intros m; cbn; [lia|]. specialize (IH (Z.max m (f x))). lia. Qed.

Lemma latest_in_uids_spec creation (decl : openpgp_packet -> Z) uids : forall latest,
  Forall (fun s => declares s (decl s)) (concat (map sp_sigs uids)) -> 0 <= latest ->
  latest_in_uids creation uids latest =
    Done (foldl (fun m s => Z.max m (declared_time creation (decl s))) latest (concat (map sp_sigs uids))).
Proof.
  induction uids as [|u uids IH]; intros latest Hu Hl; cbn [latest_in_uids map concat] in *; [done|].
  apply Forall_app in Hu as [Hu Hr]. rewrite latest_in_sigs_spec with (decl := decl) by done. cbn [mbind outcome_bind].
  rewrite foldl_app. apply IH; [done|]. etrans; [exact Hl|]. apply foldl_max_le.
Qed.

(** A public key packet of version 4 or 5 with its creation time. *)
Definition created_at (p : openpgp_packet) (creation : Z) : Prop :=
  wf_packet p /\ exists v t1 t2 t3 t4 rest, (v = 4 \/ v = 5) /\ pkt_data p = [v; t1; t2; t3; t4] ++ rest /\
    be_value [t1; t2; t3; t4] = creation.

Lemma creation_octets key v t1 t2 t3 t4 rest : wf_packet (pk_publickey key) ->
  pkt_data (pk_publickey key) = [v; t1; t2; t3; t4] ++ rest ->
  key_creation_time key = Done (be_value [t1; t2; t3; t4]) /\ 5 <= pkt_length (pk_publickey key) /\
  0 <= be_value [t1; t2; t3; t4] < 2 ^ 32.
Proof.
  intros [Hl Hb] Hd. unfold key_creation_time. rewrite Hl. rewrite Hd in Hb |- *. autorewrite with onak. pose proof (zlen_nonneg rest).
  apply Forall_app in Hb as [Hb _]. apply Forall_cons in Hb as [_ Hb].
  split; [|split; [lia | by apply (be_value_bound [t1; t2; t3; t4])]].
  destruct (Z.ltb_spec (1 + (1 + (1 + (1 + (1 + 0)))) + zlen rest) 5); [lia|].
  apply (rd_be_mid [v] [t1; t2; t3; t4] rest); [done | done | lia | done].
Qed.

Lemma key_creation_spec key creation : created_at (pk_publickey key) creation ->
  key_creation_time key = Done creation /\ 5 <= pkt_length (pk_publickey key) /\ 0 <= creation < 2 ^ 32 /\
  exists v, (pkt_data (pk_publickey key)).[0] = Done v /\ (v = 4 \/ v = 5).
Proof.
  intros [Hw (v & t1 & t2 & t3 & t4 & rest & Hv & Hd & <-)].
  destruct (creation_octets key v t1 t2 t3 t4 rest Hw Hd) as (-> & ? & ?). rewrite Hd. eauto 10.
Qed.

(** The expiration time of a version 4 or 5 key is the latest that any
    signature on a user id declares, relative to the creation of the key, and 0
    when none declares one. *)
Theorem key_expiration_correct key creation (decl : openpgp_packet -> Z) :
  created_at (pk_publickey key) creation -> creation <> 0 ->
  Forall (fun s => declares s (decl s)) (key_sigs key) ->
  exists t, key_expiration_time key = Done t /\
    (forall s, s ∈ key_sigs key -> declared_time creation (decl s) <= t) /\
    (t = 0 \/ exists s, s ∈ key_sigs key /\ decl s <> 0 /\ t = creation + decl s).
Proof.
  intros Hc Hne Hu. destruct (key_creation_spec key creation Hc) as (E & Hl & Hr & v & Ev & Hv).
  unfold key_expiration_time. destruct (Z.ltb_spec (pkt_length (pk_publickey key)) 5); [lia|].
  rewrite E. cbn [mbind outcome_bind]. destruct (Z.eqb_spec creation 0); [done|]. rewrite Ev. cbn [mbind outcome_bind].
  replace ((v =? 2) || (v =? 3)) with false by (by destruct Hv as [-> | ->]).
  rewrite latest_in_uids_spec with (decl := decl) by (done || lia). eexists. split; [done|]. fold (key_sigs key).
  assert (Hmax : forall sigs m, let r := foldl (fun m s => Z.max m (declared_time creation (decl s))) m sigs in
    (forall s, s ∈ sigs -> declared_time creation (decl s) <= r) /\
    (r = m \/ exists s, s ∈ sigs /\ r = declared_time creation (decl s))).
  { induction sigs as [|s sigs IH]; intros m; cbn [foldl]; [split; [by intros s Hs%elem_of_nil | auto]|].
    destruct (IH (Z.max m (declared_time creation (decl s)))) as [H1 H2]. split.
    - intros s' [-> | Hs']%elem_of_cons; [|auto]. pose proof (foldl_max_le (fun s => declared_time creation (decl s)) sigs
        (Z.max m (declared_time creation (decl s)))). cbn in *. lia.
    - destruct H2 as [-> | (s' & Hs' & ->)]; [|right; exists s'; split; [set_solver | done]].
      destruct (Z.max_spec m (declared_time creation (decl s))) as [[_ ->] | [_ ->]]; [right; exists s; set_solver | auto]. }
  destruct (Hmax (key_sigs key) 0) as [H1 H2]. split; [exact H1|]. destruct H2 as [-> | (s & Hs & ->)]; [auto|].
  unfold declared_time. destruct (Z.eqb_spec (decl s) 0); [auto|]. right. exists s. auto.
Qed.

(** * Every well-formed key has an age *)

Lemma find_keyexpiry_total sig : wf_packet sig -> exists r, find_keyexpiry_in_sig sig = Done r /\ 0 <= r < 2 ^ 32.
Proof.
  intros [Hl Hb]. unfold find_keyexpiry_in_sig. rewrite Hl. set (d := pkt_data sig) in *.
  destruct (Z.ltb_spec (zlen d) 6); [exists 0; auto with lia|]. destruct (rd_ok d 0) as [v ->]; [lia|]. cbn [mbind outcome_bind].
  destruct (negb _); [exists 0; auto with lia|]. destruct (Z.ltb_spec (zlen d - 4) 2); [lia|].
  assert (Hd : Forall byte (drop 4 d)) by by apply Forall_drop.
  assert (Hz : zlen (drop 4 d) = zlen d - 4) by (unfold zlen in *; rewrite length_drop; lia).
  destruct (rd_ok_byte (drop 4 d) 0 Hd) as (h & -> & Hh); [lia|]. cbn [mbind outcome_bind].
  destruct (rd_ok_byte (drop 4 d) 1 Hd) as (l & -> & Hll); [lia|]. cbn [mbind outcome_bind]. rewrite shiftl_8.
  unfold byte in *. destruct (Z.ltb_spec (zlen d - 4) (h * 256 + l + 2)); [exists 0; auto with lia|].
  apply keyexpiry_loop_total; [done | lia | lia | lia |]. unfold zlen in *. lia.
Qed.

Lemma latest_total creation uids : Forall wf_signed uids -> forall latest,
  exists r, latest_in_uids creation uids latest = Done r.
Proof.
  assert (Hs : forall sigs latest, Forall wf_packet sigs -> exists r, latest_in_sigs creation sigs latest = Done r).
  { induction sigs as [|s sigs IH]; intros latest Hs; cbn [latest_in_sigs]; [eauto|]. apply Forall_cons in Hs as [Hs Hr].
    destruct (find_keyexpiry_total s Hs) as (x & -> & _). cbn [mbind outcome_bind]. destruct (x =? 0); auto. }
  induction 1 as [|u uids [_ Hu] _ IH]; intros latest; cbn [latest_in_uids]; [eauto|].
  destruct (Hs (sp_sigs u) latest Hu) as [r ->]. cbn [mbind outcome_bind]. auto.
Qed.

Lemma expiration_total key : wf_key key -> runs (key_creation_time key) /\ runs (key_expiration_time key).
Proof.
  intros ([Hl Hb] & _ & Hu & _). unfold key_expiration_time, key_creation_time. set (p := pk_publickey key) in *.
  destruct (Z.ltb_spec (pkt_length p) 5); [split; apply runs_done|].
  destruct (rd_be_4 (pkt_data p) 1 Hb) as (c & -> & Hc); [lia..|]. split; [apply runs_done|]. cbn [mbind outcome_bind].
  destruct (c =? 0); [apply runs_done|]. destruct (rd_ok (pkt_data p) 0) as [v ->]; [lia|]. cbn [mbind outcome_bind].
  destruct (_ || _).
  - destruct (Z.ltb_spec (pkt_length p) 7); [apply runs_done|].
    destruct (rd_ok (pkt_data p) 5) as [h ->]; [lia|]. cbn [mbind outcome_bind].
    destruct (rd_ok (pkt_data p) 6) as [l ->]; [lia|]. apply runs_done.
  - apply (latest_total c (pk_uids key) Hu 0).
Qed.

(** Whether a well-formed key is too old is always decided, without reading
    outside its packets. *)
Theorem key_is_aged_safe key now max_age : wf_key key -> exists b, key_is_aged_or_expired key now max_age = Done b.
Proof.
  intros [[c Ec] [t Et]]%expiration_total. unfold key_is_aged_or_expired. rewrite Ec, Et. cbn [mbind outcome_bind].
  destruct (c =? 0); [eauto|]. destruct (_ && _); eauto.
Qed.

(** * Deleting the old keys *)

(** When a key was made, and the times at which it says to expire: a version 2
    or 3 key names a number of days itself, the signatures on the user ids of a
    later one each may name a number of seconds. *)
Inductive dates (k : openpgp_publickey) : Z -> list Z -> Prop :=
  | dates_v3 creation v t1 t2 t3 t4 d1 d2 rest :
      v = 2 \/ v = 3 -> pkt_data (pk_publickey k) = [v; t1; t2; t3; t4; d1; d2] ++ rest ->
      be_value [t1; t2; t3; t4] = creation ->
      dates k creation (if be_value [d1; d2] =? 0 then [] else [creation + be_value [d1; d2] * 86400])
  | dates_v4 creation (decl : openpgp_packet -> Z) :
      created_at (pk_publickey k) creation -> Forall (fun s => declares s (decl s)) (key_sigs k) ->
      dates k creation (map (Z.add creation) (filter (fun x => x <> 0) (map decl (key_sigs k)))).

(** A key is too old when it is older than the greatest age, if there is one, or
    when it has an expiration time and every such time has passed. *)
Definition too_old (now max_age : Z) (age : Z * list Z) : Prop :=
  age.1 <> 0 /\ ((0 < max_age /\ age.1 + max_age < now) \/ (age.2 <> [] /\ Forall (fun t => t < now) age.2)).

#[export] Instance too_old_dec now max_age age : Decision (too_old now max_age age) := _.

Lemma expired_iff key creation ends now : wf_key key -> dates key creation ends -> creation <> 0 ->
  exists t, key_creation_time key = Done creation /\ 0 <= creation < 2 ^ 32 /\ key_expiration_time key = Done t /\
    (t <> 0 /\ t < now <-> ends <> [] /\ Forall (fun t => t < now) ends).
Proof.
  intros (Hw & _) Hd Hne. destruct Hd as [creation v t1 t2 t3 t4 d1 d2 rest Hv Hd Hc | creation decl Hc Hs].
  - destruct (creation_octets key v t1 t2 t3 t4 ([d1; d2] ++ rest) Hw Hd) as (Ec & _ & Hr). rewrite Hc in Ec, Hr.
    destruct Hw as [Hl Hb]. rewrite Hd in Hb. apply Forall_app in Hb as [Hb _].
    change [v; t1; t2; t3; t4; d1; d2] with ([v; t1; t2; t3; t4] ++ [d1; d2]) in Hb. apply Forall_app in Hb as [_ Hb2].
    pose proof (be_value_bound [d1; d2] Hb2) as Hr2. change (256 ^ zlen [d1; d2]) with 65536 in Hr2. pose proof (zlen_nonneg rest).
    exists (if be_value [d1; d2] =? 0 then 0 else creation + be_value [d1; d2] * 86400). split_and!; [done | lia | lia | |].
    + unfold key_expiration_time. rewrite Hl, Hd, Ec. autorewrite with onak. cbn [mbind outcome_bind].
      destruct (Z.ltb_spec (1 + (1 + (1 + (1 + (1 + (1 + (1 + 0)))))) + zlen rest) 5); [lia|].
      destruct (Z.ltb_spec (1 + (1 + (1 + (1 + (1 + (1 + (1 + 0)))))) + zlen rest) 7); [lia|].
      destruct (Z.eqb_spec creation 0); [done|]. cbn [app]. rewrite rd_cons_0. cbn [mbind outcome_bind].
      replace ((v =? 2) || (v =? 3)) with true by (by destruct Hv as [-> | ->]).
      change (rd _ 5) with (@Done Z d1). change (rd _ 6) with (@Done Z d2). cbn [mbind outcome_bind].
      rewrite shiftl_8. change (be_value [d1; d2]) with (d1 * 256 + d2) in *. by rewrite Z.mod_small by lia.
    + destruct (Z.eqb_spec (be_value [d1; d2]) 0); [tauto|]. rewrite Forall_singleton. split; [by intros [_ H'] | split; [lia | tauto]].
  - destruct (key_expiration_correct key creation decl Hc Hne Hs) as (t & Et & Hmax & Ht).
    destruct (key_creation_spec key creation Hc) as (Ec & _ & Hr & _). exists t. split_and!; [done | lia | lia | done |].
    assert (Hin : forall e, e ∈ map (Z.add creation) (filter (fun x => x <> 0) (map decl (key_sigs key))) <->
      exists s, s ∈ key_sigs key /\ decl s <> 0 /\ e = creation + decl s).
    { intros e. rewrite list_elem_of_fmap. setoid_rewrite list_elem_of_filter. setoid_rewrite list_elem_of_fmap. naive_solver. }
    assert (Hpos : forall s, s ∈ key_sigs key -> 0 <= decl s).
    { intros s Hin'. rewrite list.Forall_forall in Hs. destruct (Hs s Hin') as [(l & (_ & Hsw & _) & ->) | (v & r & _ & _ & _ & _ & ->)]; [|lia].
      clear -Hsw. induction Hsw as [|x l [_ Hx] _ IH]; cbn; [lia|]. destruct (_ && _); [|done].
      apply (be_value_bound (take 4 (sub_body x))). by apply Forall_take. }
    rewrite list.Forall_forall. setoid_rewrite Hin. split.
    + intros [Hn Hlt]. destruct Ht as [? | (s & Hs' & Hd & Et')]; [done|]. split.
      * intros E. assert (t ∈ @nil Z) as Hbad by (rewrite <- E, Hin; eauto). by apply elem_of_nil in Hbad.
      * intros e (s' & Hs'' & Hd' & ->). specialize (Hmax s' Hs''). unfold declared_time in Hmax.
        destruct (Z.eqb_spec (decl s') 0); [done | lia].
    + intros [Hn Hall]. destruct (map (Z.add creation) _) as [|e es] eqn:E; [done|].
      destruct (proj1 (Hin e)) as (s & Hs' & Hd & ->); [by left|]. pose proof (Hmax s Hs') as Hle. specialize (Hpos s Hs').
      unfold declared_time in Hle. destruct (Z.eqb_spec (decl s) 0); [done|]. split; [lia|].
      destruct Ht as [? | (s' & Hs'' & Hd' & ->)]; [lia | eauto].
Qed.

(** What a backend that can delete promises, as the interface documents it:
    deleting a stored key reports 0 and the key is gone, the others stay. *)
Class KeyDbDeletes {HF : Hashes} {BC : BuildConfig} (D : Type) {DM : KeyDbMore D} : Prop := {
  delete_rest : forall d fp t, fp ∈ map fp_of (iterate_keys d) ->
    iterate_keys (delete_key d fp t).1 = filter (fun k => fp_of k <> fp) (iterate_keys d);
  delete_found : forall d fp t, fp ∈ map fp_of (iterate_keys d) -> (delete_key d fp t).2 = 0
}.

Lemma filter_ext_in {A} (P Q : A -> Prop) `{!forall x, Decision (P x)} `{!forall x, Decision (Q x)} (l : list A) :
  (forall x, x ∈ l -> (P x <-> Q x)) -> filter P l = filter Q l.
Proof.
  induction l as [|x l IH]; intros Hpq; [done|]. rewrite !filter_cons, IH by (intros; apply Hpq; by right).
  by rewrite (decide_ext _ _ _ _ (Hpq x (list_elem_of_here _ _))).
Qed.

Section CleanAged.
Context {HF : Hashes} {BC : BuildConfig} {D : Type} {DB : KeyDb D} {DM : KeyDbMore D} {DL : KeyDbDeletes D}.
Context (now max_age : Z).

Definition aged (k : openpgp_publickey) : bool :=
  match key_is_aged_or_expired k now max_age with Done b => b | Fault _ => false end.

(** The keys of a database, in the form the reader leaves them. *)
Definition listed_ok (k : openpgp_publickey) : Prop :=
  wf_key k /\ get_fingerprint (pk_publickey k) = Done (ONAK_E_OK, fp_of k).

Lemma aged_ok k : wf_key k -> key_is_aged_or_expired k now max_age = Done (aged k).
Proof. intros H. unfold aged. by destruct (key_is_aged_safe k now max_age H) as [b ->]. Qed.

Definition old_fps (keys : list openpgp_publickey) : list openpgp_fingerprint := map fp_of (filter (fun k => aged k = true) keys).

Lemma collect_spec keys : forall fps capacity errors,
  Forall listed_ok keys -> zlen fps + zlen keys < 2 ^ 31 -> zlen fps <= capacity <= 2 ^ 33 ->
  exists cap, foldM aged_collect_cb (mkWalk now max_age (zlen fps) errors, fps, capacity) keys =
    Done (mkWalk now max_age (zlen (fps ++ old_fps keys)) errors, fps ++ old_fps keys, cap).
Proof.
  unfold old_fps. induction keys as [|k keys IH]; intros fps capacity errors Hk Hn Hc; cbn [foldM].
  { exists capacity. cbn. by rewrite app_nil_r. }
  apply Forall_cons in Hk as [[Hw Hf] Hk]. rewrite zlen_cons in Hn. pose proof (zlen_nonneg fps). pose proof (zlen_nonneg keys).
  unfold aged_collect_cb at 2. cbn [wk_now wk_max_age wk_count]. rewrite aged_ok by done. cbn [mbind outcome_bind].
  rewrite filter_cons. destruct (aged k); cbn [negb].
  2: { rewrite decide_False by done. apply IH; [done | lia | done]. }
  rewrite decide_True by done. rewrite Hf. cbn [mbind outcome_bind status_ok negb map].
  set (cap := if capacity <=? _ then _ else _).
  assert (Hcap : zlen fps + 1 <= cap <= 2 ^ 33).
  { unfold cap. rewrite (u64_small (zlen fps)) by lia. destruct (Z.leb_spec capacity (zlen fps)); [|lia].
    destruct (Z.eqb_spec capacity 0); [lia|]. rewrite u64_small by lia. lia. }
  destruct (Z.leb_spec 0 (zlen fps)), (Z.ltb_spec (zlen fps) cap); try lia. cbn [andb mbind outcome_bind].
  unfold walk_count. cbn [wk_now wk_max_age wk_count wk_errors]. rewrite i32_small by lia.
  rewrite take_ge by (unfold zlen; lia). specialize (IH (fps ++ [fp_of k]) cap errors Hk).
  rewrite zlen_app in IH. change (zlen [fp_of k]) with 1 in IH. destruct IH as (c & E); [lia..|]. exists c.
  by rewrite E, <- app_assoc.
Qed.

Lemma delete_loop_spec fps : forall d deleted,
  NoDup fps -> NoDup (map fp_of (iterate_keys d)) -> (forall fp, fp ∈ fps -> fp ∈ map fp_of (iterate_keys d)) ->
  0 <= deleted -> deleted + zlen fps < 2 ^ 31 ->
  exists d', delete_loop d fps deleted = (d', deleted + zlen fps) /\
    iterate_keys d' = filter (fun k => fp_of k ∉ fps) (iterate_keys d).
Proof.
  induction fps as [|fp fps IH]; intros d deleted Hnd Hk Hin Hd Hn; cbn [delete_loop].
  { exists d. split; [f_equal; change (zlen (@nil openpgp_fingerprint)) with 0; lia|].
    symmetry. apply filter_keep, Forall_forall. intros k _ H. by apply elem_of_nil in H. }
  apply NoDup_cons in Hnd as [Hnot Hnd]. rewrite zlen_cons in *. pose proof (zlen_nonneg fps).
  pose proof (delete_rest d fp false (Hin fp (list_elem_of_here _ _))) as Hr.
  pose proof (delete_found d fp false (Hin fp (list_elem_of_here _ _))) as Hf.
  destruct (delete_key d fp false) as [d1 rc]. cbn [fst snd] in *.
  rewrite Hf, i32_small by lia. change (0 =? 0) with true. destruct (IH d1 (deleted + 1)) as (d' & E & Hd'); [done | | | lia | lia |].
  - rewrite Hr. eapply sublist_NoDup; [exact Hk|]. by apply fmap_sublist, sublist_filter.
  - intros fp' Hfp'. specialize (Hin fp' (list_elem_of_further _ _ _ Hfp')). rewrite Hr.
    apply list_elem_of_fmap in Hin as (k & -> & Hin). apply list_elem_of_fmap_2, list_elem_of_filter. split; [|done]. congruence.
  - exists d'. rewrite E. split; [f_equal; lia|]. rewrite Hd', Hr, list_filter_filter. apply list_filter_iff.
    intros k. rewrite not_elem_of_cons. tauto.
Qed.

Lemma clean_aged_aged d :
  Forall listed_ok (iterate_keys d) -> NoDup (map fp_of (iterate_keys d)) -> zlen (iterate_keys d) < 2 ^ 31 ->
  exists d', onak_cmd_clean_aged d now max_age = Done (d', zlen (filter (fun k => aged k = true) (iterate_keys d))) /\
    iterate_keys d' = filter (fun k => aged k = false) (iterate_keys d).
Proof.
  intros Hk Hnd Hn. unfold onak_cmd_clean_aged. set (keys := iterate_keys d) in *.
  destruct (collect_spec keys [] 0 0 Hk) as (cap & E); [change (zlen (@nil openpgp_fingerprint)) with 0; lia..|]. change (zlen (@nil openpgp_fingerprint)) with 0 in E.
  rewrite E. cbn [app mbind outcome_bind wk_count]. clear E. rewrite take_ge by (unfold zlen; lia).
  assert (Hlen : zlen (old_fps keys) = zlen (filter (fun k => aged k = true) keys)).
  { unfold old_fps, zlen. by rewrite length_map. }
  assert (Hle : zlen (old_fps keys) <= zlen keys) by (rewrite Hlen; unfold zlen; pose proof (length_filter (fun k => aged k = true) keys); lia).
  destruct (delete_loop_spec (old_fps keys) d 0) as (d' & E & Hd'); [| done | | lia | lia |].
  - eapply sublist_NoDup; [exact Hnd|]. by apply fmap_sublist, sublist_filter.
  - intros fp Hfp. apply list_elem_of_fmap in Hfp as (k & -> & [_ Hin]%list_elem_of_filter). by apply list_elem_of_fmap_2.
  - exists d'. rewrite E, <- Hlen. split; [by f_equal|]. rewrite Hd'. fold keys. clear -Hnd.
    assert (Hmem : forall k, k ∈ keys -> (fp_of k ∉ old_fps keys <-> aged k = false)).
    { intros k Hin. unfold old_fps. split.
      - intros Hout. destruct (aged k) eqn:Ea; [|done]. destruct Hout. by apply list_elem_of_fmap_2, list_elem_of_filter.
      - intros Ha (k' & Hf & [Ha' Hin']%list_elem_of_filter)%list_elem_of_fmap.
        assert (k = k') as <-; [|congruence]. by apply (NoDup_map_inj fp_of keys). }
    by apply filter_ext_in.
Qed.

Lemma aged_too_old k age : wf_key k -> dates k age.1 age.2 -> max_age < 2 ^ 62 -> aged k = true <-> too_old now max_age age.
Proof.
  intros Hw Hd Hm. unfold too_old, aged, key_is_aged_or_expired. destruct (Z.eq_dec age.1 0) as [E0 | Hne].
  { destruct (expiration_total k Hw) as [[c Ec] _]. rewrite Ec. cbn [mbind outcome_bind].
    assert (c = 0) as ->; [|rewrite E0; cbn; split; [done | tauto]].
    revert Ec. destruct Hw as (Hw & _). destruct Hd as [creation v t1 t2 t3 t4 d1 d2 rest Hv Hd Hc | creation decl Hc _].
    - destruct (creation_octets k v t1 t2 t3 t4 ([d1; d2] ++ rest) Hw Hd) as (-> & _). congruence.
    - destruct (key_creation_spec k creation Hc) as (-> & _). congruence. }
  destruct (expired_iff k age.1 age.2 now Hw Hd Hne) as (t & -> & Hr & -> & Ht). cbn [mbind outcome_bind].
  destruct (Z.eqb_spec age.1 0); [done|]. rewrite <- Ht.
  destruct (Z.ltb_spec 0 max_age) as [Hp|]; cbn [andb]; [rewrite i64_small by lia; destruct (Z.ltb_spec (age.1 + max_age) now); [tauto|]|];
    destruct (Z.eqb_spec t 0), (Z.ltb_spec t now); cbn; intuition (done || lia).
Qed.

(** C35: clean-aged deletes exactly the keys that are too old (made more than the
    greatest age before now, or with expiration times that have all passed):
    the others are listed as before, and the result is the number of deleted
    keys. The database keeps the documented promise of deletion. *)
Theorem clean_aged_correct d (age : openpgp_publickey -> Z * list Z) :
  Forall listed_ok (iterate_keys d) -> Forall (fun k => dates k (age k).1 (age k).2) (iterate_keys d) ->
  NoDup (map fp_of (iterate_keys d)) -> zlen (iterate_keys d) < 2 ^ 31 -> max_age < 2 ^ 62 ->
  exists d', onak_cmd_clean_aged d now max_age =
      Done (d', zlen (filter (fun k => too_old now max_age (age k)) (iterate_keys d))) /\
    iterate_keys d' = filter (fun k => ~ too_old now max_age (age k)) (iterate_keys d).
Proof.
  intros Hk Ha Hnd Hn Hm. destruct (clean_aged_aged d Hk Hnd Hn) as (d' & E & Hd'). exists d'. rewrite E, Hd'.
  assert (Hi : forall k, k ∈ iterate_keys d -> (aged k = true <-> too_old now max_age (age k))).
  { intros k Hin. rewrite list.Forall_forall in Hk, Ha. apply aged_too_old; [apply (Hk k Hin) | auto | done]. }
  rewrite (filter_ext_in (fun k => aged k = true) (fun k => too_old now max_age (age k))) by auto. split; [done|].
  apply filter_ext_in. intros k Hin. rewrite <- (Hi k Hin). by destruct (aged k).
Qed.

End CleanAged.

(** * Durations *)

Definition seconds (unit : list Z) : option Z :=
  match unit with
  | [] | [121] | [89] => Some (365 * 86400)
  | [100] | [68] => Some 86400
  | [104] | [72] => Some 3600
  | [115] | [83] => Some 1
  | _ => None
  end.

Lemma skip_digits_app s rest : Forall (fun c => isdigit c = true) s ->
  match rest with c :: _ => isdigit c = false | [] => True end -> skip_digits (s ++ rest) = rest.
Proof.
  intros Hs Hr. induction Hs as [|c s Hc _ IH]; cbn; [destruct rest; cbn; [done | by rewrite Hr] | by rewrite Hc].
Qed.

Lemma strtol_decimal n rest : 0 < n < 2 ^ 31 -> match rest with c :: _ => isdigit c = false | [] => True end ->
  strtol (decimal n ++ rest) = (n, rest) /\ rest <> decimal n ++ rest.
Proof.
  intros Hn Hr. unfold decimal. destruct (Z.ltb_spec n 0); [lia|].
  destruct (dec_digits_value 10 n []) as (E & Hf & Hne); [lia | lia | done |]. cbn [digits_value] in E.
  set (ds := dec_digits 10 n []) in *. destruct ds as [|c s] eqn:Eds; [done|]. rewrite <- Eds in *.
  assert (Hc : isdigit c = true) by (rewrite Eds in Hf; by apply Forall_inv in Hf).
  assert (Hsp : isspace c = false).
  { unfold isdigit in Hc. zbool. unfold isspace. by destruct (Z.eqb_spec c 32), (Z.leb_spec 9 c), (Z.leb_spec c 13); cbn; try lia. }
  assert (E2 : strtol (ds ++ rest) = (Z.min (2 ^ 63 - 1) (digits_value (ds ++ rest) 0), skip_digits (ds ++ rest))).
  { unfold strtol. rewrite Eds. cbn [app skip_space]. rewrite Hsp. unfold isdigit in Hc. zbool.
    assert (c = 48 \/ c = 49 \/ c = 50 \/ c = 51 \/ c = 52 \/ c = 53 \/ c = 54 \/ c = 55 \/ c = 56 \/ c = 57) as Hcc by lia.
    by repeat destruct Hcc as [-> | Hcc]; try subst c. }
  rewrite E2, skip_digits_app, digits_value_app, E by done. split.
  - f_equal. assert (digits_value rest n = n) as -> by (destruct rest; cbn; [done | by rewrite Hr]). lia.
  - intros Hx. apply (f_equal length) in Hx. rewrite Eds, length_app in Hx. cbn in Hx. lia.
Qed.

(** A positive number with one of the documented units stands for that many
    seconds, and a bare one for years. *)
Theorem parse_age_correct n unit s : 0 < n < 2 ^ 31 -> seconds unit = Some s ->
  parse_age_string (Some (decimal n ++ unit)) = n * s.
Proof.
  intros Hn Hs. assert (Hu : match unit with c :: _ => isdigit c = false | [] => True end).
  { destruct unit as [|c u]; [done|]. unfold seconds in Hs. unfold isdigit.
    destruct (Z.leb_spec 48 c), (Z.leb_spec c 57); try done.
    assert (c = 48 \/ c = 49 \/ c = 50 \/ c = 51 \/ c = 52 \/ c = 53 \/ c = 54 \/ c = 55 \/ c = 56 \/ c = 57) as Hcc by lia.
    by repeat destruct Hcc as [-> | Hcc]; try subst c. }
  destruct (strtol_decimal n unit Hn Hu) as [E Hne]. unfold parse_age_string.
  destruct (decimal n ++ unit) as [|x l] eqn:El; [by destruct unit; cbn in E; simplify_eq; lia|].
  rewrite E. destruct (Z.leb_spec n 0); [lia|]. rewrite bool_decide_false by done. cbn [orb].
  assert (Hi : forall x, 0 <= x <= 2 ^ 57 -> i64 x = x) by (intros; apply i64_small; lia).
  unfold seconds in Hs. repeat case_match; simplify_eq; cbn; rewrite ?Hi by (rewrite ?Hi; lia); lia.
Qed.

(** * An example *)

Definition expiry_subs (n : Z) : list subpacket := [mkSub false 2 [0; 0; 3; 233]; mkSub true 9 (htonl_bytes n)].

Definition expiring_sig (n : Z) : openpgp_packet :=
  let data := [4; 0x13; 1; 2] ++ encode_area (expiry_subs n) ++ [0; 0; 1; 2; 0; 1; 1] in mkPacket 2 false (zlen data) data.

Definition example_key (created : Z) (sigs : list openpgp_packet) : openpgp_publickey :=
  let data := [4] ++ htonl_bytes created ++ [1; 0; 8; 200; 0; 2; 3] in
  mkKey (mkPacket 6 false (zlen data) data) false [] [mkSigned (mkPacket 13 false 1 [65]) sigs] [].

Definition two_keys : list openpgp_publickey := [example_key 1000 [expiring_sig 300; expiring_sig 500]; example_key 5000 []].

#[local] Instance example_hashes : Hashes := toy_hashes.
#[local] Instance example_build : BuildConfig := full_build.

#[local] Instance list_deletes_more : KeyDbMore (list openpgp_publickey) := {|
  fetch_key_text d _ := (zlen d, d);
  fetch_key_skshash d _ := (zlen d, d);
  delete_key d fp _ := (filter (fun k => fp_of k <> fp) d, if bool_decide (fp ∈ map fp_of d) then 0 else 1);
  iterate_keys d := d
|}.

#[local] Instance list_deletes : KeyDbDeletes (list openpgp_publickey).
Proof. split; [done|]. intros d fp t H. cbn. by rewrite bool_decide_true. Qed.

Definition example_decl (s : openpgp_packet) : Z := if bool_decide (s = expiring_sig 300) then 300 else 500.

Lemma expiring_declares n : n = 300 \/ n = 500 -> declares (expiring_sig n) n.
Proof.
  intros Hn. left. exists (expiry_subs n). split; [|by destruct Hn as [-> | ->]].
  split; [destruct Hn as [-> | ->]; apply (bool_decide_unpack _); vm_compute; exact I|].
  split; [destruct Hn as [-> | ->]; repeat constructor; vm_compute; congruence|].
  split; [by destruct Hn as [-> | ->]|]. exists 4, 0x13, 1, 2, [0; 0; 1; 2; 0; 1; 1]. split; [by left | done].
Qed.

Lemma example_declared : Forall (fun s => declares s (example_decl s)) [expiring_sig 300; expiring_sig 500].
Proof. constructor; [|constructor; [|constructor]]; apply expiring_declares; auto. Qed.

Lemma example_created c sigs : c = 1000 \/ c = 5000 -> created_at (pk_publickey (example_key c sigs)) c.
Proof.
  intros Hc. split; [destruct Hc as [-> | ->]; apply (bool_decide_unpack _); vm_compute; exact I|].
  destruct Hc as [-> | ->]; repeat eexists; by left.
Qed.

Lemma key_expiration_correct_witness :
  let key := example_key 1000 [expiring_sig 300; expiring_sig 500] in
  (exists t, key_expiration_time key = Done t /\
    (forall s, s ∈ key_sigs key -> declared_time 1000 (example_decl s) <= t) /\
    (t = 0 \/ exists s, s ∈ key_sigs key /\ example_decl s <> 0 /\ t = 1000 + example_decl s)) /\
  key_expiration_time key = Done 1500.
Proof.
  intros key. split; [|vm_compute; reflexivity].
  apply (key_expiration_correct key 1000 example_decl); [apply example_created; auto | lia | apply example_declared].
Defined.

Lemma key_is_aged_safe_witness : exists b, key_is_aged_or_expired (example_key 5000 []) 6000 10 = Done b.
Proof. apply key_is_aged_safe. apply (bool_decide_unpack _). vm_compute. exact I. Defined.

Definition example_age (k : openpgp_publickey) : Z * list Z :=
  if bool_decide (k = example_key 5000 []) then (5000, []) else (1000, [1300; 1500]).

Lemma clean_aged_correct_witness :
  (exists d', onak_cmd_clean_aged two_keys 2000 0 = Done (d', zlen (filter (fun k => too_old 2000 0 (example_age k)) (iterate_keys two_keys))) /\
     iterate_keys d' = filter (fun k => ~ too_old 2000 0 (example_age k)) (iterate_keys two_keys)) /\
  onak_cmd_clean_aged two_keys 2000 0 = Done ([example_key 5000 []], 1).
Proof.
  split; [|vm_compute; reflexivity]. apply (clean_aged_correct 2000 0 two_keys example_age).
  - repeat constructor; try (apply (bool_decide_unpack _); vm_compute; exact I); vm_compute; reflexivity.
  - constructor; [|constructor; [|constructor]].
    + exact (dates_v4 (example_key 1000 [expiring_sig 300; expiring_sig 500]) 1000 example_decl
        (example_created 1000 _ (or_introl eq_refl)) example_declared).
    + exact (dates_v4 (example_key 5000 []) 5000 example_decl (example_created 5000 [] (or_intror eq_refl)) (Forall_nil_2 _)).
  - apply (bool_decide_unpack _). vm_compute. exact I.
  - vm_compute. reflexivity.
  - vm_compute. reflexivity.
Defined.

Lemma parse_age_correct_witness :
  parse_age_string (Some (decimal 25 ++ [121])) = 25 * (365 * 86400) /\ parse_age_string (Some (str "180d")) = 180 * 86400.
Proof. split; [apply parse_age_correct; [lia | reflexivity] | vm_compute; reflexivity]. Defined.
