(* ===== verification/KeyIndex.v ===== *)
(** Key listings (keyindex.c): the machine readable index, the listing that is
    printed, and the values from which a template renders it.

    What a function prints is the text it returns.  A local array is a list of
    cells, [None] until they are written.  The database is asked only for the
    user id of a key id ([keyid2uid]; [None] is a NULL context). *)

From Stdlib Require Import String.
From S2P Require Import Prelude CLib OpenPGP Streams KeyId Decode Keys SksHash Photo Aged Template.

Definition pkalgo2char (algo : Z) : Z :=
  if algo =? OPENPGP_PKALGO_DSA then 68
  else if (algo =? OPENPGP_PKALGO_ECDSA) || (algo =? OPENPGP_PKALGO_EDDSA) then 69
  else if algo =? OPENPGP_PKALGO_EC then 101
  else if algo =? OPENPGP_PKALGO_ELGAMAL_SIGN then 71
  else if algo =? OPENPGP_PKALGO_ELGAMAL_ENC then 103
  else if algo =? OPENPGP_PKALGO_RSA then 82
  else if algo =? OPENPGP_PKALGO_RSA_ENC then 114
  else if algo =? OPENPGP_PKALGO_RSA_SIGN then 115
  else 63.

(** * Escaping into a buffer *)

Abbreviation cells := (list (option Z)).

(** [dst[o++] = c] for the characters of [s]. *)
Fixpoint write_cells (dst : cells) (o : Z) (s : list Z) : outcome cells :=
  match s with
  | [] => Done dst
  | c :: s =>
      if (0 <=? o) && (o <? zlen dst) then write_cells (<[Z.to_nat o := Some c]> dst) (o + 1) s
      else Fault OutOfBounds
  end.

(** ["%s"] of a buffer. *)
Fixpoint read_cells (dst : cells) : outcome (list Z) :=
  match dst with
  | [] => Fault OutOfBounds
  | None :: _ => Fault Uninitialised
  | Some c :: dst => if c =? 0 then Done [] else s ← read_cells dst; Done (c :: s)
  end.

(** The loop; [dst_len] has been decremented. *)
Fixpoint html_escape_loop (n : nat) (src : list Z) (in_pos : Z) (dst : cells) (out_pos dst_len : Z)
    : outcome (cells * Z) :=
  match n with
  | O => Done (dst, out_pos)
  | S n =>
      if out_pos <? u64 (dst_len - 1) then
        c ← src.[in_pos];
        match entity c with
        | Some rep =>
            if dst_len <=? out_pos + zlen rep then html_escape_loop n src (in_pos + 1) dst (out_pos + 1) dst_len
            else
              dst ← write_cells dst out_pos rep;
              html_escape_loop n src (in_pos + 1) dst (out_pos + zlen rep) dst_len
        | None =>
            dst ← write_cells dst out_pos [c];
            html_escape_loop n src (in_pos + 1) dst (out_pos + 1) dst_len
        end
      else Done (dst, out_pos)
  end.

Definition html_escape (src : list Z) (src_len : Z) (dst : cells) (dst_len : Z) : outcome cells :=
  '(dst, out_pos) ← html_escape_loop (Z.to_nat src_len) src 0 dst 0 (u64 (dst_len - 1));
  write_cells dst out_pos [0].

(** * Facts about a key packet *)

Definition oid_bits (oid : onak_oid) : Z :=
  match oid with
  | ONAK_OID_CURVE25519 => 255
  | ONAK_OID_ED25519 => 255
  | ONAK_OID_NISTP256 => 256
  | ONAK_OID_NISTP384 => 384
  | ONAK_OID_NISTP521 => 521
  | ONAK_OID_BRAINPOOLP256R1 => 256
  | ONAK_OID_BRAINPOOLP384R1 => 384
  | ONAK_OID_BRAINPOOLP512R1 => 512
  | ONAK_OID_SECP256K1 => 256
  | ONAK_OID_UNKNOWN | ONAK_OID_INVALID => 0
  end.

Definition keylength (keydata : openpgp_packet) : outcome Z :=
  let data := pkt_data keydata in
  v ← data.[0];
  if (v =? 2) || (v =? 3) then
    h ← data.[8]; l ← data.[9]; Done (Z.shiftl h 8 + l)
  else if (v =? 4) || (v =? 5) then
    let keyofs := if v =? 4 then 6 else 10 in
    a ← data.[5];
    if (a =? OPENPGP_PKALGO_EC) || (a =? OPENPGP_PKALGO_ECDSA) || (a =? OPENPGP_PKALGO_EDDSA) then
      oid ← onak_parse_oid (drop (Z.to_nat keyofs) data) (u64 (pkt_length keydata - keyofs));
      Done (oid_bits oid)
    else
      h ← data.[keyofs]; l ← data.[keyofs + 1]; Done (Z.shiftl h 8 + l)
  else Done 0.

(** [type] as the listings set it: an unknown version leaves it. *)
Definition key_type (packet : openpgp_packet) (type : Z) : outcome Z :=
  let data := pkt_data packet in
  v ← data.[0];
  if (v =? 2) || (v =? 3) then data.[7]
  else if (v =? 4) || (v =? 5) then data.[5]
  else Done type.

(** [(data[1] << 24) + (data[2] << 16) + (data[3] << 8) + data[4]] in [int]. *)
Definition created_int (packet : openpgp_packet) : outcome Z :=
  t ← rd_be (pkt_data packet) 1 4 0; Done (i32 t).

(** The same in [time_t]. *)
Definition created_time (packet : openpgp_packet) : outcome Z := rd_be (pkt_data packet) 1 4 0.

(** ["0x%016" PRIX64], ["%016" PRIX64], ["%5d%c"] *)
Definition hexid (keyid : Z) : list Z := str "0x" ++ hexn 16 keyid.
Definition bits_type (length type : Z) : list Z := padded 5 32 (decimal length) ++ [pkalgo2char type].

Section Listing.
Context {HF : Hashes} {BC : BuildConfig}.
Context (keyid2uid : option (Z -> outcome (option (list Z)))).

(** The user id a signer is shown with. *)
Definition signer_uid (sigid : Z) : outcome (option (list Z)) :=
  match keyid2uid with
  | None => Done None
  | Some f => f sigid
  end.

(** [data[0] == 4 && data[1] == 0x30] *)
Definition is_cert_rev (sig : openpgp_packet) : outcome bool :=
  v ← (pkt_data sig).[0];
  if v =? 4 then t ← (pkt_data sig).[1]; Done (t =? 0x30) else Done false.

(** * The listing *)

Definition link_to (op : string) (keyid : Z) (text : list Z) : list Z :=
  str "<a href=" ++ [34] ++ str "lookup?op=" ++ str op ++ str "&search=" ++ hexid keyid ++ [34] ++ str ">" ++ text ++ str "</a>".

Definition not_found : list Z := str "[User id not found]".

Fixpoint list_sigs (sigs : list openpgp_packet) (buf : cells) (html : bool) : outcome (list Z) :=
  match sigs with
  | [] => Done []
  | p :: sigs =>
      sigid ← sig_keyid p;
      uid ← signer_uid sigid;
      rev ← is_cert_rev p;
      let sig := if (rev : bool) then str "rev" else str "sig" in
      '(line, buf) ←
        match html, uid with
        | true, Some uid =>
            buf ← html_escape uid (zlen uid) buf 1024;
            text ← read_cells buf;
            Done (sig ++ str "         " ++ link_to "get" sigid (hexid sigid) ++ str "             "
                  ++ link_to "vindex" sigid text, buf)
        | true, None => Done (sig ++ str "         " ++ hexid sigid ++ str "             " ++ not_found, buf)
        | false, _ => Done (sig ++ str "         " ++ hexid sigid ++ str "             " ++ default not_found uid, buf)
        end;
      rest ← list_sigs sigs buf html;
      Done (line ++ [10] ++ rest)
  end.

(** A local [char buf[1024]]. *)
Definition fresh_buf : cells := replicate (Z.to_nat 1024) None.

Definition indent : list Z := str "                                ".

(** ["%.*s"] of a packet's octets. *)
Definition packet_text (p : openpgp_packet) : outcome (list Z) :=
  snprintf_s (2 ^ 31) (i32 (pkt_length p)) (pkt_data p).

(** [<img src="lookup?op=photo&search=...&idx=..." alt="[photo id]">] *)
Definition photo_link (keyid imgindx : Z) : list Z :=
  str "<img src=" ++ [34] ++ str "lookup?op=photo&search=" ++ hexid keyid ++ str "&idx=" ++ decimal imgindx
    ++ [34] ++ str " alt=" ++ [34] ++ str "[photo id]" ++ [34] ++ str ">".

(** What is printed for the user id or attribute itself, and the buffer. *)
Definition uid_line (keyid : Z) (u : openpgp_signedpacket) (buf : cells) (imgindx : Z) (verbose html : bool)
    : outcome (list Z * cells) :=
  let p := sp_packet u in
  if pkt_tag p =? OPENPGP_PACKET_UID then
    s ← snprintf_s 1023 (i32 (pkt_length p)) (pkt_data p);
    buf ← write_cells buf 0 (s ++ [0]);
    if html then
      buf ← html_escape (pkt_data p) (pkt_length p) buf 1024;
      text ← read_cells buf;
      Done (indent ++ text ++ [10], buf)
    else
      text ← packet_text p;
      Done (indent ++ text ++ [10], buf)
  else if pkt_tag p =? OPENPGP_PACKET_UAT then
    hidden ← (if negb verbose then signedpacket_is_revoked u else Done false);
    if (hidden : bool) then Done ([], buf)
    else Done (indent ++ (if html then photo_link keyid imgindx else str "[photo id]") ++ [10], buf)
  else Done ([], buf).

Fixpoint list_uids (keyid : Z) (uids : list openpgp_signedpacket) (buf : cells) (imgindx : Z) (verbose html : bool)
    : outcome (list Z) :=
  match uids with
  | [] => Done []
  | u :: uids =>
      '(line, buf) ← uid_line keyid u buf imgindx verbose html;
      let imgindx := if pkt_tag (sp_packet u) =? OPENPGP_PACKET_UAT then i32 (imgindx + 1) else imgindx in
      sigs ← (if verbose then list_sigs (sp_sigs u) fresh_buf html else Done []);
      rest ← list_uids keyid uids buf imgindx verbose html;
      Done (line ++ sigs ++ rest)
  end.

(** [type] and [keyid] keep their values from one subkey to the next. *)
Fixpoint list_subkeys (subkeys : list openpgp_signedpacket) (type keyid : Z) (verbose html : bool) : outcome (list Z) :=
  match subkeys with
  | [] => Done []
  | s :: subkeys =>
      let p := sp_packet s in
      '(line, type, keyid) ←
        (if pkt_tag p =? OPENPGP_PACKET_PUBLICSUBKEY then
           created ← created_int p;
           type ← key_type p type;
           length ← keylength p;
           '(_, id) ← get_packetid p;
           let keyid := default keyid id in
           Done (str "sub  " ++ bits_type length type ++ str "/" ++ hexid keyid ++ str " " ++ date 47 created ++ [10], type, keyid)
         else Done ([], type, keyid));
      sigs ← (if verbose then list_sigs (sp_sigs s) fresh_buf html else Done []);
      rest ← list_subkeys subkeys type keyid verbose html;
      Done (line ++ sigs ++ rest)
  end.

(** The octets of a fingerprint in groups, with a wider gap in the middle of a
    SHA-1 one. *)
Fixpoint fp_groups (length i : Z) (fp : list Z) : list Z :=
  match fp with
  | [] => []
  | b :: fp =>
      (if (length =? 16) || (i mod 2 =? 0) then [32] else []) ++ (if (length =? 20) && (i * 2 =? length) then [32] else [])
        ++ hexn 2 b ++ fp_groups length (i + 1) fp
  end.

Definition display_fingerprint (key : openpgp_publickey) : outcome (list Z) :=
  '(_, fp) ← get_fingerprint (pk_publickey key);
  bs ← memcpy_from (fp_bytes fp) 0 (fp_length fp);
  Done (str "      Key fingerprint =" ++ fp_groups (fp_length fp) 0 bs ++ [10]).

Definition display_skshash (key : openpgp_publickey) (html : bool) : outcome (list Z) :=
  '(_, h) ← get_skshash key;
  let hex := hex_of_bytes true h in
  Done (str "      Key hash = " ++
        (if html then str "<a href=" ++ [34] ++ str "lookup?op=hget&search=" ++ hex ++ [34] ++ str ">" else []) ++
        hex ++ (if html then str "</a>" else []) ++ [10]).

Definition revoked_mark (key : openpgp_publickey) (mark : list Z) : list Z := if pk_revoked key then mark else [].

(** The first user id, with what is printed behind it; [curuid] afterwards and
    the buffer. *)
Definition first_uid_lines (key : openpgp_publickey) (keyid : Z) (buf : cells) (verbose fingerprint skshash html : bool)
    : outcome (list Z * list openpgp_signedpacket * cells) :=
  let none :=
    fp ← (if fingerprint then display_fingerprint key else Done []);
    Done (revoked_mark key (str "*** REVOKED ***") ++ [10] ++ fp, pk_uids key, buf) in
  match pk_uids key with
  | [] => none
  | u :: next =>
      let p := sp_packet u in
      if pkt_tag p =? OPENPGP_PACKET_UID then
        '(line, buf) ←
          (if html then
             buf ← html_escape (pkt_data p) (pkt_length p) buf 1024;
             text ← read_cells buf;
             Done (link_to "vindex" keyid text ++ revoked_mark key (str " *** REVOKED ***") ++ [10], buf)
           else
             text ← packet_text p;
             Done (text ++ revoked_mark key (str " *** REVOKED ***") ++ [10], buf));
        sks ← (if skshash then display_skshash key html else Done []);
        fp ← (if fingerprint then display_fingerprint key else Done []);
        sigs ← (if verbose then list_sigs (sp_sigs u) fresh_buf html else Done []);
        Done (line ++ sks ++ fp ++ sigs, next, buf)
      else none
  end.

(** [while (keys != NULL)]; [keyid] is not initialised. *)
Fixpoint legacy_loop (keys : list openpgp_publickey) (type : Z) (keyid : option Z) (buf : cells)
    (verbose fingerprint skshash html : bool) : outcome (list Z) :=
  match keys with
  | [] => Done []
  | key :: keys =>
      let p := pk_publickey key in
      created ← created_int p;
      type ← key_type p type;
      length ← keylength p;
      '(_, id) ← get_keyid key;
      let keyid := match id with Some _ => id | None => keyid end in
      kid ← read_var keyid;
      let head := str "pub  " ++ bits_type length type ++ str "/" ++ (if html then link_to "get" kid (hexid kid) else hexid kid)
                  ++ str " " ++ date 47 created ++ str " " in
      '(first, curuid, buf) ← first_uid_lines key kid buf verbose fingerprint skshash html;
      uids ← list_uids kid curuid fresh_buf 0 verbose html;
      subs ← (if verbose then list_subkeys (pk_subkeys key) 0 0 verbose html else Done []);
      rest ← legacy_loop keys type keyid buf verbose fingerprint skshash html;
      Done (head ++ first ++ uids ++ subs ++ rest)
  end.

Definition key_index_legacy (keys : list openpgp_publickey) (verbose fingerprint skshash html : bool) : outcome (list Z) :=
  body ← legacy_loop keys 0 None fresh_buf verbose fingerprint skshash html;
  Done ((if html then str "<pre>" ++ [10] else []) ++ str "Type   bits/keyID    Date       User ID" ++ [10] ++ body ++
        (if html then str "</pre>" ++ [10] else [])).

(** * The machine readable index *)

(** One character of a user id. *)
Definition mr_char (c : Z) : list Z :=
  if c =? 37 then [37; c]
  else if (c =? 58) || (127 <? c) then 37 :: hexn 2 c
  else [c].

Fixpoint mr_uids (uids : list openpgp_signedpacket) : outcome (list Z) :=
  match uids with
  | [] => Done []
  | u :: uids =>
      let p := sp_packet u in
      if negb (pkt_tag p =? OPENPGP_PACKET_UID) then mr_uids uids
      else
        rev ← signedpacket_is_revoked u;
        if (rev : bool) then mr_uids uids
        else
          text ← memcpy_from (pkt_data p) 0 (Z.max 0 (i32 (pkt_length p)));
          rest ← mr_uids uids;
          Done (str "uid:" ++ concat (map mr_char text) ++ [10] ++ rest)
  end.

(** [keyid] is not initialised, and [type] keeps its value. *)
Fixpoint mr_loop (keys : list openpgp_publickey) (type : Z) (keyid : option Z) : outcome (list Z) :=
  match keys with
  | [] => Done []
  | key :: keys =>
      let p := pk_publickey key in
      created ← created_int p;
      v ← (pkt_data p).[0];
      '(id, type, keyid) ←
        (if (v =? 2) || (v =? 3) then
           '(_, i) ← get_keyid key;
           let keyid := match i with Some _ => i | None => keyid end in
           k ← read_var keyid;
           type ← (pkt_data p).[7];
           Done (hexn 16 k, type, keyid)
         else if (v =? 4) || (v =? 5) then
           '(_, fp) ← get_fingerprint p;
           bs ← memcpy_from (fp_bytes fp) 0 (fp_length fp);
           type ← (pkt_data p).[5];
           Done (hex_of_bytes true bs, type, keyid)
         else Done ([], type, keyid));
      length ← keylength p;
      uids ← mr_uids (pk_uids key);
      rest ← mr_loop keys type keyid;
      Done (str "pub:" ++ id ++ str ":" ++ decimal type ++ str ":" ++ decimal length ++ str ":" ++ decimal created ++ str "::"
            ++ (if pk_revoked key then str "r" else []) ++ [10] ++ uids ++ rest)
  end.

Definition mrkey_index (keys : list openpgp_publickey) : outcome (list Z) := mr_loop keys 0 None.

(** * Values for the template *)

Definition set_bool (m : tmpl_value) (key : string) (b : bool) : tmpl_value := tmpl_map_set m (str key) (TMPL_BOOL b).
Definition set_int (m : tmpl_value) (key : string) (i : Z) : tmpl_value := tmpl_map_set m (str key) (TMPL_INT i).

(** [tmpl_map_set(m, key, tmpl_string_take(s))] *)
Definition set_take (m : tmpl_value) (key : string) (s : list Z) : tmpl_value := tmpl_map_set m (str key) (tmpl_string_take (Some s)).

(** [tmpl_map_set(m, key, tmpl_string_n(data, length))] *)
Definition set_octets (m : tmpl_value) (key : string) (p : openpgp_packet) : outcome tmpl_value :=
  v ← tmpl_string_n (Some (pkt_data p)) (pkt_length p); Done (tmpl_map_set m (str key) v).

Definition format_fp_string (fp : openpgp_fingerprint) : outcome (list Z) :=
  bs ← memcpy_from (fp_bytes fp) 0 (fp_length fp); Done (fp_groups (fp_length fp) 0 bs).

Definition curve_name (oid : onak_oid) : option (list Z) :=
  match oid with
  | ONAK_OID_NISTP256 => Some (str "nistp256")
  | ONAK_OID_NISTP384 => Some (str "nistp384")
  | ONAK_OID_NISTP521 => Some (str "nistp521")
  | ONAK_OID_BRAINPOOLP256R1 => Some (str "brainpoolP256r1")
  | ONAK_OID_BRAINPOOLP384R1 => Some (str "brainpoolP384r1")
  | ONAK_OID_BRAINPOOLP512R1 => Some (str "brainpoolP512r1")
  | ONAK_OID_SECP256K1 => Some (str "secp256k1")
  | _ => None
  end.

Definition pkalgo_modern_str (keydata : openpgp_packet) (bits : Z) : outcome (list Z) :=
  let data := pkt_data keydata in
  let named name := name ++ decimal64 (u32 bits) in
  if pkt_length keydata <? 6 then Done (str "?")
  else
    v ← data.[0];
    let v23 := (v =? 2) || (v =? 3) in
    let v45 := (v =? 4) || (v =? 5) in
    if v23 && (pkt_length keydata <? 8) then Done (str "?")
    else if negb (v23 || v45) then Done (str "?")
    else
      algo ← data.[if v23 then 7 else 5];
      let fallback := named [pkalgo2char algo] in
      if (algo =? OPENPGP_PKALGO_RSA) || (algo =? OPENPGP_PKALGO_RSA_ENC) || (algo =? OPENPGP_PKALGO_RSA_SIGN)
      then Done (named (str "rsa"))
      else if algo =? OPENPGP_PKALGO_DSA then Done (named (str "dsa"))
      else if (algo =? OPENPGP_PKALGO_ELGAMAL_ENC) || (algo =? OPENPGP_PKALGO_ELGAMAL_SIGN) then Done (named (str "elg"))
      else if negb v45 then Done fallback
      else
        let keyofs := if v =? 4 then 6 else 10 in
        if pkt_length keydata <=? keyofs then Done fallback
        else
          oid ← onak_parse_oid (drop (Z.to_nat keyofs) data) (pkt_length keydata - keyofs);
          Done (if algo =? OPENPGP_PKALGO_EDDSA then
                  if bool_decide (oid = ONAK_OID_ED25519) then str "ed25519" else named (str "eddsa")
                else if algo =? OPENPGP_PKALGO_EC then
                  if bool_decide (oid = ONAK_OID_CURVE25519) then str "cv25519" else named (str "ecdh")
                else if algo =? OPENPGP_PKALGO_ECDSA then default (named (str "ecdsa")) (curve_name oid)
                else fallback).

Definition build_sig (p : openpgp_packet) : outcome tmpl_value :=
  sigid ← sig_keyid p;
  is_rev ← is_cert_rev p;
  resolved ← signer_uid sigid;
  let sig := TMPL_MAP [] in
  let sig := tmpl_map_set sig (str "kind") (TMPL_STRING (if (is_rev : bool) then str "rev" else str "sig")) in
  let sig := set_bool sig "kind_is_rev" is_rev in
  let sig := set_take sig "keyid_hex16" (hexn 16 sigid) in
  '(rc, _, created) ← sig_info p None (Some (Some 0));
  t ← match created with Some c => read_var c | None => Fault NullDeref end;
  let sig := if status_ok rc && (0 <? t)
             then set_take (set_bool sig "has_date" true) "date_str_iso" (date 45 t) else sig in
  let sig := set_bool sig "signer_uid_known" (match resolved with Some _ => true | None => false end) in
  Done (match resolved with Some uid => set_take sig "signer_uid" uid | None => sig end).

Fixpoint build_sigs_loop (sigs : list openpgp_packet) (out : tmpl_value) : outcome tmpl_value :=
  match sigs with
  | [] => Done out
  | p :: sigs => sig ← build_sig p; build_sigs_loop sigs (tmpl_list_append out sig)
  end.

Definition build_sigs_list (sigs : list openpgp_packet) : outcome tmpl_value := build_sigs_loop sigs (TMPL_LIST []).

Definition extract_uid_email (text : list Z) : option (list Z) :=
  match memchr 60 text with
  | None => None
  | Some lt =>
      let rest := drop (S lt) text in
      match memchr 62 rest with
      | None | Some O => None
      | Some n =>
          let address := take n rest in
          match memchr 64 address with None => None | Some _ => Some address end
      end
  end.

(** The values of one user id or attribute. *)
Definition build_uid (u : openpgp_signedpacket) (is_uat revoked : bool) (this_idx : Z) : outcome tmpl_value :=
  let p := sp_packet u in
  let entry := set_bool (set_bool (TMPL_MAP []) "is_uat" is_uat) "revoked" revoked in
  entry ←
    (if is_uat then Done (set_int entry "uat_index" this_idx)
     else
       entry ← set_octets entry "text" p;
       text ← memcpy_from (pkt_data p) 0 (pkt_length p);
       Done (match extract_uid_email text with
             | Some email => set_take (set_bool entry "has_email" true) "email" email
             | None => set_bool entry "has_email" false
             end));
  let entry := set_int entry "sig_count" (zlen (sp_sigs u)) in
  sigs ← build_sigs_list (sp_sigs u);
  Done (tmpl_map_set entry (str "sigs") sigs).

(** [skip] is the position of the primary user id in the list. *)
Fixpoint build_uid_loop (uids : list openpgp_signedpacket) (i : nat) (skip : option nat) (imgindx : Z) (verbose : bool)
    (out : tmpl_value) : outcome tmpl_value :=
  match uids with
  | [] => Done out
  | u :: uids =>
      let tag := pkt_tag (sp_packet u) in
      let is_uat := tag =? OPENPGP_PACKET_UAT in
      if negb (tag =? OPENPGP_PACKET_UID) && negb is_uat then build_uid_loop uids (S i) skip imgindx verbose out
      else
        let this_idx := if is_uat then imgindx else 0 in
        let imgindx := if is_uat then i32 (imgindx + 1) else imgindx in
        if bool_decide (Some i = skip) then build_uid_loop uids (S i) skip imgindx verbose out
        else
          revoked ← signedpacket_is_revoked u;
          if negb verbose && revoked then build_uid_loop uids (S i) skip imgindx verbose out
          else
            entry ← build_uid u is_uat revoked this_idx;
            build_uid_loop uids (S i) skip imgindx verbose (tmpl_list_append out entry)
  end.

Definition build_uid_list (uids : list openpgp_signedpacket) (skip : option nat) (verbose : bool) : outcome tmpl_value :=
  build_uid_loop uids 0 skip 0 verbose (TMPL_LIST []).

(** [subkeyid] keeps its value from one subkey to the next. *)
Fixpoint build_subkey_loop (subkeys : list openpgp_signedpacket) (subkeyid : Z) (verbose : bool) (out : tmpl_value)
    : outcome tmpl_value :=
  match subkeys with
  | [] => Done out
  | s :: subkeys =>
      let p := sp_packet s in
      if negb (pkt_tag p =? OPENPGP_PACKET_PUBLICSUBKEY) then build_subkey_loop subkeys subkeyid verbose out
      else
        created ← created_time p;
        type ← key_type p 0;
        length ← keylength p;
        '(_, id) ← get_packetid p;
        let subkeyid := default subkeyid id in
        let entry := TMPL_MAP [] in
        let entry := set_take entry "bits_padded" (padded 5 32 (decimal length)) in
        let entry := set_take entry "algo_char" [pkalgo2char type] in
        let entry := set_take entry "subkeyid_hex16" (hexn 16 subkeyid) in
        let entry := set_take entry "date_str" (date 47 created) in
        entry ← (if verbose then sigs ← build_sigs_list (sp_sigs s); Done (tmpl_map_set entry (str "sigs") sigs) else Done entry);
        build_subkey_loop subkeys subkeyid verbose (tmpl_list_append out entry)
  end.

Definition build_subkey_list (subkeys : list openpgp_signedpacket) (verbose : bool) : outcome tmpl_value :=
  build_subkey_loop subkeys 0 verbose (TMPL_LIST []).

(** The expiry of the primary key. *)
Definition set_expiry (m : tmpl_value) (key : openpgp_publickey) (now : Z) : outcome tmpl_value :=
  expiry ← key_expiration_time key;
  Done (if 0 <? expiry then
          set_bool (set_take (set_bool m "has_expiry" true) "expires_str_iso" (date 45 expiry)) "is_expired" (expiry <? now)
        else set_bool (set_bool m "has_expiry" false) "is_expired" false).

(** The creation time of the first key revocation, or 0. *)
Fixpoint revocation_time (sigs : list openpgp_packet) : outcome Z :=
  match sigs with
  | [] => Done 0
  | s :: sigs =>
      let data := pkt_data s in
      if pkt_length s <? 2 then revocation_time sigs
      else
        v ← data.[0];
        third ← (if (v =? 3) && (3 <=? pkt_length s) then t ← data.[2]; Done (t =? OPENPGP_SIGTYPE_KEY_REV) else Done false);
        is_rev ← (if (third : bool) then Done true
                  else if (v =? 4) || (v =? 5) then t ← data.[1]; Done (t =? OPENPGP_SIGTYPE_KEY_REV) else Done false);
        if (is_rev : bool) then
          '(_, _, created) ← sig_info s None (Some (Some 0));
          match created with Some c => read_var c | None => Fault NullDeref end
        else revocation_time sigs
  end.

Definition set_revocation (m : tmpl_value) (key : openpgp_publickey) : outcome tmpl_value :=
  let m := set_bool (set_bool m "revoked" (pk_revoked key)) "has_revoked_date" false in
  if pk_revoked key then
    revtime ← revocation_time (pk_sigs key);
    Done (if 0 <? revtime then set_take (set_bool m "has_revoked_date" true) "revoked_str_iso" (date 45 revtime) else m)
  else Done m.

(** The first user id that is not revoked, and its position. *)
Fixpoint primary_uid (uids : list openpgp_signedpacket) (i : nat) : outcome (option (nat * openpgp_signedpacket)) :=
  match uids with
  | [] => Done None
  | u :: uids =>
      if pkt_tag (sp_packet u) =? OPENPGP_PACKET_UID then
        rev ← signedpacket_is_revoked u;
        if negb rev then Done (Some (i, u)) else primary_uid uids (S i)
      else primary_uid uids (S i)
  end.

Definition set_primary (m : tmpl_value) (primary : option (nat * openpgp_signedpacket)) : outcome tmpl_value :=
  match primary with
  | None => Done (set_bool m "has_primary_uid" false)
  | Some (_, u) =>
      let p := sp_packet u in
      m ← set_octets (set_bool m "has_primary_uid" true) "primary_uid" p;
      text ← memcpy_from (pkt_data p) 0 (pkt_length p);
      let m := match extract_uid_email text with
               | Some email => set_take (set_bool m "primary_has_email" true) "primary_email" email
               | None => set_bool m "primary_has_email" false
               end in
      let m := set_int m "primary_sig_count" (zlen (sp_sigs u)) in
      sigs ← build_sigs_list (sp_sigs u);
      Done (tmpl_map_set m (str "primary_sigs") sigs)
  end.

(** [while ( *trim == ' ') trim++;] *)
Definition trim_spaces (s : list Z) : list Z := skip_char 32 s.

Definition set_fingerprints (m : tmpl_value) (key : openpgp_publickey) : outcome tmpl_value :=
  '(rc, fp) ← get_fingerprint (pk_publickey key);
  if status_ok rc then
    full ← format_fp_string fp;
    let m := set_take m "fingerprint_formatted_trimmed" (trim_spaces full) in
    bs ← memcpy_from (fp_bytes fp) 0 (fp_length fp);
    Done (set_take m "fingerprint_hex_full" (hex_of_bytes true bs))
  else Done m.

Definition sig_total (uids : list openpgp_signedpacket) : Z := foldr (fun u n => zlen (sp_sigs u) + n) 0 uids.

Definition build_one_key (key : openpgp_publickey) (now : Z) (verbose fingerprint skshash : bool) : outcome tmpl_value :=
  let p := pk_publickey key in
  created ← created_time p;
  type ← key_type p 0;
  length ← keylength p;
  '(_, id) ← get_keyid key;
  let keyid := default 0 id in
  let m := TMPL_MAP [] in
  let m := set_take m "bits_padded" (padded 5 32 (decimal length)) in
  let m := set_take m "algo_char" [pkalgo2char type] in
  modern ← pkalgo_modern_str p length;
  let m := set_take m "algo_modern" modern in
  let m := set_take m "keyid_hex16" (hexn 16 keyid) in
  let m := set_take m "date_str" (date 47 created) in
  let m := set_take m "date_str_iso" (date 45 created) in
  m ← set_expiry m key now;
  m ← set_revocation m key;
  curuid ← primary_uid (pk_uids key) 0;
  m ← set_primary m curuid;
  others ← build_uid_list (pk_uids key) (fst <$> curuid) verbose;
  let m := tmpl_map_set m (str "other_uids") others in
  m ← (if verbose then subs ← build_subkey_list (pk_subkeys key) verbose; Done (tmpl_map_set m (str "subkeys") subs)
       else Done m);
  m ← (if fingerprint then
         '(rc, fp) ← get_fingerprint p;
         if status_ok rc then f ← format_fp_string fp; Done (set_take m "fingerprint_formatted" f) else Done m
       else Done m);
  m ← (if skshash then '(_, h) ← get_skshash key; Done (set_take m "skshash_hex" (hex_of_bytes true h)) else Done m);
  m ← set_fingerprints m key;
  Done (set_int m "sig_count_total" (sig_total (pk_uids key))).

Fixpoint build_keys_loop (keys : list openpgp_publickey) (now : Z) (verbose fingerprint skshash : bool) (klist : tmpl_value)
    : outcome tmpl_value :=
  match keys with
  | [] => Done klist
  | key :: keys =>
      k ← build_one_key key now verbose fingerprint skshash;
      build_keys_loop keys now verbose fingerprint skshash (tmpl_list_append klist k)
  end.

Definition build_key_index_data (keys : list openpgp_publickey) (now : Z) (verbose fingerprint skshash : bool)
    : outcome tmpl_value :=
  let opts := set_bool (set_bool (set_bool (TMPL_MAP []) "verbose" verbose) "fingerprint" fingerprint) "skshash" skshash in
  let root := tmpl_map_set (TMPL_MAP []) (str "opts") opts in
  klist ← build_keys_loop keys now verbose fingerprint skshash (TMPL_LIST []);
  Done (tmpl_map_set root (str "keys") klist).

(** Rendering to standard output; what was put out before a template failed
    stays there. *)
Definition key_index (source : option (list Z)) (keys : list openpgp_publickey) (now : Z)
    (verbose fingerprint skshash html : bool) : outcome (list Z) :=
  if negb html then key_index_legacy keys verbose fingerprint skshash html
  else
    match source with
    | None => key_index_legacy keys verbose fingerprint skshash html
    | Some source =>
        root ← build_key_index_data keys now verbose fingerprint skshash;
        '(out, rc) ← tmpl_render (fun ctx c => (c :: ctx, c)) (Some source) root [];
        if rc =? 0 then Done (rev out)
        else legacy ← key_index_legacy keys verbose fingerprint skshash html; Done (rev out ++ legacy)
    end.

End Listing.
