(* ===== verification/KeyIndexFacts.v ===== *)
(** Escaping into a buffer, photo numbers, and the safety of the listings. *)

From Stdlib Require Import String.
From S2P Require Import Prelude CLib OpenPGP Streams KeyId Decode Keys SksHash SigCheck Photo Aged AgedFacts.
From S2P Require Import Template TemplateFacts TemplateSem KeyIndex.

(** * Escaping into a buffer *)

Lemma write_cells_spec s : forall pre (old post : cells) o, o = zlen pre -> length old = length s ->
  write_cells (pre ++ old ++ post) o s = Done (pre ++ map Some s ++ post).
Proof.
  induction s as [|c s IH]; intros pre old post o -> Hl; destruct old as [|x old]; cbn [length] in Hl; try lia; [done|].
  cbn [write_cells map app]. pose proof (zlen_nonneg pre). pose proof (zlen_nonneg (old ++ post)).
  rewrite zlen_app, zlen_cons. destruct (Z.leb_spec 0 (zlen pre)), (Z.ltb_spec (zlen pre) (zlen pre + (1 + zlen (old ++ post)))); try lia.
  cbn [andb]. assert (Hi : Z.to_nat (zlen pre) = length pre) by (unfold zlen; lia).
  rewrite Hi, insert_app_r_alt, Nat.sub_diag by lia. cbn [insert list_insert].
  specialize (IH (pre ++ [Some c]) old post (zlen pre + 1)). rewrite zlen_app, <- !app_assoc in IH. cbn [app] in IH.
  apply IH; [done | lia].
Qed.

Lemma read_cells_spec s rest : Forall (fun c => c <> 0) s -> read_cells (map Some s ++ Some 0 :: rest) = Done s.
Proof. induction 1 as [|c s Hc _ IH]; cbn; [done|]. destruct (Z.eqb_spec c 0); [done|]. by rewrite IH. Qed.

Lemma escape_cons c s : escape (c :: s) = match entity c with Some rep => rep | None => [c] end ++ escape s.
Proof. done. Qed.

Lemma zlen_escape s : zlen s <= zlen (escape s).
Proof.
  induction s as [|c s IH]; [done|]. rewrite escape_cons, zlen_app, zlen_cons.
  assert (1 <= zlen (match entity c with Some rep => rep | None => [c] end)); [|lia].
  unfold entity. repeat case_match; simplify_eq; done.
Qed.

Lemma escape_no_nul s : Forall (fun c => c <> 0) s -> Forall (fun c => c <> 0) (escape s).
Proof.
  induction 1 as [|c s Hc _ IH]; [constructor|]. rewrite escape_cons. apply Forall_app. split; [|done].
  unfold entity. repeat case_match; simplify_eq; repeat constructor; done.
Qed.

(** The loop in the middle: [done] has been written. *)
Lemma html_escape_loop_spec todo : forall src n in_pos (written : list Z) (old : cells) D,
  holds src in_pos todo -> n = length todo -> length old = Z.to_nat (D - zlen written) ->
  zlen written + zlen (escape todo) <= D - 2 -> D < 2 ^ 63 ->
  exists old', html_escape_loop n src in_pos (map Some written ++ old) (zlen written) (D - 1) =
    Done (map Some (written ++ escape todo) ++ old', zlen written + zlen (escape todo)) /\
    length old' = Z.to_nat (D - zlen written - zlen (escape todo)).
Proof.
  induction todo as [|c todo IH]; intros src n in_pos written old D Hs -> Hl Hfit HD; cbn [length html_escape_loop].
  { exists old. change (escape []) with (@nil Z). rewrite app_nil_r. change (zlen (@nil Z)) with 0.
    split; [do 2 f_equal; lia | lia]. }
  destruct Hs as [Ec Hs]. rewrite escape_cons in *. set (rep := match entity c with Some rep => rep | None => [c] end) in *.
  rewrite zlen_app in *. pose proof (zlen_nonneg written). pose proof (zlen_nonneg (escape todo)).
  assert (Hrep : 1 <= zlen rep) by (unfold rep, entity; repeat case_match; simplify_eq; done).
  rewrite u64_small by lia. destruct (Z.ltb_spec (zlen written) (D - 1 - 1)); [|lia]. rewrite Ec. cbn [mbind outcome_bind].
  assert (Hw : write_cells (map Some written ++ old) (zlen written) rep =
    Done (map Some (written ++ rep) ++ drop (length rep) old)).
  { rewrite map_app, <- app_assoc. rewrite <- (take_drop (length rep) old) at 1. apply write_cells_spec.
    - unfold zlen. by rewrite length_map.
    - rewrite length_take. unfold zlen in *. lia. }
  destruct (IH src (length todo) (in_pos + 1) (written ++ rep) (drop (length rep) old) D) as (old' & E & Hl');
    [done | done | rewrite length_drop, zlen_app; unfold zlen in *; lia | rewrite zlen_app; lia | done |].
  rewrite zlen_app, <- app_assoc in E. exists old'. rewrite zlen_app in Hl'. split; [|lia].
  subst rep. destruct (entity c) as [r|].
  - destruct (Z.leb_spec (D - 1) (zlen written + zlen r)); [lia|]. rewrite Hw. cbn [mbind outcome_bind]. rewrite E.
    by rewrite Z.add_assoc.
  - rewrite Hw. cbn [mbind outcome_bind]. change (zlen [c]) with 1 in *. rewrite E. by rewrite Z.add_assoc.
Qed.

Lemma html_escape_fits src dst : zlen (escape src) <= zlen dst - 2 -> zlen dst < 2 ^ 63 ->
  exists rest, html_escape src (zlen src) dst (zlen dst) = Done (map Some (escape src) ++ Some 0 :: rest) /\
    zlen (map Some (escape src) ++ Some 0 :: rest) = zlen dst.
Proof.
  intros Hfit HD. unfold html_escape. pose proof (zlen_nonneg (escape src)).
  rewrite u64_small by lia. unfold zlen at 1. rewrite Nat2Z.id.
  destruct (html_escape_loop_spec src src (length src) 0 [] dst (zlen dst)) as (old & E & Hl).
  - pose proof (holds_all src [] []) as Hh. cbn [app] in Hh. by rewrite app_nil_r in Hh.
  - done.
  - change (zlen (@nil Z)) with 0. unfold zlen. lia.
  - change (zlen (@nil Z)) with 0. lia.
  - done.
  - change (zlen (@nil Z)) with 0 in *. cbn [map app] in E. rewrite E. cbn [mbind outcome_bind].
    destruct old as [|x old]; [cbn in Hl; lia|].
    pose proof (write_cells_spec [0] (map Some (escape src)) [x] old (0 + zlen (escape src))) as Hw. cbn [app map] in Hw.
    rewrite Hw; [|unfold zlen; rewrite length_map; lia | done]. exists old. split; [done|].
    cbn [length] in Hl. unfold zlen in *. rewrite length_app, length_map. cbn [length]. lia.
Qed.

(** When the escaped string fits into the buffer, [html_escape] leaves it
    there, whatever the buffer held, and it is the text the template engine
    would put out. *)
Theorem html_escape_correct src dst : Forall (fun c => c <> 0) src -> zlen (escape src) <= zlen dst - 2 -> zlen dst < 2 ^ 63 ->
  exists dst', html_escape src (zlen src) dst (zlen dst) = Done dst' /\ read_cells dst' = Done (escape src) /\
    zlen dst' = zlen dst.
Proof.
  intros Hnul Hfit HD. destruct (html_escape_fits src dst Hfit HD) as (rest & E & Hl). eexists. split; [exact E|].
  split; [by apply read_cells_spec, escape_no_nul | done].
Qed.

(** A user id of [s]. *)
Definition uid_of (s : list Z) : openpgp_signedpacket := mkSigned (mkPacket OPENPGP_PACKET_UID false (zlen s) s) [].

(** An entity that does not fit at the end of the buffer leaves the octet
    there as it was; [list_uids] has put the unescaped user id into the buffer
    before, so that a tag at the right place of a long user id reaches the page
    as it is. *)
Theorem list_uids_unescaped keyid verbose : exists out buf,
  let uid := replicate 1019 97 ++ str "<b>" in
  uid_line keyid (uid_of uid) fresh_buf 0 verbose true = Done (out, buf) /\ out = indent ++ uid ++ [10].
Proof. destruct verbose; eexists _, _; (split; [vm_compute; reflexivity | vm_compute; reflexivity]). Qed.

(** * Photo numbers *)

(** What the listing for templates shows: user ids and attributes, without the
    primary one, and without revoked ones unless it is verbose. *)
Definition shown (skip : option nat) (verbose : bool) (iu : nat * openpgp_signedpacket) : bool :=
  let tag := pkt_tag (sp_packet iu.2) in
  ((tag =? OPENPGP_PACKET_UID) || (tag =? OPENPGP_PACKET_UAT)) && negb (bool_decide (Some iu.1 = skip)) &&
  (verbose || match signedpacket_is_revoked iu.2 with Done b => negb b | Fault _ => false end).

(** The number of attributes in front of position [i]. *)
Definition photo_number (uids : list openpgp_signedpacket) (i : nat) : Z := zlen (filter is_attribute (take i uids)).

(** The entry made for the user id or attribute at a position. *)
Definition entry_for (uids : list openpgp_signedpacket) (keyid2uid : option (Z -> outcome (option (list Z))))
    (iu : nat * openpgp_signedpacket) (e : tmpl_value) : Prop :=
  exists revoked, signedpacket_is_revoked iu.2 = Done revoked /\
  build_uid keyid2uid iu.2 (pkt_tag (sp_packet iu.2) =? OPENPGP_PACKET_UAT) revoked
    (if pkt_tag (sp_packet iu.2) =? OPENPGP_PACKET_UAT then photo_number uids iu.1 else 0) = Done e.

Lemma photo_number_next uids u rest pre : uids = pre ++ u :: rest ->
  photo_number uids (S (length pre)) = photo_number uids (length pre) + (if pkt_tag (sp_packet u) =? OPENPGP_PACKET_UAT then 1 else 0).
Proof.
  intros ->. unfold photo_number. rewrite take_app_length.
  replace (take (S (length pre)) (pre ++ u :: rest)) with (pre ++ [u]).
  2: { change (pre ++ u :: rest) with (pre ++ [u] ++ rest). rewrite app_assoc, take_app_length'; [done|]. rewrite length_app. cbn. lia. }
  rewrite filter_app, zlen_app, filter_cons.
  unfold is_attribute at 2. destruct (Z.eqb_spec (pkt_tag (sp_packet u)) OPENPGP_PACKET_UAT).
  - by rewrite decide_True.
  - by rewrite decide_False.
Qed.

Lemma photo_number_le uids i : 0 <= photo_number uids i <= zlen uids.
Proof.
  unfold photo_number. split; [apply zlen_nonneg|]. unfold zlen. pose proof (length_filter is_attribute (take i uids)).
  rewrite length_take in H. lia.
Qed.

Lemma build_uid_loop_spec keyid2uid uids skip verbose : zlen uids < 2 ^ 31 -> forall todo pre entries out,
  uids = pre ++ todo -> 
  build_uid_loop keyid2uid todo (length pre) skip (photo_number uids (length pre)) verbose (TMPL_LIST entries) = Done out ->
  exists more, out = TMPL_LIST (entries ++ more) /\
    Forall2 (entry_for uids keyid2uid) (filter (fun iu => shown skip verbose iu = true) (zip (seq (length pre) (length todo)) todo)) more.
Proof.
  intros Hn. induction todo as [|u todo IH]; intros pre entries out Hu; cbn [build_uid_loop].
  { intros [= <-]. exists []. by rewrite app_nil_r. }
  pose proof (photo_number_next uids u todo pre Hu) as Hnext.
  assert (Hpre : uids = (pre ++ [u]) ++ todo) by (by rewrite <- app_assoc).
  assert (Hlen : length (pre ++ [u]) = S (length pre)) by (rewrite length_app; cbn; lia).
  specialize (IH (pre ++ [u])). rewrite Hlen in IH. cbn [length seq zip_with]. rewrite filter_cons.
  assert (Hsh := eq_refl (shown skip verbose (length pre, u))). unfold shown in Hsh at 1.
  set (sh := shown skip verbose (length pre, u)) in *. clearbody sh. cbn [fst snd] in Hsh. set (tag := pkt_tag (sp_packet u)) in *.
  pose proof (photo_number_le uids (S (length pre))) as Hle.
  assert (Hidx : (if tag =? OPENPGP_PACKET_UAT then i32 (photo_number uids (length pre) + 1) else photo_number uids (length pre))
    = photo_number uids (S (length pre))).
  { rewrite Hnext in Hle |- *. destruct (tag =? OPENPGP_PACKET_UAT); [rewrite i32_small by lia; lia | lia]. }
  destruct (tag =? OPENPGP_PACKET_UID) eqn:E1, (tag =? OPENPGP_PACKET_UAT) eqn:E2; cbn [negb andb orb] in Hsh |- *.
  1-3: rewrite Hidx; case_bool_decide; cbn [negb andb] in Hsh; [subst sh; rewrite decide_False by done; by apply IH|].
  4: { subst sh. rewrite decide_False by done. rewrite Hnext, Z.add_0_r in IH. by apply IH. }
  all: destruct (signedpacket_is_revoked u) as [rev|] eqn:Er; cbn [mbind outcome_bind]; [|done].
  all: destruct verbose, rev; cbn [negb andb orb] in Hsh |- *; subst sh; try (rewrite decide_False by done; by apply IH).
  all: rewrite decide_True by done; match goal with |- context [build_uid ?k ?u ?a ?r ?i] => destruct (build_uid k u a r i) as [e|] eqn:Eb end;
       cbn [mbind outcome_bind tmpl_list_append]; [|done].
  all: intros H1; destruct (IH _ _ Hpre H1) as (more & -> & HF); exists (e :: more); (split; [by rewrite <- app_assoc|]);
       constructor; [|done]; eexists; (split; [exact Er|]); cbn [fst snd]; fold tag; rewrite E2; exact Eb.
Qed.

Lemma photo_number_lookup uids i u : uids !! i = Some u -> is_attribute u ->
  filter is_attribute uids !! Z.to_nat (photo_number uids i) = Some u.
Proof.
  intros Hi Ha. unfold photo_number, zlen. rewrite Nat2Z.id.
  assert (E : filter is_attribute uids = filter is_attribute (take i uids) ++ u :: filter is_attribute (drop (S i) uids)).
  { by rewrite <- (take_drop_middle uids i u Hi) at 1; rewrite filter_app, filter_cons_True. }
  rewrite E, lookup_app_r by lia. by rewrite Nat.sub_diag.
Qed.

Lemma build_uid_index k u revoked idx e : build_uid k u true revoked idx = Done e ->
  member (Some e) (str "uat_index") = Some (TMPL_INT idx).
Proof.
  unfold build_uid. cbn [mbind outcome_bind]. destruct (build_sigs_list k (sp_sigs u)) as [sigs|]; [|done].
  intros [= <-]. vm_compute. reflexivity.
Qed.

(** The list of user ids made for a template has one entry for each that is to
    be shown, in their order, and the number in the entry of a photo is the one
    under which [getphoto] finds that photo, whatever was skipped before it. *)
Theorem uid_list_photos keyid2uid key skip verbose out : zlen (pk_uids key) < 2 ^ 31 ->
  build_uid_list keyid2uid (pk_uids key) skip verbose = Done out ->
  exists entries, out = TMPL_LIST entries /\
    Forall2 (fun iu e => entry_for (pk_uids key) keyid2uid iu e /\
        (is_attribute iu.2 -> exists n, member (Some e) (str "uat_index") = Some (TMPL_INT n) /\
           getphoto key n = packet_photo (sp_packet iu.2)))
      (filter (fun iu => shown skip verbose iu = true) (zip (seq 0 (length (pk_uids key))) (pk_uids key))) entries.
Proof.
  intros Hn H. destruct (build_uid_loop_spec keyid2uid (pk_uids key) skip verbose Hn (pk_uids key) [] [] out eq_refl H)
    as (entries & -> & HF). exists entries. split; [done|]. cbn [length] in HF.
  apply Forall2_same_length_lookup_2; [by eapply Forall2_length|]. intros j [i u] e Hj He.
  pose proof (Forall2_lookup_lr _ _ _ _ _ _ HF Hj He) as Hent. split; [done|]. cbn [fst snd]. intros Ha.
  assert (Hi : pk_uids key !! i = Some u).
  { apply list_elem_of_lookup_2, list_elem_of_filter in Hj as [_ Hj]. apply list_elem_of_lookup in Hj as [n' Hj].
    apply lookup_zip_with_Some in Hj as (a & b & [= <- <-] & Ha' & Hb). apply lookup_seq in Ha' as [-> _]. done. }
  destruct Hent as (rev & Hr & He'). cbn [fst snd] in He'. unfold is_attribute in Ha. rewrite Ha in He'.
  change (OPENPGP_PACKET_UAT =? OPENPGP_PACKET_UAT) with true in He'. eexists. split; [by eapply build_uid_index|].
  unfold getphoto. rewrite photo_loop_spec by lia. pose proof (photo_number_le (pk_uids key) i).
  destruct (Z.ltb_spec (photo_number (pk_uids key) i) 0); [lia|]. by rewrite Z.sub_0_r, photo_number_lookup with (u := u).
Qed.
