(* ===== verification/KeyIndexSafe.v ===== *)
(** The listings of well-formed version 4 and 5 keys run to their end. *)

From Stdlib Require Import String.
From S2P Require Import Prelude CLib OpenPGP Streams KeyId Decode Keys Merge SksHash SigCheck Photo Aged AgedFacts.
From S2P Require Import Template TemplateFacts TemplateSem KeyIndex KeyIndexFacts.

Section Safe.
Context {HF : Hashes} {BC : BuildConfig}.
Context (keyid2uid : option (Z -> outcome (option (list Z)))).

(** The database answers every question for a user id. *)
Definition answers : Prop := match keyid2uid with Some f => forall id, runs (f id) | None => True end.

(** The escaped text has room in a [char buf[1024]]. *)
Definition fits (s : list Z) : Prop := zlen (escape s) <= 1022.

(** What an HTML listing puts into its buffers fits there: the user ids of the
    keys and those the database answers with. *)
Definition html_signed (u : openpgp_signedpacket) : Prop :=
  pkt_tag (sp_packet u) = OPENPGP_PACKET_UID -> fits (pkt_data (sp_packet u)).

Definition html_uids (html : bool) (uids : list openpgp_signedpacket) : Prop := html = true -> Forall html_signed uids.

Definition answers_fit (html : bool) : Prop := html = true ->
  match keyid2uid with Some f => forall id s, f id = Done (Some s) -> fits s | None => True end.

(** A key packet of version 4 or 5 that is long enough to be described. *)
Definition listable_packet (p : openpgp_packet) : Prop :=
  wf_packet p /\ 12 <= pkt_length p < 2 ^ 31 /\
  ((pkt_data p).[0] = Done 4 \/ (pkt_data p).[0] = Done 5 /\ have_nettle = true).

Definition listable_sig (s : openpgp_packet) : Prop := sig_decodable s /\ sig_version_known s /\ pkt_length s < 2 ^ 31.

Definition listable_signed (u : openpgp_signedpacket) : Prop :=
  wf_packet (sp_packet u) /\ pkt_length (sp_packet u) < 2 ^ 31 /\ Forall listable_sig (sp_sigs u) /\
  (pkt_tag (sp_packet u) = OPENPGP_PACKET_PUBLICSUBKEY -> listable_packet (sp_packet u)).

Record listable (k : openpgp_publickey) : Prop := {
  ls_packet : listable_packet (pk_publickey k);
  ls_wf : wf_key k;
  ls_sigs : Forall listable_sig (pk_sigs k);
  ls_uids : Forall listable_signed (pk_uids k);
  ls_subkeys : Forall listable_signed (pk_subkeys k)
}.

(** * Packets *)

Lemma runs_rd p i : wf_packet p -> 0 <= i < pkt_length p -> runs (pkt_data p).[i].
Proof. intros Hp Hi. destruct (wf_packet_rd p i Hp Hi) as (b & -> & _). apply runs_done. Qed.

Lemma runs_text p n : wf_packet p -> 0 <= n <= pkt_length p -> runs (memcpy_from (pkt_data p) 0 n).
Proof. intros [Hl _] Hn. rewrite memcpy_from_ok by lia. apply runs_done. Qed.

Lemma wf_length p : wf_packet p -> 0 <= pkt_length p.
Proof. intros [-> _]. apply zlen_nonneg. Qed.

Lemma runs_created p : listable_packet p -> runs (created_time p) /\ runs (created_int p).
Proof.
  intros ([Hl Hb] & Hlen & _). unfold created_int, created_time.
  destruct (rd_be_4 (pkt_data p) 1 Hb) as (x & E & _); [lia..|]. rewrite E. split; apply runs_done.
Qed.

Lemma runs_keylength p : listable_packet p -> runs (keylength p).
Proof.
  intros (Hp & Hlen & Hv). pose proof Hp as [Hl _]. unfold keylength.
  assert (exists v, (pkt_data p).[0] = Done v /\ (v = 4 \/ v = 5)) as (v & -> & Hv')
    by (destruct Hv as [-> | [-> _]]; eauto). cbn [mbind outcome_bind].
  replace ((v =? 2) || (v =? 3)) with false by (by destruct Hv' as [-> | ->]).
  replace ((v =? 4) || (v =? 5)) with true by (by destruct Hv' as [-> | ->]).
  set (o := if v =? 4 then 6 else 10). assert (Ho : o = 6 \/ o = 10) by (unfold o; destruct (v =? 4); auto).
  apply runs_bind; [apply runs_rd; [done | lia]|]. intros a _. destruct (_ || _).
  - apply runs_bind; [|intros; apply runs_done]. rewrite u64_small by lia.
    destruct (onak_parse_oid_safe (drop (Z.to_nat o) (pkt_data p)) (pkt_length p - o)) as (oid & -> & _); [|apply runs_done].
    unfold zlen in *. rewrite length_drop. lia.
  - apply runs_bind; [apply runs_rd; [done | lia]|]. intros h _. apply runs_bind; [apply runs_rd; [done | lia]|]. intros; apply runs_done.
Qed.

Lemma runs_key_type p t : listable_packet p -> runs (key_type p t).
Proof.
  intros (Hp & Hlen & Hv). unfold key_type. apply runs_bind; [apply runs_rd; [done | lia]|]. intros v _.
  destruct (_ || _); [apply runs_rd; [done | lia]|]. destruct (_ || _); [apply runs_rd; [done | lia] | apply runs_done].
Qed.

Lemma listable_fp p : listable_packet p -> exists fp, get_fingerprint p = Done (ONAK_E_OK, fp) /\
  runs (memcpy_from (fp_bytes fp) 0 (fp_length fp)) /\ exists id, get_packetid p = Done (ONAK_E_OK, Some id).
Proof.
  intros (Hp & Hlen & Hv).
  assert (H : exists fp, get_fingerprint p = Done (ONAK_E_OK, fp) /\ fp_length fp = zlen (fp_bytes fp) /\ Forall byte (fp_bytes fp)).
  { destruct Hv as [E | [E Hn]]; [rewrite get_fingerprint_v4 by done | rewrite get_fingerprint_v5 by done];
      eexists; (split; [done|]); cbn; rewrite hash_size; (split; [done | apply hash_bytes]). }
  destruct H as (fp & E & Hl & Hb). exists fp. split; [done|]. split.
  - rewrite memcpy_from_ok by (rewrite ?Hl; auto with onak lia). apply runs_done.
  - unfold get_packetid. destruct (fingerprint2keyid_total fp Hb) as (id & Ei & _); [lia|].
    destruct Hv as [-> | [-> _]]; cbn [mbind outcome_bind]; cbn [Z.eqb Pos.eqb orb]; rewrite E; cbn [mbind outcome_bind]; rewrite Ei; eauto.
Qed.

Lemma runs_skshash k : listable k -> exists h, get_skshash k = Done (ONAK_E_OK, h).
Proof.
  intros H. destruct (get_skshash_small k (ls_wf k H)) as (ps & _ & _ & ->); [|eauto].
  assert (Hsig : forall l, Forall listable_sig l -> Forall small_packet l).
  { intros l Hl. eapply Forall_impl; [exact Hl|]. by intros s ([? _] & _ & ?). }
  assert (Hsp : forall l, Forall listable_signed l -> Forall small_packet (concat (map signed_packets l))).
  { intros l Hl. apply Forall_concat, Forall_map. eapply Forall_impl; [exact Hl|].
    intros sp (? & ? & ? & _). constructor; [done | by apply Hsig]. }
  destruct H as [(? & ? & _) _ ? ? ?]. unfold small_key, key_packets. constructor; [split; [done | lia]|].
  rewrite !Forall_app. auto.
Qed.

Lemma runs_revoked u : listable_signed u -> runs (signedpacket_is_revoked u).
Proof.
  intros (_ & _ & Hs & _). unfold signedpacket_is_revoked.
  induction Hs as [|s l ([Hw _] & _) _ IH]; cbn [any_cert_revocation]; [apply runs_done|].
  destruct (Z.ltb_spec (pkt_length s) 2); [done|]. apply runs_bind; [apply runs_rd; [done | lia]|]. intros v _.
  destruct (_ || _); [|done]. apply runs_bind; [apply runs_rd; [done | lia]|]. intros t _. destruct (_ =? _); [apply runs_done | done].
Qed.

(** * Signatures *)

Lemma runs_sig_keyid s : listable_sig s -> runs (sig_keyid s).
Proof.
  intros (Hd & Hv & Hl). destruct (sig_info_decodes s Hd Hv ltac:(lia)) as (kid & created & _ & _ & H & _).
  unfold sig_keyid. destruct (H (Some 0) None) as [rc ->]. cbn. apply runs_done.
Qed.

Lemma runs_sig_created s : listable_sig s -> exists rc t, sig_info s None (Some (Some 0)) = Done (rc, None, Some (Some t)).
Proof.
  intros (Hd & Hv & Hl). destruct (sig_info_decodes s Hd Hv ltac:(lia)) as (kid & created & _ & _ & _ & H).
  destruct (H (Some (Some 0))) as [rc ->]. destruct created; cbn; eauto.
Qed.

Lemma runs_cert_rev s : listable_sig s -> runs (is_cert_rev s).
Proof.
  intros ((Hw & v & Hv & _ & H45) & _ & _). unfold is_cert_rev. rewrite Hv. cbn [mbind outcome_bind].
  destruct (Z.eqb_spec v 4) as [->|]; [|apply runs_done]. apply runs_bind; [apply runs_rd; [done | specialize (H45 (or_introl eq_refl)); lia]|].
  intros; apply runs_done.
Qed.

Context (Hdb : answers).

Lemma runs_signer id : runs (signer_uid keyid2uid id).
Proof. unfold signer_uid, answers in *. destruct keyid2uid; [apply Hdb | apply runs_done]. Qed.

Lemma runs_build_sig s : listable_sig s -> runs (build_sig keyid2uid s).
Proof.
  intros H. unfold build_sig. apply runs_bind; [by apply runs_sig_keyid|]. intros id _.
  apply runs_bind; [by apply runs_cert_rev|]. intros rev _. apply runs_bind; [apply runs_signer|]. intros uid _.
  destruct (runs_sig_created s H) as (rc & t & ->). cbn. apply runs_done.
Qed.

Lemma runs_build_sigs sigs : Forall listable_sig sigs -> runs (build_sigs_list keyid2uid sigs).
Proof.
  unfold build_sigs_list. generalize (TMPL_LIST []). induction sigs as [|s sigs IH]; intros out H; cbn [build_sigs_loop]; [apply runs_done|].
  apply Forall_cons in H as [Hs H]. apply runs_bind; [by apply runs_build_sig|]. intros; by apply IH.
Qed.

Lemma read_written s rest : runs (read_cells (map Some s ++ Some 0 :: rest)).
Proof. induction s as [|c s IH]; cbn; [apply runs_done|]. destruct (c =? 0); [apply runs_done|]. apply runs_bind; [done|]. intros; apply runs_done. Qed.

Lemma escape_runs s buf : fits s -> zlen buf = 1024 ->
  exists dst text, html_escape s (zlen s) buf 1024 = Done dst /\ read_cells dst = Done text /\ zlen dst = 1024.
Proof.
  unfold fits. intros Hf Hb. destruct (html_escape_fits s buf) as (rest & E & Hz); [lia | lia |]. rewrite Hb in E, Hz.
  destruct (read_written (escape s) rest) as [text Et]. eauto.
Qed.

Lemma runs_list_sigs html sigs : answers_fit html -> Forall listable_sig sigs -> forall buf, zlen buf = 1024 ->
  runs (list_sigs keyid2uid sigs buf html).
Proof.
  intros Hfit. induction 1 as [|s sigs Hs _ IH]; intros buf Hb; cbn [list_sigs]; [apply runs_done|].
  apply runs_bind; [by apply runs_sig_keyid|]. intros id _. destruct (runs_signer id) as [uid Eu]. rewrite Eu. cbn [mbind outcome_bind].
  apply runs_bind; [by apply runs_cert_rev|]. intros rev _.
  assert (Hrest : forall line buf, zlen buf = 1024 -> runs (rest ← list_sigs keyid2uid sigs buf html; Done (line ++ [10] ++ rest)))
    by (intros; apply runs_bind; [by apply IH | intros; apply runs_done]).
  destruct html, uid as [uid|]; cbn [mbind outcome_bind]; try by apply Hrest.
  destruct (escape_runs uid buf) as (dst & text & -> & E & Hd); [|done|cbn [mbind outcome_bind]; rewrite E; by apply Hrest].
  specialize (Hfit eq_refl). unfold signer_uid in Eu. destruct keyid2uid; [by eapply Hfit | done].
Qed.

(** * Lines *)

Lemma runs_snprintf n p : wf_packet p -> pkt_length p < 2 ^ 31 ->
  exists s, snprintf_s n (i32 (pkt_length p)) (pkt_data p) = Done s /\ (length s <= Z.to_nat (n - 1))%nat.
Proof.
  intros Hw Hl. pose proof (wf_length p Hw). destruct Hw as [Hz _]. unfold snprintf_s. rewrite i32_small by lia.
  destruct (Z.leb_spec 0 (pkt_length p)), (Z.leb_spec (pkt_length p) (zlen (pkt_data p))); try lia. cbn [andb].
  eexists. split; [done|]. rewrite length_take. lia.
Qed.

Lemma write_cells_total s : forall dst o, 0 <= o -> o + zlen s <= zlen dst ->
  exists dst', write_cells dst o s = Done dst' /\ zlen dst' = zlen dst.
Proof.
  induction s as [|c s IH]; intros dst o Ho Hs; cbn [write_cells]; [eauto|]. rewrite zlen_cons in Hs. pose proof (zlen_nonneg s).
  destruct (Z.leb_spec 0 o), (Z.ltb_spec o (zlen dst)); try lia. cbn [andb].
  assert (E : zlen (<[Z.to_nat o:=Some c]> dst) = zlen dst) by (unfold zlen; by rewrite length_insert).
  destruct (IH (<[Z.to_nat o:=Some c]> dst) (o + 1)) as (dst' & -> & Hz); [lia | rewrite E; lia |]. rewrite E in Hz. eauto.
Qed.

Lemma runs_uid_line keyid u buf imgindx verbose html : listable_signed u -> (html = true -> html_signed u) -> zlen buf = 1024 ->
  exists line buf', uid_line keyid u buf imgindx verbose html = Done (line, buf') /\ zlen buf' = 1024.
Proof.
  intros Hu Hh Hb. pose proof (runs_revoked u Hu) as [r Hr]. destruct Hu as (Hw & Hl & _). unfold uid_line. destruct (Z.eqb_spec (pkt_tag (sp_packet u)) OPENPGP_PACKET_UID) as [Et|].
  - destruct (runs_snprintf 1023 _ Hw Hl) as (s & -> & Hs). cbn [mbind outcome_bind].
    destruct (write_cells_total (s ++ [0]) buf 0) as (buf' & -> & Hb');
      [lia | rewrite zlen_app; change (zlen [0]) with 1; unfold zlen in *; lia |].
    cbn [mbind outcome_bind]. rewrite Hb in Hb'. destruct html.
    + rewrite (proj1 Hw). destruct (escape_runs (pkt_data (sp_packet u)) buf' (Hh eq_refl Et) Hb') as (dst & text & -> & E & Hd).
      cbn [mbind outcome_bind]. rewrite E. cbn. eauto.
    + unfold packet_text. destruct (runs_snprintf (2 ^ 31) _ Hw Hl) as (t & -> & _). cbn. eauto.
  - destruct (_ =? _); [|eauto]. destruct (negb verbose); rewrite ?Hr; cbn; [destruct r|]; eauto.
Qed.

Lemma runs_sigs_if (verbose : bool) u html : answers_fit html -> listable_signed u ->
  runs (if verbose then list_sigs keyid2uid (sp_sigs u) fresh_buf html else Done []).
Proof. intros Hfit (_ & _ & Hs & _). destruct verbose; [by apply runs_list_sigs | apply runs_done]. Qed.

Lemma html_uids_cons html u uids : html_uids html (u :: uids) -> (html = true -> html_signed u) /\ html_uids html uids.
Proof. intros H. split; intros E; specialize (H E); by apply Forall_cons in H as [? ?]. Qed.

Lemma runs_list_uids keyid uids verbose html : answers_fit html -> Forall listable_signed uids -> html_uids html uids ->
  forall buf imgindx, zlen buf = 1024 -> runs (list_uids keyid2uid keyid uids buf imgindx verbose html).
Proof.
  intros Hfit. induction 1 as [|u uids Hu _ IH]; intros Hh buf imgindx Hb; cbn [list_uids]; [apply runs_done|].
  apply html_uids_cons in Hh as [Hh Hhs]. destruct (runs_uid_line keyid u buf imgindx verbose html Hu Hh Hb) as (line & buf' & -> & Hb'). cbn [mbind outcome_bind].
  apply runs_bind; [by apply runs_sigs_if|]. intros sigs _. apply runs_bind; [by apply IH|]. intros; apply runs_done.
Qed.

Lemma runs_list_subkeys subs verbose html : answers_fit html -> Forall listable_signed subs -> forall type keyid,
  runs (list_subkeys keyid2uid subs type keyid verbose html).
Proof.
  intros Hfit. induction 1 as [|s subs Hs _ IH]; intros type keyid; cbn [list_subkeys]; [apply runs_done|].
  apply runs_bind.
  - destruct (Z.eqb_spec (pkt_tag (sp_packet s)) OPENPGP_PACKET_PUBLICSUBKEY) as [E|]; [|apply runs_done].
    destruct Hs as (_ & _ & _ & Hp). specialize (Hp E). destruct (runs_created _ Hp) as [_ Hc].
    apply runs_bind; [done|]. intros c _. apply runs_bind; [by apply runs_key_type|]. intros t _.
    apply runs_bind; [by apply runs_keylength|]. intros n _. destruct (listable_fp _ Hp) as (_ & _ & _ & id & ->). apply runs_done.
  - intros [[line t] k] _. apply runs_bind; [by apply runs_sigs_if|]. intros sigs _. apply runs_bind; [by apply IH|]. intros; apply runs_done.
Qed.

Lemma runs_display_fingerprint k : listable k -> runs (display_fingerprint k).
Proof.
  intros H. destruct (listable_fp _ (ls_packet k H)) as (fp & E & Hm & _). unfold display_fingerprint. rewrite E.
  cbn [mbind outcome_bind]. apply runs_bind; [done|]. intros; apply runs_done.
Qed.

Lemma runs_display_skshash k html : listable k -> runs (display_skshash k html).
Proof. intros H. destruct (runs_skshash k H) as [h E]. unfold display_skshash. rewrite E. apply runs_done. Qed.

Lemma runs_if {A} (b : bool) (m : outcome A) a : runs m -> runs (if b then m else Done a).
Proof. by destruct b; intros; [|apply runs_done]. Qed.

Lemma runs_first_uid k keyid buf verbose fingerprint skshash html : answers_fit html -> listable k -> html_uids html (pk_uids k) ->
  zlen buf = 1024 ->
  exists lines rest buf', first_uid_lines keyid2uid k keyid buf verbose fingerprint skshash html = Done (lines, rest, buf') /\
    Forall listable_signed rest /\ html_uids html rest /\ zlen buf' = 1024.
Proof.
  intros Hfit H Hh Hb. pose proof (ls_uids k H) as Hu. unfold first_uid_lines.
  destruct (runs_if fingerprint (display_fingerprint k) []) as [fp Hfp]; [by apply runs_display_fingerprint|].
  destruct (runs_if skshash (display_skshash k html) []) as [sks Hsks]; [by apply runs_display_skshash|]. rewrite Hfp.
  destruct (pk_uids k) as [|u next] eqn:Ek; [cbn; eauto 7|].
  destruct (Z.eqb_spec (pkt_tag (sp_packet u)) OPENPGP_PACKET_UID) as [Et|]; [|cbn; rewrite <- Ek in *; eauto 8].
  apply Forall_cons in Hu as [Hu Hn]. apply html_uids_cons in Hh as [Hh Hhn].
  destruct (runs_sigs_if verbose u html Hfit Hu) as [sigs Hs]. destruct Hu as (Hw & Hl & _). destruct html.
  - rewrite (proj1 Hw). destruct (escape_runs (pkt_data (sp_packet u)) buf (Hh eq_refl Et) Hb) as (dst & text & -> & E & Hd).
    cbn [mbind outcome_bind]. rewrite E. cbn [mbind outcome_bind]. rewrite Hsks. cbn [mbind outcome_bind]. rewrite Hs. cbn. eauto 8.
  - unfold packet_text. destruct (runs_snprintf (2 ^ 31) _ Hw Hl) as (t & -> & _). cbn [mbind outcome_bind].
    rewrite Hsks. cbn [mbind outcome_bind]. rewrite Hs. cbn. eauto 8.
Qed.

(** * The printed and the machine readable listing *)

Lemma get_keyid_of k : get_keyid k = get_packetid (pk_publickey k).
Proof. done. Qed.

Lemma runs_legacy_loop keys verbose fingerprint skshash html : answers_fit html -> Forall listable keys ->
  Forall (fun k => html_uids html (pk_uids k)) keys -> forall type keyid buf, zlen buf = 1024 ->
  runs (legacy_loop keyid2uid keys type keyid buf verbose fingerprint skshash html).
Proof.
  intros Hfit. induction 1 as [|k keys Hk _ IH]; intros Hh type keyid buf Hb; cbn [legacy_loop]; [apply runs_done|].
  pose proof (ls_packet k Hk) as Hp. destruct (runs_created _ Hp) as [_ Hc].
  apply runs_bind; [done|]. intros c _. apply runs_bind; [by apply runs_key_type|]. intros t _.
  apply runs_bind; [by apply runs_keylength|]. intros n _. rewrite get_keyid_of.
  destruct (listable_fp _ Hp) as (_ & _ & _ & id & ->). cbn [mbind outcome_bind read_var].
  apply Forall_cons in Hh as [Hh Hhs].
  destruct (runs_first_uid k id buf verbose fingerprint skshash html Hfit Hk Hh Hb) as (lines & rest & buf' & -> & Hr & Hhr & Hb').
  cbn [mbind outcome_bind]. apply runs_bind; [by apply runs_list_uids|]. intros uids _.
  apply runs_bind; [apply runs_if, runs_list_subkeys; [done | apply Hk]|]. intros subs _. apply runs_bind; [by apply IH|]. intros; apply runs_done.
Qed.

Lemma runs_mr_uids uids : Forall listable_signed uids -> runs (mr_uids uids).
Proof.
  induction 1 as [|u uids Hu _ IH]; cbn [mr_uids]; [apply runs_done|]. destruct (negb _); [done|].
  apply runs_bind; [by apply runs_revoked|]. intros [] _; [done|]. destruct Hu as (Hw & Hl & _). pose proof (wf_length _ Hw).
  rewrite i32_small, Z.max_r by lia. apply runs_bind; [apply runs_text; [done | lia]|]. intros t _.
  apply runs_bind; [done|]. intros; apply runs_done.
Qed.

Lemma runs_mr_loop keys : Forall listable keys -> forall type keyid, runs (mr_loop keys type keyid).
Proof.
  induction 1 as [|k keys Hk _ IH]; intros type keyid; cbn [mr_loop]; [apply runs_done|].
  pose proof (ls_packet k Hk) as Hp. destruct (runs_created _ Hp) as [_ Hc]. apply runs_bind; [done|]. intros c _.
  destruct (listable_fp _ Hp) as (fp & E & Hm & _). pose proof Hp as (Hw & Hlen & Hv).
  assert (Hv' : exists v, (pkt_data (pk_publickey k)).[0] = Done v /\ ((v =? 2) || (v =? 3)) = false /\ ((v =? 4) || (v =? 5)) = true)
    by (destruct Hv as [-> | [-> _]]; eauto).
  destruct Hv' as (v & -> & E1 & E2). cbn [mbind outcome_bind]. rewrite E1, E2, E. cbn [mbind outcome_bind].
  apply runs_bind.
  { apply runs_bind; [done|]. intros bs _. apply runs_bind; [apply runs_rd; [done | lia]|]. intros; apply runs_done. }
  intros [[id t] k'] _. apply runs_bind; [by apply runs_keylength|]. intros n _.
  apply runs_bind; [apply runs_mr_uids, Hk|]. intros us _. apply runs_bind; [apply IH|]. intros; apply runs_done.
Qed.

(** * The values for a template *)

Lemma runs_build_uid u is_uat revoked idx : listable_signed u -> runs (build_uid keyid2uid u is_uat revoked idx).
Proof.
  intros (Hw & Hl & Hs & _). pose proof (wf_length _ Hw). unfold build_uid. apply runs_bind.
  - destruct is_uat; [apply runs_done|]. unfold set_octets, tmpl_string_n.
    destruct (runs_text (sp_packet u) (pkt_length (sp_packet u)) Hw) as [t ->]; [lia|]. cbn. apply runs_done.
  - intros e _. apply runs_bind; [by apply runs_build_sigs|]. intros; apply runs_done.
Qed.

Lemma runs_build_uids uids skip verbose : Forall listable_signed uids -> forall i imgindx out,
  runs (build_uid_loop keyid2uid uids i skip imgindx verbose out).
Proof.
  induction 1 as [|u uids Hu _ IH]; intros i imgindx out; cbn [build_uid_loop]; [apply runs_done|].
  destruct (_ && _); [apply IH|]. destruct (bool_decide _); [apply IH|].
  apply runs_bind; [by apply runs_revoked|]. intros r _. destruct (_ && _); [apply IH|].
  apply runs_bind; [by apply runs_build_uid|]. intros; apply IH.
Qed.

Lemma runs_build_subkeys subs verbose : Forall listable_signed subs -> forall keyid out,
  runs (build_subkey_loop keyid2uid subs keyid verbose out).
Proof.
  induction 1 as [|s subs Hs _ IH]; intros keyid out; cbn [build_subkey_loop]; [apply runs_done|].
  destruct (Z.eqb_spec (pkt_tag (sp_packet s)) OPENPGP_PACKET_PUBLICSUBKEY) as [E|]; cbn [negb]; [|apply IH].
  destruct Hs as (_ & _ & Hsigs & Hp). specialize (Hp E). destruct (runs_created _ Hp) as [Hc _].
  apply runs_bind; [done|]. intros c _. apply runs_bind; [by apply runs_key_type|]. intros t _.
  apply runs_bind; [by apply runs_keylength|]. intros n _. destruct (listable_fp _ Hp) as (_ & _ & _ & id & ->).
  cbn [mbind outcome_bind]. apply runs_bind; [|intros; apply IH]. destruct verbose; [|apply runs_done].
  apply runs_bind; [by apply runs_build_sigs|]. intros; apply runs_done.
Qed.

Lemma runs_revocation_time sigs : Forall listable_sig sigs -> runs (revocation_time sigs).
Proof.
  induction 1 as [|s sigs Hs _ IH]; cbn [revocation_time]; [apply runs_done|]. destruct (Z.ltb_spec (pkt_length s) 2); [done|].
  pose proof (proj1 (proj1 Hs)) as Hw. apply runs_bind; [apply runs_rd; [done | lia]|]. intros v _.
  apply runs_bind.
  { destruct (v =? 3), (Z.leb_spec 3 (pkt_length s)); try apply runs_done. apply runs_bind; [apply runs_rd; [done | lia]|].
    intros; apply runs_done. }
  intros third _. apply runs_bind.
  { destruct third; [apply runs_done|]. destruct (_ || _); [|apply runs_done].
    apply runs_bind; [apply runs_rd; [done | lia]|]. intros; apply runs_done. }
  intros [] _; [|done]. destruct (runs_sig_created s Hs) as (rc & t & ->). apply runs_done.
Qed.

Lemma runs_primary_uid uids : Forall listable_signed uids -> forall i, exists r, primary_uid uids i = Done r /\
  match r with Some (_, u) => listable_signed u | None => True end.
Proof.
  induction 1 as [|u uids Hu _ IH]; intros i; cbn [primary_uid]; [by eexists|]. destruct (_ =? _); [|apply IH].
  destruct (runs_revoked u Hu) as [[] ->]; cbn; [apply IH | by eexists].
Qed.

Lemma runs_set_primary m r : match r with Some (_, u) => listable_signed u | None => True end -> runs (set_primary keyid2uid m r).
Proof.
  destruct r as [[i u]|]; [|intros; apply runs_done]. intros (Hw & Hl & Hs & _). pose proof (wf_length _ Hw).
  unfold set_primary, set_octets, tmpl_string_n.
  destruct (runs_text (sp_packet u) (pkt_length (sp_packet u)) Hw) as [t ->]; [lia|]. cbn [mbind outcome_bind].
  apply runs_bind; [by apply runs_build_sigs|]. intros; apply runs_done.
Qed.

Lemma runs_modern p bits : listable_packet p -> runs (pkalgo_modern_str p bits).
Proof.
  intros (Hw & Hlen & _). pose proof Hw as [Hl _]. unfold pkalgo_modern_str. destruct (Z.ltb_spec (pkt_length p) 6); [lia|].
  apply runs_bind; [apply runs_rd; [done | lia]|]. intros v _.
  destruct (Z.ltb_spec (pkt_length p) 8); [lia|]. rewrite andb_false_r. destruct (negb _); [apply runs_done|].
  apply runs_bind; [apply runs_rd; [done | destruct (_ || _); lia]|]. intros a _.
  destruct (_ || _ || _); [apply runs_done|]. destruct (_ =? _); [apply runs_done|]. destruct (_ || _); [apply runs_done|].
  destruct (negb _); [apply runs_done|]. set (o := if v =? 4 then 6 else 10).
  assert (Ho : o = 6 \/ o = 10) by (unfold o; destruct (v =? 4); auto). destruct (_ <=? _); [apply runs_done|].
  destruct (onak_parse_oid_safe (drop (Z.to_nat o) (pkt_data p)) (pkt_length p - o)) as (oid & -> & _); [|apply runs_done].
  unfold zlen in *. rewrite length_drop. lia.
Qed.

Lemma runs_build_one_key k now verbose fingerprint skshash : listable k ->
  runs (build_one_key keyid2uid k now verbose fingerprint skshash).
Proof.
  intros H. pose proof (ls_packet k H) as Hp. destruct (runs_created _ Hp) as [Hc _]. unfold build_one_key.
  apply runs_bind; [done|]. intros c _. apply runs_bind; [by apply runs_key_type|]. intros t _.
  apply runs_bind; [by apply runs_keylength|]. intros n _. rewrite get_keyid_of.
  destruct (listable_fp _ Hp) as (fp & E & Hm & id & ->). cbn [mbind outcome_bind].
  apply runs_bind; [by apply runs_modern|]. intros modern _. destruct (expiration_total k (ls_wf k H)) as [_ [x Ex]].
  unfold set_expiry. rewrite Ex. cbn [mbind outcome_bind]. apply runs_bind.
  { unfold set_revocation. destruct (pk_revoked k); [|apply runs_done].
    apply runs_bind; [apply runs_revocation_time, H|]. intros; apply runs_done. }
  intros m1 _. destruct (runs_primary_uid _ (ls_uids k H) 0) as (r & -> & Hr). cbn [mbind outcome_bind].
  apply runs_bind; [by apply runs_set_primary|]. intros m2 _. apply runs_bind; [apply runs_build_uids, H|]. intros others _.
  apply runs_bind; [apply runs_if, runs_bind; [apply runs_build_subkeys, H | intros; apply runs_done]|]. intros m3 _.
  rewrite E. cbn [mbind outcome_bind status_ok]. unfold set_fingerprints, format_fp_string. rewrite E. destruct Hm as [bs Em].
  cbn [mbind outcome_bind]. rewrite Em. destruct (runs_skshash k H) as [h Eh]. rewrite Eh.
  destruct fingerprint, skshash; cbn; rewrite ?Em; apply runs_done.
Qed.

Lemma runs_build_keys keys now verbose fingerprint skshash : Forall listable keys -> forall out,
  runs (build_keys_loop keyid2uid keys now verbose fingerprint skshash out).
Proof.
  induction 1 as [|k keys Hk _ IH]; intros out; cbn [build_keys_loop]; [apply runs_done|].
  apply runs_bind; [by apply runs_build_one_key|]. intros; apply IH.
Qed.
End Safe.

(** C33: For keys that parsed, with packets of version 4 or 5 and signatures that
    can be decoded, each listing is made to its end, whatever the options: the
    machine readable index, the listing in text, and the HTML page, from any
    template or without one, if the escaped user ids have room in the buffers
    of 1024 octets.  Nothing outside a packet or a buffer is read or written. *)
Theorem listing_safe {HF : Hashes} {BC : BuildConfig} keyid2uid source keys now verbose fingerprint skshash html :
  answers keyid2uid -> Forall listable keys ->
  answers_fit keyid2uid html -> Forall (fun k => html_uids html (pk_uids k)) keys ->
  runs (mrkey_index keys) /\
  runs (build_key_index_data keyid2uid keys now verbose fingerprint skshash) /\
  runs (key_index keyid2uid source keys now verbose fingerprint skshash html).
Proof.
  intros Hdb Hk Hfit Hh.
  assert (Hd : runs (build_key_index_data keyid2uid keys now verbose fingerprint skshash))
    by (unfold build_key_index_data; apply runs_bind; [by apply runs_build_keys|]; intros; apply runs_done).
  assert (Hl : runs (key_index_legacy keyid2uid keys verbose fingerprint skshash html))
    by (unfold key_index_legacy; apply runs_bind; [by apply runs_legacy_loop|]; intros; apply runs_done).
  split_and!; [by apply runs_mr_loop | done |]. unfold key_index. destruct (negb html); [done|]. destruct source as [source|]; [|done].
  apply runs_bind; [done|]. intros root _. apply runs_bind.
  - apply (render_range_total (fun ctx c => (c :: ctx, c)) source); [lia | lia | unfold zlen; lia].
  - intros [out rc] _. destruct (rc =? 0); [apply runs_done|]. apply runs_bind; [done|]. intros; apply runs_done.
Qed.
