(* ===== verification/KeyIndexExample.v ===== *)
(** Reading the machine readable index back, the page a template makes of keys,
    and examples of the listings. *)

From Stdlib Require Import String.
From S2P Require Import Prelude CLib OpenPGP Streams KeyId Decode Keys SksHash SigCheck Photo Aged AgedFacts.
From S2P Require Import Template TemplateSem TemplateExample KeyIndex KeyIndexFacts KeyIndexSafe.

(** * Reading the machine readable index *)

(** What a client makes of the text of a user id. *)
Fixpoint mr_decode (s : list Z) : option (list Z) :=
  match s with
  | [] => Some []
  | c :: s =>
      if negb (c =? 37) then cons c <$> mr_decode s
      else match s with
           | [] => None
           | h :: s => if h =? 37 then cons 37 <$> mr_decode s
                       else match s with
                            | [] => None
                            | l :: s => cons (hexdigit h * 16 + hexdigit l) <$> mr_decode s
                            end
           end
  end.

(** The lines of a text that ends with a newline. *)
Fixpoint lines (s : list Z) : list (list Z) :=
  match s with
  | [] => []
  | c :: s => if c =? 10 then [] :: lines s
              else match lines s with [] => [[c]] | l :: ls => (c :: l) :: ls end
  end.

Lemma lines_app l s : 10 ∉ l -> lines (l ++ [10] ++ s) = l :: lines s.
Proof.
  induction l as [|c l IH]; intros H; [done|]. apply not_elem_of_cons in H as [Hc H]. cbn [app lines].
  destruct (Z.eqb_spec c 10); [congruence|]. cbn [app] in IH. by rewrite IH.
Qed.

Lemma mr_char_ok c : byte c ->
  (mr_char c = [c] /\ c <> 37 /\ c <> 58 /\ c < 128) \/ (mr_char c = [37; 37] /\ c = 37) \/
  exists h l, mr_char c = [37; h; l] /\ h <> 37 /\ hexdigit h * 16 + hexdigit l = c /\
    h <> 10 /\ l <> 10 /\ h <> 58 /\ l <> 58 /\ h < 128 /\ l < 128.
Proof.
  intros Hc. unfold byte in Hc. unfold mr_char. destruct (Z.eqb_spec c 37) as [->|]; [auto|].
  destruct (Z.eqb_spec c 58), (Z.ltb_spec 127 c); cbn [orb]; try (left; split_and!; (done || lia)).
  all: right; right; cbn [hexn app]; set (h := c / 16 mod 16); set (l := c mod 16);
       assert (Hh : 0 <= h < 16) by (apply Z.mod_pos_bound; lia); assert (Hl : 0 <= l < 16) by (apply Z.mod_pos_bound; lia);
       assert (Hhl : h * 16 + l = c) by (unfold h, l; Z.div_mod_to_equations; lia);
       exists (hex_digit true h), (hex_digit true l); rewrite !hexdigit_hex_digit by lia;
       unfold hex_digit; destruct (Z.ltb_spec h 10), (Z.ltb_spec l 10); split_and!; (done || lia).
Qed.

Lemma mr_decode_chars s : Forall byte s -> mr_decode (concat (map mr_char s)) = Some s.
Proof.
  induction 1 as [|c s Hc _ IH]; [done|]. cbn [map concat].
  destruct (mr_char_ok c Hc) as [(-> & H1 & _) | [(-> & ->) | (h & l & -> & H1 & H2 & _)]]; cbn [app mr_decode].
  - destruct (Z.eqb_spec c 37); [done|]. cbn [negb]. by rewrite IH.
  - cbn. by rewrite IH.
  - cbn [Z.eqb Pos.eqb negb]. destruct (Z.eqb_spec h 37); [done|]. by rewrite IH, H2.
Qed.

Lemma mr_chars_plain s : Forall byte s -> 10 ∉ s -> Forall (fun c => c <> 10 /\ c <> 58 /\ c < 128) (concat (map mr_char s)).
Proof.
  induction 1 as [|c s Hc _ IH]; intros Hn; [constructor|]. apply not_elem_of_cons in Hn as [Hn Hs]. cbn [map concat].
  apply Forall_app. split; [|auto].
  destruct (mr_char_ok c Hc) as [(-> & H1 & H2 & H3) | [(-> & ->) | (h & l & -> & _ & _ & H)]]; repeat constructor; try done; tauto.
Qed.

Section Rows.
Context {HF : Hashes} {BC : BuildConfig}.

(** The user ids that are listed. *)
Definition mr_shown (u : openpgp_signedpacket) : bool :=
  (pkt_tag (sp_packet u) =? OPENPGP_PACKET_UID) &&
  match signedpacket_is_revoked u with Done b => negb b | Fault _ => false end.

Definition mr_row (u : openpgp_signedpacket) : list Z := concat (map mr_char (pkt_data (sp_packet u))).

Lemma mr_uids_rows uids : Forall listable_signed uids ->
  mr_uids uids = Done (concat (map (fun u => str "uid:" ++ mr_row u ++ [10]) (filter (fun u => mr_shown u = true) uids))).
Proof.
  induction 1 as [|u uids Hu _ IH]; [done|]. cbn [mr_uids]. rewrite filter_cons.
  assert (Hsh := eq_refl (mr_shown u)). unfold mr_shown in Hsh at 1. set (sh := mr_shown u) in *. clearbody sh.
  destruct (pkt_tag (sp_packet u) =? OPENPGP_PACKET_UID); cbn [negb andb] in Hsh |- *; [|subst sh; by rewrite decide_False].
  destruct (runs_revoked u Hu) as [r Er]. rewrite Er in Hsh |- *. cbn [mbind outcome_bind].
  destruct r; cbn [negb] in Hsh; subst sh; [by rewrite decide_False|]. rewrite decide_True by done.
  destruct Hu as (Hw & Hl & _). pose proof (wf_length _ Hw). pose proof Hw as [Hz _].
  rewrite i32_small, Z.max_r, memcpy_from_ok by lia. cbn [mbind outcome_bind]. rewrite IH. cbn [mbind outcome_bind map concat].
  unfold mr_row at 2. rewrite drop_0, take_ge by (unfold zlen in *; lia). by rewrite <- !app_assoc.
Qed.

(** The user ids of a key whose user ids contain no newline can be read back
    from the machine readable index: there is one row for each user id that is
    not revoked, in their order, of ASCII characters, with no further colon, and
    decoding its text gives the octets of the user id. *)
Theorem mr_uids_roundtrip uids : Forall listable_signed uids ->
  Forall (fun u => 10 ∉ pkt_data (sp_packet u)) uids ->
  exists out, mr_uids uids = Done out /\
    Forall2 (fun u row => exists t, row = str "uid:" ++ t /\ (58 ∉ t) /\ Forall (fun c => c < 128) t /\
        mr_decode t = Some (pkt_data (sp_packet u)))
      (filter (fun u => mr_shown u = true) uids) (lines out).
Proof.
  intros Hu Hn. eexists. split; [by apply mr_uids_rows|].
  assert (H : Forall (fun u => Forall byte (pkt_data (sp_packet u)) /\ 10 ∉ pkt_data (sp_packet u))
                (filter (fun u => mr_shown u = true) uids)).
  { apply Forall_forall. intros u [_ Hi]%list_elem_of_filter. rewrite Forall_forall in Hu, Hn.
    destruct (Hu u Hi) as ([_ Hb] & _). split; [exact Hb | exact (Hn u Hi)]. }
  induction H as [|u l [Hb Hnl] _ IH]; [constructor|]. cbn [map concat]. pose proof (mr_chars_plain _ Hb Hnl) as Hp.
  fold (mr_row u) in Hp. rewrite <- !app_assoc.
  pose proof (lines_app (str "uid:" ++ mr_row u)
    (concat (map (fun u => str "uid:" ++ mr_row u ++ [10]) l))) as E. rewrite <- app_assoc in E. rewrite E.
  - constructor; [|exact IH]. exists (mr_row u). split_and!; [done | | | by apply mr_decode_chars].
    + intros Hi. rewrite Forall_forall in Hp. by apply Hp in Hi as (_ & ? & _).
    + eapply Forall_impl; [exact Hp|]. by intros c (_ & _ & ?).
  - intros [Hi | Hi]%elem_of_app; [by vm_compute in Hi; set_solver|]. rewrite Forall_forall in Hp. by apply Hp in Hi as [? _].
Qed.

End Rows.

(** * Pages *)

Lemma emit_stdout s : Forall (fun c => 0 <= c) s -> forall ctx,
  emit_str (fun ctx c => (c :: ctx, c)) s ctx = (rev s ++ ctx, 0).
Proof.
  induction 1 as [|c s Hc _ IH]; intros ctx; cbn [emit_str]; [done|]. destruct (Z.ltb_spec c 0); [lia|].
  rewrite IH. cbn [rev]. by rewrite <- app_assoc.
Qed.

(** With a template in place, the page of a set of keys is what the template
    means for the values built from the keys, and nothing else: the listing that
    is built in is not printed after it. *)
Theorem key_index_page {HF : Hashes} {BC : BuildConfig} keyid2uid nodes keys now verbose fingerprint skshash root :
  build_key_index_data keyid2uid keys now verbose fingerprint skshash = Done root ->
  Forall node_ok nodes -> zlen (print_nodes nodes) < 2 ^ 31 - 1 -> Forall (fun c => 0 <= c) (meanings [Some root] nodes) ->
  key_index keyid2uid (Some (print_nodes nodes)) keys now verbose fingerprint skshash true = Done (meanings [Some root] nodes).
Proof.
  intros Hd Hok Hlen Hc. unfold key_index. cbn [negb]. rewrite Hd. cbn [mbind outcome_bind].
  rewrite render_nodes by done. cbn [mbind outcome_bind]. rewrite emit_stdout by done. cbn [Z.eqb].
  by rewrite app_nil_r, rev_involutive.
Qed.

(** * Examples *)

#[local] Instance example_hashes : Hashes := toy_hashes.
#[local] Instance example_build : BuildConfig := full_build.

Definition listed_uid : openpgp_signedpacket :=
  let d := str "A:" ++ [195; 169] ++ str " <a@b%c>" in
  mkSigned (mkPacket OPENPGP_PACKET_UID false (zlen d) d) [expiring_sig 300].

Definition photo_uid : openpgp_signedpacket := mkSigned (mkPacket OPENPGP_PACKET_UAT false 1 [0]) [].

Definition listed_key : openpgp_publickey :=
  let k := example_key 1000 [] in
  mkKey (pk_publickey k) false [] [photo_uid; listed_uid; photo_uid] [mkSigned (mkPacket 14 false 12 (pkt_data (pk_publickey k))) []].

Ltac by_packet := apply (bool_decide_unpack _); vm_compute; exact I.

Lemma listed_ok : listable listed_key.
Proof.
  assert (Hp : wf_packet (pk_publickey listed_key)) by by_packet.
  assert (Hu : listable_signed photo_uid).
  { split_and!; [by_packet | done | constructor | done]. }
  assert (Hs : listable_sig (expiring_sig 300)).
  { split_and!; [split; [by_packet | exists 4; split; [done | split; [lia | intros _; done]]] | exists 4; split; [done | lia] | done]. }
  split; [split_and!; [done | done | done | by left] | by_packet | constructor | |].
  - apply Forall_cons. split; [done|]. apply Forall_cons. split; [|by apply Forall_singleton].
    split_and!; [by_packet | done | by apply Forall_singleton | done].
  - apply Forall_singleton. split_and!; [by_packet | done | constructor |]. intros _. split_and!; [by_packet | done | done | by left].
Qed.

Lemma html_escape_correct_witness :
  (exists dst, html_escape (str "a<b") 3 fresh_buf 1024 = Done dst /\ read_cells dst = Done (escape (str "a<b")) /\
    zlen dst = zlen fresh_buf) /\ escape (str "a<b") = str "a&lt;b".
Proof.
  split; [|done]. apply (html_escape_correct (str "a<b") fresh_buf); [repeat constructor; done | done | done].
Defined.

Lemma uid_list_photos_witness : exists out entries, build_uid_list None (pk_uids listed_key) (Some 1%nat) false = Done out /\
  out = TMPL_LIST entries /\ length entries = 2%nat.
Proof.
  destruct (runs_build_uids None I (pk_uids listed_key) (Some 1%nat) false (ls_uids _ listed_ok) 0 0 (TMPL_LIST [])) as [out E].
  destruct (uid_list_photos None listed_key (Some 1%nat) false out) as (entries & -> & H); [done | exact E |].
  exists (TMPL_LIST entries), entries. split; [exact E|]. split; [done|]. apply Forall2_length in H. rewrite <- H. vm_compute. reflexivity.
Defined.

Lemma listing_safe_witness :
  runs (mrkey_index [listed_key]) /\ runs (build_key_index_data None [listed_key] 2000 true true true) /\
  runs (key_index None None [listed_key] 2000 true true true true).
Proof.
  apply (listing_safe None None [listed_key] 2000 true true true true); [exact I | apply Forall_singleton, listed_ok | exact (fun _ => I) |].
  apply Forall_singleton. intros _. apply Forall_forall. intros u Hu _.
  revert u Hu. apply Forall_forall. vm_compute. repeat constructor; congruence.
Defined.

Lemma mr_uids_roundtrip_witness :
  (exists out, mr_uids (pk_uids listed_key) = Done out /\
    Forall2 (fun u row => exists t, row = str "uid:" ++ t /\ (58 ∉ t) /\ Forall (fun c => c < 128) t /\
        mr_decode t = Some (pkt_data (sp_packet u)))
      (filter (fun u => mr_shown u = true) (pk_uids listed_key)) (lines out)) /\
  mr_uids (pk_uids listed_key) = Done (str "uid:A%3A%C3%A9 <a@b%%c>" ++ [10]).
Proof.
  split; [|vm_compute; reflexivity]. apply mr_uids_roundtrip; [apply listed_ok|].
  apply (bool_decide_unpack _). vm_compute. exact I.
Defined.

(** A template that shows the user ids of a key as a list. *)
Definition small_template : list node :=
  [ Section_ false (path ["keys"]%string)
      [ text "0x"; var "keyid_hex16"; text ":"; Section_ false (path ["has_primary_uid"]%string) [text " "; var "primary_uid"];
        Section_ false (path ["other_uids"]%string) [text " photo "; var "uat_index"]; Text [10] ] ].

Lemma key_index_page_witness : exists root, build_key_index_data None [listed_key] 2000 false false false = Done root /\
  key_index None (Some (print_nodes small_template)) [listed_key] 2000 false false false true = Done (meanings [Some root] small_template).
Proof.
  eexists. split; [vm_compute; reflexivity|].
  apply (key_index_page None small_template [listed_key] 2000 false false false).
  - vm_compute. reflexivity.
  - unfold small_template. repeat constructor; try done; intros H; vm_compute in H; naive_solver.
  - vm_compute. reflexivity.
  - apply (bool_decide_unpack _). vm_compute. exact I.
Defined.
