(* ===== verification/Md5.v ===== *)
(** MD5 (md5.c): the blocks of a message, and a context with a buffer of 128
    octets that is updated with pieces of a message.

    [big] is WORDS_BIGENDIAN; [_STRING_ARCH_unaligned] is not defined, so that the
    address of the data decides how its blocks are processed. *)

From Stdlib Require Import String.
From S2P Require Import Prelude CLib Streams Digest.

Section Md5.
Context (big : bool).

Definition SWAP (n : Z) : Z := if big then swap_word n else n.

(** * Blocks *)

Inductive md5_reg : Type := MA | MB | MC | MD.

Record md5_regs : Type := mkMd5Regs { md_a : Z; md_b : Z; md_c : Z; md_d : Z }.

Definition md5_get (r : md5_regs) (x : md5_reg) : Z := match x with MA => md_a r | MB => md_b r | MC => md_c r | MD => md_d r end.

Definition md5_set (r : md5_regs) (x : md5_reg) (v : Z) : md5_regs :=
  match x with
  | MA => mkMd5Regs v (md_b r) (md_c r) (md_d r)
  | MB => mkMd5Regs (md_a r) v (md_c r) (md_d r)
  | MC => mkMd5Regs (md_a r) (md_b r) v (md_d r)
  | MD => mkMd5Regs (md_a r) (md_b r) (md_c r) v
  end.

Definition FF (b c d : Z) : Z := Z.lxor d (Z.land b (Z.lxor c d)).
Definition FG (b c d : Z) : Z := FF d b c.
Definition FH (b c d : Z) : Z := Z.lxor (Z.lxor b c) d.
Definition FI (b c d : Z) : Z := Z.lxor c (Z.lor b (u32 (Z.lnot d))).

(** The first macro [OP] takes the next word, the second one names it. *)
Inductive md5_op : Type :=
  | OP1 (a b c d : md5_reg) (s T : Z)
  | OP (f : Z -> Z -> Z -> Z) (a b c d : md5_reg) (k : nat) (s T : Z).

(** [a += f (b, c, d) + word + T; CYCLIC (a, s); a += b;] *)
Definition md5_apply (r : md5_regs) (f : Z -> Z -> Z -> Z) (a b c d : md5_reg) (word s T : Z) : md5_regs :=
  let x := u32 (md5_get r a + (f (md5_get r b) (md5_get r c) (md5_get r d) + word + T)) in
  let x := rol x s in
  md5_set r a (u32 (x + md5_get r b)).

(** The variables, the words already in [correct_words], and the words behind
    [words]. *)
Definition md5_run (st : md5_regs * list Z * list Z) (o : md5_op) : md5_regs * list Z * list Z :=
  let '(r, correct_words, words) := st in
  match o with
  | OP1 a b c d s T =>
      let w := SWAP (default 0 (head words)) in
      (md5_apply r FF a b c d w s T, correct_words ++ [w], tail words)
  | OP f a b c d k s T => (md5_apply r f a b c d (nth k correct_words 0) s T, correct_words, words)
  end.

Definition md5_ops : list md5_op :=
  [ OP1 MA MB MC MD 7 0xd76aa478; OP1 MD MA MB MC 12 0xe8c7b756;
    OP1 MC MD MA MB 17 0x242070db; OP1 MB MC MD MA 22 0xc1bdceee;
    OP1 MA MB MC MD 7 0xf57c0faf; OP1 MD MA MB MC 12 0x4787c62a;
    OP1 MC MD MA MB 17 0xa8304613; OP1 MB MC MD MA 22 0xfd469501;
    OP1 MA MB MC MD 7 0x698098d8; OP1 MD MA MB MC 12 0x8b44f7af;
    OP1 MC MD MA MB 17 0xffff5bb1; OP1 MB MC MD MA 22 0x895cd7be;
    OP1 MA MB MC MD 7 0x6b901122; OP1 MD MA MB MC 12 0xfd987193;
    OP1 MC MD MA MB 17 0xa679438e; OP1 MB MC MD MA 22 0x49b40821;
    OP FG MA MB MC MD 1 5 0xf61e2562; OP FG MD MA MB MC 6 9 0xc040b340;
    OP FG MC MD MA MB 11 14 0x265e5a51; OP FG MB MC MD MA 0 20 0xe9b6c7aa;
    OP FG MA MB MC MD 5 5 0xd62f105d; OP FG MD MA MB MC 10 9 0x02441453;
    OP FG MC MD MA MB 15 14 0xd8a1e681; OP FG MB MC MD MA 4 20 0xe7d3fbc8;
    OP FG MA MB MC MD 9 5 0x21e1cde6; OP FG MD MA MB MC 14 9 0xc33707d6;
    OP FG MC MD MA MB 3 14 0xf4d50d87; OP FG MB MC MD MA 8 20 0x455a14ed;
    OP FG MA MB MC MD 13 5 0xa9e3e905; OP FG MD MA MB MC 2 9 0xfcefa3f8;
    OP FG MC MD MA MB 7 14 0x676f02d9; OP FG MB MC MD MA 12 20 0x8d2a4c8a;
    OP FH MA MB MC MD 5 4 0xfffa3942; OP FH MD MA MB MC 8 11 0x8771f681;
    OP FH MC MD MA MB 11 16 0x6d9d6122; OP FH MB MC MD MA 14 23 0xfde5380c;
    OP FH MA MB MC MD 1 4 0xa4beea44; OP FH MD MA MB MC 4 11 0x4bdecfa9;
    OP FH MC MD MA MB 7 16 0xf6bb4b60; OP FH MB MC MD MA 10 23 0xbebfbc70;
    OP FH MA MB MC MD 13 4 0x289b7ec6; OP FH MD MA MB MC 0 11 0xeaa127fa;
    OP FH MC MD MA MB 3 16 0xd4ef3085; OP FH MB MC MD MA 6 23 0x04881d05;
    OP FH MA MB MC MD 9 4 0xd9d4d039; OP FH MD MA MB MC 12 11 0xe6db99e5;
    OP FH MC MD MA MB 15 16 0x1fa27cf8; OP FH MB MC MD MA 2 23 0xc4ac5665;
    OP FI MA MB MC MD 0 6 0xf4292244; OP FI MD MA MB MC 7 10 0x432aff97;
    OP FI MC MD MA MB 14 15 0xab9423a7; OP FI MB MC MD MA 5 21 0xfc93a039;
    OP FI MA MB MC MD 12 6 0x655b59c3; OP FI MD MA MB MC 3 10 0x8f0ccc92;
    OP FI MC MD MA MB 10 15 0xffeff47d; OP FI MB MC MD MA 1 21 0x85845dd1;
    OP FI MA MB MC MD 8 6 0x6fa87e4f; OP FI MD MA MB MC 15 10 0xfe2ce6e0;
    OP FI MC MD MA MB 6 15 0xa3014314; OP FI MB MC MD MA 13 21 0x4e0811a1;
    OP FI MA MB MC MD 4 6 0xf7537e82; OP FI MD MA MB MC 11 10 0xbd3af235;
    OP FI MC MD MA MB 2 15 0x2ad7d2bb; OP FI MB MC MD MA 9 21 0xeb86d391 ].

(** One round of [while (words < endp)]. *)
Definition md5_block (r : md5_regs) (block : list Z) : md5_regs :=
  let '(w, _, _) := foldl md5_run (r, [], load_words big 16 block) md5_ops in
  mkMd5Regs (u32 (md_a w + md_a r)) (u32 (md_b w + md_b r)) (u32 (md_c w + md_c r)) (u32 (md_d w + md_d r)).

Record md5_ctx : Type := mkMd5 { md_buffer : list cell; md_regs : md5_regs; md_total0 : Z; md_total1 : Z; md_buflen : Z }.

(** [total += n] over two words *)
Definition add_total (t0 t1 n : Z) : Z * Z :=
  let t0' := u32 (t0 + n) in (t0', if t0' <? n then u32 (t1 + 1) else t1).

Fixpoint md5_blocks (fuel : nat) (r : md5_regs) (buffer : list Z) (pos endp : Z) : outcome md5_regs :=
  if pos <? endp then
    match fuel with
    | O => Fault OutOfFuel
    | S fuel => b ← memcpy_from buffer pos 64; md5_blocks fuel (md5_block r b) buffer (pos + 64) endp
    end
  else Done r.

Definition md5_process_block (buffer : list Z) (len : Z) (ctx : md5_ctx) : outcome md5_ctx :=
  let '(t0, t1) := add_total (md_total0 ctx) (md_total1 ctx) len in
  r ← md5_blocks (Z.to_nat len) (md_regs ctx) buffer 0 (4 * (len / 4));
  Done (mkMd5 (md_buffer ctx) r t0 t1 (md_buflen ctx)).

(** * The context *)

Definition md5_init (ctx : md5_ctx) : md5_ctx :=
  mkMd5 (md_buffer ctx) (mkMd5Regs 0x67452301 0xefcdab89 0x98badcfe 0x10325476) 0 0 0.

Definition set_buffer (ctx : md5_ctx) (buffer : list cell) : md5_ctx :=
  mkMd5 buffer (md_regs ctx) (md_total0 ctx) (md_total1 ctx) (md_buflen ctx).

Definition set_buflen (ctx : md5_ctx) (n : Z) : md5_ctx :=
  mkMd5 (md_buffer ctx) (md_regs ctx) (md_total0 ctx) (md_total1 ctx) n.

(** [memcpy(&ctx->buffer[o], bs, ...)] *)
Definition fill (ctx : md5_ctx) (o : Z) (bs : list Z) : outcome md5_ctx :=
  b ← store_cells (md_buffer ctx) o bs; Done (set_buffer ctx b).

(** [n] octets of the buffer *)
Definition filled (ctx : md5_ctx) (o n : Z) : outcome (list Z) := read_cells_n (Z.to_nat n) (drop (Z.to_nat o) (md_buffer ctx)).

(** [md5_process_block(ctx->buffer, n, ctx)] *)
Definition process_buffer (ctx : md5_ctx) (n : Z) : outcome md5_ctx := bs ← filled ctx 0 n; md5_process_block bs n ctx.

(** [memcpy(ctx->buffer, &ctx->buffer[o], n)] *)
Definition move_down (ctx : md5_ctx) (o n : Z) : outcome md5_ctx := bs ← filled ctx o n; fill ctx 0 bs.

(** [& ~63] *)
Definition down64 (n : Z) : Z := Z.land n (u32 (Z.lnot 63)).

(** The data that joins octets which are in the buffer; what is left of it. *)
Definition update_buffered (ctx : md5_ctx) (length : Z) (data : list Z) : outcome (md5_ctx * Z * Z) :=
  if negb (md_buflen ctx =? 0) then
    let left_over := md_buflen ctx in
    let add := if length <? u64 (128 - left_over) then length else u64 (128 - left_over) in
    bs ← memcpy_from data 0 add;
    ctx ← fill ctx left_over bs;
    let ctx := set_buflen ctx (u32 (left_over + add)) in
    ctx ←
      (if 64 <? md_buflen ctx then
         ctx ← process_buffer ctx (down64 (md_buflen ctx));
         let ctx := set_buflen ctx (Z.land (md_buflen ctx) 63) in
         move_down ctx (down64 (left_over + add)) (md_buflen ctx)
       else Done ctx);
    Done (ctx, add, u32 (length - add))
  else Done (ctx, 0, length).

(** [while (length > 64)], for data that is not aligned *)
Fixpoint unaligned_loop (fuel : nat) (ctx : md5_ctx) (data : list Z) (pos length : Z) : outcome (md5_ctx * Z * Z) :=
  if 64 <? length then
    match fuel with
    | O => Fault OutOfFuel
    | S fuel =>
        bs ← memcpy_from data pos 64;
        ctx ← fill ctx 0 bs;
        ctx ← process_buffer ctx 64;
        unaligned_loop fuel ctx data (pos + 64) (u32 (length - 64))
    end
  else Done (ctx, pos, length).

(** [addr] is the address of the data. *)
Definition update_blocks (ctx : md5_ctx) (addr : Z) (data : list Z) (pos length : Z) : outcome (md5_ctx * Z * Z) :=
  if 64 <=? length then
    if negb ((addr + pos) mod 4 =? 0) then unaligned_loop (Z.to_nat length) ctx data pos length
    else
      bs ← memcpy_from data pos (down64 length);
      ctx ← md5_process_block bs (down64 length) ctx;
      Done (ctx, pos + down64 length, Z.land length 63)
  else Done (ctx, pos, length).

Definition update_rest (ctx : md5_ctx) (data : list Z) (pos length : Z) : outcome md5_ctx :=
  if 0 <? length then
    let left_over := md_buflen ctx in
    bs ← memcpy_from data pos length;
    ctx ← fill ctx left_over bs;
    let left_over := left_over + length in
    '(ctx, left_over) ←
      (if 64 <=? left_over then
         ctx ← process_buffer ctx 64;
         ctx ← move_down ctx 64 (left_over - 64);
         Done (ctx, left_over - 64)
       else Done (ctx, left_over));
    Done (set_buflen ctx (u32 left_over))
  else Done ctx.

Definition md5_update (ctx : md5_ctx) (length : Z) (addr : Z) (data : list Z) : outcome md5_ctx :=
  '(ctx, pos, length) ← update_buffered ctx length data;
  '(ctx, pos, length) ← update_blocks ctx addr data pos length;
  update_rest ctx data pos length.

Definition md5_read_ctx (ctx : md5_ctx) : list Z :=
  store32 big (SWAP (md_a (md_regs ctx))) ++ store32 big (SWAP (md_b (md_regs ctx))) ++
  store32 big (SWAP (md_c (md_regs ctx))) ++ store32 big (SWAP (md_d (md_regs ctx))).

Definition fillbuf : list Z := 0x80 :: replicate 63 0.

(** The 16 octets written to [resbuf]; [length] is not used. *)
Definition md5_digest (ctx : md5_ctx) : outcome (md5_ctx * list Z) :=
  let bytes := md_buflen ctx in
  let '(t0, t1) := add_total (md_total0 ctx) (md_total1 ctx) bytes in
  let pad := if 56 <=? bytes then u32 (64 + 56 - bytes) else u32 (56 - bytes) in
  let ctx := mkMd5 (md_buffer ctx) (md_regs ctx) t0 t1 bytes in
  fill_octets ← memcpy_from fillbuf 0 pad;
  ctx ← fill ctx bytes fill_octets;
  ctx ← fill ctx (bytes + pad) (store32 big (SWAP (u32 (Z.shiftl t0 3))));
  ctx ← fill ctx (bytes + pad + 4) (store32 big (SWAP (Z.lor (u32 (Z.shiftl t1 3)) (Z.shiftr t0 29))));
  ctx ← process_buffer ctx (bytes + pad + 8);
  Done (ctx, md5_read_ctx ctx).

Definition fresh_md5 : md5_ctx := mkMd5 (replicate 128 None) (mkMd5Regs 0 0 0 0) 0 0 0.

(** One update after the other, each with the address of its data. *)
Fixpoint md5_updates (ctx : md5_ctx) (pieces : list (Z * list Z)) : outcome md5_ctx :=
  match pieces with
  | [] => Done ctx
  | (addr, p) :: pieces => ctx ← md5_update ctx (zlen p) addr p; md5_updates ctx pieces
  end.

Definition md5_of (pieces : list (Z * list Z)) : outcome (list Z) :=
  ctx ← md5_updates (md5_init fresh_md5) pieces; '(_, d) ← md5_digest ctx; Done d.
End Md5.
