(* ===== verification/Md5Facts.v ===== *)
(** md5.c computes MD5 as RFC 1321 defines it, for a message that comes in any
    number of pieces at any addresses. *)

From Stdlib Require Import String.
From S2P Require Import Prelude CLib Streams Digest KeyId Md5.

(** * The definition of RFC 1321 *)

Definition rfc_f (i : nat) (x y z : Z) : Z :=
  if (i <? 16)%nat then Z.lor (Z.land x y) (Z.land (Z.lnot x) z)
  else if (i <? 32)%nat then Z.lor (Z.land x z) (Z.land y (Z.lnot z))
  else if (i <? 48)%nat then Z.lxor x (Z.lxor y z)
  else Z.lxor y (Z.lor x (u32 (Z.lnot z))).

(** The index of the word, the rotation and the constant of operation [i]. *)
Definition rfc_g (i : nat) : nat :=
  if (i <? 16)%nat then i else if (i <? 32)%nat then ((5 * i + 1) mod 16)%nat
  else if (i <? 48)%nat then ((3 * i + 5) mod 16)%nat else ((7 * i) mod 16)%nat.

Definition rfc_s (i : nat) : Z :=
  nth (i mod 4) (if (i <? 16)%nat then [7; 12; 17; 22] else if (i <? 32)%nat then [5; 9; 14; 20]
                 else if (i <? 48)%nat then [4; 11; 16; 23] else [6; 10; 15; 21]) 0.

Definition rfc_T : list Z :=
  [ 0xd76aa478; 0xe8c7b756; 0x242070db; 0xc1bdceee;
    0xf57c0faf; 0x4787c62a; 0xa8304613; 0xfd469501;
    0x698098d8; 0x8b44f7af; 0xffff5bb1; 0x895cd7be;
    0x6b901122; 0xfd987193; 0xa679438e; 0x49b40821;
    0xf61e2562; 0xc040b340; 0x265e5a51; 0xe9b6c7aa;
    0xd62f105d; 0x02441453; 0xd8a1e681; 0xe7d3fbc8;
    0x21e1cde6; 0xc33707d6; 0xf4d50d87; 0x455a14ed;
    0xa9e3e905; 0xfcefa3f8; 0x676f02d9; 0x8d2a4c8a;
    0xfffa3942; 0x8771f681; 0x6d9d6122; 0xfde5380c;
    0xa4beea44; 0x4bdecfa9; 0xf6bb4b60; 0xbebfbc70;
    0x289b7ec6; 0xeaa127fa; 0xd4ef3085; 0x04881d05;
    0xd9d4d039; 0xe6db99e5; 0x1fa27cf8; 0xc4ac5665;
    0xf4292244; 0x432aff97; 0xab9423a7; 0xfc93a039;
    0x655b59c3; 0x8f0ccc92; 0xffeff47d; 0x85845dd1;
    0x6fa87e4f; 0xfe2ce6e0; 0xa3014314; 0x4e0811a1;
    0xf7537e82; 0xbd3af235; 0x2ad7d2bb; 0xeb86d391 ].

Definition rfc_step (x : nat -> Z) (s : md5_regs) (i : nat) : md5_regs :=
  let '(mkMd5Regs a b c d) := s in
  mkMd5Regs d (u32 (b + rol (u32 (a + rfc_f i b c d + x (rfc_g i) + nth i rfc_T 0)) (rfc_s i))) b c.

Definition rfc_compress (h : md5_regs) (block : list Z) : md5_regs :=
  let x i := nth i (load_words false 16 block) 0 in
  let r := foldl (rfc_step x) h (seq 0 64) in
  mkMd5Regs (u32 (md_a h + md_a r)) (u32 (md_b h + md_b r)) (u32 (md_c h + md_c r)) (u32 (md_d h + md_d r)).

Definition rfc_init : md5_regs := mkMd5Regs 0x67452301 0xefcdab89 0x98badcfe 0x10325476.

Definition md5 (m : list Z) : list Z :=
  let bits := 8 * zlen m in
  let r := absorb rfc_compress rfc_init (m ++ padding (length m) ++ le_bytes 8 (bits mod 2 ^ 64)) in
  le_bytes 4 (md_a r) ++ le_bytes 4 (md_b r) ++ le_bytes 4 (md_c r) ++ le_bytes 4 (md_d r).

(** * The operations on a block *)

(** Little endian words, whatever the order of octets of the host. *)
Lemma swap_load big bs : Forall byte bs -> length bs = 4%nat -> SWAP big (load32 big bs) = le_value bs.
Proof.
  intros Hb Hl. destruct bs as [|a [|b [|c [|d [|]]]]]; try done. repeat (apply Forall_cons in Hb as [? Hb]).
  unfold SWAP, load32. destruct big; [|done]. by rewrite be_value_octets, swap_word_octets, le_value_octets.
Qed.

Lemma swap_words big n : forall bs, Forall byte bs -> length bs = (4 * n)%nat ->
  map (SWAP big) (load_words big n bs) = load_words false n bs.
Proof.
  induction n as [|n IH]; intros bs Hb Hl; [done|]. cbn [load_words map]. f_equal.
  - apply swap_load; [by apply Forall_take|]. rewrite length_take. lia.
  - apply IH; [by apply Forall_drop|]. rewrite length_drop. lia.
Qed.

Section Ops.
Context (big : bool) (block : list Z) (Hbytes : Forall byte block) (Hlen : length block = 64%nat).

Let raw : list Z := load_words big 16 block.
Let words : list Z := load_words false 16 block.

Lemma raw_words : map (SWAP big) raw = words.
Proof. by apply swap_words. Qed.

Definition md5_names (t : nat) : md5_reg * md5_reg * md5_reg * md5_reg :=
  match (t mod 4)%nat with
  | 0%nat => (MA, MB, MC, MD)
  | 1%nat => (MD, MA, MB, MC)
  | 2%nat => (MC, MD, MA, MB)
  | _ => (MB, MC, MD, MA)
  end.

Definition md5_view (t : nat) (r : md5_regs) : md5_regs :=
  let '(a, b, c, d) := md5_names t in mkMd5Regs (md5_get r a) (md5_get r b) (md5_get r c) (md5_get r d).

Definition md5_round (t : nat) : md5_op :=
  let '(a, b, c, d) := md5_names t in
  if (t <? 16)%nat then OP1 a b c d (rfc_s t) (nth t rfc_T 0)
  else OP (if (t <? 32)%nat then FG else if (t <? 48)%nat then FH else FI) a b c d (rfc_g t) (rfc_s t) (nth t rfc_T 0).

Lemma md5_ops_rounds : md5_ops = map md5_round (seq 0 64).
Proof. reflexivity. Qed.

Lemma FF_eq b c d : FF b c d = Z.lor (Z.land b c) (Z.land (Z.lnot b) d).
Proof. unfold FF. by_bits. Qed.

Lemma FG_eq b c d : FG b c d = Z.lor (Z.land b d) (Z.land c (Z.lnot d)).
Proof. unfold FG, FF. by_bits. Qed.

Lemma md5_apply_view t r f word s T : let '(a, b, c, d) := md5_names t in
  md5_view (S t) (md5_apply r f a b c d word s T) =
    mkMd5Regs (md5_get r d) (u32 (rol (u32 (md5_get r a + (f (md5_get r b) (md5_get r c) (md5_get r d) + word + T))) s + md5_get r b))
      (md5_get r b) (md5_get r c).
Proof.
  unfold md5_view, md5_names. assert (H : (t mod 4 = 0 \/ t mod 4 = 1 \/ t mod 4 = 2 \/ t mod 4 = 3)%nat)
    by (pose proof (Nat.mod_upper_bound t 4); lia).
  assert (HS : (S t mod 4 = if decide (t mod 4 = 3) then 0 else S (t mod 4))%nat).
  { replace (S t) with (t + 1)%nat by lia. rewrite Nat.Div0.add_mod. destruct (decide (t mod 4 = 3)%nat) as [->|]; [done|].
    rewrite (Nat.mod_small (t mod 4 + 1 mod 4)); change (1 mod 4)%nat with 1%nat; lia. }
  rewrite HS. destruct H as [-> | [-> | [-> | ->]]]; reflexivity.
Qed.

Definition word_of (i : nat) : Z := nth i words 0.

Lemma word_taken t i : (i < t)%nat -> nth i (take t words) 0 = word_of i.
Proof. intros H. unfold word_of. rewrite !nth_lookup. by rewrite lookup_take_lt by lia. Qed.

Lemma rfc_g_small i : (rfc_g i < 16)%nat.
Proof. unfold rfc_g. repeat case_match; rewrite ?Nat.ltb_lt in *; try lia; apply Nat.mod_upper_bound; lia. Qed.

(** Two operations that add the same in another order. *)
Ltac same_sum := f_equal; f_equal; rewrite Z.add_comm; f_equal; f_equal; f_equal; lia.

(** One operation, with [t] words in [correct_words] up to 16. *)
Lemma md5_round_step t r : (t < 64)%nat -> let m := Nat.min t 16 in
  exists r', md5_run big (r, take m words, drop m raw) (md5_round t) = (r', take (Nat.min (S t) 16) words, drop (Nat.min (S t) 16) raw) /\
    md5_view (S t) r' = rfc_step word_of (md5_view t r) t.
Proof.
  intros Ht m. unfold md5_round, md5_view at 2, rfc_step. pose proof (md5_apply_view t r) as Hv.
  destruct (md5_names t) as [[[a b] c] d]. destruct (Nat.ltb_spec t 16) as [H|H].
  - subst m. rewrite (Nat.min_l t), (Nat.min_l (S t)) by lia. cbn [md5_run].
    assert (Hr : raw !! t = Some (nth t raw 0)) by (rewrite nth_lookup; destruct (lookup_lt_is_Some_2 raw t) as [x ->];
      [unfold raw; rewrite length_load_words; lia | done]).
    rewrite (drop_S raw _ t Hr). cbn [head tail]. change (default 0 (Some ?x)) with x. eexists. split.
    + rewrite <- raw_words, !firstn_map, (take_S_r raw t _ Hr), map_app. done.
    + rewrite Hv. unfold rfc_f. rewrite FF_eq. destruct (Nat.ltb_spec t 16); [|lia].
      assert (Ew : SWAP big (nth t raw 0) = word_of (rfc_g t)).
      { unfold rfc_g, word_of. destruct (Nat.ltb_spec t 16); [|lia]. rewrite <- raw_words. change (map ?f raw) with (f <$> raw). rewrite !nth_lookup, list_lookup_fmap.
        rewrite nth_lookup in Hr. destruct (raw !! t); done. }
      rewrite Ew. by same_sum.
  - subst m. rewrite (Nat.min_r t), (Nat.min_r (S t)) by lia. cbn [md5_run]. eexists. split; [done|].
    rewrite Hv, word_taken by (apply rfc_g_small). unfold rfc_f. destruct (Nat.ltb_spec t 16); [lia|].
    destruct (Nat.ltb_spec t 32); [rewrite FG_eq | destruct (Nat.ltb_spec t 48); [unfold FH; rewrite Z.lxor_assoc | unfold FI]];
      by same_sum.
Qed.

Lemma md5_rounds_run n : forall t r, (t + n <= 64)%nat ->
  exists r' cw ws, foldl (md5_run big) (r, take (Nat.min t 16) words, drop (Nat.min t 16) raw) (map md5_round (seq t n)) = (r', cw, ws) /\
    md5_view (t + n) r' = foldl (rfc_step word_of) (md5_view t r) (seq t n).
Proof.
  induction n as [|n IH]; intros t r Ht; [eexists _, _, _; split; [done | by rewrite Nat.add_0_r]|].
  rewrite <- cons_seq, map_cons, !foldl_cons. destruct (md5_round_step t r) as (r1 & -> & E); [lia|].
  destruct (IH (S t) r1) as (r' & cw & ws & -> & E'); [lia|]. exists r', cw, ws. split; [done|].
  by rewrite <- E, <- E', Nat.add_succ_comm.
Qed.

Lemma md5_block_rfc r : md5_block big r block = rfc_compress r block.
Proof.
  unfold md5_block, rfc_compress. rewrite md5_ops_rounds. fold raw.
  destruct (md5_rounds_run 64 0 r) as (r' & cw & ws & E & Ev); [lia|]. change (0 + 64)%nat with 64%nat in Ev.
  change (take (Nat.min 0 16) words) with (@nil Z) in E. rewrite drop_0 in E. rewrite E.
  assert (E64 : md5_view 64 r' = r') by (by destruct r'). assert (E0 : md5_view 0 r = r) by (by destruct r).
  rewrite E64, E0 in Ev. rewrite Ev. unfold word_of, words. by rewrite !(Z.add_comm _ (_ r)).
Qed.
End Ops.

(** * Pieces of a message *)

Section Pieces.
Context (big : bool).

Definition md5_digested (m : list Z) : md5_regs := absorb rfc_compress rfc_init m.

(** The blocks of [full] have been processed, and the buffer begins with [buf]. *)
Record held (ctx : md5_ctx) (full buf : list Z) : Prop := {
  hd_bytes : Forall byte full /\ Forall byte buf;
  hd_blocks : exists k, length full = (64 * k)%nat;
  hd_regs : md_regs ctx = md5_digested full;
  hd_total0 : md_total0 ctx = zlen full mod 2 ^ 32;
  hd_total1 : md_total1 ctx = zlen full / 2 ^ 32 mod 2 ^ 32;
  hd_buffer : exists rest, md_buffer ctx = map Some buf ++ rest /\ (length buf + length rest)%nat = 128%nat
}.

(** The context after the message [m]; a complete block may wait in the buffer. *)
Definition md5_absorbed (ctx : md5_ctx) (m : list Z) : Prop :=
  exists full buf, m = full ++ buf /\ held ctx full buf /\ md_buflen ctx = zlen buf /\ (length buf <= 64)%nat.

Lemma md5_init_absorbed ctx : length (md_buffer ctx) = 128%nat -> md5_absorbed (md5_init ctx) [].
Proof.
  intros Hl. exists [], []. split_and!; [done | | done | cbn; lia].
  split; [done | by exists 0%nat | done | done | done | by exists (md_buffer ctx)].
Qed.

Lemma held_buflen ctx full buf n : held ctx full buf -> held (set_buflen ctx n) full buf.
Proof. intros []. by split. Qed.

Lemma set_buffer_twice ctx a b : set_buffer (set_buffer ctx a) b = set_buffer ctx b.
Proof. done. Qed.

Lemma fill_buffer ctx buf bs rest : md_buffer ctx = map Some buf ++ rest -> (length bs <= length rest)%nat ->
  exists rest', fill ctx (zlen buf) bs = Done (set_buffer ctx (map Some (buf ++ bs) ++ rest')) /\
    (length bs + length rest' = length rest)%nat.
Proof.
  intros Hbuf Hl. unfold fill. rewrite Hbuf, store_cells_next by lia. eexists. split; [done|]. rewrite length_drop. lia.
Qed.

Lemma fill_held ctx full buf bs : held ctx full buf -> Forall byte bs -> (length buf + length bs <= 128)%nat ->
  exists ctx', fill ctx (zlen buf) bs = Done ctx' /\ held ctx' full (buf ++ bs) /\ md_buflen ctx' = md_buflen ctx.
Proof.
  intros [[Hf Hb] Hk Hr H0 H1 (rest & Hbuf & Hl)] Hbs Hn. destruct (fill_buffer ctx buf bs rest Hbuf) as (rest' & -> & Hl'); [lia|].
  eexists. split; [done|]. split; [|done]. split; try done; [split; [done | by apply Forall_app]|].
  exists rest'. split; [done|]. rewrite length_app. lia.
Qed.

(** From the start of the buffer. *)
Lemma refill_held ctx full old bs : held ctx full old -> Forall byte bs -> (length bs <= 128)%nat ->
  exists ctx', fill ctx 0 bs = Done ctx' /\ held ctx' full bs /\ md_buflen ctx' = md_buflen ctx.
Proof.
  intros [[Hf Hb] Hk Hr H0 H1 (rest & Hbuf & Hl)] Hbs Hn. apply (fill_held ctx full [] bs); [|done | cbn; lia].
  split; try done. exists (md_buffer ctx). split; [done|]. rewrite Hbuf, length_app, length_map. done.
Qed.

Lemma add_total_spec n d : 0 <= n -> 0 <= d < 2 ^ 32 ->
  add_total (n mod 2 ^ 32) (n / 2 ^ 32 mod 2 ^ 32) d = ((n + d) mod 2 ^ 32, (n + d) / 2 ^ 32 mod 2 ^ 32).
Proof.
  intros Hn Hd. unfold add_total, u32. rewrite Zplus_mod_idemp_l. f_equal. change (2 ^ 32) with 4294967296 in *.
  destruct (Z.ltb_spec ((n + d) mod 4294967296) d); [rewrite Zplus_mod_idemp_l|]; f_equal; Z.div_mod_to_equations; lia.
Qed.

Lemma md5_blocks_spec bs full : Forall byte bs -> forall fuel i j k,
  length full = (64 * k)%nat -> length bs = (64 * j)%nat -> (i <= j)%nat -> (j - i <= fuel)%nat ->
  md5_blocks big fuel (md5_digested (full ++ take (64 * i) bs)) bs (64 * Z.of_nat i) (zlen bs) = Done (md5_digested (full ++ bs)).
Proof.
  intros Hb. induction fuel as [|fuel IH]; intros i j k Hk Hj Hi Hf; cbn [md5_blocks];
    destruct (Z.ltb_spec (64 * Z.of_nat i) (zlen bs)) as [Hlt|Hge].
  1: unfold zlen in *; lia. 1, 3: rewrite take_ge by (unfold zlen in *; lia); done.
  rewrite memcpy_from_ok by (unfold zlen in *; lia). cbn [mbind outcome_bind].
  replace (Z.to_nat (64 * Z.of_nat i)) with (64 * i)%nat by lia. change (Z.to_nat 64) with 64%nat.
  set (b := take 64 (drop (64 * i) bs)). assert (Hl : length b = 64%nat) by (unfold b, zlen in *; rewrite length_take, length_drop; lia).
  rewrite md5_block_rfc by (done || by apply Forall_take, Forall_drop).
  assert (E : take (64 * S i) bs = take (64 * i) bs ++ b) by (unfold b; rewrite take_take_drop; f_equal; lia).
  assert (Ea : rfc_compress (md5_digested (full ++ take (64 * i) bs)) b = md5_digested (full ++ take (64 * S i) bs)).
  { rewrite E, app_assoc. unfold md5_digested at 2. rewrite (absorb_app _ (k + i)), (absorb_block _ _ b) by (done || (rewrite length_app, length_take, Hk; unfold zlen in *; lia)). done. }
  rewrite Ea. replace (64 * Z.of_nat i + 64) with (64 * Z.of_nat (S i)) by lia. apply (IH _ j k); unfold zlen in *; (done || lia).
Qed.

Lemma process_regs ctx full bs k j : md_regs ctx = md5_digested full -> Forall byte bs -> length full = (64 * k)%nat -> length bs = (64 * j)%nat ->
  exists ctx', md5_process_block big bs (zlen bs) ctx = Done ctx' /\ md_regs ctx' = md5_digested (full ++ bs) /\
    md_buffer ctx' = md_buffer ctx /\ md_buflen ctx' = md_buflen ctx /\
    (md_total0 ctx', md_total1 ctx') = add_total (md_total0 ctx) (md_total1 ctx) (zlen bs).
Proof.
  intros Hr Hbs Hk Hj. unfold md5_process_block. destruct (add_total _ _ _) as [t0 t1].
  replace (4 * (zlen bs / 4)) with (zlen bs) by (unfold zlen in *; Z.div_mod_to_equations; lia).
  pose proof (md5_blocks_spec bs full Hbs (Z.to_nat (zlen bs)) 0 j k Hk Hj ltac:(lia)) as E.
  change (64 * 0)%nat with 0%nat in E. change (64 * Z.of_nat 0) with 0 in E. rewrite take_0, app_nil_r, <- Hr in E.
  rewrite E by (unfold zlen; lia). cbn [mbind outcome_bind]. eexists. split; [done|]. done.
Qed.

Lemma process_held ctx full buf bs j : held ctx full buf -> Forall byte bs -> length bs = (64 * j)%nat -> zlen bs < 2 ^ 32 ->
  exists ctx', md5_process_block big bs (zlen bs) ctx = Done ctx' /\ held ctx' (full ++ bs) buf /\ md_buflen ctx' = md_buflen ctx.
Proof.
  intros [[Hf Hb] [k Hk] Hr H0 H1 Hbuf] Hbs Hj H32. pose proof (zlen_nonneg full). pose proof (zlen_nonneg bs).
  destruct (process_regs ctx full bs k j Hr Hbs Hk Hj) as (c & -> & Hr' & Eb & En & Et). exists c. split; [done|]. split; [|done].
  rewrite H0, H1, add_total_spec, <- zlen_app in Et by lia. injection Et as E0 E1.
  split; try done; [split; [by apply Forall_app | done] | exists (k + j)%nat; rewrite length_app; lia | by rewrite Eb].
Qed.

Lemma filled_held ctx full a b c : held ctx full (a ++ b ++ c) -> filled ctx (zlen a) (zlen b) = Done b.
Proof.
  intros [_ _ _ _ _ (rest & Hbuf & _)]. unfold filled. rewrite Hbuf, !map_app, <- !app_assoc.
  unfold zlen. rewrite !Nat2Z.id. rewrite drop_app_length' by (by rewrite length_map). apply read_cells_n_written.
Qed.

(** The first blocks of the buffer are processed, and stay in it. *)
Lemma process_buffer_held ctx full a b j : held ctx full (a ++ b) -> length a = (64 * j)%nat ->
  exists ctx', process_buffer big ctx (zlen a) = Done ctx' /\ held ctx' (full ++ a) (a ++ b) /\ md_buflen ctx' = md_buflen ctx.
Proof.
  intros Hh Hj. unfold process_buffer. pose proof (filled_held ctx full [] a b Hh) as E. change (zlen (@nil Z)) with 0 in E. rewrite E.
  cbn [mbind outcome_bind]. pose proof (hd_buffer _ _ _ Hh) as (rest & _ & Hl). rewrite length_app in Hl.
  apply (process_held ctx full (a ++ b) a j); [done | | done | unfold zlen; lia].
  pose proof (hd_bytes _ _ _ Hh) as [_ H]. by apply Forall_app in H as [H _].
Qed.

Lemma move_down_held ctx full a b : held ctx full (a ++ b) ->
  exists ctx', move_down ctx (zlen a) (zlen b) = Done ctx' /\ held ctx' full b /\ md_buflen ctx' = md_buflen ctx.
Proof.
  intros Hh. unfold move_down. pose proof (filled_held ctx full a b []) as E. rewrite app_nil_r in E. rewrite E by done.
  cbn [mbind outcome_bind]. pose proof (hd_buffer _ _ _ Hh) as (rest & _ & Hl). rewrite length_app in Hl.
  apply (refill_held ctx full (a ++ b) b Hh); [|lia]. pose proof (hd_bytes _ _ _ Hh) as [_ H]. by apply Forall_app in H as [_ H].
Qed.

Lemma down64_spec n : 0 <= n < 2 ^ 32 -> down64 n = n - n mod 64.
Proof.
  intros Hn. unfold down64, u32. rewrite <- (Z.land_ones _ 32), (Z.land_comm (Z.lnot 63)), Z.land_assoc, (Z.land_ones n), Z.mod_small by lia.
  rewrite <- Z.ldiff_land. change 63 with (Z.ones 6). rewrite Z.ldiff_ones_r, Z.shiftl_mul_pow2, Z.shiftr_div_pow2 by lia.
  change (2 ^ 6) with 64. Z.div_mod_to_equations; lia.
Qed.

Lemma land_63 n : Z.land n 63 = n mod 64.
Proof. change 63 with (Z.ones 6). by rewrite Z.land_ones by lia. Qed.

(** What the first part of an update leaves: nothing in the buffer, or no data. *)
Definition settled (ctx : md5_ctx) (m data : list Z) (pos length : Z) : Prop :=
  md5_absorbed ctx (m ++ take (Z.to_nat pos) data) /\ 0 <= pos /\ 0 <= length /\ pos + length = zlen data /\
  (md_buflen ctx = 0 \/ length = 0).

Lemma update_buffered_spec ctx m data : md5_absorbed ctx m -> Forall byte data -> zlen data < 2 ^ 32 ->
  exists ctx' pos len, update_buffered big ctx (zlen data) data = Done (ctx', pos, len) /\ settled ctx' m data pos len.
Proof.
  intros (full & buf & -> & Hh & Hn & H64) Hd H32. pose proof (zlen_nonneg data). pose proof (zlen_nonneg buf). unfold update_buffered. rewrite Hn.
  destruct (Z.eqb_spec (zlen buf) 0) as [E|E]; cbn [negb].
  { exists ctx, 0, (zlen data). split; [done|]. split; [|split_and!; (done || lia)].
    rewrite take_0, app_nil_r. exists full, buf. auto. }
  rewrite u64_small by (unfold zlen in *; lia). set (add := if _ <? _ then _ else _).
  assert (Ha : 0 <= add <= zlen data /\ zlen buf + add <= 128 /\ (add = zlen data \/ zlen buf + add = 128))
    by (unfold add; destruct (Z.ltb_spec (zlen data) (128 - zlen buf)); unfold zlen in *; lia).
  clearbody add. rewrite memcpy_from_ok by lia. cbn [mbind outcome_bind]. rewrite drop_0. set (bs := take (Z.to_nat add) data).
  assert (Hbs : zlen bs = add) by (unfold bs, zlen in *; rewrite length_take; lia).
  destruct (fill_held ctx full buf bs Hh) as (c1 & -> & Hh1 & Hb1); [by apply Forall_take | unfold zlen in *; lia |]. cbn [mbind outcome_bind].
  rewrite (u32_small (zlen buf + add)) by lia. cbn [md_buflen set_buflen]. apply (held_buflen _ _ _ (zlen buf + add)) in Hh1.
  set (c2 := set_buflen c1 (zlen buf + add)) in *. assert (Hc2 : md_buflen c2 = zlen buf + add) by done. clearbody c2.
  assert (Hl2 : zlen (buf ++ bs) = zlen buf + add) by (rewrite zlen_app; lia).
  destruct (Z.ltb_spec 64 (zlen buf + add)) as [Hgt|Hle].
  - rewrite down64_spec by lia. set (T := zlen buf + add) in *. set (q := T - T mod 64).
    assert (Hq : (q = 64 \/ q = 128) /\ T mod 64 = T - q /\ q <= T < q + 64) by (unfold q; clear -Hgt Ha; Z.div_mod_to_equations; lia).
    clearbody q. destruct Hq as (Hq & Hm & HT). set (a := take (Z.to_nat q) (buf ++ bs)). set (b := drop (Z.to_nat q) (buf ++ bs)).
    assert (Hab : buf ++ bs = a ++ b) by (symmetry; apply take_drop).
    assert (Hza : zlen a = q) by (unfold a, zlen in *; rewrite length_take; lia).
    assert (Hzb : zlen b = T - q) by (unfold b, zlen in *; rewrite length_drop; lia).
    rewrite Hab in Hh1. destruct (process_buffer_held c2 full a b (Z.to_nat (q / 64))) as (c3 & E3 & Hh3 & Hb3); 
      [done | unfold zlen in Hza; clear -Hza Hq; destruct Hq as [-> | ->]; [change (64 / 64) with 1 | change (128 / 64) with 2]; lia |].
    rewrite Hza in E3. rewrite E3. cbn [mbind outcome_bind]. rewrite Hb3, Hc2, land_63, Hm. cbn [md_buflen set_buflen].
    apply (held_buflen _ _ _ (T - q)) in Hh3. destruct (move_down_held _ _ _ _ Hh3) as (c4 & E4 & Hh4 & Hb4).
    rewrite Hza, Hzb in E4. rewrite E4. cbn [mbind outcome_bind]. rewrite u32_small by lia.
    exists c4, add, (zlen data - add). split; [done|]. split.
    + exists (full ++ a), b. fold bs. rewrite <- !app_assoc, <- Hab. split_and!; [done | done | rewrite Hb4; cbn; lia | unfold zlen in *; lia].
    + rewrite Hb4. cbn [md_buflen set_buflen]. lia.
  - cbn [mbind outcome_bind]. rewrite u32_small by lia. exists c2, add, (zlen data - add). split; [done|]. split; [|lia].
    exists full, (buf ++ bs). fold bs. rewrite <- app_assoc. split_and!; [done | done | lia | unfold zlen in *; lia].
Qed.

(** Nothing in the buffer: the message is a number of blocks. *)
Lemma absorbed_empty ctx m : md5_absorbed ctx m -> md_buflen ctx = 0 -> held ctx m [].
Proof.
  intros (full & buf & -> & Hh & Hn & _) H0. destruct buf; [by rewrite app_nil_r|]. rewrite Hn, zlen_cons in H0.
  pose proof (zlen_nonneg buf). lia.
Qed.

Lemma empty_absorbed ctx m old : held ctx m old -> md_buflen ctx = 0 -> md5_absorbed ctx m.
Proof.
  intros Hh H0. exists m, []. rewrite app_nil_r. split_and!; [done | | done | cbn; lia].
  destruct Hh as [[Hf _] Hk Hr Ht0 Ht1 (rest & Hb & Hl)]. split; try done. exists (md_buffer ctx). split; [done|].
  rewrite Hb, length_app, length_map. done.
Qed.

Lemma unaligned_spec m data : Forall byte data -> zlen data < 2 ^ 32 -> forall fuel ctx pos len,
  settled ctx m data pos len -> md_buflen ctx = 0 -> len <= Z.of_nat fuel ->
  exists ctx' pos' len', unaligned_loop big fuel ctx data pos len = Done (ctx', pos', len') /\ settled ctx' m data pos' len' /\ len' <= 64.
Proof.
  intros Hd H32. induction fuel as [|fuel IH]; intros ctx pos len Hs H0 Hf; cbn [unaligned_loop];
    destruct (Z.ltb_spec 64 len) as [Hlt|Hge]; try (eexists _, _, _; done || (split; [done | split; [done | lia]])); [lia|].
  destruct Hs as (Hab & Hp & Hl & Hpl & _). rewrite memcpy_from_ok by lia. cbn [mbind outcome_bind]. change (Z.to_nat 64) with 64%nat.
  set (b := take 64 (drop (Z.to_nat pos) data)).
  assert (Hb : length b = 64%nat) by (unfold b, zlen in *; rewrite length_take, length_drop; lia).
  pose proof (absorbed_empty _ _ Hab H0) as Hh.
  destruct (refill_held ctx _ _ b Hh) as (c1 & -> & Hh1 & Hb1); [by apply Forall_take, Forall_drop | lia |]. cbn [mbind outcome_bind].
  destruct (process_buffer_held c1 (m ++ take (Z.to_nat pos) data) b [] 1) as (c2 & E2 & Hh2 & Hb2); [by rewrite app_nil_r | lia |].
  assert (Hz : zlen b = 64) by (unfold zlen; lia). rewrite Hz in E2. rewrite E2. cbn [mbind outcome_bind].
  rewrite u32_small by lia. apply IH; [|congruence | lia]. rewrite <- app_assoc in Hh2.
  assert (Et : take (Z.to_nat pos) data ++ b = take (Z.to_nat (pos + 64)) data)
    by (unfold b; rewrite take_take_drop; f_equal; lia). rewrite Et in Hh2.
  split_and!; [|lia..|left; congruence]. apply (empty_absorbed c2 _ _ Hh2). congruence.
Qed.

Lemma update_blocks_spec ctx m addr data pos len : Forall byte data -> zlen data < 2 ^ 32 -> settled ctx m data pos len ->
  exists ctx' pos' len', update_blocks big ctx addr data pos len = Done (ctx', pos', len') /\ settled ctx' m data pos' len' /\ len' <= 64.
Proof.
  intros Hd H32 Hs. unfold update_blocks. destruct (Z.leb_spec 64 len) as [Hge|Hlt]; [|exists ctx, pos, len; split_and!; (done || lia)].
  assert (H0 : md_buflen ctx = 0) by (destruct Hs as (_ & _ & _ & _ & [H|H]); [done | lia]).
  destruct (negb _); [apply unaligned_spec; (done || lia)|]. destruct Hs as (Hab & Hp & Hl & Hpl & _).
  rewrite down64_spec, land_63 by lia. set (q := len - len mod 64).
  assert (Hq : 0 <= q <= len /\ 64 * (q / 64) = q /\ len mod 64 = len - q /\ len - q < 64) by (unfold q; clear -Hge; Z.div_mod_to_equations; lia).
  clearbody q. rewrite memcpy_from_ok by lia. cbn [mbind outcome_bind]. set (b := take (Z.to_nat q) (drop (Z.to_nat pos) data)).
  assert (Hb : zlen b = q) by (unfold b, zlen in *; rewrite length_take, length_drop; lia).
  destruct (process_held ctx _ _ b (Z.to_nat (q / 64)) (absorbed_empty _ _ Hab H0)) as (c1 & E1 & Hh1 & Hb1);
    [by apply Forall_take, Forall_drop | unfold zlen in Hb; lia | lia |]. rewrite Hb in E1. rewrite E1. cbn [mbind outcome_bind].
  exists c1, (pos + q), (len mod 64). split; [done|]. rewrite <- app_assoc in Hh1.
  assert (Et : take (Z.to_nat pos) data ++ b = take (Z.to_nat (pos + q)) data)
    by (unfold b; rewrite take_take_drop; f_equal; lia). rewrite Et in Hh1.
  split; [|lia]. split_and!; [|lia..|left; congruence]. apply (empty_absorbed c1 _ _ Hh1). congruence.
Qed.

Lemma update_rest_spec ctx m data pos len : Forall byte data -> settled ctx m data pos len -> len <= 64 ->
  exists ctx', update_rest big ctx data pos len = Done ctx' /\ md5_absorbed ctx' (m ++ data).
Proof.
  intros Hd (Hab & Hp & Hl & Hpl & H0) H64. unfold update_rest. destruct (Z.ltb_spec 0 len) as [Hpos|Hz].
  2: { exists ctx. split; [done|]. rewrite take_ge in Hab by (unfold zlen in *; lia). done. }
  destruct H0 as [H0|]; [|lia]. rewrite H0, memcpy_from_ok by lia. cbn [mbind outcome_bind].
  set (b := take (Z.to_nat len) (drop (Z.to_nat pos) data)).
  assert (Hb : zlen b = len) by (unfold b, zlen in *; rewrite length_take, length_drop; lia).
  assert (Et : take (Z.to_nat pos) data ++ b = data) by (unfold b; rewrite take_take_drop, take_ge; [done | unfold zlen in *; lia]).
  destruct (refill_held ctx _ _ b (absorbed_empty _ _ Hab H0)) as (c1 & -> & Hh1 & Hb1);
    [by apply Forall_take, Forall_drop | unfold zlen in *; lia |]. cbn [mbind outcome_bind]. rewrite Z.add_0_l.
  destruct (Z.leb_spec 64 len) as [Hge|Hlt].
  - assert (Hl64 : len = 64) by lia. clearbody b. rewrite Hl64 in Hb |- *.
    destruct (process_buffer_held c1 (m ++ take (Z.to_nat pos) data) b [] 1) as (c2 & E2 & Hh2 & Hb2); [by rewrite app_nil_r | unfold zlen in Hb; lia |].
    rewrite Hb in E2. rewrite E2. cbn [mbind outcome_bind].
    destruct (move_down_held c2 _ b [] Hh2) as (c3 & E3 & Hh3 & Hb3). rewrite Hb in E3.
    change (zlen (@nil Z)) with (64 - 64) in E3. rewrite E3. cbn [mbind outcome_bind]. eexists. split; [done|].
    apply (held_buflen _ _ _ (u32 (64 - 64))) in Hh3. rewrite <- app_assoc, Et in Hh3. by apply (empty_absorbed _ _ _ Hh3).
  - cbn [mbind outcome_bind]. eexists. split; [done|]. exists (m ++ take (Z.to_nat pos) data), b.
    rewrite <- app_assoc, Et. split_and!; [done | by apply held_buflen | cbn; rewrite u32_small; lia | unfold zlen in *; lia].
Qed.

Lemma md5_update_absorbs ctx m addr data : md5_absorbed ctx m -> Forall byte data -> zlen data < 2 ^ 32 ->
  exists ctx', md5_update big ctx (zlen data) addr data = Done ctx' /\ md5_absorbed ctx' (m ++ data).
Proof.
  intros Hc Hd H32. unfold md5_update. destruct (update_buffered_spec ctx m data Hc Hd H32) as (c1 & p1 & l1 & -> & H1).
  cbn [mbind outcome_bind]. destruct (update_blocks_spec c1 m addr data p1 l1 Hd H32 H1) as (c2 & p2 & l2 & -> & H2 & H64).
  cbn [mbind outcome_bind]. by apply (update_rest_spec c2 m data p2 l2).
Qed.

Lemma md5_updates_absorb pieces : forall ctx m, md5_absorbed ctx m ->
  Forall (fun p => Forall byte p.2 /\ zlen p.2 < 2 ^ 32) pieces ->
  exists ctx', md5_updates big ctx pieces = Done ctx' /\ md5_absorbed ctx' (m ++ concat (map snd pieces)).
Proof.
  induction pieces as [|[addr p] pieces IH]; intros ctx m Hc Hp; cbn [md5_updates map concat snd]; [rewrite app_nil_r; eauto|].
  apply Forall_cons in Hp as [[Hb Hl] Hp]. destruct (md5_update_absorbs ctx m addr p Hc Hb Hl) as (ctx' & -> & Hc'). cbn [mbind outcome_bind].
  rewrite app_assoc. by apply IH.
Qed.

(** * The end of a message *)

Lemma le_bytes_bytes n : forall x, Forall byte (le_bytes n x).
Proof. induction n as [|n IH]; intros x; cbn; constructor; [apply Z.mod_pos_bound; lia | apply IH]. Qed.

Lemma le_bytes_value bs : Forall byte bs -> le_bytes (length bs) (le_value bs) = bs.
Proof.
  induction 1 as [|b bs Hb _ IH]; [done|]. cbn [length le_bytes le_value]. unfold byte in Hb. f_equal.
  - rewrite Z.mul_comm, Z.mod_add, Z.mod_small by lia. done.
  - rewrite Z.mul_comm, Z.div_add, Z.div_small by lia. done.
Qed.

Lemma le_bytes_add a b : forall x y, 0 <= x < 256 ^ Z.of_nat a -> le_bytes (a + b) (x + 256 ^ Z.of_nat a * y) = le_bytes a x ++ le_bytes b y.
Proof.
  induction a as [|a IH]; intros x y Hx.
  { change (256 ^ Z.of_nat 0) with 1 in *. replace (x + 1 * y) with y by lia. done. }
  rewrite Nat2Z.inj_succ, Z.pow_succ_r in * by lia. cbn [Nat.add le_bytes app].
  replace (x + 256 * 256 ^ Z.of_nat a * y) with (x + 256 ^ Z.of_nat a * y * 256) by lia. rewrite Z.mod_add, Z.div_add by lia.
  f_equal. apply IH. split; [apply Z.div_pos; lia | apply Z.div_lt_upper_bound; lia].
Qed.

(** The octets of a word in memory, the lowest first on every host. *)
Lemma store_swap w : 0 <= w < 2 ^ 32 -> store32 big (SWAP big w) = le_bytes 4 w.
Proof.
  intros Hw. unfold store32, SWAP. destruct big; [|done]. pose proof (le_bytes_bytes 4 w) as Hb.
  rewrite <- (le_value_bytes 4 w) at 1 by (change (256 ^ Z.of_nat 4) with (2 ^ 32); lia).
  pose proof (length_le_bytes 4 w) as Hl. destruct (le_bytes 4 w) as [|a [|b [|c [|d [|]]]]]; try done.
  repeat (apply Forall_cons in Hb as [? Hb]). rewrite le_value_octets, swap_word_octets, <- le_value_octets by done.
  pose proof (le_bytes_value [d; c; b; a]) as E. cbn [length] in E. rewrite E by (by rewrite !Forall_cons, Forall_nil). done.
Qed.

(** The length in bits, from the length in two words. *)
Lemma length_words n : 0 <= n -> let t0 := n mod 2 ^ 32 in let t1 := n / 2 ^ 32 mod 2 ^ 32 in
  le_bytes 4 (u32 (Z.shiftl t0 3)) ++ le_bytes 4 (Z.lor (u32 (Z.shiftl t1 3)) (Z.shiftr t0 29)) = le_bytes 8 ((8 * n) mod 2 ^ 64) /\
  0 <= Z.lor (u32 (Z.shiftl t1 3)) (Z.shiftr t0 29) < 2 ^ 32.
Proof.
  intros Hn t0 t1. unfold t0, t1, u32.
  rewrite Z.shiftr_div_pow2, !Z.shiftl_mul_pow2 by lia. change (2 ^ 32) with 4294967296. change (2 ^ 3) with 8. change (2 ^ 29) with 536870912.
  set (lo := n mod 4294967296 * 8 mod 4294967296). set (h := n / 4294967296 mod 4294967296 * 8 mod 4294967296).
  assert (Hlo : 0 <= lo < 4294967296) by (apply Z.mod_pos_bound; lia).
  set (t := n mod 4294967296 / 536870912). assert (Ht : 0 <= t < 8) by (unfold t; Z.div_mod_to_equations; lia).
  assert (Hh : h = 8 * (h / 8) /\ 0 <= h < 4294967296) by (unfold h; clear; Z.div_mod_to_equations; lia).
  assert (El : Z.lor h t = t + h).
  { destruct Hh as [Hh _]. rewrite Hh, Z.lor_comm. replace (8 * (h / 8)) with (Z.shiftl (h / 8) 3) at 1 by (rewrite Z.shiftl_mul_pow2; lia).
    rewrite lor_add by lia. done. }
  assert (Hth : 0 <= t + h < 4294967296) by (clear -Hh Ht; destruct Hh; Z.div_mod_to_equations; lia).
  rewrite El. assert (E : (8 * n) mod 2 ^ 64 = lo + 4294967296 * (t + h)).
  { change (2 ^ 64) with (4294967296 * 4294967296). rewrite Z.rem_mul_r by lia. f_equal; [|f_equal].
    - unfold lo. by rewrite Zmult_mod_idemp_l, Z.mul_comm.
    - assert (E8 : 8 * n / 4294967296 = t + 8 * (n / 4294967296)) by (unfold t; clear -Hn; Z.div_mod_to_equations; lia).
      rewrite E8. assert (Eh : h = 8 * (n / 4294967296) mod 4294967296) by (unfold h; by rewrite Zmult_mod_idemp_l, Z.mul_comm).
      rewrite Zplus_mod, <- Eh, (Z.mod_small t), Z.mod_small by lia. done. }
  split; [|done].
  rewrite E. symmetry. exact (le_bytes_add 4 4 lo (t + h) Hlo).
Qed.

Definition words_ok (r : md5_regs) : Prop :=
  0 <= md_a r < 2 ^ 32 /\ 0 <= md_b r < 2 ^ 32 /\ 0 <= md_c r < 2 ^ 32 /\ 0 <= md_d r < 2 ^ 32.

Lemma digested_words m : words_ok (md5_digested m).
Proof.
  assert (Hc : forall h b, words_ok (rfc_compress h b)) by (intros; split_and!; apply Z.mod_pos_bound; lia).
  assert (Hn : forall n h m, words_ok h -> words_ok (absorb_n rfc_compress n h m)).
  { induction n as [|n IH]; intros h l H; cbn [absorb_n]; [done|]. apply IH, Hc. }
  apply Hn. split_and!; done.
Qed.

Lemma padding_fillbuf (m buf : list Z) k : length m = (64 * k + length buf)%nat -> (length buf <= 64)%nat ->
  let pad := if 56 <=? zlen buf then 64 + 56 - zlen buf else 56 - zlen buf in
  memcpy_from fillbuf 0 pad = Done (padding (length m)) /\ zlen (padding (length m)) = pad /\
  exists j, (length buf + length (padding (length m)) + 8 = 64 * j)%nat /\ (j <= 2)%nat.
Proof.
  intros Hm Hb pad. set (z := Z.to_nat ((55 - Z.of_nat (length m)) mod 64)).
  assert (Hz : Z.of_nat z = pad - 1 /\ (z < 64)%nat /\ 1 <= pad <= 64 /\ (zlen buf + pad = 56 \/ zlen buf + pad = 120)).
  { unfold z, pad, zlen. rewrite Hm. destruct (Z.leb_spec 56 (Z.of_nat (length buf))); Z.div_mod_to_equations; lia. }
  assert (Hl : length (padding (length m)) = S z) by (unfold padding; cbn [length]; by rewrite length_replicate).
  split_and!; [| unfold zlen in *; lia |].
  2: { rewrite Hl. clear -Hz. unfold zlen in Hz. destruct Hz as (? & ? & ? & [E | E]); [exists 1%nat | exists 2%nat]; lia. }
  rewrite memcpy_from_ok by (lia || (change (zlen fillbuf) with 64; lia)). rewrite drop_0. f_equal. unfold fillbuf, padding. fold z.
  replace (Z.to_nat pad) with (S z) by lia. cbn [take firstn]. f_equal. rewrite take_replicate. f_equal. lia.
Qed.

Lemma md5_digest_absorbed ctx m : md5_absorbed ctx m -> exists ctx', md5_digest big ctx = Done (ctx', md5 m).
Proof.
  intros (full & buf & -> & Hh & Hn & H64). pose proof (zlen_nonneg full). pose proof (zlen_nonneg buf). unfold md5_digest.
  rewrite Hn, (hd_total0 _ _ _ Hh), (hd_total1 _ _ _ Hh), add_total_spec, <- zlen_app by (unfold zlen in *; lia). set (m := full ++ buf).
  destruct (hd_blocks _ _ _ Hh) as [k Hk]. destruct (padding_fillbuf m buf k) as (Ef & Hp & j & Hj & Hj2); [unfold m; rewrite length_app; lia | done |].
  set (pad := if 56 <=? zlen buf then _ else _) in Ef, Hp.
  assert (Epad : (if 56 <=? zlen buf then u32 (64 + 56 - zlen buf) else u32 (56 - zlen buf)) = pad)
    by (unfold pad; destruct (Z.leb_spec 56 (zlen buf)); apply u32_small; unfold zlen in *; lia).
  rewrite Epad, Ef. cbn [mbind outcome_bind]. destruct (length_words (zlen m) (zlen_nonneg m)) as [El Hhi].
  set (lo := u32 (Z.shiftl (zlen m mod 2 ^ 32) 3)) in *. set (hi := Z.lor _ _) in *.
  rewrite (store_swap lo), (store_swap hi) by (done || (apply Z.mod_pos_bound; lia)).
  set (p := padding (length m)) in *. set (ctx0 := mkMd5 _ _ _ _ _).
  destruct (hd_buffer _ _ _ Hh) as (rest & Hbuf & Hl). destruct (hd_bytes _ _ _ Hh) as [_ Hbb].
  assert (Hpb : Forall byte p) by (unfold p, padding; constructor; [done | by apply Forall_replicate]).
  assert (Hz : zlen (buf ++ p) = zlen buf + pad /\ zlen ((buf ++ p) ++ le_bytes 4 lo) = zlen buf + pad + 4)
    by (split; rewrite !zlen_app, ?Hp; [done|]; unfold zlen; rewrite length_le_bytes; lia).
  destruct (fill_buffer ctx0 buf p rest Hbuf) as (r1 & E1 & L1); [lia|]. rewrite E1. cbn [mbind outcome_bind].
  destruct (fill_buffer (set_buffer ctx0 (map Some (buf ++ p) ++ r1)) (buf ++ p) (le_bytes 4 lo) r1) as (r2 & E2 & L2);
    [done | rewrite length_le_bytes; lia |]. rewrite (proj1 Hz) in E2. rewrite E2. cbn [mbind outcome_bind]. rewrite set_buffer_twice.
  destruct (fill_buffer (set_buffer ctx0 (map Some ((buf ++ p) ++ le_bytes 4 lo) ++ r2)) ((buf ++ p) ++ le_bytes 4 lo) (le_bytes 4 hi) r2)
    as (r3 & E3 & L3); [done | rewrite !length_le_bytes in *; lia |]. rewrite (proj2 Hz) in E3. rewrite E3. cbn [mbind outcome_bind]. rewrite set_buffer_twice.
  set (all := ((buf ++ p) ++ le_bytes 4 lo) ++ le_bytes 4 hi) in *.
  assert (Hall : length all = (64 * j)%nat) by (unfold all; rewrite !length_app, !length_le_bytes; lia).
  unfold process_buffer, filled. cbn [md_buffer set_buffer]. rewrite drop_0.
  replace (zlen buf + pad + 8) with (zlen all) by (unfold zlen in *; lia). 
  replace (Z.to_nat (zlen all)) with (length all) by (unfold zlen; lia). rewrite read_cells_n_written.
  cbn [mbind outcome_bind]. destruct (process_regs (set_buffer ctx0 (map Some all ++ r3)) full all k j) as (c & Ec & Hr & _);
    [apply Hh | unfold all; rewrite !Forall_app; auto using le_bytes_bytes | done | done |].
  rewrite Ec. cbn [mbind outcome_bind]. exists c. unfold md5_read_ctx. rewrite Hr. destruct (digested_words (full ++ all)) as (? & ? & ? & ?).
  rewrite !store_swap by done. unfold md5. fold p. rewrite <- El.
  assert (Em : full ++ all = m ++ p ++ le_bytes 4 lo ++ le_bytes 4 hi) by (unfold m, all; by rewrite <- !app_assoc).
  by rewrite Em.
Qed.
End Pieces.

(** C24: Whatever the order of octets of the host and the addresses of the data, a
    message that is given to [md5_update] in any pieces has the digest RFC 1321
    defines for the whole message. *)
Theorem md5_correct big pieces : Forall (fun p => Forall byte p.2 /\ zlen p.2 < 2 ^ 32) pieces ->
  md5_of big pieces = Done (md5 (concat (map snd pieces))).
Proof.
  intros Hp. unfold md5_of. destruct (md5_updates_absorb big pieces (md5_init fresh_md5) []) as (ctx & -> & Hc);
    [by apply md5_init_absorbed | done |]. cbn [mbind outcome_bind app] in *.
  by destruct (md5_digest_absorbed big ctx _ Hc) as [ctx' ->].
Qed.

Lemma md5_correct_witness :
  md5_of false [(1, str "message"); (3, str " digest")] = Done (md5 (str "message digest")) /\
  hex_of_bytes false (md5 (str "message digest")) = str "f96b697d7cb7938d525a2f31aaf161d0".
Proof.
  split; [|vm_compute; reflexivity]. apply (md5_correct false [(1, str "message"); (3, str " digest")]).
  repeat constructor; vm_compute; congruence.
Defined.
