(* ===== verification/DigestHashes.v ===== *)
(** The digests of the program as the hash functions of the rest of the
    development: a build without Nettle computes MD5, SHA-1 and the double width
    SHA-1 with its own code. *)

From Stdlib Require Import String.
From S2P Require Import Prelude CLib OpenPGP Streams Digest KeyId Sha1 Sha1Facts Md5 Md5Facts Sha1x.

Lemma md5_size m : zlen (md5 m) = 16.
Proof. unfold md5, zlen. rewrite !length_app, !length_le_bytes. done. Qed.

Lemma md5_bytes m : Forall byte (md5 m).
Proof. unfold md5. rewrite !Forall_app. auto using le_bytes_bytes. Qed.

Lemma sha1x_size m : zlen (sha1x m) = 40.
Proof. exact (sha1x_halves_size (evens m) (odds m)). Qed.

Lemma sha1x_bytes m : Forall byte (sha1x m).
Proof. exact (sha1x_halves_bytes (evens m) (odds m)). Qed.

Definition builtin_hash {HF : Hashes} (algo : Z) (m : list Z) : list Z :=
  if algo =? OPENPGP_HASH_MD5 then md5 m
  else if algo =? OPENPGP_HASH_SHA1 then sha1 m
  else if algo =? OPENPGP_HASH_SHA1X then sha1x m
  else hash algo m.

(** The other algorithms are those of [HF]. *)
Lemma builtin_size {HF : Hashes} algo m : zlen (builtin_hash algo m) = digest_size algo.
Proof.
  unfold builtin_hash. destruct (Z.eqb_spec algo OPENPGP_HASH_MD5) as [->|]; [apply md5_size|].
  destruct (Z.eqb_spec algo OPENPGP_HASH_SHA1) as [->|]; [unfold zlen; by rewrite sha1_size|].
  destruct (Z.eqb_spec algo OPENPGP_HASH_SHA1X) as [->|]; [apply sha1x_size | apply hash_size].
Qed.

Lemma builtin_bytes {HF : Hashes} algo m : Forall byte (builtin_hash algo m).
Proof. unfold builtin_hash. repeat case_match; [apply md5_bytes | apply sha1_bytes | apply sha1x_bytes | apply hash_bytes]. Qed.

Lemma builtin_sha1 {HF : Hashes} m : builtin_hash OPENPGP_HASH_SHA1 m = sha1 m.
Proof. done. Qed.

Definition builtin_hashes (HF : Hashes) : Hashes := {|
  hash := builtin_hash;
  hash_size := builtin_size;
  hash_bytes := builtin_bytes
|}.

(** The fingerprint of a version 4 key is what sha1.c computes of the marker, the
    two octets of the length and the packet, given to it in four pieces. *)
Theorem fingerprint_v4_computed big (HF : Hashes) {BC : BuildConfig} p :
  wf_packet p -> (pkt_data p).[0] = Done 4 -> pkt_length p < 2 ^ 32 - 64 ->
  exists fp, get_fingerprint (HF := builtin_hashes HF) p = Done (ONAK_E_OK, mkFingerprint 20 fp) /\
    sha1_of big [[0x99]; [u8 (Z.shiftr (pkt_length p) 8)]; [u8 (Z.land (pkt_length p) 0xFF)]; pkt_data p] = Done fp.
Proof.
  intros [Hl Hb] H4 H32. unfold get_fingerprint. rewrite H4. cbn [mbind outcome_bind Z.eqb Pos.eqb orb]. pose proof (zlen_nonneg (pkt_data p)).
  rewrite memcpy_from_ok by lia. cbn [mbind outcome_bind]. rewrite drop_0, take_ge by (unfold zlen in *; lia). eexists. split; [done|].
  cbn [hash builtin_hashes]. rewrite builtin_sha1, sha1_pieces; [cbn [concat app]; by rewrite app_nil_r|].
  assert (Hu : forall x, Forall byte [u8 x] /\ zlen [u8 x] < 2 ^ 32 - 64) by (intros x; split; [apply Forall_singleton, u8_byte | done]).
  apply Forall_cons; split; [exact (Hu 0x99)|]. apply Forall_cons; split; [apply Hu|]. apply Forall_cons; split; [apply Hu|].
  apply Forall_singleton. split; [done | lia].
Qed.

(** * The key of the tests *)

(** The public key packet of keys/noodles.key. *)
Definition noodles_packet : openpgp_packet := mkPacket OPENPGP_PACKET_PUBLICKEY false 525
  [ 4; 72; 69; 179; 139; 1; 16; 0; 201; 90; 46; 167; 141; 218; 196; 254; 212; 233; 85; 18; 85; 140; 151; 20; 90; 177; 212; 180; 233; 217;
    145; 9; 33; 94; 207; 231; 111; 213; 21; 99; 211; 145; 59; 102; 142; 242; 97; 237; 96; 47; 157; 176; 241; 244; 85; 171; 211; 231; 65; 24;
    143; 160; 236; 72; 116; 130; 116; 137; 39; 151; 41; 152; 249; 228; 55; 34; 28; 194; 69; 76; 2; 106; 189; 158; 89; 14; 132; 218; 255; 228;
    67; 102; 175; 38; 241; 158; 128; 123; 67; 116; 94; 225; 140; 68; 137; 240; 97; 170; 117; 187; 33; 212; 17; 225; 71; 63; 118; 185; 203; 184;
    105; 237; 209; 136; 25; 81; 29; 73; 218; 45; 53; 226; 108; 226; 88; 21; 247; 88; 93; 236; 82; 200; 77; 156; 18; 100; 12; 94; 113; 143;
    14; 244; 77; 104; 187; 39; 88; 110; 17; 39; 97; 149; 236; 124; 236; 218; 149; 161; 227; 188; 141; 64; 68; 80; 187; 204; 21; 188; 75; 3;
    123; 61; 203; 60; 19; 55; 14; 118; 246; 78; 180; 82; 111; 35; 191; 149; 141; 123; 119; 1; 102; 26; 108; 172; 14; 232; 82; 73; 141; 179;
    25; 252; 31; 13; 134; 57; 105; 236; 220; 34; 43; 194; 171; 252; 14; 251; 141; 41; 221; 88; 144; 126; 200; 75; 207; 79; 1; 251; 203; 54;
    57; 166; 1; 48; 51; 62; 166; 74; 96; 166; 43; 76; 5; 102; 177; 4; 138; 182; 229; 242; 104; 75; 16; 69; 44; 53; 161; 176; 177; 153;
    96; 74; 7; 119; 166; 80; 90; 87; 120; 150; 111; 189; 200; 168; 37; 185; 206; 48; 213; 146; 211; 122; 248; 173; 105; 114; 234; 253; 188; 186;
    48; 232; 245; 112; 100; 206; 217; 199; 232; 39; 230; 234; 9; 228; 2; 19; 150; 68; 75; 242; 214; 100; 126; 213; 249; 226; 74; 77; 126; 88;
    152; 6; 214; 21; 181; 58; 126; 220; 61; 1; 228; 143; 17; 0; 94; 69; 6; 195; 244; 3; 58; 146; 172; 237; 194; 121; 156; 193; 19; 112;
    243; 119; 92; 224; 59; 196; 72; 50; 37; 144; 215; 106; 199; 110; 44; 114; 40; 25; 100; 108; 92; 108; 171; 204; 118; 74; 235; 45; 94; 201;
    99; 126; 219; 215; 141; 212; 113; 70; 140; 202; 214; 29; 253; 0; 204; 0; 96; 197; 22; 74; 132; 221; 206; 32; 254; 86; 21; 159; 178; 236;
    189; 31; 236; 88; 201; 210; 42; 49; 204; 47; 57; 67; 77; 63; 132; 182; 174; 248; 98; 215; 11; 85; 223; 208; 128; 70; 236; 20; 48; 118;
    169; 17; 77; 243; 112; 54; 204; 121; 6; 50; 205; 72; 184; 227; 96; 101; 165; 43; 116; 140; 171; 108; 107; 16; 4; 37; 34; 153; 144; 117;
    227; 234; 7; 129; 45; 16; 238; 176; 184; 142; 246; 235; 205; 206; 161; 51; 39; 242; 230; 113; 212; 240; 173; 51; 76; 134; 133; 66; 76; 221;
    115; 105; 133; 95; 191; 231; 141; 131; 78; 135; 0; 17; 1; 0; 1 ].

Lemma noodles_fingerprint : exists fp, get_fingerprint (HF := builtin_hashes toy_hashes) (BC := full_build) noodles_packet = Done (ONAK_E_OK, fp) /\
  hex_of_bytes true (fp_bytes fp) = str "0E3A94C3E83002DAB88CCA1694FA372B2DA8B985" /\
  get_packetid (HF := builtin_hashes toy_hashes) (BC := full_build) noodles_packet = Done (ONAK_E_OK, Some 0x94FA372B2DA8B985).
Proof. eexists. split; [vm_compute; reflexivity|]. split; vm_compute; reflexivity. Qed.

Lemma fingerprint_v4_computed_witness : exists fp,
  get_fingerprint (HF := builtin_hashes toy_hashes) (BC := full_build) noodles_packet = Done (ONAK_E_OK, mkFingerprint 20 fp) /\
  sha1_of false [[0x99]; [u8 (Z.shiftr 525 8)]; [u8 (Z.land 525 0xFF)]; pkt_data noodles_packet] = Done fp.
Proof.
  apply (fingerprint_v4_computed false toy_hashes (BC := full_build) noodles_packet).
  - apply (bool_decide_unpack _). vm_compute. exact I.
  - reflexivity.
  - reflexivity.
Defined.
