(* ===== verification/Keyring.v ===== *)
(** Keys from a keyring file (keydb_keyring.c): an index over the public keys in
    a file that is mapped into memory.

    A [size_t] is a [Z] below 2^64.  The entry of a key holds where its packets
    begin in the file and how many octets they take; an entry is made when the
    next public key has been found, so that its octets lie inside the file. *)

From S2P Require Import Prelude CLib OpenPGP Streams KeyId Packets Keys KeyBuffer KeyArray.

Record keyring_entry : Type := mkEntry { ke_fp : openpgp_fingerprint; ke_start : Z; ke_len : Z }.

(** [keys] has [space] elements, the first [count] of them in use. *)
Record onak_keyring_dbctx : Type := mkKeyring { kr_file : option (list Z); kr_space : Z; kr_keys : list keyring_entry }.

Definition kr_count (ctx : onak_keyring_dbctx) : Z := zlen (kr_keys ctx).

Section Keyring.
Context {HF : Hashes} {BC : BuildConfig} (malloc_ok : Z -> bool).

(** * Fetching *)

Definition keyring_fetch_key_idx (ctx : onak_keyring_dbctx) (index : Z) (publickey : list openpgp_publickey)
    : outcome (list openpgp_publickey * Z) :=
  if kr_count ctx <? index then Done (publickey, 0)
  else
    match kr_file ctx, kr_keys ctx !! Z.to_nat index with
    | Some file, Some e =>
        octets ← memcpy_from file (ke_start e) (ke_len e);
        publickey ← keys_of_buffer malloc_ok octets publickey;
        Done (publickey, 1)
    | _, _ => Fault OutOfBounds
    end.

(** [for (i = 0; i < count; i++) if (... == 0) break;] *)
Fixpoint find_fp (keys : list keyring_entry) (fp : openpgp_fingerprint) (i : Z) : Z :=
  match keys with
  | [] => i
  | e :: keys => if fingerprint_cmp fp (ke_fp e) =? 0 then i else find_fp keys fp (i + 1)
  end.

Definition keyring_fetch_key (ctx : onak_keyring_dbctx) (fp : openpgp_fingerprint) (publickey : list openpgp_publickey)
    : outcome (list openpgp_publickey * Z) :=
  let i := find_fp (kr_keys ctx) fp 0 in
  if i <? kr_count ctx then keyring_fetch_key_idx ctx i publickey else Done (publickey, 0).

Fixpoint fetch_id_loop (ctx : onak_keyring_dbctx) (keys : list keyring_entry) (i keyid count : Z) (publickey : list openpgp_publickey)
    : outcome (list openpgp_publickey * Z) :=
  match keys with
  | [] => Done (publickey, count)
  | e :: keys =>
      id ← fingerprint2keyid (ke_fp e);
      if id =? keyid then
        '(publickey, r) ← keyring_fetch_key_idx ctx i publickey;
        fetch_id_loop ctx keys (i + 1) keyid (if r =? 0 then count else count + 1) publickey
      else fetch_id_loop ctx keys (i + 1) keyid count publickey
  end.

Definition keyring_fetch_key_id (ctx : onak_keyring_dbctx) (keyid : Z) (publickey : list openpgp_publickey)
    : outcome (list openpgp_publickey * Z) := fetch_id_loop ctx (kr_keys ctx) 0 keyid 0 publickey.

(** The keys [iterfunc] is called with, one after the other, and their number. *)
Fixpoint iterate_loop (ctx : onak_keyring_dbctx) (n : nat) (i count : Z) (seen : list (list openpgp_publickey))
    : outcome (list (list openpgp_publickey) * Z) :=
  match n with
  | O => Done (seen, count)
  | S n =>
      '(key, r) ← keyring_fetch_key_idx ctx i [];
      if r =? 0 then iterate_loop ctx n (i + 1) count seen
      else iterate_loop ctx n (i + 1) (count + 1) (seen ++ [key])
  end.

Definition keyring_iterate_keys (ctx : onak_keyring_dbctx) : outcome (list (list openpgp_publickey) * Z) :=
  iterate_loop ctx (length (kr_keys ctx)) 0 0 [].

(** What the backend does not support. *)
Definition keyring_store_key (ctx : onak_keyring_dbctx) (key : openpgp_publickey) (intrans update : bool) : onak_keyring_dbctx * Z := (ctx, 0).
Definition keyring_delete_key (ctx : onak_keyring_dbctx) (fp : openpgp_fingerprint) (intrans : bool) : onak_keyring_dbctx * Z := (ctx, 1).
Definition keyring_fetch_key_text (ctx : onak_keyring_dbctx) (search : list Z) (publickey : list openpgp_publickey) : list openpgp_publickey * Z := (publickey, 0).
Definition keyring_update_keys (ctx : onak_keyring_dbctx) (keys : list openpgp_publickey) : onak_keyring_dbctx * Z := (ctx, 0).

(** * The index *)

(** [n] octets from [o], the most significant first, in [size_t]. *)
Definition octets_at (file : list Z) (o : Z) (n : nat) : outcome Z := rd_be file o n 0.

(** The tag and the octets of the packet at [pos]; where the length is of a form
    that is not supported, [len] stays what it was or is taken for a length. *)
Definition packet_extent (file : list Z) (pos len : Z) : outcome (Z * Z) :=
  c ← file.[pos];
  if negb (Z.land c 0x40 =? 0) then
    l ← file.[pos + 1];
    n ←
      (if (191 <? l) && (l <? 224) then m ← file.[pos + 2]; Done (Z.shiftl (l - 192) 8 + m + 192 + 1)
       else if (223 <? l) && (l <? 255) then Done l
       else if l =? 255 then m ← octets_at file (pos + 2) 4; Done (m + 4)
       else Done l);
    Done (Z.land c 0x3F, n + 2)
  else
    let tag := Z.shiftr (Z.land c 0x3C) 2 in
    let t := Z.land c 3 in
    if t =? 0 then n ← octets_at file (pos + 1) 1; Done (tag, n + 2)
    else if t =? 1 then n ← octets_at file (pos + 1) 2; Done (tag, n + 3)
    else if t =? 2 then n ← octets_at file (pos + 1) 4; Done (tag, n + 5)
    else Done (tag, len).

(** An entry for the packets from [start]; [key] is the variable that receives
    the parsed key, [None] as long as it has no value. *)
Definition add_entry (ctx : onak_keyring_dbctx) (start totlen : Z) (key : option (list openpgp_publickey))
    : outcome onak_keyring_dbctx :=
  let space := if kr_count ctx =? kr_space ctx then u32 (kr_space ctx * 2) else kr_space ctx in
  let idx := kr_count ctx in
  if space <=? idx then Fault OutOfBounds
  else
    key ← (match key with Some key => Done key | None => Fault Uninitialised end);
    '(key, _) ← keyring_fetch_key_idx (mkKeyring (kr_file ctx) space (kr_keys ctx ++ [mkEntry (mkFingerprint 0 []) start totlen])) idx key;
    match key with
    | [] => Fault NullDeref
    | k :: _ => '(_, fp) ← get_fingerprint (pk_publickey k); Done (mkKeyring (kr_file ctx) space (kr_keys ctx ++ [mkEntry fp start totlen]))
    end.

(** [while (((length - pos) > 5) && (file[pos] & 0x80))] *)
Fixpoint keyring_loop (fuel : nat) (ctx : onak_keyring_dbctx) (file : list Z) (pos len start totlen : Z)
    (key : option (list openpgp_publickey)) : outcome onak_keyring_dbctx :=
  if 5 <? u64 (zlen file - pos) then
    c ← file.[pos];
    if negb (Z.land c 0x80 =? 0) then
      match fuel with
      | O => Fault OutOfFuel
      | S fuel =>
          '(tag, len) ← packet_extent file pos len;
          '(ctx, start, totlen, key) ←
            (if tag =? OPENPGP_PACKET_PUBLICKEY then
               '(ctx, key) ← (if 0 <? totlen then ctx ← add_entry ctx start totlen key; Done (ctx, Some []) else Done (ctx, key));
               Done (ctx, pos, 0, key)
             else Done (ctx, start, totlen, key));
          keyring_loop fuel ctx file (u64 (pos + len)) len start (u64 (totlen + len)) key
      end
    else Done ctx
  else Done ctx.

(** [key0] is what the variable [key] happens to hold. *)
Definition keyring_parse_keys (key0 : option (list openpgp_publickey)) (ctx : onak_keyring_dbctx) : outcome (onak_keyring_dbctx * Z) :=
  match kr_file ctx with
  | None => Done (ctx, 0)
  | Some file =>
      ctx ← keyring_loop (S (length file)) ctx file 0 0 0 0 key0;
      Done (ctx, i32 (kr_count ctx))
  end.

(** The file's contents, when it can be opened and mapped. *)
Definition keydb_keyring_init (key0 : option (list openpgp_publickey)) (file : option (list Z)) : outcome (option onak_keyring_dbctx) :=
  match file with
  | None => Done None
  | Some file =>
      '(ctx, n) ← keyring_parse_keys key0 (mkKeyring (Some file) 16 []);
      Done (if n =? 0 then None else Some ctx)
  end.
End Keyring.
