(* ===== verification/KeyringFacts.v ===== *)
(** What a keyring file gives access to: every key but the last one. *)

From S2P Require Import Prelude CLib OpenPGP Streams KeyId Packets Armor Decode Marshal Keys KeyBuffer KeyArray Merge KeyUpdate Aged AgedFacts Keyring.

(** * Packets in the file *)

Lemma new_tag_bits : forall t, 0 <= t < 64 ->
  Z.land (192 + t) 0x80 <> 0 /\ Z.land (192 + t) 0x40 <> 0 /\ Z.land (192 + t) 0x3F = t.
Proof. by_range. Qed.

Lemma old_tag_bits t l : 0 <= t < 16 -> 0 <= l < 4 ->
  Z.land (128 + 4 * t + l) 0x80 <> 0 /\ Z.land (128 + 4 * t + l) 0x40 = 0 /\
  Z.shiftr (Z.land (128 + 4 * t + l) 0x3C) 2 = t /\ Z.land (128 + 4 * t + l) 3 = l.
Proof.
  intros Ht Hl. revert t Ht. assert (H : l = 0 \/ l = 1 \/ l = 2 \/ l = 3) by lia. destruct H as [-> | [-> | [-> | ->]]]; by_range.
Qed.

(** The octets of a packet in the file. *)
Section Octets.
Context (pre : list Z) (p : openpgp_packet) (post : list Z) (Hp : encodable p).

Let file : list Z := pre ++ encode_packet p ++ post.

Lemma file_split : file = (pre ++ [tag_octet p]) ++ length_octets p ++ (pkt_data p ++ post).
Proof. unfold file, encode_packet. cbn [app]. by rewrite <- !app_assoc. Qed.

Lemma zlen_tagged : zlen (pre ++ [tag_octet p]) = zlen pre + 1.
Proof. by rewrite zlen_app. Qed.

Lemma octet_0 : file.[zlen pre] = Done (tag_octet p).
Proof. unfold file, encode_packet. cbn [app]. by rewrite rd_mid. Qed.

Lemma octet_1 x r : length_octets p = x :: r -> file.[zlen pre + 1] = Done x.
Proof. intros E. rewrite file_split, E. cbn [app]. apply rd_mid'. by rewrite zlen_tagged. Qed.

Lemma octet_2 x y r : length_octets p = x :: y :: r -> file.[zlen pre + 2] = Done y.
Proof.
  intros E. rewrite file_split, E. cbn [app]. change (?a ++ ?x :: ?y :: ?r) with (a ++ [x] ++ (y :: r)). rewrite app_assoc.
  apply rd_mid'. rewrite zlen_app, zlen_tagged. change (zlen [_]) with 1. lia.
Qed.

Lemma octets_2 x r : length_octets p = x :: htonl_bytes r -> octets_at file (zlen pre + 2) 4 = Done (be_value (htonl_bytes r)).
Proof.
  intros E. rewrite file_split, E. cbn [app]. change (?a ++ ?x :: ?r) with (a ++ [x] ++ r). rewrite app_assoc.
  apply rd_be_mid; [apply htonl_bytes_byte | done | lia | rewrite zlen_app, zlen_tagged; change (zlen [_]) with 1; lia].
Qed.

Lemma octets_1 n : length (length_octets p) = n -> octets_at file (zlen pre + 1) n = Done (be_value (length_octets p)).
Proof.
  intros <-. unfold octets_at. rewrite file_split. apply rd_be_mid; [by apply length_octets_byte | done | | by rewrite zlen_tagged].
  unfold length_octets, new_length_octets, old_length_octets. repeat case_match; cbn; lia.
Qed.

Lemma tag_marked : Z.land (tag_octet p) 0x80 <> 0.
Proof.
  destruct Hp as [_ Hf]. unfold tag_octet. destruct (pkt_newformat p); [apply new_tag_bits; lia|].
  apply old_tag_bits; [lia|]. unfold old_length_type. repeat case_match; lia.
Qed.

Lemma zlen_encoded : zlen (encode_packet p) = 1 + zlen (length_octets p) + pkt_length p.
Proof. destruct Hp as [[Hz _] _]. unfold encode_packet. rewrite zlen_cons, zlen_app. lia. Qed.

Lemma extent_new len : pkt_newformat p = true -> packet_extent file (zlen pre) len = Done (pkt_tag p, zlen (encode_packet p)).
Proof.
  intros Hn. pose proof (encodable_length p Hp) as Hl. pose proof Hp as [_ Hf]. rewrite Hn in Hf. unfold packet_extent. rewrite octet_0. cbn [mbind outcome_bind].
  rewrite zlen_encoded. pose proof octet_1 as E1. pose proof octet_2 as E2. pose proof octets_2 as E5. unfold tag_octet, length_octets in *. rewrite Hn in *.
  destruct (new_tag_bits (pkt_tag p)) as (_ & H40 & ->); [lia|]. destruct (Z.eqb_spec (Z.land (192 + pkt_tag p) 0x40) 0); [done|]. cbn [negb].
  unfold new_length_octets in *. destruct (Z.ltb_spec (pkt_length p) 192); [|destruct (Z.ltb_spec (pkt_length p) 8383)].
  - rewrite (E1 _ _ eq_refl). cbn [mbind outcome_bind].
    destruct (Z.ltb_spec 191 (pkt_length p)), (Z.ltb_spec 223 (pkt_length p)), (Z.eqb_spec (pkt_length p) 255); try lia. cbn [andb mbind outcome_bind].
    change (zlen [_]) with 1. do 2 f_equal. lia.
  - rewrite (E1 _ _ eq_refl). cbn [mbind outcome_bind]. rewrite (E2 _ _ _ eq_refl). cbn [mbind outcome_bind].
    set (h := (pkt_length p - 192) / 256). set (l := (pkt_length p - 192) mod 256).
    assert (Hh : 0 <= h < 32 /\ pkt_length p = h * 256 + l + 192 /\ 0 <= l < 256) by (unfold h, l; Z.div_mod_to_equations; lia).
    destruct (Z.ltb_spec 191 (h + 192)), (Z.ltb_spec (h + 192) 224); try lia. cbn [andb mbind outcome_bind].
    change (zlen [_; _]) with 2. do 2 f_equal. rewrite shiftl_8. lia.
  - rewrite (E1 _ _ eq_refl), (E5 _ _ eq_refl). cbn [mbind outcome_bind]. rewrite be_value_htonl by lia.
    change (zlen (255 :: htonl_bytes _)) with 5. cbn. do 2 f_equal. lia.
Qed.

Lemma extent_old len : pkt_newformat p = false -> packet_extent file (zlen pre) len = Done (pkt_tag p, zlen (encode_packet p)).
Proof.
  intros Hn. pose proof (encodable_length p Hp) as Hl. pose proof Hp as [_ Hf]. rewrite Hn in Hf. unfold packet_extent. rewrite octet_0. cbn [mbind outcome_bind].
  rewrite zlen_encoded. pose proof octets_1 as E1. unfold tag_octet, length_octets in *. rewrite Hn in *.
  set (lt := old_length_type (pkt_length p)) in *. assert (Hlt : 0 <= lt < 4) by (unfold lt, old_length_type; repeat case_match; lia).
  destruct (old_tag_bits (pkt_tag p) lt) as (_ & -> & -> & ->); [lia | done |]. cbn [Z.eqb negb].
  unfold lt, old_length_type, old_length_octets in *. destruct (Z.ltb_spec (pkt_length p) 256); [|destruct (Z.ltb_spec (pkt_length p) 65536)]; cbn [Z.eqb Pos.eqb].
  - rewrite (E1 1%nat eq_refl). cbn [mbind outcome_bind].
    do 2 f_equal. unfold be_value. cbn. change (zlen [_]) with 1. lia.
  - rewrite (E1 2%nat eq_refl). cbn [mbind outcome_bind].
    do 2 f_equal. unfold be_value. cbn [foldl]. change (zlen [_; _]) with 2. Z.div_mod_to_equations; lia.
  - rewrite (E1 4%nat eq_refl). cbn [mbind outcome_bind].
    rewrite be_value_htonl by lia. do 2 f_equal. change (zlen (htonl_bytes _)) with 4. lia.
Qed.

(** What is read of the packet: its tag and its extent. *)
Lemma extent_ok len : (exists c, file.[zlen pre] = Done c /\ Z.land c 0x80 <> 0) /\
  packet_extent file (zlen pre) len = Done (pkt_tag p, zlen (encode_packet p)).
Proof.
  split; [exists (tag_octet p); split; [apply octet_0 | apply tag_marked]|].
  destruct (pkt_newformat p) eqn:E; [by apply extent_new | by apply extent_old].
Qed.
End Octets.

(** * The walk *)

Section Walk.
Context {HF : Hashes} {BC : BuildConfig} (malloc_ok : Z -> bool).

Definition enc (k : openpgp_publickey) : list Z := encode_packets (key_packets k).

(** The packets of a key behind the public key. *)
Definition key_rest (k : openpgp_publickey) : list openpgp_packet := tail (key_packets k).

Lemma enc_split k : enc k = encode_packet (pk_publickey k) ++ encode_packets (key_rest k).
Proof. done. Qed.

Lemma key_rest_tags k : tagged_key k -> Forall (fun p => pkt_tag p <> OPENPGP_PACKET_PUBLICKEY) (key_rest k).
Proof.
  intros (_ & Hs & Hu & Hk).
  assert (Hsig : forall l, sigs_tagged l -> Forall (fun p => pkt_tag p <> OPENPGP_PACKET_PUBLICKEY) l)
    by (intros l Hl; eapply Forall_impl; [exact Hl|]; intros p ->; done).
  assert (Hsp : forall (l : list openpgp_signedpacket), Forall (fun sp => pkt_tag (sp_packet sp) <> OPENPGP_PACKET_PUBLICKEY /\ sigs_tagged (sp_sigs sp)) l ->
    Forall (fun p => pkt_tag p <> OPENPGP_PACKET_PUBLICKEY) (concat (map signed_packets l))).
  { induction 1 as [|sp l [H1 H2] _ IH]; cbn [map concat]; [constructor|]. apply Forall_app. split; [|done].
    unfold signed_packets. constructor; [done | by apply Hsig]. }
  unfold key_rest, key_packets. cbn [tail]. rewrite !Forall_app. split_and!; [by apply Hsig | apply Hsp | apply Hsp].
  - eapply Forall_impl; [exact Hu|]. intros sp [H1 H2]. split; [|done]. intros E. rewrite E in H1. done.
  - eapply Forall_impl; [exact Hk|]. intros sp [H1 H2]. split; [|done]. rewrite H1. done.
Qed.

Lemma zlen_encode_packet p : 2 <= zlen (encode_packet p).
Proof.
  unfold encode_packet. rewrite zlen_cons, zlen_app. pose proof (zlen_nonneg (pkt_data p)).
  assert (1 <= zlen (length_octets p)); [|lia]. unfold length_octets, new_length_octets, old_length_octets, zlen. repeat case_match; cbn; lia.
Qed.

Lemma loop_enter (file : list Z) pos c : 0 <= pos -> pos + 5 < zlen file -> zlen file < 2 ^ 63 ->
  file.[pos] = Done c -> Z.land c 0x80 <> 0 ->
  (5 <? u64 (zlen file - pos)) = true /\ negb (Z.land c 0x80 =? 0) = true.
Proof.
  intros Hp Hl H63 Hc Hb. rewrite u64_small by lia. split; [by apply Z.ltb_lt; lia|]. by destruct (Z.eqb_spec (Z.land c 128) 0).
Qed.

(** One packet that is not a public key. *)
Lemma loop_packet fuel ctx pre p post len start totlen key : encodable p -> pkt_tag p <> OPENPGP_PACKET_PUBLICKEY ->
  5 < zlen (encode_packet p ++ post) -> zlen (pre ++ encode_packet p ++ post) < 2 ^ 63 -> 0 <= totlen < 2 ^ 63 ->
  let file := pre ++ encode_packet p ++ post in
  keyring_loop malloc_ok (S fuel) ctx file (zlen pre) len start totlen key =
  keyring_loop malloc_ok fuel ctx file (zlen (pre ++ encode_packet p)) (zlen (encode_packet p)) start (totlen + zlen (encode_packet p)) key.
Proof.
  intros Hp Ht H5 H63 Htot file. destruct (extent_ok pre p post Hp len) as [(c & Ec & Hc) Ex]. fold file in Ec, Ex.
  pose proof (zlen_nonneg pre). pose proof (zlen_nonneg post). pose proof (zlen_encode_packet p).
  assert (Hfl : zlen file = zlen pre + zlen (encode_packet p ++ post)) by (unfold file; by rewrite zlen_app).
  assert (Hpl : zlen (encode_packet p ++ post) = zlen (encode_packet p) + zlen post) by apply zlen_app.
  destruct (loop_enter file (zlen pre) c) as [E1 E2]; [lia | lia | exact H63 | done | done |]. fold file in H63.
  cbn [keyring_loop]. rewrite E1, Ec. cbn [mbind outcome_bind]. rewrite E2, Ex. cbn [mbind outcome_bind].
  destruct (Z.eqb_spec (pkt_tag p) OPENPGP_PACKET_PUBLICKEY); [done|]. cbn [mbind outcome_bind].
  rewrite (zlen_app pre (encode_packet p)), (u64_small (zlen pre + _)), (u64_small (totlen + _)) by lia. done.
Qed.

(** The packets of a key behind its first, with more behind them. *)
Lemma loop_packets ps : forall fuel ctx pre post len start totlen key, Forall encodable ps ->
  Forall (fun p => pkt_tag p <> OPENPGP_PACKET_PUBLICKEY) ps -> 5 < zlen post ->
  zlen (pre ++ encode_packets ps ++ post) < 2 ^ 63 -> 0 <= totlen -> totlen + zlen (encode_packets ps) < 2 ^ 63 ->
  let file := pre ++ encode_packets ps ++ post in
  exists len', keyring_loop malloc_ok (length ps + fuel) ctx file (zlen pre) len start totlen key =
    keyring_loop malloc_ok fuel ctx file (zlen (pre ++ encode_packets ps)) len' start (totlen + zlen (encode_packets ps)) key.
Proof.
  induction ps as [|p ps IH]; intros fuel ctx pre post len start totlen key Hp Ht H5 H63 H0 Htot file.
  { exists len. subst file. unfold encode_packets. cbn [map concat app length Nat.add]. rewrite app_nil_r. change (zlen (@nil Z)) with 0. by rewrite Z.add_0_r. }
  apply Forall_cons in Hp as [Hp Hps]. apply Forall_cons in Ht as [Ht Hts]. subst file. rewrite encode_packets_cons in *.
  rewrite <- !app_assoc, !zlen_app in *. pose proof (zlen_nonneg (encode_packet p)). pose proof (zlen_nonneg (encode_packets ps)).
  pose proof (zlen_nonneg pre). cbn [length Nat.add].
  rewrite loop_packet; [|done | done | rewrite !zlen_app; lia | rewrite !zlen_app; lia | lia].
  destruct (IH fuel ctx (pre ++ encode_packet p) post (zlen (encode_packet p)) start (totlen + zlen (encode_packet p)) key) as (len' & E);
    [done | done | done | rewrite !zlen_app; lia | lia | lia |]. rewrite <- !app_assoc in E. rewrite E. exists len'.
  f_equal; rewrite ?zlen_app; lia.
Qed.

(** The packets at the end of the file. *)
Lemma loop_end ps : forall fuel ctx pre len start totlen key, Forall encodable ps ->
  Forall (fun p => pkt_tag p <> OPENPGP_PACKET_PUBLICKEY) ps ->
  zlen (pre ++ encode_packets ps) < 2 ^ 63 -> 0 <= totlen -> totlen + zlen (encode_packets ps) < 2 ^ 63 -> (length ps <= fuel)%nat ->
  keyring_loop malloc_ok fuel ctx (pre ++ encode_packets ps) (zlen pre) len start totlen key = Done ctx.
Proof.
  induction ps as [|p ps IH]; intros fuel ctx pre len start totlen key Hp Ht H63 H0 Htot Hf.
  { unfold encode_packets. cbn [map concat]. rewrite app_nil_r. destruct fuel; cbn [keyring_loop]; by rewrite Z.sub_diag. }
  apply Forall_cons in Hp as [Hp Hps]. apply Forall_cons in Ht as [Ht Hts]. rewrite encode_packets_cons, !zlen_app in *.
  pose proof (zlen_nonneg (encode_packet p)). pose proof (zlen_nonneg (encode_packets ps)). pose proof (zlen_nonneg pre).
  destruct fuel as [|fuel]; [cbn in Hf; lia|]. destruct (Z.ltb_spec 5 (zlen (encode_packet p ++ encode_packets ps))) as [H5|H5].
  - rewrite loop_packet; [|done | done | done | rewrite !zlen_app; lia | lia]. rewrite app_assoc.
    apply IH; [done | done | rewrite !zlen_app; lia | lia | lia | cbn in Hf; lia].
  - cbn [keyring_loop]. rewrite zlen_app, zlen_app in *. rewrite u64_small by lia.
    destruct (Z.ltb_spec 5 (zlen pre + (zlen (encode_packet p) + zlen (encode_packets ps)) - zlen pre)); [lia | done].
Qed.

(** The entry of a key whose packets begin at [start]. *)
Definition entry_of (start : Z) (k : openpgp_publickey) : keyring_entry := mkEntry (fp_of k) start (zlen (enc k)).

(** Keys that can be stored, whose fingerprint can be computed and whose packets
    are not tiny. *)
Definition ring_key (k : openpgp_publickey) : Prop :=
  storable malloc_ok [k] /\ runs (get_fingerprint (pk_publickey k)) /\ 4 <= pkt_length (pk_publickey k).

Lemma ring_facts k : ring_key k -> encodable (pk_publickey k) /\ pkt_tag (pk_publickey k) = OPENPGP_PACKET_PUBLICKEY /\
  Forall encodable (key_rest k) /\ Forall (fun p => pkt_tag p <> OPENPGP_PACKET_PUBLICKEY) (key_rest k) /\ 5 < zlen (enc k).
Proof.
  intros (S & _ & H4). pose proof (storable_encodable _ _ S) as He. unfold keys_packets in He. cbn [map concat] in He. rewrite app_nil_r in He.
  apply Forall_cons in He as [He Hr]. pose proof (storable_tagged _ _ S) as Ht. apply Forall_cons in Ht as [Ht _].
  split_and!; [done | apply Ht | done | by apply key_rest_tags |]. rewrite enc_split, zlen_app. pose proof (zlen_nonneg (encode_packets (key_rest k))).
  pose proof (zlen_encode_packet (pk_publickey k)) as H2. unfold encode_packet in *. rewrite zlen_cons, zlen_app in *.
  assert (1 <= zlen (length_octets (pk_publickey k))) by (unfold length_octets, new_length_octets, old_length_octets, zlen; repeat case_match; cbn; lia).
  destruct He as [[Hz _] _]. lia.
Qed.

(** Making the entry of a key when the next one is found. *)
Lemma add_entry_ok ctx pre k post : ring_key k -> kr_file ctx = Some (pre ++ enc k ++ post) ->
  16 <= kr_space ctx < 2 ^ 31 -> kr_count ctx <= kr_space ctx ->
  exists space, add_entry malloc_ok ctx (zlen pre) (zlen (enc k)) (Some []) =
    Done (mkKeyring (kr_file ctx) space (kr_keys ctx ++ [entry_of (zlen pre) k])) /\
    kr_space ctx <= space <= 2 * kr_space ctx /\ kr_count ctx + 1 <= space /\ (kr_count ctx < kr_space ctx -> space = kr_space ctx).
Proof.
  intros (S & [[rc fp] Hfp] & _) Hfile Hsp Hc. unfold add_entry. pose proof (zlen_nonneg pre). pose proof (zlen_nonneg (enc k)). pose proof (zlen_nonneg post).
  set (space := if _ =? _ then _ else _).
  assert (Hs : kr_space ctx <= space <= 2 * kr_space ctx /\ kr_count ctx + 1 <= space /\ (kr_count ctx < kr_space ctx -> space = kr_space ctx)).
  { unfold space. destruct (Z.eqb_spec (kr_count ctx) (kr_space ctx)); [rewrite u32_small by lia|]; lia. }
  clearbody space. destruct (Z.leb_spec space (kr_count ctx)); [lia|]. cbn [mbind outcome_bind].
  unfold keyring_fetch_key_idx, kr_count. cbn [kr_keys kr_file]. rewrite zlen_app. change (zlen [_]) with 1.
  destruct (Z.ltb_spec (zlen (kr_keys ctx) + 1) (zlen (kr_keys ctx))); [lia|]. rewrite Hfile.
  unfold zlen at 3. rewrite Nat2Z.id, list_lookup_middle by done. cbn [ke_start ke_len].
  rewrite memcpy_from_ok by (rewrite ?zlen_app; lia). cbn [mbind outcome_bind].
  assert (Eo : take (Z.to_nat (zlen (enc k))) (drop (Z.to_nat (zlen pre)) (pre ++ enc k ++ post)) = enc k)
    by (unfold zlen; rewrite !Nat2Z.id, drop_app_length, take_app_length; done).
  assert (Ek : keys_packets [k] = key_packets k) by (unfold keys_packets; cbn [map concat]; by rewrite app_nil_r).
  pose proof (keys_of_buffer_nil malloc_ok [k] S) as Eb. rewrite Ek in Eb. fold (enc k) in Eb. rewrite Eo, Eb. cbn [mbind outcome_bind map].
  change (pk_publickey (reparsed k)) with (pk_publickey k). rewrite Hfp. cbn [mbind outcome_bind]. exists space. split; [|done].
  unfold entry_of, fp_of. by rewrite Hfp.
Qed.

(** The public key packet of a key. *)
Lemma loop_pubkey fuel ctx pre p post len start totlen key : encodable p -> pkt_tag p = OPENPGP_PACKET_PUBLICKEY ->
  5 < zlen (encode_packet p ++ post) -> zlen (pre ++ encode_packet p ++ post) < 2 ^ 63 ->
  let file := pre ++ encode_packet p ++ post in
  keyring_loop malloc_ok (S fuel) ctx file (zlen pre) len start totlen key =
  '(ctx, key) ← (if 0 <? totlen then ctx ← add_entry malloc_ok ctx start totlen key; Done (ctx, Some []) else Done (ctx, key));
  keyring_loop malloc_ok fuel ctx file (zlen (pre ++ encode_packet p)) (zlen (encode_packet p)) (zlen pre) (zlen (encode_packet p)) key.
Proof.
  intros Hp Ht H5 H63 file. destruct (extent_ok pre p post Hp len) as [(c & Ec & Hc) Ex]. fold file in Ec, Ex.
  pose proof (zlen_nonneg pre). pose proof (zlen_nonneg post). pose proof (zlen_encode_packet p).
  assert (Hfl : zlen file = zlen pre + zlen (encode_packet p ++ post)) by (unfold file; by rewrite zlen_app).
  assert (Hpl : zlen (encode_packet p ++ post) = zlen (encode_packet p) + zlen post) by apply zlen_app.
  destruct (loop_enter file (zlen pre) c) as [E1 E2]; [lia | lia | exact H63 | done | done |]. fold file in H63.
  cbn [keyring_loop]. rewrite E1, Ec. cbn [mbind outcome_bind]. rewrite E2, Ex. cbn [mbind outcome_bind]. rewrite Ht, Z.eqb_refl.
  rewrite (zlen_app pre (encode_packet p)).
  destruct (if 0 <? totlen then _ else _) as [[ctx' key']|]; cbn [mbind outcome_bind]; [|done].
  by rewrite (u64_small (zlen pre + _)), Z.add_0_l, (u64_small (zlen (encode_packet p))) by lia.
Qed.

Fixpoint entries (pos : Z) (ks : list openpgp_publickey) : list keyring_entry :=
  match ks with
  | [] => []
  | k :: ks => entry_of pos k :: entries (pos + zlen (enc k)) ks
  end.

Lemma zlen_entries pos ks : zlen (entries pos ks) = zlen ks.
Proof. unfold zlen. f_equal. revert pos. induction ks as [|k ks IH]; intros pos; cbn; [done|]. by rewrite IH. Qed.

Definition encs (ks : list openpgp_publickey) : list Z := concat (map enc ks).

Definition packet_count (ks : list openpgp_publickey) : nat := length (keys_packets ks).

Definition roomy (ctx : onak_keyring_dbctx) : Prop :=
  16 <= kr_space ctx <= Z.max 16 (2 * kr_count ctx) /\ kr_count ctx <= kr_space ctx.

(** The first packet of a key and the others, in front of more keys or of nothing. *)
Lemma loop_key fuel ctx pre k more len key : ring_key k -> Forall ring_key more ->
  zlen (pre ++ enc k ++ encs more) < 2 ^ 62 -> (length (key_rest k) <= fuel)%nat ->
  let file := pre ++ enc k ++ encs more in
  exists len', keyring_loop malloc_ok fuel ctx file (zlen (pre ++ encode_packet (pk_publickey k))) len (zlen pre) (zlen (encode_packet (pk_publickey k))) key =
    match more with
    | [] => Done ctx
    | _ => keyring_loop malloc_ok (fuel - length (key_rest k)) ctx file (zlen (pre ++ enc k)) len' (zlen pre) (zlen (enc k)) key
    end.
Proof.
  intros Hk Hm H62 Hf file. destruct (ring_facts k Hk) as (He & Ht & Hr & Hrt & H5).
  set (P := pre ++ encode_packet (pk_publickey k)). pose proof (zlen_nonneg pre). pose proof (zlen_nonneg (encs more)).
  pose proof (zlen_nonneg (encode_packets (key_rest k))). pose proof (zlen_nonneg (encode_packet (pk_publickey k))).
  assert (Hfile : file = P ++ encode_packets (key_rest k) ++ encs more) by (unfold file, P; rewrite enc_split; by rewrite <- !app_assoc).
  assert (Hz : zlen (enc k) = zlen (encode_packet (pk_publickey k)) + zlen (encode_packets (key_rest k))) by (rewrite enc_split; apply zlen_app).
  assert (HP : zlen P = zlen pre + zlen (encode_packet (pk_publickey k))) by apply zlen_app.
  rewrite !zlen_app in H62. rewrite Hfile. destruct more as [|k2 more].
  - exists 0. change (encs []) with (@nil Z). rewrite app_nil_r. apply loop_end; try done; rewrite ?zlen_app; lia.
  - apply Forall_cons in Hm as [Hk2 Hm]. destruct (ring_facts k2 Hk2) as (_ & _ & _ & _ & H52).
    destruct (loop_packets (key_rest k) (fuel - length (key_rest k)) ctx P (encs (k2 :: more)) len (zlen pre) (zlen (encode_packet (pk_publickey k))) key)
      as (len' & E); [done | done | | rewrite !zlen_app; lia | lia | lia |].
    + unfold encs. cbn [map concat]. rewrite zlen_app. pose proof (zlen_nonneg (concat (map enc more))). lia.
    + exists len'. replace (length (key_rest k) + (fuel - length (key_rest k)))%nat with fuel in E by lia. rewrite E, Hz.
      assert (Epos : pre ++ enc k = P ++ encode_packets (key_rest k)) by (unfold P; rewrite enc_split; by rewrite app_assoc). by rewrite Epos.
Qed.

Lemma add_roomy ctx pre k post : ring_key k -> kr_file ctx = Some (pre ++ enc k ++ post) -> roomy ctx -> kr_count ctx + 1 < 2 ^ 30 ->
  exists ctx', add_entry malloc_ok ctx (zlen pre) (zlen (enc k)) (Some []) = Done ctx' /\ roomy ctx' /\ kr_file ctx' = kr_file ctx /\
    kr_keys ctx' = kr_keys ctx ++ [entry_of (zlen pre) k].
Proof.
  intros Hk Hfile [Hs Hc] H30. destruct (add_entry_ok ctx pre k post Hk Hfile) as (space & E & H1 & H2 & H3); [lia | done |].
  eexists. split; [exact E|]. split; [|done]. unfold roomy, kr_count in *. cbn [kr_space kr_keys]. rewrite zlen_app. change (zlen [_]) with 1. lia.
Qed.

(** The walk over the keys behind [kp], whose entry is made when the next one is
    found. *)
Lemma walk todo : forall kp pre ctx fuel len, Forall ring_key (kp :: todo) -> todo <> [] ->
  let file := pre ++ enc kp ++ encs todo in
  kr_file ctx = Some file -> zlen file < 2 ^ 62 -> roomy ctx -> kr_count ctx + zlen todo + 1 < 2 ^ 30 -> (packet_count todo <= fuel)%nat ->
  exists space, keyring_loop malloc_ok fuel ctx file (zlen (pre ++ enc kp)) len (zlen pre) (zlen (enc kp)) (Some []) =
    Done (mkKeyring (kr_file ctx) space (kr_keys ctx ++ entries (zlen pre) (removelast (kp :: todo)))).
Proof.
  induction todo as [|k todo IH]; intros kp pre ctx fuel len Hall Hne file Hfile H62 Hroom Hcount Hf; [done|].
  apply Forall_cons in Hall as [Hkp Hall]. pose proof Hall as Hall2. apply Forall_cons in Hall as [Hk Hall].
  destruct (ring_facts k Hk) as (He & Ht & _ & _ & H5). destruct (ring_facts kp Hkp) as (_ & _ & _ & _ & H5p).
  assert (Hpc : packet_count (k :: todo) = (S (length (key_rest k)) + packet_count todo)%nat) by (unfold packet_count, keys_packets; cbn [map concat]; by rewrite length_app).
  destruct fuel as [|fuel]; [lia|]. pose proof (zlen_nonneg todo). rewrite zlen_cons in Hcount.
  destruct (add_roomy ctx pre kp (encs (k :: todo)) Hkp Hfile Hroom) as (ctx1 & Ea & Hroom1 & Hf1 & Hk1); [lia|].
  assert (Efile : file = (pre ++ enc kp) ++ encode_packet (pk_publickey k) ++ (encode_packets (key_rest k) ++ encs todo))
    by (unfold file, encs; cbn [map concat]; rewrite (enc_split k); by rewrite <- !app_assoc).
  assert (Efile2 : file = (pre ++ enc kp) ++ enc k ++ encs todo) by (rewrite Efile, (enc_split k); by rewrite <- !app_assoc).
  assert (H5' : 5 < zlen (encode_packet (pk_publickey k) ++ encode_packets (key_rest k) ++ encs todo)).
  { rewrite enc_split, zlen_app in H5. rewrite !zlen_app. pose proof (zlen_nonneg (encs todo)). lia. }
  clearbody file. rewrite Efile, loop_pubkey by (done || (rewrite <- Efile; lia)).
  destruct (Z.ltb_spec 0 (zlen (enc kp))); [|lia]. rewrite Ea. cbn [mbind outcome_bind]. rewrite <- Efile, Efile2.
  destruct (loop_key fuel ctx1 (pre ++ enc kp) k todo (zlen (encode_packet (pk_publickey k))) (Some []) Hk Hall) as (len' & ->);
    [by rewrite <- Efile2 | lia |].
  destruct todo as [|k2 todo].
  - exists (kr_space ctx1). cbn [removelast entries]. rewrite <- Hk1, <- Hf1. by destruct ctx1.
  - destruct (IH k (pre ++ enc kp) ctx1 (fuel - length (key_rest k))%nat len') as (space & E); [done | done | by rewrite Hf1, Hfile, Efile2 | by rewrite <- Efile2 | done | | lia |].
    + unfold kr_count in *. rewrite Hk1, zlen_app. change (zlen [_]) with 1. lia.
    + exists space. rewrite E, Hf1, Hk1, <- app_assoc, zlen_app. done.
Qed.

Lemma encs_packets ks : encs ks = encode_packets (keys_packets ks).
Proof.
  unfold encs, keys_packets. induction ks as [|k ks IH]; [done|]. cbn [map concat]. by rewrite IH, encode_packets_app.
Qed.

(** The walk over the first key, whatever the variable [key] holds. *)
Lemma parse_first key0 k ks : Forall ring_key (k :: ks) -> zlen (encs (k :: ks)) < 2 ^ 62 ->
  let file := encs (k :: ks) in
  let ctx0 := mkKeyring (Some file) 16 [] in
  exists len', (packet_count ks <= length file - length (key_rest k))%nat /\
    keyring_parse_keys malloc_ok key0 ctx0 =
    match ks with
    | [] => Done (ctx0, 0)
    | _ => ctx ← keyring_loop malloc_ok (length file - length (key_rest k)) ctx0 file (zlen (enc k)) len' 0 (zlen (enc k)) key0;
           Done (ctx, i32 (kr_count ctx))
    end.
Proof.
  intros Hall H62 file ctx0. pose proof Hall as Hall2. apply Forall_cons in Hall2 as [Hk Hks]. destruct (ring_facts k Hk) as (He & Ht & _ & _ & H5).
  unfold keyring_parse_keys. cbn [kr_file ctx0]. fold ctx0. fold file in H62.
  assert (Efile : file = [] ++ encode_packet (pk_publickey k) ++ (encode_packets (key_rest k) ++ encs ks))
    by (unfold file, encs; cbn [map concat app]; rewrite enc_split; by rewrite <- !app_assoc).
  assert (Efile2 : file = [] ++ enc k ++ encs ks) by done.
  assert (H5' : 5 < zlen (encode_packet (pk_publickey k) ++ encode_packets (key_rest k) ++ encs ks)).
  { rewrite enc_split, zlen_app in H5. rewrite !zlen_app. pose proof (zlen_nonneg (encs ks)). lia. }
  pose proof (encode_packets_count (keys_packets (k :: ks))) as Hcnt. rewrite <- encs_packets in Hcnt. fold file in Hcnt.
  assert (Hpc : length (keys_packets (k :: ks)) = (S (length (key_rest k)) + packet_count ks)%nat) by (unfold packet_count, keys_packets; cbn [map concat]; by rewrite length_app).
  pose proof (loop_pubkey (length file) ctx0 [] (pk_publickey k) (encode_packets (key_rest k) ++ encs ks) 0 0 0 key0 He Ht H5') as Ep.
  cbv zeta in Ep. rewrite <- Efile in Ep. change (zlen (@nil Z)) with 0 in Ep. cbn [Z.ltb Z.compare] in Ep. cbn [mbind outcome_bind] in Ep.
  rewrite Ep by lia. destruct (loop_key (length file) ctx0 [] k ks (zlen (encode_packet (pk_publickey k))) key0 Hk Hks) as (len' & El);
    [by rewrite <- Efile2 | lia |]. rewrite <- Efile2 in El. change (zlen (@nil Z)) with 0 in El. rewrite El.
  exists len'. split; [lia|]. by destruct ks.
Qed.

(** As long as that variable has no value, the index of a file with two keys
    cannot be made: the parser is handed a list that was never initialised. *)
Lemma keyring_uninitialised ctx start totlen :
  kr_count ctx < kr_space ctx -> add_entry malloc_ok ctx start totlen None = Fault Uninitialised.
Proof.
  intros H. unfold add_entry. destruct (Z.eqb_spec (kr_count ctx) (kr_space ctx)); [lia|].
  destruct (Z.leb_spec (kr_space ctx) (kr_count ctx)); [lia | done].
Qed.

Lemma parse_uninitialised k k2 ks : Forall ring_key (k :: k2 :: ks) -> zlen (encs (k :: k2 :: ks)) < 2 ^ 62 ->
  keyring_parse_keys malloc_ok None (mkKeyring (Some (encs (k :: k2 :: ks))) 16 []) = Fault Uninitialised.
Proof.
  intros Hall H62. destruct (parse_first None k (k2 :: ks) Hall H62) as (len' & Hf & ->). pose proof Hall as Hall2.
  apply Forall_cons in Hall2 as [Hk Hks]. apply Forall_cons in Hks as [Hk2 Hks].
  destruct (ring_facts k Hk) as (_ & _ & _ & _ & H5). destruct (ring_facts k2 Hk2) as (He & Ht & _ & _ & H52).
  set (file := encs (k :: k2 :: ks)) in *.
  assert (Efile : file = enc k ++ encode_packet (pk_publickey k2) ++ (encode_packets (key_rest k2) ++ encs ks))
    by (unfold file, encs; cbn [map concat]; rewrite (enc_split k2); by rewrite <- !app_assoc).
  assert (H5' : 5 < zlen (encode_packet (pk_publickey k2) ++ encode_packets (key_rest k2) ++ encs ks)).
  { rewrite enc_split, zlen_app in H52. rewrite !zlen_app. pose proof (zlen_nonneg (encs ks)). lia. }
  assert (Hpc : (1 <= packet_count (k2 :: ks))%nat) by (unfold packet_count, keys_packets; cbn [map concat]; rewrite length_app; cbn; lia).
  destruct (length file - length (key_rest k))%nat as [|fuel]; [lia|].
  rewrite Efile at 2. rewrite loop_pubkey by (done || (rewrite <- Efile; lia)).
  destruct (Z.ltb_spec 0 (zlen (enc k))); [|lia]. by rewrite keyring_uninitialised.
Qed.

(** The index of a keyring when the variable holds NULL: all keys but the last. *)
Lemma parse_ring k ks : Forall ring_key (k :: ks) -> zlen (encs (k :: ks)) < 2 ^ 62 -> zlen ks + 1 < 2 ^ 30 ->
  exists space, keyring_parse_keys malloc_ok (Some []) (mkKeyring (Some (encs (k :: ks))) 16 []) =
    Done (mkKeyring (Some (encs (k :: ks))) space (entries 0 (removelast (k :: ks))), zlen (removelast (k :: ks))).
Proof.
  intros Hall H62 Hc. destruct (parse_first (Some []) k ks Hall H62) as (len' & Hf & ->).
  destruct ks as [|k2 ks]; [by exists 16|]. set (file := encs (k :: k2 :: ks)) in *. set (ctx0 := mkKeyring (Some file) 16 []).
  destruct (walk (k2 :: ks) k [] ctx0 (length file - length (key_rest k)) len' Hall ltac:(done) eq_refl H62) as (space & Ew);
    [repeat split; vm_compute; congruence | change (kr_count ctx0) with 0; lia | lia |].
  cbv zeta in Ew. change (zlen (@nil Z)) with 0 in Ew. change ([] ++ enc k) with (enc k) in Ew.
  change ([] ++ enc k ++ encs (k2 :: ks)) with file in Ew. rewrite Ew. cbn [mbind outcome_bind].
  exists space. do 2 f_equal. unfold kr_count. cbn [kr_keys ctx0 app]. rewrite zlen_entries. apply i32_small.
  pose proof (zlen_nonneg (removelast (k :: k2 :: ks))). assert (zlen (removelast (k :: k2 :: ks)) <= zlen (k2 :: ks)); [|lia].
  unfold zlen. rewrite removelast_firstn_len, length_take. cbn [length]. lia.
Qed.

(** * What can be fetched *)

Lemma entries_lookup ks : forall pos i k, ks !! i = Some k ->
  exists pre, entries pos ks !! i = Some (entry_of (pos + zlen pre) k) /\ exists post, encs ks = pre ++ enc k ++ post.
Proof.
  induction ks as [|k0 ks IH]; intros pos i k Hi; [done|]. destruct i as [|i].
  - injection Hi as ->. exists []. change (zlen (@nil Z)) with 0. rewrite Z.add_0_r. split; [done|]. by exists (encs ks).
  - change (ks !! i = Some k) in Hi. change (entries pos (k0 :: ks) !! S i) with (entries (pos + zlen (enc k0)) ks !! i).
    destruct (IH (pos + zlen (enc k0)) i k Hi) as (pre & E & post & E'). exists (enc k0 ++ pre). rewrite zlen_app.
    split; [rewrite E; do 2 f_equal; lia|]. exists post. unfold encs. cbn [map concat]. fold (encs ks). rewrite E'. by rewrite <- app_assoc.
Qed.

Lemma removelast_app_last (ks : list openpgp_publickey) : ks <> [] -> exists kl, ks = removelast ks ++ [kl].
Proof. intros H. destruct (exists_last H) as (l & kl & ->). exists kl. by rewrite removelast_last. Qed.

Lemma fetch_idx_ok ks kl space i k publickey : Forall ring_key (ks ++ [kl]) -> ks !! i = Some k ->
  keyring_fetch_key_idx malloc_ok (mkKeyring (Some (encs (ks ++ [kl]))) space (entries 0 ks)) (Z.of_nat i) publickey =
    Done (publickey ++ [reparsed k], 1).
Proof.
  intros Hall Hi. destruct (entries_lookup ks 0 i k Hi) as (pre & E & post & E'). rewrite Z.add_0_l in E.
  pose proof (lookup_lt_Some _ _ _ Hi). unfold keyring_fetch_key_idx, kr_count. cbn [kr_keys kr_file]. rewrite zlen_entries, Nat2Z.id, E.
  destruct (Z.ltb_spec (zlen ks) (Z.of_nat i)); [unfold zlen in *; lia|]. cbn [ke_start ke_len entry_of].
  unfold encs. rewrite map_app, concat_app. fold (encs ks). rewrite E', <- !app_assoc. set (rest := post ++ _).
  pose proof (zlen_nonneg pre). pose proof (zlen_nonneg (enc k)). pose proof (zlen_nonneg rest).
  rewrite memcpy_from_ok by (rewrite ?zlen_app; lia). cbn [mbind outcome_bind].
  assert (Eo : take (Z.to_nat (zlen (enc k))) (drop (Z.to_nat (zlen pre)) (pre ++ enc k ++ rest)) = enc k)
    by (unfold zlen; rewrite !Nat2Z.id, drop_app_length, take_app_length; done). rewrite Eo.
  assert (Hk : ring_key k) by (rewrite Forall_forall in Hall; apply Hall, elem_of_app; left; by eapply list_elem_of_lookup_2).
  assert (Ek : keys_packets [k] = key_packets k) by (unfold keys_packets; cbn [map concat]; by rewrite app_nil_r).
  pose proof (keys_of_buffer_ok malloc_ok [k] publickey (proj1 Hk)) as Eb. rewrite Ek in Eb. fold (enc k) in Eb. by rewrite Eb.
Qed.

Lemma find_fp_spec ks fp : wf_fp fp -> Forall (fun k => wf_fp (fp_of k)) ks -> forall pos i,
  match list_find (fun k => fp_of k = fp) ks with
  | Some (j, _) => find_fp (entries pos ks) fp i = i + Z.of_nat j
  | None => find_fp (entries pos ks) fp i = i + zlen ks
  end.
Proof.
  intros Hfp. induction 1 as [|k ks Hk _ IH]; intros pos i; cbn [list_find entries find_fp ke_fp entry_of]; [change (zlen (@nil openpgp_publickey)) with 0; lia|].
  pose proof (fingerprint_cmp_eq fp (fp_of k) Hfp Hk) as Hc. destruct (decide (fp_of k = fp)) as [E|E].
  - rewrite (proj2 Hc) by done. cbn. lia.
  - destruct (Z.eqb_spec (fingerprint_cmp fp (fp_of k)) 0) as [E0|]; [apply Hc in E0; congruence|].
    specialize (IH (pos + zlen (enc k)) (i + 1)). 
    destruct (list_find _ ks) as [[j k']|]; cbn [fmap option_fmap option_map prod_map fst snd]; rewrite IH; [|rewrite zlen_cons]; lia.
Qed.

Lemma iterate_ok ks kl space n : Forall ring_key (ks ++ [kl]) -> forall i seen, (i + n = length ks)%nat ->
  iterate_loop malloc_ok (mkKeyring (Some (encs (ks ++ [kl]))) space (entries 0 ks)) n (Z.of_nat i) (Z.of_nat i) seen =
    Done (seen ++ map (fun k => [reparsed k]) (drop i ks), zlen ks).
Proof.
  intros Hall. induction n as [|n IH]; intros i seen Hi; cbn [iterate_loop].
  - rewrite drop_ge, app_nil_r by lia. unfold zlen. do 2 f_equal. lia.
  - destruct (lookup_lt_is_Some_2 ks i) as [k Hk]; [lia|]. rewrite (fetch_idx_ok ks kl space i k []) by done. cbn [mbind outcome_bind Z.eqb app].
    replace (Z.of_nat i + 1) with (Z.of_nat (S i)) by lia. rewrite IH by lia. rewrite (drop_S ks k i Hk). cbn [map]. by rewrite <- app_assoc.
Qed.
End Walk.

(** C32: what a keyring file of the keys [ks] and a last one gives access to.
    With a single key in the file the backend reports that there is none.  With
    more, the index is made through the variable [key], which the code does not
    initialise: as long as it has no value the parser is handed it anyway; when it
    happens to hold NULL, the keys [ks] are found, the first with a fingerprint by
    a fetch and each once and in order by an iteration, and the last key of the
    file never is. *)
Theorem keyring_correct {HF : Hashes} {BC : BuildConfig} malloc_ok ks kl :
  Forall (ring_key malloc_ok) (ks ++ [kl]) -> Forall (fun k => wf_fp (fp_of k)) ks ->
  zlen (encs (ks ++ [kl])) < 2 ^ 62 -> zlen ks + 1 < 2 ^ 30 ->
  match ks with
  | [] => forall key0, keydb_keyring_init malloc_ok key0 (Some (encs [kl])) = Done None
  | _ => keydb_keyring_init malloc_ok None (Some (encs (ks ++ [kl]))) = Fault Uninitialised /\
      exists ctx, keydb_keyring_init malloc_ok (Some []) (Some (encs (ks ++ [kl]))) = Done (Some ctx) /\
      keyring_iterate_keys malloc_ok ctx = Done (map (fun k => [reparsed k]) ks, zlen ks) /\
      forall fp publickey, wf_fp fp -> keyring_fetch_key malloc_ok ctx fp publickey =
        Done (match list_find (fun k => fp_of k = fp) ks with
              | Some (_, k) => (publickey ++ [reparsed k], 1)
              | None => (publickey, 0)
              end)
  end.
Proof.
  intros Hall Hwf H62 Hc. assert (Hp : exists k rest, ks ++ [kl] = k :: rest /\ removelast (k :: rest) = ks /\ zlen rest = zlen ks).
  { pose proof (removelast_last ks kl) as E. destruct ks as [|k ks]; [by exists kl, []|]. exists k, (ks ++ [kl]). split_and!; [done | done |].
    rewrite zlen_app, (zlen_cons k). change (zlen [kl]) with 1. lia. }
  destruct Hp as (k & rest & Hkr & Hrl & Hz). rewrite Hkr in Hall, H62. pose proof Hall as Hall0. destruct (parse_ring malloc_ok k rest Hall H62) as (space & E); [lia|].
  unfold keydb_keyring_init. rewrite <- Hkr in E, Hall. rewrite Hkr, Hrl in E. rewrite <- Hkr in E.
  destruct ks as [|k0 ks].
  { injection Hkr as <- <-. intros key0. destruct (parse_first malloc_ok key0 kl [] Hall0 H62) as (len' & _ & ->). done. }
  split.
  { rewrite Hkr. destruct rest as [|k2 rest]; [by destruct ks|]. by rewrite parse_uninitialised. }
  set (all := k0 :: ks) in *.
  rewrite E. cbn [mbind outcome_bind]. pose proof (zlen_nonneg ks). destruct (Z.eqb_spec (zlen all) 0) as [H0|]; [unfold all in H0; rewrite zlen_cons in H0; lia|].
  eexists. split; [done|]. split.
  - unfold keyring_iterate_keys. cbn [kr_keys].
    pose proof (iterate_ok malloc_ok all kl space (length all) Hall 0 []) as Ei. change (Z.of_nat 0) with 0 in Ei. rewrite drop_0 in Ei.
    assert (El : length (entries 0 all) = length all) by (pose proof (zlen_entries 0 all); unfold zlen in *; lia). rewrite El, Ei by lia. done.
  - intros fp publickey Hfp. unfold keyring_fetch_key. cbn [kr_keys]. pose proof (find_fp_spec all fp Hfp Hwf 0 0) as Hfind.
    unfold kr_count. cbn [kr_keys]. rewrite zlen_entries.
    destruct (list_find _ all) as [[j k']|] eqn:Ef; rewrite Hfind, Z.add_0_l.
    + apply list_find_Some in Ef as (Hj & _ & _). pose proof (lookup_lt_Some _ _ _ Hj).
      destruct (Z.ltb_spec (Z.of_nat j) (zlen all)); [|unfold zlen in *; lia]. by apply fetch_idx_ok.
    + by rewrite Z.ltb_irrefl.
Qed.

(** * An example *)

#[local] Instance ring_hashes : Hashes := toy_hashes.
#[local] Instance ring_build : BuildConfig := full_build.

Definition ring_a : openpgp_publickey := example_key 1000 [].
Definition ring_b : openpgp_publickey := example_key 2000 [].

Lemma ring_keys_ok : Forall (ring_key (fun _ => true)) [ring_a; ring_b].
Proof.
  apply Forall_cons; split; [|apply Forall_singleton].
  all: split_and!; [|eexists; vm_compute; reflexivity | vm_compute; congruence].
  all: split; try (apply (bool_decide_unpack _); vm_compute; exact I); vm_compute; reflexivity.
Qed.

Lemma keyring_correct_witness :
  keydb_keyring_init (fun _ => true) None (Some (encs ([ring_a] ++ [ring_b]))) = Fault Uninitialised /\
  exists ctx, keydb_keyring_init (fun _ => true) (Some []) (Some (encs ([ring_a] ++ [ring_b]))) = Done (Some ctx) /\
    keyring_iterate_keys (fun _ => true) ctx = Done ([[reparsed ring_a]], 1) /\
    forall fp publickey, wf_fp fp -> keyring_fetch_key (fun _ => true) ctx fp publickey =
      Done (match list_find (fun k => fp_of k = fp) [ring_a] with
            | Some (_, k) => (publickey ++ [reparsed k], 1)
            | None => (publickey, 0)
            end).
Proof.
  apply (keyring_correct (fun _ => true) [ring_a] ring_b).
  - exact ring_keys_ok.
  - apply Forall_singleton. vm_compute. reflexivity.
  - vm_compute. reflexivity.
  - vm_compute. reflexivity.
Defined.
