(* ===== verification/Lookup.v ===== *)
(** The lookup program of the key server (cgi/lookup.c), with the frame of a page
    (cgi/getcgi.c).

    The parameters are those of [parse_cgiinput]; the database is [None] when it
    cannot be opened; what the program prints is the text it returns. *)

From Stdlib Require Import String.
From S2P Require Import Prelude CLib OpenPGP Streams DbCtx KeyId Packets Armor Keys SigCheck Clean KeyUpdate Photo Template KeyIndex FsDb.

(** * Numbers of base 16 *)

Definition isxdigit (c : Z) : bool :=
  ((48 <=? c) && (c <=? 57)) || ((65 <=? c) && (c <=? 70)) || ((97 <=? c) && (c <=? 102)).

Fixpoint span_xdigits (s : list Z) : list Z * list Z :=
  match s with
  | c :: rest => if isxdigit c then let '(d, r) := span_xdigits rest in (c :: d, r) else ([], s)
  | [] => ([], [])
  end.

(** [strtoull(s, &end, 16)]: the number and [end]; without a number [end] is [s]. *)
Definition strtoull16 (s : list Z) : Z * list Z :=
  let '(neg, t) := match skip_space s with
                   | c :: t => if c =? 45 then (true, t) else if c =? 43 then (false, t) else (false, c :: t)
                   | [] => (false, [])
                   end in
  let t := match t with
           | z :: x :: c :: r => if (z =? 48) && ((x =? 120) || (x =? 88)) && isxdigit c then c :: r else t
           | _ => t
           end in
  match span_xdigits t with
  | ([], _) => (0, s)
  | (d, rest) =>
      let v := foldl (fun acc c => acc * 16 + hexdigit c) 0 d in
      (if 2 ^ 64 <=? v then 2 ^ 64 - 1 else if (neg : bool) then u64 (- v) else v, rest)
  end.

(** * The frame of a page *)

Definition puts (s : list Z) : list Z := s ++ [10].

Definition start_html (title : string) : list Z :=
  puts (str "Content-Type: text/html; charset=UTF-8" ++ [10]) ++ puts (str "<!DOCTYPE html>") ++ puts (str "<html>") ++ puts (str "<head>") ++
  puts (str "<meta name=" ++ [34] ++ str "viewport" ++ [34] ++ str " content=" ++ [34] ++ str "width=device-width, initial-scale=1" ++ [34] ++ str ">") ++
  str "<title>" ++ str title ++ str "</title>" ++ [10] ++ puts (str "</head>") ++ puts (str "<body>").

Definition end_html : list Z := puts (str "</body>") ++ puts (str "</html>").

(** * The parameters *)

Inductive lookup_op : Type := OP_UNKNOWN | OP_GET | OP_INDEX | OP_VINDEX | OP_PHOTO | OP_HGET.

#[global] Instance lookup_op_dec : EqDecision lookup_op.
Proof. solve_decision. Defined.

(** The variables of [main]; the fingerprint has no value before a search sets
    it. *)
Record lookup_args : Type := mkArgs {
  la_op : lookup_op; la_search : option (list Z); la_keyid : Z; la_fingerprint : option openpgp_fingerprint;
  la_ishex : bool; la_isfp : bool; la_indx : Z; la_dispfp : bool; la_skshash : bool; la_exact : bool; la_mrhkp : bool }.

Definition no_args : lookup_args := mkArgs OP_UNKNOWN None 0 None false false 0 false false false false.

Definition set_op (a : lookup_args) (op : lookup_op) : lookup_args :=
  mkArgs op (la_search a) (la_keyid a) (la_fingerprint a) (la_ishex a) (la_isfp a) (la_indx a) (la_dispfp a) (la_skshash a) (la_exact a) (la_mrhkp a).

Definition hex2bin (c : Z) : Z :=
  if (48 <=? c) && (c <=? 57) then c - 48
  else if (97 <=? c) && (c <=? 102) then c - 97 + 10
  else if (65 <=? c) && (c <=? 70) then c - 65 + 10
  else 255.

(** [n] octets of a fingerprint from their digits. *)
Fixpoint hex_octets (n : nat) (s : list Z) : list Z :=
  match n, s with
  | S n, a :: b :: s => u8 (Z.shiftl (hex2bin a) 4 + hex2bin b) :: hex_octets n s
  | _, _ => []
  end.

Definition set_search (a : lookup_args) (s : list Z) : lookup_args :=
  let mk keyid fp ishex isfp :=
    mkArgs (la_op a) (Some s) keyid fp ishex isfp (la_indx a) (la_dispfp a) (la_skshash a) (la_exact a) (la_mrhkp a) in
  let prefixed n := (zlen s =? 2 + 2 * n) && match s with 48 :: 120 :: _ => true | _ => false end in
  if prefixed 20 then mk (la_keyid a) (Some (mkFingerprint 20 (hex_octets 20 (drop 2 s)))) (la_ishex a) true
  else if prefixed 32 then mk (la_keyid a) (Some (mkFingerprint 32 (hex_octets 32 (drop 2 s)))) (la_ishex a) true
  else
    let '(keyid, end_) := strtoull16 s in
    mk keyid (la_fingerprint a) (match s, end_ with _ :: _, [] => true | _, _ => la_ishex a end) (la_isfp a).

Definition streq (s : list Z) (t : string) : bool := bool_decide (s = str t).

Definition lookup_param (a : lookup_args) (nv : list Z * list Z) : lookup_args :=
  let '(name, value) := nv in
  let mk indx dispfp skshash exact mrhkp :=
    mkArgs (la_op a) (la_search a) (la_keyid a) (la_fingerprint a) (la_ishex a) (la_isfp a) indx dispfp skshash exact mrhkp in
  if streq name "op" then
    if streq value "get" then set_op a OP_GET else if streq value "hget" then set_op a OP_HGET
    else if streq value "index" then set_op a OP_INDEX else if streq value "vindex" then set_op a OP_VINDEX
    else if streq value "photo" then set_op a OP_PHOTO else a
  else if streq name "search" then set_search a value
  else if streq name "idx" then mk (atoi value) (la_dispfp a) (la_skshash a) (la_exact a) (la_mrhkp a)
  else if streq name "fingerprint" then if streq value "on" then mk (la_indx a) true (la_skshash a) (la_exact a) (la_mrhkp a) else a
  else if streq name "hash" then if streq value "on" then mk (la_indx a) (la_dispfp a) true (la_exact a) (la_mrhkp a) else a
  else if streq name "exact" then if streq value "on" then mk (la_indx a) (la_dispfp a) (la_skshash a) true (la_mrhkp a) else a
  else if streq name "options" then if streq value "mr" then mk (la_indx a) (la_dispfp a) (la_skshash a) (la_exact a) true else a
  else a.

Definition lookup_params (params : option (list (list Z * list Z))) : lookup_args := foldl lookup_param no_args (default [] params).

(** * The operations *)

Record lookup_config : Type := mkLookupConfig {
  lc_policies : Z; lc_maxkeys : Z; lc_clean : onak_config; lc_contact : option (list Z); lc_version : list Z;
  lc_template : option (list Z); lc_now : Z }.

Section Lookup.
Context {HF : Hashes} {BC : BuildConfig} {NT : Nettle} {D : Type} {DB : KeyDb D} {DM : KeyDbMore D}.
Context (stack : list Z) (config : lookup_config).

Definition need_fp (fp : option openpgp_fingerprint) : outcome openpgp_fingerprint :=
  match fp with Some fp => Done fp | None => Fault Uninitialised end.

(** The fetch that a search stands for. *)
Definition fetch_search (dbctx : D) (a : lookup_args) : outcome (Z * list openpgp_publickey) :=
  if la_ishex a then Done (fetch_key_id dbctx (la_keyid a) false)
  else if la_isfp a then fp ← need_fp (la_fingerprint a); Done (fetch_key_fp dbctx fp false)
  else match la_search a with Some s => Done (fetch_key_text dbctx s) | None => Fault NullDeref end.

Definition index_page (dbctx : D) (a : lookup_args) (keys : list openpgp_publickey) (verbose : bool) : outcome (list Z) :=
  key_index (Some (generic_keyid2uid dbctx)) (lc_template config) keys (lc_now config) verbose (la_dispfp a) (la_skshash a) true.

Definition find_keys (dbctx : D) (a : lookup_args) (verbose : bool) : outcome (list Z) :=
  '(count, publickey) ← fetch_search dbctx a;
  match publickey with
  | _ :: _ =>
      if la_mrhkp a then index ← mrkey_index publickey; Done (str "info:1:" ++ decimal count ++ [10] ++ index)
      else index_page dbctx a publickey verbose
  | [] =>
      if count =? 0 then if la_mrhkp a then Done (puts (str "info:1:0")) else index_page dbctx a [] verbose
      else if la_mrhkp a then Done (puts (str "info:1:0"))
      else Done (str "Found " ++ decimal count ++ str " keys, but maximum number to return is " ++ decimal (lc_maxkeys config) ++ str "." ++ [10]
                 ++ puts (str "Try again with a more specific search."))
  end.

Definition text_plain : list Z := puts (str "Content-Type: text/plain" ++ [10]).

(** The headers of a download, named after the first key. *)
Definition download_headers (key : openpgp_publickey) : outcome (list Z) :=
  '(rc, got_fp) ← get_fingerprint (pk_publickey key);
  if status_ok rc then
    bs ← memcpy_from (fp_bytes got_fp) 0 (fp_length got_fp);
    Done (str "Content-Type: application/pgp-keys" ++ [10] ++ str "Content-Disposition: attachment; filename=" ++ [34] ++ str "0x"
          ++ hex_of_bytes true bs ++ str ".asc" ++ [34] ++ [10; 10])
  else Done (puts (str "Content-Type: application/pgp-keys" ++ [10])).

(** [case OP_GET], [case OP_HGET]; a hash that cannot be parsed is used as it
    is, here as the octets [junk] of the variable. *)
Definition lookup_get (dbctx : D) (a : lookup_args) (junk : list Z) : outcome (list Z) :=
  '(result, publickey) ←
    (if bool_decide (la_op a = OP_HGET) then
       match la_search a with
       | Some s => '(_, hash) ← parse_skshash s junk; Done (fetch_key_skshash dbctx hash)
       | None => Fault NullDeref
       end
     else fetch_search dbctx a);
  if result =? 0 then Done (text_plain ++ puts (str "Key not found"))
  else
    match publickey with
    | [] => Fault NullDeref
    | key :: _ =>
        headers ← download_headers key;
        '(publickey, _) ← cleankeys dbctx stack (lc_clean config) (Some publickey) (lc_policies config);
        packets ← flatten_publickey (default [] publickey) [];
        out ← armor_openpgp_stream (mkOut []) packets;
        Done (headers ++ out_written out)
    end.

Definition lookup_photo (dbctx : D) (a : lookup_args) : outcome (list Z) :=
  let not_found (why : string) := puts (str "Status: 404 Not Found") ++ text_plain ++ puts (str why) in
  publickey ← (if la_isfp a then fp ← need_fp (la_fingerprint a); Done (fetch_key_fp dbctx fp false).2
               else Done (fetch_key_id dbctx (la_keyid a) false).2);
  match publickey with
  | [] => Done (not_found "No such key."%string)
  | key :: _ =>
      '(rc, photo) ← getphoto key (la_indx a);
      match photo with
      | Some (image, length) =>
          if status_ok rc then image ← memcpy_from image 0 length; Done (puts (str "Content-Type: image/jpeg" ++ [10]) ++ image)
          else Done (not_found "No photo at that index."%string)
      | None => if status_ok rc then Done (puts (str "Content-Type: image/jpeg" ++ [10])) else Done (not_found "No photo at that index."%string)
      end
  end.

Definition lookup_footer (contact : option (list Z)) : list Z :=
  puts (str "<hr>") ++ puts (str " &mdash; onak " ++ lc_version config ++ str " &mdash;") ++
  puts (str " <a href=" ++ [34] ++ str "../" ++ [34] ++ str "> .. </a> &mdash;") ++
  match contact with
  | Some c => puts (str " <a href=" ++ [34] ++ str "lookup?op=index&amp;search=") ++ c ++ puts ([34] ++ str ">contact</a>")
  | None => []
  end ++ end_html.

Definition lookup_main (params : option (list (list Z * list Z))) (db : option D) (junk : list Z) : outcome (list Z) :=
  let a := lookup_params params in
  let is_download := bool_decide (la_op a = OP_GET) || bool_decide (la_op a = OP_HGET) in
  let is_photo := bool_decide (la_op a = OP_PHOTO) in
  let head := puts (str "Access-Control-Allow-Origin: *") ++
    (if la_mrhkp a then text_plain else if is_photo || is_download then [] else start_html "Lookup of key") in
  '(body, contact) ←
    match la_op a, la_search a with
    | OP_UNKNOWN, _ => Done (puts (str "Error: No operation supplied."), None)
    | _, None => Done ((if is_download then text_plain else []) ++ puts (str "Error: No key to search for supplied."), None)
    | op, Some _ =>
        body ← match db with
               | None => Done (if is_download then text_plain ++ puts (str "Key database unavailable") else [])
               | Some dbctx =>
                   match op with
                   | OP_GET | OP_HGET => lookup_get dbctx a junk
                   | OP_INDEX => find_keys dbctx a false
                   | OP_VINDEX => find_keys dbctx a true
                   | OP_PHOTO => lookup_photo dbctx a
                   | OP_UNKNOWN => Done (puts (str "Unknown operation!"))
                   end
               end;
        Done (body, match lc_contact config with Some (_ :: _ as c) => Some c | _ => None end)
    end;
  Done (head ++ body ++ (if negb (la_mrhkp a) && negb is_download && negb is_photo then lookup_footer contact else [])).
End Lookup.
