(* ===== verification/CgiPrograms.v ===== *)
(** The input of a CGI program ([getcgivars] of cgi/getcgi.c) and the programs
    that take keys in (cgi/add.c) and answer reconciliation queries
    (cgi/hashquery.c).

    A program's environment and standard input are values; what it prints is the
    text it returns. *)

From Stdlib Require Import String.
From S2P Require Import Prelude CLib OpenPGP Streams DbCtx KeyId KeyArray Packets Armor Keys SigCheck Clean KeyUpdate Marshal Cgi FsDb Lookup.

(** * Requests *)

Record cgi_request : Type := mkRequest {
  rq_method : option (list Z); rq_query : option (list Z); rq_type : option (list Z); rq_length : option (list Z);
  rq_argv1 : option (list Z); rq_stdin : list Z }.

(** The variables, or the text with which the program exits. *)
Inductive cgi_vars : Type :=
  | CgiVars (vars : option (list (list Z * list Z)))
  | CgiExit (message : list Z).

(** [fread(buf, size, 1, stdin)] into [room] octets: the octets, or [None]
    when there are fewer; a short read has written what there was. *)
Definition fread1 (room size : Z) (stdin : list Z) : outcome (option (list Z)) :=
  if room <? Z.min size (zlen stdin) then Fault OutOfBounds
  else Done (if zlen stdin <? size then None else Some (take (Z.to_nat size) stdin)).

Section Programs.
Variable malloc_ok : Z -> bool.

(** The [POST] branch; [content_length + 1] is converted for [malloc], and the
    terminator goes to [cgiinput[content_length]]. *)
Definition read_post (rq : cgi_request) : outcome (list Z + list Z) :=
  let exit_ s := Done (inr (str s ++ [10])) in
  if negb (match rq_type rq with Some t => caseeq t (str "application/x-www-form-urlencoded") | None => true end) then exit_ "getcgivars(): Unsupported Content-Type."%string
  else
    let content_length := match rq_length rq with Some e => atoi e | None => 0 end in
    if content_length =? 0 then exit_ "getcgivars(): No Content-Length was sent with the POST request."%string
    else
      let room := u64 (i32 (content_length + 1)) in
      if negb (malloc_ok room) then exit_ "getcgivars(): Could not malloc for cgiinput."%string
      else
        body ← fread1 room (u64 content_length) (rq_stdin rq);
        match body with
        | None => exit_ "Couldn't read CGI input from STDIN."%string
        | Some body => if content_length <? 0 then Fault OutOfBounds else Done (inl (c_string body))
        end.

Definition getcgivars (rq : cgi_request) : outcome cgi_vars :=
  let vars input := pairs ← parse_cgiinput input; Done (CgiVars (Some pairs)) in
  match rq_method rq with
  | None => match rq_argv1 rq with Some input => vars input | None => Done (CgiVars None) end
  | Some [] => Done (CgiVars None)
  | Some m =>
      if streq m "GET" || streq m "HEAD" then
        match rq_query rq with Some input => vars input | None => Done (CgiVars None) end
      else if streq m "POST" then
        r ← read_post rq;
        match r with inl input => vars input | inr message => Done (CgiExit message) end
      else Done (CgiExit (str "getcgivars(): unsupported REQUEST_METHOD" ++ [10]))
  end.

(** * Adding keys *)

Section Database.
Context {HF : Hashes} {BC : BuildConfig} {NT : Nettle} {D : Type} {DB : KeyDb D} {DM : KeyDbMore D}.
Context (stack : list Z) (config : onak_config) (clean_policies : Z) (blacklist : option keyarray).

(** The last [keytext] is the one that counts. *)
Definition keytext_param (vars : option (list (list Z * list Z))) : option (list Z) :=
  foldl (fun text nv => if streq nv.1 "keytext" then Some nv.2 else text) None (default [] vars).

(** [dearmor_openpgp_stream(buffer_fetchchar, &ctx, &packets)] *)
Definition dearmor_text (text : list Z) : outcome (list openpgp_packet) :=
  '(_, packets) ← dearmor_openpgp_stream (S (length text)) malloc_ok (mkBuffer text 0 (zlen text)) [];
  Done packets.

(** Cleaning and storing: the database, the keys mailed to the peers if any,
    and the number of new keys. *)
Definition add_keys (dbctx : D) (keys : list openpgp_publickey) : outcome (D * option (list openpgp_publickey) * Z) :=
  '(keys, _) ← cleankeys dbctx stack config (match keys with [] => None | _ => Some keys end) clean_policies;
  '(dbctx, _, mailed, count) ←
    generic_update_keys dbctx (default [] keys) blacklist (policy clean_policies ONAK_CLEAN_UPDATE_ONLY) true;
  Done (dbctx, mailed, count).

(** The page, and what happened to the database if it was opened and used. *)
Definition add_main (rq : cgi_request) (db : option D)
    : outcome (list Z * option (D * option (list openpgp_publickey) * Z)) :=
  vars ← getcgivars rq;
  match vars with
  | CgiExit message => Done (message, None)
  | CgiVars vars =>
      let page s := start_html "onak : Add" ++ s ++ end_html in
      match keytext_param vars with
      | None => Done (page (puts (str "Error: No keytext to add supplied.")), None)
      | Some text =>
          packets ← dearmor_text text;
          match packets with
          | [] => Done (page (puts (str "No OpenPGP packets found in input.")), None)
          | _ =>
              '(keys, count) ← parse_keys packets [];
              let out := page (puts (str "Key block added to key server database.")
                               ++ str "  New public keys added: " ++ decimal count ++ [10]) in
              match db with
              | None => Done (out, None)
              | Some dbctx => r ← add_keys dbctx keys; Done (out, Some r)
              end
          end
      end
  end.

(** * Looking keys up *)

Definition lookup_program (lookup : lookup_config) (rq : cgi_request) (db : option D) (junk : list Z) : outcome (list Z) :=
  vars ← getcgivars rq;
  match vars with
  | CgiExit message => Done message
  | CgiVars vars => lookup_main stack lookup vars db junk
  end.

(** * Reconciliation queries *)

Definition MAX_QUERY_SIZE : Z := 1024 * 1024.

Definition doerror (status error : string) : list Z :=
  str "Status: " ++ str status ++ [10] ++ str "Content-Type: text/plain" ++ [10; 10] ++ str error.

Definition doerror_nl (status error : string) : list Z := doerror status error ++ [10].

(** The loop over the hashes; one that could not be read is a NULL pointer,
    which the backend dereferences. *)
Fixpoint query_loop (dbctx : D) (hashes : list (option (list Z))) : outcome (list (list openpgp_publickey)) :=
  match hashes with
  | [] => Done []
  | None :: _ => Fault NullDeref
  | Some hash :: hashes =>
      let key := (fetch_key_skshash dbctx hash).2 in
      keys ← query_loop dbctx hashes;
      Done (match key with [] => keys | _ => key :: keys end)
  end.

Definition hashquery_main (rq : cgi_request) (db : option D) (has_skshash : bool) : outcome (list Z) :=
  if negb (match rq_method rq with Some m => streq m "POST" | None => false end) then
    Done (doerror_nl "405 Method Not Allowed" "hashquery must be a HTTP POST request.")
  else
    let size := u64 (match rq_length rq with Some e => atoi e | None => 0 end) in
    if size =? 0 then Done (doerror_nl "411 Length Required" "Must provide a content length.")
    else if MAX_QUERY_SIZE <? size then Done (doerror_nl "413 Payload Too Large" "Query too large.")
    else if negb (malloc_ok size) then Done (doerror_nl "500 Internal Server Error" "Couldn't allocate memory for query content.")
    else
      body ← fread1 size size (rq_stdin rq);
      match body with
      | None => Done (doerror_nl "400 Bad Request" "Couldn't read query.")
      | Some body =>
          '(_, hashes) ← unmarshal_array unmarshal_skshash (mkBuffer body 0 size);
          match hashes with
          | None => Done (doerror_nl "400 Bad Request" "No hashes supplied.")
          | Some hashes =>
              if negb (malloc_ok (8 * zlen hashes)) then
                Done (doerror_nl "500 Internal Server Error" "Couldn't allocate memory for reply.")
              else
                match db with
                | None => Done (doerror "500 Internal Server Error" "Failed to open key database.")
                | Some dbctx =>
                    if negb has_skshash then Done (doerror "501 Not Implemented" "Can't fetch by skshash with this backend.")
                    else
                      keys ← query_loop dbctx hashes;
                      out ← marshal_array marshal_publickey (mkOut []) keys;
                      Done (puts (str "Content-Type: pgp/keys" ++ [10]) ++ out_written out ++ [10])
                end
          end
      end.
End Database.
End Programs.
