(* ===== verification/CgiFacts.v ===== *)
(** What the CGI programs do: a key that one server hands out is what another
    one takes in, the photo links of a listing are answered with the photo, and
    a reconciliation query is answered with the keys it names. *)

From Stdlib Require Import String.
From S2P Require Import Prelude CLib OpenPGP Streams DbCtx KeyId KeyArray Packets Armor Keys KeyBuffer SigCheck Clean KeyUpdate Marshal Photo Cgi FsDb FsDbFacts FileDb Template KeyIndex Lookup CgiPrograms.

(** * Armored text in a form *)

Lemma text_app a b : text (a ++ b) <-> text a /\ text b.
Proof. apply Forall_app. Qed.

(** A character of a text. *)
Definition letter (c : Z) : Prop := 0 < c < 256.

Lemma encode64_letter c : 0 <= c -> letter (encode64 c).
Proof.
  intros Hc. unfold encode64, letter.
  destruct (Z.leb_spec c 25); [unfold u8, chr_A; rewrite Z.mod_small; lia|].
  destruct ((26 <=? c) && (c <=? 51)) eqn:E1; [unfold u8, chr_a; rewrite Z.mod_small; lia|].
  destruct ((52 <=? c) && (c <=? 61)) eqn:E2; [unfold u8, chr_0; rewrite Z.mod_small; lia|].
  repeat case_if; unfold chr_plus, chr_slash; lia.
Qed.

Lemma encode64_u8_letter c : letter (encode64 (u8 c)).
Proof. apply encode64_letter, u8_byte. Qed.

Lemma newline_text n : text (newline_at n).
Proof. unfold newline_at. case_if; [apply Forall_singleton; unfold chr_nl; lia | constructor]. Qed.

Ltac letters :=
  repeat first [ apply Forall_nil_2 | apply newline_text
               | apply Forall_cons_2; [first [apply encode64_u8_letter | unfold letter, chr_eq, chr_nl; lia | assumption]|] ].

Lemma octet_text a c : 0 <= c -> text (octet_chars a c).
Proof.
  intros Hc. unfold octet_chars, octet_digits. apply text_app. split; [|apply newline_text].
  assert (letter (encode64 (Z.land c 63))) by (apply encode64_letter, Z.land_nonneg; lia).
  unfold text. repeat case_if; letters.
Qed.

Lemma armor_chars_text bs : Forall byte bs -> forall a, text (armor_chars a bs).
Proof.
  induction 1 as [|c bs Hc _ IH]; intros a; [constructor|]. cbn [armor_chars]. apply text_app.
  split; [apply octet_text; unfold byte in Hc; lia | apply IH].
Qed.

Lemma fixed_text s : forallb (fun c => (0 <? c) && (c <? 256)) s = true -> text s.
Proof.
  intros H. apply Forall_forall. intros c Hc. rewrite forallb_forall in H.
  specialize (H c ltac:(by apply list_elem_of_In)). lia.
Qed.

Lemma armor_text_text bs : Forall byte bs -> text (armor_text bs).
Proof.
  intros Hb. unfold armor_text, final_chars, final_digits, final_break, checksum_chars. rewrite !text_app.
  split_and!; [by apply fixed_text | by apply armor_chars_text | | | | by apply fixed_text].
  - unfold text. repeat case_if; cbn [app]; letters.
  - case_if; by apply fixed_text.
  - unfold text. letters.
Qed.

(** There is at least one character for an octet. *)
Lemma armor_chars_length_low bs : forall a, 0 <= as_cur a < 3 -> zlen bs <= zlen (armor_chars a bs).
Proof.
  induction bs as [|c bs IH]; intros a Ha; [done|]. cbn [armor_chars]. rewrite zlen_app, zlen_cons.
  assert (1 <= zlen (octet_chars a c)).
  { unfold octet_chars. rewrite zlen_app. pose proof (zlen_nonneg (newline_at (octet_count a))). unfold octet_digits.
    destruct (Z.eqb_spec (as_cur a) 0); [rewrite zlen_cons, zlen_nil; lia|].
    destruct (Z.eqb_spec (as_cur a) 1); [rewrite zlen_cons, zlen_nil; lia|].
    destruct (Z.eqb_spec (as_cur a) 2); [rewrite !zlen_cons, zlen_nil; lia | lia]. }
  specialize (IH (octet_state a c)). cbn [octet_state as_cur] in IH.
  pose proof (Z.rem_bound_pos (as_cur a + 1) 3). lia.
Qed.

Lemma encode_packets_byte ps : Forall encodable ps -> Forall byte (encode_packets ps).
Proof.
  intros H. unfold encode_packets. apply Forall_concat, Forall_map. eapply Forall_impl; [exact H|]. apply encode_packet_byte.
Qed.

(** The packets come back from the text, whatever stands behind it. *)
Lemma dearmor_armored malloc_ok ps rest :
  let t := armor_text (encode_packets ps) ++ rest in
  Forall encodable ps -> Forall version_sane ps -> Forall (fun p => malloc_ok (pkt_length p) = true) ps ->
  zlen (encode_packets ps) <= 2 ^ 30 -> zlen t < 2 ^ 62 ->
  exists s', dearmor_openpgp_stream (S (length t)) malloc_ok (mkBuffer t 0 (zlen t)) [] = Done (s', ps).
Proof.
  intros t He Hv Hm Hc Hl. pose proof (zlen_nonneg t).
  assert (Hr : reading (mkBuffer t 0 (zlen t)) t) by (repeat split; cbn [buf_size buf_offset]; lia).
  assert (Et : exists tail, t = armor_header ++ armor_chars state0 (encode_packets ps) ++
    final_digits (armor_run state0 (encode_packets ps)) ++ final_break (armor_run state0 (encode_packets ps)) ++ chr_eq :: tail).
  { unfold t, armor_text, final_chars, checksum_chars. rewrite <- !app_assoc. cbn [app]. eauto. }
  destruct Et as [tail Et]. pose proof (encode_packets_count ps).
  apply (dearmor_stream_spec (R := reading) (S (length t)) malloc_ok ps (mkBuffer t 0 (zlen t)) tail []);
    [rewrite <- Et; exact Hr | done | done | done | done | rewrite <- Et; lia |].
  pose proof (armor_chars_length_low (encode_packets ps) state0 ltac:(cbn; lia)) as Hlow.
  apply (f_equal zlen) in Et. rewrite !zlen_app in Et. pose proof (zlen_nonneg armor_header).
  pose proof (zlen_nonneg (final_digits (armor_run state0 (encode_packets ps)))).
  pose proof (zlen_nonneg (final_break (armor_run state0 (encode_packets ps)))). pose proof (zlen_nonneg (chr_eq :: tail)).
  unfold zlen in *. lia.
Qed.

Lemma dearmor_text_armored malloc_ok ps :
  Forall encodable ps -> Forall version_sane ps -> Forall (fun p => malloc_ok (pkt_length p) = true) ps ->
  zlen (encode_packets ps) <= 2 ^ 30 ->
  dearmor_text malloc_ok (armor_text (encode_packets ps)) = Done ps.
Proof.
  intros He Hv Hm Hl. unfold dearmor_text. pose proof (armor_text_length (encode_packets ps)).
  destruct (dearmor_armored malloc_ok ps []) as [s' E]; [done | done | done | done | rewrite app_nil_r; lia |].
  rewrite app_nil_r in E. by rewrite E.
Qed.

(** * Requests *)

Lemma c_string_text s : Forall (fun c => c <> 0) s -> c_string s = s.
Proof. induction 1 as [|c s Hc _ IH]; [done|]. cbn [c_string]. destruct (Z.eqb_spec c 0); [done|]. by rewrite IH. Qed.

(** A text that is posted, a form that is posted, and a query. *)
Definition posted (body : list Z) : cgi_request :=
  mkRequest (Some (str "POST")) None (Some (str "application/x-www-form-urlencoded")) (Some (decimal (zlen body))) None body.

Definition post_form (pairs : list (list Z * list Z)) : cgi_request := posted (form pairs).

Definition get_query (query : list Z) : cgi_request := mkRequest (Some (str "GET")) (Some query) None None None [].

Lemma getcgivars_posted malloc_ok body pairs :
  parse_cgiinput body = Done pairs -> Forall (fun c => c <> 0) body -> 0 < zlen body < 2 ^ 31 - 1 -> malloc_ok (zlen body + 1) = true ->
  getcgivars malloc_ok (posted body) = Done (CgiVars (Some pairs)).
Proof.
  intros Hp H0 Hl Hm. unfold getcgivars. cbn [posted rq_method]. cbn [str].
  change (streq (str "POST") "GET" || streq (str "POST") "HEAD") with false. change (streq (str "POST") "POST") with true.
  cbv iota. unfold read_post. cbn [posted rq_type rq_length rq_stdin].
  change (caseeq (str "application/x-www-form-urlencoded") (str "application/x-www-form-urlencoded")) with true. cbn [negb].
  cbv zeta. rewrite atoi_dec by lia. destruct (Z.eqb_spec (zlen body) 0); [lia|].
  rewrite (i32_small (zlen body + 1)), !u64_small, Hm by lia. cbn [negb]. unfold fread1. rewrite Z.min_id.
  destruct (Z.ltb_spec (zlen body + 1) (zlen body)); [lia|]. rewrite Z.ltb_irrefl. cbn [mbind outcome_bind].
  destruct (Z.ltb_spec (zlen body) 0); [lia|]. unfold zlen. rewrite Nat2Z.id, firstn_all.
  rewrite c_string_text by done. cbn [mbind outcome_bind]. by rewrite Hp.
Qed.

Lemma getcgivars_post malloc_ok pairs :
  Forall text_pair pairs -> 0 < zlen (form pairs) < 2 ^ 31 - 1 -> malloc_ok (zlen (form pairs) + 1) = true ->
  getcgivars malloc_ok (post_form pairs) = Done (CgiVars (Some pairs)).
Proof. intros Hp Hl Hm. apply getcgivars_posted; [by apply parse_form | by apply form_chars | done | done]. Qed.

Lemma getcgivars_get malloc_ok pairs :
  Forall text_pair pairs -> getcgivars malloc_ok (get_query (form pairs)) = Done (CgiVars (Some pairs)).
Proof. intros Hp. unfold getcgivars, get_query. cbn -[parse_cgiinput form]. by rewrite parse_form. Qed.

(** * The links of a listing *)

Lemma hex_digit_upper x : 0 <= x < 16 -> alnum (hex_digit true x) = true /\ isxdigit (hex_digit true x) = true.
Proof.
  intros Hx. assert (Hall : forallb (fun x => alnum (hex_digit true x) && isxdigit (hex_digit true x)) (seqZ 0 16) = true) by reflexivity.
  rewrite forallb_forall in Hall. apply andb_prop, Hall. apply list_elem_of_In, elem_of_seqZ. lia.
Qed.

Lemma hexn_chars n : forall x, Forall (fun c => alnum c = true /\ isxdigit c = true) (hexn n x) /\ length (hexn n x) = n.
Proof.
  induction n as [|n IH]; intros x; [by split|]. cbn [hexn]. destruct (IH (x / 16)) as [H1 H2]. rewrite length_app, H2. split.
  - apply Forall_app. split; [done|]. apply Forall_singleton, hex_digit_upper, Z.mod_pos_bound. lia.
  - cbn. lia.
Qed.

Lemma span_xdigits_all s : Forall (fun c => isxdigit c = true) s -> span_xdigits s = (s, []).
Proof. induction 1 as [|c s Hc _ IH]; [done|]. cbn [span_xdigits]. by rewrite Hc, IH. Qed.

(** A number in hexadecimal digits, as it is written into a query. *)
Definition hex_number (d : list Z) (keyid : Z) : Prop :=
  Forall (fun c => isxdigit c = true) d /\ hexval d = keyid /\ (0 < length d <= 16)%nat /\ 0 <= keyid < 2 ^ 64.

Lemma hexn_number keyid : 0 <= keyid < 2 ^ 64 -> hex_number (hexn 16 keyid) keyid.
Proof.
  intros Hk. destruct (hexn_chars 16 keyid) as [Hc Hn]. split; [|split; [|split; [lia | done]]].
  - eapply Forall_impl; [exact Hc|]. by intros c [_ ?].
  - apply hexval_hexn. change (16 ^ Z.of_nat 16) with (2 ^ 64). lia.
Qed.

Lemma strtoull16_hex d keyid : hex_number d keyid -> strtoull16 (str "0x" ++ d) = (keyid, []).
Proof.
  intros (Hd & Hv & Hn & Hk). pose proof (span_xdigits_all d Hd) as Hs. destruct d as [|c r]; [cbn in Hn; lia|].
  apply Forall_cons in Hd as [Hx _]. unfold strtoull16. change (str "0x" ++ c :: r) with (48 :: 120 :: c :: r).
  change (skip_space (48 :: 120 :: c :: r)) with (48 :: 120 :: c :: r). cbv iota beta.
  change (48 =? 45) with false. change (48 =? 43) with false. cbv iota.
  rewrite Hx. change ((48 =? 48) && ((120 =? 120) || (120 =? 88))) with true. cbn [andb]. rewrite Hs. cbv iota beta zeta.
  unfold hexval in Hv. rewrite Hv. destruct (Z.leb_spec (2 ^ 64) keyid); [lia | done].
Qed.

(** A search for a key id. *)
Lemma set_search_hex a d keyid :
  hex_number d keyid ->
  set_search a (str "0x" ++ d) = mkArgs (la_op a) (Some (str "0x" ++ d)) keyid (la_fingerprint a) true (la_isfp a) (la_indx a)
                                   (la_dispfp a) (la_skshash a) (la_exact a) (la_mrhkp a).
Proof.
  intros Hd. unfold set_search. rewrite (strtoull16_hex d keyid Hd). destruct Hd as (_ & _ & Hn & _).
  assert (Hl : zlen (str "0x" ++ d) = 2 + Z.of_nat (length d)) by (rewrite zlen_app; done). rewrite Hl.
  destruct (Z.eqb_spec (2 + Z.of_nat (length d)) (2 + 2 * 20)); [lia|].
  destruct (Z.eqb_spec (2 + Z.of_nat (length d)) (2 + 2 * 32)); [lia|]. done.
Qed.

(** What the query of a link to a key stands for. *)
Definition key_query (op : string) (keyid : Z) : list (list Z * list Z) := [(str "op", str op); (str "search", hexid keyid)].

Lemma alnum_escape s : Forall (fun c => alnum c = true) s -> escape_all s = s.
Proof.
  induction 1 as [|c s Hc _ IH]; [done|]. unfold escape_all in *. cbn [map concat]. rewrite IH. unfold escape. by rewrite Hc.
Qed.

Lemma hexid_alnum keyid : Forall (fun c => alnum c = true) (hexid keyid).
Proof.
  unfold hexid. apply Forall_app. split; [by repeat constructor|].
  eapply Forall_impl; [apply (hexn_chars 16 keyid)|]. by intros c [? _].
Qed.

Lemma alnum_text s : Forall (fun c => alnum c = true) s -> text s.
Proof. intros H. eapply Forall_impl; [exact H|]. intros c Hc. unfold alnum in Hc. cbn in *. lia. Qed.

Definition alnum_pair (nv : list Z * list Z) : Prop :=
  Forall (fun c => alnum c = true) nv.1 /\ Forall (fun c => alnum c = true) nv.2.

(** Names and values of letters and digits are written as they are. *)
Lemma form_alnum pairs :
  Forall alnum_pair pairs ->
  form pairs = joined chr_amp (map (fun nv => nv.1 ++ chr_equals :: nv.2) pairs) /\ Forall text_pair pairs.
Proof.
  intros Hp. split.
  - unfold form. f_equal. induction Hp as [|nv pairs [H1 H2] _ IH]; [done|]. cbn [map]. rewrite IH. f_equal.
    unfold form_pair. by rewrite !alnum_escape.
  - eapply Forall_impl; [exact Hp|]. intros nv [H1 H2]. split; by apply alnum_text.
Qed.

Lemma decimal_alnum x : 0 <= x < 2 ^ 31 -> Forall (fun c => alnum c = true) (decimal x).
Proof.
  intros Hx. unfold decimal. destruct (Z.ltb_spec x 0); [lia|].
  destruct (dec_digits_value 10 x []) as (_ & Hd & _); [lia | lia | constructor |].
  eapply Forall_impl; [exact Hd|]. intros c Hc. unfold isdigit in Hc. cbn in *. unfold alnum. by rewrite Hc.
Qed.

Lemma key_query_form op keyid :
  Forall (fun c => alnum c = true) (str op) ->
  str "op=" ++ str op ++ str "&search=" ++ hexid keyid = form (key_query op keyid) /\ Forall text_pair (key_query op keyid).
Proof.
  intros Ho. destruct (form_alnum (key_query op keyid)) as [-> Ht].
  - repeat apply Forall_cons_2; try apply Forall_nil_2; split; try done; try apply hexid_alnum; by repeat constructor.
  - split; [|done]. unfold key_query. cbn [map joined concat fst snd app]. change (str "op") with [111; 112].
    change (str "op=") with [111; 112; 61]. cbn [app]. rewrite <- !app_assoc, app_nil_r. done.
Qed.

Definition photo_query (keyid indx : Z) : list (list Z * list Z) := key_query "photo" keyid ++ [(str "idx", decimal indx)].

(** The query of the link that a listing has for a photo. *)
Lemma photo_query_form keyid indx :
  0 <= indx < 2 ^ 31 ->
  str "op=photo&search=" ++ hexid keyid ++ str "&idx=" ++ decimal indx = form (photo_query keyid indx) /\
  Forall text_pair (photo_query keyid indx).
Proof.
  intros Hi. destruct (form_alnum (photo_query keyid indx)) as [-> Ht].
  - repeat apply Forall_cons_2; try apply Forall_nil_2; split;
      try (by apply hexid_alnum); try (by apply decimal_alnum); by repeat constructor.
  - split; [|done]. unfold photo_query, key_query. cbn [map joined concat fst snd app]. rewrite <- !app_assoc, app_nil_r. done.
Qed.

Lemma lookup_param_search a s : lookup_param a (str "search", s) = set_search a s.
Proof. reflexivity. Qed.

Lemma lookup_param_idx a s :
  lookup_param a (str "idx", s) = mkArgs (la_op a) (la_search a) (la_keyid a) (la_fingerprint a) (la_ishex a) (la_isfp a) (atoi s)
                                    (la_dispfp a) (la_skshash a) (la_exact a) (la_mrhkp a).
Proof. reflexivity. Qed.

Definition search_query (search : list Z) : list (list Z * list Z) := [(str "op", str "get"); (str "search", search)].

Lemma get_params d keyid :
  hex_number d keyid ->
  lookup_params (Some (search_query (str "0x" ++ d))) =
  mkArgs OP_GET (Some (str "0x" ++ d)) keyid None true false 0 false false false false.
Proof.
  intros Hd. unfold lookup_params, search_query. cbn [from_option id foldl].
  change (lookup_param no_args (str "op", str "get")) with (set_op no_args OP_GET).
  by rewrite lookup_param_search, (set_search_hex _ _ keyid).
Qed.

Lemma photo_params keyid indx :
  0 <= keyid < 2 ^ 64 -> 0 <= indx < 2 ^ 31 ->
  lookup_params (Some (photo_query keyid indx)) =
  mkArgs OP_PHOTO (Some (hexid keyid)) keyid None true false indx false false false false.
Proof.
  intros Hk Hi. unfold lookup_params, photo_query, key_query. cbn [from_option id foldl app].
  change (lookup_param no_args (str "op", str "photo")) with (set_op no_args OP_PHOTO).
  unfold hexid. rewrite lookup_param_search, (set_search_hex _ _ keyid) by by apply hexn_number.
  by rewrite lookup_param_idx, atoi_dec by lia.
Qed.

(** * From one server to another *)

Section Servers.
Context {HF : Hashes} {BC : BuildConfig} {NT : Nettle} {D : Type} {DB : KeyDb D} {DM : KeyDbMore D}.
Variable malloc_ok : Z -> bool.

Definition cors : list Z := puts (str "Access-Control-Allow-Origin: *").

(** The answer to a search that finds a key. *)
Lemma lookup_get_served stack config (db : D) a n key keys ks c headers junk :
  la_op a = OP_GET -> fetch_search db a = Done (n, key :: keys) -> n <> 0 -> download_headers key = Done headers ->
  cleankeys db stack (lc_clean config) (Some (key :: keys)) (lc_policies config) = Done (Some ks, c) ->
  storable malloc_ok ks -> zlen (encode_packets (keys_packets ks)) <= 2 ^ 30 ->
  lookup_get stack config db a junk = Done (headers ++ armor_text (encode_packets (keys_packets ks))).
Proof.
  intros Ha Hf Hn Hh Hc S Hl. unfold lookup_get. rewrite Ha, bool_decide_false by done.
  rewrite Hf. cbn [mbind outcome_bind]. destruct (Z.eqb_spec n 0); [done|]. rewrite Hh. cbn [mbind outcome_bind].
  rewrite Hc. cbn [mbind outcome_bind from_option id]. rewrite flatten_publickey_wf by apply S. cbn [mbind outcome_bind app].
  destruct (armor_stream_spec (W := out_file) (lim := 3 * zlen (encode_packets (keys_packets ks)) + 102) (mkOut []) (keys_packets ks))
    as ([w] & -> & Hw); [done | apply S | lia | done |]. unfold out_file in Hw. cbn in *. by rewrite Hw.
Qed.

(** The same for the program as a whole, when the parameters ask for a key. *)
Lemma lookup_program_served stack config (db : D) query pairs search keyid fp ishex isfp n key keys ks c headers junk :
  let a := mkArgs OP_GET (Some search) keyid fp ishex isfp 0 false false false false in
  getcgivars malloc_ok (get_query query) = Done (CgiVars (Some pairs)) -> lookup_params (Some pairs) = a ->
  fetch_search db a = Done (n, key :: keys) -> n <> 0 -> download_headers key = Done headers ->
  cleankeys db stack (lc_clean config) (Some (key :: keys)) (lc_policies config) = Done (Some ks, c) ->
  storable malloc_ok ks -> zlen (encode_packets (keys_packets ks)) <= 2 ^ 30 ->
  lookup_program malloc_ok stack config (get_query query) (Some db) junk =
  Done (cors ++ headers ++ armor_text (encode_packets (keys_packets ks))).
Proof.
  intros a Eq Ea Hf Hn Hh Hc S Hl. unfold lookup_program. rewrite Eq. cbn [mbind outcome_bind]. unfold lookup_main. rewrite Ea.
  subst a. cbn [la_op la_search la_mrhkp].
  rewrite (bool_decide_true (OP_GET = OP_GET)), (bool_decide_false (OP_GET = OP_PHOTO)) by done. cbn [orb negb andb mbind outcome_bind].
  rewrite (lookup_get_served stack config db _ n key keys ks c headers junk) by done.
  cbn [mbind outcome_bind]. by rewrite !app_nil_r.
Qed.

Lemma escape_all_length s : zlen (escape_all s) <= 3 * zlen s.
Proof.
  induction s as [|c s IH]; [done|]. unfold escape_all in *. cbn [map concat]. rewrite zlen_app, zlen_cons. unfold escape at 1.
  destruct (alnum c); autorewrite with onak; lia.
Qed.

Lemma keytext_form_length t : 0 < zlen (form [(str "keytext", t)]) <= 3 * zlen t + 8.
Proof.
  pose proof (escape_all_length t). pose proof (zlen_nonneg (escape_all t)). unfold form. cbn [joined map concat]. rewrite app_nil_r.
  unfold form_pair. cbn [fst snd]. rewrite zlen_app, zlen_cons. change (zlen (escape_all (str "keytext"))) with 7. lia.
Qed.

Lemma keys_packets_ne ks : Forall wf_key ks -> ks <> [] -> keys_packets ks <> [].
Proof. by destruct ks as [|k ks]; [|intros _ _]. Qed.

(** What the add program says about [ks]. *)
Definition added_page (ks : list openpgp_publickey) : list Z :=
  start_html "onak : Add" ++ (puts (str "Key block added to key server database.")
    ++ str "  New public keys added: " ++ decimal (Z.of_nat (length ks)) ++ [10]) ++ end_html.

Lemma add_main_text {D2} {DB2 : KeyDb D2} stack config policies blacklist (db : D2) rq ks :
  getcgivars malloc_ok rq = Done (CgiVars (Some [(str "keytext", armor_text (encode_packets (keys_packets ks)))])) ->
  storable malloc_ok ks -> ks <> [] -> zlen (encode_packets (keys_packets ks)) < 2 ^ 27 ->
  add_main malloc_ok stack config policies blacklist rq (Some db) =
  (r ← add_keys stack config policies blacklist db (map reparsed ks); Done (added_page ks, Some r)).
Proof.
  intros Hrq S Hne Hl. unfold add_main. rewrite Hrq. cbn [mbind outcome_bind]. unfold keytext_param.
  cbn [from_option id foldl fst snd]. change (streq (str "keytext") "keytext") with true. cbv iota.
  rewrite dearmor_text_armored by (apply S || lia). cbn [mbind outcome_bind].
  destruct (keys_packets ks) as [|p ps] eqn:Ek; [by destruct (keys_packets_ne ks (storable_wf _ _ S) Hne)|]. rewrite <- Ek.
  by rewrite parse_keys_append by apply S.
Qed.

Lemma add_main_posted {D2} {DB2 : KeyDb D2} stack config policies blacklist (db : D2) ks :
  storable malloc_ok ks -> ks <> [] -> zlen (encode_packets (keys_packets ks)) < 2 ^ 27 ->
  (forall n, 0 <= n < 2 ^ 31 -> malloc_ok n = true) ->
  add_main malloc_ok stack config policies blacklist
    (post_form [(str "keytext", armor_text (encode_packets (keys_packets ks)))]) (Some db) =
  (r ← add_keys stack config policies blacklist db (map reparsed ks); Done (added_page ks, Some r)).
Proof.
  intros S Hne Hl Hm. apply add_main_text; [|done..]. set (bs := encode_packets (keys_packets ks)) in *.
  assert (Ht : text (armor_text bs)) by (apply armor_text_text, encode_packets_byte, S).
  pose proof (keytext_form_length (armor_text bs)). pose proof (armor_text_length bs).
  apply getcgivars_post; [| lia | apply Hm; lia]. apply Forall_singleton. split; [by apply fixed_text | done].
Qed.

(** C13: keys travel from one server to another.  A visitor follows the link that
    a listing has for a key; the lookup program answers with headers and an
    armored text; posting that text to the add program of another server makes
    it clean and store exactly the keys that the first one served (with their
    revocation flags recomputed), and report how many there are. *)
Theorem get_add_roundtrip {D2} {DB2 : KeyDb D2} stack config (db : D) keyid n key keys ks c headers junk
    stack2 config2 policies2 blacklist2 (db2 : D2) :
  0 <= keyid < 2 ^ 64 -> fetch_key_id db keyid false = (n, key :: keys) -> n <> 0 -> download_headers key = Done headers ->
  cleankeys db stack (lc_clean config) (Some (key :: keys)) (lc_policies config) = Done (Some ks, c) ->
  storable malloc_ok ks -> ks <> [] -> zlen (encode_packets (keys_packets ks)) < 2 ^ 27 ->
  (forall n, 0 <= n < 2 ^ 31 -> malloc_ok n = true) ->
  exists text,
    lookup_program malloc_ok stack config (get_query (str "op=get&search=" ++ hexid keyid)) (Some db) junk =
      Done (cors ++ headers ++ text) /\
    add_main malloc_ok stack2 config2 policies2 blacklist2 (post_form [(str "keytext", text)]) (Some db2) =
      (r ← add_keys stack2 config2 policies2 blacklist2 db2 (map reparsed ks); Done (added_page ks, Some r)).
Proof.
  intros Hk Hf Hn Hh Hc S Hne Hl Hm. exists (armor_text (encode_packets (keys_packets ks))).
  split; [|by apply add_main_posted]. destruct (key_query_form "get" keyid) as [E Ht]; [by repeat constructor|].
  change (str "op=get&search=" ++ hexid keyid) with (str "op=" ++ str "get" ++ str "&search=" ++ hexid keyid).
  rewrite E. eapply lookup_program_served; [by apply getcgivars_get | by apply get_params, hexn_number | | done.. | lia].
  unfold fetch_search. cbn [la_ishex la_keyid]. by rewrite Hf.
Qed.

(** The photo links of a listing work: the query of the link that
    [list_uids] prints for the photo with number [indx] of a key is answered with
    exactly the image in the key's user attribute of that number. *)
Theorem photo_link_answered stack config (db : D) keyid n key keys indx u image rest junk :
  0 <= keyid < 2 ^ 64 -> 0 <= indx < 2 ^ 31 -> fetch_key_id db keyid false = (n, key :: keys) -> wf_key key ->
  filter is_attribute (pk_uids key) !! Z.to_nat indx = Some u ->
  pkt_data (sp_packet u) = image_attribute image rest -> zlen image < 2 ^ 31 ->
  exists query before after,
    photo_link keyid indx = before ++ str "lookup?" ++ query ++ after /\
    lookup_program malloc_ok stack config (get_query query) (Some db) junk =
      Done (cors ++ puts (str "Content-Type: image/jpeg" ++ [10]) ++ image).
Proof.
  intros Hk Hi Hf Hw Hu Hd Hl. destruct (photo_query_form keyid indx Hi) as [E Ht]. exists (form (photo_query keyid indx)).
  exists (str "<img src=" ++ [34]), ([34] ++ str " alt=" ++ [34] ++ str "[photo id]" ++ [34] ++ str ">"). split.
  { rewrite <- E. unfold photo_link. rewrite <- !app_assoc. done. }
  unfold lookup_program. rewrite getcgivars_get by done. cbn [mbind outcome_bind]. unfold lookup_main.
  rewrite photo_params by done. cbn [la_op la_search la_mrhkp].
  rewrite (bool_decide_true (OP_PHOTO = OP_PHOTO)), !(bool_decide_false (OP_PHOTO = _)) by done. cbn [orb negb andb mbind outcome_bind].
  unfold lookup_photo. cbn [la_isfp la_keyid la_indx]. rewrite Hf. cbn [mbind outcome_bind snd].
  rewrite (getphoto_image key indx u image rest) by (done || lia). cbn [mbind outcome_bind]. change (status_ok ONAK_E_OK) with true.
  cbv iota. pose proof (zlen_nonneg image). pose proof (zlen_nonneg rest).
  rewrite memcpy_from_ok by (rewrite ?zlen_app; lia). cbn [mbind outcome_bind]. rewrite drop_0.
  unfold zlen. by rewrite Nat2Z.id, take_app_length, !app_nil_r.
Qed.

(** * Reconciliation queries *)

(** A query for [hashes] that announces [n] of them. *)
Definition hash_query (n : Z) (hashes : list (list Z)) : list Z := htonl_bytes n ++ concat (map prefixed hashes).

Definition post_query (body : list Z) : cgi_request :=
  mkRequest (Some (str "POST")) None None (Some (decimal (zlen body))) None body.

Definition sks_hash (h : list Z) : Prop := Forall byte h /\ zlen h = SKSHASH_LEN.

(** The keys that a query names, in its order. *)
Definition found_keys (db : D) (hashes : list (list Z)) : list (list openpgp_publickey) :=
  filter (.≠ []) (map (fun h => (fetch_key_skshash db h).2) hashes).

Definition reply (keys : list (list openpgp_publickey)) : list Z :=
  htonl_bytes (zlen keys) ++ concat (map (fun ks => prefixed (encode_packets (keys_packets ks))) keys).

Lemma query_loop_found (db : D) hashes : query_loop db (map Some hashes) = Done (found_keys db hashes).
Proof.
  induction hashes as [|h hashes IH]; [done|]. cbn [map query_loop]. rewrite IH. cbn [mbind outcome_bind]. unfold found_keys.
  cbn [map]. rewrite filter_cons. destruct (fetch_key_skshash db h) as [c [|k ks]]; cbn [snd].
  - by rewrite decide_False by (intros H; by apply H).
  - by rewrite decide_True.
Qed.

Lemma query_loop_null (db : D) hashes more : query_loop db (map Some hashes ++ None :: more) = Fault NullDeref.
Proof. induction hashes as [|h hashes IH]; [done|]. cbn [map app query_loop]. by rewrite IH. Qed.

(** A request whose body is read. *)
Lemma hashquery_body (db : D) body :
  0 < zlen body <= MAX_QUERY_SIZE -> (forall n, 0 <= n < 2 ^ 34 -> malloc_ok n = true) ->
  hashquery_main malloc_ok (post_query body) (Some db) true =
  ('(_, hashes) ← unmarshal_array unmarshal_skshash (mkBuffer body 0 (zlen body));
   match hashes with
   | None => Done (doerror_nl "400 Bad Request" "No hashes supplied.")
   | Some hashes =>
       if negb (malloc_ok (8 * zlen hashes)) then Done (doerror_nl "500 Internal Server Error" "Couldn't allocate memory for reply.")
       else
         keys ← query_loop db hashes;
         out ← marshal_array marshal_publickey (mkOut []) keys;
         Done (puts (str "Content-Type: pgp/keys" ++ [10]) ++ out_written out ++ [10])
   end).
Proof.
  unfold MAX_QUERY_SIZE. intros Hl Hm. unfold hashquery_main. cbn [post_query rq_method rq_length rq_stdin].
  change (streq (str "POST") "POST") with true. cbn [negb]. cbv zeta. rewrite atoi_dec, u64_small by lia.
  destruct (Z.eqb_spec (zlen body) 0); [lia|]. unfold MAX_QUERY_SIZE. destruct (Z.ltb_spec (1024 * 1024) (zlen body)); [lia|].
  rewrite Hm by lia. cbn [negb]. unfold fread1. rewrite Z.min_id, Z.ltb_irrefl. cbn [mbind outcome_bind].
  by rewrite (take_ge body) by (unfold zlen; lia).
Qed.

Lemma hash_query_length n hashes : Forall sks_hash hashes -> zlen (hash_query n hashes) = 4 + 20 * zlen hashes.
Proof.
  intros Hh. unfold hash_query. rewrite zlen_app. change (zlen (htonl_bytes n)) with 4. f_equal.
  induction Hh as [|h hashes [_ Hl] _ IH]; [done|]. cbn [map concat]. rewrite zlen_app, zlen_prefixed, zlen_cons, Hl, IH.
  unfold SKSHASH_LEN. lia.
Qed.

Lemma query_unmarshals n hashes m :
  Forall sks_hash hashes -> zlen (hash_query n hashes) <= MAX_QUERY_SIZE -> n = zlen hashes + Z.of_nat m -> n < 2 ^ 31 ->
  let body := hash_query n hashes in
  exists s', reading s' [] /\ unmarshal_array unmarshal_skshash (mkBuffer body 0 (zlen body)) =
    ('(s, l) ← unmarshal_items unmarshal_skshash s' m; Done (s, Some (map Some hashes ++ l))).
Proof.
  intros Hh Hl -> H31 body. unfold MAX_QUERY_SIZE in Hl. pose proof (zlen_nonneg body).
  apply (unmarshal_array_items (R := reading) unmarshal_skshash prefixed); [|done|].
  - intros s x rest Hx Hr. rewrite list.Forall_forall in Hh. destruct (Hh x Hx) as [_ Hx']. by apply unmarshal_skshash_spec.
  - rewrite app_nil_r. fold (hash_query (zlen hashes + Z.of_nat m) hashes). fold body in Hl |- *.
    repeat split; cbn [buf_size buf_offset buf_buffer]; lia.
Qed.

(** C36: A reconciliation query is answered with the keys of the hashes that the
    database has, in the order of the query: the length of the array, and for
    each key the length and the octets of its packets. *)
Theorem hashquery_correct (db : D) hashes :
  Forall sks_hash hashes -> 4 + 20 * zlen hashes <= MAX_QUERY_SIZE -> (forall n, 0 <= n < 2 ^ 34 -> malloc_ok n = true) ->
  Forall (fun ks => Forall wf_key ks /\ Forall encodable (keys_packets ks) /\ zlen (encode_packets (keys_packets ks)) < 2 ^ 32)
    (found_keys db hashes) ->
  hashquery_main malloc_ok (post_query (hash_query (zlen hashes) hashes)) (Some db) true =
  Done (puts (str "Content-Type: pgp/keys" ++ [10]) ++ reply (found_keys db hashes) ++ [10]).
Proof.
  intros Hh Hl Hm Hk. pose proof (hash_query_length (zlen hashes) hashes Hh) as Hn. pose proof (zlen_nonneg hashes).
  rewrite hashquery_body by (done || lia). unfold MAX_QUERY_SIZE in Hl.
  destruct (query_unmarshals (zlen hashes) hashes 0 Hh) as (s' & _ & ->); [unfold MAX_QUERY_SIZE; lia | lia | lia |].
  cbn [unmarshal_items mbind outcome_bind]. rewrite app_nil_r. unfold zlen at 1. rewrite length_map. fold (zlen hashes).
  rewrite Hm by lia. cbn [negb]. rewrite query_loop_found. cbn [mbind outcome_bind].
  set (ks := found_keys db hashes) in *.
  assert (Hle : zlen ks <= zlen hashes).
  { unfold ks, found_keys, zlen. pose proof (length_filter (.≠ []) (map (fun h => (fetch_key_skshash db h).2) hashes)) as Hf.
    rewrite length_map in Hf. lia. }
  destruct (marshal_array_spec (W := out_file) (lim := 4 + zlen (concat (map (fun ks => prefixed (encode_packets (keys_packets ks))) ks)))
    marshal_publickey (fun ks => prefixed (encode_packets (keys_packets ks))) (mkOut []) [] ks) as ([w] & -> & Hw);
    [| done | lia | rewrite zlen_nil; lia |].
  - intros s out x Hx Hw Hl'. rewrite list.Forall_forall in Hk. destruct (Hk x Hx) as (H1 & H2 & H3). by eapply (marshal_publickey_spec (W := out_file)).
  - unfold out_file in Hw. cbn in Hw. subst w. done.
Qed.

(** A query that announces one hash more than it carries crashes the
    program: the NULL pointer that stands for the missing hash is handed to the
    backend. *)
Theorem hashquery_truncated (db : D) hashes :
  Forall sks_hash hashes -> 4 + 20 * zlen hashes <= MAX_QUERY_SIZE -> (forall n, 0 <= n < 2 ^ 34 -> malloc_ok n = true) ->
  hashquery_main malloc_ok (post_query (hash_query (zlen hashes + 1) hashes)) (Some db) true = Fault NullDeref.
Proof.
  intros Hh Hl Hm. pose proof (hash_query_length (zlen hashes + 1) hashes Hh) as Hn. pose proof (zlen_nonneg hashes).
  rewrite hashquery_body by (done || lia). unfold MAX_QUERY_SIZE in Hl.
  destruct (query_unmarshals (zlen hashes + 1) hashes 1 Hh) as (s' & Hr & ->); [unfold MAX_QUERY_SIZE; lia | lia | lia |].
  destruct (delivers_short (R := reading) s' [] 4 Hr) as (s2 & w & r & E & Hrr); [done | done |].
  cbn [unmarshal_items]. unfold unmarshal_skshash, get_len. rewrite E. cbn [mbind outcome_bind].
  destruct (Z.eqb_spec r 4); [lia|]. cbn [mbind outcome_bind]. unfold zlen at 1. rewrite length_app, length_map. cbn [length].
  rewrite Hm by (unfold zlen in *; lia). cbn [negb]. by rewrite query_loop_null.
Qed.

End Servers.
