(* ===== verification/CgiExample.v ===== *)
(** Requests to a small server. *)

From Stdlib Require Import String.
From S2P Require Import Prelude CLib OpenPGP Streams DbCtx KeyId KeyArray Packets Armor Keys KeyBuffer SigCheck Clean CleanFacts CleanKeys KeyUpdate Marshal Photo Cgi FsDb Template KeyIndex Lookup CgiPrograms CgiFacts.

(** A database of one key, whatever is asked for. *)
#[local] Instance one_key : KeyDb openpgp_publickey := {|
  starttrans d := (d, true); endtrans d := d;
  fetch_key d _ _ := (1, [d]); fetch_key_id d _ _ := (1, [d]); fetch_key_fp d _ _ := (1, [d]);
  store_key d k _ _ := (k, 1) |}.

#[local] Instance one_key_more : KeyDbMore openpgp_publickey := {|
  fetch_key_text d _ := (1, [d]); fetch_key_skshash d h := if decide (h = replicate 16 7) then (1, [d]) else (0, []);
  delete_key d _ _ := (d, 1); iterate_keys d := [d] |}.

Definition example_config : lookup_config := mkLookupConfig 0 128 (mkConfig 512 512) None (str "0.6") None 0.

#[local] Existing Instances toy_hashes full_build toy_nettle.

Definition example_headers : list Z := match download_headers toy_key with Done h => h | Fault _ => [] end.

Lemma toy_storable : storable (fun _ => true) [toy_key].
Proof. split; try (apply (bool_decide_unpack _); vm_compute; exact I); vm_compute; reflexivity. Qed.

(** One server hands its key out, an empty one takes it in. *)
Lemma get_add_roundtrip_witness : exists text,
  lookup_program (fun _ => true) [] example_config (get_query (str "op=get&search=" ++ hexid 7)) (Some toy_key) [] =
    Done (cors ++ example_headers ++ text) /\
  add_main (D := assoc_db) (fun _ => true) [] (mkConfig 512 512) 0 None (post_form [(str "keytext", text)]) (Some []) =
    (r ← add_keys (D := assoc_db) [] (mkConfig 512 512) 0 None [] (map reparsed [toy_key]); Done (added_page [toy_key], Some r)).
Proof.
  apply (get_add_roundtrip (fun _ => true) [] example_config toy_key 7 1 toy_key [] [toy_key] 0 example_headers []
    [] (mkConfig 512 512) 0 None ([] : assoc_db)).
  - lia.
  - reflexivity.
  - discriminate.
  - vm_compute. reflexivity.
  - vm_compute. reflexivity.
  - exact toy_storable.
  - discriminate.
  - vm_compute. reflexivity.
  - reflexivity.
Defined.

(** The other server then has the key. *)
Example added_key :
  (r ← add_keys (D := assoc_db) [] (mkConfig 512 512) 0 None [] (map reparsed [toy_key]); Done (map snd r.1.1, r.2)) =
  Done ([toy_key], 1).
Proof. vm_compute. reflexivity. Qed.

Lemma photo_link_answered_witness : exists query before after,
  photo_link 7 0 = before ++ str "lookup?" ++ query ++ after /\
  lookup_program (fun _ => true) [] example_config (get_query query) (Some photo_key) [] =
    Done (cors ++ puts (str "Content-Type: image/jpeg" ++ [10]) ++ [255; 216; 255; 217]).
Proof.
  eapply (photo_link_answered (fun _ => true) [] example_config photo_key 7 1 photo_key [] 0 _ [255; 216; 255; 217] [] []).
  - lia.
  - lia.
  - reflexivity.
  - exact photo_key_wf.
  - reflexivity.
  - reflexivity.
  - reflexivity.
Defined.

(** A query for a hash that the server has and one that it has not. *)
Lemma hashquery_correct_witness :
  let hashes := [replicate 16 7; replicate 16 9] in
  found_keys toy_key hashes = [[toy_key]] /\
  hashquery_main (fun _ => true) (post_query (hash_query (zlen hashes) hashes)) (Some toy_key) true =
  Done (puts (str "Content-Type: pgp/keys" ++ [10]) ++ reply (found_keys toy_key hashes) ++ [10]).
Proof.
  intros hashes. split; [vm_compute; reflexivity|]. apply (hashquery_correct (fun _ => true) toy_key hashes).
  - apply (bool_decide_unpack _). vm_compute. exact I.
  - vm_compute. discriminate.
  - reflexivity.
  - apply (bool_decide_unpack _). vm_compute. exact I.
Defined.

Lemma hashquery_truncated_witness :
  hashquery_main (fun _ => true) (post_query (hash_query (zlen [replicate 16 7] + 1) [replicate 16 7])) (Some toy_key) true = Fault NullDeref.
Proof.
  apply (hashquery_truncated (fun _ => true) toy_key [replicate 16 7]).
  - apply (bool_decide_unpack _). vm_compute. exact I.
  - vm_compute. discriminate.
  - reflexivity.
Defined.
