(* ===== verification/Hkp.v ===== *)
(** The backend that forwards to another key server over HTTP
    (keydb/keydb_hkp.c).

    The HTTP library is a parameter: [perform] is what the outside world, of type
    [W], answers to a request, as the pieces in which the answer arrives, or
    [None] for a failed transfer; [curl_easy_escape] is the library's escaping.
    A handle keeps the data to post as a pointer, which the program frees. *)

From Stdlib Require Import String.
From S2P Require Import Prelude CLib OpenPGP Streams KeyId Packets Armor Keys FileDb.

Inductive http_request : Type :=
  | HttpGet (url : list Z)
  | HttpPost (url body : list Z).

(** The data that [CURLOPT_POSTFIELDS] points to. *)
Inductive postfields : Type :=
  | PostData (data : list Z)
  | PostFreed.

Record onak_hkp_dbctx : Type := mkHkp { hkpbase : list Z; curl_post : option postfields }.

(** * The address of the server *)

(** [%n[set]]: the longest prefix of at most [n] characters of a set. *)
Fixpoint span_set (n : nat) (p : Z -> bool) (s : list Z) : list Z * list Z :=
  match n, s with
  | S n, c :: rest => if p c then let '(t, r) := span_set n p rest in (c :: t, r) else ([], s)
  | _, _ => ([], s)
  end.

Definition lower (c : Z) : bool := (97 <=? c) && (c <=? 122).
Definition host_char (c : Z) : bool :=
  lower c || ((65 <=? c) && (c <=? 90)) || isdigit c || (c =? 46) || (c =? 45).

(** [%u], [None] when there is no number. *)
Definition scan_unsigned (s : list Z) : option Z :=
  let '(neg, t) := match skip_space s with
                   | c :: t => if c =? 45 then (true, t) else if c =? 43 then (false, t) else (false, c :: t)
                   | [] => (false, [])
                   end in
  match t with
  | c :: _ =>
      if isdigit c then
        let v := digits_value t 0 in
        Some (u32 (if 2 ^ 64 <=? v then 2 ^ 64 - 1 else if (neg : bool) then - v else v))
      else None
  | [] => None
  end.

(** [%256[a-zA-Z0-9.-]:%u] into [char host[256]] and [port]: how many were
    converted, the host and the port. *)
Definition scan_host (s : list Z) : outcome (Z * list Z * Z) :=
  let '(host, r) := span_set 256 host_char s in
  match host with
  | [] => Done (0, [], 0)
  | _ =>
      if 256 <=? zlen host then Fault OutOfBounds
      else if starts (str ":") r then
        match scan_unsigned (drop 1 r) with Some port => Done (2, host, port) | None => Done (1, host, 0) end
      else Done (1, host, 0)
  end.

(** [%5[a-z]://] and the host. *)
Definition scan_url (url : list Z) : outcome (Z * list Z * list Z * Z) :=
  let '(proto, r) := span_set 5 lower url in
  match proto with
  | [] => Done (0, [], [], 0)
  | _ =>
      if starts (str "://") r then '(matched, host, port) ← scan_host (drop 3 r); Done (1 + matched, proto, host, port)
      else Done (1, proto, [], 0)
  end.

Definition is_str (s : list Z) (t : string) : bool := bool_decide (s = str t).

(** [snprintf] into [hkpbase]. *)
Definition hkp_base (s : list Z) : list Z := take 511 s.

(** The URL for what was read; [None] is an error. *)
Definition url_base (proto host : list Z) (port : Z) : option (list Z) :=
  let with_port scheme port := Some (hkp_base (scheme ++ str "://" ++ host ++ str ":" ++ decimal port ++ str "/pks")) in
  if bool_decide (host = []) then None
  else if bool_decide (proto = []) || is_str proto "hkp" then with_port (str "http") (if port =? 0 then 11371 else port)
  else if is_str proto "hkps" then with_port (str "https") (if port =? 0 then 11372 else port)
  else if negb (is_str proto "http") && negb (is_str proto "https") then None
  else if port =? 0 then Some (hkp_base (proto ++ str "://" ++ host ++ str "/pks"))
  else with_port proto port.

Definition hkp_parse_url (url : list Z) : outcome (option (list Z)) :=
  '(matched, proto, host, port) ← scan_url url;
  '(proto, host, port) ←
    (if matched <? 2 then '(_, host, port) ← scan_host url; Done ([], host, port) else Done (proto, host, port));
  Done (url_base proto host port).

(** The backend for a location; [None] when the program exits. *)
Definition keydb_hkp_init (location : list Z) (curl_init ssl_support : bool) : outcome (option onak_hkp_dbctx) :=
  base ← hkp_parse_url location;
  match base with
  | None => Done None
  | Some base =>
      if negb curl_init then Done None
      else if starts (str "https://") base && negb ssl_support then Done None
      else Done (Some (mkHkp base None))
  end.

(** * Requests *)

Section Hkp.
Context {W : Type} (perform : W -> http_request -> W * option (list (list Z))) (curl_easy_escape : list Z -> list Z).
Context (malloc_ok : Z -> bool).

(** The request is a POST as long as there is data to post; the data is read
    when the request is sent. *)
Definition curl_easy_perform (ctx : onak_hkp_dbctx) (url : list Z) (w : W) : outcome (W * option (list (list Z))) :=
  match curl_post ctx with
  | None => Done (perform w (HttpGet url))
  | Some (PostData data) => Done (perform w (HttpPost url data))
  | Some PostFreed => Fault UseAfterFree
  end.

(** [hkp_curl_recv_data], once for every piece. *)
Fixpoint hkp_curl_recv_data (buf : buffer_ctx) (pieces : list (list Z)) : outcome buffer_ctx :=
  match pieces with
  | [] => Done buf
  | piece :: pieces => buf ← putchar buf piece; hkp_curl_recv_data buf pieces
  end.

(** [fresh] is what [malloc(8192)] returns; the whole buffer is read afterwards. *)
Definition hkp_fetch_key_url (ctx : onak_hkp_dbctx) (url : list Z) (w : W) (fresh : list Z)
    : outcome (W * list openpgp_publickey * Z) :=
  '(w, res) ← curl_easy_perform ctx url w;
  match res with
  | None => Done (w, [], 0)
  | Some pieces =>
      buf ← hkp_curl_recv_data (mkBuffer fresh 0 8192) pieces;
      '(_, packets) ← dearmor_openpgp_stream (S (length (buf_buffer buf))) malloc_ok (mkBuffer (buf_buffer buf) 0 (buf_size buf)) [];
      '(keys, count) ← parse_keys packets [];
      Done (w, keys, count)
  end.

(** [snprintf] into [char keyurl[1024]]. *)
Definition keyurl (s : list Z) : list Z := take 1023 s.

Definition hkp_fetch_key_fp (ctx : onak_hkp_dbctx) (fp : openpgp_fingerprint) (w : W) (fresh : list Z)
    : outcome (W * list openpgp_publickey * Z) :=
  if MAX_FINGERPRINT_LEN <? fp_length fp then Done (w, [], 0)
  else
    let start := hkpbase ctx ++ str "/lookup?op=get&search=0x" in
    if 1024 <? zlen start + fp_length fp * 2 + 1 then Done (w, [], 0)
    else
      bs ← memcpy_from (fp_bytes fp) 0 (fp_length fp);
      hkp_fetch_key_url ctx (start ++ hex_of_bytes true bs) w fresh.

(** [%08lX] *)
Definition hex_at_least_8 (keyid : Z) : list Z := padded 8 48 (skip_zeros (hexn 16 keyid)).

Definition hkp_fetch_key_id (ctx : onak_hkp_dbctx) (keyid : Z) (w : W) (fresh : list Z)
    : outcome (W * list openpgp_publickey * Z) :=
  hkp_fetch_key_url ctx (keyurl (hkpbase ctx ++ str "/lookup?op=get&search=0x" ++ hex_at_least_8 keyid)) w fresh.

Definition hkp_fetch_key_text (ctx : onak_hkp_dbctx) (search : list Z) (w : W) (fresh : list Z)
    : outcome (W * list openpgp_publickey * Z) :=
  hkp_fetch_key_url ctx (keyurl (hkpbase ctx ++ str "/lookup?op=get&search=" ++ search)) w fresh.

(** The key goes out as the form "keytext=..."; [snprintf] has put a terminator
    behind the name, which the text overwrites. *)
Definition hkp_store_key (ctx : onak_hkp_dbctx) (publickey : openpgp_publickey) (w : W) (fresh : list Z)
    : outcome (onak_hkp_dbctx * W * Z) :=
  start ← memcpy_to fresh 0 (str "keytextz" ++ [0]);
  packets ← flatten_publickey [publickey] [];
  buf ← armor_openpgp_stream (mkBuffer start 8 8192) packets;
  text ← memcpy_from (buf_buffer buf) 0 (buf_offset buf);
  addform ← memcpy_to (curl_easy_escape text) 7 [61];
  let ctx := mkHkp (hkpbase ctx) (Some (PostData addform)) in
  '(w, res) ← curl_easy_perform ctx (keyurl (hkpbase ctx ++ str "/add")) w;
  let ctx := mkHkp (hkpbase ctx) (Some PostFreed) in
  Done (ctx, w, match res with Some _ => 1 | None => 0 end).

Definition hkp_delete_key (ctx : onak_hkp_dbctx) (fp : openpgp_fingerprint) : Z := -1.
Definition hkp_iterate_keys (ctx : onak_hkp_dbctx) : Z := 0.
End Hkp.
