(* ===== verification/HkpFacts.v ===== *)
(** A key server behind the forwarding backend: fetching gives what the server's
    lookup program serves, storing is what its add program takes in, and one
    handle cannot do both. *)

From Stdlib Require Import String.
From S2P Require Import Prelude CLib OpenPGP Streams DbCtx KeyId KeyArray Packets Armor Keys KeyBuffer SigCheck Clean KeyUpdate Marshal Cgi FsDb FileDb KeyIndex Lookup CgiPrograms CgiFacts Hkp.

(** * What the HTTP library promises *)

(** The characters that a URL may contain as they are. *)
Definition unreserved (c : Z) : bool := alnum c || (c =? 45) || (c =? 46) || (c =? 95) || (c =? 126).

Definition percent (c : Z) : list Z :=
  if unreserved c then [c] else [chr_percent; form_digit (c / 16); form_digit (c mod 16)].

(** The documented behaviour of [curl_easy_escape]. *)
Class CurlEscapes (escape : list Z -> list Z) : Prop := curl_escapes : forall s, escape s = concat (map percent s).

(** * Escaped text in a form *)

Lemma percent_spec c rest : 0 < c < 256 ->
  decode (percent c ++ rest) = cons c <$> decode rest /\ Forall (fun x => unreserved x || (x =? chr_percent) = true) (percent c).
Proof.
  intros Hc. assert (Hall : forallb (fun c => if unreserved c then negb (c =? chr_percent) else
    (x2c (form_digit (c / 16)) (form_digit (c mod 16)) =? c) &&
    unreserved (form_digit (c / 16)) && unreserved (form_digit (c mod 16))) (seqZ 1 255) = true) by (vm_compute; reflexivity).
  rewrite forallb_forall in Hall. specialize (Hall c). rewrite <- list_elem_of_In, elem_of_seqZ in Hall.
  specialize (Hall ltac:(lia)). unfold percent. destruct (unreserved c) eqn:Ea.
  - cbn [app decode]. destruct (c =? chr_percent); [done|]. split; [done|]. repeat constructor. by rewrite Ea.
  - apply andb_prop in Hall as [[Hx H1]%andb_prop H2]. apply Z.eqb_eq in Hx. cbn [app decode].
    change (chr_percent =? chr_percent) with true. cbv iota. rewrite Hx. split; [done|].
    repeat constructor; by rewrite ?H1, ?H2.
Qed.

Lemma percent_all s : text s ->
  decode (concat (map percent s)) = Some s /\ Forall (fun x => unreserved x || (x =? chr_percent) = true) (concat (map percent s)).
Proof.
  induction 1 as [|c s Hc _ [IH1 IH2]]; [by split; constructor|]. cbn [map concat].
  destruct (percent_spec c (concat (map percent s)) Hc) as [E1 E2]. rewrite E1, IH1. split; [done|]. by apply Forall_app.
Qed.

Lemma percent_ne s x : text s -> unreserved x || (x =? chr_percent) = false -> Forall (fun c => c <> x) (concat (map percent s)).
Proof. intros Hs Hx. eapply Forall_impl; [by apply percent_all|]. cbn. congruence. Qed.

Lemma unescaped_percent s : text s -> unescaped (concat (map percent s)) = Done s.
Proof.
  intros Hs. destruct (percent_all s Hs) as [E1 _]. unfold unescaped.
  pose proof (unescape_spec (concat (map percent s)) ltac:(by apply percent_ne)) as H. rewrite E1 in H.
  destruct H as (url & tail & -> & ->). cbn [mbind outcome_bind app]. rewrite c_string_end; [done|].
  eapply Forall_impl; [exact Hs|]. cbn. lia.
Qed.

(** One parameter, escaped like that. *)
Lemma parse_percent name value :
  name <> [] -> Forall (fun c => alnum c = true) name -> text value ->
  parse_cgiinput (name ++ chr_equals :: concat (map percent value)) = Done [(name, value)].
Proof.
  intros Hne Hn Hv. set (t := name ++ chr_equals :: concat (map percent value)).
  assert (Hname : forall x, alnum x = false -> Forall (fun c => c <> x) name).
  { intros x Hx. eapply Forall_impl; [exact Hn|]. cbn. congruence. }
  assert (Ht : forall x, unreserved x || (x =? chr_percent) = false -> alnum x = false -> x <> chr_equals -> Forall (fun c => c <> x) t).
  { intros x Hx Ha He. apply Forall_app. split; [by apply Hname|]. constructor; [done | by apply percent_ne]. }
  unfold parse_cgiinput. replace (map _ t) with t.
  - pose proof (strtok_joined chr_amp [t] (S (length t))) as Hs. cbn [joined concat map] in Hs. rewrite app_nil_r in Hs. rewrite Hs.
    + cbn [mbind outcome_bind name_values]. unfold name_value, t. rewrite split_at_spec by by apply Hname.
      rewrite unescaped_percent by done. cbn [mbind outcome_bind]. rewrite <- (alnum_escape name Hn) at 1.
      rewrite unescaped_escape by by apply alnum_text. done.
    + apply Forall_singleton. split; [by destruct name | by apply Ht].
    + destruct t eqn:E; [by destruct name|]. cbn. lia.
  - specialize (Ht plus_sign eq_refl eq_refl ltac:(done)). clear -Ht. induction Ht as [|c l Hc _ IH]; [done|]. cbn.
    rewrite <- IH. by destruct (Z.eqb_spec c plus_sign).
Qed.

(** * Receiving an answer *)

Lemma recv_pieces pieces : forall buf out,
  writing buf out -> Forall (Forall byte) pieces -> zlen out + zlen (concat pieces) <= 2 ^ 60 ->
  (buf_size buf <= 8192 \/ buf_size buf < 2 * zlen out) ->
  exists buf', hkp_curl_recv_data buf pieces = Done buf' /\ writing buf' (out ++ concat pieces) /\ buf_size buf' < 2 ^ 62.
Proof.
  induction pieces as [|p pieces IH]; intros buf out Hw Hb Hl Hs; cbn [hkp_curl_recv_data concat] in *.
  { exists buf. rewrite app_nil_r. pose proof (zlen_nonneg out). repeat split; (done || apply Hw || rewrite ?zlen_nil in *; lia). }
  apply Forall_cons in Hb as [Hp Hb]. rewrite zlen_app in Hl. pose proof (zlen_nonneg p). pose proof (zlen_nonneg (concat pieces)).
  destruct (buffer_putchar_spec buf out p Hw) as (b1 & E & Hw1 & Hs1); [lia|]. change (putchar buf p) with (buffer_putchar buf p).
  rewrite E. cbn [mbind outcome_bind].
  assert (Hoff : buf_offset b1 = zlen (out ++ p)).
  { destruct Hw1 as (H1 & _ & H2 & H3). rewrite H3. unfold zlen in *. rewrite length_take. lia. }
  rewrite app_assoc. apply IH; [done | done | rewrite zlen_app; lia|]. rewrite Hoff, zlen_app in Hs1. rewrite zlen_app. lia.
Qed.

(** * What is asked for *)

Lemma skip_zeros_spec s (P : Z -> Prop) : Forall P s -> s <> [] ->
  Forall P (skip_zeros s) /\ (0 < length (skip_zeros s) <= length s)%nat.
Proof.
  induction 1 as [|c s Hc Hs IH]; [done|]. intros _. cbn [skip_zeros]. destruct s as [|d s]; [split; [by constructor | cbn; lia]|].
  destruct (c =? 48); [destruct IH as [? ?]; [done|]; cbn in *; split; [done | lia] | cbn in *; split; [by constructor | lia]].
Qed.

Lemma hexval_zeros n s : hexval (replicate n 48 ++ s) = hexval s.
Proof. unfold hexval. induction n as [|n IH]; [done|]. exact IH. Qed.

Lemma hex_at_least_8_number keyid : 0 <= keyid < 2 ^ 64 -> hex_number (hex_at_least_8 keyid) keyid.
Proof.
  intros Hk. destruct (hexn_number keyid Hk) as (Hx & Hv & Hn & _). unfold hex_at_least_8, padded.
  destruct (skip_zeros_spec (hexn 16 keyid) _ Hx) as [Hx' Hn']; [intros E; rewrite E in Hn; cbn in Hn; lia|].
  split; [|split; [by rewrite hexval_zeros, hexval_skip | split; [|done]]].
  - apply Forall_app. split; [by apply Forall_replicate | done].
  - rewrite length_app, length_replicate. lia.
Qed.

Lemma xdigit_alnum c : isxdigit c = true -> alnum c = true.
Proof. unfold isxdigit, alnum. lia. Qed.

Lemma hex2bin_digit x : 0 <= x < 16 -> hex2bin (hex_digit true x) = x /\ isxdigit (hex_digit true x) = true.
Proof.
  intros Hx. assert (Hall : forallb (fun x => (hex2bin (hex_digit true x) =? x) && isxdigit (hex_digit true x)) (seqZ 0 16) = true) by reflexivity.
  rewrite forallb_forall in Hall. specialize (Hall x). rewrite <- list_elem_of_In, elem_of_seqZ in Hall.
  apply andb_prop in Hall as [H1%Z.eqb_eq H2]; [done | lia].
Qed.

Lemma hex_octets_of bs : Forall byte bs ->
  hex_octets (length bs) (hex_of_bytes true bs) = bs /\ Forall (fun c => isxdigit c = true) (hex_of_bytes true bs) /\
  zlen (hex_of_bytes true bs) = 2 * zlen bs.
Proof.
  induction 1 as [|b bs Hb _ (IH1 & IH2 & IH3)]; [done|]. unfold hex_of_bytes in *. cbn [map concat app length hex_octets].
  unfold byte in Hb. assert (0 <= b / 16 < 16) by (split; [apply Z.div_pos | apply Z.div_lt_upper_bound]; lia).
  pose proof (Z.mod_pos_bound b 16 ltac:(lia)). destruct (hex2bin_digit (b / 16)) as [E1 X1]; [done|].
  destruct (hex2bin_digit (b mod 16)) as [E2 X2]; [done|]. rewrite E1, E2, IH1. split; [|split].
  - f_equal. rewrite Z.shiftl_mul_pow2 by lia. change (2 ^ 4) with 16. pose proof (Z.div_mod b 16 ltac:(lia)). rewrite u8_small; unfold byte; lia.
  - by repeat constructor.
  - rewrite !zlen_cons, IH3. lia.
Qed.

(** A search for a fingerprint. *)
Lemma fp_params bs n :
  n = 20 \/ n = 32 -> Forall byte bs -> zlen bs = n ->
  lookup_params (Some (search_query (str "0x" ++ hex_of_bytes true bs))) =
  mkArgs OP_GET (Some (str "0x" ++ hex_of_bytes true bs)) 0 (Some (mkFingerprint n bs)) false true 0 false false false false.
Proof.
  intros Hn Hb Hl. destruct (hex_octets_of bs Hb) as (E & _ & Hx). unfold lookup_params, search_query. cbn [from_option id foldl].
  change (lookup_param no_args (str "op", str "get")) with (set_op no_args OP_GET). rewrite lookup_param_search. unfold set_search.
  assert (Hz : zlen (str "0x" ++ hex_of_bytes true bs) = 2 + 2 * n) by (rewrite zlen_app, Hx, Hl; done). rewrite Hz.
  change (drop 2 (str "0x" ++ hex_of_bytes true bs)) with (hex_of_bytes true bs).
  assert (Hlen : length bs = Z.to_nat n) by (unfold zlen in Hl; lia). rewrite Hlen in E.
  destruct Hn as [-> | ->]; cbn -[hex_of_bytes hex_octets]; change (Z.to_nat 20) with 20%nat in E; change (Z.to_nat 32) with 32%nat in E; by rewrite E.
Qed.

(** The query as it is written, for a search of letters and digits. *)
Lemma search_query_form s : Forall (fun c => alnum c = true) s ->
  str "op=get&search=" ++ s = form (search_query s) /\ Forall text_pair (search_query s).
Proof.
  intros Hs. destruct (form_alnum (search_query s)) as [-> Ht].
  - repeat apply Forall_cons_2; try apply Forall_nil_2; split; try done; by repeat constructor.
  - split; [|done]. unfold search_query. cbn [map joined concat fst snd app]. by rewrite app_nil_r.
Qed.

(** * A web server *)

(** What follows the headers of an answer. *)
Fixpoint cgi_body (s : list Z) : list Z :=
  match s with
  | c :: ((d :: rest) as s) => if (c =? 10) && (d =? 10) then rest else cgi_body s
  | _ => []
  end.

Lemma cgi_body_end line rest : Forall (fun c => c <> 10) line -> cgi_body (line ++ 10 :: 10 :: rest) = rest.
Proof.
  induction 1 as [|c l Hc Hl IH]; [done|]. cbn [app]. destruct (l ++ 10 :: 10 :: rest) as [|d t] eqn:E; [by destruct l|].
  cbn [cgi_body]. by destruct (Z.eqb_spec c 10).
Qed.

Lemma cgi_body_line line d rest : Forall (fun c => c <> 10) line -> d <> 10 -> cgi_body (line ++ 10 :: d :: rest) = cgi_body (d :: rest).
Proof.
  intros Hl Hd. induction Hl as [|c l Hc Hl IH].
  - cbn [app cgi_body]. destruct (Z.eqb_spec d 10); [done|]. done.
  - cbn [app]. destruct (l ++ 10 :: d :: rest) as [|e t] eqn:E; [by destruct l|].
    transitivity (cgi_body (e :: t)); [|done]. cbn [cgi_body]. by destruct (Z.eqb_spec c 10).
Qed.

Section Server.
Context {HF : Hashes} {BC : BuildConfig} {NT : Nettle} {D : Type} {DB : KeyDb D} {DM : KeyDbMore D}.
Variable malloc_ok : Z -> bool.

(** The keys of an armored answer, in whatever pieces it arrives. *)
Lemma fetch_key_url_armored {W} (perform : W -> http_request -> W * option (list (list Z))) ctx url w w' fresh pieces ks :
  curl_post ctx = None -> perform w (HttpGet url) = (w', Some pieces) -> zlen fresh = 8192 ->
  concat pieces = armor_text (encode_packets (keys_packets ks)) -> storable malloc_ok ks ->
  zlen (encode_packets (keys_packets ks)) <= 2 ^ 30 ->
  hkp_fetch_key_url perform malloc_ok ctx url w fresh = Done (w', map reparsed ks, Z.of_nat (length ks)).
Proof.
  intros Hp Hw Hf Hc S Hl. unfold hkp_fetch_key_url, curl_easy_perform. rewrite Hp, Hw. cbn [mbind outcome_bind].
  pose proof (armor_text_length (encode_packets (keys_packets ks))) as Ht.
  destruct (recv_pieces pieces (mkBuffer fresh 0 8192) []) as (buf & -> & Hb & Hs); [| | | left; cbn; lia |].
  - repeat split; cbn [buf_size buf_offset buf_buffer]; lia.
  - apply Forall_forall. intros p Hp'. apply Forall_forall. intros c Hc'.
    assert (Hin : c ∈ concat pieces) by (apply list_elem_of_In, in_concat; exists p; by rewrite <- !list_elem_of_In).
    rewrite Hc in Hin. assert (Hx := armor_text_text _ (encode_packets_byte _ (storable_encodable _ _ S))).
    unfold text in Hx. rewrite list.Forall_forall in Hx. specialize (Hx c Hin). unfold byte. lia.
  - rewrite Hc, zlen_nil. lia.
  - cbn [mbind outcome_bind app] in *. rewrite Hc in Hb. destruct Hb as (H1 & H2 & H3 & H4).
    assert (Hbuf : buf_buffer buf = armor_text (encode_packets (keys_packets ks)) ++ drop (Z.to_nat (buf_offset buf)) (buf_buffer buf)).
    { rewrite H4 at 1. by rewrite take_drop. }
    rewrite <- H1, Hbuf. destruct (dearmor_armored malloc_ok (keys_packets ks) (drop (Z.to_nat (buf_offset buf)) (buf_buffer buf)))
      as [s' ->]; [apply S | apply S | apply S | done | rewrite <- Hbuf; lia |].
    cbn [mbind outcome_bind]. by rewrite parse_keys_append by apply S.
Qed.
Context (stack : list Z) (cfg : lookup_config) (blacklist : option keyarray) (junk : list Z).

(** A server at [base] that runs the lookup and the add program on a database
    and sends what they print in the pieces that [split] makes. *)
Definition web_server (base : list Z) (split : list Z -> list (list Z)) (db : D) (rq : http_request) : D * option (list (list Z)) :=
  match rq with
  | HttpGet url =>
      let page := base ++ str "/lookup?" in
      if bool_decide (take (length page) url = page) then
        match lookup_program malloc_ok stack cfg (get_query (drop (length page) url)) (Some db) junk with
        | Done out => (db, Some (split (cgi_body out)))
        | Fault _ => (db, None)
        end
      else (db, None)
  | HttpPost url body =>
      if bool_decide (url = base ++ str "/add") then
        match add_main malloc_ok stack (lc_clean cfg) (lc_policies cfg) blacklist (posted body) (Some db) with
        | Done (out, Some (db, _, _)) => (db, Some (split (cgi_body out)))
        | Done (out, None) => (db, Some (split (cgi_body out)))
        | Fault _ => (db, None)
        end
      else (db, None)
  end.

Lemma no_newline s : forallb (fun c => negb (c =? 10)) s = true -> Forall (fun c => c <> 10) s.
Proof.
  intros H. apply Forall_forall. intros c Hc. rewrite forallb_forall in H.
  specialize (H c ltac:(by apply list_elem_of_In)). lia.
Qed.

Lemma Done_eq {A} (x y : A) : Done x = Done y -> x = y.
Proof. by intros [= ->]. Qed.

Lemma fingerprint_bytes p rc fp : get_fingerprint p = Done (rc, fp) -> Forall byte (fp_bytes fp).
Proof. unfold get_fingerprint. intros E. repeat (inv_done; case_match); inv_done; cbn; (apply hash_bytes || constructor). Qed.

Lemma hex_no_newline bs : Forall byte bs -> Forall (fun c => c <> 10) (hex_of_bytes true bs).
Proof.
  intros Hb. destruct (hex_octets_of bs Hb) as (_ & Hx & _). eapply Forall_impl; [exact Hx|]. cbn. intros c Hc ->. done.
Qed.

Lemma served_body key headers text : download_headers key = Done headers -> cgi_body (cors ++ headers ++ text) = text.
Proof.
  unfold download_headers. destruct (get_fingerprint (pk_publickey key)) as [[rc fp]|] eqn:Ef; [|done]. cbn [mbind outcome_bind].
  apply fingerprint_bytes in Ef. set (type := str "Content-Type: application/pgp-keys").
  assert (Ht : exists t, type = 67 :: t) by (by eexists). assert (Hn : Forall (fun c => c <> 10) type) by (by apply no_newline).
  intros E. unfold cors, puts. repeat rewrite <- app_assoc. cbn [app].
  assert (Hc : forall rest, cgi_body (str "Access-Control-Allow-Origin: *" ++ 10 :: type ++ rest) = cgi_body (type ++ rest)).
  { destruct Ht as [t ->]. intros rest. cbn [app]. apply cgi_body_line; [by apply no_newline | done]. }
  destruct (status_ok rc).
  - destruct (memcpy_from _ _ _) as [bs|] eqn:Em; [|done]. cbn [mbind outcome_bind] in E. apply Done_eq in E as <-.
    assert (Hb : Forall byte bs).
    { unfold memcpy_from in Em. destruct (_ && _); [|done]. injection Em as <-. by apply Forall_take, Forall_drop. }
    repeat rewrite <- app_assoc. rewrite Hc. cbn [app].
    change (str "Content-Disposition: attachment; filename=") with (67 :: str "ontent-Disposition: attachment; filename=").
    cbn [app]. rewrite cgi_body_line by done.
    match goal with |- cgi_body ?l = _ => replace l with ((str "Content-Disposition: attachment; filename=" ++ 34 :: str "0x" ++
      hex_of_bytes true bs ++ str ".asc" ++ [34]) ++ 10 :: 10 :: text) end.
    + apply cgi_body_end. repeat rewrite ?Forall_app, ?Forall_cons.
      split_and!; first [by apply hex_no_newline | by apply no_newline | done].
    + rewrite <- !app_assoc. cbn [app]. rewrite <- !app_assoc. done.
  - apply Done_eq in E as <-. unfold puts. repeat rewrite <- app_assoc. rewrite Hc. by apply cgi_body_end.
Qed.

(** The answer of the server to a search that finds a key. *)
Lemma web_server_get base split (db : D) search keyid fp ishex isfp n key keys ks c headers :
  let a := mkArgs OP_GET (Some search) keyid fp ishex isfp 0 false false false false in
  (forall s, concat (split s) = s) -> Forall (fun c => alnum c = true) search ->
  lookup_params (Some (search_query search)) = a -> fetch_search db a = Done (n, key :: keys) -> n <> 0 ->
  download_headers key = Done headers ->
  cleankeys db stack (lc_clean cfg) (Some (key :: keys)) (lc_policies cfg) = Done (Some ks, c) -> storable malloc_ok ks ->
  zlen (encode_packets (keys_packets ks)) <= 2 ^ 30 ->
  exists pieces, web_server base split db (HttpGet (base ++ str "/lookup?op=get&search=" ++ search)) = (db, Some pieces) /\
    concat pieces = armor_text (encode_packets (keys_packets ks)).
Proof.
  intros a Hsp Hs Ha Hf Hn Hh Hc S Hl. destruct (search_query_form search Hs) as [Eq Ht].
  exists (split (armor_text (encode_packets (keys_packets ks)))). split; [|apply Hsp]. unfold web_server.
  change (str "/lookup?op=get&search=") with (str "/lookup?" ++ str "op=get&search="). rewrite <- app_assoc, app_assoc, Eq.
  rewrite take_app_length, drop_app_length, bool_decide_true by done.
  rewrite (lookup_program_served malloc_ok stack cfg db _ (search_query search) search keyid fp ishex isfp n key keys ks c headers junk)
    by (done || by apply getcgivars_get).
  by rewrite (served_body key).
Qed.

(** C27: A key that is fetched through the forwarding backend, by key id or by
    fingerprint, is what the lookup program of the other server finds and cleans:
    the URL, the parameters, the headers, the armor and the pieces in which the
    answer arrives fit together, for up to 2^30 octets, which the [int] counters
    of the armor can count.  The buffer that the answer is received in may
    hold anything behind it. *)
Theorem hkp_fetch_served base split (db : D) fresh n key keys ks c headers :
  (forall s, concat (split s) = s) -> zlen base <= 511 -> zlen fresh = 8192 -> n <> 0 ->
  download_headers key = Done headers ->
  cleankeys db stack (lc_clean cfg) (Some (key :: keys)) (lc_policies cfg) = Done (Some ks, c) ->
  storable malloc_ok ks -> zlen (encode_packets (keys_packets ks)) <= 2 ^ 30 ->
  (forall keyid, 0 <= keyid < 2 ^ 64 -> fetch_key_id db keyid false = (n, key :: keys) ->
    hkp_fetch_key_id (web_server base split) malloc_ok (mkHkp base None) keyid db fresh =
    Done (db, map reparsed ks, Z.of_nat (length ks))) /\
  (forall len bs, len = 20 \/ len = 32 -> Forall byte bs -> zlen bs = len ->
    fetch_key_fp db (mkFingerprint len bs) false = (n, key :: keys) ->
    hkp_fetch_key_fp (web_server base split) malloc_ok (mkHkp base None) (mkFingerprint len bs) db fresh =
    Done (db, map reparsed ks, Z.of_nat (length ks))).
Proof.
  intros Hsp Hbase Hfresh Hn Hh Hc S Hl. split.
  - intros keyid Hk Hf. pose proof (hex_at_least_8_number keyid Hk) as Hd. unfold hkp_fetch_key_id. cbn [hkpbase].
    destruct (web_server_get base split db (str "0x" ++ hex_at_least_8 keyid) keyid None true false n key keys ks c headers Hsp)
      as (pieces & Hw & Hp); [| by apply get_params | | done | done | done | done | done |].
    + apply Forall_app. split; [by repeat constructor|]. eapply Forall_impl; [apply Hd|]. apply xdigit_alnum.
    + unfold fetch_search. cbn [la_ishex la_keyid]. by rewrite Hf.
    + unfold keyurl. rewrite take_ge; [by apply (fetch_key_url_armored _ (mkHkp base None) _ db db fresh pieces)|].
      destruct Hd as (_ & _ & Hlen & _). rewrite !length_app. unfold zlen in Hbase.
      change (length (str "/lookup?op=get&search=0x")) with 24%nat. lia.
  - intros len bs Hlen Hb Hz Hf. destruct (hex_octets_of bs Hb) as (_ & Hx & Hxl). unfold hkp_fetch_key_fp. cbn [hkpbase fp_length fp_bytes].
    unfold MAX_FINGERPRINT_LEN. destruct (Z.ltb_spec 32 len) as [|_]; [lia|].
    rewrite zlen_app. change (zlen (str "/lookup?op=get&search=0x")) with 24.
    destruct (Z.ltb_spec 1024 (zlen base + 24 + len * 2 + 1)) as [|_]; [lia|].
    rewrite <- Hz, memcpy_all. cbn [mbind outcome_bind].
    destruct (web_server_get base split db (str "0x" ++ hex_of_bytes true bs) 0 (Some (mkFingerprint len bs)) false true n key keys ks c headers Hsp)
      as (pieces & Hw & Hp); [| by apply fp_params | | done | done | done | done | done |].
    + apply Forall_app. split; [by repeat constructor|]. eapply Forall_impl; [exact Hx|]. apply xdigit_alnum.
    + unfold fetch_search. cbn [la_ishex la_isfp la_fingerprint need_fp mbind outcome_bind]. by rewrite Hf.
    + rewrite <- app_assoc. by apply (fetch_key_url_armored _ (mkHkp base None) _ db db fresh pieces).
Qed.

(** * Storing *)

(** A buffer that starts with a text. *)
#[local] Instance prefix_accepts prefix : Accepts (fun s out => writing s (prefix ++ out)) (2 ^ 63 - zlen prefix).
Proof.
  intros s xs ys Hw Hy Hl. destruct (accepts_bytes (W := writing) s (prefix ++ xs) ys Hw Hy) as (s' & E & Hw');
    [rewrite zlen_app; lia|]. exists s'. by rewrite app_assoc.
Qed.

(** The form that is posted. *)
Definition addform (key : openpgp_publickey) : list Z :=
  str "keytext" ++ chr_equals :: concat (map percent (armor_text (encode_packets (keys_packets [key])))).

Lemma percent_length s : zlen (concat (map percent s)) <= 3 * zlen s.
Proof.
  induction s as [|c s IH]; [done|]. cbn [map concat]. rewrite zlen_app, zlen_cons. unfold percent at 1.
  destruct (unreserved c); autorewrite with onak; lia.
Qed.

Lemma store_key_posts {W} (perform : W -> http_request -> W * option (list (list Z))) (escape : list Z -> list Z) `{!CurlEscapes escape}
    ctx key w fresh :
  zlen fresh = 8192 -> zlen (hkpbase ctx) <= 511 -> storable malloc_ok [key] -> zlen (encode_packets (keys_packets [key])) < 2 ^ 27 ->
  hkp_store_key perform escape ctx key w fresh =
  let '(w, res) := perform w (HttpPost (hkpbase ctx ++ str "/add") (addform key)) in
  Done (mkHkp (hkpbase ctx) (Some PostFreed), w, match res with Some _ => 1 | None => 0 end).
Proof.
  intros Hf Hb S Hl. unfold hkp_store_key. rewrite memcpy_to_ok by (rewrite ?Hf; done || (change (zlen _) with 9; lia)).
  cbn [mbind outcome_bind]. rewrite flatten_publickey_wf by apply S. cbn [mbind outcome_bind app].
  set (start := take _ fresh ++ _). assert (Hs : writing (mkBuffer start 8 8192) (str "keytextz" ++ [])).
  { unfold start. change (take (Z.to_nat 0) fresh) with (@nil Z). cbn [app]. repeat split; cbn [buf_buffer buf_size buf_offset]; try lia.
    rewrite !zlen_app. unfold zlen in *. rewrite length_drop. cbn -[Z.of_nat]. lia. }
  destruct (armor_stream_spec (W := fun s out => writing s (str "keytextz" ++ out)) (lim := 2 ^ 63 - zlen (str "keytextz"))
    (mkBuffer start 8 8192) (keys_packets [key])) as (buf & -> & Hw); [done | apply S | change (zlen (str "keytextz")) with 8; lia | lia |].
  cbn [mbind outcome_bind]. destruct Hw as (H1 & H2 & H3 & H4). set (t := armor_text _) in *.
  rewrite memcpy_from_ok by lia. cbn [mbind outcome_bind]. rewrite drop_0, <- H4, (curl_escapes (escape := escape)), map_app, concat_app.
  change (concat (map percent (str "keytextz"))) with (str "keytext" ++ [122]). rewrite <- app_assoc.
  rewrite memcpy_to_ok by (rewrite ?zlen_app; pose proof (zlen_nonneg (concat (map percent t))); change (zlen (str "keytext")) with 7;
    change (zlen [122]) with 1; change (zlen [61]) with 1; lia).
  cbn [mbind outcome_bind]. unfold curl_easy_perform. cbn [curl_post hkpbase].
  unfold keyurl. rewrite (take_ge (hkpbase ctx ++ str "/add")).
  - unfold addform. fold t. change (take (Z.to_nat 7) (str "keytext" ++ [122] ++ concat (map percent t))) with (str "keytext").
    change (drop (Z.to_nat 7 + length [61]) (str "keytext" ++ [122] ++ concat (map percent t))) with (drop 0 (concat (map percent t))).
    rewrite drop_0. change ([61] ++ concat (map percent t)) with (chr_equals :: concat (map percent t)).
    by destruct (perform w _) as [w' res].
  - rewrite length_app. unfold zlen in Hb. change (length (str "/add")) with 4%nat. lia.
Qed.

(** C28: Storing a key through the forwarding backend makes the add program of the
    other server clean and store exactly that key, and reports success: the form,
    with its trick of overwriting the last letter of the name by an equals sign
    after the escaping, is what the server's parser reads. *)
Theorem hkp_store_correct (escape : list Z -> list Z) `{!CurlEscapes escape} base split (db : D) post key fresh db' mailed n :
  zlen fresh = 8192 -> zlen base <= 511 -> storable malloc_ok [key] -> zlen (encode_packets (keys_packets [key])) < 2 ^ 27 ->
  (forall n, 0 <= n < 2 ^ 31 -> malloc_ok n = true) ->
  add_keys stack (lc_clean cfg) (lc_policies cfg) blacklist db [reparsed key] = Done (db', mailed, n) ->
  hkp_store_key (web_server base split) escape (mkHkp base post) key db fresh = Done (mkHkp base (Some PostFreed), db', 1).
Proof.
  intros Hf Hb S Hl Hm Ha. rewrite store_key_posts by done. cbn [hkpbase]. unfold web_server. rewrite bool_decide_true by done.
  set (t := armor_text (encode_packets (keys_packets [key]))).
  assert (Ht : text t) by (apply armor_text_text, encode_packets_byte, S).
  pose proof (armor_text_length (encode_packets (keys_packets [key]))) as Hlen. fold t in Hlen.
  pose proof (percent_length t). pose proof (zlen_nonneg (concat (map percent t))).
  rewrite add_main_text with (ks := [key]); [| | done | done | done].
  - cbn [map]. rewrite Ha. done.
  - unfold addform. fold t. apply getcgivars_posted; [| | |apply Hm];
      try (rewrite zlen_app, zlen_cons; change (zlen (str "keytext")) with 7; lia).
    + apply parse_percent; [done | by repeat constructor | done].
    + apply Forall_app. split; [by apply (bool_decide_unpack _)|]. constructor; [done | by apply percent_ne].
Qed.

Lemma store_key_frees {W} (perform : W -> http_request -> W * option (list (list Z))) escape ctx key w fresh ctx' w' r :
  hkp_store_key perform escape ctx key w fresh = Done (ctx', w', r) -> ctx' = mkHkp (hkpbase ctx) (Some PostFreed).
Proof. unfold hkp_store_key. intros E. inv_done. by repeat (case_match; inv_done). Qed.

(** C39: The handle keeps the pointer to the form after it was freed: whatever
    the server does, every lookup after a store reads freed memory.  Updating a
    server with two keys does that, since each key is looked up before it is
    stored. *)
Theorem hkp_fetch_after_store {W} (perform : W -> http_request -> W * option (list (list Z))) (escape : list Z -> list Z)
    ctx key w fresh ctx' w' r :
  hkp_store_key perform escape ctx key w fresh = Done (ctx', w', r) ->
  forall w2 fresh2,
    (forall keyid, hkp_fetch_key_id perform malloc_ok ctx' keyid w2 fresh2 = Fault UseAfterFree) /\
    (forall search, hkp_fetch_key_text perform malloc_ok ctx' search w2 fresh2 = Fault UseAfterFree) /\
    (forall len bs, zlen (hkpbase ctx) <= 511 -> 0 <= len <= MAX_FINGERPRINT_LEN -> zlen bs = len ->
       hkp_fetch_key_fp perform malloc_ok ctx' (mkFingerprint len bs) w2 fresh2 = Fault UseAfterFree).
Proof.
  intros E w2 fresh2. apply store_key_frees in E as ->. split; [done|]. split; [done|]. unfold MAX_FINGERPRINT_LEN.
  intros len bs Hb Hlen Hz. unfold hkp_fetch_key_fp. cbn [hkpbase fp_length fp_bytes]. unfold MAX_FINGERPRINT_LEN.
  destruct (Z.ltb_spec 32 len) as [|_]; [lia|]. rewrite zlen_app. change (zlen (str "/lookup?op=get&search=0x")) with 24.
  destruct (Z.ltb_spec 1024 (zlen (hkpbase ctx) + 24 + len * 2 + 1)) as [|_]; [lia|]. by rewrite <- Hz, memcpy_all.
Qed.

End Server.
