(* ===== verification/HkpUrl.v ===== *)
(** The addresses that the forwarding backend understands, and the example
    runs of the backend. *)

From Stdlib Require Import String.
From S2P Require Import Prelude CLib OpenPGP Streams DbCtx KeyId Packets Armor Keys KeyBuffer SigCheck Clean CleanFacts CleanKeys KeyUpdate Cgi FsDb KeyIndex Lookup CgiPrograms CgiFacts CgiExample Hkp HkpFacts.

(** * Addresses *)

Inductive scheme : Type := NoScheme | SchemeHkp | SchemeHkps | SchemeHttp | SchemeHttps.

#[global] Instance scheme_dec : EqDecision scheme.
Proof. solve_decision. Defined.

Definition scheme_prefix (s : scheme) : list Z :=
  match s with
  | NoScheme => []
  | SchemeHkp => str "hkp://"
  | SchemeHkps => str "hkps://"
  | SchemeHttp => str "http://"
  | SchemeHttps => str "https://"
  end.

Definition port_suffix (port : option Z) : list Z := match port with Some p => str ":" ++ decimal p | None => [] end.

(** The URL that stands for an address: the HKP schemes have ports of their own. *)
Definition expected_base (s : scheme) (host : list Z) (port : option Z) : list Z :=
  match s with
  | NoScheme | SchemeHkp => str "http://" ++ host ++ str ":" ++ decimal (default 11371 port)
  | SchemeHkps => str "https://" ++ host ++ str ":" ++ decimal (default 11372 port)
  | SchemeHttp | SchemeHttps => scheme_prefix s ++ host ++ port_suffix port
  end ++ str "/pks".

Lemma span_set_spec p t : forall n rest, Forall (fun c => p c = true) t -> (length t <= n)%nat ->
  length t = n \/ match rest with c :: _ => p c = false | [] => True end ->
  span_set n p (t ++ rest) = (t, rest).
Proof.
  induction t as [|c t IH]; intros n rest Ht Hn Hr.
  - destruct n as [|n]; [done|]. destruct Hr as [|Hr]; [done|]. destruct rest as [|d rest]; [done|]. cbn. by rewrite Hr.
  - apply Forall_cons in Ht as [Hc Ht]. destruct n as [|n]; [cbn in Hn; lia|]. cbn [app span_set]. rewrite Hc.
    cbn in Hn, Hr. rewrite IH; [done | done | lia |]. destruct Hr; [left; lia | by right].
Qed.

Lemma span_set_suffix p : forall n s t r, span_set n p s = (t, r) -> exists u, s = u ++ r.
Proof.
  induction n as [|n IH]; intros s t r E; [injection E as <- <-; by exists []|].
  destruct s as [|c s]; [injection E as <- <-; by exists []|]. cbn [span_set] in E. destruct (p c).
  - destruct (span_set n p s) as [t' r'] eqn:Es. injection E as <- <-. apply IH in Es as [u ->]. by exists (c :: u).
  - injection E as <- <-. by exists [].
Qed.

Lemma scan_decimal x : 0 <= x < 2 ^ 31 -> scan_unsigned (decimal x) = Some x.
Proof.
  intros Hx. unfold decimal. destruct (Z.ltb_spec x 0); [lia|].
  destruct (dec_digits_value 10 x []) as (E & Hd & Hne); [lia | lia | constructor |]. cbn [digits_value] in E.
  unfold scan_unsigned. destruct (dec_digits 10 x []) as [|c s]; [done|]. apply Forall_cons in Hd as [Hc _].
  assert (Hs : isspace c = false) by (unfold isspace, isdigit in *; lia). cbn [skip_space]. rewrite Hs.
  assert (Hcc : (c =? 45) = false /\ (c =? 43) = false) by (unfold isdigit in Hc; lia). destruct Hcc as [-> ->]. rewrite Hc, E.
  destruct (Z.leb_spec (2 ^ 64) x); [lia|]. by rewrite u32_small by lia.
Qed.

Definition host_name (host : list Z) : Prop := Forall (fun c => host_char c = true) host /\ 0 < zlen host < 256.
Definition port_ok (port : option Z) : Prop := match port with Some p => 0 < p < 65536 | None => True end.

Lemma scan_host_spec host port : host_name host -> port_ok port ->
  exists m, scan_host (host ++ port_suffix port) = Done (m, host, default 0 port) /\ 1 <= m.
Proof.
  intros [Hh Hl] Hp. unfold scan_host. rewrite span_set_spec; [|done | unfold zlen in Hl; lia | right; by destruct port].
  destruct host as [|c host]; [unfold zlen in Hl; cbn in Hl; lia|]. destruct (Z.leb_spec 256 (zlen (c :: host))); [lia|].
  destruct port as [p|]; cbn [port_suffix port_ok] in *; [|exists 1; split; [done | lia]].
  change (starts (str ":") (str ":" ++ decimal p)) with true. change (drop 1 (str ":" ++ decimal p)) with (decimal p).
  cbv iota. rewrite scan_decimal by lia. exists 2. split; [done | lia].
Qed.

(** Without a scheme the first attempt to read the address stops early. *)
Lemma scan_url_none url : Forall (fun c => c <> 47) url -> exists m p h n, scan_url url = Done (m, p, h, n) /\ m < 2.
Proof.
  intros Hu. unfold scan_url. destruct (span_set 5 lower url) as [proto r] eqn:E. apply span_set_suffix in E as [u ->].
  apply Forall_app in Hu as [_ Hr]. destruct proto; [by eexists _, _, _, _|]. replace (starts (str "://") r) with false; [by eexists _, _, _, _|].
  destruct r as [|a [|b r]]; [done | by cbn; destruct (_ =? _) |]. apply Forall_cons in Hr as [_ Hr]. apply Forall_cons in Hr as [Hb _].
  change (false = (58 =? a) && ((47 =? b) && starts (str "/") r)). destruct (Z.eqb_spec 47 b); [congruence|]. by rewrite andb_false_r.
Qed.

(** With one, it reads everything. *)
Lemma scan_url_scheme name rest m host port :
  Forall (fun c => lower c = true) name -> (0 < length name <= 5)%nat -> scan_host rest = Done (m, host, port) ->
  scan_url (name ++ str "://" ++ rest) = Done (1 + m, name, host, port).
Proof.
  intros Hn Hl Hr. unfold scan_url. rewrite span_set_spec; [|done | lia | by right].
  destruct name as [|c name]; [cbn in Hl; lia|]. change (starts (str "://") (str "://" ++ rest)) with true.
  change (drop 3 (str "://" ++ rest)) with rest. cbv iota. by rewrite Hr.
Qed.

Lemma host_lists host port : host_name host -> port_ok port -> Forall (fun c => c <> 47) (host ++ port_suffix port).
Proof.
  intros [Hh _] Hp. apply Forall_app. split.
  - eapply Forall_impl; [exact Hh|]. cbn. intros c Hc ->. done.
  - destruct port as [p|]; [|constructor]. cbn [port_suffix port_ok] in *. constructor; [done|].
    eapply Forall_impl; [apply decimal_alnum; lia|]. cbn. intros c Hc ->. done.
Qed.

Lemma decimal_length x : 0 <= x < 65536 -> zlen (decimal x) <= 10.
Proof.
  intros Hx. unfold decimal. destruct (Z.ltb_spec x 0); [lia|].
  assert (Hn : forall n x acc, (length (dec_digits n x acc) <= n + length acc)%nat).
  { induction n as [|n IH]; intros y acc; [done|]. cbn [dec_digits]. case_if; cbn [length]; [lia|].
    etransitivity; [apply IH|]. cbn [length]. lia. }
  pose proof (Hn 10%nat x []) as Hl. unfold zlen. cbn [length] in Hl. lia.
Qed.

(** Every address fits. *)
Lemma base_fits s host port : host_name host -> port_ok port -> hkp_base (expected_base s host port) = expected_base s host port.
Proof.
  intros [_ Hl] Hp. unfold hkp_base. apply take_ge.
  assert (Hd : zlen (decimal (default 11371 port)) <= 10 /\ zlen (decimal (default 11372 port)) <= 10 /\ zlen (port_suffix port) <= 11).
  { destruct port as [p|]; cbn [from_option id port_suffix port_ok] in *.
    - pose proof (decimal_length p ltac:(lia)). rewrite zlen_app. change (zlen (str ":")) with 1. lia.
    - repeat split; vm_compute; discriminate. }
  destruct Hd as (H1 & H2 & H3). unfold zlen in *. unfold expected_base.
  unfold scheme_prefix. destruct s; rewrite !length_app;
    repeat match goal with |- context [length (str ?x)] => let v := eval vm_compute in (length (str x)) in change (length (str x)) with v end; lia.
Qed.

(** What comes before the "://". *)
Definition scheme_name (s : scheme) : list Z :=
  match s with
  | NoScheme => []
  | SchemeHkp => str "hkp"
  | SchemeHkps => str "hkps"
  | SchemeHttp => str "http"
  | SchemeHttps => str "https"
  end.

Lemma url_base_spec s host port : host_name host -> port_ok port ->
  url_base (scheme_name s) host (default 0 port) = Some (expected_base s host port).
Proof.
  intros Hh Hp. rewrite <- (base_fits s host port Hh Hp). unfold url_base. rewrite bool_decide_false
    by (intros ->; destruct Hh as [_ Hl]; unfold zlen in Hl; cbn in Hl; lia).
  assert (Hport : (default 0 port =? 0) = match port with Some _ => false | None => true end).
  { destruct port as [p|]; [|done]. cbn in *. destruct (Z.eqb_spec p 0); [lia | done]. }
  rewrite Hport. unfold expected_base. destruct s, port; cbn -[str hkp_base decimal app];
    rewrite ?app_nil_r, <- ?app_assoc; try done.
Qed.

(** Every address of a server, with or without a scheme and a port, is
    understood: the two HKP schemes stand for HTTP and HTTPS with a port of their
    own, an address without a scheme for HKP, and the backend asks the URL that
    the address stands for. *)
Theorem hkp_parse_url_correct s host port : host_name host -> port_ok port ->
  hkp_parse_url (scheme_prefix s ++ host ++ port_suffix port) = Done (Some (expected_base s host port)).
Proof.
  intros Hh Hp. destruct (scan_host_spec host port Hh Hp) as (m & Es & Hm). rewrite <- (url_base_spec s host port Hh Hp).
  unfold hkp_parse_url. destruct (decide (s = NoScheme)) as [-> |Hs].
  - destruct (scan_url_none (host ++ port_suffix port)) as (m' & p' & h' & n' & E & Hm'); [by apply host_lists|].
    cbn [scheme_prefix app]. rewrite E. cbn [mbind outcome_bind]. destruct (Z.ltb_spec m' 2); [|lia]. by rewrite Es.
  - assert (E : scheme_prefix s = scheme_name s ++ str "://") by by destruct s. rewrite E, <- app_assoc.
    rewrite (scan_url_scheme _ _ m host (default 0 port)); [| destruct s; by repeat constructor | destruct s; cbn; done || lia | done].
    cbn [mbind outcome_bind]. by destruct (Z.ltb_spec (1 + m) 2); [lia|].
Qed.

Lemma hkp_parse_url_correct_witness :
  hkp_parse_url (str "hkps://" ++ str "keys.example.org" ++ str ":8443") = Done (Some (str "https://keys.example.org:8443/pks")).
Proof. apply (hkp_parse_url_correct SchemeHkps (str "keys.example.org") (Some 8443)); [split; [by repeat constructor | done] | done]. Defined.

(** A host name of 256 characters or more is written, with its terminator, behind
    the end of the array for it. *)
Lemma hkp_parse_url_overflow host rest :
  Forall (fun c => host_char c = true) host -> length host = 256%nat ->
  hkp_parse_url (str "hkp://" ++ host ++ rest) = Fault OutOfBounds.
Proof.
  intros Hh Hl. assert (Hs : scan_host (host ++ rest) = Fault OutOfBounds).
  { unfold scan_host. rewrite span_set_spec by (done || lia || auto). destruct host; [done|]. unfold zlen. rewrite Hl. done. }
  unfold hkp_parse_url, scan_url. change (str "hkp://" ++ host ++ rest) with (str "hkp" ++ str "://" ++ host ++ rest).
  rewrite span_set_spec; [|by repeat constructor | cbn; lia | by right].
  change (starts (str "://") (str "://" ++ host ++ rest)) with true. change (drop 3 (str "://" ++ host ++ rest)) with (host ++ rest).
  cbn [str]. by rewrite Hs.
Qed.

(** * Examples *)

Section Examples.
#[local] Existing Instances one_key one_key_more toy_hashes full_build toy_nettle.

(** An answer in two pieces. *)
Definition two_pieces (s : list Z) : list (list Z) := [take 10 s; drop 10 s].

Definition plain_escape (s : list Z) : list Z := concat (map percent s).

#[local] Instance plain_escapes : CurlEscapes plain_escape.
Proof. by intros s. Qed.

Definition some_memory : list Z := replicate (Z.to_nat 8192) 77.
Definition pks : list Z := str "http://keys.example.org:11371/pks".

Lemma hkp_fetch_served_witness :
  hkp_fetch_key_id (web_server (fun _ => true) [] example_config None [] pks two_pieces) (fun _ => true) (mkHkp pks None) 7 toy_key some_memory =
    Done (toy_key, [toy_key], 1) /\
  hkp_fetch_key_fp (web_server (fun _ => true) [] example_config None [] pks two_pieces) (fun _ => true) (mkHkp pks None)
    (mkFingerprint 20 (replicate 20 7)) toy_key some_memory = Done (toy_key, [toy_key], 1).
Proof.
  destruct (hkp_fetch_served (fun _ => true) [] example_config None [] pks two_pieces toy_key some_memory 1 toy_key [] [toy_key] 0
    example_headers) as [H1 H2].
  - intros s. unfold two_pieces. cbn [concat]. by rewrite app_nil_r, take_drop.
  - vm_compute. discriminate.
  - vm_compute. reflexivity.
  - discriminate.
  - vm_compute. reflexivity.
  - vm_compute. reflexivity.
  - exact toy_storable.
  - vm_compute. discriminate.
  - split; [apply (H1 7); [lia | reflexivity]|].
    apply (H2 20 (replicate 20 7)); [by left | apply (bool_decide_unpack _); vm_compute; exact I | reflexivity | reflexivity].
Defined.

Lemma hkp_store_correct_witness :
  hkp_store_key (web_server (fun _ => true) [] example_config None [] pks two_pieces) plain_escape (mkHkp pks None) toy_key toy_key some_memory =
    Done (mkHkp pks (Some PostFreed), toy_key, 1).
Proof.
  eapply (hkp_store_correct (fun _ => true) [] example_config None [] plain_escape pks two_pieces toy_key None toy_key some_memory toy_key).
  - vm_compute. reflexivity.
  - vm_compute. discriminate.
  - exact toy_storable.
  - vm_compute. reflexivity.
  - reflexivity.
  - vm_compute. reflexivity.
Defined.

Lemma hkp_fetch_after_store_witness :
  exists ctx' w' r, hkp_store_key (fun (w : nat) _ => (S w, Some [])) plain_escape (mkHkp pks None) toy_key 0%nat some_memory = Done (ctx', w', r) /\
    hkp_fetch_key_id (fun (w : nat) _ => (S w, Some [])) (fun _ => true) ctx' 7 w' some_memory = Fault UseAfterFree.
Proof.
  eexists _, _, _. split; [vm_compute; reflexivity|].
  eapply (hkp_fetch_after_store (fun _ => true) (fun (w : nat) _ => (S w, Some [])) plain_escape (mkHkp pks None) toy_key 0%nat some_memory).
  vm_compute. reflexivity.
Defined.
End Examples.
