(* ===== verification/Onak.v ===== *)
(** The command line program (onak.c).

    The options have been read by [getopt]; the arguments are the command and
    what follows it.  The database is [None] when it cannot be opened.  A command
    gives the database, what it prints and the exit status. *)

From Stdlib Require Import String.
From S2P Require Import Prelude CLib OpenPGP Streams DbCtx KeyId KeyArray Packets Armor Keys SigCheck Clean KeyUpdate Photo Template KeyIndex Aged FsDb Lookup.

Record options : Type := mkOptions { op_binary : bool; op_exact : bool; op_dispfp : bool; op_skshash : bool; op_update : bool }.

Definition EXIT_SUCCESS : Z := 0.
Definition EXIT_FAILURE : Z := 1.

(** * Dumping *)

(** The files that were written, with their numbers; the last one is the one that
    is open if [dp_fd]. *)
Record dump_ctx : Type := mkDump { dp_count : Z; dp_maxcount : Z; dp_fd : bool; dp_filenum : Z; dp_files : list (Z * list Z) }.

(** [write] to the open file; without one it fails. *)
Definition dump_write (state : dump_ctx) (octets : list Z) : dump_ctx :=
  mkDump (dp_count state) (dp_maxcount state) (dp_fd state) (dp_filenum state)
    (if dp_fd state then
       match reverse (dp_files state) with
       | (n, f) :: older => reverse ((n, f ++ octets) :: older)
       | [] => []
       end
     else dp_files state).

Section Dump.
Variable open_ok : Z -> bool.

Definition dump_open (state : dump_ctx) : dump_ctx :=
  let next := dp_fd state in
  if negb next || (dp_maxcount state <? dp_count state) then
    let ok := open_ok (dp_filenum state) in
    mkDump 0 (dp_maxcount state) ok (i32 (dp_filenum state + 1)) (dp_files state ++ (if ok then [(dp_filenum state, [])] else []))
  else mkDump (i32 (dp_count state + 1)) (dp_maxcount state) (dp_fd state) (dp_filenum state) (dp_files state).

Definition dump_func (state : dump_ctx) (key : openpgp_publickey) : outcome dump_ctx :=
  let state := dump_open state in
  packets ← flatten_publickey [key] [];
  '(out, _) ← write_openpgp_stream (mkOut []) packets;
  Done (dump_write state (out_written out)).
End Dump.

Definition dump_start : dump_ctx := mkDump 0 100000 false 0 [].

(** * The commands *)

Section Commands.
Context {HF : Hashes} {BC : BuildConfig} {NT : Nettle} {D : Type} {DB : KeyDb D} {DM : KeyDbMore D}.
Context (malloc_ok : Z -> bool) (stack : list Z) (config : onak_config) (clean_policies maxkeys : Z) (blacklist : option keyarray) (now : Z).

Definition out_keys (binary : bool) (keys : list openpgp_publickey) : outcome (list Z) :=
  packets ← flatten_publickey keys [];
  out ← (if binary then '(s, _) ← write_openpgp_stream (mkOut []) packets; Done s else armor_openpgp_stream (mkOut []) packets);
  Done (out_written out).

(** The packets on standard input. *)
Definition in_packets (binary : bool) (stdin : list Z) : outcome (list openpgp_packet) :=
  if binary then
    '(_, _, packets) ← read_openpgp_stream malloc_ok (S (length stdin)) (mkIn stdin) (Some []) 0;
    Done (default [] packets)
  else
    '(_, packets) ← dearmor_openpgp_stream (S (length stdin)) malloc_ok (mkIn stdin) [];
    Done packets.

Definition onak_find_keys (dbctx : D) (a : lookup_args) (o : options) (verbose : bool) : outcome (list Z) :=
  '(count, publickey) ←
    (if la_ishex a then Done (fetch_key_id dbctx (la_keyid a) false)
     else if la_isfp a then
       fp ← need_fp (la_fingerprint a);
       Done (if op_exact o then fetch_key dbctx fp false else fetch_key_fp dbctx fp false)
     else Done (fetch_key_text dbctx (default [] (la_search a))));
  match publickey with
  | _ :: _ => key_index (Some (generic_keyid2uid dbctx)) None publickey now verbose (op_dispfp o) (op_skshash o) false
  | [] =>
      if count =? 0 then Done (puts (str "Key not found."))
      else Done (str "Found " ++ decimal count ++ str " keys, but maximum number to return is " ++ decimal maxkeys ++ str "." ++ [10]
                 ++ puts (str "Try again with a more specific search."))
  end.

(** The result of a command. *)
Record result : Type := mkResult { rs_db : D; rs_out : list Z; rs_rc : Z }.

(** The keys that were read are cleaned and stored. *)
Definition add_parsed (dbctx : D) (o : options) (keys : list openpgp_publickey) : outcome result :=
  '(keys, _) ← cleankeys dbctx stack config (match keys with [] => None | _ => Some keys end) clean_policies;
  '(dbctx, keys, _, _) ←
    generic_update_keys dbctx (default [] keys) blacklist (policy clean_policies ONAK_CLEAN_UPDATE_ONLY) false;
  match keys with
  | [] => Done (mkResult dbctx [] 1)
  | _ => out ← (if op_update o then out_keys (op_binary o) keys else Done []); Done (mkResult dbctx out EXIT_SUCCESS)
  end.

Definition onak_clean (dbctx : D) (o : options) (stdin : list Z) : outcome result :=
  packets ← in_packets (op_binary o) stdin;
  match packets with
  | [] => Done (mkResult dbctx [] 1)
  | _ =>
      '(keys, _) ← parse_keys packets [];
      match keys with
      | [] => Done (mkResult dbctx [] EXIT_SUCCESS)
      | _ =>
          '(keys, _) ← cleankeys dbctx stack config (Some keys) clean_policies;
          out ← out_keys (op_binary o) (default [] keys);
          Done (mkResult dbctx out EXIT_SUCCESS)
      end
  end.

Definition onak_aged (dbctx : D) (o : options) (command : list Z) (max_age : Z) : outcome result :=
  if streq command "dump-aged" then
    '(out, _) ← onak_cmd_dump_aged (Some dbctx) (mkOut []) now max_age (op_binary o);
    Done (mkResult dbctx (out_written out) EXIT_SUCCESS)
  else if streq command "clean-aged" then
    '(dbctx, _) ← onak_cmd_clean_aged dbctx now max_age; Done (mkResult dbctx [] EXIT_SUCCESS)
  else '(out, _) ← onak_cmd_aged (Some dbctx) now max_age; Done (mkResult dbctx out EXIT_SUCCESS).

Definition onak_getphoto (dbctx : D) (a : lookup_args) : outcome (list Z) :=
  if negb (la_ishex a) then Done (puts (str "Can't get a key on uid text. You must supply a keyid."))
  else
    let '(count, keys) := fetch_key_id dbctx (la_keyid a) false in
    if count =? 0 then Done (puts (str "Key not found"))
    else match keys with
         | [] => Done []
         | key :: _ =>
             '(rc, photo) ← getphoto key 0;
             match photo with
             | Some (image, length) => if status_ok rc then memcpy_from image 0 length else Done []
             | None => Done []
             end
         end.

(** A search that is not a fingerprint is taken for a key id. *)
Definition onak_delete (dbctx : D) (a : lookup_args) : outcome D :=
  if negb (la_isfp a) then
    let '(count, keys) := fetch_key_id dbctx (la_keyid a) false in
    if count =? 0 then Done dbctx
    else match keys with
         | [] => Fault NullDeref
         | key :: _ => '(_, fp) ← get_fingerprint (pk_publickey key); Done (delete_key dbctx fp false).1
         end
  else fp ← need_fp (la_fingerprint a); Done (delete_key dbctx fp false).1.

Definition onak_get (dbctx : D) (a : lookup_args) (o : options) : outcome (list Z) :=
  if negb (la_ishex a || la_isfp a) then Done (puts (str "Can't get a key on uid text. You must supply a keyid / fingerprint."))
  else
    '(count, keys) ← (if la_isfp a then fp ← need_fp (la_fingerprint a); Done (fetch_key_fp dbctx fp false)
                      else Done (fetch_key_id dbctx (la_keyid a) false));
    if count =? 0 then Done (puts (str "Key not found")) else out_keys (op_binary o) keys.

Definition onak_hget (dbctx : D) (search junk : list Z) (o : options) : outcome (list Z) :=
  '(ok, hash) ← parse_skshash search junk;
  if ok =? 0 then Done (puts (str "Couldn't parse sks hash."))
  else
    let '(count, keys) := fetch_key_skshash dbctx hash in
    if count =? 0 then Done (puts (str "Key not found")) else out_keys (op_binary o) keys.

Definition onak_reindex (dbctx : D) (a : lookup_args) : outcome (D * list Z) :=
  let '(dbctx, _) := starttrans dbctx in
  let '(count, keys) := fetch_key_id dbctx (la_keyid a) true in
  '(dbctx, out) ←
    (if count =? 0 then Done (dbctx, puts (str "Key not found"))
     else match keys with
          | [] => Fault NullDeref
          | key :: _ =>
              '(_, fp) ← get_fingerprint (pk_publickey key);
              let '(dbctx, _) := delete_key dbctx fp true in
              '(keys, _) ← cleankeys dbctx stack config (Some keys) clean_policies;
              match default [] keys with
              | [] => Fault NullDeref
              | key :: _ => Done ((store_key dbctx key true false).1, [])
              end
          end);
  Done (endtrans dbctx, out).

(** The commands that take a search. *)
Definition onak_search (dbctx : D) (o : options) (command search junk : list Z) : outcome result :=
  let a := set_search no_args search in
  let print (out : outcome (list Z)) := out ← out; Done (mkResult dbctx out EXIT_SUCCESS) in
  if streq command "index" then print (onak_find_keys dbctx a o false)
  else if streq command "vindex" then print (onak_find_keys dbctx a o true)
  else if streq command "getphoto" then print (onak_getphoto dbctx a)
  else if streq command "delete" then dbctx ← onak_delete dbctx a; Done (mkResult dbctx [] EXIT_SUCCESS)
  else if streq command "get" then print (onak_get dbctx a o)
  else if streq command "hget" then print (onak_hget dbctx search junk o)
  else if streq command "reindex" then '(dbctx, out) ← onak_reindex dbctx a; Done (mkResult dbctx out EXIT_SUCCESS)
  else Done (mkResult dbctx [] EXIT_SUCCESS).
(** * The program *)

Definition usage (version : list Z) : list Z :=
  let tab := [9] in
  puts (str "onak " ++ version ++ str " - an OpenPGP keyserver." ++ [10]) ++ puts (str "Usage:" ++ [10]) ++
  puts (tab ++ str "onak [options] <command> <parameters>" ++ [10]) ++ puts (tab ++ str "Commands:" ++ [10]) ++
  puts (tab ++ str "add      - read armored OpenPGP keys from stdin and add to the keyserver") ++
  puts (tab ++ str "aged       - list fingerprints of expired keys, plus those older" ++ [10] ++ tab ++
        str "             than the optional age (e.g. 25y)") ++
  puts (tab ++ str "clean    - read armored OpenPGP keys from stdin, run the cleaning" ++ [10] ++ tab ++
        str "       " ++ tab ++ str "   routines against them and dump to stdout") ++
  puts (tab ++ str "clean-aged - delete from the backend the keys matched by 'aged'" ++ [10] ++ tab ++
        str "             (requires a backend that supports delete_key)") ++
  puts (tab ++ str "delete   - delete a given key from the keyserver") ++
  puts (tab ++ str "dump     - dump all the keys from the keyserver to a file or files" ++ [10] ++ tab ++ str "           starting keydump*") ++
  puts (tab ++ str "dump-aged  - emit the keys matched by 'aged' as an OpenPGP stream" ++ [10] ++ tab ++
        str "             (ASCII armored by default; pass -b for binary)") ++
  puts (tab ++ str "get      - retrieves the key requested from the keyserver") ++
  puts (tab ++ str "getphoto - retrieves the first photoid on the given key and dumps to" ++ [10] ++ tab ++ str "           stdout") ++
  puts (tab ++ str "index    - search for a key and list it") ++
  puts (tab ++ str "reindex  - retrieve and re-store a key in the backend db") ++
  puts (tab ++ str "vindex   - search for a key and list it and its signatures").

(** What the program leaves behind: the database if it was opened, what was
    printed, the files of a dump and the exit status. *)
Record ended : Type := mkEnded { en_db : option D; en_out : list Z; en_files : list (Z * list Z); en_rc : Z }.

Definition opened (dbctx : option D) (command : D -> outcome result) : outcome ended :=
  match dbctx with
  | None => Done (mkEnded None [] [] EXIT_FAILURE)
  | Some dbctx => r ← command dbctx; Done (mkEnded (Some (rs_db r)) (rs_out r) [] (rs_rc r))
  end.

(** [written] is what [writeconfig] writes; the input of "add" is read before the
    database is opened. *)
Definition onak_main (version : list Z) (written : outcome (list Z)) (open_ok : Z -> bool) (o : options) (args : list (list Z))
    (stdin junk : list Z) (db : option D) : outcome ended :=
  let finish out rc := Done (mkEnded db out [] rc) in
  match args with
  | [] => finish (usage version) EXIT_SUCCESS
  | command :: params =>
      if streq command "dump" then
        match db with
        | None => finish [] EXIT_FAILURE
        | Some dbctx =>
            state ← foldM (dump_func open_ok) dump_start (iterate_keys dbctx);
            Done (mkEnded db [] (dp_files state) EXIT_SUCCESS)
        end
      else if streq command "add" then
        packets ← in_packets (op_binary o) stdin;
        match packets with
        | [] => finish [] 1
        | _ => '(keys, _) ← parse_keys packets []; opened db (fun dbctx => add_parsed dbctx o keys)
        end
      else if streq command "clean" then opened db (fun dbctx => onak_clean dbctx o stdin)
      else if streq command "dumpconfig" then
        conf ← written; if zlen params =? 1 then finish [] EXIT_SUCCESS else finish conf EXIT_SUCCESS
      else if streq command "aged" || streq command "dump-aged" || streq command "clean-aged" then
        match params with
        | age :: _ =>
            let max_age := parse_age_string (Some age) in
            if max_age =? 0 then
              finish (str "Could not parse age '" ++ age ++ str "'. Use forms like 25y, 180d, 12h." ++ [10]) EXIT_FAILURE
            else opened db (fun dbctx => onak_aged dbctx o command max_age)
        | [] => opened db (fun dbctx => onak_aged dbctx o command 0)
        end
      else match params with
           | [search] => opened db (fun dbctx => onak_search dbctx o command search junk)
           | _ => finish (usage version) EXIT_SUCCESS
           end
  end.
End Commands.
