(* ===== verification/OnakFacts.v ===== *)
(** What the commands of the program do: a dump and the keys it was made of, and
    which key a search stands for. *)

From Stdlib Require Import String.
From S2P Require Import Prelude CLib OpenPGP Streams DbCtx KeyId KeyArray Packets Armor Keys KeyBuffer SigCheck Clean CleanFacts CleanKeys KeyUpdate Cgi Aged FsDb FsDbFacts FileDb Lookup CgiPrograms CgiFacts CgiExample Onak.

(** * Dumps *)

Definition keys_octets (keys : list openpgp_publickey) : list Z := encode_packets (keys_packets keys).

Lemma keys_octets_app a b : keys_octets (a ++ b) = keys_octets a ++ keys_octets b.
Proof. unfold keys_octets, encode_packets. by rewrite keys_packets_app, map_app, concat_app. Qed.

(** The files of a dump, for the keys in each of them. *)
Definition dump_files (groups : list (list openpgp_publickey)) : list (Z * list Z) :=
  imap (fun i ks => (Z.of_nat i, keys_octets ks)) groups.

Section Dump.
Variable malloc_ok : Z -> bool.

(** A dump that is at [cur], the keys in the open file. *)
Record dumping (m : Z) (state : dump_ctx) (groups : list (list openpgp_publickey)) (cur : list openpgp_publickey) : Prop := {
  du_fd : dp_fd state = true;
  du_max : dp_maxcount state = m;
  du_count : dp_count state = zlen cur - 1;
  du_num : dp_filenum state = Z.of_nat (length groups) + 1;
  du_files : dp_files state = dump_files (groups ++ [cur]);
  du_cur : 0 < zlen cur <= m + 2;
  du_groups : Forall (fun g => zlen g = m + 2) groups
}.

Lemma dump_func_writes open_ok state key : storable malloc_ok [key] ->
  dump_func open_ok state key = Done (dump_write (dump_open open_ok state) (keys_octets [key])).
Proof.
  intros S. unfold dump_func. pose proof (write_key malloc_ok key S) as E. apply bind_Done in E as (ps & -> & E).
  cbn [mbind outcome_bind]. rewrite E. done.
Qed.

Lemma dump_write_last files n f c mx num o :
  dump_write (mkDump c mx true num (files ++ [(n, f)])) o = mkDump c mx true num (files ++ [(n, f ++ o)]).
Proof. unfold dump_write. cbn [dp_fd dp_files]. rewrite reverse_snoc. cbv beta iota. by rewrite reverse_cons, reverse_involutive. Qed.

Lemma dump_files_snoc groups g : dump_files (groups ++ [g]) = dump_files groups ++ [(Z.of_nat (length groups), keys_octets g)].
Proof. unfold dump_files. rewrite imap_app. cbn. by rewrite Nat.add_0_r. Qed.

(** One more key: into the open file, or into a new one. *)
Lemma dump_step m state groups cur key :
  dumping m state groups cur -> storable malloc_ok [key] -> 0 <= m < 2 ^ 30 -> Z.of_nat (length groups) < 2 ^ 30 ->
  exists state', dump_func (fun _ => true) state key = Done state' /\
    if zlen cur =? m + 2 then dumping m state' (groups ++ [cur]) [key] else dumping m state' groups (cur ++ [key]).
Proof.
  intros [F M C N Fi Cu G] S Hm Hg. rewrite dump_func_writes by done. eexists. split; [done|]. unfold dump_open. rewrite F, M, C, N. cbn [negb orb].
  destruct (Z.eqb_spec (zlen cur) (m + 2)) as [E|E].
  - destruct (Z.ltb_spec m (zlen cur - 1)); [|lia]. rewrite Fi, dump_write_last. split; cbn [dp_fd dp_maxcount dp_count dp_filenum dp_files]; try done.
    + rewrite i32_small, length_app by lia. cbn [length]. lia.
    + rewrite (dump_files_snoc (groups ++ [cur])), length_app. cbn [length app]. do 3 f_equal. lia.
    + change (zlen [key]) with 1. lia.
    + apply Forall_app. split; [done | by apply Forall_singleton].
  - destruct (Z.ltb_spec m (zlen cur - 1)); [lia|]. rewrite Fi, dump_files_snoc, dump_write_last.
    split; cbn [dp_fd dp_maxcount dp_count dp_filenum dp_files]; try done.
    + rewrite i32_small by lia. rewrite zlen_app. change (zlen [key]) with 1. lia.
    + by rewrite dump_files_snoc, keys_octets_app.
    + rewrite zlen_app. change (zlen [key]) with 1. lia.
Qed.

Lemma dump_loop m keys : forall state groups cur,
  dumping m state groups cur -> Forall (fun k => storable malloc_ok [k]) keys -> 0 <= m < 2 ^ 30 ->
  Z.of_nat (length groups) + zlen keys < 2 ^ 30 ->
  exists state' groups' cur', foldM (dump_func (fun _ => true)) state keys = Done state' /\ dumping m state' groups' cur' /\
    concat (groups' ++ [cur']) = concat (groups ++ [cur]) ++ keys.
Proof.
  induction keys as [|k keys IH]; intros state groups cur Hd Hs Hm Hl; cbn [foldM].
  { exists state, groups, cur. by rewrite app_nil_r. }
  apply Forall_cons in Hs as [Hk Hs]. rewrite zlen_cons in Hl. pose proof (zlen_nonneg keys).
  destruct (dump_step m state groups cur k Hd Hk Hm) as (st & -> & Hst); [lia|]. cbn [mbind outcome_bind].
  destruct (zlen cur =? m + 2).
  - destruct (IH st (groups ++ [cur]) [k] Hst Hs Hm) as (s' & g' & c' & -> & Hd' & Hc'); [rewrite length_app; cbn [length]; lia|].
    exists s', g', c'. split; [done|]. split; [done|]. rewrite Hc', !concat_app. cbn [concat app]. by rewrite !app_nil_r, <- !app_assoc.
  - destruct (IH st groups (cur ++ [k]) Hst Hs Hm) as (s' & g' & c' & -> & Hd' & Hc'); [lia|].
    exists s', g', c'. split; [done|]. split; [done|]. rewrite Hc', !concat_app. cbn [concat app]. by rewrite !app_nil_r, <- !app_assoc.
Qed.

(** A whole dump. *)
Lemma dump_all keys :
  Forall (fun k => storable malloc_ok [k]) keys -> zlen keys < 2 ^ 29 ->
  exists state groups, foldM (dump_func (fun _ => true)) dump_start keys = Done state /\ dp_files state = dump_files groups /\
    concat groups = keys /\ (forall i g, groups !! i = Some g -> 0 < zlen g <= 100002 /\ ((S i < length groups)%nat -> zlen g = 100002)).
Proof.
  intros Hs Hl. destruct keys as [|k keys]; [by exists dump_start, []|]. apply Forall_cons in Hs as [Hk Hs]. cbn [foldM].
  rewrite dump_func_writes by done. cbn [mbind outcome_bind]. rewrite zlen_cons in Hl. pose proof (zlen_nonneg keys).
  destruct (dump_loop 100000 keys (dump_write (dump_open (fun _ => true) dump_start) (keys_octets [k])) [] [k]) as (st & gs & cur & -> & Hd & Hc);
    [split; try done; (split; done) | done | lia | cbn [length]; lia |].
  destruct Hd as [_ _ _ _ Fi Cu G]. exists st, (gs ++ [cur]). split; [done|]. split; [done|]. split; [done|].
  intros i g Hi. rewrite length_app. cbn [length]. apply lookup_app_Some in Hi as [Hi | [Hge Hi]].
  - rewrite list.Forall_forall in G. rewrite (G g) by (by eapply list_elem_of_lookup_2). lia.
  - apply list_lookup_singleton_Some in Hi as [Hi ->]. split; [lia|]. lia.
Qed.

Lemma storable_cons k ks : storable malloc_ok (k :: ks) -> storable malloc_ok [k] /\ storable malloc_ok ks.
Proof.
  intros [H1 H2 H3 H4 H5 H6 H7 H8]. change (k :: ks) with ([k] ++ ks) in *. rewrite keys_packets_app in H4, H5, H6, H7.
  unfold encode_packets in H7. rewrite map_app, concat_app, zlen_app in H7.
  fold (encode_packets (keys_packets [k])) (encode_packets (keys_packets ks)) in H7.
  apply Forall_app in H1 as [? ?], H2 as [? ?], H3 as [? ?], H4 as [? ?], H5 as [? ?], H6 as [? ?]. rewrite length_app in H8.
  pose proof (zlen_nonneg (encode_packets (keys_packets [k]))). pose proof (zlen_nonneg (encode_packets (keys_packets ks))).
  split; split; try done; lia.
Qed.

Lemma storable_each ks : storable malloc_ok ks -> Forall (fun k => storable malloc_ok [k]) ks.
Proof. induction ks as [|k ks IH]; [constructor|]. intros [Hk Hks]%storable_cons. constructor; auto. Qed.

Lemma dump_files_octets groups : concat (map snd (dump_files groups)) = keys_octets (concat groups).
Proof.
  unfold dump_files. generalize (@Z.of_nat). assert (H : forall (f : nat -> Z) gs, map snd (imap (fun i ks => (f i, keys_octets ks)) gs) = map keys_octets gs).
  { intros f gs. revert f. induction gs as [|g gs IH]; intros f; [done|]. cbn. f_equal. apply (IH (f ∘ S)). }
  intros f. rewrite H. clear H f. induction groups as [|g groups IH]; [done|]. cbn [map concat]. by rewrite IH, keys_octets_app.
Qed.
End Dump.

(** * The program *)

Section Program.
Context {HF : Hashes} {BC : BuildConfig} {NT : Nettle} {D : Type} {DB : KeyDb D} {DM : KeyDbMore D}.
Variable malloc_ok : Z -> bool.

Lemma in_packets_binary ks : storable malloc_ok ks -> in_packets malloc_ok true (keys_octets ks) = Done (keys_packets ks).
Proof.
  intros S. unfold in_packets, keys_octets. pose proof (encode_packets_count (keys_packets ks)).
  destruct (read_stream_spec (R := in_file) malloc_ok (keys_packets ks) (mkIn (encode_packets (keys_packets ks)))
    (Datatypes.S (length (encode_packets (keys_packets ks)))) []) as [s' ->]; [apply S | apply S | apply S | done | lia | done].
Qed.

(** C29: "onak dump" writes every key of the database, in order, into files of
    100002 keys each and a last one with the rest, though the limit is set to
    100000; and "onak -b add" of the files, one behind the other, cleans and
    stores exactly those keys. *)
Theorem dump_add_roundtrip {D2} {DB2 : KeyDb D2} {DM2 : KeyDbMore D2} (db : D) (db2 : D2) stack config policies maxkeys blacklist now
    stack2 config2 policies2 maxkeys2 blacklist2 now2 version written o update junk :
  storable malloc_ok (iterate_keys db) -> iterate_keys db <> [] -> zlen (iterate_keys db) < 2 ^ 29 ->
  exists groups,
    onak_main malloc_ok stack config policies maxkeys blacklist now version written (fun _ => true) o [str "dump"] [] junk (Some db) =
      Done (mkEnded (Some db) [] (dump_files groups) EXIT_SUCCESS) /\
    concat groups = iterate_keys db /\
    (forall i g, groups !! i = Some g -> 0 < zlen g <= 100002 /\ ((S i < length groups)%nat -> zlen g = 100002)) /\
    let o2 := mkOptions true false false false update in
    onak_main malloc_ok stack2 config2 policies2 maxkeys2 blacklist2 now2 version written (fun _ => true) o2 [str "add"]
      (concat (map snd (dump_files groups))) junk (Some db2) =
    opened (Some db2) (fun db2 => add_parsed stack2 config2 policies2 blacklist2 db2 o2 (map reparsed (iterate_keys db))).
Proof.
  intros S Hne Hl. destruct (dump_all malloc_ok (iterate_keys db) (storable_each _ _ S) Hl) as (st & groups & E & Ef & Hc & Hg).
  exists groups. split; [|split; [done | split; [done|]]].
  - unfold onak_main. change (streq (str "dump") "dump") with true. cbv iota. rewrite E. cbn [mbind outcome_bind]. by rewrite Ef.
  - rewrite dump_files_octets, Hc. unfold onak_main. cbn [op_binary]. change (streq (str "add") "dump") with false.
    change (streq (str "add") "add") with true. cbv iota zeta. rewrite in_packets_binary by done. cbn [mbind outcome_bind].
    destruct (keys_packets (iterate_keys db)) as [|p ps] eqn:Ek; [by destruct (keys_packets_ne (iterate_keys db) (storable_wf _ _ S) Hne)|].
    rewrite <- Ek, parse_keys_append by apply S. done.
Qed.

(** * Searches that are not key ids *)

Lemma span_xdigits_prefix d c rest : Forall (fun c => isxdigit c = true) d -> isxdigit c = false ->
  span_xdigits (d ++ c :: rest) = (d, c :: rest).
Proof. intros Hd Hc. induction Hd as [|x d Hx _ IH]; cbn [app span_xdigits]; [by rewrite Hc | by rewrite Hx, IH]. Qed.

Lemma strtoull16_prefix d c rest keyid :
  hex_number d keyid -> isxdigit c = false -> c <> 120 -> c <> 88 -> strtoull16 (d ++ c :: rest) = (keyid, c :: rest).
Proof.
  intros (Hd & Hv & Hn & Hk) Hc H1 H2. pose proof (span_xdigits_prefix d c rest Hd Hc) as Hs.
  destruct d as [|x d]; [cbn in Hn; lia|]. unfold strtoull16. cbn [app] in *. pose proof (Forall_inv Hd) as Hx.
  assert (Hspace : isspace x = false /\ (x =? 45) = false /\ (x =? 43) = false) by (unfold isspace, isxdigit in *; lia).
  destruct Hspace as (E1 & E2 & E3). cbn [skip_space]. rewrite E1, E2, E3.
  assert (Ex : forall y z r, d ++ c :: rest = y :: z :: r -> ((x =? 48) && ((y =? 120) || (y =? 88)) && isxdigit z) = false).
  { intros y z r Er. destruct d as [|y' d]; cbn [app] in Er; injection Er as <- Er.
    - destruct (Z.eqb_spec c 120); [done|]. destruct (Z.eqb_spec c 88); [done|]. by rewrite andb_false_r.
    - apply Forall_cons in Hd as [_ Hd]. pose proof (Forall_inv Hd) as Hy. unfold isxdigit in Hy.
      destruct (Z.eqb_spec y' 120); [lia|]. destruct (Z.eqb_spec y' 88); [lia|]. by rewrite andb_false_r. }
  assert (Et : match d ++ c :: rest with y :: z :: r => if (x =? 48) && ((y =? 120) || (y =? 88)) && isxdigit z then z :: r else x :: d ++ c :: rest | _ => x :: d ++ c :: rest end = x :: d ++ c :: rest).
  { destruct (d ++ c :: rest) as [|y [|z r]] eqn:Er; [done | done|]. by rewrite (Ex y z r eq_refl). }
  rewrite Et, Hs. cbv iota beta zeta. unfold hexval in Hv. rewrite Hv. destruct (Z.leb_spec (2 ^ 64) keyid); [lia | done].
Qed.

(** "onak delete" does not ask for a key id: for a search text that begins
    with hexadecimal digits, such as a name, it deletes the key whose id is the
    number they form. *)
Theorem delete_takes_prefix (db : D) stack config policies maxkeys now o d c rest keyid junk :
  hex_number d keyid -> isxdigit c = false -> c <> 120 -> c <> 88 -> zlen (d ++ c :: rest) <> 42 -> zlen (d ++ c :: rest) <> 66 ->
  onak_search stack config policies maxkeys now db o (str "delete") (d ++ c :: rest) junk =
  onak_search stack config policies maxkeys now db o (str "delete") (str "0x" ++ d) junk.
Proof.
  intros Hd Hc H1 H2 L1 L2. unfold onak_search. rewrite (set_search_hex no_args d keyid Hd).
  unfold set_search. destruct (Z.eqb_spec (zlen (d ++ c :: rest)) (2 + 2 * 20)); [lia|].
  destruct (Z.eqb_spec (zlen (d ++ c :: rest)) (2 + 2 * 32)); [lia|]. cbn [andb]. rewrite (strtoull16_prefix d c rest keyid) by done.
  reflexivity.
Qed.
End Program.

(** * Examples *)

Section Examples.
#[local] Existing Instances one_key one_key_more toy_hashes full_build toy_nettle.

Definition plain_options : options := mkOptions false false false false false.

Lemma dump_add_roundtrip_witness :
  exists groups,
    onak_main (fun _ => true) [] (mkConfig 512 512) 0 128 None 0 (str "0.6") (Done []) (fun _ => true) plain_options [str "dump"] [] [] (Some toy_key) =
      Done (mkEnded (Some toy_key) [] (dump_files groups) EXIT_SUCCESS) /\
    concat groups = iterate_keys toy_key /\
    (forall i g, groups !! i = Some g -> 0 < zlen g <= 100002 /\ ((S i < length groups)%nat -> zlen g = 100002)) /\
    let o2 := mkOptions true false false false true in
    onak_main (fun _ => true) [] (mkConfig 512 512) 0 128 None 0 (str "0.6") (Done []) (fun _ => true) o2 [str "add"]
      (concat (map snd (dump_files groups))) [] (Some toy_key) =
    opened (Some toy_key) (fun db2 => add_parsed [] (mkConfig 512 512) 0 None db2 o2 (map reparsed (iterate_keys toy_key))).
Proof.
  apply (dump_add_roundtrip (fun _ => true) toy_key toy_key [] (mkConfig 512 512) 0 128 None 0 [] (mkConfig 512 512) 0 128 None 0 (str "0.6") (Done [])
    plain_options true []).
  - exact toy_storable.
  - discriminate.
  - vm_compute. reflexivity.
Defined.

(** Looking for somebody whose address begins with "fade". *)
Lemma delete_takes_prefix_witness :
  onak_search [] (mkConfig 512 512) 0 128 0 toy_key plain_options (str "delete") (str "fade" ++ 64 :: str "example.org") [] =
  onak_search [] (mkConfig 512 512) 0 128 0 toy_key plain_options (str "delete") (str "0x" ++ str "fade") [].
Proof.
  apply (delete_takes_prefix toy_key [] (mkConfig 512 512) 0 128 0 plain_options (str "fade") 64 (str "example.org") 0xfade []).
  - split; [by repeat constructor|]. split; [reflexivity|]. split; [cbn; lia | lia].
  - reflexivity.
  - discriminate.
  - discriminate.
  - vm_compute. discriminate.
  - vm_compute. discriminate.
Defined.
End Examples.
