(* ===== verification/GpgWww.v ===== *)
(** The path finder's answer with keys (cgi/gpgwww.c): the keys on the paths
    between two keys, as one armored text. *)

From Stdlib Require Import String.
From S2P Require Import Prelude CLib OpenPGP Streams DbCtx Packets Armor Keys Stats StatsFacts StatsPaths FsDb FsDbFacts Lookup CgiPrograms.

(** The key ids and whether the keys are asked for. *)
Definition parsecgistuff (params : option (list (list Z * list Z))) : Z * Z * bool :=
  foldl (fun '(from, to, get) nv =>
    if streq nv.1 "to" then (from, (strtoull16 nv.2).1, get)
    else if streq nv.1 "from" then ((strtoull16 nv.2).1, to, get)
    else if streq nv.1 "op" then (from, to, if streq nv.2 "get" then true else get)
    else (from, to, get)) (0, 0, false) (default [] params).

Section GpgWww.
Variable cleanup : bool.
Context {D : Type} {DB : KeyDb D}.

(** [if (fetch_key_id(keyid)) flatten_publickey(...)] *)
Definition add_key (dbctx : D) (keyid : Z) (packets : list openpgp_packet) : outcome (list openpgp_packet) :=
  let '(count, publickey) := fetch_key_id dbctx keyid false in
  if count =? 0 then Done packets else flatten_publickey publickey packets.

(** The keys of the nodes that the walk meets. *)
Fixpoint add_path (dbctx : D) (st : stats_state) (want : Z) (path : list nat) (packets : list openpgp_packet)
    : outcome (list openpgp_packet) :=
  match path with
  | [] => Done packets
  | a :: path =>
      k ← node st a;
      packets ← (if sk_keyid k =? want then Done packets else add_key dbctx (sk_keyid k) packets);
      add_path dbctx st want path packets
  end.

Fixpoint getkeyspath_loop (n fuel : nat) (dbctx : D) (st : stats_state) (keyinfoa keyinfob : nat) (want : Z) (packets : list openpgp_packet)
    : outcome (stats_state * list openpgp_packet) :=
  match n with
  | O => Done (st, packets)
  | S n =>
      if cleanup then Done (st, packets)
      else
        st ← initcolour st true;
        '(st, _) ← findpath cleanup fuel dbctx st keyinfoa keyinfob;
        st ← modify st keyinfob (fun k => set_mark k (sk_colour k) 0);
        a ← node st keyinfoa;
        if sk_colour a =? 0 then Done (st, packets)
        else
          curkey ← findinhash st (sk_parent a);
          nodes ← follow_parents fuel st curkey;
          packets ← add_path dbctx st want nodes packets;
          st ← disable_path st keyinfoa keyinfob nodes;
          if sk_colour a =? 1 then Done (st, packets) else getkeyspath_loop n fuel dbctx st keyinfoa keyinfob want packets
  end.

(** What is printed, [None] when a key is not known. *)
Definition getkeyspath (fuel : nat) (dbctx : D) (st : stats_state) (have want count : Z) : outcome (stats_state * option (list Z)) :=
  '(st, _) ← generic_cached_getkeysigs dbctx st have;
  '(st, _) ← generic_cached_getkeysigs dbctx st want;
  keyinfoa ← findinhash st have;
  match keyinfoa with
  | None => Done (st, None)
  | Some keyinfoa =>
      keyinfob ← findinhash st want;
      match keyinfob with
      | None => Done (st, None)
      | Some keyinfob =>
          '(st, packets) ← getkeyspath_loop (Z.to_nat count) fuel dbctx st keyinfoa keyinfob want [];
          packets ← add_key dbctx want packets;
          out ← armor_openpgp_stream (mkOut []) packets;
          Done (st, Some (out_written out))
      end
  end.

(** The program for "op=get"; [None] for the other operations. *)
Definition gpgwww_get (fuel : nat) (st : stats_state) (params : option (list (list Z * list Z))) (db : option D) : outcome (option (list Z)) :=
  let '(from, to, get) := parsecgistuff params in
  if negb get then Done None
  else if (from =? 0) || (to =? 0) then Done (Some (text_plain ++ str "Must pass from & to" ++ [10] ++ puts (str "</HTML>")))
  else match db with
       | None => Done (Some (text_plain ++ puts (str "Failed to open key database.")))
       | Some dbctx =>
           '(_, out) ← getkeyspath fuel dbctx (inithash st) from to 3;
           Done (Some (text_plain ++ default [] out))
       end.

(** * The keys on the paths *)

Definition served (dbctx : D) (keyid : Z) : list openpgp_publickey :=
  let '(count, keys) := fetch_key_id dbctx keyid false in if count =? 0 then [] else keys.

(** The keys behind the first of a path, but for the last. *)
Definition inner_keys (dbctx : D) (want : Z) (path : list Z) : list openpgp_publickey :=
  concat (map (fun id => if id =? want then [] else served dbctx id) (tail path)).

Definition all_served_wf (dbctx : D) : Prop :=
  forall id, Forall wf_key (served dbctx id) /\ Forall encodable (keys_packets (served dbctx id)).

Lemma add_key_spec dbctx id packets : all_served_wf dbctx ->
  add_key dbctx id packets = Done (packets ++ keys_packets (served dbctx id)).
Proof.
  intros Hw. destruct (Hw id) as [Hk _]. unfold add_key, served in *. destruct (fetch_key_id dbctx id false) as [c ks].
  destruct (c =? 0); [unfold keys_packets; cbn; by rewrite app_nil_r | by apply flatten_publickey_wf].
Qed.

Lemma add_path_spec dbctx st want : all_served_wf dbctx -> forall nodes ids packets,
  mapM (fun a => k ← node st a; Done (sk_keyid k)) nodes = Done ids ->
  add_path dbctx st want nodes packets = Done (packets ++ keys_packets (concat (map (fun id => if id =? want then [] else served dbctx id) ids))).
Proof.
  intros Hw. induction nodes as [|a nodes IH]; intros ids packets E; cbn [mapM add_path] in *.
  { injection E as <-. unfold keys_packets. cbn. by rewrite app_nil_r. }
  destruct (node st a) as [k|]; [|done]. cbn [mbind outcome_bind] in *. destruct (mapM _ nodes) as [ids'|] eqn:Em; [|done].
  injection E as <-. cbn [map concat]. specialize (IH ids').
  rewrite keys_packets_app. destruct (sk_keyid k =? want); cbn [mbind outcome_bind]; [by rewrite IH|].
  rewrite add_key_spec by done. cbn [mbind outcome_bind]. rewrite IH by done. by rewrite <- app_assoc.
Qed.

Lemma follow_more st : forall fuel cur l, follow_parents fuel st cur = Done l -> follow_parents (S fuel) st cur = Done l.
Proof.
  induction fuel as [|fuel IH]; intros [a|] l E; try done; cbn [follow_parents] in E |- *.
  - destruct (node st a) as [k|]; [|done]. cbn [mbind outcome_bind] in *. by destruct (sk_keyid k =? 0).
  - destruct (node st a) as [k|]; [|done]. cbn [mbind outcome_bind] in *. destruct (sk_keyid k =? 0); [done|].
    destruct (findinhash st (sk_parent k)) as [next|]; [|done]. cbn [mbind outcome_bind] in *.
    destruct (follow_parents fuel st next) as [rest|] eqn:Er; [|done]. injection E as <-. apply IH in Er.
    cbn [follow_parents] in Er. by rewrite Er.
Qed.

(** The walk of a round leaves out the key it starts from. *)
Lemma follow_from_parent st fuel a h l : wf_state st -> at_ st a h -> h <> 0 ->
  follow_parents fuel st (Some a) = Done l ->
  exists cur nodes, l = a :: nodes /\ findinhash st (sk_parent (key_of st h)) = Done cur /\
    follow_parents fuel st cur = Done nodes.
Proof.
  intros W Ha Hh E. destruct fuel as [|fuel].
  - cbn [follow_parents] in E. rewrite (at_node st a h) in E by done. cbn [mbind outcome_bind] in E. rewrite key_of_id in E.
    by rewrite (proj2 (Z.eqb_neq h 0) Hh) in E.
  - cbn [follow_parents] in E. rewrite (at_node st a h) in E by done. cbn [mbind outcome_bind] in E.
    rewrite key_of_id, (proj2 (Z.eqb_neq h 0) Hh) in E.
    destruct (findinhash st (sk_parent (key_of st h))) as [cur|]; [|done]. cbn [mbind outcome_bind] in E.
    destruct (follow_parents fuel st cur) as [nodes|] eqn:En; [|done]. injection E as <-.
    exists cur, nodes. split; [done|]. split; [done | by apply follow_more].
Qed.

Lemma disable_first st a b l : disable_path st a b (a :: l) = disable_path st a b l.
Proof. cbn [disable_path]. by rewrite Nat.eqb_refl. Qed.
End GpgWww.

(** What is fetched for a list of paths. *)
Definition paths_keys {D} {DB : KeyDb D} (dbctx : D) (want : Z) (paths : list (list Z)) : list openpgp_publickey :=
  concat (map (inner_keys dbctx want) paths).

Lemma inner_keys_encodable {D} {DB : KeyDb D} (dbctx : D) want path : all_served_wf dbctx ->
  Forall encodable (keys_packets (inner_keys dbctx want path)).
Proof.
  intros Hs. unfold inner_keys. induction (tail path) as [|id ids IH]; [constructor|]. cbn [map concat].
  rewrite keys_packets_app. apply Forall_app. split; [|done]. case_if; [constructor | apply Hs].
Qed.

Lemma paths_keys_encodable {D} {DB : KeyDb D} (dbctx : D) want paths : all_served_wf dbctx ->
  Forall encodable (keys_packets (paths_keys dbctx want paths ++ served dbctx want)).
Proof.
  intros Hs. rewrite keys_packets_app. apply Forall_app. split; [|apply Hs].
  induction paths as [|p paths IH]; [constructor|]. unfold paths_keys. cbn [map concat]. rewrite keys_packets_app.
  apply Forall_app. split; [by apply inner_keys_encodable | apply IH].
Qed.

Lemma sent_armored {A} (st : A) ps : Forall encodable ps -> zlen (encode_packets ps) <= 2 ^ 30 ->
  (out ← armor_openpgp_stream (mkOut []) ps; Done (st, Some (out_written out))) = Done (st, Some (armor_text (encode_packets ps))).
Proof.
  intros He Hl. destruct (armor_stream_spec (W := out_file) (lim := 3 * zlen (encode_packets ps) + 102) (mkOut []) ps)
    as ([w] & -> & Hw); [done | done | lia | done |]. unfold out_file in Hw. cbn in *. by rewrite Hw.
Qed.

Section Rounds.
Context {D : Type} {DB : KeyDb D}.
Variables (dbctx : D) (h w : Z) (U : list Z) (fuel : nat).
Hypothesis readable : graph_readable dbctx.
Hypothesis ends : h <> w /\ h <> 0 /\ w <> 0.
Hypothesis U_nodup : NoDup U.
Hypothesis U_closed : forall x y, x ∈ U -> y ∈ signers dbctx x -> y ∈ U.
Hypothesis U_size : zlen U < 2 ^ 31.
Hypothesis U_want : w ∈ U.
Hypothesis enough : zlen U + 2 <= Z.of_nat fuel.
Hypothesis served_wf : all_served_wf dbctx.

Lemma getkeyspath_loop_spec n : forall st a b packets,
  round_input dbctx st a b h w ->
  exists st' paths, dofindpath_loop false n fuel dbctx st a b = Done (st', paths) /\ evolves st st' /\
    getkeyspath_loop false n fuel dbctx st a b w packets = Done (st', packets ++ keys_packets (paths_keys dbctx w paths)).
Proof.
  induction n as [|n IH]; intros st a b packets Hin; cbn [dofindpath_loop getkeyspath_loop].
  { exists st, []. split; [done|]. split; [apply evolves_refl, Hin|]. unfold keys_packets. cbn. by rewrite app_nil_r. }
  destruct (round_search dbctx h w U fuel readable ends U_nodup U_closed U_size U_want enough st a b Hin) as (st3 & Hin3 & He3 & E & Hres & _).
  destruct (initcolour st true) as [st1|]; [|done]. cbn [mbind outcome_bind] in *.
  destruct (findpath false fuel dbctx st1 a b) as [[st2 cnt]|]; [|done]. cbn [mbind outcome_bind] in *.
  rewrite E. cbn [mbind outcome_bind]. pose proof (ri_have _ _ _ _ _ _ Hin3) as Ha. pose proof (ri_wf _ _ _ _ _ _ Hin3) as W3.
  rewrite (at_node st3 a h) by done. cbn [mbind outcome_bind].
  fold (colour st3 h). destruct Hres as [[-> _]|(c & l & xs & Hc & Hdist & _ & El & Hl & _)].
  { exists st3, []. split; [done|]. split; [done|]. unfold keys_packets. cbn. by rewrite app_nil_r. }
  assert (c <> 0%nat) by (destruct Hdist; lia). rewrite Hc, (proj2 (Z.eqb_neq (Z.of_nat c) 0)) by lia.
  destruct (follow_from_parent st3 fuel a h l W3 Ha (proj1 (proj2 ends)) El) as (cur & nodes & -> & -> & En).
  rewrite El. cbn [mbind outcome_bind]. rewrite En. cbn [mbind outcome_bind].
  destruct (disable_path_spec st3 a b h w (a :: nodes) (h :: xs) W3 Ha (ri_want _ _ _ _ _ _ Hin3) Hl) as (st4 & Ed & He4 & Hk4). rewrite Ed. rewrite disable_first in Ed.
  cbn [mbind outcome_bind]. rewrite (mapM_ids st4 (a :: nodes) (h :: xs)) by (apply He4 || by eapply evolves_list).
  apply Forall2_cons_1 in Hl as [_ Hl].
  rewrite (add_path_spec dbctx st3 w served_wf nodes xs packets) by (by apply mapM_ids). cbn [mbind outcome_bind]. rewrite Ed.
  cbn [mbind outcome_bind]. change (concat (map _ xs)) with (inner_keys dbctx w (h :: xs)).
  case_if; cbn [mbind outcome_bind].
  { exists st4, [h :: xs]. split; [done|]. split; [by eapply evolves_trans|]. unfold paths_keys. cbn [map concat]. by rewrite app_nil_r. }
  destruct (IH st4 a b (packets ++ keys_packets (inner_keys dbctx w (h :: xs)))) as (st5 & paths & -> & He5 & ->).
  { eapply round_input_kept; [done | done|]. apply (cached_same dbctx st3 st4 He4 (ri_cached _ _ _ _ _ _ Hin3)).
    intros x. rewrite Hk4. by case_bool_decide. }
  cbn [mbind outcome_bind]. exists st5, ((h :: xs) :: paths). split; [done|]. split; [by eauto using evolves_trans|].
  unfold paths_keys. cbn [map concat]. by rewrite keys_packets_app, app_assoc.
Qed.
End Rounds.

(** C21: asking for the keys between two keys finds the very paths that are
    printed for them: what is sent is one armored text of the keys inside those
    paths, path by path, followed by the wanted key (nothing is sent if one of
    the two is not known), the first key of each path being left out.  Beyond
    2^30 octets the text is still what the armor writer makes of these packets,
    but its [int] counters may wrap. *)
Theorem getkeyspath_sends_paths {D} {DB : KeyDb D} (dbctx : D) st h w U fuel count :
  graph_readable dbctx -> all_served_wf dbctx -> wf_state st -> cached_ok dbctx st ->
  h <> w /\ h <> 0 /\ w <> 0 ->
  NoDup U -> (forall x y, x ∈ U -> y ∈ signers dbctx x -> y ∈ U) -> zlen U < 2 ^ 31 -> w ∈ U ->
  zlen U + 2 <= Z.of_nat fuel ->
  exists st' paths, dofindpath false fuel dbctx st h w count = Done (st', paths) /\
    let sent := keys_packets (paths_keys dbctx w paths ++ served dbctx w) in
    getkeyspath false fuel dbctx st h w count =
      (if bool_decide (h ∈ ids st' /\ w ∈ ids st')
       then out ← armor_openpgp_stream (mkOut []) sent; Done (st', Some (out_written out))
       else Done (st', None)) /\
    (zlen (encode_packets sent) <= 2 ^ 30 ->
     getkeyspath false fuel dbctx st h w count =
       Done (st', if bool_decide (h ∈ ids st' /\ w ∈ ids st') then Some (armor_text (encode_packets sent)) else None)).
Proof.
  intros Hg Hs W Hc Hends Hnd Hcl Hsz HwU Hf. unfold dofindpath, getkeyspath.
  destruct (cached_getkeysigs_spec dbctx st h W Hg Hc) as (sta & la & -> & Hea & Hca & _). cbn [mbind outcome_bind].
  destruct (cached_getkeysigs_spec dbctx sta w (proj1 Hea) Hg Hca) as (st1 & lb & -> & Heb & Hcb & _ & _ & Hlb). cbn [mbind outcome_bind].
  destruct (findinhash_spec st1 h (proj1 Heb)) as ([a|] & -> & Ha); cbn [mbind outcome_bind].
  2: { exists st1, []. split; [done|]. cbv zeta. by rewrite bool_decide_false by naive_solver. }
  destruct (findinhash_spec st1 w (proj1 Heb)) as ([b|] & -> & Hb); cbn [mbind outcome_bind].
  2: { exists st1, []. split; [done|]. cbv zeta. by rewrite bool_decide_false by naive_solver. }
  destruct (getkeyspath_loop_spec dbctx h w U fuel Hg Hends Hnd Hcl Hsz HwU Hf Hs (Z.to_nat count) st1 a b [])
    as (st' & paths & -> & He & ->); [by split; [apply Heb | ..]|].
  cbn [mbind outcome_bind app]. exists st', paths. split; [done|].
  rewrite add_key_spec by done. cbn [mbind outcome_bind]. rewrite <- keys_packets_app.
  cbv zeta. rewrite bool_decide_true by (split; eapply at_ids; by apply He). split; [done|]. intros Hl.
  rewrite sent_armored; [done | by apply paths_keys_encodable | done].
Qed.

Lemma web_served_wf : @all_served_wf _ web_db web.
Proof.
  intros id. assert (He : @served _ web_db web id = (fetch_key_id (KeyDb := web_db) web id false).2).
  { unfold served, fetch_key_id, web_db. by destruct (map snd (List.filter _ web)). }
  rewrite He, web_fetch. destruct (Z.eqb_spec 1 id), (Z.eqb_spec 2 id), (Z.eqb_spec 3 id); try lia; cbn [app];
    split; apply (bool_decide_unpack _); vm_compute; exact I.
Qed.

(** Of the key that 3 has signed by way of 2, the keys 2 and 1 are sent. *)
Lemma getkeyspath_sends_paths_witness :
  (exists st' paths, dofindpath (DB := web_db) false 8 web empty_state 3 1 3 = Done (st', paths) /\
    let sent := keys_packets (@paths_keys _ web_db web 1 paths ++ @served _ web_db web 1) in
    getkeyspath (DB := web_db) false 8 web empty_state 3 1 3 =
      (if bool_decide (3 ∈ ids st' /\ 1 ∈ ids st')
       then out ← armor_openpgp_stream (mkOut []) sent; Done (st', Some (out_written out))
       else Done (st', None)) /\
    (zlen (encode_packets sent) <= 2 ^ 30 ->
     getkeyspath (DB := web_db) false 8 web empty_state 3 1 3 =
       Done (st', if bool_decide (3 ∈ ids st' /\ 1 ∈ ids st') then Some (armor_text (encode_packets sent)) else None))) /\
  exists st', getkeyspath (DB := web_db) false 8 web empty_state 3 1 3 =
    Done (st', Some (armor_text (encode_packets (keys_packets [web_key [3]; web_key [2; 4]])))).
Proof.
  split; [|eexists; vm_compute; reflexivity].
  apply (@getkeyspath_sends_paths _ web_db web empty_state 3 1 [1; 2; 3; 4] 8 3).
  - exact web_readable.
  - exact web_served_wf.
  - exact empty_state_wf.
  - apply empty_state_cached.
  - lia.
  - apply (bool_decide_unpack _). vm_compute. exact I.
  - exact web_closed.
  - reflexivity.
  - by left.
  - vm_compute. discriminate.
Defined.
