(* ===== verification/Mail.v ===== *)
(** The mails that tell other servers about new keys (sendsync.c), and their way
    into the database of such a server. *)

From Stdlib Require Import String.
From S2P Require Import Prelude CLib OpenPGP Streams DbCtx KeyId KeyArray Packets Armor Keys SigCheck Clean CleanFacts CleanKeys KeyUpdate KeyBuffer Conf FsDb FsDbFacts.
From S2P Require Import Lookup CgiPrograms CgiFacts Onak OnakFacts CgiExample.

(** * Sending *)

(** [%s] *)
Definition print_string (s : option (list Z)) : outcome (list Z) :=
  match s with Some s => Done s | None => Fault NullDeref end.

Fixpoint site_list (sites : list (list Z)) : list Z :=
  match sites with
  | [] => []
  | site :: rest => site ++ (match rest with [] => [] | _ => str ", " end) ++ site_list rest
  end.

(** What is written to the mail program, if it could be started, and the
    result. *)
Definition sendkeysync (config : configuration) (popen_ok : option (list Z) -> bool) (keys : list openpgp_publickey)
    : outcome (option (list Z) * Z) :=
  if negb (bool_decide (cf_syncsites config = [])) && popen_ok (cf_mta config) then
    adminemail ← print_string (cf_adminemail config);
    thissite ← print_string (cf_thissite config);
    packets ← flatten_publickey keys [];
    out ← armor_openpgp_stream (mkOut
      (str "From: " ++ adminemail ++ [10] ++ str "To: " ++ site_list (cf_syncsites config) ++ [10] ++
       str "Subject: incremental" ++ [10] ++ str "X-Keyserver-Sent: " ++ thissite ++ [10] ++
       str "Precedence: list" ++ [10] ++ str "MIME-Version: 1.0" ++ [10] ++
       str "Content-Type: application/pgp-keys" ++ [10; 10])) packets;
    Done (Some (out_written out), 1)
  else Done (None, 0).

(** Output behind what was written before. *)
Definition out_after (pre : list Z) (f : file_out) (bs : list Z) : Prop := out_written f = pre ++ bs.

#[global] Instance out_after_accepts pre lim : Accepts (out_after pre) lim.
Proof.
  intros [w] xs ys E _ _. unfold out_after in *. cbn in E. subst w. exists (mkOut ((pre ++ xs) ++ ys)). split; [done|].
  cbn [out_written]. by rewrite app_assoc.
Qed.

(** * Lines in front of the armor *)

Definition mail_line (l : list Z) : Prop := (10 ∉ l) /\ (head l <> Some 45).

Definition lines (ls : list (list Z)) : list Z := concat (map (fun l => l ++ [10]) ls).

Lemma skip_line l h count : 10 ∉ l -> is_header (l ++ 10 :: h) 0 count = is_header h 1 0.
Proof.
  induction l as [|c l IH]; intros Hl; [done|]. apply not_elem_of_cons in Hl as [Hc Hl]. cbn [app is_header header_step].
  unfold header_step. change (0 =? 0) with true. cbv iota. unfold chr_nl.
  destruct (Z.eqb_spec c 10); [congruence|]. cbn [negb andb Z.eqb]. by apply IH.
Qed.

Lemma skip_mail_line l h : mail_line l -> is_header (l ++ 10 :: h) 1 0 = is_header h 1 0.
Proof.
  intros [Hl Hd]. destruct l as [|c l]; [done|]. apply not_elem_of_cons in Hl as [Hc Hl]. cbn [head] in Hd.
  cbn [app is_header]. unfold header_step. change (1 =? 0) with false. change (1 =? 1) with true. cbv iota. unfold chr_dash, chr_nl.
  destruct (Z.eqb_spec c 45); [congruence|]. destruct (Z.eqb_spec c 10); [congruence|]. cbn [negb andb Z.eqb]. by apply skip_line.
Qed.

Lemma skip_mail_lines ls h : Forall mail_line ls -> is_header (lines ls ++ h) 1 0 = is_header h 1 0.
Proof.
  induction 1 as [|l ls Hl _ IH]; [done|]. unfold lines in *. cbn [map concat]. rewrite <- !app_assoc. cbn [app].
  by rewrite skip_mail_line.
Qed.

(** The packets behind such lines. *)
Lemma in_packets_mail malloc_ok ls ks rest : storable malloc_ok ks -> Forall mail_line ls ->
  zlen (encode_packets (keys_packets ks)) <= 2 ^ 30 ->
  in_packets malloc_ok false (lines ls ++ armor_text (encode_packets (keys_packets ks)) ++ rest) = Done (keys_packets ks).
Proof.
  intros S Hls Hl. unfold in_packets. set (ps := keys_packets ks). set (bs := encode_packets ps).
  assert (Et : exists tail, lines ls ++ armor_text bs ++ rest = (lines ls ++ armor_header) ++ armor_chars state0 bs ++
    final_digits (armor_run state0 bs) ++ final_break (armor_run state0 bs) ++ chr_eq :: tail).
  { unfold armor_text, final_chars, checksum_chars. rewrite <- !app_assoc. cbn [app]. eexists. by rewrite <- !app_assoc. }
  destruct Et as [tail Et]. pose proof (encode_packets_count ps) as Hn.
  pose proof (armor_chars_length_low bs state0 ltac:(cbn; lia)) as Hlow.
  destruct (dearmor_after_header (R := in_file) (Datatypes.S (length (lines ls ++ armor_text bs ++ rest))) (lines ls ++ armor_header) malloc_ok ps
    (mkIn (lines ls ++ armor_text bs ++ rest)) tail []) as [s' E].
  - by rewrite skip_mail_lines.
  - unfold in_file. cbn. exact Et.
  - apply S.
  - apply S.
  - apply S.
  - done.
  - fold bs. rewrite Et. lia.
  - fold bs in Hn. unfold zlen in Hlow. rewrite Et, !length_app. lia.
  - rewrite E. done.
Qed.

(** * Sending and receiving *)

(** The settings that a mail needs. *)
Record can_mail (config : configuration) (adminemail thissite : list Z) : Prop := {
  cm_sites : cf_syncsites config <> [];
  cm_sites_ok : Forall (fun s => 10 ∉ s) (cf_syncsites config);
  cm_admin : cf_adminemail config = Some adminemail /\ (10 ∉ adminemail);
  cm_this : cf_thissite config = Some thissite /\ (10 ∉ thissite)
}.

Definition header_lines (config : configuration) (adminemail thissite : list Z) : list (list Z) :=
  [str "From: " ++ adminemail; str "To: " ++ site_list (cf_syncsites config); str "Subject: incremental";
   str "X-Keyserver-Sent: " ++ thissite; str "Precedence: list"; str "MIME-Version: 1.0";
   str "Content-Type: application/pgp-keys"; []].

Lemma site_list_line sites : Forall (fun s => 10 ∉ s) sites -> 10 ∉ site_list sites.
Proof.
  induction 1 as [|s sites Hs _ IH]; cbn [site_list]; [apply not_elem_of_nil|].
  rewrite !not_elem_of_app. split; [done|]. split; [|done]. destruct sites; [apply not_elem_of_nil|].
  apply (bool_decide_unpack _). vm_compute. exact I.
Qed.

Lemma header_lines_ok config adminemail thissite : can_mail config adminemail thissite ->
  Forall mail_line (header_lines config adminemail thissite).
Proof.
  intros [_ Hs [_ Ha] [_ Ht]]. apply site_list_line in Hs.
  repeat (apply Forall_cons; split); try apply Forall_nil_2;
    (split; [rewrite ?not_elem_of_app; repeat split; try done; apply (bool_decide_unpack _); vm_compute; exact I | done]).
Qed.

Lemma sendkeysync_spec config popen_ok adminemail thissite ks :
  can_mail config adminemail thissite -> popen_ok (cf_mta config) = true -> Forall wf_key ks -> Forall encodable (keys_packets ks) ->
  zlen (encode_packets (keys_packets ks)) <= 2 ^ 30 ->
  sendkeysync config popen_ok ks =
  Done (Some (lines (header_lines config adminemail thissite) ++ armor_text (encode_packets (keys_packets ks))), 1).
Proof.
  intros [Hne _ [Ha _] [Ht _]] Hp Hw He Hl. unfold sendkeysync. rewrite bool_decide_false, Hp, Ha, Ht by done. cbn [negb andb print_string mbind outcome_bind].
  rewrite flatten_publickey_wf by done. cbn [mbind outcome_bind app]. unfold header_lines.
  match goal with |- context [mkOut ?h] => assert (Eh : h = lines (header_lines config adminemail thissite)) end.
  { unfold header_lines, lines. cbn [map concat]. rewrite <- !app_assoc. done. }
  rewrite Eh. destruct (armor_stream_spec (W := out_after (lines (header_lines config adminemail thissite)))
    (lim := 3 * zlen (encode_packets (keys_packets ks)) + 102) (mkOut (lines (header_lines config adminemail thissite))) (keys_packets ks))
    as ([w] & -> & Ho); [unfold out_after; cbn [out_written]; by rewrite app_nil_r | done | lia | done |].
  unfold out_after in Ho. cbn [out_written] in Ho. rewrite Ho. done.
Qed.

(** C31: what one server mails to its peers after an update reaches the databases
    of the peers: the mail is made for every setting whose strings stay on one
    line, and given to "onak add", with the lines that mail programs put in front
    of it and with anything behind it, it makes the program clean and store
    exactly the keys that were sent, up to 2^30 octets of them (what the [int]
    counters of the armor can count). *)
Theorem sync_mail_roundtrip {HF : Hashes} {BC : BuildConfig} {NT : Nettle} {D} {DB : KeyDb D} {DM : KeyDbMore D} malloc_ok
    config popen_ok adminemail thissite ks received rest (db : D) stack clean policies maxkeys blacklist now version written open_ok update junk :
  can_mail config adminemail thissite -> popen_ok (cf_mta config) = true -> storable malloc_ok ks -> ks <> [] ->
  Forall mail_line received -> zlen (encode_packets (keys_packets ks)) <= 2 ^ 30 ->
  let o := mkOptions false false false false update in
  exists mail, sendkeysync config popen_ok ks = Done (Some mail, 1) /\
    onak_main malloc_ok stack clean policies maxkeys blacklist now version written open_ok o [str "add"]
      (lines received ++ mail ++ rest) junk (Some db) =
    opened (Some db) (fun db => add_parsed stack clean policies blacklist db o (map reparsed ks)).
Proof.
  intros Hc Hp S Hne Hr Hl o. eexists. split; [apply sendkeysync_spec; done || apply S|].
  unfold onak_main. cbn [op_binary o]. change (streq (str "add") "dump") with false.
  change (streq (str "add") "add") with true. cbv iota zeta.
  replace (lines received ++ (lines (header_lines config adminemail thissite) ++ armor_text (encode_packets (keys_packets ks))) ++ rest)
    with (lines (received ++ header_lines config adminemail thissite) ++ armor_text (encode_packets (keys_packets ks)) ++ rest)
    by (unfold lines; by rewrite map_app, concat_app, <- !app_assoc).
  rewrite in_packets_mail; [|done | apply Forall_app; split; [done | by apply header_lines_ok] | done]. cbn [mbind outcome_bind].
  destruct (keys_packets ks) as [|p ps] eqn:Ek; [by destruct (keys_packets_ne ks (storable_wf _ _ S) Hne)|].
  rewrite <- Ek, parse_keys_append by apply S. done.
Qed.

#[local] Existing Instances toy_hashes full_build toy_nettle.

Definition mail_config : configuration :=
  set_syncsites [str "pgp@one.example"; str "pgp@two.example"]
    (set_thissite (Some (str "pgp@here.example")) (set_adminemail (Some (str "root@here.example")) default_config)).

Section Example.
#[local] Existing Instances one_key one_key_more.

Lemma sync_mail_roundtrip_witness :
  let o := mkOptions false false false false true in
  exists mail, sendkeysync mail_config (fun _ => true) [toy_key] = Done (Some mail, 1) /\
    onak_main (fun _ => true) [] (mkConfig 512 512) 0 128 None 0 (str "0.6") (Done []) (fun _ => true) o [str "add"]
      (lines [str "Received: from here.example"] ++ mail ++ str "-- ") [] (Some toy_key) =
    opened (Some toy_key) (fun db => add_parsed [] (mkConfig 512 512) 0 None db o (map reparsed [toy_key])).
Proof.
  apply (sync_mail_roundtrip (fun _ => true) mail_config (fun _ => true) (str "root@here.example") (str "pgp@here.example")).
  - split; [discriminate | | split; [reflexivity|] | split; [reflexivity|]]; apply (bool_decide_unpack _); vm_compute; exact I.
  - reflexivity.
  - exact toy_storable.
  - discriminate.
  - apply Forall_singleton. split; [apply (bool_decide_unpack _); vm_compute; exact I | discriminate].
  - vm_compute. discriminate.
Defined.
End Example.
