(* ===== verification/Degrees.v ===== *)
(** The programs that measure the signature graph: how many keys are within so
    many signatures of a key (sixdegrees.c), and the two keys that are furthest
    apart (maxpath.c). *)

From Stdlib Require Import String.
From S2P Require Import Prelude CLib OpenPGP Streams KeyId Decode DbCtx KeyUpdate Stats StatsFacts StatsPaths Lookup.

Section Programs.
Context {D : Type} {DB : KeyDb D}.
Variable cleanup : bool.

(** * sixdegrees.c *)

(** The loop over the signatures of the node [key]. *)
Fixpoint degree_sigs (st : stats_state) (key : nat) (sigll nextll : list nat) (curdegree count : Z)
    : outcome (stats_state * list nat * Z) :=
  match sigll with
  | [] => Done (st, nextll, count)
  | s :: next =>
      k ← node st s;
      if sk_colour k =? 0 then
        p ← node st key;
        st ← modify st s (fun k => set_mark k (i32 curdegree) (sk_keyid p));
        degree_sigs st key next (lladd nextll s) curdegree (u64 (count + 1))
      else degree_sigs st key next nextll curdegree count
  end.

Fixpoint countdegree_loop (fuel : nat) (dbctx : D) (st : stats_state) (curll nextll : list nat) (sigs : bool)
    (curdegree maxdegree count : Z) : outcome (stats_state * Z) :=
  match curll with
  | [] => Done (st, count)
  | key :: rest =>
      if curdegree <=? u64 maxdegree then
        match fuel with
        | O => Fault OutOfFuel
        | S fuel =>
            k ← node st key;
            '(st, sigll) ←
              (if sigs then generic_cached_getkeysigs dbctx st (sk_keyid k)
               else
                 found ← findinhash st (sk_keyid k);
                 match found with
                 | Some a => n ← node st a; Done (st, sk_signs n)
                 | None => Done (st, [])
                 end);
            '(st, nextll, count) ← degree_sigs st key sigll nextll curdegree count;
            match rest with
            | [] => countdegree_loop fuel dbctx st nextll [] sigs (u64 (curdegree + 1)) maxdegree count
            | _ => countdegree_loop fuel dbctx st rest nextll sigs curdegree maxdegree count
            end
        end
      else Done (st, count)
  end.

Definition countdegree (fuel : nat) (dbctx : D) (st : stats_state) (have : nat) (sigs : bool) (maxdegree : Z)
    : outcome (stats_state * Z) :=
  countdegree_loop fuel dbctx st (lladd [] have) [] sigs 1 maxdegree 0.

(** [%8ld] *)
Definition column (n : Z) : list Z := padded 8 32 (decimal64 n).

(** The rows from the degree [loop] on, [n] of them. *)
Fixpoint degree_rows (n fuel : nat) (dbctx : D) (st : stats_state) (keyinfo : nat) (loop : Z)
    : outcome (stats_state * list Z) :=
  match n with
  | O => Done (st, [])
  | S n =>
      st ← initcolour st false;
      '(st, by_) ← countdegree fuel dbctx st keyinfo true loop;
      st ← initcolour st false;
      '(st, signs) ← countdegree fuel dbctx st keyinfo false loop;
      '(st, rest) ← degree_rows n fuel dbctx st keyinfo (loop + 1);
      Done (st, str "Degree " ++ decimal loop ++ str ":" ++ [9] ++ column by_ ++ [9; 9] ++ column signs ++ [10] ++ rest)
  end.

(** What is printed. *)
Definition sixdegrees (fuel : nat) (dbctx : D) (st : stats_state) (keyid : Z) : outcome (stats_state * list Z) :=
  '(st, _) ← generic_cached_getkeysigs dbctx st keyid;
  keyinfo ← findinhash st keyid;
  match keyinfo with
  | None => Done (st, str "Couldn't find key 0x" ++ hexn 16 keyid ++ str "." ++ [10])
  | Some keyinfo =>
      uid ← generic_keyid2uid dbctx keyid;
      match uid with
      | None => Fault NullDeref
      | Some uid =>
          st ← initcolour st false;
          '(st, _) ← countdegree fuel dbctx st keyinfo true 7;
          '(st, rows) ← degree_rows 6 fuel dbctx st keyinfo 1;
          Done (st, str "Six degrees for 0x" ++ hexn 16 keyid ++ str " (" ++ uid ++ str "):" ++ [10] ++
                    puts ([9; 9] ++ str "Signed by" ++ [9; 9] ++ str "Signs") ++ rows)
      end
  end.

(** * maxpath.c *)

(** The longest distance so far, with its ends. *)
Definition maxpath_state : Type := Z * option (nat * nat).

(** The keys of one list of the table; the list may grow at its head while it
    is walked, which the walk does not see. *)
Fixpoint maxpath_list (fuel : nat) (dbctx : D) (st : stats_state) (curkey : list nat) (best : maxpath_state) (max : Z)
    : outcome (stats_state * maxpath_state) :=
  match curkey with
  | [] => Done (st, best)
  | a :: next =>
      if best.1 <? max then
        k ← node st a;
        '(st, _) ← generic_cached_getkeysigs dbctx st (sk_keyid k);
        st ← initcolour st false;
        '(st, tmp) ← furthestkey fuel dbctx st (Some a);
        match tmp with
        | None => Fault NullDeref
        | Some tmp =>
            t ← node st tmp;
            let colour := u64 (sk_colour t) in
            maxpath_list fuel dbctx st next (if best.1 <? colour then (colour, Some (a, tmp)) else best) max
        end
      else Done (st, best)
  end.

Fixpoint maxpath_slots (n fuel : nat) (dbctx : D) (st : stats_state) (loop : nat) (best : maxpath_state) (max : Z)
    : outcome (stats_state * maxpath_state) :=
  match n with
  | O => Done (st, best)
  | S n =>
      if best.1 <? max then
        curkey ← gethashtableentry st loop;
        '(st, best) ← maxpath_list fuel dbctx st curkey best max;
        maxpath_slots n fuel dbctx st (S loop) best max
      else Done (st, best)
  end.

(** The ends that were found, their distance, and the path that is printed;
    [None] when the key to start from is not known, or nothing was found. *)
Definition findmaxpath (fuel : nat) (dbctx : D) (st : stats_state) (max : Z)
    : outcome (stats_state * option (Z * Z * Z * list (list Z))) :=
  '(st, sigs) ← generic_cached_getkeysigs dbctx st 0x94FA372B2DA8B985;
  match sigs with
  | [] => Done (st, None)
  | _ =>
      '(st, (distance, ends)) ← maxpath_slots (Z.to_nat HASHSIZE) fuel dbctx st 0 (0, None) max;
      match ends with
      | None => Done (st, None)
      | Some (from, to) =>
          f ← node st from;
          t ← node st to;
          '(st, paths) ← dofindpath cleanup fuel dbctx st (sk_keyid t) (sk_keyid f) 1;
          Done (st, Some (sk_keyid f, sk_keyid t, distance, paths))
      end
  end.
End Programs.
