(* ===== verification/DegreesFacts.v ===== *)
(** The numbers that sixdegrees.c prints: the keys within so many signatures. *)

From Stdlib Require Import String.
From S2P Require Import Prelude CLib OpenPGP Streams KeyId Decode DbCtx KeyUpdate Stats StatsFacts StatsPaths Degrees.

Section Count.
Context {D : Type} {DB : KeyDb D}.
Variables (dbctx : D) (h : Z) (U : list Z).
Hypothesis readable : graph_readable dbctx.
Hypothesis U_nodup : NoDup U.
Hypothesis U_closed : forall x y, x ∈ U -> y ∈ signers dbctx x -> y ∈ U.
Hypothesis U_size : zlen U < 2 ^ 31.
Hypothesis U_here : h ∈ U.

(** A chain of [n] signatures that ends at [h], from the key [x]. *)
Inductive chain : nat -> Z -> Prop :=
  | chain_here : chain 0 h
  | chain_step n y z : chain n y -> z ∈ signers dbctx y -> chain (S n) z.

Definition within (d : nat) (x : Z) : Prop := exists m, (1 <= m <= d)%nat /\ chain m x.

Lemma within_more d x : within d x -> within (S d) x.
Proof. intros (m & ? & ?). exists m. split; [lia | done]. Qed.

Lemma chain_in_U m x : chain m x -> x ∈ U.
Proof. induction 1; eauto. Qed.

Definition marked (st : stats_state) (x : Z) : Prop := colour st x <> 0.

Definition all_marked (st : stats_state) (x : Z) : Prop := forall z, z ∈ signers dbctx x -> marked st z.

(** At depth [d] the keys [xs] are still to be looked at, and [ns] have been
    found. *)
Record counting (st : stats_state) (d : nat) (xs ns : list Z) (count : Z) : Prop := {
  cn_wf : wf_state st;
  cn_cached : cached_ok dbctx st;
  cn_marked : forall y, marked st y -> y ∈ U /\ (y ∈ ns /\ within d y \/ within (d - 1) y);
  cn_next : forall y, y ∈ ns -> marked st y;
  cn_sources : forall x, x ∈ xs -> x ∈ U /\ exists m, (m < d)%nat /\ chain m x;
  cn_before : forall m y, (1 <= m < d)%nat -> chain m y -> marked st y;
  cn_closed : forall m y, (m < d)%nat -> chain m y -> y ∈ xs \/ all_marked st y;
  cn_count : count = zlen (coloured U st)
}.

(** Another key is marked. *)
Lemma counting_mark st d x xs ns count y st' col p :
  counting st d (x :: xs) ns count -> y ∈ signers dbctx x -> colour st y = 0 -> col <> 0 -> evolves st st' ->
  (forall z, key_of st' z = if z =? y then set_mark (key_of st y) col p else key_of st z) ->
  counting st' d (x :: xs) (y :: ns) (count + 1) /\ count + 1 <= zlen U.
Proof.
  intros C Hy H0 Hcol He Hk. destruct (cn_sources _ _ _ _ _ C x) as (HxU & m & Hm & Hc); [by left|].
  assert (HyU : y ∈ U) by (by eapply U_closed).
  assert (Ec : forall z, colour st' z = if z =? y then col else colour st z) by (intros z; unfold colour; rewrite Hk; by destruct (z =? y)).
  assert (Hmono : forall z, marked st z -> marked st' z).
  { intros z Hz. unfold marked. rewrite Ec. by destruct (z =? y). }
  assert (Hin : marked st' y) by (unfold marked; by rewrite Ec, Z.eqb_refl).
  assert (Hn : count + 1 = zlen (coloured U st')).
  { rewrite (cn_count _ _ _ _ _ C). symmetry. apply (filter_flip _ _ y); [done | done | by rewrite H0 | |].
    - rewrite Ec, Z.eqb_refl. by destruct (Z.eqb_spec col 0).
    - intros z Hne. by rewrite Ec, (proj2 (Z.eqb_neq z y) Hne). }
  split; [|rewrite Hn; apply filter_le]. split.
  - apply He.
  - apply (cached_same dbctx st st' He (cn_cached _ _ _ _ _ C)). intros z. rewrite Hk. by destruct (Z.eqb_spec z y) as [->|].
  - intros z Hz. destruct (decide (z = y)) as [->|Hne].
    + split; [done|]. left. split; [by left|]. exists (S m). split; [lia|]. by econstructor.
    + unfold marked in Hz. rewrite Ec, (proj2 (Z.eqb_neq z y) Hne) in Hz. destruct (cn_marked _ _ _ _ _ C z Hz) as [HU [[? ?]|?]]; split; auto.
      left. split; [by right | done].
  - intros z [->|Hz]%elem_of_cons; [done|]. by apply Hmono, (cn_next _ _ _ _ _ C).
  - apply C.
  - intros m' z Hm' Hz. by eapply Hmono, (cn_before _ _ _ _ _ C).
  - intros m' z Hm' Hz. destruct (cn_closed _ _ _ _ _ C m' z Hm' Hz) as [?|Ha]; [by left | right]. intros z' Hz'. by apply Hmono, Ha.
  - done.
Qed.

(** The signatures of one key. *)
Lemma degree_sigs_spec key d x xs sigll : forall st ys nextll ns count,
  counting st d (x :: xs) ns count -> at_ st key x -> Forall2 (at_ st) sigll ys -> Forall2 (at_ st) nextll ns ->
  (forall y, y ∈ ys -> y ∈ signers dbctx x) -> 1 <= Z.of_nat d < 2 ^ 31 ->
  exists st' nextll' ns' count',
    degree_sigs st key sigll nextll (Z.of_nat d) count = Done (st', nextll', count') /\ evolves st st' /\
    Forall2 (at_ st') nextll' ns' /\ counting st' d (x :: xs) ns' count' /\
    (forall y, y ∈ ys \/ marked st y -> marked st' y) /\ zlen ns' - count' = zlen ns - count.
Proof.
  induction sigll as [|s sigll IH]; intros st ys nextll ns count C Hkey Hs Hn Hys Hd;
    pose proof (cn_wf _ _ _ _ _ C) as W; cbn [degree_sigs].
  { apply Forall2_nil_inv_l in Hs as ->. exists st, nextll, ns, count. split; [done|]. split; [by apply evolves_refl|].
    split; [done|]. split; [done|]. split; [|done]. intros y [[]%not_elem_of_nil|?]; done. }
  apply Forall2_cons_inv_l in Hs as (y & ys' & Hy & Hs & ->).
  rewrite (at_node st s y) by done. cbn [mbind outcome_bind]. fold (colour st y).
  assert (Hys' : forall z, z ∈ ys' -> z ∈ signers dbctx x) by (intros z Hz; apply Hys; by right).
  destruct (Z.eqb_spec (colour st y) 0) as [H0|H0].
  - rewrite (at_node st key x) by done. cbn [mbind outcome_bind].
    destruct (modify_spec st s y (fun k => set_mark k (i32 (Z.of_nat d)) (sk_keyid (key_of st x))) W Hy) as (st1 & -> & He & _ & Hk); [done|].
    cbn [mbind outcome_bind]. rewrite (i32_small (Z.of_nat d)) in Hk by lia.
    destruct (counting_mark st d x xs ns count y st1 (Z.of_nat d) (sk_keyid (key_of st x)) C) as [C1 Hle];
      [apply Hys; by left | done | lia | done | done |].
    rewrite u64_small by (pose proof (cn_count _ _ _ _ _ C); pose proof (zlen_nonneg (coloured U st)); lia).
    destruct (IH st1 ys' (lladd nextll s) (y :: ns) (count + 1)) as (st2 & nl & ns2 & c2 & E & He2 & Hn2 & C2 & Hm & Hz);
      [done | by apply He | by eapply evolves_list | | done | done |].
    { constructor; [by apply He | by eapply evolves_list]. }
    exists st2, nl, ns2, c2. split; [exact E|]. split; [by eapply evolves_trans|]. split; [done|]. split; [done|].
    assert (Hmono : forall z, marked st z -> marked st1 z).
    { intros z Hz'. unfold marked, colour. rewrite Hk. destruct (Z.eqb_spec z y); [cbn; lia | done]. }
    split; [|rewrite zlen_cons in Hz; lia]. intros z [[->|Hz']%elem_of_cons|Hz']; apply Hm; auto.
    right. unfold marked, colour. rewrite Hk, Z.eqb_refl. cbn. lia.
  - destruct (IH st ys' nextll ns count) as (st2 & nl & ns2 & c2 & E & He2 & Hn2 & C2 & Hm & Hz); [done..|].
    exists st2, nl, ns2, c2. do 4 (split; [done|]). split; [|done]. intros z [[->|Hz']%elem_of_cons|Hz']; apply Hm; auto.
Qed.

(** The key that was looked at is done with. *)
Lemma counting_done st d x xs ns count : counting st d (x :: xs) ns count -> all_marked st x -> counting st d xs ns count.
Proof.
  intros [] Ha. split; try done.
  - intros y Hy. apply cn_sources0. by right.
  - intros m y Hm Hy. destruct (cn_closed0 m y Hm Hy) as [[->|?]%elem_of_cons|?]; auto.
Qed.

(** The next depth. *)
Lemma counting_deeper st d ns count : (1 <= d)%nat -> counting st d [] ns count -> counting st (S d) ns [] count.
Proof.
  intros Hd [W Hc Hm Hn _ Hb Hcl Hcnt].
  assert (Hclosed : forall m y, (m < d)%nat -> chain m y -> all_marked st y)
    by (intros m y Hlt Hy; by destruct (Hcl m y Hlt Hy) as [[]%not_elem_of_nil|?]).
  assert (Hw : forall y, marked st y -> within d y).
  { intros y Hy. destruct (Hm y Hy) as [_ [[_ ?]|(m & ? & ?)]]; [done|]. exists m. split; [lia | done]. }
  assert (Hat : forall y, chain d y -> marked st y).
  { intros y Hy. destruct d as [|d]; [lia|]. inversion Hy; subst. eapply (Hclosed d); [lia | done | done]. }
  split; try done.
  - intros y Hy. split; [by apply Hm|]. right. replace (S d - 1)%nat with d by lia. by apply Hw.
  - intros y []%not_elem_of_nil.
  - intros y Hy. apply Hn in Hy. split; [by apply Hm|]. destruct (Hw y Hy) as (m & ? & ?). exists m. split; [lia | done].
  - intros m y Hlt Hy. destruct (decide (m = d)) as [->|]; [by apply Hat | apply (Hb m); [lia | done]].
  - intros m y Hlt Hy. destruct (decide (m = d)) as [->|]; [|right; apply (Hclosed m); [lia | done]].
    destruct (Hm y (Hat y Hy)) as [_ [[? _]|(m' & ? & ?)]]; [by left | right]. apply (Hclosed m'); [lia | done].
Qed.

Lemma counting_load st d xs ns count x st' :
  counting st d xs ns count -> evolves st st' -> cached_ok dbctx st' -> same_marks dbctx st st' x -> counting st' d xs ns count.
Proof.
  intros [W Hc Hm Hn Hs Hb Hcl Hcnt] He Hc' Hsame.
  assert (Hcol : forall y, colour st' y = colour st y) by (intros y; apply Hsame).
  assert (Hmk : forall y, marked st' y <-> marked st y) by (intros y; unfold marked; by rewrite Hcol).
  split; try done; [apply He | intros y; rewrite Hmk; apply Hm | intros y; rewrite Hmk; apply Hn | intros m y; rewrite Hmk; apply Hb | |].
  - intros m y Hlt Hy. destruct (Hcl m y Hlt Hy) as [?|Ha]; [by left | right]. intros z Hz. by apply Hmk, Ha.
  - rewrite Hcnt. f_equal. unfold coloured. apply List.filter_ext. intros y. by rewrite Hcol.
Qed.

(** Where the count stops. *)
Definition counted (st : stats_state) (max : nat) (count : Z) : Prop :=
  count = zlen (coloured U st) /\ forall y, marked st y <-> within max y.

Lemma counted_all st d max count : (1 <= d <= S max)%nat -> counting st d [] [] count -> counted st max count.
Proof.
  intros Hd C. split; [apply C|].
  assert (Hw : forall y, marked st y -> within (d - 1) y)
    by (intros y Hy; by destruct (cn_marked _ _ _ _ _ C y Hy) as [_ [[[]%not_elem_of_nil _]|?]]).
  assert (Hcl : forall n y, chain n y -> all_marked st y).
  { intros n y Hy. assert (exists m, (m < d)%nat /\ chain m y) as (m & Hm & Hy').
    { induction Hy as [|n y z Hy (m & Hm & Hy') Hz]; [exists 0%nat; split; [lia | constructor]|].
      destruct (cn_closed _ _ _ _ _ C m y Hm Hy') as [[]%not_elem_of_nil|Ha].
      destruct (Hw z (Ha z Hz)) as (m' & ? & ?). exists m'. split; [lia | done]. }
    by destruct (cn_closed _ _ _ _ _ C m y Hm Hy') as [[]%not_elem_of_nil|?]. }
  intros y. split.
  - intros Hy. destruct (Hw y Hy) as (m & ? & ?). exists m. split; [lia | done].
  - intros (m & Hm & Hy). inversion Hy as [|n x z Hx Hz]; subst; [lia|]. by apply (Hcl n x).
Qed.

Lemma counted_depth st max xs count : counting st (S max) xs [] count -> counted st max count.
Proof.
  intros C. split; [apply C|]. intros y. split.
  - intros Hy. destruct (cn_marked _ _ _ _ _ C y Hy) as [_ [[[]%not_elem_of_nil _]|Hw]]. by replace (S max - 1)%nat with max in Hw by lia.
  - intros (m & Hm & Hy). apply (cn_before _ _ _ _ _ C m); [lia | done].
Qed.

Lemma countdegree_loop_spec max fuel : Z.of_nat max < 2 ^ 31 -> forall st curll xs nextll ns d count,
  counting st d xs ns count -> Forall2 (at_ st) curll xs -> Forall2 (at_ st) nextll ns ->
  (1 <= d <= S max)%nat -> (xs = [] -> ns = []) -> (d = S max -> ns = []) ->
  zlen xs + zlen ns + (zlen U - count) <= Z.of_nat fuel ->
  exists st' count', countdegree_loop fuel dbctx st curll nextll true (Z.of_nat d) (Z.of_nat max) count = Done (st', count') /\
    evolves st st' /\ counted st' max count'.
Proof.
  intros Hmax. induction fuel as [|fuel IH]; intros st curll xs nextll ns d count C Hcur Hnext Hd Hxs Hlast Hfuel;
    pose proof (cn_wf _ _ _ _ _ C) as W;
    (destruct xs as [|x xs];
      [apply Forall2_nil_inv_r in Hcur as ->; exists st, count; split; [done|]; split; [by apply evolves_refl|];
       rewrite Hxs in C by done; by eapply counted_all|];
     apply Forall2_cons_inv_r in Hcur as (key & rest & Hkey & Hrest & ->); cbn [countdegree_loop];
     rewrite (u64_small (Z.of_nat max)) by lia;
     destruct (Z.leb_spec (Z.of_nat d) (Z.of_nat max)) as [Hle|Hle];
      [|exists st, count; split; [done|]; split; [by apply evolves_refl|]; assert (d = S max) as -> by lia;
        rewrite Hlast in C by done; by eapply counted_depth]).
  { exfalso. rewrite zlen_cons in Hfuel. pose proof (zlen_nonneg xs). pose proof (zlen_nonneg ns).
    pose proof (cn_count _ _ _ _ _ C) as Hc. pose proof (filter_le (fun y => negb (colour st y =? 0)) U). unfold coloured in Hc. lia. }
  rewrite (at_node st key x) by done. cbn [mbind outcome_bind]. rewrite key_of_id.
  destruct (cached_getkeysigs_spec dbctx st x W readable (cn_cached _ _ _ _ _ C)) as (st1 & sigs & -> & He1 & Hc1 & Hsig & Hm1 & _).
  cbn [mbind outcome_bind]. pose proof (counting_load _ _ _ _ _ _ _ C He1 Hc1 Hm1) as C1.
  assert (Hrev : forall y, y ∈ rev (signers dbctx x) <-> y ∈ signers dbctx x)
    by (intros y; by rewrite list_elem_of_In, <- List.in_rev, <- list_elem_of_In).
  destruct (degree_sigs_spec key d x xs sigs st1 (rev (signers dbctx x)) nextll ns count) as (st2 & nl & ns2 & c2 & -> & He2 & Hn2 & C2 & Hm & Hz);
    [done | by apply He1 | done | by eapply evolves_list | intros y; apply Hrev | lia |].
  cbn [mbind outcome_bind]. pose proof (evolves_trans _ _ _ He1 He2) as He. rewrite zlen_cons in Hfuel.
  apply counting_done in C2; [|intros z Hz'; apply Hm; left; by apply Hrev].
  assert (Hgo : forall r, r = (match rest with
    | [] => countdegree_loop fuel dbctx st2 nl [] true (u64 (Z.of_nat d + 1)) (Z.of_nat max) c2
    | _ => countdegree_loop fuel dbctx st2 rest nl true (Z.of_nat d) (Z.of_nat max) c2 end) ->
    exists st' count', r = Done (st', count') /\ evolves st2 st' /\ counted st' max count').
  { intros r ->. destruct xs as [|x' xs].
    - apply Forall2_nil_inv_r in Hrest as ->. rewrite u64_small by lia. replace (Z.of_nat d + 1) with (Z.of_nat (S d)) by lia.
      apply (IH st2 nl ns2 [] [] (S d) c2); [apply counting_deeper; [lia | done] | done | by apply Forall2_nil_2 | lia | done | done |].
      rewrite zlen_nil in *. lia.
    - pose proof (evolves_list _ _ _ _ He Hrest) as Hr2.
      destruct rest as [|r0 rest]; [by apply Forall2_nil_cons_inv in Hr2|].
      apply (IH st2 (r0 :: rest) (x' :: xs) nl ns2 d c2); [done | done | done | lia | done | lia | lia]. }
  destruct (Hgo _ eq_refl) as (st' & c' & E & He' & Hc'). exists st', c'. split; [exact E|]. split; [by eapply evolves_trans | done].
Qed.
End Count.

(** C34: the number of keys within a degree, counted along the signatures on keys,
    is the number of keys from which a chain of at most that many signatures
    leads to the key; the count ends after one turn per key that can be met. *)
Theorem countdegree_correct {D} {DB : KeyDb D} (dbctx : D) st have h U max fuel :
  graph_readable dbctx -> wf_state st -> cached_ok dbctx st -> (forall x, colour st x = 0) -> at_ st have h ->
  NoDup U -> (forall x y, x ∈ U -> y ∈ signers dbctx x -> y ∈ U) -> zlen U < 2 ^ 31 -> h ∈ U ->
  Z.of_nat max < 2 ^ 31 -> zlen U + 1 <= Z.of_nat fuel ->
  exists st' keys, countdegree fuel dbctx st have true (Z.of_nat max) = Done (st', zlen keys) /\
    NoDup keys /\ forall x, x ∈ keys <-> within dbctx h max x.
Proof.
  intros Hg W Hc H0 Hh Hnd Hcl Hsz HhU Hmax Hfuel.
  assert (Hno : forall y, ~ marked st y) by (intros y Hy; by apply Hy).
  assert (Ec : coloured U st = []).
  { unfold coloured. rewrite (List.filter_ext _ (fun _ => false)) by (intros y; by rewrite H0). clear. by induction U. }
  destruct (countdegree_loop_spec dbctx h U Hg Hnd Hcl Hsz max fuel Hmax st [have] [h] [] [] 1 0) as (st' & count & E & He & Hn & Hm);
    [ | by repeat constructor | by apply Forall2_nil_2 | lia | done | done | | ].
  - split; try done; [by intros y ?%Hno | by intros y []%not_elem_of_nil | | lia | | by rewrite Ec].
    + intros x ->%list_elem_of_singleton. split; [done|]. exists 0%nat. split; [lia | constructor].
    + intros m y Hlt Hy. assert (m = 0%nat) as -> by lia. inversion Hy; subst. by left; left.
  - rewrite zlen_cons, zlen_nil. lia.
  - exists st', (coloured U st'). rewrite <- Hn. split; [exact E|]. split.
    + unfold coloured. by apply NoDup_ListNoDup, List.NoDup_filter, NoDup_ListNoDup.
    + intros x. rewrite <- Hm. unfold coloured, marked. rewrite list_elem_of_In, List.filter_In, <- list_elem_of_In, negb_true_iff, Z.eqb_neq.
      split; [by intros [_ ?]|]. intros Hx. split; [|done]. apply Hm in Hx as (m & _ & Hx). by eapply chain_in_U.
Qed.

(** Three keys have signed the key 1 directly or by way of another. *)
Lemma countdegree_correct_witness :
  exists st have st' keys, countdegree (DB := web_db) 5 web st have true 2 = Done (st', zlen keys) /\
    NoDup keys /\ forall x, x ∈ keys <-> @within _ web_db web 1 2 x.
Proof.
  destruct (@cached_getkeysigs_spec _ web_db web empty_state 1 empty_state_wf web_readable (empty_state_cached web))
    as (st & l & _ & He & Hc & Hl & Hm & Hld).
  assert (Hs : @signers _ web_db web 1 = [2; 4]) by (vm_compute; reflexivity). rewrite Hs in Hl.
  destruct Hld as [Hg | Hn]; [|by rewrite Hs in Hn].
  assert (H1 : 1 ∈ ids st) by (destruct (decide (1 ∈ ids st)); [done | by rewrite key_of_new in Hg]).
  apply list_elem_of_lookup in H1 as [have Hw%at_lookup].
  destruct (@countdegree_correct _ web_db web st have 1 [1; 2; 3; 4] 2 5) as (st' & keys & E & H).
  - exact web_readable.
  - apply He.
  - exact Hc.
  - intros x. unfold colour. destruct (Hm x) as [-> _]. by rewrite key_of_new by (by intros []%elem_of_nil).
  - exact Hw.
  - apply (bool_decide_unpack _). vm_compute. exact I.
  - exact web_closed.
  - reflexivity.
  - by left.
  - reflexivity.
  - vm_compute. discriminate.
  - exists st, have, st', keys. split; [exact E | exact H].
Defined.

(** The whole program for the key 1: two keys have signed it, one more has signed
    one of them, and that one has signed itself. *)
Example sixdegrees_example :
  exists st out, sixdegrees (DB := web_db) 8 web empty_state 1 = Done (st, out) /\
    take 62 out = str "Six degrees for 0x0000000000000001 (A):" ++ [10] ++ [9; 9] ++ str "Signed by" ++ [9; 9] ++ str "Signs" ++ [10] ++ str "Deg".
Proof. eexists _, _. split; vm_compute; reflexivity. Qed.
