(* ===== verification/Split.v ===== *)
(** Splitting a stream of keys into files (splitkeys.c). *)

From Stdlib Require Import String.
From S2P Require Import Prelude CLib OpenPGP Streams Packets Armor Keys FsDb FsDbFacts.

Section Split.
Variable malloc_ok : Z -> bool.

(** What the file of this number holds before the program runs. *)
Variable existing : Z -> list Z.

(** [open(splitfile, O_WRONLY | O_CREAT)], which works here, does not empty a
    file that is there. *)
Definition split_file (count : Z) (packets : list openpgp_packet) : outcome (list Z) :=
  '(out, _) ← write_openpgp_stream (mkOut []) packets;
  Done (out_written out ++ drop (length (out_written out)) (existing count)).

(** One turn reads up to [maxkeys] public key packets; if the last packet is one,
    it begins the next file.  With a single packet in the list [tmp] is not set in
    this turn: it is NULL, and the list is used after it was freed, or it points
    to a node that was freed in the turn before. *)
Fixpoint splitkeys_loop (n fuel : nat) (s : file_in) (packets : list openpgp_packet) (maxkeys count : Z)
    : outcome (list (list Z)) :=
  match n with
  | O => Fault OutOfFuel
  | S n =>
      '(s, _, packets) ← read_openpgp_stream malloc_ok fuel s (Some packets) maxkeys;
      match default [] packets with
      | [] => Done []
      | [_] => Fault UseAfterFree
      | packets =>
          match last packets with
          | Some p =>
              if pkt_tag p =? OPENPGP_PACKET_PUBLICKEY then
                file ← split_file count (removelast packets);
                files ← splitkeys_loop n fuel s [p] maxkeys (i32 (count + 1));
                Done (file :: files)
              else file ← split_file count packets; Done [file]
          | None => Done []
          end
      end
  end.

(** The files that are written; [None] for a number that is 0. *)
Definition splitkeys (maxkeys : Z) (stdin : list Z) : outcome (option (list (list Z))) :=
  if maxkeys =? 0 then Done None
  else
    files ← splitkeys_loop (S (S (length stdin))) (S (length stdin)) (mkIn stdin) [] maxkeys 0;
    Done (Some files).
End Split.

(** * Reading a number of keys *)

Definition is_pub (p : openpgp_packet) : bool := pkt_tag p =? OPENPGP_PACKET_PUBLICKEY.

Definition pubs (ps : list openpgp_packet) : nat := length (List.filter is_pub ps).

(** The packets up to the [m]-th public key. *)
Fixpoint take_keys (m : nat) (ps : list openpgp_packet) : list openpgp_packet * list openpgp_packet :=
  match m, ps with
  | O, _ => ([], ps)
  | _, [] => ([], [])
  | S m', p :: ps => let '(a, b) := take_keys (if is_pub p then m' else m) ps in (p :: a, b)
  end.

Lemma take_keys_spec ps : forall m, let '(a, b) := take_keys m ps in
  ps = a ++ b /\ ((pubs a < m)%nat /\ b = [] \/ pubs a = m /\ (m = 0%nat \/ exists a' p, a = a' ++ [p] /\ is_pub p = true)).
Proof.
  induction ps as [|p ps IH]; intros [|m]; cbn [take_keys]; [cbn; auto with lia.. |].
  destruct (is_pub p) eqn:Ep; unfold pubs.
  - destruct m as [|m].
    { destruct ps; cbn [take_keys List.filter]; rewrite Ep; (split; [done|]); right; split; [done | right; by exists [], p | done | right; by exists [], p]. }
    specialize (IH (S m)). destruct (take_keys (S m) ps) as [a b]. destruct IH as [-> IH]. split; [done|].
    cbn [List.filter]. rewrite Ep. cbn [length]. fold (pubs a). destruct IH as [[? ?]|[Hm [?|(a' & q & -> & Hq)]]]; [left; auto with lia | lia | right].
    split; [lia|]. right. by exists (p :: a'), q.
  - specialize (IH (S m)). destruct (take_keys (S m) ps) as [a b]. destruct IH as [-> IH]. split; [done|].
    cbn [List.filter]. rewrite Ep. fold (pubs a). destruct IH as [[? ?]|[Hm [?|(a' & q & -> & Hq)]]]; [by left | lia | right].
    split; [done|]. right. by exists (p :: a'), q.
Qed.

Definition readable_packets (malloc_ok : Z -> bool) (ps : list openpgp_packet) : Prop :=
  Forall encodable ps /\ Forall version_sane ps /\ Forall (fun p => malloc_ok (pkt_length p) = true) ps.

Lemma read_loop_max malloc_ok ps : forall m fuel s c keys nodes, readable_packets malloc_ok ps -> in_file s (encode_packets ps) ->
  (length ps < fuel)%nat -> 0 <= keys -> keys + Z.of_nat m < 2 ^ 31 -> (0 < keys + Z.of_nat m) ->
  exists s', read_loop malloc_ok fuel (keys + Z.of_nat m) s c ONAK_E_OK keys nodes =
    Done (s', ONAK_E_OK, nodes ++ map node_of (take_keys m ps).1) /\ in_file s' (encode_packets (take_keys m ps).2).
Proof.
  induction ps as [|p ps IH]; intros m fuel s c keys nodes (Hp & Hv & Hm) Hr Hf Hk Hmax Hpos; (destruct fuel as [|fuel]; [cbn in Hf; lia|]);
    cbn [read_loop status_ok andb]; rewrite (proj2 (Z.eqb_neq (keys + Z.of_nat m) 0)) by lia; cbn [orb];
    (destruct m as [|m]; [destruct (Z.ltb_spec keys (keys + Z.of_nat 0)); [lia|] | destruct (Z.ltb_spec keys (keys + Z.of_nat (S m))); [|lia]]);
    cbn [take_keys fst snd map].
  - exists s. rewrite app_nil_r. done.
  - destruct s as [r]. unfold in_file in Hr. cbn in Hr. subst r. cbn. exists (mkIn []). by rewrite app_nil_r.
  - exists s. rewrite app_nil_r. done.
  - apply Forall_cons in Hp as [Hp1 Hp], Hv as [Hv1 Hv], Hm as [Hm1 Hm]. rewrite encode_packets_cons in Hr. unfold encode_packet in Hr.
    cbn [app] in Hr. rewrite <- !app_assoc in Hr. destruct (getc_spec (R := in_file) s _ _ c Hr) as (s1 & -> & Hr1). cbn [mbind outcome_bind Z.eqb Pos.eqb].
    destruct (read_packet_spec (R := in_file) malloc_ok p (encode_packets ps) s1 keys nodes Hp1 Hv1 Hm1 Hr1) as (s2 & c2 & -> & Hr2).
    cbn [mbind outcome_bind]. cbn [length] in Hf. fold (is_pub p). destruct (is_pub p).
    + rewrite i32_small by lia. replace (keys + Z.of_nat (S m)) with ((keys + 1) + Z.of_nat m) by lia.
      destruct (IH m fuel s2 c2 (keys + 1) (nodes ++ [node_of p])) as (s3 & -> & Hr3); [done | done | lia.. |].
      exists s3. destruct (take_keys m ps) as [a b]. cbn [fst snd map] in *. by rewrite <- app_assoc.
    + destruct (IH (S m) fuel s2 c2 keys (nodes ++ [node_of p])) as (s3 & -> & Hr3); [done | done | lia.. |].
      exists s3. destruct (take_keys (S m) ps) as [a b]. cbn [fst snd map] in *. by rewrite <- app_assoc.
Qed.

Lemma read_max malloc_ok m ps fuel s pre : readable_packets malloc_ok ps -> in_file s (encode_packets ps) ->
  (length ps < fuel)%nat -> 0 < Z.of_nat m < 2 ^ 31 ->
  exists s', read_openpgp_stream malloc_ok fuel s (Some pre) (Z.of_nat m) = Done (s', ONAK_E_OK, Some (pre ++ (take_keys m ps).1)) /\
    in_file s' (encode_packets (take_keys m ps).2).
Proof.
  intros Hp Hr Hf Hm. destruct (read_loop_max malloc_ok ps m fuel s 0 0 [] Hp Hr Hf) as (s' & E & Hr'); [lia.. |].
  rewrite Z.add_0_l in E. cbn [app] in E. exists s'. unfold read_openpgp_stream. rewrite E. cbn [mbind outcome_bind].
  by rewrite trim_last_ok, packets_of_nodes_of.
Qed.

(** * The files *)

Definition starts_key (ps : list openpgp_packet) : Prop := match ps with p :: _ => is_pub p = true | [] => False end.

Lemma pubs_app a b : pubs (a ++ b) = (pubs a + pubs b)%nat.
Proof. unfold pubs. by rewrite List.filter_app, length_app. Qed.

(** A file that held [old], overwritten from its start. *)
Definition overwritten (old : list Z) (g : list openpgp_packet) : list Z :=
  encode_packets g ++ drop (length (encode_packets g)) old.

Lemma split_file_spec existing count ps : Forall encodable ps -> split_file existing count ps = Done (overwritten (existing count) ps).
Proof.
  intros He. unfold split_file, overwritten.
  destruct (write_spec (W := out_file) (lim := zlen (encode_packets ps) + 6) ps (mkOut []) []) as ([w] & -> & Hw);
    [done | done | rewrite zlen_nil; lia |].
  unfold out_file in Hw. cbn in *. by subst w.
Qed.

Definition good_group (m : nat) (g : list openpgp_packet) : Prop := starts_key g /\ (pubs g <= m)%nat.

(** The stream ends with a public key that nothing follows. *)
Definition ends_bare (ps : list openpgp_packet) : bool := from_option is_pub false (last ps).

(** What the loop gives: the files of the groups, or the fault. *)
Definition split_result (existing : Z -> list Z) (count : Z) (m : nat) (ps : list openpgp_packet) (r : outcome (list (list Z))) : Prop :=
  if ends_bare ps then r = Fault UseAfterFree
  else exists groups, r = Done (imap (fun i => overwritten (existing (count + Z.of_nat i))) groups) /\
    concat groups = ps /\ Forall (good_group m) groups.

Lemma ends_bare_app a b : b <> [] -> ends_bare (a ++ b) = ends_bare b.
Proof. intros Hb. unfold ends_bare. rewrite last_app. by destruct (last b) eqn:E; [|apply last_None in E]. Qed.

Lemma split_last existing count m x y l :
  Forall encodable (x :: y :: l) -> good_group m (x :: y :: l) -> ends_bare (x :: y :: l) = false ->
  split_result existing count m (x :: y :: l) (file ← split_file existing count (x :: y :: l); Done [file]).
Proof.
  intros He Hg Hz. unfold split_result. rewrite Hz, split_file_spec by done. exists [x :: y :: l].
  split; [cbn; by rewrite Z.add_0_r|]. split; [cbn; by rewrite app_nil_r | by apply Forall_singleton].
Qed.

Lemma split_next existing count m g p b r : Forall encodable g -> good_group m g -> split_result existing (count + 1) m (p :: b) r ->
  split_result existing count m (g ++ p :: b) (file ← split_file existing count g; files ← r; Done (file :: files)).
Proof.
  intros He Hg. unfold split_result. rewrite ends_bare_app, split_file_spec by done. destruct (ends_bare _); [by intros ->|].
  intros (groups & -> & Hc & Hgs). exists (g :: groups). split; [|split; [cbn; by rewrite Hc | by constructor]].
  cbn. rewrite Z.add_0_r. do 2 f_equal. apply imap_ext. intros i x _. cbn. do 2 f_equal. lia.
Qed.

Lemma splitkeys_loop_spec malloc_ok existing m fuel : (2 <= m)%nat -> Z.of_nat m < 2 ^ 31 ->
  forall n ps pre s count, readable_packets malloc_ok ps -> readable_packets malloc_ok pre -> in_file s (encode_packets ps) ->
  (length ps < fuel)%nat -> (length ps < n)%nat -> (pre = [] \/ exists p, pre = [p] /\ is_pub p = true) ->
  starts_key (pre ++ ps) -> 0 <= count -> count + zlen ps < 2 ^ 31 ->
  split_result existing count m (pre ++ ps) (splitkeys_loop malloc_ok existing n fuel s pre (Z.of_nat m) count).
Proof.
  intros Hm Hm2. induction n as [|n IH]; intros ps pre s count Hps Hpre Hr Hf Hn Hpre1 Hst Hc0 Hc; [lia|]. cbn [splitkeys_loop].
  destruct (read_max malloc_ok m ps fuel s pre Hps Hr Hf) as (s1 & -> & Hr1); [lia|]. cbn [mbind outcome_bind from_option id].
  pose proof (take_keys_spec ps m) as Ht. destruct (take_keys m ps) as [a b]. cbn [fst snd] in *. destruct Ht as [-> Ht].
  destruct Hps as (He & Hv & Hma). apply Forall_app in He as [He1 He2], Hv as [Hv1 Hv2], Hma as [Hma1 Hma2].
  assert (Hp1 : (pubs pre <= 1)%nat) by (destruct Hpre1 as [->|(p & -> & Ep)]; unfold pubs; cbn; [lia | rewrite Ep; cbn; lia]).
  assert (Hep : Forall encodable pre) by apply Hpre.
  destruct Ht as [[Hlt ->]|[Ha [?|(a' & p & -> & Hp)]]]; [| lia |].
  - rewrite app_nil_r in *. assert (Hea : Forall encodable (pre ++ a)) by by apply Forall_app.
    assert (Hg : good_group m (pre ++ a)) by (split; [done | rewrite pubs_app; lia]).
    destruct (pre ++ a) as [|x [|y l]] eqn:E; [done | unfold split_result, ends_bare; cbn in Hst |- *; by rewrite Hst |].
    destruct (last (x :: y :: l)) as [z|] eqn:El; [|by apply last_None in El]. fold (is_pub z).
    assert (Hz : ends_bare (x :: y :: l) = is_pub z) by (unfold ends_bare; by rewrite El). destruct (is_pub z) eqn:Ez; [|by apply split_last].
    apply last_Some in El as [l' El]. rewrite El in Hea, Hg |- *. rewrite List.removelast_last.
    assert (l' <> []) by (by intros ->). apply Forall_app in Hea as [Hea Hez].
    apply split_next; [done | |].
    { destruct Hg as [Hg1 Hg]. rewrite pubs_app in Hg. split; [by destruct l' | lia]. }
    assert (Hzr : readable_packets malloc_ok [z]).
    { assert (Hall : readable_packets malloc_ok (pre ++ a)) by (destruct Hpre as (? & ? & ?); split_and!; by apply Forall_app).
      rewrite E, El in Hall. destruct Hall as (H1 & H2 & H3). apply Forall_app in H1 as [_ H1], H2 as [_ H2], H3 as [_ H3]. done. }
    assert (0 < length a)%nat.
    { destruct a; [|cbn; lia]. rewrite app_nil_r in E. destruct Hpre1 as [-> | (? & -> & _)]; [done|].
      rewrite El in E. destruct l' as [|? [|]]; done. }
    rewrite i32_small by (unfold zlen in *; lia).
    apply (IH [] [z] s1 (count + 1)); [by repeat split | done | done | cbn; lia | cbn; lia | eauto | done | lia |].
    rewrite zlen_nil. unfold zlen in Hc. lia.
  - assert (Ha' : (pubs a' = m - 1)%nat) by (rewrite pubs_app in Ha; unfold pubs in *; cbn in Ha; rewrite Hp in Ha; cbn in Ha; lia).
    assert (a' <> []) by (intros ->; cbn in Ha'; lia).
    rewrite (app_assoc pre a' [p]). pose proof (last_snoc p (pre ++ a')) as El. pose proof (List.removelast_last (pre ++ a') p) as Er.
    destruct ((pre ++ a') ++ [p]) as [|x [|y l]] eqn:E.
    { by destruct (pre ++ a'). }
    { apply (f_equal length) in E. rewrite !length_app in E. destruct a'; [done|]. cbn in E. lia. }
    pose proof Hp as Hp'. unfold is_pub in Hp'. rewrite El, Hp', Er. clear E El Er Hp' x y l.
    apply Forall_app in He1 as [He1 Hep1], Hv1 as [Hv1 Hvp], Hma1 as [Hma1 Hmap].
    rewrite <- !app_assoc in *. cbn [app] in *. rewrite !zlen_app, zlen_cons in Hc. rewrite !length_app in Hf, Hn. cbn [length] in Hf, Hn.
    pose proof (zlen_nonneg a'). pose proof (zlen_nonneg b). rewrite i32_small by lia. rewrite app_assoc.
    apply split_next; [by apply Forall_app | |].
    { split; [|rewrite pubs_app; lia]. destruct pre; [by destruct a' | done]. }
    apply (IH b [p] s1 (count + 1)); [by repeat split | by repeat split | done | lia | lia | eauto | done | lia | lia].
Qed.

Lemma splitkeys_one malloc_ok existing p ps : readable_packets malloc_ok (p :: ps) -> is_pub p = true ->
  splitkeys malloc_ok existing 1 (encode_packets (p :: ps)) = Fault UseAfterFree.
Proof.
  intros Hp Ep. unfold splitkeys. change (1 =? 0) with false. cbv iota. cbn [splitkeys_loop]. pose proof (encode_packets_count (p :: ps)).
  destruct (read_max malloc_ok 1 (p :: ps) (S (length (encode_packets (p :: ps)))) (mkIn (encode_packets (p :: ps))) [] Hp) as (s1 & E & _);
    [done | lia | lia |].
  change (Z.of_nat 1) with 1 in E. rewrite E. cbn [mbind outcome_bind from_option id take_keys]. rewrite Ep. by destruct ps.
Qed.

(** C30: what splitkeys does with a stream of keys, for every positive number
    of keys.  With two or more to a file and a stream that does not end with a
    bare public key nothing is lost: the files hold the packets of the stream one
    after the other, each begins with a public key and has at most as many keys
    as were asked for, and what a longer file of that name held before is left
    behind it.  With one key to a file, or a bare public key at the end, the
    program uses a list that it has freed. *)
Theorem splitkeys_correct malloc_ok existing m ps :
  readable_packets malloc_ok ps -> starts_key ps -> zlen ps < 2 ^ 31 -> 1 <= m < 2 ^ 31 ->
  if (m =? 1) || ends_bare ps then splitkeys malloc_ok existing m (encode_packets ps) = Fault UseAfterFree
  else exists groups,
    splitkeys malloc_ok existing m (encode_packets ps) =
      Done (Some (imap (fun i => overwritten (existing (Z.of_nat i))) groups)) /\
    concat groups = ps /\ Forall (fun g => starts_key g /\ Z.of_nat (pubs g) <= m) groups.
Proof.
  intros Hp Hs Hz Hm. destruct (Z.eqb_spec m 1) as [-> | Hm1]; cbn [orb].
  { destruct ps as [|p ps]; [done|]. by apply splitkeys_one. }
  pose proof (encode_packets_count ps) as Hn. unfold splitkeys. rewrite (proj2 (Z.eqb_neq m 0)) by lia.
  pose proof (splitkeys_loop_spec malloc_ok existing (Z.to_nat m) (S (length (encode_packets ps))) ltac:(lia) ltac:(lia)
    (S (S (length (encode_packets ps)))) ps [] (mkIn (encode_packets ps)) 0) as H. rewrite Z2Nat.id in H by lia.
  unfold split_result in H. cbn [app] in H.
  destruct (ends_bare ps).
  - rewrite H; [done | done | by repeat split | done | lia | lia | by left | done | lia | lia].
  - destruct H as (groups & -> & Hc & Hg); [done | by repeat split | done | lia | lia | by left | done | lia | lia |].
    exists groups. split; [done|]. split; [done|]. eapply Forall_impl; [exact Hg|]. intros g [? ?]. split; [done | lia].
Qed.

Definition small_key (c : Z) : list openpgp_packet :=
  [mkPacket OPENPGP_PACKET_PUBLICKEY true 1 [4]; mkPacket OPENPGP_PACKET_UID true 1 [c]].

Definition three_keys : list openpgp_packet := small_key 65 ++ small_key 66 ++ small_key 67.

(** Three keys, at most two to a file: the first file has one, and the second is
    written over a longer one. *)
Definition old_files (i : Z) : list Z := if i =? 1 then replicate 14 7 else [].

Lemma splitkeys_correct_witness :
  (if (2 =? 1) || ends_bare three_keys then splitkeys (fun _ => true) old_files 2 (encode_packets three_keys) = Fault UseAfterFree
   else exists groups, splitkeys (fun _ => true) old_files 2 (encode_packets three_keys) =
      Done (Some (imap (fun i => overwritten (old_files (Z.of_nat i))) groups)) /\
    concat groups = three_keys /\ Forall (fun g => starts_key g /\ Z.of_nat (pubs g) <= 2) groups) /\
  splitkeys (fun _ => true) old_files 2 (encode_packets three_keys) =
    Done (Some [encode_packets (small_key 65); encode_packets (small_key 66 ++ small_key 67) ++ [7; 7]]).
Proof.
  split; [|vm_compute; reflexivity]. apply (splitkeys_correct (fun _ => true) old_files 2 three_keys).
  - split; [|split]; apply (bool_decide_unpack _); vm_compute; exact I.
  - reflexivity.
  - reflexivity.
  - lia.
Defined.
